(* ===== verification/_CoqProject ===== *)
-Q . S2P
Prelude.v
Mem.v
MinMax.v
CString.v
Random.v
Queue.v
Stack.v
Tree.v
TreeModel.v
TreeSpec.v
TreeIter.v
Treap.v
Physical.v
Paging.v
PageTable.v
PagingSpec.v
LargePages.v
Unmap.v
Regions.v
PagingInit.v
BootPaging.v
Heap.v
Input.v
InputQueue.v
ByteQueue.v
PS2.v
PS2Props.v
Unicode.v
Alloc.v
Memcpy.v
Printf.v
PrintfSpec.v
PrintfProps.v
Vector.v
CppVector.v
CppString.v
CppStringProps.v
Kthread.v
Sched.v
Sync.v
Mutex.v
KMain.v
Channel.v
Ports.v
Interrupt.v
Pic.v
I8042.v
PS2Init.v
Entry.v
Serial.v
Stdio.v
Filesystem.v
Ramdisk.v
Vfs.v
Devfs.v
Layout.v
Ustar.v
UstarProps.v
Fat.v
FsInit.v
PE.v
PEProps.v
BootSwitch.v
Graphics.v
RectStack.v
Xcursor.v
GraphicsProps.v
Drawing.v
Screen.v
Console.v
Blend.v
Display.v
GraphicsInit.v
Overlay.v
Output.v
