(* ===== verification/Prelude.v ===== *)
(** * Helos1: a verification development

    Helos1 is a 64-bit kernel loaded by UEFI (C, with the file systems in C++ and
    entry code in assembly).  This library models its own logic, below src/, and
    proves what makes each part correct.  It has a data structure layer, memory
    management, threads, drivers behind I/O ports, the display, and file systems;
    this header says what each file models, how it corresponds to the source, what
    its theorems show and what is left out.  Definitions keep the names of the
    source where Rocq allows.

    ** How the code is modelled

    - Machine integers are [Z] with the wrap-around written out ([u8], [u16],
      [u32], [u64], [i32], [i64], Prelude.v).  An [int] is left unwrapped only
      where a theorem bounds it.
    - Memory is one function from addresses to bytes (Mem.v), with little-endian
      loads and stores, [memset], [memcpy] and [memmove]; [same_outside] is the
      frame of an operation.  Packed structures are lists of fields (Layout.v).
    - Stateful code takes and returns its state.  Code that may fault, panic or run
      out of fuel returns an [option]: the outer [None] is never a result of the
      source (a null result is an option inside), so a theorem that gives [Some]
      includes that the call returns.
    - A loop without a structural bound has fuel.  Each theorem says how much is
      enough: more than the length of a string, more than the nodes of a treap (the
      entry points of Tree.v supply it), more than the waiting threads, the doublings
      a vector needs, more than the files of an archive, more than the polls a chip
      answers "busy".  A loop that does not end is a theorem that no fuel is enough.
    - What is not under src/ of the kernel is a parameter with laws that state its
      documented behaviour: the allocator ([Allocator], Alloc.v, instance [bump]),
      the chips behind the I/O ports ([Ports], [Pics], [Rtc], [Uart], Ports.v,
      instance [pc]; [I8042], I8042.v), the firmware's graphics protocol ([Gop],
      GraphicsInit.v, instance [video_card]).  A component a client only uses
      through a contract is a class too, with the source's implementation as an
      instance: [ByteQueue] (instance: the ring buffer), [EventQueue]
      (InputQueue.v), [RectStack] (RectStack.v), [BlockDevice] (instances: ramdisk,
      slice).
    - Interrupts are off (or a spin lock held) around every critical section of the
      source; such a section is one step.  The scheduler's interleavings are
      explicit: Mutex.v runs any sequence of steps of any threads, KMain.v any
      interrupts between the steps of the event loop.

    ** Data structures and C runtime

    - Queue.v, Stack.v: src/util/queue.c and stack.c.  [queue_refines_fifo] and
      [stack_refines_lifo]: any sequence of operations returns what a bounded list
      returns and writes only the buffer.  ByteQueue.v is the interface the drivers
      use.
    - Tree.v (operations), TreeModel.v (a heap holds a tree), TreeSpec.v (reference
      versions on functional trees), TreeIter.v (iteration), Treap.v (theorems):
      src/util/tree.c.  [tree_refines_map]: sequences of insertions, deletions and
      searches are a finite map; the heap order and the father pointers are kept.
    - Vector.v: src/util/vector.c over any allocator; CppVector.v: the class around
      it (src/cppruntime/vector.hpp), [vectors_refine_lists].  Random.v, MinMax.v: the
      generator of src/driver/random and the inline functions of minmax.h.
    - Unicode.v: src/runtime/unicode.c, with the round trip of encoding and
      decoding.  CString.v: strlen, the comparison functions and the assembly
      [memset] and [memmove].  Memcpy.v: src/extlib/memcpy.c, which copies words
      between any two alignments; [memcpy_correct] is the copy Mem.v assumes of the
      name [memcpy].  Stdio.v: the UTF-16 buffer of src/runtime/stdio.c.
    - Printf.v: src/extlib/printf.c, from the format in memory to the output
      function, a callback that stores a character.  PrintfSpec.v gives the text of
      a format (flags, width, precision, digits) without the loops and the 32-byte
      buffer; PrintfProps.v proves [vsnprintf_correct]: the count returned is the whole
      text's length, and what fits of the text is stored with its terminator.  The
      types are those of the compiler's target, where long has 32 bits.
    - Output.v: where text goes (the rest of stdio.c): the serial port, the display
      once it is set up, the firmware before; [io_Errorf_correct] composes
      PrintfProps.v, Serial.v, Stdio.v and Display.v.
    - CppString.v, CppStringProps.v: src/cppruntime/string.hpp.  Objects live at
      addresses, so that aliasing is visible; [strings_refine_values] relates every
      operation to its effect on a map of values.

    ** Memory

    - Physical.v: the frame bitmap of paging_physical.c; allocated frames were free,
      are zeroed and are marked, and a failure changes nothing.
    - Paging.v (paging_map.c), PageTable.v (the processor's [translate], the
      invariant [pt_ok]), PagingSpec.v (what each mapping call does to the
      translation; a failure when the frames run out), Unmap.v (the calls that unmap,
      and the round trip).
    - PagingInit.v and BootSwitch.v: the two halves of runtime_InitPaging
      (paging_init.c).  LargePages.v and Regions.v describe tables as a list of mapped
      regions, BootPaging.v applies them to the mappings of the kernel
      ([boot_translate] is the specification), and [runtime_InitPaging_correct]
      (BootSwitch.v) goes from the firmware's memory map to the relocated image.
    - Heap.v: heap_break.c and the mapping cursor of memory.h.

    ** Threads

    - Kthread.v: kthread.c, kthread_switch.c, internal.h, metrics.c for the one core
      the source supports; the treaps of threads are the maps they implement.
      Sched.v: the invariant (every thread runs or waits exactly once) and the
      operations.  Sync.v: condiction.c and mutex.c, calls that wait being split at
      the yield.  Mutex.v: mutual exclusion in every reachable state.  Channel.v:
      channel.c.  KMain.v: the event queue and the event loop of kmain.c; in every
      run with interrupts the accepted events are printed once and in order.

    ** Drivers

    - Interrupt.v: the descriptor tables and gates of src/interrupt.  Entry.v: the
      assembly entries of exceptions and system calls (handler.asm.S, syscall.S), the
      calling convention wrapper and the paging mode switch, on registers and a
      stack; what their C handlers report.  Ports.v: port
      access and the documented chips.  Pic.v: the interrupt controllers, the
      dispatch of an interrupt and the clock.  Serial.v: the serial ports; a string
      is sent whole and in order.
    - PS2.v, PS2Props.v: the keyboard and mouse handlers of ps2.c against what the
      devices send.  I8042.v, PS2Init.v: the controller and its set-up at boot.
      Input.v, InputQueue.v: input.c and its event queue.

    ** Display

    - Graphics.v: src/graphics (graphics.c, internal_helpers.h, unifont.c, color.h).
      GraphicsProps.v (damage, clipped copies), Drawing.v (which pixels a call
      paints), Screen.v (the device agrees with the back buffer outside the damage),
      Console.v (characters and scrolling), Blend.v (the cursor), RectStack.v (the
      list of rectangles), Display.v (the theorems), GraphicsInit.v (graphics_Init and
      the first picture of main.c, which establish what Display.v and Output.v need),
      Overlay.v (the thread of kmain.c that shows how the time is spent, with the
      text its snprintf makes).
      Xcursor.v: the cursor file.

    ** Programs and file systems

    - PE.v, PEProps.v: header search and base relocation of src/execformat/pe.
    - Filesystem.v: the virtual methods of filesystem.hpp as a record, format.cpp,
      reading and writing of src/driver/block; Ramdisk.v: ramdisks with a buffer of
      their own, from allocation to destruction.  Vfs.v: mounting and open files (vfs.cpp).  Devfs.v: the
      device file system and the frame buffer device.  Ustar.v, UstarProps.v: the TAR
      file system.  Fat.v: the boot sector.  FsInit.v: filesystem_init.cpp, the
      composition: after boot "/" lists the archive and "/dev" the frame buffer.

    A few theorems state what the source does where it does not do what it means to
    ([USTAR_type_bits_lost], [ResizeBuffer_short], [smp_thread_Sleep_returns], ...).

    ** Not modelled

    - Services of the firmware but the graphics protocol and the memory map (efimain.c,
      efiMalloc, ExitBootServices); the jump to kMain at the end of
      runtime_InitPaging.
    - kMain's sequence of set-up calls, whose members are modelled, its test thread;
      the printing of the handlers of exceptions and system calls; src/vterm.
    - Receiving from a channel, TrySend and TryReceive, unmounting: no body in the
      source, or only -ENOSYS.
    - The copying constructors of the C++ vector, which do not compile; the file
      systems, which use vectors, are modelled on lists.  Destructors of file
      systems, which live for ever.
    - Messages printed for diagnosis, TLB invalidation, caches.
    - Third-party code under src/extlib, except four string functions (CString.v),
      memcpy.c and printf.c; of the latter the floating-point conversions, which
      are parameters ([_ftoa], [_etoa]).  Embedded data, fonts, headers of user
      programs, build files. *)

From Stdlib Require Export ZArith Lia.
From stdpp Require Export base gmap list list_numbers.

#[export] Set Default Goal Selector "!".
Ltac Zify.zify_post_hook ::= Z.to_euclidean_division_equations.

#[global] Open Scope Z_scope.

(** ** Machine integers

    A [w]-bit unsigned integer is a [Z] kept in [0 .. 2^w - 1]; the
    conversions below write the wrap-around of the C types out. *)

Definition u8 (z : Z) : Z := z mod 256.
Definition u16 (z : Z) : Z := z mod 65536.
Definition u32 (z : Z) : Z := z mod 4294967296.
Definition u64 (z : Z) : Z := z mod 18446744073709551616.
(** Conversion to a 32-bit signed [int] (two's complement). *)
Definition i32 (z : Z) : Z := (z + 2147483648) mod 4294967296 - 2147483648.
(** Conversion to a 64-bit signed [intptr_t]. *)
Definition i64 (z : Z) : Z :=
  (z + 9223372036854775808) mod 18446744073709551616 - 9223372036854775808.

Declare Scope helos_scope.
Delimit Scope helos_scope with helos.
Notation "x .& y" := (Z.land x y) (at level 34, left associativity) : helos_scope.
Notation "x .| y" := (Z.lor x y) (at level 36, left associativity) : helos_scope.
Notation "x .<< y" := (Z.shiftl x y) (at level 33, left associativity) : helos_scope.
Notation "x .>> y" := (Z.shiftr x y) (at level 33, left associativity) : helos_scope.

(** [word_lia]: linear arithmetic after unfolding the width conversions. *)
Ltac word_unfold := unfold u8, u16, u32, u64, i32, i64 in *.
Ltac word_lia := word_unfold; lia.

Create HintDb words.
Create Rewrite HintDb words.
Lemma u8_range z : 0 <= u8 z < 256.
Proof. word_lia. Qed.
Lemma u32_range z : 0 <= u32 z < 4294967296.
Proof. word_lia. Qed.
Lemma u64_range z : 0 <= u64 z < 18446744073709551616.
Proof. word_lia. Qed.
Lemma u8_small z : 0 <= z < 256 -> u8 z = z.
Proof. word_lia. Qed.
Lemma u32_small z : 0 <= z < 4294967296 -> u32 z = z.
Proof. word_lia. Qed.
Lemma u64_small z : 0 <= z < 18446744073709551616 -> u64 z = z.
Proof. word_lia. Qed.
Lemma i32_small z : -2147483648 <= z < 2147483648 -> i32 z = z.
Proof. word_lia. Qed.
Lemma u8_idemp z : u8 (u8 z) = u8 z.
Proof. word_lia. Qed.
#[export] Hint Resolve u8_range u32_range u64_range : words.
#[export] Hint Rewrite u8_idemp : words.
#[export] Hint Rewrite u8_small u32_small u64_small i32_small using lia : words.

(** Boolean comparisons of the code, turned into propositions. *)
Ltac zbool :=
  repeat match goal with
  | H : (_ =? _) = true |- _ => apply Z.eqb_eq in H
  | H : (_ =? _) = false |- _ => apply Z.eqb_neq in H
  | H : (_ <? _) = true |- _ => apply Z.ltb_lt in H
  | H : (_ <? _) = false |- _ => apply Z.ltb_ge in H
  | H : (_ <=? _) = true |- _ => apply Z.leb_le in H
  | H : (_ <=? _) = false |- _ => apply Z.leb_gt in H
  | H : (_ && _) = true |- _ => apply andb_true_iff in H as [? ?]
  | H : (_ || _) = false |- _ => apply orb_false_iff in H as [? ?]
  end.
(** Case analysis on the first Z comparison of the goal. *)
Ltac zcase :=
  match goal with
  | |- context [?a =? ?b] => destruct (Z.eqb_spec a b)
  | |- context [?a <? ?b] => destruct (Z.ltb_spec a b)
  | |- context [?a <=? ?b] => destruct (Z.leb_spec a b)
  end.
Ltac zcases := repeat (zcase; simpl; try lia).

(** ** Tabulation

    [tab n f] is the list [f 0; f 1; ...; f (n - 1)]; the contents of every
    buffer of the kernel is such a list. *)

Definition tab {A} (n : Z) (f : Z -> A) : list A := f <$> seqZ 0 n.

Section Tab.
Context {A : Type}.
Implicit Types f g : Z -> A.

Lemma length_tab n f : length (tab n f) = Z.to_nat n.
Proof. unfold tab. by rewrite length_fmap, length_seqZ. Qed.

Lemma tab_ext n f g : (forall i, 0 <= i < n -> f i = g i) -> tab n f = tab n g.
Proof.
    intros H. apply list_fmap_ext. intros i x Hx.
    apply lookup_seqZ in Hx as [-> ?]. apply H. lia.
Qed.

Lemma tab_0 n f : n <= 0 -> tab n f = [].
Proof. intros. unfold tab. by rewrite seqZ_nil. Qed.

Lemma lookup_tab n f (i : nat) :
    Z.of_nat i < n -> tab n f !! i = Some (f (Z.of_nat i)).
Proof. intros. unfold tab. by rewrite list_lookup_fmap, lookup_seqZ_lt. Qed.

Lemma tab_app n k f :
    0 <= n -> 0 <= k -> tab (n + k) f = tab n f ++ tab k (fun i => f (n + i)).
Proof.
    intros. unfold tab. rewrite seqZ_app, fmap_app by lia. f_equal.
    rewrite Z.add_0_l, <- (Z.add_0_r n), <- fmap_add_seqZ at 1.
    rewrite <- list_fmap_compose. done.
Qed.

Lemma tab_snoc n f : 0 <= n -> tab (n + 1) f = tab n f ++ [f n].
Proof.
    intros. rewrite tab_app by lia. do 2 f_equal. unfold tab; simpl.
    by rewrite Z.add_0_r.
Qed.

Lemma tab_cons n f : 0 < n -> tab n f = f 0 :: tab (n - 1) (fun i => f (1 + i)).
Proof.
    intros. replace n with (1 + (n - 1)) at 1 by lia. by rewrite tab_app by lia.
Qed.

Lemma tab_take n k f : 0 <= k <= n -> take (Z.to_nat k) (tab n f) = tab k f.
Proof.
    intros. replace n with (k + (n - k)) by lia. rewrite tab_app by lia.
    rewrite take_app_length'; [done|]. by rewrite length_tab.
Qed.

Lemma tab_drop n k f :
    0 <= k <= n -> drop (Z.to_nat k) (tab n f) = tab (n - k) (fun i => f (k + i)).
Proof.
    intros. replace n with (k + (n - k)) at 1 by lia. rewrite tab_app by lia.
    rewrite drop_app_length'; [|by rewrite length_tab].
    by replace (k + (n - k) - k) with (n - k) by lia.
Qed.
End Tab.

(** ** Filters *)

Lemma filter_none {A} (P : A -> Prop) `{forall x, Decision (P x)} (l : list A) :
  (forall x, x ∈ l -> ~ P x) -> filter P l = [].
Proof.
  induction l as [|x l IH]; intros Hl; [done|].
  rewrite filter_cons_False by (apply Hl; set_solver). apply IH. set_solver.
Qed.
Lemma filter_ext_in {A} (P Q : A -> Prop) `{forall x, Decision (P x)} `{forall x, Decision (Q x)} (l : list A) :
  (forall x, x ∈ l -> P x <-> Q x) -> filter P l = filter Q l.
Proof.
  induction l as [|x l IH]; intros Hl; [done|]. rewrite !filter_cons.
  assert (P x <-> Q x) as HPQ by (apply Hl; set_solver).
  assert (filter P l = filter Q l) as -> by (apply IH; set_solver).
  repeat case_decide; tauto.
Qed.

(** The test of one bit. *)
Lemma land_bit_zero v b : 0 <= b -> (Z.land v (2 ^ b) =? 0) = negb (Z.testbit v b).
Proof.
  intros Hb. destruct (Z.eqb_spec (Z.land v (2 ^ b)) 0) as [E|E].
  - assert (Z.testbit (Z.land v (2 ^ b)) b = false) as Hz by (rewrite E; apply Z.bits_0).
    rewrite Z.land_spec, Z.pow2_bits_true, andb_true_r in Hz by done. by rewrite Hz.
  - destruct (Z.testbit v b) eqn:Ev; [done|]. exfalso. apply E. apply Z.bits_inj'. intros i Hi. rewrite Z.land_spec, Z.bits_0.
    destruct (decide (i = b)) as [->|Hn]; [by rewrite Ev|]. rewrite Z.pow2_bits_false by done. apply andb_false_r.
Qed.

(** Bits that do not overlap add up. *)
Lemma lor_disjoint a b k : 0 <= k -> 0 <= b < 2 ^ k -> Z.lor (a * 2 ^ k) b = a * 2 ^ k + b.
Proof.
  intros Hk Hb. rewrite <- Z.lxor_lor, <- Z.add_nocarry_lxor; [done| |]; apply Z.bits_inj'; intros n Hn; rewrite Z.land_spec, Z.bits_0;
    (destruct (Z.lt_ge_cases n k); [by rewrite Z.mul_pow2_bits_low by lia|]);
    (rewrite <- (Z.mod_small b (2 ^ k)), Z.mod_pow2_bits_high by lia; apply andb_false_r).
Qed.
