(* ===== verification/Mem.v ===== *)
(** * Machine memory

    The byte-addressed memory the kernel's pointers point into, with the
    little-endian loads and stores of the C access widths, and the library
    routines [memset], [memcpy] and [memmove] on it.  A memory is a total
    function from addresses to cells; only the value modulo 256 of a cell is
    observable ([load8]). *)

From S2P Require Import Prelude.

Definition mem := Z -> Z.

Definition upd (m : mem) (a v : Z) : mem := fun x => if x =? a then v else m x.

(** [*(uint8_t * )a] *)
Definition load8 (m : mem) (a : Z) : Z := u8 (m a).
Definition store8 (m : mem) (a v : Z) : mem := upd m a (u8 v).

(** Little-endian access of [n] bytes. *)
Fixpoint load (n : nat) (m : mem) (a : Z) : Z :=
  match n with
  | O => 0
  | S k => load8 m a + 256 * load k m (a + 1)
  end.
Fixpoint store (n : nat) (m : mem) (a v : Z) : mem :=
  match n with
  | O => m
  | S k => store8 (store k m (a + 1) (v / 256)) a v
  end.

Definition load16 := load 2.
Definition load32 := load 4.
Definition load64 := load 8.
Definition store16 := store 2.
Definition store32 := store 4.
Definition store64 := store 8.

Definition memset (m : mem) (a v n : Z) : mem :=
  fun x => if (a <=? x) && (x <? a + n) then u8 v else m x.
Definition memcpy (m : mem) (dst src n : Z) : mem :=
  fun x => if (dst <=? x) && (x <? dst + n) then m (src + (x - dst)) else m x.

(** The [n] bytes from address [a] on. *)
Definition bytes (m : mem) (a n : Z) : list Z :=
  tab n (fun i => load8 m (a + i)).

(** Two memories agree outside the range [a .. a + n - 1]. *)
Definition same_outside (a n : Z) (m m' : mem) : Prop :=
  forall x, ~ (a <= x < a + n) -> m' x = m x.

(** ** Lemmas *)

Lemma upd_eq m a v : upd m a v a = v.
Proof. unfold upd. by rewrite Z.eqb_refl. Qed.
Lemma upd_ne m a v x : x <> a -> upd m a v x = m x.
Proof. intros. unfold upd. by zcase. Qed.

Lemma load8_range m a : 0 <= load8 m a < 256.
Proof. apply u8_range. Qed.
Lemma load8_store8_eq m a v : load8 (store8 m a v) a = u8 v.
Proof. unfold load8, store8. by rewrite upd_eq, u8_idemp. Qed.
Lemma load8_store8_ne m a v x : x <> a -> load8 (store8 m a v) x = load8 m x.
Proof. intros. unfold load8, store8. by rewrite upd_ne. Qed.
#[export] Hint Rewrite load8_store8_eq : words.

Lemma load_range n m a : 0 <= load n m a < 256 ^ Z.of_nat n.
Proof.
  revert a. induction n as [|n IH]; intros a; [done|].
  rewrite Nat2Z.inj_succ, Z.pow_succ_r by lia. cbn [load].
  pose proof (load8_range m a). specialize (IH (a + 1)). lia.
Qed.
Lemma load_split n k m a : load (n + k) m a = load n m a + 256 ^ Z.of_nat n * load k m (a + Z.of_nat n).
Proof.
  revert a. induction n as [|n IH]; intros a; [by rewrite Z.add_0_r, Z.mul_1_l|].
  cbn [load Nat.add]. rewrite IH, Nat2Z.inj_succ, Z.pow_succ_r by lia. replace (a + 1 + Z.of_nat n) with (a + Z.succ (Z.of_nat n)) by lia. lia.
Qed.
(** The low bytes of a wider load. *)
Lemma load_low n k m a : load n m a = load (n + k) m a mod 256 ^ Z.of_nat n.
Proof.
  pose proof (load_range n m a). rewrite load_split, (Z.mul_comm (256 ^ _)), Z.mod_add by lia. symmetry. by apply Z.mod_small.
Qed.

Lemma store_outside n m a v x :
  ~ (a <= x < a + Z.of_nat n) -> store n m a v x = m x.
Proof.
  revert a v. induction n as [|n IH]; intros a v Hx; [done|].
  cbn [store]. unfold store8. rewrite upd_ne by lia. apply IH. lia.
Qed.

Lemma load_ext n m m' a :
  (forall x, a <= x < a + Z.of_nat n -> m' x = m x) -> load n m' a = load n m a.
Proof.
  revert a. induction n as [|n IH]; intros a Hx; [done|].
  cbn [load]. unfold load8. rewrite Hx by lia. rewrite IH; [done|].
  intros. apply Hx. lia.
Qed.

Lemma load_store_ne n k m a b v :
  a + Z.of_nat n <= b \/ b + Z.of_nat k <= a ->
  load n (store k m b v) a = load n m a.
Proof. intros. apply load_ext. intros. apply store_outside. lia. Qed.

Lemma load_store_eq n m a v :
  load n (store n m a v) a = v mod 256 ^ Z.of_nat n.
Proof.
  revert a v. induction n as [|n IH]; intros a v.
  { by rewrite Z.mod_1_r. }
  rewrite Nat2Z.inj_succ, Z.pow_succ_r by lia. cbn [load store].
  rewrite load8_store8_eq.
  rewrite (load_ext n (store n m (a + 1) (v / 256))).
  - rewrite IH. rewrite Z.rem_mul_r; [reflexivity|lia|].
    apply Z.pow_pos_nonneg; lia.
  - intros. unfold store8. apply upd_ne. lia.
Qed.

Lemma length_bytes m a n : length (bytes m a n) = Z.to_nat n.
Proof. apply length_tab. Qed.

Lemma bytes_ext m m' a n :
  (forall x, a <= x < a + n -> m' x = m x) -> bytes m' a n = bytes m a n.
Proof.
  intros H. apply tab_ext. intros i Hi. unfold load8. by rewrite H by lia.
Qed.

Lemma same_outside_refl a n m : same_outside a n m m.
Proof. done. Qed.
Lemma same_outside_trans a n m1 m2 m3 :
  same_outside a n m1 m2 -> same_outside a n m2 m3 -> same_outside a n m1 m3.
Proof. intros H1 H2 x Hx. rewrite H2, H1; done. Qed.
Lemma same_outside_store8 a n m p v :
  a <= p < a + n -> same_outside a n m (store8 m p v).
Proof. intros ? x Hx. unfold store8. apply upd_ne. lia. Qed.
#[export] Hint Resolve same_outside_refl same_outside_store8 : words.

Lemma same_outside_weaken a n b k m m' :
  b <= a -> a + n <= b + k -> same_outside a n m m' -> same_outside b k m m'.
Proof. intros ? ? H x Hx. apply H. lia. Qed.

Lemma memcpy_in m d s n x : d <= x < d + n -> memcpy m d s n x = m (s + (x - d)).
Proof. intros. unfold memcpy. by repeat (zcase; [|lia]). Qed.
Lemma memcpy_out m d s n : same_outside d n m (memcpy m d s n).
Proof. intros x Hx. unfold memcpy. zcase; zcase; simpl; done || lia. Qed.
Lemma memset_in m a v n x : a <= x < a + n -> memset m a v n x = u8 v.
Proof. intros. unfold memset. by repeat (zcase; [|lia]). Qed.
Lemma memset_out m a v n : same_outside a n m (memset m a v n).
Proof. intros x Hx. unfold memset. zcase; zcase; simpl; done || lia. Qed.
#[export] Hint Resolve memcpy_out memset_out : words.

Lemma bytes_memcpy m d s n k :
  0 <= k <= n -> bytes (memcpy m d s n) d k = bytes m s k.
Proof.
  intros. apply tab_ext. intros i Hi. unfold load8. rewrite memcpy_in by lia.
  do 2 f_equal. lia.
Qed.

Lemma bytes_app m a n k :
  0 <= n -> 0 <= k -> bytes m a (n + k) = bytes m a n ++ bytes m (a + n) k.
Proof.
  intros. unfold bytes. rewrite tab_app by done. f_equal. apply tab_ext.
  intros. f_equal. lia.
Qed.
Lemma bytes_0 m a : bytes m a 0 = [].
Proof. done. Qed.
Lemma bytes_1 m a : bytes m a 1 = [load8 m a].
Proof. unfold bytes, tab. simpl. by rewrite Z.add_0_r. Qed.
Lemma bytes_same m m' a n b k :
  same_outside b k m m' -> a + n <= b \/ b + k <= a -> bytes m' a n = bytes m a n.
Proof. intros H ?. apply bytes_ext. intros. apply H. lia. Qed.

(** Store the bytes [l] from address [a] on. *)
Definition store_bytes (m : mem) (a : Z) (l : list Z) : mem :=
  fun x => match (if x <? a then None else l !! Z.to_nat (x - a)) with Some v => v | None => m x end.
Lemma store_bytes_bytes m a l :
  Forall (fun b => 0 <= b < 256) l -> bytes (store_bytes m a l) a (Z.of_nat (length l)) = l.
Proof.
  intros Hl. apply list_eq. intros i. destruct (l !! i) as [v|] eqn:E.
  - pose proof (lookup_lt_Some _ _ _ E). unfold bytes. rewrite lookup_tab by lia.
    unfold load8, store_bytes. rewrite (proj2 (Z.ltb_ge _ _)) by lia.
    replace (Z.to_nat (a + Z.of_nat i - a)) with i by lia. rewrite E, u8_small; [done|].
    rewrite Forall_lookup in Hl. by apply (Hl i).
  - apply lookup_ge_None in E. apply lookup_ge_None. rewrite length_bytes. lia.
Qed.
Lemma store_bytes_out m a l : same_outside a (Z.of_nat (length l)) m (store_bytes m a l).
Proof.
  intros x Hx. unfold store_bytes. zcase; [done|].
  by rewrite lookup_ge_None_2 by lia.
Qed.
