(* ===== verification/MinMax.v ===== *)
(** * Integer minimum and maximum helpers (src/util/minmax.h) *)

From S2P Require Import Prelude.

Definition intmin (x y : Z) : Z := if x <? y then x else y.
Definition intmax (x y : Z) : Z := if x >? y then x else y.
Definition intmin3 (x y z : Z) : Z :=
  if x <? y then (if x <? z then x else z)
  else if y <? z then y else z.
Definition intmax3 (x y z : Z) : Z :=
  if x >? y then (if x >? z then x else z)
  else if y >? z then y else z.
Definition intminmax (x min max : Z) : Z :=
  if x <? min then min else if x >? max then max else x.

Ltac minmax_solve := intros; repeat zcase; rewrite ?Z.gtb_ltb; repeat zcase; lia.

Lemma intmin_spec x y : intmin x y = Z.min x y.
Proof. unfold intmin. minmax_solve. Qed.
Lemma intmax_spec x y : intmax x y = Z.max x y.
Proof. unfold intmax. minmax_solve. Qed.
Lemma intmin3_spec x y z : intmin3 x y z = Z.min x (Z.min y z).
Proof. unfold intmin3. minmax_solve. Qed.
Lemma intmax3_spec x y z : intmax3 x y z = Z.max x (Z.max y z).
Proof. unfold intmax3. rewrite !Z.gtb_ltb. minmax_solve. Qed.
(** Clamping; for an empty interval ([max < min]) a value below [min] still
    gives [min]. *)
Lemma intminmax_spec x lo hi :
  intminmax x lo hi = if x <? lo then lo else Z.min x hi.
Proof. unfold intminmax. rewrite !Z.gtb_ltb. minmax_solve. Qed.
#[export] Hint Rewrite intmin_spec intmax_spec intmin3_spec intmax3_spec : words.
