(* ===== verification/CString.v ===== *)
(** * Strings and memory blocks of C (src/runtime/string.c, memset_memmove.S,
    src/extlib/pdlibc)

    The loops of the string functions on the machine memory, and what they
    compute on the strings they find there. *)

From S2P Require Import Prelude Mem.

(** ** The functions

    [None] when the fuel runs out: the loops have no bound of their own. *)

(** The state of the loop of [strlen]: the pointer and the length so far. *)
Fixpoint strlen_loop (fuel : nat) (m : mem) (s len : Z) : option Z :=
  match fuel with
  | O => None
  | S fuel => if load8 m s =? 0 then Some len else strlen_loop fuel m (s + 1) (len + 1)
  end.
Definition strlen (fuel : nat) (m : mem) (s : Z) : option Z := strlen_loop fuel m s 0.

Fixpoint strcmp (fuel : nat) (m : mem) (s1 s2 : Z) : option Z :=
  match fuel with
  | O => None
  | S fuel =>
      if negb (load8 m s1 =? 0) && (load8 m s1 =? load8 m s2) then strcmp fuel m (s1 + 1) (s2 + 1)
      else Some (load8 m s1 - load8 m s2)
  end.
(** The bound [n] is the measure. *)
Fixpoint strncmp (m : mem) (s1 s2 : Z) (n : nat) : Z :=
  match n with
  | O => 0
  | S n' =>
      if negb (load8 m s1 =? 0) && (load8 m s1 =? load8 m s2) then strncmp m (s1 + 1) (s2 + 1) n'
      else load8 m s1 - load8 m s2
  end.
Fixpoint memcmp (m : mem) (p1 p2 : Z) (n : nat) : Z :=
  match n with
  | O => 0
  | S n => if negb (load8 m p1 =? load8 m p2) then load8 m p1 - load8 m p2 else memcmp m (p1 + 1) (p2 + 1) n
  end.
Fixpoint strcpy (fuel : nat) (m : mem) (s1 s2 : Z) : option mem :=
  match fuel with
  | O => None
  | S fuel =>
      let c := load8 m s2 in
      let m := store8 m s1 c in
      if c =? 0 then Some m else strcpy fuel m (s1 + 1) (s2 + 1)
  end.

(** [memset]: [do *rcx++ = dl; while (rcx != r10)] *)
Fixpoint memset_loop (fuel : nat) (m : mem) (rcx r10 dl : Z) : option mem :=
  match fuel with
  | O => None
  | S fuel =>
      let m := store8 m rcx dl in
      let rcx := u64 (rcx + 1) in
      if rcx =? r10 then Some m else memset_loop fuel m rcx r10 dl
  end.
Definition asm_memset (fuel : nat) (m : mem) (dest data count : Z) : option mem :=
  memset_loop fuel m dest (u64 (dest + count)) data.

Fixpoint memmove_front (fuel : nat) (m : mem) (rcx rdx r10 : Z) : option mem :=
  match fuel with
  | O => None
  | S fuel =>
      let m := store8 m rcx (load8 m rdx) in
      let rcx := u64 (rcx + 1) in
      let rdx := u64 (rdx + 1) in
      if rcx =? r10 then Some m else memmove_front fuel m rcx rdx r10
  end.
Fixpoint memmove_back (fuel : nat) (m : mem) (rcx r10 r11 : Z) : option mem :=
  match fuel with
  | O => None
  | S fuel =>
      let r10 := u64 (r10 - 1) in
      let r11 := u64 (r11 - 1) in
      let m := store8 m r10 (load8 m r11) in
      if rcx =? r10 then Some m else memmove_back fuel m rcx r10 r11
  end.
(** [jl] compares the pointers as signed numbers. *)
Definition asm_memmove (fuel : nat) (m : mem) (dest src count : Z) : option mem :=
  if src =? dest then Some m
  else if i64 src <? i64 dest then memmove_back fuel m dest (u64 (dest + count)) (u64 (src + count))
  else memmove_front fuel m dest src (u64 (dest + count)).

(** [memmove] for its callers: the simultaneous copy of the bytes.  No result: the
    loops test after the first byte, so with nothing to move between two places
    they run through the whole address space, and so do blocks over its end. *)
Definition memmove (m : mem) (dest src count : Z) : option mem :=
  if src =? dest then Some m
  else if (count =? 0) || (2 ^ 64 <=? dest + count) || (2 ^ 64 <=? src + count) then None
  else Some (memcpy m dest src count).
Lemma memmove_some m dest src count : src <> dest -> 0 < count -> dest + count < 2 ^ 64 -> src + count < 2 ^ 64 ->
  memmove m dest src count = Some (memcpy m dest src count).
Proof.
  intros Hne Hc Hd Hs. unfold memmove. rewrite (proj2 (Z.eqb_neq _ _) Hne).
  rewrite (proj2 (Z.eqb_neq count 0)), !(proj2 (Z.leb_gt _ _)) by lia. done.
Qed.

(** ** Strings in memory *)

(** The C string [s], without its terminator, is at address [a]. *)
Fixpoint cstr (m : mem) (a : Z) (s : list Z) : Prop :=
  match s with
  | [] => load8 m a = 0
  | c :: s => c <> 0 /\ load8 m a = c /\ cstr m (a + 1) s
  end.
(** The string at an address, read up to its terminator. *)
Fixpoint cstring (fuel : nat) (m : mem) (a : Z) : option (list Z) :=
  match fuel with
  | O => None
  | S fuel => if load8 m a =? 0 then Some [] else s ← cstring fuel m (a + 1); Some (load8 m a :: s)
  end.
(** The difference at the first place two strings differ. *)
Fixpoint compare_strings (a b : list Z) : Z :=
  match a, b with
  | [], [] => 0
  | [], y :: _ => 0 - y
  | x :: _, [] => x - 0
  | x :: a, y :: b => if x =? y then compare_strings a b else x - y
  end.

Lemma compare_strings_eq a b : Forall (fun c => c <> 0) a -> Forall (fun c => c <> 0) b -> compare_strings a b = 0 <-> a = b.
Proof.
  intros Ha. revert b. induction Ha as [|x a Hx Ha IH]; intros b Hb; destruct Hb as [|y b Hy Hb]; cbn [compare_strings].
  - done.
  - split; [lia|done].
  - split; [lia|done].
  - destruct (Z.eqb_spec x y) as [->|Hne]; [rewrite IH by done|]; split; try congruence. lia.
Qed.
Lemma cstr_nonzero m a s : cstr m a s -> Forall (fun c => c <> 0) s.
Proof. revert a. induction s as [|c s IH]; intros a; [done|]. intros (? & ? & ?). constructor; [done|by eapply IH]. Qed.

Lemma cstring_spec m s : forall fuel a, cstr m a s -> (length s < fuel)%nat -> cstring fuel m a = Some s.
Proof.
  induction s as [|c s IH]; intros [|fuel] a Hs Hf; cbn [length] in *; try lia; cbn [cstring].
  - cbn [cstr] in Hs. by rewrite Hs.
  - destruct Hs as (Hc & -> & Hs). destruct (Z.eqb_spec c 0); [done|]. by rewrite IH by (done || lia).
Qed.
Lemma strlen_loop_spec m s : forall fuel a len,
  cstr m a s -> (length s < fuel)%nat -> strlen_loop fuel m a len = Some (len + Z.of_nat (length s)).
Proof.
  induction s as [|c s IH]; intros [|fuel] a len Hs Hf; cbn [length] in *; try lia; cbn [strlen_loop].
  - cbn [cstr] in Hs. rewrite !Hs. cbn [Z.eqb]. f_equal. cbn [length]. lia.
  - destruct Hs as (Hc & -> & Hs). destruct (Z.eqb_spec c 0); [done|]. rewrite IH by (done || lia). f_equal. lia.
Qed.
Lemma strcmp_spec m s : forall t fuel a b,
  cstr m a s -> cstr m b t -> (length s < fuel)%nat -> strcmp fuel m a b = Some (compare_strings s t).
Proof.
  induction s as [|x s IH]; intros t [|fuel] a b Hs Ht Hf; cbn [length] in *; try lia; cbn [strcmp].
  - cbn [cstr] in Hs. rewrite !Hs. cbn [Z.eqb negb andb take compare_strings]. destruct t as [|y t]; [cbn [cstr] in Ht; by rewrite Ht|]. destruct Ht as (_ & -> & _). done.
  - destruct Hs as (Hx & -> & Hs). destruct (Z.eqb_spec x 0); [done|]. cbn [negb andb].
    destruct t as [|y t]; cbn [compare_strings].
    + cbn [cstr] in Ht. rewrite Ht. by destruct (Z.eqb_spec x 0).
    + destruct Ht as (Hy & -> & Ht). destruct (Z.eqb_spec x y); [apply IH; [done|done|lia]|done].
Qed.
Lemma strncmp_spec m n : forall s t a b,
  cstr m a s -> cstr m b t -> strncmp m a b n = compare_strings (take n s) (take n t).
Proof.
  induction n as [|n IH]; intros s t a b Hs Ht; cbn [strncmp]; [done|].
  destruct s as [|x s].
  - cbn [cstr] in Hs. rewrite !Hs. cbn [Z.eqb negb andb take compare_strings]. destruct t as [|y t]; [cbn [cstr] in Ht; by rewrite Ht|]. destruct Ht as (_ & -> & _). done.
  - destruct Hs as (Hx & -> & Hs). destruct (Z.eqb_spec x 0); [done|]. cbn [negb andb].
    destruct t as [|y t]; cbn [take compare_strings].
    + cbn [cstr] in Ht. rewrite Ht. by destruct (Z.eqb_spec x 0).
    + destruct Ht as (Hy & -> & Ht). destruct (Z.eqb_spec x y); [by apply IH|done].
Qed.
Lemma memcmp_spec m n : forall a b, memcmp m a b n = 0 <-> bytes m a (Z.of_nat n) = bytes m b (Z.of_nat n).
Proof.
  induction n as [|n IH]; intros a b; [done|]. rewrite Nat2Z.inj_succ. cbn [memcmp].
  replace (Z.succ (Z.of_nat n)) with (1 + Z.of_nat n) by lia. rewrite !bytes_app, !bytes_1 by lia. cbn [app].
  destruct (Z.eqb_spec (load8 m a) (load8 m b)) as [->|Hne]; cbn [negb].
  - rewrite IH. split; [by intros ->|by intros [= ->]].
  - split; [lia|congruence].
Qed.

(** ** Blocks *)

Lemma memset_loop_spec data n : forall fuel m rcx,
  0 <= rcx -> rcx + Z.of_nat (S n) < 18446744073709551616 -> (n < fuel)%nat ->
  exists m', memset_loop fuel m rcx (rcx + Z.of_nat (S n)) data = Some m' /\
  forall x, m' x = memset m rcx data (Z.of_nat (S n)) x.
Proof.
  induction n as [|n IH]; intros [|fuel] m rcx H0 Hw Hf; try lia; cbn [memset_loop]; rewrite u64_small by lia.
  - destruct (Z.eqb_spec (rcx + 1) (rcx + Z.of_nat 1)); [|lia]. eexists. split; [done|]. intros x.
    unfold store8, upd, memset. repeat zcase; cbn [andb]; try lia; done.
  - destruct (Z.eqb_spec (rcx + 1) (rcx + Z.of_nat (S (S n)))); [lia|].
    destruct (IH fuel (store8 m rcx data) (rcx + 1)) as (m' & E & Hm'); [lia..|].
    replace (rcx + 1 + Z.of_nat (S n)) with (rcx + Z.of_nat (S (S n))) in E by lia. rewrite E.
    eexists. split; [done|]. intros x. rewrite Hm'. unfold memset, store8, upd.
    repeat zcase; cbn [andb]; try lia; done.
Qed.
Lemma memmove_front_spec n : forall fuel m rcx rdx,
  0 <= rcx -> rcx < rdx \/ rdx + Z.of_nat (S n) <= rcx -> 0 <= rdx ->
  rcx + Z.of_nat (S n) < 18446744073709551616 -> rdx + Z.of_nat (S n) < 18446744073709551616 -> (n < fuel)%nat ->
  exists m', memmove_front fuel m rcx rdx (rcx + Z.of_nat (S n)) = Some m' /\
  forall x, load8 m' x = load8 (memcpy m rcx rdx (Z.of_nat (S n))) x.
Proof.
  induction n as [|n IH]; intros [|fuel] m rcx rdx H0 Hov H1 Hw Hw' Hf; try lia; cbn [memmove_front]; rewrite !u64_small by lia.
  - destruct (Z.eqb_spec (rcx + 1) (rcx + Z.of_nat 1)); [|lia]. eexists. split; [done|]. intros x.
    unfold load8, store8, upd, memcpy. repeat zcase; cbn [andb]; try lia; [|done..].
    subst. rewrite !u8_idemp. do 2 f_equal. lia.
  - destruct (Z.eqb_spec (rcx + 1) (rcx + Z.of_nat (S (S n)))); [lia|].
    destruct (IH fuel (store8 m rcx (load8 m rdx)) (rcx + 1) (rdx + 1)) as (m' & E & Hm'); [lia..|].
    replace (rcx + 1 + Z.of_nat (S n)) with (rcx + Z.of_nat (S (S n))) in E by lia. rewrite E.
    eexists. split; [done|]. intros x. rewrite Hm'. unfold load8, memcpy, store8, upd.
    repeat zcase; cbn [andb]; try lia; try done; subst; rewrite ?u8_idemp; do 2 f_equal; lia.
Qed.
Lemma memmove_back_spec n : forall fuel m rcx rdx,
  0 <= rcx -> rdx < rcx \/ rcx + Z.of_nat (S n) <= rdx -> 0 <= rdx ->
  rcx + Z.of_nat (S n) < 18446744073709551616 -> rdx + Z.of_nat (S n) < 18446744073709551616 -> (n < fuel)%nat ->
  exists m', memmove_back fuel m rcx (rcx + Z.of_nat (S n)) (rdx + Z.of_nat (S n)) = Some m' /\
  forall x, load8 m' x = load8 (memcpy m rcx rdx (Z.of_nat (S n))) x.
Proof.
  induction n as [|n IH]; intros [|fuel] m rcx rdx H0 Hov H1 Hw Hw' Hf; try lia; cbn [memmove_back]; rewrite !u64_small by lia.
  - destruct (Z.eqb_spec rcx (rcx + Z.of_nat 1 - 1)); [|lia]. eexists. split; [done|]. intros x.
    unfold load8, store8, upd, memcpy. repeat zcase; cbn [andb]; try lia; [|done..].
    subst. rewrite !u8_idemp. do 2 f_equal. lia.
  - destruct (Z.eqb_spec rcx (rcx + Z.of_nat (S (S n)) - 1)); [lia|].
    set (e := rcx + Z.of_nat (S (S n)) - 1). set (e' := rdx + Z.of_nat (S (S n)) - 1).
    destruct (IH fuel (store8 m e (load8 m e')) rcx rdx) as (m' & E & Hm'); [lia..|].
    replace (rcx + Z.of_nat (S n)) with e in E by lia. replace (rdx + Z.of_nat (S n)) with e' in E by lia. rewrite E.
    eexists. split; [done|]. intros x. rewrite Hm'. unfold load8, memcpy, store8, upd, e, e'.
    repeat zcase; cbn [andb]; try lia; try done; subst; rewrite ?u8_idemp; do 2 f_equal; lia.
Qed.
(** The loop of [memset] needs as many rounds as there are bytes up to the end,
    counted around the address space. *)
Lemma memset_loop_runs fuel : forall m rcx r10 data,
  0 <= r10 < 18446744073709551616 -> 0 <= rcx < 18446744073709551616 ->
  Z.of_nat fuel <= (r10 - rcx - 1) mod 18446744073709551616 -> memset_loop fuel m rcx r10 data = None.
Proof.
  induction fuel as [|fuel IH]; intros m rcx r10 data Hr Hc Hf; [done|]. cbn [memset_loop].
  destruct (Z.eqb_spec (u64 (rcx + 1)) r10) as [E|E]; [exfalso; word_lia|]. apply IH; word_lia.
Qed.
Lemma memmove_front_runs fuel : forall m rcx rdx r10,
  0 <= r10 < 18446744073709551616 -> 0 <= rcx < 18446744073709551616 ->
  Z.of_nat fuel <= (r10 - rcx - 1) mod 18446744073709551616 -> memmove_front fuel m rcx rdx r10 = None.
Proof.
  induction fuel as [|fuel IH]; intros m rcx rdx r10 Hr Hc Hf; [done|]. cbn [memmove_front].
  destruct (Z.eqb_spec (u64 (rcx + 1)) r10) as [E|E]; [exfalso; word_lia|]. apply IH; word_lia.
Qed.
Lemma memmove_back_runs fuel : forall m rcx r10 r11,
  0 <= r10 < 18446744073709551616 -> 0 <= rcx < 18446744073709551616 ->
  Z.of_nat fuel <= (r10 - rcx - 1) mod 18446744073709551616 -> memmove_back fuel m rcx r10 r11 = None.
Proof.
  induction fuel as [|fuel IH]; intros m rcx r10 r11 Hr Hc Hf; [done|]. cbn [memmove_back].
  destruct (Z.eqb_spec rcx (u64 (r10 - 1))) as [E|E]; [exfalso; word_lia|]. apply IH; word_lia.
Qed.
Lemma cstr_ext m m' s : forall a,
  (forall x, a <= x <= a + Z.of_nat (length s) -> m' x = m x) -> cstr m a s -> cstr m' a s.
Proof.
  induction s as [|c s IH]; intros a Hm; cbn [cstr length] in *; unfold load8.
  - rewrite Hm by lia. done.
  - intros (? & ? & ?). rewrite Hm by lia. split_and!; [done..|]. apply IH; [|done]. intros. apply Hm. lia.
Qed.
Lemma strcpy_spec s : forall fuel m a b,
  cstr m b s -> (length s < fuel)%nat -> a + Z.of_nat (length s) < b \/ b + Z.of_nat (length s) < a ->
  exists m', strcpy fuel m a b = Some m' /\ cstr m' a s /\ same_outside a (Z.of_nat (length s) + 1) m m'.
Proof.
  induction s as [|c s IH]; intros [|fuel] m a b Hs Hf Hd; cbn [length] in *; try lia; cbn [strcpy].
  - cbn [cstr] in Hs. rewrite !Hs. cbn [Z.eqb]. eexists. split; [done|]. split; [apply load8_store8_eq|].
    apply same_outside_store8. lia.
  - destruct Hs as (Hc & E & Hs). rewrite E. destruct (Z.eqb_spec c 0); [done|].
    assert (cstr (store8 m a c) (b + 1) s) as Hs'.
    { eapply cstr_ext; [|done]. intros x Hx. apply upd_ne. lia. }
    destruct (IH fuel (store8 m a c) (a + 1) (b + 1) Hs') as (m' & -> & H1 & H2); [lia..|].
    eexists. split; [done|]. split.
    + split_and!; [done| |done]. unfold load8. rewrite H2 by lia. fold (load8 (store8 m a c) a).
      rewrite load8_store8_eq. apply u8_small. pose proof (load8_range m b). lia.
    + intros x Hx. rewrite H2 by lia. apply upd_ne. lia.
Qed.
(** The bytes of a string. *)
Lemma cstr_bytes m a s : cstr m a s <-> bytes m a (Z.of_nat (length s) + 1) = s ++ [0] /\ Forall (fun c => c <> 0) s.
Proof.
  revert a. induction s as [|c s IH]; intros a; cbn [cstr length app].
  - change (Z.of_nat 0 + 1) with 1. rewrite bytes_1. split; [intros ->; by split|by intros [[= ->] _]].
  - rewrite IH, Forall_cons. replace (Z.of_nat (S (length s)) + 1) with (1 + (Z.of_nat (length s) + 1)) by lia.
    rewrite (bytes_app m a 1), bytes_1 by lia. cbn [app]. split; [intros (? & -> & -> & ?); done|intros [[= ? ->] [? ?]]; done].
Qed.

Lemma asm_memmove_copies fuel m dest src count :
  0 < count -> 0 <= dest -> 0 <= src -> dest + count < 2 ^ 64 -> src + count < 2 ^ 64 ->
  (i64 src <? i64 dest) = (src <? dest) \/ dest + count <= src \/ src + count <= dest ->
  count <= Z.of_nat fuel ->
  exists m', asm_memmove fuel m dest src count = Some m' /\
  forall x, load8 m' x = load8 (memcpy m dest src count) x.
Proof.
  change (2 ^ 64) with 18446744073709551616. intros Hc Hd Hs Hdw Hsw Hov Hf. unfold asm_memmove.
  destruct (Z.eqb_spec src dest) as [->|Hne].
  { eexists. split; [done|]. intros x. unfold load8, memcpy. repeat zcase; cbn [andb]; try done. do 2 f_equal. lia. }
  rewrite !u64_small by lia. pose proof (Z2Nat.id count ltac:(lia)) as En.
  destruct (Z.to_nat count) as [|n] eqn:E; [lia|]. rewrite <- En in *.
  destruct (i64 src <? i64 dest) eqn:Ei.
  - apply memmove_back_spec; lia.
  - apply memmove_front_spec; lia.
Qed.

(** * Properties *)

(** C37. The comparison and length loops end and agree with the strings in
    memory: [strlen] is the length, [strcmp] and [strncmp] the difference at
    the first place the strings (their first [n] characters) differ, which is
    0 exactly when they are equal. *)
Theorem string_functions_correct m a b s t n fuel :
  cstr m a s -> cstr m b t -> (length s < fuel)%nat ->
  strlen fuel m a = Some (Z.of_nat (length s)) /\
  strcmp fuel m a b = Some (compare_strings s t) /\ (compare_strings s t = 0 <-> s = t) /\
  strncmp m a b n = compare_strings (take n s) (take n t) /\ (strncmp m a b n = 0 <-> take n s = take n t).
Proof.
  intros Hs Ht Hf. pose proof (cstr_nonzero _ _ _ Hs) as Hns. pose proof (cstr_nonzero _ _ _ Ht) as Hnt.
  split_and!.
  - unfold strlen. by rewrite (strlen_loop_spec m s) by done.
  - by apply strcmp_spec.
  - by apply compare_strings_eq.
  - by apply strncmp_spec.
  - rewrite (strncmp_spec m n s t) by done. apply compare_strings_eq; by apply Forall_take.
Qed.
(** "ab" at 10 and "abc" at 20. *)
Lemma string_functions_correct_witness :
  let m := store8 (store8 (store8 (store8 (store8 (fun _ => 0) 10 97) 11 98) 20 97) 21 98) 22 99 in
  strcmp 10 m 10 20 = Some (-99) /\ strncmp m 10 20 2 = 0.
Proof.
  cbn zeta. set (m := store8 _ 22 99).
  destruct (string_functions_correct m 10 20 [97; 98] [97; 98; 99] 2 10) as (_ & H1 & _ & H2 & _).
  - vm_compute. intuition discriminate.
  - vm_compute. intuition discriminate.
  - cbn [length]. lia.
  - rewrite H1, H2. split; reflexivity.
Defined.

(** The byte loops of [memmove] end and equal the simultaneous copy of
    [count] bytes, whichever way the blocks overlap, for a [count] above 0 and
    blocks in the same half of the address space (the pointers are compared as
    signed numbers) or apart. *)
Theorem asm_memmove_correct fuel m dest src count :
  0 < count -> 0 <= dest -> 0 <= src -> dest + count < 2 ^ 64 -> src + count < 2 ^ 64 ->
  (i64 src <? i64 dest) = (src <? dest) \/ dest + count <= src \/ src + count <= dest ->
  count <= Z.of_nat fuel ->
  exists m', asm_memmove fuel m dest src count = Some m' /\
  forall x, load8 m' x = load8 (memcpy m dest src count) x.
Proof. apply asm_memmove_copies. Qed.
Lemma asm_memmove_correct_witness :
  exists m', asm_memmove 4 (fun a => a) 11 10 3 = Some m' /\ forall x, load8 m' x = load8 (memcpy (fun a => a) 11 10 3) x.
Proof. apply (asm_memmove_correct 4 (fun a => a) 11 10 3); try lia. left. reflexivity. Defined.
(** [memmove] is the assembly: where it has a result the loops end with it, and
    where it has none they are still running after any number of rounds below
    the size of the address space. *)
Theorem memmove_asm fuel m dest src count :
  0 <= dest -> 0 <= src -> 0 <= count -> dest + count < 2 ^ 64 -> src + count < 2 ^ 64 ->
  (i64 src <? i64 dest) = (src <? dest) \/ dest + count <= src \/ src + count <= dest ->
  match memmove m dest src count with
  | Some m' => count <= Z.of_nat fuel -> exists m1, asm_memmove fuel m dest src count = Some m1 /\ forall x, load8 m1 x = load8 m' x
  | None => Z.of_nat fuel < 2 ^ 64 -> asm_memmove fuel m dest src count = None
  end.
Proof.
  intros Hd Hs Hc Hdw Hsw Hov. unfold memmove. destruct (Z.eqb_spec src dest) as [->|Hne].
  { intros _. unfold asm_memmove. rewrite Z.eqb_refl. by exists m. }
  rewrite !(proj2 (Z.leb_gt _ _)), !orb_false_r by lia.
  destruct (Z.eqb_spec count 0) as [->|Hn]; [|intros Hf; apply asm_memmove_copies; try done; lia].
  intros Hf. unfold asm_memmove. rewrite (proj2 (Z.eqb_neq src dest)), !Z.add_0_r by done.
  change (2 ^ 64) with 18446744073709551616 in *. rewrite !u64_small by lia.
  assert ((dest - dest - 1) mod 18446744073709551616 = 18446744073709551615) as E.
  { by rewrite Z.sub_diag. }
  case_match; [apply memmove_back_runs|apply memmove_front_runs]; lia.
Qed.
Lemma memmove_asm_witness : asm_memmove 100 (fun _ => 0) 16 32 0 = None.
Proof. apply (memmove_asm 100 (fun _ => 0) 16 32 0); vm_compute; intuition discriminate. Defined.

(** [memset] of no bytes does not stop: it is still running after any
    number of rounds below the size of the address space, having overwritten
    the bytes from [dest] on. *)
Theorem asm_memset_zero_runs fuel m dest data :
  0 <= dest < 2 ^ 64 -> Z.of_nat fuel < 2 ^ 64 -> asm_memset fuel m dest data 0 = None.
Proof.
  change (2 ^ 64) with 18446744073709551616. intros Hd Hf. unfold asm_memset. rewrite Z.add_0_r, u64_small by lia.
  apply memset_loop_runs; [lia..|]. rewrite Z.sub_diag. change ((0 - 1) mod 18446744073709551616) with 18446744073709551615. lia.
Qed.
Lemma asm_memset_zero_runs_witness : asm_memset 100 (fun _ => 0) 5 1 0 = None.
Proof. apply (asm_memset_zero_runs 100 (fun _ => 0) 5 1); vm_compute; intuition discriminate. Defined.
