(* ===== verification/Random.v ===== *)
(** * The pseudo-random generator (src/driver/random/random.c)

    A linear congruential generator; its state [v] is the last value drawn. *)

From S2P Require Import Prelude.

Definition random_a : Z := 1103515245.
Definition random_c : Z := 12345.
Definition random_m : Z := 2147483648.
Definition random_init : Z := 1.

Definition random_Seed (seed : Z) : Z := u32 seed.
(** Returns the value drawn, which is also the new state. *)
Definition random_Rand (v : Z) : Z := u32 (u64 (u64 (v * random_a) + random_c) mod random_m).

(** The 64-bit intermediate does not overflow for a 32-bit state, so the draw
    is the congruence itself. *)
Lemma random_Rand_lcg v :
  0 <= v < 2 ^ 32 -> random_Rand v = (v * random_a + random_c) mod random_m.
Proof.
  intros. unfold random_Rand, random_a, random_c, random_m.
  rewrite (u64_small (v * _)) by lia. rewrite u64_small by lia.
  apply u32_small. lia.
Qed.

Lemma random_Rand_range v : 0 <= random_Rand v < 2 ^ 31.
Proof. unfold random_Rand, random_m. word_lia. Qed.
