(* ===== verification/Queue.v ===== *)
(** * The ring-buffer byte queue (src/util/queue.c, queue.h)

    A [queue_Queue] holds pointers into a caller-supplied buffer of machine
    memory.  The operations below take the struct and the memory and return
    both; diagnostics printed on misuse are not modelled.  The component is
    proved to implement a bounded FIFO of bytes ([fifo_step]). *)

From S2P Require Import Prelude Mem.

Record queue_Queue := mk_queue {
  q_data : Z;     (* the data buffer *)
  q_size : Z;     (* size of data buffer *)
  q_begin : Z;    (* first in-queue byte *)
  q_end : Z;      (* past-the-end of in-queue data *)
  q_count : Z;    (* number of in-queue bytes *)
}.

Definition queue_InitBuffered (buffer size : Z) : queue_Queue :=
  mk_queue buffer size buffer buffer 0.

Definition queue_PushByte (q : queue_Queue) (m : mem) (b : Z)
    : queue_Queue * mem :=
  if q_count q =? q_size q then (q, m)
  else
    let m' := store8 m (q_end q) b in
    let e := q_end q + 1 in
    let e := if e =? q_data q + q_size q then q_data q else e in
    (mk_queue (q_data q) (q_size q) (q_begin q) e (q_count q + 1), m').

Definition queue_PopByte (q : queue_Queue) (m : mem) : Z * queue_Queue :=
  if q_count q =? 0 then (0, q)
  else
    let d := load8 m (q_begin q) in
    let s := q_begin q + 1 in
    let s := if s =? q_data q + q_size q then q_data q else s in
    (d, mk_queue (q_data q) (q_size q) s (q_end q) (q_count q - 1)).

Definition queue_Space (q : queue_Queue) : Z := q_size q - q_count q.
Definition queue_Size (q : queue_Queue) : Z := q_count q.
Definition queue_Empty (q : queue_Queue) : bool := q_count q =? 0.

Definition queue_FrontByte (q : queue_Queue) (m : mem) : Z :=
  if q_count q =? 0 then 0 else load8 m (q_begin q).

(** [for (i = buffer; i < buffer + size; i++) queue_PushByte(q, *i)] *)
Fixpoint queue_Push_loop (n : nat) (q : queue_Queue) (m : mem) (i : Z)
    : queue_Queue * mem :=
  match n with
  | O => (q, m)
  | S n => let '(q, m) := queue_PushByte q m (load8 m i) in
           queue_Push_loop n q m (i + 1)
  end.
Definition queue_Push (q : queue_Queue) (m : mem) (buffer size : Z)
    : queue_Queue * mem :=
  if queue_Space q <? size then (q, m)
  else queue_Push_loop (Z.to_nat size) q m buffer.

Fixpoint queue_Pop_loop (n : nat) (q : queue_Queue) (m : mem) (i : Z)
    : queue_Queue * mem :=
  match n with
  | O => (q, m)
  | S n => let '(b, q) := queue_PopByte q m in
           queue_Pop_loop n q (store8 m i b) (i + 1)
  end.
Definition queue_Pop (q : queue_Queue) (m : mem) (buffer size : Z)
    : Z * queue_Queue * mem :=
  if queue_Size q <? size then (0, q, m)
  else let '(q, m) := queue_Pop_loop (Z.to_nat size) q m buffer in (size, q, m).

(** ** Representation

    The bytes held, in order of removal, and the invariant of the struct. *)

Definition q_addr (q : queue_Queue) (i : Z) : Z :=
  q_data q + (q_begin q - q_data q + i) mod q_size q.
Definition q_contents (q : queue_Queue) (m : mem) : list Z :=
  tab (q_count q) (fun i => load8 m (q_addr q i)).

Record q_wf (q : queue_Queue) : Prop := {
  qwf_data : 0 <= q_data q;
  qwf_top : q_data q + q_size q <= 2 ^ 64;
  qwf_size : 0 < q_size q;
  qwf_count : 0 <= q_count q <= q_size q;
  qwf_begin : q_data q <= q_begin q < q_data q + q_size q;
  qwf_end : q_end q = q_addr q (q_count q);
}.

(** The buffer is disjoint from the caller's range [a .. a + n - 1]. *)
Definition q_disjoint (q : queue_Queue) (a n : Z) : Prop :=
  a + n <= q_data q \/ q_data q + q_size q <= a.

(** ** The bounded FIFO the queue promises *)

Inductive q_op :=
  | OpPushByte (b : Z)
  | OpPopByte
  | OpFrontByte
  | OpSize
  | OpSpace
  | OpEmpty.

Definition fifo_step (cap : Z) (l : list Z) (op : q_op) : Z * list Z :=
  match op with
  | OpPushByte b =>
      (0, if Z.of_nat (length l) =? cap then l else l ++ [u8 b])
  | OpPopByte => match l with [] => (0, []) | b :: l => (b, l) end
  | OpFrontByte => (match l with [] => 0 | b :: _ => b end, l)
  | OpSize => (Z.of_nat (length l), l)
  | OpSpace => (cap - Z.of_nat (length l), l)
  | OpEmpty => (Z.b2z (match l with [] => true | _ => false end), l)
  end.
Definition queue_step (q : queue_Queue) (m : mem) (op : q_op)
    : Z * (queue_Queue * mem) :=
  match op with
  | OpPushByte b => (0, queue_PushByte q m b)
  | OpPopByte => let '(b, q) := queue_PopByte q m in (b, (q, m))
  | OpFrontByte => (queue_FrontByte q m, (q, m))
  | OpSize => (queue_Size q, (q, m))
  | OpSpace => (queue_Space q, (q, m))
  | OpEmpty => (Z.b2z (queue_Empty q), (q, m))
  end.
Fixpoint fifo_run (cap : Z) (l : list Z) (ops : list q_op) : list Z * list Z :=
  match ops with
  | [] => ([], l)
  | op :: ops => let '(r, l) := fifo_step cap l op in
                 let '(rs, l) := fifo_run cap l ops in (r :: rs, l)
  end.
Fixpoint queue_run (q : queue_Queue) (m : mem) (ops : list q_op)
    : list Z * (queue_Queue * mem) :=
  match ops with
  | [] => ([], (q, m))
  | op :: ops => let '(r, (q, m)) := queue_step q m op in
                 let '(rs, s) := queue_run q m ops in (r :: rs, s)
  end.

(** ** Lemmas *)

Lemma q_addr_range q i : q_wf q -> q_data q <= q_addr q i < q_data q + q_size q.
Proof.
  intros [? ? ? ? ? ?]. unfold q_addr.
  pose proof (Z.mod_pos_bound (q_begin q - q_data q + i) (q_size q)). lia.
Qed.

Lemma q_addr_inj q i j :
  q_wf q -> 0 <= i < q_size q -> 0 <= j < q_size q ->
  q_addr q i = q_addr q j -> i = j.
Proof.
  intros [? ? ? ? ? ?] Hi Hj E. unfold q_addr in E.
  set (o := q_begin q - q_data q) in *. set (s := q_size q) in *.
  assert (E' : (o + i) mod s = (o + j) mod s) by lia.
  assert ((i - j) mod s = 0) as Hd.
  { replace (i - j) with ((o + i) - (o + j)) by lia.
    rewrite Zminus_mod, E', Z.sub_diag. by apply Z.mod_0_l; lia. }
  apply Z.mod_divide in Hd as [k Hk]; [|lia].
  assert (k = 0) by nia. lia.
Qed.

(** Advancing a buffer pointer with the code's wrap test is addition modulo
    the size. *)
Lemma q_wrap d s p i :
  0 < s -> p = d + i mod s ->
  (if p + 1 =? d + s then d else p + 1) = d + (i + 1) mod s.
Proof.
  intros Hs ->. pose proof (Z.mod_pos_bound i s ltac:(lia)).
  rewrite <- (Zplus_mod_idemp_l i 1 s). generalize dependent (i mod s).
  intros r Hr. destruct (Z.eqb_spec (d + r + 1) (d + s)).
  - replace (r + 1) with s by lia. rewrite Z.mod_same; lia.
  - rewrite Z.mod_small; lia.
Qed.

Lemma length_q_contents q m :
  q_wf q -> Z.of_nat (length (q_contents q m)) = q_count q.
Proof.
  intros [? ? ? ? ? ?]. unfold q_contents. rewrite length_tab. lia.
Qed.

Lemma q_contents_ext q m m' :
  q_wf q -> (forall x, q_data q <= x < q_data q + q_size q -> m' x = m x) ->
  q_contents q m' = q_contents q m.
Proof.
  intros Hw H. apply tab_ext. intros i Hi. unfold load8. rewrite H; [done|]. by apply q_addr_range.
Qed.

Lemma queue_Init_wf d s :
  0 <= d -> d + s <= 2 ^ 64 -> 0 < s -> q_wf (queue_InitBuffered d s).
Proof.
  intros. split; simpl; try lia. unfold q_addr. simpl.
  rewrite Z.sub_diag, Z.mod_0_l; lia.
Qed.
Lemma queue_Init_contents d s m : q_contents (queue_InitBuffered d s) m = [].
Proof. reflexivity. Qed.

Lemma queue_PushByte_wf q m b : q_wf q -> q_wf (queue_PushByte q m b).1.
Proof.
  intros Hw. unfold queue_PushByte. zcase; simpl; [done|].
  destruct Hw as [? ? ? ? ? Hend]. split; simpl; try lia.
  apply (q_wrap _ _ _ (q_begin q - q_data q + q_count q)) in Hend; [|lia].
  rewrite Hend. unfold q_addr; simpl. do 2 f_equal; lia.
Qed.

Lemma queue_PushByte_contents q m b :
  q_wf q ->
  q_contents (queue_PushByte q m b).1 (queue_PushByte q m b).2 =
  (if q_count q =? q_size q then q_contents q m else q_contents q m ++ [u8 b]).
Proof.
  intros Hw. unfold queue_PushByte. zcase; simpl; [done|].
  destruct (qwf_count q Hw). unfold q_contents at 1; simpl.
  rewrite tab_snoc by lia. f_equal; [|f_equal].
  - apply tab_ext. intros i Hi. apply load8_store8_ne. rewrite (qwf_end q Hw).
    intros E. apply q_addr_inj in E; auto; lia.
  - change (q_addr _ (q_count q)) with (q_addr q (q_count q)).
    by rewrite <- (qwf_end q Hw), load8_store8_eq.
Qed.

Lemma queue_PushByte_frame q m b :
  q_wf q -> same_outside (q_data q) (q_size q) m (queue_PushByte q m b).2.
Proof.
  intros Hw. unfold queue_PushByte. zcase; simpl; [done|].
  apply same_outside_store8. rewrite (qwf_end q Hw). by apply q_addr_range.
Qed.

Lemma queue_PopByte_addr q m i :
  q_wf q -> q_count q <> 0 ->
  q_addr (queue_PopByte q m).2 i = q_addr q (1 + i).
Proof.
  intros Hw Hc. destruct Hw as [? ? ? ? ? ?]. unfold queue_PopByte.
  zcase; simpl; [lia|]. unfold q_addr at 1; simpl.
  rewrite (q_wrap _ _ _ (q_begin q - q_data q)); [|lia|rewrite Z.mod_small; lia].
  unfold q_addr. f_equal.
  rewrite Z.add_simpl_l, Zplus_mod_idemp_l. f_equal. lia.
Qed.

Lemma queue_PopByte_wf q m : q_wf q -> q_wf (queue_PopByte q m).2.
Proof.
  intros Hw. destruct (Z.eq_dec (q_count q) 0) as [E|E].
  { unfold queue_PopByte. by rewrite E. }
  pose proof (queue_PopByte_addr q m (q_count q - 1) Hw E) as Ha.
  replace (1 + (q_count q - 1)) with (q_count q) in Ha by lia.
  rewrite <- (qwf_end q Hw) in Ha. revert Ha. destruct Hw as [? ? ? ? ? ?].
  unfold queue_PopByte. zcase; simpl; [lia|]. intros Ha.
  split; simpl; try lia. all: zcase; lia.
Qed.

Lemma queue_PopByte_contents q m :
  q_wf q ->
  q_contents q m = (if q_count q =? 0 then []
                    else (queue_PopByte q m).1 :: q_contents (queue_PopByte q m).2 m).
Proof.
  intros Hw. destruct (Z.eqb_spec (q_count q) 0) as [E|E].
  { unfold q_contents. by rewrite E. }
  unfold q_contents. destruct (qwf_count q Hw). rewrite tab_cons by lia. f_equal.
  - unfold queue_PopByte. zcase; simpl; [lia|]. f_equal.
    destruct Hw. unfold q_addr. rewrite Z.add_0_r, Z.mod_small; lia.
  - replace (q_count (queue_PopByte q m).2) with (q_count q - 1)
      by (unfold queue_PopByte; zcase; simpl; lia).
    apply tab_ext. intros i Hi. by rewrite queue_PopByte_addr.
Qed.

Lemma queue_PushByte_data q m b :
  q_data (queue_PushByte q m b).1 = q_data q /\
  q_size (queue_PushByte q m b).1 = q_size q.
Proof. unfold queue_PushByte. by zcase. Qed.
Lemma queue_PopByte_data q m :
  q_data (queue_PopByte q m).2 = q_data q /\
  q_size (queue_PopByte q m).2 = q_size q.
Proof. unfold queue_PopByte. by zcase. Qed.

Lemma q_contents_nil q m : q_wf q -> q_contents q m = [] <-> q_count q = 0.
Proof.
  intros Hw. rewrite <- (length_q_contents q m Hw).
  destruct (q_contents q m); simpl; split; intros; done || lia.
Qed.

(** One operation of the queue is one step of the FIFO. *)
Lemma queue_step_fifo q m op :
  q_wf q ->
  let '(r, (q', m')) := queue_step q m op in
  fifo_step (q_size q) (q_contents q m) op = (r, q_contents q' m') /\
  q_wf q' /\ q_data q' = q_data q /\ q_size q' = q_size q /\
  same_outside (q_data q) (q_size q) m m'.
Proof.
  intros Hw. destruct op as [b| | | | |]; simpl; rewrite ?length_q_contents by done.
  - pose proof (queue_PushByte_contents q m b Hw) as Hc.
    pose proof (queue_PushByte_wf q m b Hw). pose proof (queue_PushByte_frame q m b Hw).
    destruct (queue_PushByte_data q m b).
    destruct (queue_PushByte q m b) as [q' m']; simpl in *. by rewrite Hc.
  - pose proof (queue_PopByte_contents q m Hw) as Hc.
    pose proof (queue_PopByte_wf q m Hw). destruct (queue_PopByte_data q m).
    destruct (queue_PopByte q m) as [b q'] eqn:E; simpl in *.
    split; [|done]. rewrite Hc. unfold queue_PopByte in E.
    destruct (Z.eqb_spec (q_count q) 0) as [Z0|]; [|done].
    injection E as <- <-. f_equal. symmetry. by apply q_contents_nil.
  - split; [|done]. unfold queue_FrontByte. rewrite (queue_PopByte_contents q m Hw).
    unfold queue_PopByte. by zcase.
  - done.
  - done.
  - split; [|done]. rewrite (queue_PopByte_contents q m Hw). unfold queue_Empty.
    by zcase.
Qed.

(** [queue_Push_loop] and [queue_Pop_loop] on [n] bytes. *)
Lemma queue_Push_loop_spec n q m i :
  q_wf q -> q_count q + Z.of_nat n <= q_size q -> q_disjoint q i (Z.of_nat n) ->
  let '(q', m') := queue_Push_loop n q m i in
  q_contents q' m' = q_contents q m ++ bytes m i (Z.of_nat n) /\
  q_wf q' /\ q_data q' = q_data q /\ q_size q' = q_size q /\
  same_outside (q_data q) (q_size q) m m'.
Proof.
  revert q m i. induction n as [|n IH]; intros q m i Hw Hs Hd.
  { simpl. unfold bytes. rewrite tab_0, app_nil_r by lia. done. }
  cbn [queue_Push_loop].
  pose proof (queue_PushByte_contents q m (load8 m i) Hw) as Hc.
  pose proof (queue_PushByte_wf q m (load8 m i) Hw) as Hw'.
  pose proof (queue_PushByte_frame q m (load8 m i) Hw) as Hf.
  destruct (queue_PushByte_data q m (load8 m i)) as [Hd' Hs'].
  assert (q_count (queue_PushByte q m (load8 m i)).1 = q_count q + 1) as Hn
    by (unfold queue_PushByte; zcase; simpl; lia).
  destruct (queue_PushByte q m (load8 m i)) as [q1 m1]; simpl in *.
  specialize (IH q1 m1 (i + 1)).
  destruct (queue_Push_loop n q1 m1 (i + 1)) as [q2 m2].
  destruct IH as (IH1 & IH2 & IH3 & IH4 & IH5); [done|lia| |].
  { unfold q_disjoint in *. rewrite Hd', Hs'. lia. }
  rewrite IH1, Hc. split.
  - destruct (Z.eqb_spec (q_count q) (q_size q)); [lia|].
    rewrite <- app_assoc. f_equal.
    rewrite (bytes_ext m m1) by (intros; apply Hf; unfold q_disjoint in Hd; lia).
    unfold bytes. rewrite (tab_cons (Z.of_nat (S n))) by lia.
    rewrite Z.add_0_r. unfold load8 at 1. rewrite u8_idemp.
    replace (Z.of_nat (S n) - 1) with (Z.of_nat n) by lia. simpl. f_equal.
    apply tab_ext. intros. f_equal. lia.
  - rewrite Hd' in IH3, IH5. rewrite Hs' in IH4, IH5.
    split_and!; [done..|by eapply same_outside_trans].
Qed.

Lemma queue_Pop_loop_spec n q m i :
  q_wf q -> Z.of_nat n <= q_count q -> q_disjoint q i (Z.of_nat n) ->
  let '(q', m') := queue_Pop_loop n q m i in
  q_contents q m = bytes m' i (Z.of_nat n) ++ q_contents q' m' /\
  q_wf q' /\ q_data q' = q_data q /\ q_size q' = q_size q /\
  same_outside i (Z.of_nat n) m m'.
Proof.
  revert q m i. induction n as [|n IH]; intros q m i Hw Hs Hd.
  { done. }
  cbn [queue_Pop_loop].
  pose proof (queue_PopByte_contents q m Hw) as Hc.
  pose proof (queue_PopByte_wf q m Hw) as Hw'.
  destruct (queue_PopByte_data q m) as [Hd' Hs'].
  assert (q_count (queue_PopByte q m).2 = q_count q - 1) as Hn
    by (unfold queue_PopByte; zcase; simpl; lia).
  assert (u8 (queue_PopByte q m).1 = (queue_PopByte q m).1) as Hb.
  { unfold queue_PopByte. zcase; simpl; [done|]. apply u8_idemp. }
  destruct (queue_PopByte q m) as [b q1]; simpl in *.
  specialize (IH q1 (store8 m i b) (i + 1)).
  destruct (queue_Pop_loop n q1 (store8 m i b) (i + 1)) as [q2 m2].
  destruct IH as (IH1 & IH2 & IH3 & IH4 & IH5); [done|lia| |].
  { unfold q_disjoint in *. rewrite Hd', Hs'. lia. }
  assert (forall x, q_data q1 <= x < q_data q1 + q_size q1 ->
    store8 m i b x = m x) as Hfr.
  { intros x Hx. unfold store8. apply upd_ne. unfold q_disjoint in Hd. lia. }
  rewrite (q_contents_ext q1 m) in IH1 by done. split.
  - rewrite Hc, IH1. destruct (Z.eqb_spec (q_count q) 0); [lia|].
    unfold bytes at 2. rewrite (tab_cons (Z.of_nat (S n))) by lia.
    rewrite Z.add_0_r. simpl. f_equal.
    + unfold load8. rewrite IH5 by lia. unfold store8. by rewrite upd_eq, u8_idemp, Hb.
    + f_equal. replace (Z.of_nat (S n) - 1) with (Z.of_nat n) by lia.
      apply tab_ext. intros. f_equal. lia.
  - split_and!; [done|congruence|congruence|].
    intros x Hx. rewrite IH5 by lia. unfold store8. apply upd_ne. lia.
Qed.

(** * Properties *)

(** C29. The ring buffer implements a bounded FIFO: any sequence of pushes,
    pops and observers on an initialised queue returns what the abstract
    queue of at most [size] bytes returns, whatever the wrap-arounds, and
    leaves the queue representing the abstract final contents. *)
Theorem queue_refines_fifo data size m ops :
  0 <= data -> data + size <= 2 ^ 64 -> 0 < size ->
  let '(rs, (q', m')) := queue_run (queue_InitBuffered data size) m ops in
  fifo_run size [] ops = (rs, q_contents q' m') /\ q_wf q' /\
  same_outside data size m m'.
Proof.
  intros H1 H2 H3. pose proof (queue_Init_wf data size H1 H2 H3) as Hw.
  rewrite <- (queue_Init_contents data size m).
  assert (q_data (queue_InitBuffered data size) = data) as Ed by done.
  assert (q_size (queue_InitBuffered data size) = size) as Es by done.
  revert Hw Ed Es m. generalize (queue_InitBuffered data size).
  induction ops as [|op ops IH]; intros q Hw Ed Es m; simpl; [done|].
  pose proof (queue_step_fifo q m op Hw) as Hstep.
  destruct (queue_step q m op) as [r [q1 m1]].
  rewrite Ed, Es in Hstep. destruct Hstep as (-> & Hw1 & Ed1 & Es1 & Hf).
  specialize (IH q1 Hw1 Ed1 Es1 m1).
  destruct (queue_run q1 m1 ops) as [rs [q2 m2]].
  destruct IH as (-> & ? & ?). split_and!; [done..|].
  by eapply same_outside_trans.
Qed.

Lemma queue_refines_fifo_witness :
  let '(rs, (q', m')) := queue_run (queue_InitBuffered 100 2) (fun _ => 0)
     [OpPushByte 5; OpPushByte 6; OpPushByte 7; OpPopByte; OpPushByte 8; OpPopByte] in
  fifo_run 2 [] [OpPushByte 5; OpPushByte 6; OpPushByte 7; OpPopByte; OpPushByte 8;
     OpPopByte] = (rs, q_contents q' m') /\ q_wf q' /\
  same_outside 100 2 (fun _ => 0) m'.
Proof. apply (queue_refines_fifo 100 2); [lia|vm_compute; discriminate|lia]. Defined.

(** [queue_Push] writes all the bytes of the source range, in order, when
    there is room for them, and otherwise none: the queue and the memory are
    unchanged. *)
Theorem queue_Push_all_or_nothing q m buffer size :
  q_wf q -> 0 <= size -> q_disjoint q buffer size ->
  let '(q', m') := queue_Push q m buffer size in
  (if size <=? queue_Space q
   then q_contents q' m' = q_contents q m ++ bytes m buffer size
   else q' = q /\ m' = m) /\
  q_wf q' /\ same_outside (q_data q) (q_size q) m m'.
Proof.
  intros Hw Hs Hd. unfold queue_Push. zcase; zcase; try lia; [done|].
  pose proof (queue_Push_loop_spec (Z.to_nat size) q m buffer Hw) as Hloop.
  rewrite Z2Nat.id in Hloop by done. unfold queue_Space in *.
  destruct queue_Push_loop. destruct Hloop as (? & ? & ? & ? & ?); [lia|done..].
Qed.

Lemma queue_Push_all_or_nothing_witness :
  let q := mk_queue 100 4 103 103 0 in
  q_wf q /\ 0 <= 3 /\ q_disjoint q 10 3 /\
  let '(q', m') := queue_Push q (fun a => a) 10 3 in
  (if 3 <=? queue_Space q
   then q_contents q' m' = q_contents q (fun a => a) ++ bytes (fun a => a) 10 3
   else q' = q /\ m' = (fun a => a)) /\
  q_wf q' /\ same_outside (q_data q) (q_size q) (fun a => a) m'.
Proof.
  set (q := mk_queue 100 4 103 103 0).
  assert (q_wf q) as Hw by (split; vm_compute; intuition discriminate).
  assert (q_disjoint q 10 3) as Hd by (left; vm_compute; discriminate).
  split; [exact Hw|]. split; [lia|]. split; [exact Hd|].
  apply (queue_Push_all_or_nothing q (fun a => a) 10 3 Hw ltac:(lia) Hd).
Defined.

(** [queue_Pop] hands over the [size] oldest bytes in order and returns
    [size], or returns 0 and removes nothing when fewer are queued. *)
Theorem queue_Pop_all_or_nothing q m buffer size :
  q_wf q -> 0 <= size -> q_disjoint q buffer size ->
  let '(n, q', m') := queue_Pop q m buffer size in
  (if size <=? queue_Size q
   then n = size /\ q_contents q m = bytes m' buffer size ++ q_contents q' m'
   else n = 0 /\ q' = q /\ m' = m) /\
  q_wf q' /\ same_outside buffer size m m'.
Proof.
  intros Hw Hs Hd. unfold queue_Pop. zcase; zcase; try lia; [done|].
  pose proof (queue_Pop_loop_spec (Z.to_nat size) q m buffer Hw) as Hloop.
  rewrite Z2Nat.id in Hloop by done. unfold queue_Size in *.
  destruct queue_Pop_loop. destruct Hloop as (? & ? & ? & ? & ?); [lia|done..].
Qed.

Lemma queue_Pop_all_or_nothing_witness :
  let q := mk_queue 100 4 103 102 3 in
  q_wf q /\ 0 <= 3 /\ q_disjoint q 10 3 /\
  let '(n, q', m') := queue_Pop q (fun a => a) 10 3 in
  (if 3 <=? queue_Size q
   then n = 3 /\ q_contents q (fun a => a) = bytes m' 10 3 ++ q_contents q' m'
   else n = 0 /\ q' = q /\ m' = (fun a => a)) /\
  q_wf q' /\ same_outside 10 3 (fun a => a) m'.
Proof.
  set (q := mk_queue 100 4 103 102 3).
  assert (q_wf q) as Hw by (split; vm_compute; intuition discriminate).
  assert (q_disjoint q 10 3) as Hd by (left; vm_compute; discriminate).
  split; [exact Hw|]. split; [lia|]. split; [exact Hd|].
  apply (queue_Pop_all_or_nothing q (fun a => a) 10 3 Hw ltac:(lia) Hd).
Defined.
