(* ===== verification/Stack.v ===== *)
(** * The byte stack (src/util/stack.c, stack.h)

    A [stack] grows downward inside a caller-supplied buffer.  The component
    implements a bounded LIFO whose top is the head of a list of bytes; the
    diagnostics printed on misuse are not modelled. *)

From S2P Require Import Prelude Mem.

Record stack := mk_stack {
  s_data : Z;   (* the data buffer *)
  s_size : Z;   (* size of data buffer *)
  s_top : Z;    (* top of the stack, from data+size down to data *)
}.

Definition stack_InitBuffered (buffer size : Z) : stack :=
  mk_stack buffer size (buffer + size).

Definition set_top (s : stack) (t : Z) : stack := mk_stack (s_data s) (s_size s) t.

Definition stack_Empty (s : stack) : bool := s_top s =? s_data s + s_size s.
Definition stack_Size (s : stack) : Z := s_data s + s_size s - s_top s.
Definition stack_Space (s : stack) : Z := s_top s - s_data s.
Definition stack_Clear (s : stack) : stack := set_top s (s_data s + s_size s).

Definition stack_PushByte (s : stack) (m : mem) (b : Z) : stack * mem :=
  if s_top s <=? s_data s then (s, m)
  else (set_top s (s_top s - 1), store8 m (s_top s - 1) b).

Definition stack_PopByte (s : stack) (m : mem) : Z * stack :=
  if s_top s =? s_data s + s_size s then (0, s)
  else (load8 m (s_top s), set_top s (s_top s + 1)).

Definition stack_Push (s : stack) (m : mem) (buffer size : Z) : stack * mem :=
  if stack_Space s <? size then (s, m)
  else (set_top s (s_top s - size), memcpy m (s_top s - size) buffer size).

Definition stack_Pop (s : stack) (m : mem) (buffer size : Z) : Z * stack * mem :=
  if stack_Size s <? size then (0, s, m)
  else (size, set_top s (s_top s + size), memcpy m buffer (s_top s) size).

Definition stack_TopByte (s : stack) (m : mem) : Z :=
  if stack_Empty s then 0 else load8 m (s_top s).

Definition stack_Top (s : stack) (m : mem) (buffer size : Z) : Z * mem :=
  if stack_Size s <? size then (0, m)
  else (size, memcpy m buffer (s_top s) size).

(** ** Representation *)

Definition s_contents (s : stack) (m : mem) : list Z :=
  bytes m (s_top s) (stack_Size s).
Record s_wf (s : stack) : Prop := {
  swf_data : 0 <= s_data s;
  swf_end : s_data s + s_size s <= 2 ^ 64;
  swf_top : s_data s <= s_top s <= s_data s + s_size s;
}.
(** The caller's range is outside the stack's buffer. *)
Definition s_disjoint (s : stack) (a n : Z) : Prop :=
  a + n <= s_data s \/ s_data s + s_size s <= a.

(** ** The bounded LIFO the stack promises

    Block operations carry the address of the caller's buffer; its bytes are
    read from (or compared in) the memory at the time of the call. *)

Inductive s_op :=
  | SPushByte (b : Z)
  | SPopByte
  | STopByte
  | SSize
  | SSpace
  | SEmpty
  | SClear.
Definition lifo_step (cap : Z) (l : list Z) (op : s_op) : Z * list Z :=
  match op with
  | SPushByte b => (0, if Z.of_nat (length l) =? cap then l else u8 b :: l)
  | SPopByte => match l with [] => (0, []) | b :: l => (b, l) end
  | STopByte => (match l with [] => 0 | b :: _ => b end, l)
  | SSize => (Z.of_nat (length l), l)
  | SSpace => (cap - Z.of_nat (length l), l)
  | SEmpty => (Z.b2z (match l with [] => true | _ => false end), l)
  | SClear => (0, [])
  end.
Definition stack_step (s : stack) (m : mem) (op : s_op) : Z * (stack * mem) :=
  match op with
  | SPushByte b => (0, stack_PushByte s m b)
  | SPopByte => let '(b, s) := stack_PopByte s m in (b, (s, m))
  | STopByte => (stack_TopByte s m, (s, m))
  | SSize => (stack_Size s, (s, m))
  | SSpace => (stack_Space s, (s, m))
  | SEmpty => (Z.b2z (stack_Empty s), (s, m))
  | SClear => (0, (stack_Clear s, m))
  end.
Fixpoint lifo_run (cap : Z) (l : list Z) (ops : list s_op) : list Z * list Z :=
  match ops with
  | [] => ([], l)
  | op :: ops => let '(r, l) := lifo_step cap l op in
                 let '(rs, l) := lifo_run cap l ops in (r :: rs, l)
  end.
Fixpoint stack_run (s : stack) (m : mem) (ops : list s_op)
    : list Z * (stack * mem) :=
  match ops with
  | [] => ([], (s, m))
  | op :: ops => let '(r, (s, m)) := stack_step s m op in
                 let '(rs, st) := stack_run s m ops in (r :: rs, st)
  end.

(** ** Lemmas *)

Lemma length_s_contents s m :
  s_wf s -> Z.of_nat (length (s_contents s m)) = stack_Size s.
Proof.
  intros [? ? ?]. unfold s_contents. rewrite length_bytes. unfold stack_Size. lia.
Qed.

Lemma s_contents_cons s m :
  s_wf s -> s_top s <> s_data s + s_size s ->
  s_contents s m = load8 m (s_top s) :: s_contents (set_top s (s_top s + 1)) m.
Proof.
  intros [? ? ?] Hne. unfold s_contents, stack_Size, set_top; simpl.
  replace (s_data s + s_size s - s_top s)
    with (1 + (s_data s + s_size s - (s_top s + 1))) by lia.
  rewrite bytes_app by lia. by rewrite bytes_1.
Qed.

Lemma s_contents_nil s m : s_top s = s_data s + s_size s -> s_contents s m = [].
Proof. intros H. unfold s_contents, stack_Size. by rewrite H, Z.sub_diag. Qed.

Lemma set_top_wf s t :
  s_wf s -> s_data s <= t <= s_data s + s_size s -> s_wf (set_top s t).
Proof. intros [? ? ?] ?. by split. Qed.
#[export] Hint Resolve set_top_wf : words.

(** One operation of the stack is one step of the LIFO. *)
Lemma stack_step_lifo s m op :
  s_wf s ->
  let '(r, (s', m')) := stack_step s m op in
  lifo_step (s_size s) (s_contents s m) op = (r, s_contents s' m') /\
  s_wf s' /\ s_data s' = s_data s /\ s_size s' = s_size s /\
  same_outside (s_data s) (s_size s) m m'.
Proof.
  intros Hw. destruct (Hw) as [? ? ?].
  assert (Hcase : forall {A} (x y : A),
    match s_contents s m with [] => x | _ => y end =
    if stack_Empty s then x else y).
  { intros. unfold stack_Empty. zcase; [by rewrite s_contents_nil|].
    by rewrite s_contents_cons. }
  destruct op as [b| | | | | |]; simpl; rewrite ?length_s_contents by done.
  - unfold stack_PushByte, stack_Size. zcase; zcase; try lia; simpl.
    { done. }
    split_and!; [|apply set_top_wf; [done|lia]|done..|apply same_outside_store8; lia].
    f_equal. rewrite (s_contents_cons (set_top s (s_top s - 1)));
      [|apply set_top_wf; [done|lia]|simpl; lia].
    simpl. rewrite load8_store8_eq. f_equal. rewrite Z.sub_add.
    change (set_top (set_top s _) (s_top s)) with (set_top s (s_top s)).
    unfold s_contents, stack_Size; simpl. symmetry. apply bytes_ext.
    intros. unfold store8. apply upd_ne. lia.
  - unfold stack_PopByte. zcase; simpl.
    { rewrite s_contents_nil by done. done. }
    rewrite s_contents_cons by done. split_and!; [done| |done..].
    apply set_top_wf; [done|lia].
  - split; [|done]. unfold stack_TopByte, stack_Empty. zcase.
    + by rewrite s_contents_nil.
    + by rewrite s_contents_cons.
  - done.
  - split; [|done]. unfold stack_Size, stack_Space. f_equal. lia.
  - split; [|done]. rewrite Hcase. by destruct stack_Empty.
  - unfold stack_Clear. split_and!; [|apply set_top_wf; [done|lia]|done..].
    by rewrite s_contents_nil.
Qed.

(** * Properties *)

(** The stack implements a bounded LIFO: any sequence of byte pushes, pops,
    observers and clears on an initialised stack returns what a list of at
    most [size] bytes returns, and touches only its buffer. *)
Theorem stack_refines_lifo data size m ops :
  0 <= data -> data + size <= 2 ^ 64 -> 0 <= size ->
  let '(rs, (s', m')) := stack_run (stack_InitBuffered data size) m ops in
  lifo_run size [] ops = (rs, s_contents s' m') /\ s_wf s' /\
  same_outside data size m m'.
Proof.
  intros H1 H2 H3.
  assert (s_wf (stack_InitBuffered data size)) as Hw by (split; simpl; lia).
  rewrite <- (s_contents_nil (stack_InitBuffered data size) m) by done.
  assert (s_data (stack_InitBuffered data size) = data) as Ed by done.
  assert (s_size (stack_InitBuffered data size) = size) as Es by done.
  revert Hw Ed Es m. generalize (stack_InitBuffered data size).
  induction ops as [|op ops IH]; intros s Hw Ed Es m; simpl; [done|].
  pose proof (stack_step_lifo s m op Hw) as Hstep.
  destruct (stack_step s m op) as [r [s1 m1]].
  rewrite Ed, Es in Hstep. destruct Hstep as (-> & Hw1 & Ed1 & Es1 & Hf).
  specialize (IH s1 Hw1 Ed1 Es1 m1).
  destruct (stack_run s1 m1 ops) as [rs [s2 m2]].
  destruct IH as (-> & ? & ?). split_and!; [done..|].
  by eapply same_outside_trans.
Qed.

Lemma stack_refines_lifo_witness :
  let '(rs, (s', m')) := stack_run (stack_InitBuffered 100 2) (fun _ => 0)
     [SPushByte 5; SPushByte 6; SPushByte 7; SPopByte; STopByte; SSpace] in
  lifo_run 2 [] [SPushByte 5; SPushByte 6; SPushByte 7; SPopByte; STopByte; SSpace]
    = (rs, s_contents s' m') /\ s_wf s' /\ same_outside 100 2 (fun _ => 0) m'.
Proof. apply (stack_refines_lifo 100 2); [lia|vm_compute; discriminate|lia]. Defined.

(** Block round trip: what [stack_Push] puts on the stack [stack_Pop] hands
    back byte for byte, the rest of the stack being as before; [stack_Push]
    without room and [stack_Pop] without enough data do nothing. *)
Theorem stack_Push_Pop_roundtrip s m src dst size :
  s_wf s -> 0 <= size -> s_disjoint s src size -> s_disjoint s dst size ->
  let '(s1, m1) := stack_Push s m src size in
  let '(n, s2, m2) := stack_Pop s1 m1 dst size in
  s_wf s1 /\
  if size <=? stack_Space s
  then s_contents s1 m1 = bytes m src size ++ s_contents s m /\
       n = size /\ s2 = s /\ bytes m2 dst size = bytes m src size /\
       s_contents s2 m2 = s_contents s m
  else s1 = s /\ m1 = m /\
       (stack_Size s < size -> n = 0 /\ s2 = s /\ m2 = m).
Proof.
  intros Hw Hs Hsrc Hdst. destruct (Hw) as [? ? ?]. unfold stack_Push.
  destruct (Z.ltb_spec (stack_Space s) size) as [Hlt|Hge].
  { destruct (Z.leb_spec size (stack_Space s)); [lia|].
    unfold stack_Pop. zcase; split_and!; done || (intros; lia). }
  destruct (Z.leb_spec size (stack_Space s)); [|lia].
  unfold stack_Pop, stack_Space, stack_Size, s_disjoint in *; simpl. zcase; [lia|].
  assert (same_outside (s_top s - size) size m
    (memcpy m (s_top s - size) src size)) as Hf by apply memcpy_out.
  rewrite Z.sub_add. split; [apply set_top_wf; [done|lia]|].
  assert (set_top (set_top s (s_top s - size)) (s_top s) = s) as -> by (by destruct s).
  split_and!; try done.
  - unfold s_contents, stack_Size; simpl.
    replace (s_data s + s_size s - (s_top s - size))
      with (size + (s_data s + s_size s - s_top s)) by lia.
    rewrite bytes_app, Z.sub_add, bytes_memcpy by lia. f_equal.
    eapply bytes_same; [done|lia].
  - rewrite !bytes_memcpy by lia. done.
  - unfold s_contents, stack_Size.
    rewrite (bytes_same _ _ _ _ _ _ (memcpy_out _ dst _ size)) by lia.
    eapply bytes_same; [done|lia].
Qed.

Lemma stack_Push_Pop_roundtrip_witness :
  let s := mk_stack 100 8 104 in let m := fun a => a in
  s_wf s /\ s_disjoint s 10 3 /\ s_disjoint s 20 3 /\
  let '(s1, m1) := stack_Push s m 10 3 in
  let '(n, s2, m2) := stack_Pop s1 m1 20 3 in
  s_wf s1 /\
  if 3 <=? stack_Space s
  then s_contents s1 m1 = bytes m 10 3 ++ s_contents s m /\
       n = 3 /\ s2 = s /\ bytes m2 20 3 = bytes m 10 3 /\
       s_contents s2 m2 = s_contents s m
  else s1 = s /\ m1 = m /\ (stack_Size s < 3 -> n = 0 /\ s2 = s /\ m2 = m).
Proof.
  set (s := mk_stack 100 8 104). set (m := fun a : Z => a).
  assert (s_wf s) as Hw by (split; vm_compute; intuition discriminate).
  assert (s_disjoint s 10 3) as H1 by (left; vm_compute; discriminate).
  assert (s_disjoint s 20 3) as H2 by (left; vm_compute; discriminate).
  split; [exact Hw|]. split; [exact H1|]. split; [exact H2|].
  apply (stack_Push_Pop_roundtrip s m 10 20 3 Hw ltac:(lia) H1 H2).
Defined.
