(* ===== verification/Tree.v ===== *)
(** * The treap: operations (src/util/tree.c, tree.h, tree_internal.h)

    Nodes live in a heap that maps a pointer to a node; the null pointer is
    [None].  Every dereference is explicit: an operation that would follow a
    dangling pointer yields [None], so a theorem that an operation returns
    [Some] includes its memory safety.  Loops and recursions carry fuel; the
    entry points supply one more than the number of nodes of the heap.

    The object stored in a node has an arbitrary type [D]. *)

From S2P Require Import Prelude Random.

Record tree_Node (D : Type) := mk_node {
  key : Z;              (* node key *)
  left : option Z;      (* left and right sons *)
  right : option Z;
  father : option Z;    (* father node *)
  internal : Z;         (* internal data for balanced trees *)
  data : D;             (* object data *)
}.
Arguments mk_node {D}. Arguments key {D}. Arguments left {D}.
Arguments right {D}. Arguments father {D}. Arguments internal {D}.
Arguments data {D}.

Record tree_Tree := mk_tree {
  objectSize : Z;       (* size in bytes of the object *)
  root : option Z;      (* root of the tree, NULL if empty *)
  t_size : Z;           (* number of objects in the tree *)
}.

Inductive __tree_ConnectType := __tree_Left | __tree_Right.
#[export] Instance __tree_ConnectType_eq_dec : EqDecision __tree_ConnectType.
Proof. solve_decision. Defined.

(** What the tree needs of the kernel allocator: a fresh node address for
    every allocation, with unspecified object contents. *)
Class NodeAlloc (D : Type) := {
  kMalloc_node : gmap Z (tree_Node D) -> Z;
  kMalloc_data : gmap Z (tree_Node D) -> D;
  kMalloc_fresh : forall h, h !! kMalloc_node h = None;
}.

Section Tree.
Context {D : Type}.
Abbreviation heap := (gmap Z (tree_Node D)).
Implicit Types (h : heap) (n : tree_Node D).

Definition set_left (p : option Z) n := mk_node (key n) p (right n) (father n) (internal n) (data n).
Definition set_right (p : option Z) n := mk_node (key n) (left n) p (father n) (internal n) (data n).
Definition set_father (p : option Z) n := mk_node (key n) (left n) (right n) p (internal n) (data n).
Definition set_data (d : D) n := mk_node (key n) (left n) (right n) (father n) (internal n) d.

(** [*p = f ( *p)]: fails on a dangling pointer. *)
Definition modify h (p : Z) (f : tree_Node D -> tree_Node D) : option heap :=
  n ← h !! p; Some (<[p := f n]> h).

Definition __tree_ConnectType_Invert (t : __tree_ConnectType) : __tree_ConnectType :=
  match t with __tree_Left => __tree_Right | __tree_Right => __tree_Left end.

Definition __tree_Tell h (son : Z) : option __tree_ConnectType :=
  n ← h !! son;
  match father n with
  | None => Some __tree_Left
  | Some f => fn ← h !! f;
              Some (if decide (left fn = Some son) then __tree_Left else __tree_Right)
  end.

Definition __tree_Get h (f : Z) (type : __tree_ConnectType) : option (option Z) :=
  n ← h !! f;
  Some (match type with __tree_Left => left n | __tree_Right => right n end).

Definition __tree_Connect h (f son : option Z) (type : __tree_ConnectType) : option heap :=
  h ← match son with
      | Some s => modify h s (set_father f)
      | None => Some h
      end;
  match f with
  | Some p => modify h p (match type with
                          | __tree_Left => set_left son
                          | __tree_Right => set_right son
                          end)
  | None => Some h
  end.

(** Rotates the node up; returns the heap and the root pointer. *)
Definition __tree_Rotate h (rt : option Z) (node : Z) : option (heap * option Z) :=
  n ← h !! node;
  match father n with
  | None => Some (h, rt)
  | Some f =>
      type ← __tree_Tell h node;
      b ← __tree_Get h node (__tree_ConnectType_Invert type);
      fn ← h !! f;
      tf ← __tree_Tell h f;
      h ← __tree_Connect h (father fn) (Some node) tf;
      h ← __tree_Connect h (Some node) (Some f) (__tree_ConnectType_Invert type);
      h ← __tree_Connect h (Some f) b type;
      n ← h !! node;
      Some (h, match father n with None => Some node | Some _ => rt end)
  end.

Fixpoint __tree_treap_Adjust (fuel : nat) h (rt : option Z) (node : Z)
    : option (heap * option Z) :=
  match fuel with
  | O => None
  | S fuel =>
      n ← h !! node;
      match father n with
      | None => Some (h, rt)
      | Some f =>
          fn ← h !! f;
          if internal fn >? internal n
          then '(h, rt) ← __tree_Rotate h rt node; __tree_treap_Adjust fuel h rt node
          else Some (h, rt)
      end
  end.

Fixpoint __tree_FindNode (fuel : nat) h (node : option Z) (k : Z)
    : option (option Z) :=
  match fuel with
  | O => None
  | S fuel =>
      match node with
      | None => Some None
      | Some p =>
          n ← h !! p;
          if k <? key n then __tree_FindNode fuel h (left n) k
          else if k >? key n then __tree_FindNode fuel h (right n) k
          else Some (Some p)
      end
  end.
Definition tree_fuel h : nat := S (size h).
Definition tree_FindNode h (t : tree_Tree) (k : Z) : option (option Z) :=
  __tree_FindNode (tree_fuel h) h (root t) k.
(** The address of the object of a node stands for [node->data]. *)
Definition tree_Find h (t : tree_Tree) (k : Z) : option (option Z) :=
  tree_FindNode h t k.

Definition tree_Create (objSize : Z) : tree_Tree := mk_tree objSize None 0.

(** [while (result->left) result = result->left] *)
Fixpoint tree_leftmost (fuel : nat) h (p : Z) : option Z :=
  match fuel with
  | O => None
  | S fuel => n ← h !! p;
              match left n with
              | Some l => tree_leftmost fuel h l
              | None => Some p
              end
  end.
Fixpoint tree_rightmost (fuel : nat) h (p : Z) : option Z :=
  match fuel with
  | O => None
  | S fuel => n ← h !! p;
              match right n with
              | Some r => tree_rightmost fuel h r
              | None => Some p
              end
  end.
Definition tree_FirstNode h (t : tree_Tree) : option (option Z) :=
  match root t with
  | None => Some None
  | Some p => r ← tree_leftmost (tree_fuel h) h p; Some (Some r)
  end.
Definition tree_LastNode h (t : tree_Tree) : option (option Z) :=
  match root t with
  | None => Some None
  | Some p => r ← tree_rightmost (tree_fuel h) h p; Some (Some r)
  end.

(** [while (result->father && __tree_Tell(result) == side) result = result->father;
    return result->father] *)
Fixpoint tree_climb (fuel : nat) (side : __tree_ConnectType) h (p : Z) : option (option Z) :=
  match fuel with
  | O => None
  | S fuel =>
      n ← h !! p;
      match father n with
      | None => Some None
      | Some f => ty ← __tree_Tell h p;
                  if decide (ty = side) then tree_climb fuel side h f
                  else Some (Some f)
      end
  end.
Definition tree_Node_Next h (p : Z) : option (option Z) :=
  n ← h !! p;
  match right n with
  | Some r => x ← tree_leftmost (tree_fuel h) h r; Some (Some x)
  | None => tree_climb (tree_fuel h) __tree_Right h p
  end.
Definition tree_Node_Previous h (p : Z) : option (option Z) :=
  n ← h !! p;
  match left n with
  | Some l => x ← tree_rightmost (tree_fuel h) h l; Some (Some x)
  | None => tree_climb (tree_fuel h) __tree_Left h p
  end.

(** The rotation loop of [tree_Delete]: sinks [node] until a son is missing. *)
Fixpoint tree_Delete_sink (fuel : nat) h (rt : option Z) (node : Z)
    : option (heap * option Z) :=
  match fuel with
  | O => None
  | S fuel =>
      n ← h !! node;
      match left n, right n with
      | Some l, Some r =>
          ln ← h !! l;
          rn ← h !! r;
          '(h, rt) ← __tree_Rotate h rt (if internal ln <? internal rn then l else r);
          tree_Delete_sink fuel h rt node
      | _, _ => Some (h, rt)
      end
  end.
(** [tree_Delete] does not change the [size] field. *)
Definition tree_Delete h (t : tree_Tree) (node : Z) : option (heap * tree_Tree) :=
  '(h, rt) ← tree_Delete_sink (tree_fuel h) h (root t) node;
  n ← h !! node;
  let son := match left n with Some l => Some l | None => right n end in
  let rt := if decide (Some node = rt) then son else rt in
  ty ← __tree_Tell h node;
  h ← __tree_Connect h (father n) son ty;
  Some (delete node h, mk_tree (objectSize t) rt (t_size t)).

Fixpoint __tree_DestroyNodes (fuel : nat) h (node : Z) : option heap :=
  match fuel with
  | O => None
  | S fuel =>
      n ← h !! node;
      h ← match left n with Some l => __tree_DestroyNodes fuel h l | None => Some h end;
      n ← h !! node;
      h ← match right n with Some r => __tree_DestroyNodes fuel h r | None => Some h end;
      Some (delete node h)
  end.
(** Frees every node; the tree record itself is freed by the caller's heap. *)
Definition tree_Destroy h (t : tree_Tree) : option heap :=
  match root t with
  | Some p => __tree_DestroyNodes (tree_fuel h) h p
  | None => Some h
  end.

Section Insert.
Context `{NodeAlloc D}.

(** Returns the heap, the tree with its size incremented, and the node. *)
Definition __tree_NewNode h (t : tree_Tree) (k : Z) (f : option Z) (int : Z)
    : heap * tree_Tree * Z :=
  let p := kMalloc_node h in
  (<[p := mk_node k None None f int (kMalloc_data h)]> h,
   mk_tree (objectSize t) (root t) (u64 (t_size t + 1)), p).

(** The state threaded through the recursive insertion. *)
Record ins_state := mk_ins {
  is_heap : heap;
  is_tree : tree_Tree;
  is_rand : Z;      (* state of the random generator *)
  is_result : Z;    (* *result *)
  is_added : bool;  (* the value stored through [added] when it is not NULL *)
}.

Fixpoint __tree_InsertNodes (fuel : nat) h (t : tree_Tree) (v : Z)
    (node f : option Z) (k : Z) : option (ins_state * option Z) :=
  match fuel with
  | O => None
  | S fuel =>
      match node with
      | None =>
          let v := random_Rand v in
          let '(h, t, p) := __tree_NewNode h t k f (Z.lxor v k) in
          Some (mk_ins h t v p true, Some p)
      | Some p =>
          n ← h !! p;
          if k <? key n then
            '(s, l) ← __tree_InsertNodes fuel h t v (left n) (Some p) k;
            h ← modify (is_heap s) p (set_left l);
            Some (mk_ins h (is_tree s) (is_rand s) (is_result s) (is_added s), Some p)
          else if k >? key n then
            '(s, r) ← __tree_InsertNodes fuel h t v (right n) (Some p) k;
            h ← modify (is_heap s) p (set_right r);
            Some (mk_ins h (is_tree s) (is_rand s) (is_result s) (is_added s), Some p)
          else Some (mk_ins h t v p false, Some p)
      end
  end.

(** [added] tells whether the caller passed a pointer; when it is NULL the
    code still reads [*added], and [null_byte] is what the machine reads there. *)
Definition tree_InsertNode (null_byte : bool) h (t : tree_Tree) (v : Z) (k : Z)
    (added : bool) : option ins_state :=
  '(s, rt) ← __tree_InsertNodes (tree_fuel h) h t v (root t) None k;
  let t := mk_tree (objectSize (is_tree s)) rt (t_size (is_tree s)) in
  if (if added then is_added s else null_byte)
  then '(h, rt) ← __tree_treap_Adjust (tree_fuel (is_heap s)) (is_heap s) rt (is_result s);
       Some (mk_ins h (mk_tree (objectSize t) rt (t_size t)) (is_rand s)
               (is_result s) (is_added s))
  else Some (mk_ins (is_heap s) t (is_rand s) (is_result s) (is_added s)).
Definition tree_Insert (null_byte : bool) h (t : tree_Tree) (v k : Z) (added : bool)
    : option ins_state := tree_InsertNode null_byte h t v k added.

End Insert.
End Tree.
Arguments ins_state : clear implicits.
