(* ===== verification/TreeModel.v ===== *)
(** * The treap: representation and lemmas

    A functional tree annotated with node addresses ([tr]) and the predicate
    [repr] that a heap holds it, father pointers included; zippers to focus on
    a node; the effect of [__tree_Connect] and [__tree_Rotate] on them. *)

From S2P Require Import Prelude Random Tree.

Section Model.
Context {D : Type}.
Abbreviation heap := (gmap Z (tree_Node D)).
Implicit Types (h : heap).

Inductive tr :=
  | E
  | N (a : tr) (l k i : Z) (d : D) (b : tr).

Definition ptr (t : tr) : option Z := match t with E => None | N _ l _ _ _ _ => Some l end.
Fixpoint locs (t : tr) : list Z :=
  match t with E => [] | N a l _ _ _ b => locs a ++ l :: locs b end.
(** In-order contents: node address, key and object. *)
Fixpoint elems (t : tr) : list (Z * Z * D) :=
  match t with E => [] | N a l k _ d b => elems a ++ (l, k, d) :: elems b end.

Fixpoint repr h (f : option Z) (t : tr) : Prop :=
  match t with
  | E => True
  | N a l k i d b =>
      h !! l = Some (mk_node k (ptr a) (ptr b) f i d) /\
      repr h (Some l) a /\ repr h (Some l) b
  end.

(** Zippers: the path from a subtree to the root, innermost frame first. *)
Inductive frame :=
  | FL (l k i : Z) (d : D) (b : tr)     (* the hole is the left son of [l] *)
  | FR (a : tr) (l k i : Z) (d : D).    (* the hole is the right son of [l] *)
Abbreviation ctx := (list frame).
Definition floc (fr : frame) : Z := match fr with FL l _ _ _ _ => l | FR _ l _ _ _ => l end.
Definition fside (fr : frame) : __tree_ConnectType :=
  match fr with FL _ _ _ _ _ => __tree_Left | FR _ _ _ _ _ => __tree_Right end.
Definition ffather (c : ctx) : option Z := match c with [] => None | fr :: _ => Some (floc fr) end.
Definition fill (fr : frame) (t : tr) : tr :=
  match fr with FL l k i d b => N t l k i d b | FR a l k i d => N a l k i d t end.
Fixpoint plug (c : ctx) (t : tr) : tr :=
  match c with [] => t | fr :: c => plug c (fill fr t) end.
Fixpoint ctx_locs (c : ctx) : list Z :=
  match c with
  | [] => []
  | FL l _ _ _ b :: c => l :: locs b ++ ctx_locs c
  | FR a l _ _ _ :: c => l :: locs a ++ ctx_locs c
  end.
Definition fnode (fr : frame) (c : ctx) (hole : option Z) : tree_Node D :=
  match fr with
  | FL _ k i d b => mk_node k hole (ptr b) (ffather c) i d
  | FR a _ k i d => mk_node k (ptr a) hole (ffather c) i d
  end.
Definition fsib (fr : frame) : tr := match fr with FL _ _ _ _ b => b | FR a _ _ _ _ => a end.
Fixpoint ctx_repr h (c : ctx) (hole : option Z) : Prop :=
  match c with
  | [] => True
  | fr :: c => h !! floc fr = Some (fnode fr c hole) /\
               repr h (Some (floc fr)) (fsib fr) /\ ctx_repr h c (Some (floc fr))
  end.

Lemma repr_plug h c t :
  repr h None (plug c t) <-> ctx_repr h c (ptr t) /\ repr h (ffather c) t.
Proof.
  revert t. induction c as [|fr c IH]; intros t; simpl; [tauto|].
  rewrite IH. destruct fr; simpl; tauto.
Qed.

Lemma locs_plug c t : locs (plug c t) ≡ₚ locs t ++ ctx_locs c.
Proof.
  revert t. induction c as [|fr c IH]; intros t; simpl; [by rewrite app_nil_r|].
  rewrite IH. destruct fr; simpl; solve_Permutation.
Qed.

Lemma repr_ext h h' f t :
  (forall x, x ∈ locs t -> h' !! x = h !! x) -> repr h f t -> repr h' f t.
Proof.
  revert f. induction t as [|a IHa l k i d b IHb]; intros f Hx; simpl in *; [done|].
  intros (Hl & Ha & Hb). split_and!.
  - rewrite Hx; [done|]. set_solver.
  - apply IHa; [|done]. intros. apply Hx. set_solver.
  - apply IHb; [|done]. intros. apply Hx. set_solver.
Qed.

Lemma ctx_repr_ext h h' c hole :
  (forall x, x ∈ ctx_locs c -> h' !! x = h !! x) ->
  ctx_repr h c hole -> ctx_repr h' c hole.
Proof.
  revert hole. induction c as [|fr c IH]; intros hole Hx; simpl in *; [done|].
  intros (Hl & Ha & Hb). split_and!.
  - rewrite Hx; [done|]. destruct fr; simpl; set_solver.
  - eapply repr_ext; [|done]. intros. apply Hx. destruct fr; simpl in *; set_solver.
  - apply IH; [|done]. intros. apply Hx. destruct fr; simpl in *; set_solver.
Qed.

(** Changing the father of a subtree only changes its root node. *)
Lemma repr_refather h h' f f' t :
  NoDup (locs t) -> repr h f t ->
  (forall x, ptr t = Some x -> h' !! x = set_father f' <$> h !! x) ->
  (forall x, x ∈ locs t -> ptr t <> Some x -> h' !! x = h !! x) ->
  repr h' f' t.
Proof.
  destruct t as [|a l k i d b]; simpl; [done|].
  intros Hnd (Hl & Ha & Hb) Hr Ho.
  apply NoDup_app in Hnd as (Hna & Hd & Hnb). apply NoDup_cons in Hnb as [Hnl Hnb].
  split_and!.
  - rewrite (Hr _ eq_refl), Hl. done.
  - eapply repr_ext; [|done]. intros x Hx. apply Ho; set_solver.
  - eapply repr_ext; [|done]. intros x Hx. apply Ho; set_solver.
Qed.

Definition set_son (ty : __tree_ConnectType) (s : option Z) : tree_Node D -> tree_Node D :=
  match ty with __tree_Left => set_left s | __tree_Right => set_right s end.
Definition set_hole (c : ctx) (s : option Z) : tree_Node D -> tree_Node D :=
  match c with [] => id | fr :: _ => set_son (fside fr) s end.

(** Changing what hangs in the hole only changes the innermost frame. *)
Lemma ctx_repr_rehole h h' c hole hole' :
  NoDup (ctx_locs c) -> ctx_repr h c hole ->
  (forall x, ffather c = Some x -> h' !! x = set_hole c hole' <$> h !! x) ->
  (forall x, x ∈ ctx_locs c -> ffather c <> Some x -> h' !! x = h !! x) ->
  ctx_repr h' c hole'.
Proof.
  destruct c as [|fr c]; simpl; [done|].
  intros Hnd (Hl & Ha & Hb) Hr Ho.
  assert (floc fr ∉ locs (fsib fr) ++ ctx_locs c) as Hn.
  { destruct fr; simpl in *; by apply NoDup_cons in Hnd as [? _]. }
  split_and!.
  - rewrite (Hr _ eq_refl), Hl. by destruct fr.
  - eapply repr_ext; [|done]. intros x Hx. apply Ho; [destruct fr; set_solver|].
    intros [= <-]. set_solver.
  - eapply ctx_repr_ext; [|done]. intros x Hx. apply Ho; [destruct fr; set_solver|].
    intros [= <-]. set_solver.
Qed.

(** ** [__tree_Connect], [__tree_Tell] and [__tree_Rotate] *)

Lemma modify_Some h p n g : h !! p = Some n -> modify h p g = Some (<[p := g n]> h).
Proof. intros Hp. unfold modify. by rewrite Hp. Qed.

Definition son_update (f s : option Z) (ty : __tree_ConnectType) (x : Z)
    : tree_Node D -> tree_Node D :=
  fun n => (if decide (f = Some x) then set_son ty s else id)
           ((if decide (s = Some x) then set_father f else id) n).

Lemma Connect_spec h f s ty :
  (forall x, f = Some x -> is_Some (h !! x)) ->
  (forall x, s = Some x -> is_Some (h !! x)) ->
  exists h', __tree_Connect h f s ty = Some h' /\
             forall x, h' !! x = son_update f s ty x <$> h !! x.
Proof.
  intros Hf Hs. unfold __tree_Connect.
  assert (exists h1,
    match s with Some p => modify h p (set_father f) | None => Some h end = Some h1 /\
    forall x, h1 !! x = (if decide (s = Some x) then set_father f else id) <$> h !! x)
    as (h1 & -> & H1).
  { destruct s as [p|].
    - destruct (Hs p eq_refl) as [n Hn]. rewrite (modify_Some _ _ _ _ Hn).
      eexists. split; [done|]. intros x. case_decide as E.
      + injection E as <-. by rewrite lookup_insert_eq, Hn.
      + rewrite lookup_insert_ne by congruence. by destruct (h !! x).
    - exists h. split; [done|]. intros x. by destruct (h !! x). }
  simpl. unfold son_update. destruct f as [p|].
  - destruct (Hf p eq_refl) as [n Hn]. pose proof (H1 p) as Hp. rewrite Hn in Hp.
    assert (exists n1, h1 !! p = Some n1) as [n1 Hn1] by eauto.
    rewrite (modify_Some _ _ _ _ Hn1). eexists.
    split; [reflexivity|]. intros x. destruct (decide (Some p = Some x)) as [E|E].
    + injection E as <-. rewrite lookup_insert_eq. rewrite Hn in *. simpl in *.
      rewrite Hn1 in Hp. injection Hp as ->. by destruct ty.
    + rewrite lookup_insert_ne by congruence. rewrite H1. by destruct (h !! x).
  - exists h1. split; [done|]. intros x. rewrite H1. by destruct (h !! x).
Qed.

Definition cside (c : ctx) : __tree_ConnectType :=
  match c with [] => __tree_Left | fr :: _ => fside fr end.

Lemma Tell_spec h c l n :
  ctx_repr h c (Some l) -> h !! l = Some n -> father n = ffather c ->
  l ∉ ctx_locs c -> __tree_Tell h l = Some (cside c).
Proof.
  intros Hc Hl Hf Hn. unfold __tree_Tell. rewrite Hl. simpl. rewrite Hf.
  destruct c as [|fr c]; [done|]. simpl in *. destruct Hc as (-> & _ & _).
  simpl. f_equal. destruct fr as [f kf jf df s|s f kf jf df]; simpl.
  - by rewrite decide_True.
  - rewrite decide_False; [done|]. destruct s; simpl in *; [done|]. set_solver.
Qed.

Lemma Get_spec h f n ty :
  h !! f = Some n ->
  __tree_Get h f ty = Some (match ty with __tree_Left => left n | __tree_Right => right n end).
Proof. intros Hn. unfold __tree_Get. by rewrite Hn. Qed.

Definition rotate_up (fr : frame) (t : tr) : tr :=
  match fr, t with
  | FL f kf jf df s, N a l k i d b => N a l k i d (N b f kf jf df s)
  | FR s f kf jf df, N a l k i d b => N (N s f kf jf df a) l k i d b
  | _, E => E
  end.
(** The grandson that changes sides in a rotation. *)
Definition inner (fr : frame) (t : tr) : tr :=
  match fr, t with
  | FL _ _ _ _ _, N _ _ _ _ _ b => b
  | FR _ _ _ _ _, N a _ _ _ _ _ => a
  | _, E => E
  end.

Lemma ptr_in t x : ptr t = Some x -> x ∈ locs t.
Proof. destruct t; simpl; [done|]. intros [= ->]. set_solver. Qed.
Lemma repr_ptr h f t x : repr h f t -> ptr t = Some x -> is_Some (h !! x).
Proof. destruct t; simpl; [done|]. intros (? & _) [= <-]. eauto. Qed.
Lemma repr_in h f t x : repr h f t -> x ∈ locs t -> is_Some (h !! x).
Proof.
  revert f. induction t as [|a IHa l k i d b IHb]; intros f; simpl; [set_solver|].
  intros (? & ? & ?). rewrite elem_of_app, elem_of_cons.
  intros [?|[->|?]]; [eauto..|]. eauto.
Qed.
Lemma ctx_father h c hole x :
  ctx_repr h c hole -> ffather c = Some x -> is_Some (h !! x) /\ x ∈ ctx_locs c.
Proof.
  destruct c as [|fr c]; simpl; [done|]. intros (? & _) [= <-].
  split; [eauto|]. destruct fr; set_solver.
Qed.
Lemma ptr_plug_ne c t t' : c <> [] -> ptr (plug c t) = ptr (plug c t').
Proof.
  revert t t'. induction c as [|fr c IH]; intros t t'; [done|]. intros _. simpl.
  destruct c as [|fr' c']; [by destruct fr|]. by apply IH.
Qed.

(** The pointwise effect of the three reconnections of a rotation. *)
Definition rot_update (c : ctx) (fr : frame) (t : tr) (l x : Z)
    (n : tree_Node D) : tree_Node D :=
  son_update (Some (floc fr)) (ptr (inner fr t)) (fside fr) x
    (son_update (Some l) (Some (floc fr)) (__tree_ConnectType_Invert (fside fr)) x
      (son_update (ffather c) (Some l) (cside c) x n)).

(** The addresses around a rotation are pairwise distinct. *)
Lemma rot_NoDup fr c a l k i d b :
  NoDup (locs (plug (fr :: c) (N a l k i d b))) ->
  (l <> floc fr) /\
  (forall x, x ∈ locs a ++ locs b ++ locs (fsib fr) ++ ctx_locs c -> x <> l /\ x <> floc fr) /\
  NoDup (locs a ++ locs b ++ locs (fsib fr) ++ ctx_locs c).
Proof.
  intros Hnd. rewrite locs_plug in Hnd. simpl in Hnd.
  assert (NoDup (l :: floc fr :: locs a ++ locs b ++ locs (fsib fr) ++ ctx_locs c)) as Hn.
  { revert Hnd. apply NoDup_Permutation_proper. destruct fr; simpl; solve_Permutation. }
  apply NoDup_cons in Hn as [Hl Hn]. apply NoDup_cons in Hn as [Hf Hn].
  split_and!; [set_solver| |done]. intros x Hx. split; intros ->; set_solver.
Qed.

Lemma Rotate_steps h rt fr c a l k i d b :
  NoDup (locs (plug (fr :: c) (N a l k i d b))) ->
  ctx_repr h (fr :: c) (Some l) -> repr h (Some (floc fr)) (N a l k i d b) ->
  exists h',
    __tree_Rotate h rt l = Some (h', match ffather c with None => Some l | Some _ => rt end) /\
    forall x, h' !! x = rot_update c fr (N a l k i d b) l x <$> h !! x.
Proof.
  intros Hnd Hc Ht. destruct (rot_NoDup _ _ _ _ _ _ _ _ Hnd) as (Hlf & Hne & Hnd').
  assert ((l ∉ ctx_locs (fr :: c)) /\ (floc fr ∉ ctx_locs c)) as [Hlc Hfc].
  { split.
    - intros Hin. destruct fr; simpl in *; set_solver.
    - intros Hin. destruct (Hne (floc fr)); [set_solver|done]. }
  destruct (Ht) as (Hl & Hra & Hrb). destruct (Hc) as (Hf & Hs & Hcc).
  unfold __tree_Rotate. rewrite Hl; simpl.
  rewrite (Tell_spec h (fr :: c) l _ Hc Hl) by done; simpl.
  rewrite (Get_spec _ _ _ _ Hl); simpl.
  rewrite Hf; simpl.
  rewrite (Tell_spec h c (floc fr) _ Hcc Hf) by (done || by destruct fr); simpl.
  replace (father (fnode fr c (Some l))) with (ffather c) by (by destruct fr).
  replace (match __tree_ConnectType_Invert (fside fr) with
           | __tree_Left => ptr a | __tree_Right => ptr b end)
    with (ptr (inner fr (N a l k i d b))) by (by destruct fr).
  destruct (Connect_spec h (ffather c) (Some l) (cside c)) as (h1 & -> & H1); simpl.
  { intros x Hx. by destruct (ctx_father _ _ _ _ Hcc Hx). }
  { intros x [= <-]. eauto. }
  assert (forall x, is_Some (h !! x) -> is_Some (h1 !! x)) as Hd1
    by (intros x Hx; rewrite H1; by apply fmap_is_Some).
  destruct (Connect_spec h1 (Some l) (Some (floc fr)) (__tree_ConnectType_Invert (fside fr)))
    as (h2 & -> & H2); simpl; [intros x [= <-]; eauto..|].
  assert (forall x, is_Some (h1 !! x) -> is_Some (h2 !! x)) as Hd2
    by (intros x Hx; rewrite H2; by apply fmap_is_Some).
  destruct (Connect_spec h2 (Some (floc fr)) (ptr (inner fr (N a l k i d b))) (fside fr))
    as (h3 & -> & H3); simpl.
  { intros x [= <-]; eauto. }
  { intros x Hx. apply Hd2, Hd1. destruct fr; simpl in Hx; eauto using repr_ptr. }
  assert (forall x, h3 !! x = rot_update c fr (N a l k i d b) l x <$> h !! x) as H123.
  { intros x. rewrite H3, H2, H1. by rewrite <- !option_fmap_compose. }
  assert (exists n, h3 !! l = Some n /\ father n = ffather c) as (n & Hn & Hfn).
  { rewrite H123, Hl. simpl. eexists. split; [done|].
    assert (ffather c <> Some l).
    { intros E. apply Hlc. destruct (ctx_father _ _ _ _ Hcc E). destruct fr; set_solver. }
    assert (ptr (inner fr (N a l k i d b)) <> Some l).
    { intros E%ptr_in. destruct (Hne l); [destruct fr; simpl in E; set_solver|done]. }
    unfold rot_update, son_update.
    rewrite (decide_False (P := Some (floc fr) = Some l)) by congruence.
    rewrite (decide_False (P := ptr _ = Some l)) by done.
    rewrite !(decide_True (P := Some l = Some l)) by done.
    rewrite (decide_False (P := Some (floc fr) = Some l)) by congruence.
    rewrite (decide_False (P := ffather c = Some l)) by done.
    by destruct fr. }
  rewrite Hn; simpl. exists h3. rewrite Hfn. done.
Qed.

Definition rot_spec (c : ctx) (fr : frame) (t : tr) (l x : Z) (n : tree_Node D) : tree_Node D :=
  if decide (x = l) then set_son (__tree_ConnectType_Invert (fside fr)) (Some (floc fr))
                           (set_father (ffather c) n)
  else if decide (x = floc fr) then set_son (fside fr) (ptr (inner fr t)) (set_father (Some l) n)
  else if decide (ptr (inner fr t) = Some x) then set_father (Some (floc fr)) n
  else if decide (ffather c = Some x) then set_hole c (Some l) n
  else n.

Lemma rot_update_at c fr t l x n :
  l <> floc fr ->
  (x = l \/ x = floc fr -> ptr (inner fr t) <> Some x /\ ffather c <> Some x) ->
  (ptr (inner fr t) = Some x -> ffather c <> Some x) ->
  rot_update c fr t l x n = rot_spec c fr t l x n.
Proof.
  intros Hlf Hx Hi. unfold rot_spec, rot_update, son_update.
  destruct (decide (x = l)) as [->|Hl]; [|destruct (decide (x = floc fr)) as [->|Hf]].
  - destruct (Hx (or_introl eq_refl)). by repeat case_decide; simplify_eq.
  - destruct (Hx (or_intror eq_refl)). by repeat case_decide; simplify_eq.
  - repeat case_decide; simplify_eq/=; try done; [exfalso; naive_solver|].
    by destruct c.
Qed.

Lemma repr_N h f a l k i d b :
  repr h f (N a l k i d b) <->
  h !! l = Some (mk_node k (ptr a) (ptr b) f i d) /\ repr h (Some l) a /\ repr h (Some l) b.
Proof. done. Qed.
Lemma ctx_repr_cons h fr c hole :
  ctx_repr h (fr :: c) hole <->
  h !! floc fr = Some (fnode fr c hole) /\ repr h (Some (floc fr)) (fsib fr) /\
  ctx_repr h c (Some (floc fr)).
Proof. done. Qed.

(** The heap after a rotation, node by node. *)
Lemma Rotate_heap h rt fr c a l k i d b :
  NoDup (locs (plug (fr :: c) (N a l k i d b))) ->
  ctx_repr h (fr :: c) (Some l) -> repr h (Some (floc fr)) (N a l k i d b) ->
  exists h',
    __tree_Rotate h rt l = Some (h', match ffather c with None => Some l | Some _ => rt end) /\
    forall x, h' !! x = rot_spec c fr (N a l k i d b) l x <$> h !! x.
Proof.
  intros Hnd Hc Ht.
  destruct (Rotate_steps h rt fr c a l k i d b Hnd Hc Ht) as (h' & -> & Hh).
  exists h'. split; [done|]. intros x. rewrite Hh.
  destruct (rot_NoDup _ _ _ _ _ _ _ _ Hnd) as (Hlf & Hne & Hnd').
  assert (locs (inner fr (N a l k i d b)) ⊆ locs a ++ locs b) as Hin
    by (destruct fr; simpl; set_solver).
  assert (forall x, ffather c = Some x -> x ∈ ctx_locs c) as Hfc.
  { apply ctx_repr_cons in Hc as (_ & _ & Hcc).
    intros y Hy. by destruct (ctx_father _ _ _ _ Hcc Hy). }
  destruct (h !! x); [simpl; f_equal|done]. apply rot_update_at; [done| |].
  - intros Hx. split; [intros E%ptr_in%Hin|intros E%Hfc]; destruct (Hne x); set_solver.
  - intros Hx%ptr_in%Hin E%Hfc.
    rewrite app_assoc in Hnd'. apply NoDup_app in Hnd' as (_ & Hd & _).
    apply (Hd x); set_solver.
Qed.

Lemma Rotate_spec h rt fr c t l :
  NoDup (locs (plug (fr :: c) t)) -> repr h None (plug (fr :: c) t) ->
  ptr t = Some l -> ptr (plug (fr :: c) t) = rt ->
  exists h', __tree_Rotate h rt l = Some (h', ptr (plug c (rotate_up fr t))) /\
    repr h' None (plug c (rotate_up fr t)) /\
    (forall x, x ∉ locs (plug (fr :: c) t) -> h' !! x = h !! x).
Proof.
  intros Hnd Hr Hp Hrt. destruct t as [|a l' k i d b]; [done|]. injection Hp as ->.
  apply repr_plug in Hr as [Hc Ht].
  destruct (Rotate_heap h rt fr c a l k i d b Hnd Hc Ht) as (h' & -> & Hh).
  exists h'. destruct (rot_NoDup _ _ _ _ _ _ _ _ Hnd) as (Hlf & Hne & Hnd').
  assert (locs (inner fr (N a l k i d b)) ⊆ locs a ++ locs b) as Hin
    by (destruct fr; simpl; set_solver).
  rewrite locs_plug in Hnd.
  apply ctx_repr_cons in Hc as (Hf & Hs & Hcc). apply repr_N in Ht as (Hl & Hra & Hrb).
  split_and!.
  - f_equal. f_equal. subst rt. destruct c; [by destruct fr|].
    by apply (ptr_plug_ne (_ :: _) (fill fr (N a l k i d b))).
  - apply repr_plug.
    apply NoDup_app in Hnd' as (Hna & Hdb & Hnb).
    apply NoDup_app in Hnb as (Hnb & Hds & Hns).
    apply NoDup_app in Hns as (Hns & Hdc & Hnc).
    assert (forall x, x ∈ ctx_locs c -> ptr (inner fr (N a l k i d b)) <> Some x) as Hci.
    { intros x Hx Hi%ptr_in%Hin. set_solver. }
    assert (ctx_repr h' c (Some l)) as Hc'.
    { eapply ctx_repr_rehole; [done..| |].
      - intros x Hx. rewrite Hh. destruct (h !! x) as [n|]; [simpl; f_equal|done]. unfold rot_spec.
        destruct (ctx_father _ _ _ _ Hcc Hx) as [_ Hxc]. destruct (Hne x); [set_solver|].
        by rewrite !decide_False, decide_True by auto.
      - intros x Hx Hfx. rewrite Hh. destruct (h !! x) as [n|]; [simpl; f_equal|done]. unfold rot_spec.
        destruct (Hne x); [set_solver|]. by rewrite !decide_False by auto. }
    assert (forall t' f', (forall x, x ∈ locs t' -> x ∈ locs a ++ locs b ++ locs (fsib fr)) ->
              (forall x, x ∈ locs t' -> ptr (inner fr (N a l k i d b)) <> Some x) ->
              repr h f' t' -> repr h' f' t') as Hkeep.
    { intros t' f' H1 H2. apply repr_ext. intros x Hx. rewrite Hh.
      destruct (h !! x) as [n|]; [simpl; f_equal|done]. unfold rot_spec.
      destruct (Hne x); [set_solver|]. rewrite !decide_False; try done.
      - intros E. destruct (ctx_father _ _ _ _ Hcc E) as [_ ?]. set_solver.
      - by apply H2. }
    assert (repr h' (Some (floc fr)) (inner fr (N a l k i d b))) as Hi.
    { assert (repr h (Some l) (inner fr (N a l k i d b))) as Hi by (by destruct fr).
      assert (NoDup (locs (inner fr (N a l k i d b)))) as Hni by (by destruct fr).
      eapply repr_refather; [done..| |].
      - intros x Hx. rewrite Hh. destruct (h !! x) as [n|]; [simpl; f_equal|done]. unfold rot_spec.
        pose proof (ptr_in _ _ Hx) as Hxi%Hin. destruct (Hne x); [set_solver|].
        by rewrite !decide_False, decide_True by auto.
      - intros x Hx Hpx. apply Hin in Hx. rewrite Hh.
        destruct (h !! x) as [n|]; [simpl; f_equal|done]. unfold rot_spec.
        destruct (Hne x); [set_solver|]. rewrite !decide_False; auto.
        intros E. destruct (ctx_father _ _ _ _ Hcc E) as [_ ?]. set_solver. }
    assert (h' !! l = Some (rot_spec c fr (N a l k i d b) l l (mk_node k (ptr a) (ptr b) (Some (floc fr)) i d)))
      as Hl' by (by rewrite Hh, Hl).
    assert (h' !! floc fr = Some (rot_spec c fr (N a l k i d b) l (floc fr) (fnode fr c (Some l))))
      as Hf' by (by rewrite Hh, Hf).
    unfold rot_spec in Hl', Hf'.
    rewrite decide_True in Hl' by done. rewrite decide_False, decide_True in Hf' by done.
    destruct fr as [f kf jf df s|s f kf jf df]; simpl in *; split_and!; try done.
    all: apply Hkeep; [set_solver| |done].
    all: intros x Hx E%ptr_in; set_solver.
  - intros x Hx. rewrite Hh. destruct (h !! x) as [n|]; [simpl; f_equal|done]. unfold rot_spec.
    rewrite locs_plug in Hx.
    rewrite !decide_False; [done|..].
    + intros E. destruct (ctx_father _ _ _ _ Hcc E) as [_ ?]. destruct fr; set_solver.
    + intros E%ptr_in%Hin. set_solver.
    + intros ->. destruct fr; set_solver.
    + intros ->. set_solver.
Qed.
End Model.
