(* ===== verification/TreeSpec.v ===== *)
(** * The treap: correctness

    The reference versions of the treap algorithms on functional trees and the
    proof that the pointer operations of Tree.v implement them. *)

From Stdlib Require Import Sorted.
From S2P Require Import Prelude Random Tree TreeModel.

Section Spec.
Context {D : Type}.
Abbreviation heap := (gmap Z (tree_Node D)).
Abbreviation tr := (@tr D).
Abbreviation ctx := (list (@frame D)).
Implicit Types (h : heap) (t a b : tr) (c : ctx).

(** ** In-order contents *)

Definition eloc (e : Z * Z * D) : Z := e.1.1.
Definition ekey (e : Z * Z * D) : Z := e.1.2.
Definition keys t : list Z := ekey <$> elems t.

Lemma locs_elems t : locs t = eloc <$> elems t.
Proof.
  induction t as [|a IHa l k i d b IHb]; simpl; [done|].
  by rewrite fmap_app, fmap_cons, IHa, IHb.
Qed.
Lemma elems_locs_eq t t' : elems t = elems t' -> locs t = locs t'.
Proof. intros H. by rewrite !locs_elems, H. Qed.

Fixpoint ctx_elems c (m : list (Z * Z * D)) : list (Z * Z * D) :=
  match c with
  | [] => m
  | FL l k _ d b :: c => ctx_elems c (m ++ (l, k, d) :: elems b)
  | FR a l k _ d :: c => ctx_elems c (elems a ++ (l, k, d) :: m)
  end.
Lemma elems_plug c t : elems (plug c t) = ctx_elems c (elems t).
Proof. revert t. induction c as [|fr c IH]; intros t; simpl; [done|]. rewrite IH. by destruct fr. Qed.
Lemma ctx_elems_split c :
  exists e1 e2, forall m, ctx_elems c m = e1 ++ m ++ e2.
Proof.
  induction c as [|fr c (e1 & e2 & IH)]; [exists [], []; intros; simpl; by rewrite app_nil_r|].
  destruct fr as [l k i d b|a l k i d]; simpl.
  - exists e1, ((l, k, d) :: elems b ++ e2). intros m. rewrite IH. by rewrite <- !app_assoc.
  - exists (e1 ++ elems a ++ [(l, k, d)]), e2. intros m. rewrite IH. by rewrite <- !app_assoc.
Qed.
Lemma rotate_up_elems fr t : t <> E -> elems (rotate_up fr t) = elems (fill fr t).
Proof. destruct fr, t; simpl; try done; intros _; by rewrite <- !app_assoc. Qed.

(** ** Heap order of the internal priorities *)

Definition hle (i : Z) t : Prop := match t with E => True | N _ _ _ j _ _ => i <= j end.
Fixpoint hp t : Prop :=
  match t with E => True | N a _ _ i _ b => hle i a /\ hle i b /\ hp a /\ hp b end.
Definition fint (fr : @frame D) : Z := match fr with FL _ _ i _ _ => i | FR _ _ _ i _ => i end.
Definition fle c (i : Z) : Prop := match c with [] => True | fr :: _ => fint fr <= i end.
Fixpoint ctx_hp c : Prop :=
  match c with
  | [] => True
  | fr :: c => fle c (fint fr) /\ hle (fint fr) (fsib fr) /\ hp (fsib fr) /\ ctx_hp c
  end.
Definition cle c t : Prop := match c with [] => True | fr :: _ => hle (fint fr) t end.

Lemma hp_plug c t : hp (plug c t) <-> ctx_hp c /\ cle c t /\ hp t.
Proof.
  revert t. induction c as [|fr c IH]; intros t; simpl; [tauto|].
  rewrite IH. destruct fr, c; simpl; tauto.
Qed.

Lemma hle_trans i j t : i <= j -> hle j t -> hle i t.
Proof. destruct t; simpl; [done|lia]. Qed.
Lemma cle_hle c i t : fle c i -> hle i t -> cle c t.
Proof. destruct c; simpl; [done|]. apply hle_trans. Qed.

(** ** The upward adjustment of an insertion *)

Definition tint t : Z := match t with E => 0 | N _ _ _ i _ _ => i end.
Fixpoint adjust c t : tr :=
  match c with
  | [] => t
  | fr :: c' => if fint fr >? tint t then adjust c' (rotate_up fr t) else plug c t
  end.

Lemma adjust_elems c t : t <> E -> elems (adjust c t) = elems (plug c t).
Proof.
  revert t. induction c as [|fr c IH]; intros t Ht; [done|]. simpl.
  destruct (fint fr >? tint t); [|done].
  rewrite IH by (by destruct fr, t). by rewrite !elems_plug, rotate_up_elems.
Qed.

(** The heap order is restored when only the new root may be out of order. *)
Definition sons_ok c t : Prop :=
  match t with E => True | N a _ _ _ _ b => cle c a /\ cle c b end.
Lemma adjust_hp c t :
  t <> E -> hp t -> ctx_hp c -> sons_ok c t -> hp (adjust c t).
Proof.
  revert t. induction c as [|fr c IH]; intros t Ht Hp Hc Hs; [done|].
  cbn [adjust]. destruct (fint fr >? tint t) eqn:E.
  - rewrite Z.gtb_ltb in E. zbool. destruct t as [|a l k i d b]; [done|]. simpl in E, Hs.
    destruct Hc as (Hfc & Hfs & Hps & Hc). destruct Hp as (Hia & Hib & Hpa & Hpb).
    apply IH; [by destruct fr| |done|].
    + destruct fr as [f kf jf df s|s f kf jf df]; simpl in *.
      * split_and!; [done|lia|done|naive_solver|done|done|done].
      * split_and!; [lia|done|done|naive_solver|done|done|done].
    + destruct fr as [f kf jf df s|s f kf jf df]; simpl in *.
      * split; [eapply cle_hle; [done|naive_solver]|]. by destruct c.
      * split; [by destruct c|]. eapply cle_hle; [done|naive_solver].
  - rewrite Z.gtb_ltb in E. zbool. apply hp_plug. split_and!; [done| |done].
    destruct t; simpl in *; [done|lia].
Qed.
Lemma adjust_id c t : hp (plug c t) -> t <> E -> adjust c t = plug c t.
Proof.
  intros (Hc & Hl & Hp)%hp_plug Ht. destruct c as [|fr c]; [done|]. simpl.
  destruct t; [done|]. simpl in *. rewrite Z.gtb_ltb. by zcase; [lia|].
Qed.

Lemma Adjust_spec fuel h rt c t l :
  NoDup (locs (plug c t)) -> repr h None (plug c t) ->
  ptr t = Some l -> ptr (plug c t) = rt -> (length c < fuel)%nat ->
  exists h', __tree_treap_Adjust fuel h rt l = Some (h', ptr (adjust c t)) /\
    repr h' None (adjust c t) /\
    (forall x, x ∉ locs (plug c t) -> h' !! x = h !! x).
Proof.
  revert fuel h rt t. induction c as [|fr c IH]; intros fuel h rt t Hnd Hr Hl Hrt Hfuel.
  all: destruct fuel as [|fuel]; [simpl in *; lia|]; destruct t as [|a l' k i d b]; [done|].
  all: injection Hl as ->; pose proof Hr as [Hc (Hn & _)]%repr_plug.
  - exists h. cbn [__tree_treap_Adjust]. rewrite Hn. simpl. by subst rt.
  - cbn [__tree_treap_Adjust]. rewrite Hn. simpl.
    apply ctx_repr_cons in Hc as (Hf & _). rewrite Hf. simpl.
    replace (internal _) with (fint fr) by (by destruct fr).
    destruct (fint fr >? i) eqn:E; [|exists h; by subst rt].
    destruct (Rotate_spec h rt fr c _ l Hnd Hr eq_refl Hrt) as (h1 & -> & Hr1 & Ho1). simpl.
    assert (locs (plug c (rotate_up fr (N a l k i d b))) = locs (plug (fr :: c) (N a l k i d b))) as HL.
    { apply elems_locs_eq. simpl. rewrite !elems_plug. by rewrite rotate_up_elems. }
    destruct (IH fuel h1 (ptr (plug c (rotate_up fr (N a l k i d b))))
                (rotate_up fr (N a l k i d b))) as (h2 & E2 & Hr2 & Ho2);
      [by rewrite HL|done|by destruct fr|done|simpl in *; lia|].
    exists h2. split; [done|]. split; [done|]. intros x Hx.
    rewrite Ho2 by (by rewrite HL). by apply Ho1.
Qed.

(** ** Search *)

Definition sorted t : Prop := StronglySorted Z.lt (keys t).

Lemma keys_N a l k i d b : keys (N a l k i d b) = keys a ++ k :: keys b.
Proof. unfold keys. simpl. by rewrite fmap_app. Qed.
Lemma sorted_app (l1 l2 : list Z) k :
  StronglySorted Z.lt (l1 ++ k :: l2) <->
  StronglySorted Z.lt l1 /\ StronglySorted Z.lt l2 /\
  Forall (fun x => x < k) l1 /\ Forall (fun x => k < x) l2.
Proof.
  induction l1 as [|x l1 IH]; simpl.
  - split; [intros H; inversion_clear H; split_and!; [constructor|done|done|done]|].
    intros (_ & ? & _ & ?). by constructor.
  - split.
    + intros H. inversion_clear H as [|? ? Hs Hf]. apply IH in Hs as (? & ? & ? & ?).
      apply Forall_app in Hf as (? & Hf). inversion_clear Hf.
      split_and!; [by constructor|done|by constructor|done].
    + intros (H1 & ? & Hf & ?). inversion_clear H1. inversion_clear Hf.
      constructor; [apply IH; done|]. apply Forall_app; split; [done|].
      constructor; [done|]. eapply Forall_impl; [done|]. simpl. lia.
Qed.
Lemma sorted_N a l k i d b :
  sorted (N a l k i d b) <->
  sorted a /\ sorted b /\ Forall (fun x => x < k) (keys a) /\ Forall (fun x => k < x) (keys b).
Proof. unfold sorted. rewrite keys_N. apply sorted_app. Qed.

Fixpoint find t (k : Z) : option Z :=
  match t with
  | E => None
  | N a l k' _ _ b => if k <? k' then find a k else if k >? k' then find b k else Some l
  end.

Lemma find_Some t k l : sorted t -> find t k = Some l -> exists d, (l, k, d) ∈ elems t.
Proof.
  induction t as [|a IHa l' k' i d b IHb]; intros Hs; [done|].
  apply sorted_N in Hs as (Ha & Hb & _). simpl. rewrite Z.gtb_ltb.
  zcase; [intros Hf|zcase; [intros Hf|]].
  - destruct (IHa Ha Hf) as [d' ?]. exists d'. apply elem_of_app. by left.
  - destruct (IHb Hb Hf) as [d' ?]. exists d'. rewrite elem_of_app, elem_of_cons. tauto.
  - intros [= <-]. exists d. replace k with k' by lia. rewrite elem_of_app, elem_of_cons. tauto.
Qed.
Lemma find_elem t k l d : sorted t -> (l, k, d) ∈ elems t -> find t k = Some l.
Proof.
  induction t as [|a IHa l' k' i d' b IHb]; intros Hs; simpl; [by rewrite elem_of_nil|].
  apply sorted_N in Hs as (Ha & Hb & HFa & HFb). rewrite Forall_forall in HFa, HFb.
  rewrite elem_of_app, elem_of_cons, Z.gtb_ltb. intros [Hin|[Hin|Hin]].
  - assert (k < k') by (apply HFa, list_elem_of_fmap; exists (l, k, d); done).
    zcase; [|lia]. by apply IHa.
  - injection Hin as -> -> ->. by zcase; [lia|].
  - assert (k' < k) by (apply HFb, list_elem_of_fmap; exists (l, k, d); done).
    zcase; [lia|]. zcase; [|lia]. by apply IHb.
Qed.
Lemma find_None t k : sorted t -> find t k = None <-> k ∉ keys t.
Proof.
  intros Hs. split.
  - intros Hf Hk. apply list_elem_of_fmap in Hk as ([[l k'] d] & -> & Hin).
    pose proof (find_elem _ _ _ _ Hs Hin). unfold ekey in Hf. simpl in *. congruence.
  - intros Hk. destruct (find t k) as [l|] eqn:Hf; [|done].
    apply find_Some in Hf as [d Hd]; [|done]. destruct Hk.
    apply list_elem_of_fmap. by exists (l, k, d).
Qed.

Lemma FindNode_spec fuel h f t k :
  repr h f t -> (length (locs t) < fuel)%nat ->
  __tree_FindNode fuel h (ptr t) k = Some (find t k).
Proof.
  revert fuel f. induction t as [|a IHa l k' i d b IHb]; intros fuel f Hr Hlt.
  all: destruct fuel as [|fuel]; [lia|].
  { done. }
  apply repr_N in Hr as (Hl & Ha & Hb). cbn [__tree_FindNode ptr find]. rewrite Hl. simpl in *.
  rewrite length_app in Hlt. simpl in Hlt.
  zcase; [eapply IHa; [done|lia]|].
  destruct (k >? k'); [eapply IHb; [done|lia]|done].
Qed.

(** ** Structural insertion *)

Fixpoint ins t (k : Z) (leaf : tr) : tr :=
  match t with
  | E => leaf
  | N a l k' i d b =>
      if k <? k' then N (ins a k leaf) l k' i d b
      else if k >? k' then N a l k' i d (ins b k leaf) else t
  end.

Lemma ins_plug t k leaf :
  find t k = None -> exists c, t = plug c E /\ ins t k leaf = plug c leaf /\
                               (length c <= length (locs t))%nat.
Proof.
  enough (forall c0, find t k = None -> exists c, plug c0 t = plug c E /\
    plug c0 (ins t k leaf) = plug c leaf /\ (length c <= length c0 + length (locs t))%nat) as H
    by (intros Hf; apply (H [] Hf)).
  induction t as [|a IHa l k' i d b IHb]; simpl; intros c0; [exists c0; split_and!; (done || lia)|].
  rewrite length_app. simpl. zcase; [|destruct (k >? k'); [|done]].
  - intros Hf. destruct (IHa (FL l k' i d b :: c0) Hf) as (c & ? & ? & ?).
    exists c. split_and!; [done..|simpl in *; lia].
  - intros Hf. destruct (IHb (FR a l k' i d :: c0) Hf) as (c & ? & ? & ?).
    exists c. split_and!; [done..|simpl in *; lia].
Qed.
Lemma ins_Forall (P : Z -> Prop) t k leaf :
  Forall P (keys t) -> Forall P (keys leaf) -> Forall P (keys (ins t k leaf)).
Proof.
  intros Ht Hl. induction t as [|a IHa l k' i d b IHb]; simpl; [done|].
  pose proof Ht as Ht'. rewrite keys_N, Forall_app, Forall_cons in Ht'.
  destruct Ht' as (? & ? & ?).
  destruct (k <? k'); [|destruct (k >? k'); [|done]];
    rewrite keys_N, Forall_app, Forall_cons; auto.
Qed.
Lemma ins_sorted t k p i d : sorted t -> sorted (ins t k (N E p k i d E)).
Proof.
  induction t as [|a IHa l k' i' d' b IHb]; intros Hs; simpl.
  { repeat constructor. }
  pose proof Hs as (Ha & Hb & HFa & HFb)%sorted_N. rewrite Z.gtb_ltb.
  zcase; [|zcase; [|done]]; apply sorted_N; split_and!; try done; auto.
  - apply ins_Forall; [done|]. apply Forall_singleton. done.
  - apply ins_Forall; [done|]. apply Forall_singleton. unfold ekey. simpl. lia.
Qed.
Lemma ins_ptr t k leaf : find t k = None -> t <> E -> ptr (ins t k leaf) = ptr t.
Proof. destruct t; simpl; [done|]. intros H _. by repeat case_match. Qed.

Lemma ins_locs t k leaf x : x ∈ locs (ins t k leaf) -> x ∈ locs t \/ x ∈ locs leaf.
Proof.
  induction t as [|a IHa l k' i d b IHb]; simpl; [auto|].
  destruct (k <? k'); [|destruct (k >? k')]; simpl;
    rewrite ?elem_of_app, ?elem_of_cons; tauto.
Qed.

Context `{NodeAlloc D}.

(** The insertion of an absent key: a fresh leaf, linked at its place. *)
Lemma InsertNodes_new fuel h T v t f k :
  repr h f t -> NoDup (locs t) -> find t k = None -> (length (locs t) < fuel)%nat ->
  let p := kMalloc_node h in
  let i := Z.lxor (random_Rand v) k in
  let t' := ins t k (N E p k i (kMalloc_data h) E) in
  exists h', __tree_InsertNodes fuel h T v (ptr t) f k =
      Some (mk_ins h' (mk_tree (objectSize T) (root T) (u64 (t_size T + 1)))
              (random_Rand v) p true, ptr t') /\
    repr h' f t' /\
    (forall x, x ∉ locs t -> x <> p -> h' !! x = h !! x).
Proof.
  simpl. set (p := kMalloc_node h). set (leaf := N E p k _ _ E).
  assert (h !! p = None) as Hp by apply kMalloc_fresh.
  revert fuel f. induction t as [|a IHa l k' i d b IHb]; intros fuel f Hr Hnd Hf Hlt.
  all: destruct fuel as [|fuel]; [lia|]; cbn [__tree_InsertNodes ptr ins].
  - eexists. split; [done|]. simpl. split_and!; [by rewrite lookup_insert_eq|done|done|].
    intros x _ Hx. by rewrite lookup_insert_ne.
  - pose proof Hr as (Hl & Ha & Hb)%repr_N. rewrite Hl. simpl.
    simpl in Hlt, Hnd, Hf. rewrite length_app in Hlt. simpl in Hlt.
    pose proof Hnd as (Hna & Hdis & Hnb)%NoDup_app. apply NoDup_cons in Hnb as [Hlb Hnb].
    assert (l <> p) by congruence.
    assert (p ∉ locs a /\ p ∉ locs b) as [Hpa Hpb].
    { split; intros Hin; [apply (repr_in _ _ _ _ Ha) in Hin|apply (repr_in _ _ _ _ Hb) in Hin];
        rewrite Hp in Hin; by destruct Hin. }
    destruct (k <? k'); [|destruct (k >? k'); [|done]].
    + destruct (IHa fuel (Some l)) as (h' & -> & Hra & Ho); [done..|lia|]. simpl.
      assert (h' !! l = h !! l) as Hll by (apply Ho; [set_solver|done]).
      rewrite Hl in Hll. rewrite (modify_Some _ _ _ _ Hll). simpl.
      eexists. split; [done|]. split; [apply repr_N; split_and!|].
      * by rewrite lookup_insert_eq.
      * eapply repr_ext; [|done]. intros x Hx. rewrite lookup_insert_ne; [done|].
        intros <-. apply ins_locs in Hx as [Hx|Hx]; set_solver.
      * eapply repr_ext; [|done]. intros x Hx. rewrite lookup_insert_ne, Ho; set_solver.
      * intros x Hx Hxp. rewrite lookup_insert_ne, Ho; set_solver.
    + destruct (IHb fuel (Some l)) as (h' & -> & Hrb & Ho); [done..|lia|]. simpl.
      assert (h' !! l = h !! l) as Hll by (apply Ho; [set_solver|done]).
      rewrite Hl in Hll. rewrite (modify_Some _ _ _ _ Hll). simpl.
      eexists. split; [done|]. split; [apply repr_N; split_and!|].
      * by rewrite lookup_insert_eq.
      * eapply repr_ext; [|done]. intros x Hx. rewrite lookup_insert_ne, Ho; set_solver.
      * eapply repr_ext; [|done]. intros x Hx. rewrite lookup_insert_ne; [done|].
        intros <-. apply ins_locs in Hx as [Hx|Hx]; set_solver.
      * intros x Hx Hxp. rewrite lookup_insert_ne, Ho; set_solver.
Qed.

(** The insertion of a present key changes nothing. *)
Lemma InsertNodes_old fuel h T v t f k l :
  repr h f t -> find t k = Some l -> (length (locs t) < fuel)%nat ->
  __tree_InsertNodes fuel h T v (ptr t) f k = Some (mk_ins h T v l false, ptr t).
Proof.
  revert fuel f. induction t as [|a IHa l' k' i d b IHb]; intros fuel f Hr Hf Hlt; [done|].
  destruct fuel as [|fuel]; [lia|]. cbn [__tree_InsertNodes ptr].
  pose proof Hr as (Hl & Ha & Hb)%repr_N. rewrite Hl. simpl in *.
  rewrite length_app in Hlt. simpl in Hlt.
  destruct (k <? k'); [|destruct (k >? k')].
  - rewrite (IHa fuel _ Ha Hf) by lia. simpl. rewrite (modify_Some _ _ _ _ Hl). simpl.
    do 3 f_equal. by apply insert_id.
  - rewrite (IHb fuel _ Hb Hf) by lia. simpl. rewrite (modify_Some _ _ _ _ Hl). simpl.
    do 3 f_equal. by apply insert_id.
  - by injection Hf as ->.
Qed.

(** ** Deletion *)

(** What is left of two sons when the node above them goes. *)
Fixpoint merge a : tr -> tr :=
  fix go b :=
    match a, b with
    | E, _ => b
    | _, E => a
    | N la l lk li ld lb, N ra r rk ri rd rb =>
        if li <? ri then N la l lk li ld (merge lb b) else N (go ra) r rk ri rd rb
    end.

Lemma merge_E_l b : merge E b = b.
Proof. by destruct b. Qed.
Lemma merge_E_r a : merge a E = a.
Proof. by destruct a. Qed.
Lemma merge_N la l lk li ld lb ra r rk ri rd rb :
  merge (N la l lk li ld lb) (N ra r rk ri rd rb) =
  if li <? ri then N la l lk li ld (merge lb (N ra r rk ri rd rb))
  else N (merge (N la l lk li ld lb) ra) r rk ri rd rb.
Proof. done. Qed.

(** Induction on the two sons, as the rotations consume them. *)
Lemma merge_ind (P : tr -> tr -> Prop) :
  (forall b, P E b) -> (forall a, P a E) ->
  (forall la l lk li ld lb ra r rk ri rd rb,
     P lb (N ra r rk ri rd rb) -> P (N la l lk li ld lb) ra ->
     P (N la l lk li ld lb) (N ra r rk ri rd rb)) ->
  forall a b, P a b.
Proof.
  intros HE1 HE2 HN a. induction a as [|la IHla l lk li ld lb IHlb]; intros b; [done|].
  induction b as [|ra IHra r rk ri rd rb IHrb]; [done|]. by apply HN.
Qed.

Ltac merge_induction a b :=
  pattern a, b; apply merge_ind; clear a b;
  [intros b|intros a|intros la l lk li ld lb ra r rk ri rd rb IH1 IH2].

Lemma merge_elems a b : elems (merge a b) = elems a ++ elems b.
Proof.
  merge_induction a b.
  - by rewrite merge_E_l.
  - by rewrite merge_E_r, app_nil_r.
  - rewrite merge_N. destruct (li <? ri); cbn [elems]; [rewrite IH1|rewrite IH2];
      cbn [elems]; by rewrite <- !app_assoc.
Qed.
Lemma merge_hle i a b : hle i a -> hle i b -> hle i (merge a b).
Proof.
  destruct a, b; rewrite ?merge_E_l, ?merge_E_r, ?merge_N; try done.
  by destruct (_ <? _).
Qed.
Lemma merge_hp a b : hp a -> hp b -> hp (merge a b).
Proof.
  merge_induction a b.
  - by rewrite merge_E_l.
  - by rewrite merge_E_r.
  - intros Ha Hb. rewrite merge_N. pose proof Ha as (? & ? & ? & ?). pose proof Hb as (? & ? & ? & ?).
    zcase; cbn [hp]; split_and!; auto; apply merge_hle; simpl; auto; lia.
Qed.

Definition tnum t : nat := length (locs t).
Lemma tnum_N a l k i d b : tnum (N a l k i d b) = S (tnum a + tnum b).
Proof. unfold tnum. simpl. rewrite length_app. simpl. lia. Qed.

(** The sinking loop ends with a missing son and has merged the sons. *)
Lemma sink_spec a b : forall fuel h c l k i d,
  let t := plug c (N a l k i d b) in
  NoDup (locs t) -> repr h None t -> (tnum a + tnum b < fuel)%nat ->
  exists h' c' a' b', tree_Delete_sink fuel h (ptr t) l = Some (h', ptr (plug c' (N a' l k i d b'))) /\
    repr h' None (plug c' (N a' l k i d b')) /\
    (a' = E \/ b' = E) /\
    plug c' (merge a' b') = plug c (merge a b) /\
    elems (plug c' (N a' l k i d b')) = elems t /\
    (forall x, x ∉ locs t -> h' !! x = h !! x).
Proof.
  merge_induction a b;
    intros fuel h c p k i d t Hnd Hr Hfuel; destruct fuel as [|fuel]; [lia| |lia| |lia|];
    cbn [tree_Delete_sink]; pose proof Hr as [_ (Hp & Ha & Hb)]%repr_plug; rewrite Hp; cbn [mbind option_bind left right ptr].
  - exists h, c, E, b. split_and!; try done. by left.
  - exists h, c, a, E. split_and!; try done; [by destruct a|]. by right.
  - pose proof Ha as (Hl & _ & _). pose proof Hb as (Hrr & _ & _). rewrite Hl, Hrr.
    cbn [mbind option_bind internal].
    rewrite !tnum_N in Hfuel. rewrite merge_N.
    assert (forall fr u, fill fr u = N (N la l lk li ld lb) p k i d (N ra r rk ri rd rb) -> 
              u <> E -> plug (fr :: c) u = t /\ locs (plug c (rotate_up fr u)) = locs t) as Hfill.
    { intros fr u Hu HE. split; [simpl; by rewrite Hu|]. apply elems_locs_eq.
      rewrite elems_plug, rotate_up_elems, Hu by done. by rewrite <- elems_plug. }
    destruct (li <? ri).
    + edestruct (Hfill (FL p k i d (N ra r rk ri rd rb)) (N la l lk li ld lb)) as [Ht HL]; [done..|].
      edestruct (Rotate_spec h (ptr t) (FL p k i d (N ra r rk ri rd rb)) c (N la l lk li ld lb) l)
        as (h1 & -> & Hr1 & Ho1); [by rewrite Ht..|done|by rewrite Ht|]. simpl.
      edestruct (IH1 fuel h1 (FR la l lk li ld :: c) p k i d) as (h2 & c' & a' & b' & E2 & Hr2 & HE & Hm & He & Ho2);
        [rewrite <- HL in Hnd; exact Hnd|exact Hr1|rewrite tnum_N; lia|].
      exists h2, c', a', b'. split_and!; try done.
      * rewrite He. rewrite elems_plug. simpl. unfold t. rewrite elems_plug. simpl.
        by rewrite <- !app_assoc.
      * intros x Hx. rewrite Ho2; [apply Ho1; by rewrite Ht|].
        intros Hin. apply Hx. rewrite <- HL. exact Hin.
    + edestruct (Hfill (FR (N la l lk li ld lb) p k i d) (N ra r rk ri rd rb)) as [Ht HL]; [done..|].
      edestruct (Rotate_spec h (ptr t) (FR (N la l lk li ld lb) p k i d) c (N ra r rk ri rd rb) r)
        as (h1 & -> & Hr1 & Ho1); [by rewrite Ht..|done|by rewrite Ht|]. simpl.
      edestruct (IH2 fuel h1 (FL r rk ri rd rb :: c) p k i d) as (h2 & c' & a' & b' & E2 & Hr2 & HE & Hm & He & Ho2);
        [rewrite <- HL in Hnd; exact Hnd|exact Hr1|rewrite tnum_N; lia|].
      exists h2, c', a', b'. split_and!; try done.
      * rewrite He. rewrite elems_plug. simpl. unfold t. rewrite elems_plug. simpl.
        by rewrite <- !app_assoc.
      * intros x Hx. rewrite Ho2; [apply Ho1; by rewrite Ht|].
        intros Hin. apply Hx. rewrite <- HL. exact Hin.
Qed.

(** Disconnecting a node that has at most one son. *)
Lemma unlink_spec h c l k i d a b :
  let t := plug c (N a l k i d b) in
  let s := match a with E => b | _ => a end in
  NoDup (locs t) -> repr h None t -> a = E \/ b = E ->
  exists h', __tree_Connect h (ffather c) (ptr s) (cside c) = Some h' /\
    repr (delete l h') None (plug c s) /\
    (forall x, x ∉ locs t -> h' !! x = h !! x).
Proof.
  intros t s Hnd Hr HE. pose proof Hr as [Hc (Hl & Ha & Hb)%repr_N]%repr_plug.
  assert (repr h (Some l) s) as Hs by (by destruct a).
  unfold t in Hnd. rewrite locs_plug in Hnd.
  assert (NoDup (l :: locs s ++ ctx_locs c)) as Hnd'.
  { revert Hnd. simpl. apply NoDup_Permutation_proper. unfold s.
    destruct HE as [->| ->]; [|destruct a]; simpl; solve_Permutation. }
  apply NoDup_cons in Hnd' as [Hlx (Hns & Hdis & Hnc)%NoDup_app].
  assert (forall x, ptr s = Some x -> ffather c <> Some x) as Hsf.
  { intros x Hx%ptr_in E. destruct (ctx_father _ _ _ _ Hc E) as [_ ?]. by apply (Hdis x). }
  destruct (Connect_spec h (ffather c) (ptr s) (cside c)) as (h' & -> & Hh).
  { intros x Hx. by destruct (ctx_father _ _ _ _ Hc Hx). }
  { intros x Hx. by apply (repr_ptr _ _ _ _ Hs). }
  exists h'. split; [done|].
  assert (forall x, x <> l -> delete l h' !! x = h' !! x) as Hdel
    by (intros; by apply lookup_delete_ne).
  split; [apply repr_plug; split|].
  - eapply ctx_repr_rehole; [done..| |].
    + intros x Hx. destruct (ctx_father _ _ _ _ Hc Hx) as [_ Hxc].
      rewrite Hdel by set_solver. rewrite Hh. unfold son_update.
      destruct (h !! x); [simpl; f_equal|done].
      rewrite decide_True by done. rewrite decide_False by naive_solver. by destruct c.
    + intros x Hx Hfx. rewrite Hdel by set_solver. rewrite Hh. unfold son_update.
      destruct (h !! x); [simpl; f_equal|done]. rewrite !decide_False; [done| |done].
      intros E%ptr_in. by apply (Hdis x).
  - eapply repr_refather; [done..| |].
    + intros x Hx. pose proof (ptr_in _ _ Hx).
      rewrite Hdel by set_solver. rewrite Hh. unfold son_update.
      destruct (h !! x); [simpl; f_equal|done].
      rewrite decide_False, decide_True by auto. done.
    + intros x Hx Hpx. rewrite Hdel by set_solver. rewrite Hh. unfold son_update.
      destruct (h !! x); [simpl; f_equal|done]. rewrite !decide_False; [done..|].
      intros E. destruct (ctx_father _ _ _ _ Hc E) as [_ ?]. by apply (Hdis x).
  - intros x Hx. unfold t in Hx. rewrite locs_plug in Hx. rewrite Hh. unfold son_update.
    destruct (h !! x); [simpl; f_equal|done]. rewrite !decide_False; [done|..].
    + intros E%ptr_in. apply Hx. unfold s in E. destruct a; simpl in *; set_solver.
    + intros E. destruct (ctx_father _ _ _ _ Hc E) as [_ ?]. set_solver.
Qed.
End Spec.
