(* ===== verification/TreeIter.v ===== *)
(** * The treap: iteration and destruction

    [tree_FirstNode], [tree_LastNode], [tree_Node_Next], [tree_Node_Previous]
    and [tree_Destroy] against the in-order address list of the tree. *)

From S2P Require Import Prelude Random Tree TreeModel TreeSpec.

Section Iter.
Context {D : Type}.
Abbreviation heap := (gmap Z (tree_Node D)).
Abbreviation tr := (@tr D).
Abbreviation ctx := (list (@frame D)).
Implicit Types (h : heap) (t a b : tr) (c : ctx).

(** The addresses before and after the hole of a zipper. *)
Fixpoint before c : list Z :=
  match c with
  | [] => []
  | FL _ _ _ _ _ :: c => before c
  | FR a l _ _ _ :: c => before c ++ locs a ++ [l]
  end.
Fixpoint after c : list Z :=
  match c with
  | [] => []
  | FL l _ _ _ b :: c => l :: locs b ++ after c
  | FR _ _ _ _ _ :: c => after c
  end.
Lemma locs_plug_eq c t : locs (plug c t) = before c ++ locs t ++ after c.
Proof.
  revert t. induction c as [|fr c IH]; intros t; simpl; [by rewrite app_nil_r|].
  rewrite IH. destruct fr; simpl; by rewrite <- !app_assoc.
Qed.

Lemma locs_zipper t l :
  l ∈ locs t -> exists c a k i d b, t = plug c (N a l k i d b).
Proof.
  enough (forall c0, l ∈ locs t -> exists c a k i d b, plug c0 t = plug c (N a l k i d b)) as H
    by (apply (H [])).
  induction t as [|a IHa l' k i d b IHb]; intros c0; simpl; [by rewrite elem_of_nil|].
  rewrite elem_of_app, elem_of_cons. intros [Hin|[->|Hin]].
  - by apply (IHa (FL l' k i d b :: c0)).
  - by exists c0, a, k, i, d, b.
  - by apply (IHb (FR a l' k i d :: c0)).
Qed.

Lemma leftmost_spec fuel h f t p :
  repr h f t -> ptr t = Some p -> (tnum t <= fuel)%nat ->
  tree_leftmost fuel h p = head (locs t).
Proof.
  revert fuel f p. induction t as [|a IHa l k i d b IHb]; intros fuel f p Hr Hp Hlt; [done|].
  injection Hp as <-. apply repr_N in Hr as (Hl & Ha & _). rewrite tnum_N in Hlt.
  destruct fuel as [|fuel]; [lia|]. cbn [tree_leftmost]. rewrite Hl. simpl.
  destruct (ptr a) as [q|] eqn:Eq; [|by destruct a].
  rewrite (IHa fuel _ q Ha eq_refl) by lia.
  destruct a; [done|]. simpl. by destruct (locs a1).
Qed.
Lemma rightmost_spec fuel h f t p :
  repr h f t -> ptr t = Some p -> (tnum t <= fuel)%nat ->
  tree_rightmost fuel h p = last (locs t).
Proof.
  revert fuel f p. induction t as [|a IHa l k i d b IHb]; intros fuel f p Hr Hp Hlt; [done|].
  injection Hp as <-. apply repr_N in Hr as (Hl & _ & Hb). rewrite tnum_N in Hlt.
  destruct fuel as [|fuel]; [lia|]. cbn [tree_rightmost]. rewrite Hl. simpl.
  destruct (ptr b) as [q|] eqn:Eq.
  - rewrite (IHb fuel _ q Hb eq_refl) by lia. rewrite last_app_cons, last_cons.
    destruct (last (locs b)) eqn:E; [done|]. apply last_None in E.
    destruct b; [done|]. simpl in E. by destruct (locs b1).
  - destruct b; [|done]. change (locs E) with (@nil Z). by rewrite last_snoc.
Qed.

Lemma climb_spec fuel h c t p n side :
  ctx_repr h c (Some p) -> h !! p = Some n -> father n = ffather c ->
  NoDup (p :: ctx_locs c) -> (length c < fuel)%nat -> 
  tree_climb fuel side h p = Some (if decide (side = __tree_Right) then head (after c) else last (before c)).
Proof.
  revert fuel p n. induction c as [|fr c IH]; intros fuel p n Hc Hp Hf Hnd Hlt.
  all: destruct fuel as [|fuel]; [lia|]; cbn [tree_climb]; rewrite Hp; simpl; rewrite Hf; simpl.
  - by case_decide.
  - apply NoDup_cons in Hnd as [Hpc Hnd].
    rewrite (Tell_spec h (fr :: c) p n Hc Hp Hf Hpc). simpl.
    apply ctx_repr_cons in Hc as (Hfr & _ & Hc).
    assert (NoDup (floc fr :: ctx_locs c)) as Hnd'.
    { destruct fr as [l k i d s|s l k i d]; simpl in *; apply NoDup_cons in Hnd as [? (? & ? & ?)%NoDup_app];
        constructor; set_solver. }
    destruct (decide (fside fr = side)) as [<-|Hs].
    + rewrite (IH fuel (floc fr) _ Hc Hfr); [|by destruct fr|done|simpl in *; lia].
      by destruct fr.
    + destruct fr, side; try done; cbn [before after];
        by rewrite ?app_assoc, ?last_snoc.
Qed.

(** ** The tree held by a heap *)

(** [tree_ok h T t]: the heap holds the tree [t] rooted at [T], every node once,
    keys strictly increasing in order, priorities heap-ordered. *)
Record tree_ok h (T : tree_Tree) t : Prop := {
  ok_root : root T = ptr t;
  ok_repr : repr h None t;
  ok_NoDup : NoDup (locs t);
  ok_sorted : sorted t;
  ok_hp : hp t;
}.

Lemma NoDup_length_size (l : list Z) h :
  NoDup l -> (forall x, x ∈ l -> is_Some (h !! x)) -> (length l <= size h)%nat.
Proof.
  intros Hnd Hin. rewrite <- (size_list_to_set (C := gset Z)) by done.
  rewrite <- (size_dom (D := gset Z)). apply subseteq_size. intros x Hx.
  apply elem_of_dom, Hin. by apply elem_of_list_to_set in Hx.
Qed.
Lemma fuel_enough h t : NoDup (locs t) -> repr h None t -> (tnum t < tree_fuel h)%nat.
Proof.
  intros Hnd Hr. unfold tree_fuel, tnum.
  pose proof (NoDup_length_size (locs t) h Hnd (fun x => repr_in h None t x Hr)). lia.
Qed.
Lemma tnum_sub c t : (tnum t <= tnum (plug c t))%nat.
Proof. unfold tnum. rewrite locs_plug_eq, !length_app. lia. Qed.
Lemma length_ctx c : (length c <= length (ctx_locs c))%nat.
Proof.
  induction c as [|fr c IH]; simpl; [done|].
  destruct fr; simpl; rewrite length_app; lia.
Qed.

Lemma FirstNode_ok h T t : tree_ok h T t -> tree_FirstNode h T = Some (head (locs t)).
Proof.
  intros [Hrt Hr Hnd _ _]. unfold tree_FirstNode. rewrite Hrt.
  pose proof (fuel_enough h t Hnd Hr). destruct (ptr t) as [p|] eqn:Ep; [|by destruct t].
  rewrite (leftmost_spec _ _ _ _ _ Hr Ep) by lia.
  destruct t; [done|]. simpl. by destruct (locs t1).
Qed.
Lemma LastNode_ok h T t : tree_ok h T t -> tree_LastNode h T = Some (last (locs t)).
Proof.
  intros [Hrt Hr Hnd _ _]. unfold tree_LastNode. rewrite Hrt.
  pose proof (fuel_enough h t Hnd Hr). destruct (ptr t) as [p|] eqn:Ep; [|by destruct t].
  rewrite (rightmost_spec _ _ _ _ _ Hr Ep) by lia.
  destruct (last (locs t)) eqn:E; [done|]. apply last_None in E.
  destruct t; [done|]. simpl in E. by destruct (locs t1).
Qed.

Section Zipper.
Context (h : heap) (c : ctx) (a : tr) (l k i : Z) (d : D) (b : tr).
Hypothesis Hr : repr h None (plug c (N a l k i d b)).
Hypothesis Hnd : NoDup (locs (plug c (N a l k i d b))).

Lemma zip_climb side :
  tree_climb (tree_fuel h) side h l =
  Some (if decide (side = __tree_Right) then head (after c) else last (before c)).
Proof.
  pose proof Hr as [Hc (Hl & _)]%repr_plug.
  eapply climb_spec; [done..| |].
  - rewrite locs_plug in Hnd. apply NoDup_app in Hnd as (_ & Hd & Hc').
    constructor; [|done]. apply Hd. simpl. set_solver.
  - pose proof (fuel_enough h _ Hnd Hr) as Hlt. pose proof (length_ctx c).
    unfold tnum in Hlt. rewrite locs_plug, length_app in Hlt. lia.
Qed.
Lemma zip_Next : tree_Node_Next h l = Some (head (locs b ++ after c)).
Proof.
  pose proof (zip_climb __tree_Right) as Hcl. pose proof (fuel_enough h _ Hnd Hr) as Hlt.
  pose proof (tnum_sub c (N a l k i d b)) as Hsub. rewrite tnum_N in Hsub.
  pose proof Hr as [Hc (Hl & _ & Hb)]%repr_plug.
  unfold tree_Node_Next. rewrite Hl.
  cbn [mbind option_bind right]. destruct (ptr b) as [q|] eqn:Eq.
  - rewrite (leftmost_spec _ _ _ _ _ Hb Eq) by lia.
    destruct b as [|b1 ? ? ? ? b2]; [done|]. simpl. by destruct (locs b1).
  - destruct b; [|done]. by rewrite Hcl.
Qed.
Lemma zip_Previous : tree_Node_Previous h l = Some (last (before c ++ locs a)).
Proof.
  pose proof (zip_climb __tree_Left) as Hcl. pose proof (fuel_enough h _ Hnd Hr) as Hlt.
  pose proof (tnum_sub c (N a l k i d b)) as Hsub. rewrite tnum_N in Hsub.
  pose proof Hr as [Hc (Hl & Ha & _)]%repr_plug.
  unfold tree_Node_Previous. rewrite Hl.
  cbn [mbind option_bind left]. destruct (ptr a) as [q|] eqn:Eq.
  - rewrite (rightmost_spec _ _ _ _ _ Ha Eq) by lia. rewrite last_app.
    destruct (last (locs a)) eqn:E; [done|]. apply last_None in E.
    destruct a as [|a1 ? ? ? ? a2]; [done|]. simpl in E. by destruct (locs a1).
  - destruct a; [|done]. by rewrite Hcl, app_nil_r.
Qed.
End Zipper.

(** The successor and the predecessor of the [j]-th node. *)
Lemma Node_Next_ok h T t j l :
  tree_ok h T t -> locs t !! j = Some l -> tree_Node_Next h l = Some (locs t !! S j).
Proof.
  intros [_ Hr Hnd _ _] Hj.
  destruct (locs_zipper t l) as (c & a & k & i & d & b & ->); [by eapply list_elem_of_lookup_2|].
  rewrite (zip_Next _ _ _ _ _ _ _ _ Hr Hnd).
  assert (locs (plug c (N a l k i d b)) = (before c ++ locs a) ++ l :: (locs b ++ after c)) as HL
    by (rewrite locs_plug_eq; simpl; by rewrite <- !app_assoc).
  rewrite HL in *. assert (j = length (before c ++ locs a)) as ->.
  { eapply NoDup_lookup; [exact Hnd|exact Hj|]. by rewrite list_lookup_middle. }
  rewrite lookup_app_r by lia. replace (_ - _)%nat with 1%nat by lia.
  simpl. by rewrite head_lookup.
Qed.
Lemma Node_Previous_ok h T t j l :
  tree_ok h T t -> locs t !! j = Some l ->
  tree_Node_Previous h l = Some (match j with O => None | S j => locs t !! j end).
Proof.
  intros [_ Hr Hnd _ _] Hj.
  destruct (locs_zipper t l) as (c & a & k & i & d & b & ->); [by eapply list_elem_of_lookup_2|].
  rewrite (zip_Previous _ _ _ _ _ _ _ _ Hr Hnd).
  assert (locs (plug c (N a l k i d b)) = (before c ++ locs a) ++ l :: (locs b ++ after c)) as HL
    by (rewrite locs_plug_eq; simpl; by rewrite <- !app_assoc).
  rewrite HL in *. assert (j = length (before c ++ locs a)) as Ej.
  { eapply NoDup_lookup; [exact Hnd|exact Hj|]. by rewrite list_lookup_middle. }
  rewrite last_lookup. destruct j as [|j]; rewrite <- Ej; simpl.
  - by destruct (before c ++ locs a).
  - by rewrite (lookup_app_l (before c ++ locs a)) by lia.
Qed.

(** ** Destruction *)

Lemma DestroyNodes_spec fuel h f t p :
  repr h f t -> NoDup (locs t) -> ptr t = Some p -> (tnum t < fuel)%nat ->
  exists h', __tree_DestroyNodes fuel h p = Some h' /\
    forall x, h' !! x = if decide (x ∈ locs t) then None else h !! x.
Proof.
  revert fuel h f p. induction t as [|a IHa l k i d b IHb]; intros fuel h f p Hr Hnd Hp Hlt; [done|].
  injection Hp as <-. pose proof Hr as (Hl & Ha & Hb)%repr_N. rewrite tnum_N in Hlt.
  simpl in Hnd. pose proof Hnd as (Hna & Hdis & (Hlb & Hnb)%NoDup_cons)%NoDup_app.
  destruct fuel as [|fuel]; [lia|]. cbn [__tree_DestroyNodes]. rewrite Hl. simpl.
  assert (exists h1, match ptr a with Some l => __tree_DestroyNodes fuel h l | None => Some h end = Some h1 /\
            forall x, h1 !! x = if decide (x ∈ locs a) then None else h !! x) as (h1 & -> & H1).
  { destruct (ptr a) as [q|] eqn:Eq; [|destruct a; [|done]; by exists h].
    destruct (IHa fuel h (Some l) q) as (h1 & -> & H1); [done..|lia|]. by exists h1. }
  simpl. assert (h1 !! l = h !! l) as Hll by (rewrite H1, decide_False; set_solver).
  rewrite Hll, Hl. simpl.
  assert (exists h2, match ptr b with Some l => __tree_DestroyNodes fuel h1 l | None => Some h1 end = Some h2 /\
            forall x, h2 !! x = if decide (x ∈ locs b) then None else h1 !! x) as (h2 & -> & H2).
  { destruct (ptr b) as [q|] eqn:Eq; [|destruct b; [|done]; by exists h1].
    destruct (IHb fuel h1 (Some l) q) as (h2 & -> & H2); [|done..|lia|by exists h2].
    eapply repr_ext; [|done]. intros x Hx. rewrite H1, decide_False; set_solver. }
  simpl. eexists. split; [done|]. intros x. destruct (decide (x = l)) as [->|Hx].
  - rewrite lookup_delete_eq, decide_True; [done|set_solver].
  - rewrite lookup_delete_ne, H2, H1 by done.
    repeat case_decide; set_solver.
Qed.
End Iter.
