(* ===== verification/Treap.v ===== *)
(** * The treap: theorems

    Correctness of every operation of src/util/tree.c on well-formed treaps,
    and the refinement of sequences of operations to finite maps. *)

From Stdlib Require Import Sorted.
From S2P Require Import Prelude Random Tree TreeModel TreeSpec TreeIter.

Section Treap.
Context {D : Type}.
Abbreviation heap := (gmap Z (tree_Node D)).
Abbreviation tr := (@tr D).
Abbreviation ctx := (list (@frame D)).
Implicit Types (h : heap) (t a b : tr) (c : ctx).

(** ** Deletion *)

Lemma elem_zipper t e :
  e ∈ elems t -> exists c a i b, t = plug c (N a (eloc e) (ekey e) i e.2 b).
Proof.
  enough (forall c0, e ∈ elems t ->
    exists c a i b, plug c0 t = plug c (N a (eloc e) (ekey e) i e.2 b)) as H by (apply (H [])).
  induction t as [|a IHa l k i d b IHb]; intros c0; simpl; [by rewrite elem_of_nil|].
  rewrite elem_of_app, elem_of_cons. intros [Hin|[->|Hin]].
  - by apply (IHa (FL l k i d b :: c0)).
  - by exists c0, a, i, b.
  - by apply (IHb (FR a l k i d :: c0)).
Qed.

Lemma elems_plug_N c a l k i d b :
  exists e1 e2, elems (plug c (N a l k i d b)) = e1 ++ (l, k, d) :: e2 /\
                elems (plug c (merge a b)) = e1 ++ e2.
Proof.
  destruct (ctx_elems_split c) as (e1 & e2 & Hc).
  exists (e1 ++ elems a), (elems b ++ e2). rewrite !elems_plug, !Hc, merge_elems. simpl.
  by rewrite <- !app_assoc.
Qed.

Lemma sorted_elems t t' e1 e e2 :
  elems t = e1 ++ e :: e2 -> elems t' = e1 ++ e2 -> sorted t -> sorted t'.
Proof.
  unfold sorted, keys. intros -> ->. rewrite !fmap_app, fmap_cons. intros Hs.
  apply sorted_app in Hs as (H1 & H2 & H3 & H4). revert H1 H3.
  generalize (ekey <$> e1) as l1. induction l1 as [|x l1 IH]; simpl; [done|].
  intros H1 H3. inversion_clear H1. inversion_clear H3. constructor; [auto|].
  apply Forall_app. split; [done|]. eapply Forall_impl; [done|]. simpl. lia.
Qed.

Lemma ptr_plug_in c t : c <> [] -> exists p, ptr (plug c t) = Some p /\ p ∈ ctx_locs c.
Proof.
  intros Hc. rewrite (ptr_plug_ne c t E Hc).
  assert (plug c E <> E) as HE.
  { intros HE. pose proof (locs_plug c (@E D)) as HL. rewrite HE in HL. simpl in HL.
    apply Permutation_nil_l in HL. destruct c as [|[] ?]; done. }
  destruct (ptr (plug c E)) as [p|] eqn:Ep; [|by destruct (plug c E)].
  exists p. split; [done|]. apply ptr_in in Ep. by rewrite locs_plug in Ep.
Qed.

Lemma Delete_ok h T t e :
  tree_ok h T t -> e ∈ elems t ->
  exists h' T' t' e1 e2, tree_Delete h T (eloc e) = Some (h', T') /\
    tree_ok h' T' t' /\ elems t = e1 ++ e :: e2 /\ elems t' = e1 ++ e2 /\
    h' !! eloc e = None /\ t_size T' = t_size T /\ objectSize T' = objectSize T /\
    (forall x, x ∉ locs t -> h' !! x = h !! x).
Proof.
  intros [Hrt Hr Hnd Hs Hp] He.
  destruct (elem_zipper t e He) as (c & a & i & b & Et). destruct e as [[l k] d].
  unfold eloc, ekey in *. simpl in *. subst t.
  pose proof (fuel_enough h _ Hnd Hr) as Hf. pose proof (tnum_sub c (N a l k i d b)) as Hsub.
  rewrite tnum_N in Hsub.
  destruct (sink_spec a b (tree_fuel h) h c l k i d Hnd Hr ltac:(lia))
    as (h1 & c' & a' & b' & E1 & Hr1 & HE & Hm & Hel & Ho1).
  assert (locs (plug c' (N a' l k i d b')) = locs (plug c (N a l k i d b))) as HL
    by (by apply elems_locs_eq).
  assert (NoDup (locs (plug c' (N a' l k i d b')))) as Hnd1 by (by rewrite HL).
  unfold tree_Delete. rewrite Hrt, E1. cbn [mbind option_bind].
  pose proof Hr1 as [Hc1 (Hl1 & _ & _)%repr_N]%repr_plug. rewrite Hl1.
  cbn [mbind option_bind left right father].
  set (s := match a' with E => b' | _ => a' end).
  assert (merge a' b' = s) as Hms.
  { unfold s. destruct HE as [->| ->]; [by rewrite merge_E_l|rewrite merge_E_r].
    by destruct a'. }
  replace (match ptr a' with Some l0 => Some l0 | None => ptr b' end) with (ptr s)
    by (by destruct a').
  assert (l ∉ ctx_locs c') as Hlc.
  { rewrite locs_plug in Hnd1. apply NoDup_app in Hnd1 as (_ & Hd & _). apply Hd.
    simpl. set_solver. }
  rewrite (Tell_spec h1 c' l _ Hc1 Hl1 eq_refl Hlc). cbn [mbind option_bind].
  destruct (unlink_spec h1 c' l k i d a' b' Hnd1 Hr1 HE) as (h2 & E2 & Hr2 & Ho2).
  fold s in E2, Hr2. rewrite E2. cbn [mbind option_bind]. rewrite <- Hms, Hm in Hr2.
  destruct (elems_plug_N c a l k i d b) as (e1 & e2 & Ee & Ee').
  eexists _, _, (plug c (merge a b)), e1, e2. split; [done|].
  split_and!; try done; [constructor| |].
  - simpl. rewrite <- Hm, Hms. destruct (decide (c' = [])) as [->|Hne].
    + simpl. by rewrite decide_True.
    + destruct (ptr_plug_in c' (N a' l k i d b') Hne) as (p & Ep & Hin).
      rewrite (ptr_plug_ne c' s (N a' l k i d b') Hne), decide_False; [done|].
      rewrite Ep. intros [= <-]. done.
  - done.
  - rewrite locs_elems, Ee', fmap_app. rewrite locs_elems, Ee, fmap_app, fmap_cons in Hnd.
    apply NoDup_app in Hnd as (? & Hd & [? ?]%NoDup_cons). apply NoDup_app.
    split_and!; [done| |done]. intros x Hx Hx'. apply (Hd x Hx). set_solver.
  - by eapply sorted_elems.
  - apply hp_plug in Hp as (Hc & Hcl & Hi & Hj & Ha & Hb). apply hp_plug.
    split_and!; [done| |by apply merge_hp].
    destruct c; [done|]. simpl in *. apply merge_hle; by eapply hle_trans.
  - simpl. by rewrite lookup_delete_eq.
  - intros x Hx. rewrite lookup_delete_ne.
    + rewrite Ho2 by (by rewrite HL). by apply Ho1.
    + intros <-. apply Hx. rewrite locs_plug. simpl. set_solver.
Qed.

(** ** Search *)

Lemma Find_ok h T t k : tree_ok h T t -> tree_Find h T k = Some (find t k).
Proof.
  intros [Hrt Hr Hnd _ _]. unfold tree_Find, tree_FindNode. rewrite Hrt.
  apply (FindNode_spec _ _ None); [done|]. by apply fuel_enough.
Qed.
Lemma find_locs t k l : sorted t -> find t k = Some l -> l ∈ locs t.
Proof.
  intros Hs [d Hd]%find_Some; [|done]. rewrite locs_elems. apply list_elem_of_fmap.
  by exists (l, k, d).
Qed.

(** ** Insertion *)

Lemma Adjust_stop fuel h rt c t l :
  repr h None (plug c t) -> ptr t = Some l -> hp (plug c t) -> (0 < fuel)%nat ->
  __tree_treap_Adjust fuel h rt l = Some (h, rt).
Proof.
  intros [Hc Ht]%repr_plug Hl (_ & Hle & _)%hp_plug Hfuel.
  destruct fuel as [|fuel]; [lia|]. destruct t as [|a l' k i d b]; [done|].
  injection Hl as ->. apply repr_N in Ht as (Hn & _). cbn [__tree_treap_Adjust].
  rewrite Hn. simpl. destruct c as [|fr c]; [done|].
  apply ctx_repr_cons in Hc as (Hf & _). simpl. rewrite Hf. simpl in *.
  replace (internal _) with (fint fr) by (by destruct fr).
  rewrite Z.gtb_ltb. by zcase; [lia|].
Qed.

Section Insertion.
Context `{NodeAlloc D}.
Context (nb : bool) (h : heap) (T : tree_Tree) (t : tr) (v k : Z).
Hypothesis Hok : tree_ok h T t.

Definition new_leaf : tr := N E (kMalloc_node h) k (Z.lxor (random_Rand v) k) (kMalloc_data h) E.

Lemma Insert_old l added :
  find t k = Some l -> tree_InsertNode nb h T v k added = Some (mk_ins h T v l false).
Proof.
  intros Hf. destruct Hok as [Hrt Hr Hnd Hs Hp]. unfold tree_InsertNode. rewrite Hrt.
  rewrite (InsertNodes_old _ h T v t None k l Hr Hf) by (by apply fuel_enough).
  cbn [mbind option_bind is_heap is_tree is_result is_added is_rand].
  assert (mk_tree (objectSize T) (ptr t) (t_size T) = T) as HT by (rewrite <- Hrt; by destruct T).
  rewrite HT. destruct added; [done|]. destruct nb; [|done].
  destruct (locs_zipper t l) as (c & a & k' & i & d & b & ->); [by eapply find_locs|].
  erewrite Adjust_stop; [|done|reflexivity|done|unfold tree_fuel; lia].
  cbn [mbind option_bind]. by rewrite HT.
Qed.

(** Whether the priorities are adjusted after an insertion that adds a node. *)
Definition adjusts (added : bool) : bool := if added then true else nb.

Lemma Insert_new added :
  find t k = None ->
  exists h' c, let t' := if adjusts added then adjust c new_leaf else plug c new_leaf in
    t = plug c E /\ ins t k new_leaf = plug c new_leaf /\
    tree_InsertNode nb h T v k added =
      Some (mk_ins h' (mk_tree (objectSize T) (ptr t') (u64 (t_size T + 1)))
              (random_Rand v) (kMalloc_node h) true) /\
    repr h' None t' /\
    (forall x, x ∉ locs t -> x <> kMalloc_node h -> h' !! x = h !! x).
Proof.
  intros Hf. destruct Hok as [Hrt Hr Hnd Hs Hp].
  destruct (ins_plug t k new_leaf Hf) as (c & Et & Ei & Hlen).
  pose proof (fuel_enough h t Hnd Hr) as Hfuel.
  destruct (InsertNodes_new (tree_fuel h) h T v t None k Hr Hnd Hf Hfuel) as (h1 & E1 & Hr1 & Ho1).
  fold new_leaf in E1, Hr1. rewrite Ei in E1, Hr1.
  assert (kMalloc_node h ∉ locs t) as Hfresh.
  { intros Hin. apply (repr_in _ _ _ _ Hr) in Hin. rewrite kMalloc_fresh in Hin. by destruct Hin. }
  assert (locs (plug c new_leaf) ≡ₚ kMalloc_node h :: locs t) as HL
    by (rewrite Et, !locs_plug; done).
  assert (NoDup (locs (plug c new_leaf))) as Hnd1 by (rewrite HL; by constructor).
  unfold tree_InsertNode. rewrite Hrt, E1. 
  cbn [mbind option_bind is_heap is_tree is_result is_added is_rand objectSize t_size].
  fold (adjusts added). destruct (adjusts added) eqn:Ea.
  - destruct (Adjust_spec (tree_fuel h1) h1 (ptr (plug c new_leaf)) c new_leaf (kMalloc_node h))
      as (h2 & -> & Hr2 & Ho2); [done..| |].
    { pose proof (fuel_enough h1 _ Hnd1 Hr1) as Hlt. unfold tnum in Hlt.
      rewrite locs_plug, length_app in Hlt. pose proof (length_ctx c). lia. }
    exists h2, c. cbn [mbind option_bind]. split_and!; try done.
    intros x Hx Hxp. rewrite Ho2; [by apply Ho1|]. rewrite HL. set_solver.
  - exists h1, c. split_and!; done.
Qed.

(** Both kinds of insertion add one element in its place of the order. *)
Lemma new_elems c (t' : tr) :
  t = plug c E -> ins t k new_leaf = plug c new_leaf -> elems t' = elems (plug c new_leaf) ->
  exists e1 e2, elems t = e1 ++ e2 /\ elems t' = e1 ++ (kMalloc_node h, k, kMalloc_data h) :: e2 /\
                sorted t' /\ NoDup (locs t').
Proof.
  intros Et Ei He. destruct Hok as [Hrt Hr Hnd Hs Hp].
  destruct (ctx_elems_split c) as (e1 & e2 & Hc). exists e1, e2.
  rewrite He, Et, !elems_plug, !Hc. split_and!; [done..| |].
  - unfold sorted, keys. rewrite He, <- Ei. by apply ins_sorted.
  - rewrite (elems_locs_eq _ _ He), locs_plug. simpl.
    assert (kMalloc_node h ∉ locs t) as Hfresh.
    { intros Hin. apply (repr_in _ _ _ _ Hr) in Hin. rewrite kMalloc_fresh in Hin. by destruct Hin. }
    rewrite Et, locs_plug in Hnd, Hfresh. by constructor.
Qed.

Lemma adjust_new_hp c : t = plug c E -> hp (adjust c new_leaf).
Proof.
  intros Et. destruct Hok as [_ _ _ _ Hp]. rewrite Et in Hp.
  apply hp_plug in Hp as (Hc & _). apply adjust_hp; [done|done|done|].
  by destruct c.
Qed.
End Insertion.
End Treap.

(** ** The refinement to finite maps

    The abstract state maps a key to the address of its node.  An insertion
    picks the address of a new node, the other operations are functions. *)

Inductive tree_op := OInsert (k : Z) | OFind (k : Z) | ODelete (k : Z).

Inductive map_step (M : gmap Z Z) : tree_op -> option Z -> gmap Z Z -> Prop :=
  | step_insert_old k p : M !! k = Some p -> map_step M (OInsert k) (Some p) M
  | step_insert_new k p :
      M !! k = None -> (forall k', M !! k' <> Some p) ->
      map_step M (OInsert k) (Some p) (<[k := p]> M)
  | step_find k : map_step M (OFind k) (M !! k) M
  | step_delete k : map_step M (ODelete k) (M !! k) (delete k M).

Inductive map_run (M : gmap Z Z) : list tree_op -> list (option Z) -> gmap Z Z -> Prop :=
  | run_nil : map_run M [] [] M
  | run_cons op r M1 ops rs M2 :
      map_step M op r M1 -> map_run M1 ops rs M2 -> map_run M (op :: ops) (r :: rs) M2.

Section Refine.
Context {D : Type} `{NodeAlloc D}.
Abbreviation heap := (gmap Z (tree_Node D)).
Implicit Types (h : heap) (t : @tr D).

(** The heap, the tree and the generator: what a client of the tree holds. *)
Definition tree_state : Type := heap * tree_Tree * Z.

Definition run_op (st : tree_state) (op : tree_op) : option (tree_state * option Z) :=
  let '(h, T, v) := st in
  match op with
  | OInsert k =>
      s ← tree_Insert false h T v k true;
      Some ((is_heap s, is_tree s, is_rand s), Some (is_result s))
  | OFind k => r ← tree_FindNode h T k; Some (st, r)
  | ODelete k =>
      r ← tree_FindNode h T k;
      match r with
      | Some p => '(h, T) ← tree_Delete h T p; Some ((h, T, v), r)
      | None => Some (st, None)
      end
  end.
Fixpoint run_ops (st : tree_state) (ops : list tree_op) : option (tree_state * list (option Z)) :=
  match ops with
  | [] => Some (st, [])
  | op :: ops =>
      '(st, r) ← run_op st op;
      '(st, rs) ← run_ops st ops;
      Some (st, r :: rs)
  end.

Definition models (st : tree_state) (M : gmap Z Z) : Prop :=
  exists t, tree_ok st.1.1 st.1.2 t /\ forall k, M !! k = find t k.

Lemma find_iff t k l : sorted t -> find t k = Some l <-> exists d, (l, k, d) ∈ elems t.
Proof. intros Hs. split; [by apply find_Some|]. intros [d Hd]. by eapply find_elem. Qed.

Lemma find_extend t t' e1 e e2 k :
  sorted t -> sorted t' -> elems t = e1 ++ e2 -> elems t' = e1 ++ e :: e2 ->
  find t (ekey e) = None ->
  find t' k = if decide (k = ekey e) then Some (eloc e) else find t k.
Proof.
  intros Hs Hs' He He' Hn. apply option_eq. intros l. rewrite find_iff by done.
  destruct e as [[p k0] d0]. unfold ekey, eloc in *. simpl in *.
  destruct (decide (k = k0)) as [->|Hk].
  - split.
    + intros [d Hd]. rewrite He' in Hd. apply elem_of_app in Hd as [Hd|[Hd|Hd]%elem_of_cons].
      * rewrite (find_elem t k0 l d) in Hn; [done|done|]. rewrite He. set_solver.
      * by injection Hd as -> _.
      * rewrite (find_elem t k0 l d) in Hn; [done|done|]. rewrite He. set_solver.
    + intros [= <-]. exists d0. rewrite He'. set_solver.
  - rewrite find_iff, He, He' by done. split; intros [d Hd]; exists d; revert Hd;
      rewrite !elem_of_app, ?elem_of_cons; [|tauto]. intros [?|[?|?]]; [tauto|congruence|tauto].
Qed.
Lemma find_removed t t' e1 e e2 k :
  sorted t -> sorted t' -> elems t = e1 ++ e :: e2 -> elems t' = e1 ++ e2 ->
  find t' k = if decide (k = ekey e) then None else find t k.
Proof.
  intros Hs Hs' He He'. destruct (find t' (ekey e)) as [l|] eqn:Hf.
  - exfalso. apply find_Some in Hf as [d Hd]; [|done].
    unfold sorted, keys in Hs. rewrite He, fmap_app, fmap_cons in Hs.
    apply sorted_app in Hs as (_ & _ & H1 & H2). rewrite Forall_forall in H1, H2.
    rewrite He' in Hd. apply elem_of_app in Hd as [Hd|Hd].
    + assert (ekey e < ekey e); [|lia]. apply H1, list_elem_of_fmap.
      by exists (l, ekey e, d).
    + assert (ekey e < ekey e); [|lia]. apply H2, list_elem_of_fmap.
      by exists (l, ekey e, d).
  - rewrite (find_extend t' t e1 e e2 k Hs' Hs He' He Hf).
    by case_decide; [subst|].
Qed.

Lemma run_op_refines st M op :
  models st M ->
  exists st' r M', run_op st op = Some (st', r) /\ map_step M op r M' /\ models st' M'.
Proof.
  destruct st as [[h T] v]. intros (t & Hok & HM). simpl in Hok. destruct op as [k|k|k]; simpl.
  - destruct (find t k) as [l|] eqn:Hf.
    + unfold tree_Insert. rewrite (Insert_old _ _ _ t _ _ Hok l) by done. simpl.
      eexists _, _, M. split; [done|]. split; [constructor; by rewrite HM|]. by exists t.
    + destruct (Insert_new false h T t v k Hok true Hf) as (h' & c & Et & Ei & E1 & Hr & _).
      simpl in E1, Hr. unfold tree_Insert. rewrite E1. simpl.
      destruct (new_elems h T t v k Hok c (adjust c (new_leaf h v k)) Et Ei)
        as (e1 & e2 & He & He' & Hs' & Hnd'); [by apply adjust_elems|].
      eexists _, _, (<[k := kMalloc_node h]> M). split; [done|]. split.
      * constructor; [by rewrite HM|]. intros k' Hk'. rewrite HM in Hk'.
        apply find_locs in Hk'; [|apply Hok].
        apply (repr_in _ _ _ _ (ok_repr _ _ _ Hok)) in Hk'.
        rewrite kMalloc_fresh in Hk'. by destruct Hk'.
      * exists (adjust c (new_leaf h v k)). split.
        { constructor; [done..|]. by eapply adjust_new_hp. }
        intros k'. pose proof (find_extend t _ e1 _ e2 k' (ok_sorted _ _ _ Hok) Hs' He He' Hf) as ->.
        unfold ekey, eloc. simpl. destruct (decide (k' = k)) as [->|Hk].
        { by rewrite lookup_insert_eq. }
        by rewrite lookup_insert_ne.
  - pose proof (Find_ok h T t k Hok) as E1. unfold tree_Find in E1. rewrite E1. simpl.
    eexists _, _, M. split; [done|]. split; [rewrite <- HM; constructor|]. by exists t.
  - pose proof (Find_ok h T t k Hok) as E1. unfold tree_Find in E1. rewrite E1. simpl.
    destruct (find t k) as [l|] eqn:Hf.
    + destruct (find_Some t k l (ok_sorted _ _ _ Hok) Hf) as [d Hd].
      destruct (Delete_ok h T t _ Hok Hd) as (h' & T' & t' & e1 & e2 & E2 & Hok' & He & He' & _).
      unfold eloc in E2. simpl in E2. rewrite E2. simpl.
      eexists _, _, (delete k M). split; [done|]. split; [rewrite <- Hf, <- HM; constructor|].
      exists t'. split; [done|]. intros k'.
      rewrite (find_removed t t' e1 _ e2 k' (ok_sorted _ _ _ Hok) (ok_sorted _ _ _ Hok') He He').
      unfold ekey. simpl. destruct (decide (k' = k)) as [->|Hk].
      { by rewrite lookup_delete_eq. }
      by rewrite lookup_delete_ne.
    + eexists _, _, (delete k M). split; [done|]. split; [rewrite <- Hf, <- HM; constructor|].
      exists t. split; [done|]. intros k'. rewrite <- HM. rewrite delete_id; [done|].
      by rewrite HM.
Qed.

Lemma models_Create sz v : models (∅, tree_Create sz, v) ∅.
Proof. exists E. split; [by repeat constructor|]. intros k. by rewrite lookup_empty. Qed.

End Refine.

(** ** An allocator, for the concrete runs below *)

Section BumpAlloc.
Definition next_addr {D} (h : gmap Z (tree_Node D)) : Z :=
  map_fold (fun k _ a => Z.max a (k + 1)) 1 h.
Lemma next_addr_gt {D} (h : gmap Z (tree_Node D)) k n : h !! k = Some n -> k < next_addr h.
Proof.
  revert k n. unfold next_addr.
  apply (map_fold_weak_ind (fun a h => forall k n, h !! k = Some n -> k < a)).
  - intros k n. by rewrite lookup_empty.
  - intros k x h' a Hk IH k' n. rewrite lookup_insert_Some.
    intros [[<- _]|[_ Hl]]; [lia|]. specialize (IH _ _ Hl). lia.
Qed.
Lemma next_addr_fresh {D} (h : gmap Z (tree_Node D)) : h !! next_addr h = None.
Proof.
  destruct (h !! next_addr h) eqn:E; [|done]. apply next_addr_gt in E. lia.
Qed.
Definition bump_alloc : NodeAlloc Z :=
  {| kMalloc_node := next_addr; kMalloc_data := fun _ => 0; kMalloc_fresh := next_addr_fresh |}.
End BumpAlloc.

(** The treap reached by inserting [ks] in an empty one. *)
Definition demo_run (ks : list Z) := run_ops (H := bump_alloc) (∅, tree_Create 8, 1) (OInsert <$> ks).
Definition demo_state (ks : list Z) : @tree_state Z :=
  match demo_run ks with Some (st, _) => st | None => (∅, tree_Create 8, 1) end.

Lemma empty_ok {D} sz : @tree_ok D ∅ (tree_Create sz) E.
Proof. by repeat constructor. Qed.

(** ** Properties *)

Section Props.
Context {D : Type} `{NodeAlloc D}.
Abbreviation heap := (gmap Z (tree_Node D)).
Implicit Types (h : heap) (t : @tr D).

(** C3. The treap implements a finite map.  Any sequence of insertions,
    searches and deletions (a search followed by [tree_Delete]) started on the
    result of [tree_Create] runs without following a bad pointer, every search,
    sift and sink loop ends, and the answers are those of the map from keys to
    node addresses; a new key gets an address no live node has. *)
Theorem tree_refines_map (sz v : Z) (ops : list tree_op) :
  exists st' rs M', run_ops (∅ : heap, tree_Create sz, v) ops = Some (st', rs) /\
    map_run ∅ ops rs M' /\ models st' M'.
Proof.
  generalize (models_Create (D := D) sz v).
  generalize ((∅ : heap), tree_Create sz, v) as st. generalize (∅ : gmap Z Z) as M.
  induction ops as [|op ops IH]; intros M st HM.
  - exists st, [], M. split_and!; [done|constructor|done].
  - destruct (run_op_refines st M op HM) as (st1 & r & M1 & E1 & Hs & HM1).
    destruct (IH M1 st1 HM1) as (st2 & rs & M2 & E2 & Hr & HM2).
    exists st2, (r :: rs), M2. simpl. rewrite E1. simpl. rewrite E2.
    split_and!; [done|by econstructor|done].
Qed.

(** [tree_InsertNode] (with a non-null [added]) keeps the treap well
    formed: keys in order, priorities heap-ordered, father pointers exact.  A
    present key returns its node and leaves heap, tree and generator unchanged;
    an absent key adds one fresh node at its place in the order, increments the
    size, steps the generator, and keeps every other node at its address with
    its key and data. *)
Theorem tree_InsertNode_correct (nb : bool) h T t v k :
  tree_ok h T t ->
  exists s t', tree_InsertNode nb h T v k true = Some s /\
    tree_ok (is_heap s) (is_tree s) t' /\
    (forall x, x ∉ locs t -> x <> is_result s -> is_heap s !! x = h !! x) /\
    match find t k with
    | Some l => s = mk_ins h T v l false /\ t' = t
    | None =>
        is_added s = true /\ is_rand s = random_Rand v /\
        h !! is_result s = None /\ t_size (is_tree s) = u64 (t_size T + 1) /\
        exists e1 d e2, elems t = e1 ++ e2 /\ elems t' = e1 ++ (is_result s, k, d) :: e2
    end.
Proof.
  intros Hok. destruct (find t k) as [l|] eqn:Hf.
  - exists (mk_ins h T v l false), t. by rewrite (Insert_old _ _ _ t _ _ Hok l).
  - destruct (Insert_new nb h T t v k Hok true Hf) as (h' & c & Et & Ei & -> & Hr & Ho).
    simpl in Hr. destruct (new_elems h T t v k Hok c (adjust c (new_leaf h v k)) Et Ei)
      as (e1 & e2 & He & He' & Hs' & Hnd'); [by apply adjust_elems|].
    eexists _, (adjust c (new_leaf h v k)). split; [done|]. simpl. split_and!; try done.
    + constructor; [done..|]. by eapply adjust_new_hp.
    + apply kMalloc_fresh.
    + by exists e1, (kMalloc_data h), e2.
Qed.

(** [tree_Find] returns the node of the key if there is one and NULL
    otherwise, in any well-formed treap. *)
Theorem tree_Find_correct h T t k :
  tree_ok h T t ->
  exists r, tree_Find h T k = Some r /\
    match r with
    | Some l => exists d, (l, k, d) ∈ elems t
    | None => k ∉ keys t
    end.
Proof.
  intros Hok. exists (find t k). split; [by apply Find_ok|].
  destruct (find t k) as [l|] eqn:Hf.
  - by apply find_Some; [apply Hok|].
  - by apply find_None; [apply Hok|].
Qed.

(** [tree_Delete] of a node of a well-formed treap terminates, removes
    exactly that node, frees it, leaves the other nodes at their addresses in
    the same order and the treap well formed; the [size] field is not
    decremented. *)
Theorem tree_Delete_correct h T t l k d :
  tree_ok h T t -> (l, k, d) ∈ elems t ->
  exists h' T' t' e1 e2, tree_Delete h T l = Some (h', T') /\
    tree_ok h' T' t' /\ elems t = e1 ++ (l, k, d) :: e2 /\ elems t' = e1 ++ e2 /\
    h' !! l = None /\ t_size T' = t_size T /\
    (forall x, x ∉ locs t -> h' !! x = h !! x).
Proof.
  intros Hok Hin. destruct (Delete_ok h T t (l, k, d) Hok Hin)
    as (h' & T' & t' & e1 & e2 & ? & ? & ? & ? & ? & ? & _ & ?).
  by exists h', T', t', e1, e2.
Qed.

(** Iteration visits the nodes in increasing key order: [tree_FirstNode] and
    [tree_LastNode] are the ends of the in-order address list (NULL when empty),
    and [tree_Node_Next] and [tree_Node_Previous] its successor and predecessor
    (NULL at the ends). *)
Theorem tree_iteration_correct h T t :
  tree_ok h T t ->
  StronglySorted Z.lt (keys t) /\
  tree_FirstNode h T = Some (head (locs t)) /\
  tree_LastNode h T = Some (last (locs t)) /\
  (forall j l, locs t !! j = Some l ->
     tree_Node_Next h l = Some (locs t !! S j) /\
     tree_Node_Previous h l = Some (match j with O => None | S i => locs t !! i end)).
Proof.
  intros Hok. split_and!; [apply Hok|by apply FirstNode_ok|by apply LastNode_ok|].
  intros j l Hj. split; [by eapply Node_Next_ok|by eapply Node_Previous_ok].
Qed.

(** [tree_Destroy] frees every node of the treap, once, and nothing else. *)
Theorem tree_Destroy_correct h T t :
  tree_ok h T t ->
  exists h', tree_Destroy h T = Some h' /\
    forall x, h' !! x = if decide (x ∈ locs t) then None else h !! x.
Proof.
  intros [Hrt Hr Hnd _ _]. unfold tree_Destroy. rewrite Hrt.
  destruct (ptr t) as [p|] eqn:Ep; [|destruct t; [|done]; by exists h].
  eapply DestroyNodes_spec; [done..|]. by apply fuel_enough.
Qed.

(** Calling [tree_InsertNode] with a null [added], as the header allows and
    the scheduler does, still inserts the key in order with exact pointers; only
    whether the priorities are adjusted depends on the byte read through the
    null pointer. *)
Theorem tree_InsertNode_null_added (nb : bool) h T t v k :
  tree_ok h T t -> k ∉ keys t ->
  exists s t' e1 d e2, tree_InsertNode nb h T v k false = Some s /\
    root (is_tree s) = ptr t' /\ repr (is_heap s) None t' /\ NoDup (locs t') /\ sorted t' /\
    elems t = e1 ++ e2 /\ elems t' = e1 ++ (is_result s, k, d) :: e2 /\
    (nb = true -> hp t').
Proof.
  intros Hok Hk. apply find_None in Hk; [|apply Hok].
  destruct (Insert_new nb h T t v k Hok false Hk) as (h' & c & Et & Ei & -> & Hr & Ho).
  destruct (new_elems h T t v k Hok c
    (if adjusts nb false then adjust c (new_leaf h v k) else plug c (new_leaf h v k)) Et Ei)
    as (e1 & e2 & He & He' & Hs' & Hnd');
    [destruct (adjusts nb false); [by apply adjust_elems|done]|].
  eexists _, _, e1, _, e2. simpl. split; [done|]. split_and!; try done.
  intros ->. by eapply adjust_new_hp.
Qed.
End Props.

(** ** Witnesses: a concrete treap *)

Definition demo_tr : @tr Z :=
  N (N E 2 1 (Z.lxor (random_Rand 1) 1) 0 E) 1 3 0 7 E.
Definition demo_heap : gmap Z (tree_Node Z) :=
  {[ 1 := mk_node 3 (Some 2) None None 0 7;
     2 := mk_node 1 None None (Some 1) (Z.lxor (random_Rand 1) 1) 0 ]}.
Definition demo_tree : tree_Tree := mk_tree 8 (Some 1) 2.
Lemma demo_ok : tree_ok demo_heap demo_tree demo_tr.
Proof.
  constructor.
  - done.
  - by vm_compute.
  - apply (bool_decide_unpack _). by vm_compute.
  - unfold sorted. repeat constructor; by vm_compute.
  - by vm_compute.
Qed.

Lemma tree_InsertNode_correct_witness :
  exists s, tree_InsertNode (H := bump_alloc) false demo_heap demo_tree 1 2 true = Some s /\
            is_added s = true.
Proof.
  destruct (tree_InsertNode_correct (H := bump_alloc) false demo_heap demo_tree demo_tr 1 2 demo_ok)
    as (s & t' & E1 & _ & _ & Ha & _).
  by exists s.
Defined.
Lemma tree_Find_correct_witness : exists r, tree_Find demo_heap demo_tree 3 = Some r.
Proof.
  destruct (tree_Find_correct demo_heap demo_tree demo_tr 3 demo_ok) as (r & E1 & _).
  by exists r.
Defined.
Lemma tree_Delete_correct_witness :
  exists h T, tree_Delete demo_heap demo_tree 1 = Some (h, T) /\ h !! 1 = None.
Proof.
  destruct (tree_Delete_correct demo_heap demo_tree demo_tr 1 3 7 demo_ok)
    as (h & T & t' & e1 & e2 & E1 & _ & _ & _ & Hf & _); [simpl; set_solver|].
  by exists h, T.
Defined.
Lemma tree_iteration_correct_witness : tree_FirstNode demo_heap demo_tree = Some (Some 2).
Proof.
  destruct (tree_iteration_correct demo_heap demo_tree demo_tr demo_ok) as (_ & E1 & _).
  exact E1.
Defined.
Lemma tree_Destroy_correct_witness :
  exists h, tree_Destroy demo_heap demo_tree = Some h /\ h !! 1 = None.
Proof.
  destruct (tree_Destroy_correct demo_heap demo_tree demo_tr demo_ok) as (h & E1 & Hh).
  exists h. split; [done|]. by rewrite Hh.
Defined.
Lemma tree_InsertNode_null_added_witness :
  exists s, tree_InsertNode (H := bump_alloc) true demo_heap demo_tree 1 2 false = Some s.
Proof.
  destruct (tree_InsertNode_null_added (H := bump_alloc) true demo_heap demo_tree demo_tr 1 2 demo_ok)
    as (s & t' & e1 & d & e2 & E1 & _); [unfold keys; simpl; set_solver|].
  by exists s.
Defined.
