(* ===== verification/Physical.v ===== *)
(** * Physical frames (src/memory/paging_physical.c)

    The frame bitmap (bit set: used), the two rolling cursors and the memory
    that allocation zeroes. *)

From S2P Require Import Prelude Mem.

Definition SYSTEM_PAGE_SIZE : Z := 4096.
Definition SYSTEM_PAGE_2M_SIZE : Z := 2097152.
Definition SYSTEM_PAGE_1G_SIZE : Z := 1073741824.
Definition MAX_SYSTEM_MEMORY_PAGES : Z := 16777216.
Definition BITMAP_BITS : Z := 64.

(** The static data of paging_physical.c, with the end of physical memory
    found by paging_init.c and the memory itself (identity-mapped). *)
Record phys := mk_phys {
  Bitmap : Z -> Z;        (* paging_physical_Bitmap[i] *)
  phy_i : Z;
  phy_i_2M : Z;
  EndPhysicalPage : Z;    (* paging_EndPhysicalPage *)
  pmem : mem;
}.
Definition set_bitmap (f : Z -> Z) (s : phys) : phys :=
  mk_phys f (phy_i s) (phy_i_2M s) (EndPhysicalPage s) (pmem s).
Definition set_phy_i (i : Z) (s : phys) : phys :=
  mk_phys (Bitmap s) i (phy_i_2M s) (EndPhysicalPage s) (pmem s).
Definition set_phy_i_2M (i : Z) (s : phys) : phys :=
  mk_phys (Bitmap s) (phy_i s) i (EndPhysicalPage s) (pmem s).
Definition set_pmem (m : mem) (s : phys) : phys :=
  mk_phys (Bitmap s) (phy_i s) (phy_i_2M s) (EndPhysicalPage s) m.

(** [phy_i] skips the first 1M, [phy_i_2M] the first 2M. *)
Definition phy_i_init : Z := 1024 / 4 / BITMAP_BITS.
Definition phy_i_2M_init : Z := 2048 / 4 / BITMAP_BITS.

(** Bitwise complement of a [uint64_t]. *)
Definition not64 (z : Z) : Z := u64 (Z.lnot z).

Definition fillBits (begin last : Z) : Z :=
  if last =? BITMAP_BITS - 1 then not64 (Z.shiftl 1 begin - 1)
  else if begin =? 0 then Z.shiftl 1 (last + 1) - 1
  else Z.land (not64 (Z.shiftl 1 begin - 1)) (Z.shiftl 1 (last + 1) - 1).

(** C division and remainder of [int]s truncate towards zero. *)
Definition where_begin (begin : Z) : Z := Z.quot begin BITMAP_BITS.
Definition where_last (end_ : Z) : Z := Z.quot (end_ - 1) BITMAP_BITS.
Definition bit_begin (begin : Z) : Z := Z.rem begin BITMAP_BITS.
Definition bit_last (end_ : Z) : Z := Z.rem (end_ - 1) BITMAP_BITS.

(** [for (int i = whereBegin + 1; i < whereLast; i++) Bitmap[i] = v] *)
Definition fill_words (wb wl v : Z) (b : Z -> Z) : Z -> Z :=
  fun i => if (wb <? i) && (i <? wl) then v else b i.

Definition paging_physical_BitmapWriteOne (b : Z -> Z) (begin end_ : Z) : Z -> Z :=
  let wb := where_begin begin in
  let wl := where_last end_ in
  if wb =? wl then upd b wb (Z.lor (b wb) (fillBits (bit_begin begin) (bit_last end_)))
  else
    let b := upd b wb (Z.lor (b wb) (fillBits (bit_begin begin) (BITMAP_BITS - 1))) in
    let b := upd b wl (Z.lor (b wl) (fillBits 0 (bit_last end_))) in
    fill_words wb wl (not64 0) b.

Definition paging_physical_BitmapWriteZero (b : Z -> Z) (begin end_ : Z) : Z -> Z :=
  let wb := where_begin begin in
  let wl := where_last end_ in
  if wb =? wl then upd b wb (Z.land (b wb) (not64 (fillBits (bit_begin begin) (bit_last end_))))
  else
    let b := upd b wb (Z.land (b wb) (not64 (fillBits (bit_begin begin) (BITMAP_BITS - 1)))) in
    let b := upd b wl (Z.land (b wl) (not64 (fillBits 0 (bit_last end_)))) in
    fill_words wb wl 0 b.

(** [for (int j = 0; j < BITMAP_BITS; j++) if ((w & (1ull << j)) == 0) ...]:
    the first clear bit from [j] on, among [n] bits. *)
Fixpoint first_zero (n : nat) (w j : Z) : option Z :=
  match n with
  | O => None
  | S n => if Z.land w (Z.shiftl 1 j) =? 0 then Some j else first_zero n w (j + 1)
  end.

(** The [phy_i] loop of [paging_physical_AllocateFrames] for one frame; the
    result is [frames[page]], [None] when the loop ends without a frame.  [n]
    bounds the number of words left. *)
Fixpoint AllocateFrames_scan (n : nat) (s : phys) : phys * option Z :=
  match n with
  | O => (s, None)
  | S n =>
      let i := phy_i s in
      if i <? Z.quot (EndPhysicalPage s) BITMAP_BITS then
        match (if Bitmap s i =? not64 0 then None else first_zero 64 (Bitmap s i) 0) with
        | Some j =>
            let addr := u64 (u64 (u64 (i * BITMAP_BITS) + j) * SYSTEM_PAGE_SIZE) in
            (set_pmem (memset (pmem s) addr 0 SYSTEM_PAGE_SIZE)
               (set_bitmap (upd (Bitmap s) i (Z.lor (Bitmap s i) (Z.shiftl 1 j))) s), Some addr)
        | None => AllocateFrames_scan n (set_phy_i (i + 1) s)
        end
      else (s, None)
  end.
Definition scan_fuel (s : phys) : nat :=
  S (Z.to_nat (Z.quot (EndPhysicalPage s) BITMAP_BITS - phy_i s)).

(** The frames written to [frames[]], their number being the value returned;
    on exhaustion [frames[page]] is set to 0 as well. *)
Fixpoint AllocateFrames_loop (pages : nat) (s : phys) : phys * list Z :=
  match pages with
  | O => (s, [])
  | S pages =>
      let '(s, frame) := AllocateFrames_scan (scan_fuel s) s in
      match frame with
      | None => (s, [])
      | Some addr => let '(s, fs) := AllocateFrames_loop pages s in (s, addr :: fs)
      end
  end.
Definition paging_physical_AllocateFrames (pageCount : Z) (s : phys) : phys * list Z :=
  AllocateFrames_loop (Z.to_nat pageCount) s.

(** [addr] is what [AllocateFrames] left in it: 0 when memory is exhausted. *)
Definition paging_physical_AllocateOneFrame (s : phys) : phys * Z :=
  let '(s, fs) := paging_physical_AllocateFrames 1 s in (s, default 0 (head fs)).

Definition all_free8 (b : Z -> Z) (i : Z) : bool :=
  forallb (fun j => b (i + j) =? 0) (seqZ 0 8).
Definition fill8 (b : Z -> Z) (i : Z) : Z -> Z :=
  fun x => if (i <=? x) && (x <? i + 8) then not64 0 else b x.

Fixpoint AllocateFrames2M_scan (n : nat) (s : phys) : phys * Z :=
  match n with
  | O => (s, 0)
  | S n =>
      let i := phy_i_2M s in
      if i <? Z.quot (EndPhysicalPage s) BITMAP_BITS then
        if all_free8 (Bitmap s) i then
          let addr := u64 (u64 (i * BITMAP_BITS) * SYSTEM_PAGE_SIZE) in
          (set_pmem (memset (pmem s) addr 0 SYSTEM_PAGE_2M_SIZE)
             (set_bitmap (fill8 (Bitmap s) i) s), addr)
        else AllocateFrames2M_scan n (set_phy_i_2M (i + 8) s)
      else (s, 0)
  end.
Definition scan_fuel_2M (s : phys) : nat :=
  S (Z.to_nat (Z.quot (EndPhysicalPage s) BITMAP_BITS - phy_i_2M s)).
Fixpoint AllocateFrames2M_loop (pages : nat) (s : phys) : phys * list Z :=
  match pages with
  | O => (s, [])
  | S pages =>
      let '(s, addr) := AllocateFrames2M_scan (scan_fuel_2M s) s in
      if addr =? 0 then (s, [])
      else let '(s, fs) := AllocateFrames2M_loop pages s in (s, addr :: fs)
  end.
Definition paging_physical_AllocateFrames2M (pageCount : Z) (s : phys) : phys * list Z :=
  AllocateFrames2M_loop (Z.to_nat pageCount) s.
Definition paging_physical_AllocateOneFrame2M (s : phys) : phys * Z :=
  let '(s, fs) := paging_physical_AllocateFrames2M 1 s in (s, default 0 (head fs)).

(** A misaligned address only prints a message. *)
Definition paging_physical_FreeFrame (frame pageCount : Z) (s : phys) : phys :=
  if negb (frame mod SYSTEM_PAGE_SIZE =? 0) then s
  else
    let f := frame / SYSTEM_PAGE_SIZE in
    set_bitmap (paging_physical_BitmapWriteZero (Bitmap s) (i32 f) (i32 (f + pageCount))) s.

(** ** Bits and frames *)

(** Page number [f] is marked used. *)
Definition used (b : Z -> Z) (f : Z) : bool := Z.testbit (b (f / 64)) (f mod 64).
(** Every word is a 64-bit value. *)
Definition words_ok (b : Z -> Z) : Prop := forall i, 0 <= b i < 2 ^ 64.

Lemma u64_testbit z i : 0 <= i -> Z.testbit (u64 z) i = (i <? 64) && Z.testbit z i.
Proof.
  intros. unfold u64. change 18446744073709551616 with (2 ^ 64).
  destruct (Z.ltb_spec i 64); simpl.
  - apply Z.mod_pow2_bits_low. lia.
  - apply Z.mod_pow2_bits_high. lia.
Qed.
Lemma not64_testbit z i : 0 <= i < 64 -> Z.testbit (not64 z) i = negb (Z.testbit z i).
Proof.
  intros. unfold not64. rewrite u64_testbit by lia. rewrite Z.lnot_spec by lia.
  by zcase; [|lia].
Qed.
Lemma low_bits_testbit n i :
  0 <= n -> 0 <= i -> Z.testbit (Z.shiftl 1 n - 1) i = (i <? n).
Proof.
  intros. replace (Z.shiftl 1 n - 1) with (Z.ones n) by (unfold Z.ones; lia).
  rewrite Z.testbit_ones by lia. zcases.
Qed.
Lemma not64_range z : 0 <= not64 z < 2 ^ 64.
Proof. unfold not64, u64. lia. Qed.
Lemma testbit_high w i : 0 <= w < 2 ^ 64 -> 64 <= i -> Z.testbit w i = false.
Proof.
  intros. rewrite <- (u64_small w) by lia. rewrite u64_testbit by lia.
  by zcase; [lia|].
Qed.

Lemma range_testbit w :
  0 <= w -> (forall i, 64 <= i -> Z.testbit w i = false) -> 0 <= w < 2 ^ 64.
Proof.
  intros Hw H. split; [done|]. destruct (Z.eq_dec w 0) as [->|]; [lia|].
  apply Z.log2_lt_pow2; [lia|]. destruct (Z.lt_ge_cases (Z.log2 w) 64) as [|Hl]; [done|].
  pose proof (Z.bit_log2 w ltac:(lia)) as Hb. rewrite H in Hb by lia. done.
Qed.

Lemma fillBits_testbit b l i :
  0 <= b <= l -> l < 64 -> 0 <= i < 64 ->
  Z.testbit (fillBits b l) i = (b <=? i) && (i <=? l).
Proof.
  intros. unfold fillBits, BITMAP_BITS. zcase; [|zcase].
  - rewrite not64_testbit, low_bits_testbit by lia. zcases.
  - rewrite low_bits_testbit by lia. zcases.
  - rewrite Z.land_spec, not64_testbit, !low_bits_testbit by lia. zcases.
Qed.

(** The words of a range of pages, split at the word boundaries. *)
Lemma range_words begin end_ f :
  0 <= begin < end_ -> 0 <= f ->
  (begin <=? f) && (f <? end_) =
  if begin / 64 =? (end_ - 1) / 64 then
    (f / 64 =? begin / 64) && ((begin mod 64 <=? f mod 64) && (f mod 64 <=? (end_ - 1) mod 64))
  else if f / 64 =? (end_ - 1) / 64 then f mod 64 <=? (end_ - 1) mod 64
  else if f / 64 =? begin / 64 then begin mod 64 <=? f mod 64
  else (begin / 64 <? f / 64) && (f / 64 <? (end_ - 1) / 64).
Proof. intros. zcases. Qed.

Lemma ff_testbit i : 0 <= i < 64 -> Z.testbit (not64 0) i = true.
Proof. intros. rewrite not64_testbit by lia. by rewrite Z.bits_0. Qed.

Lemma BitmapWriteOne_used b begin end_ f :
  0 <= begin < end_ -> 0 <= f ->
  used (paging_physical_BitmapWriteOne b begin end_) f =
  used b f || ((begin <=? f) && (f <? end_)).
Proof.
  intros Hr Hf. rewrite range_words by done.
  unfold used, paging_physical_BitmapWriteOne, fill_words, where_begin, where_last,
    bit_begin, bit_last, BITMAP_BITS.
  rewrite !Z.quot_div_nonneg, !Z.rem_mod_nonneg by lia.
  assert (0 <= f mod 64 < 64) by lia.
  destruct (Z.eqb_spec (begin / 64) ((end_ - 1) / 64)) as [E|E]; unfold upd.
  - destruct (Z.eqb_spec (f / 64) (begin / 64)) as [->|]; [|by rewrite orb_false_r].
    rewrite Z.lor_spec, fillBits_testbit by lia. done.
  - destruct (Z.eqb_spec (f / 64) ((end_ - 1) / 64)) as [E'|E']; [|
      destruct (Z.eqb_spec (f / 64) (begin / 64)) as [E''|E'']].
    + rewrite E'. rewrite Z.ltb_irrefl, andb_false_r, Z.lor_spec, fillBits_testbit by lia.
      rewrite (proj2 (Z.eqb_neq _ _)) by lia. f_equal. zcases.
    + rewrite E''. rewrite Z.ltb_irrefl. simpl. rewrite Z.lor_spec, fillBits_testbit by lia.
      f_equal. zcases.
    + destruct ((begin / 64 <? f / 64) && (f / 64 <? (end_ - 1) / 64)); [|by rewrite orb_false_r].
      by rewrite ff_testbit, orb_true_r by lia.
Qed.

Lemma BitmapWriteZero_used b begin end_ f :
  0 <= begin < end_ -> 0 <= f ->
  used (paging_physical_BitmapWriteZero b begin end_) f =
  used b f && negb ((begin <=? f) && (f <? end_)).
Proof.
  intros Hr Hf. rewrite range_words by done.
  unfold used, paging_physical_BitmapWriteZero, fill_words, where_begin, where_last,
    bit_begin, bit_last, BITMAP_BITS.
  rewrite !Z.quot_div_nonneg, !Z.rem_mod_nonneg by lia.
  assert (0 <= f mod 64 < 64) by lia.
  destruct (Z.eqb_spec (begin / 64) ((end_ - 1) / 64)) as [E|E]; unfold upd.
  - destruct (Z.eqb_spec (f / 64) (begin / 64)) as [->|]; [|by rewrite andb_true_r].
    rewrite Z.land_spec, not64_testbit, fillBits_testbit by lia. done.
  - destruct (Z.eqb_spec (f / 64) ((end_ - 1) / 64)) as [E'|E']; [|
      destruct (Z.eqb_spec (f / 64) (begin / 64)) as [E''|E'']].
    + rewrite E'. rewrite Z.ltb_irrefl, andb_false_r, Z.land_spec, not64_testbit, fillBits_testbit by lia.
      rewrite (proj2 (Z.eqb_neq _ _)) by lia. f_equal. zcases.
    + rewrite E''. rewrite Z.ltb_irrefl. simpl.
      rewrite Z.land_spec, not64_testbit, fillBits_testbit by lia.
      f_equal. zcases.
    + destruct ((begin / 64 <? f / 64) && (f / 64 <? (end_ - 1) / 64)); [|by rewrite andb_true_r].
      by rewrite Z.bits_0, andb_false_r.
Qed.

(** ** Allocation *)

Lemma land_bit w j : 0 <= j -> (Z.land w (Z.shiftl 1 j) =? 0) = negb (Z.testbit w j).
Proof.
  intros Hj. rewrite Z.shiftl_1_l. destruct (Z.testbit w j) eqn:E.
  - apply Z.eqb_neq. intros H. assert (Z.testbit (Z.land w (2 ^ j)) j = true) as Hb
      by (by rewrite Z.land_spec, E, Z.pow2_bits_true).
    by rewrite H, Z.bits_0 in Hb.
  - apply Z.eqb_eq, Z.bits_inj'. intros i Hi. rewrite Z.land_spec, Z.bits_0, Z.pow2_bits_eqb by lia.
    destruct (Z.eqb_spec j i) as [->|]; [by rewrite E|by rewrite andb_false_r].
Qed.

Lemma first_zero_spec n w j :
  0 <= j ->
  match first_zero n w j with
  | Some k => j <= k < j + Z.of_nat n /\ Z.testbit w k = false /\
              (forall i, j <= i < k -> Z.testbit w i = true)
  | None => forall i, j <= i < j + Z.of_nat n -> Z.testbit w i = true
  end.
Proof.
  revert j. induction n as [|n IH]; intros j Hj; [simpl; lia|]. cbn [first_zero].
  rewrite land_bit by done. destruct (Z.testbit w j) eqn:E; simpl.
  - specialize (IH (j + 1) ltac:(lia)). destruct (first_zero n w (j + 1)) as [k|].
    + destruct IH as (? & ? & Hi). split_and!; [lia|lia|done|].
      intros i ?. destruct (Z.eq_dec i j) as [->|]; [done|]. apply Hi. lia.
    + intros i ?. destruct (Z.eq_dec i j) as [->|]; [done|]. apply IH. lia.
  - split_and!; [lia|lia|done|]. lia.
Qed.

(** The word holding the first free bit, as the code tests it. *)
Lemma word_scan w :
  0 <= w < 2 ^ 64 ->
  match (if w =? not64 0 then None else first_zero 64 w 0) with
  | Some k => 0 <= k < 64 /\ Z.testbit w k = false /\
              (forall i, 0 <= i < k -> Z.testbit w i = true)
  | None => forall i, 0 <= i < 64 -> Z.testbit w i = true
  end.
Proof.
  intros Hw. destruct (Z.eqb_spec w (not64 0)) as [->|]; [apply ff_testbit|].
  apply (first_zero_spec 64 w 0). lia.
Qed.

Record phys_ok (s : phys) : Prop := {
  po_words : words_ok (Bitmap s);
  po_i : 0 <= phy_i s;
  po_i2 : 0 <= phy_i_2M s;
  po_end : 0 <= EndPhysicalPage s <= MAX_SYSTEM_MEMORY_PAGES;
}.
(** Past-the-end of the pages the cursors cover. *)
Definition phys_limit (s : phys) : Z := 64 * (EndPhysicalPage s / 64).
(** The page numbers that can still be allocated, in increasing order. *)
Definition free_frames (s : phys) : list Z :=
  filter (fun f => used (Bitmap s) f = false) (seqZ (64 * phy_i s) (phys_limit s - 64 * phy_i s)).
Definition frame_addr (f : Z) : Z := f * 4096.

Lemma filter_seqZ_skip b lo f hi :
  lo <= f -> f <= hi -> (forall g, lo <= g < f -> used b g = true) ->
  filter (fun f => used b f = false) (seqZ lo (hi - lo)) =
  filter (fun f => used b f = false) (seqZ f (hi - f)).
Proof.
  intros ? ? Hu. replace (hi - lo) with ((f - lo) + (hi - f)) by lia.
  rewrite seqZ_app, filter_app by lia. replace (lo + (f - lo)) with f by lia.
  rewrite filter_none; [done|]. intros g Hg%elem_of_seqZ. rewrite Hu by lia. done.
Qed.

Lemma used_word b i k f :
  0 <= k < 64 -> 0 <= f -> words_ok b ->
  used (upd b i (Z.lor (b i) (Z.shiftl 1 k))) f = used b f || (f =? 64 * i + k).
Proof.
  intros Hk Hf Hw. unfold used, upd. assert (0 <= f mod 64 < 64) by lia.
  destruct (Z.eqb_spec (f / 64) i) as [<-|].
  - rewrite Z.lor_spec, Z.shiftl_1_l, Z.pow2_bits_eqb by lia. f_equal. zcases.
  - rewrite (proj2 (Z.eqb_neq _ _)) by lia. by rewrite orb_false_r.
Qed.
Lemma lor_words_ok b i k :
  0 <= k < 64 -> words_ok b -> words_ok (upd b i (Z.lor (b i) (Z.shiftl 1 k))).
Proof.
  intros Hk Hb j. unfold upd. destruct (Z.eqb_spec j i) as [->|]; [|apply Hb].
  apply range_testbit.
  - apply Z.lor_nonneg. split; [apply Hb|]. rewrite Z.shiftl_1_l. lia.
  - intros x Hx. rewrite Z.lor_spec, testbit_high by (done || apply Hb).
    rewrite Z.shiftl_1_l, Z.pow2_bits_false by lia. done.
Qed.

Lemma scan_spec n s :
  phys_ok s -> (Z.to_nat (phys_limit s / 64 - phy_i s) < n)%nat ->
  match AllocateFrames_scan n s with
  | (s', Some a) => exists f, a = frame_addr f /\ free_frames s = f :: free_frames s' /\
      phys_ok s' /\ 64 * phy_i s <= f < phys_limit s /\
      (forall g, 0 <= g -> used (Bitmap s') g = used (Bitmap s) g || (g =? f)) /\
      EndPhysicalPage s' = EndPhysicalPage s /\ phy_i_2M s' = phy_i_2M s /\
      phy_i s <= phy_i s' /\ pmem s' = memset (pmem s) a 0 4096
  | (s', None) => free_frames s = [] /\ free_frames s' = [] /\ phys_ok s' /\
      Bitmap s' = Bitmap s /\ pmem s' = pmem s /\
      EndPhysicalPage s' = EndPhysicalPage s /\ phy_i_2M s' = phy_i_2M s /\ phy_i s <= phy_i s'
  end.
Proof.
  revert s. induction n as [|n IH]; intros s Hok Hn; [lia|]. pose proof Hok as [Hw Hi Hi2 He].
  unfold MAX_SYSTEM_MEMORY_PAGES in He.
  cbn [AllocateFrames_scan]. unfold BITMAP_BITS. rewrite Z.quot_div_nonneg by lia.
  unfold phys_limit in *. destruct (Z.ltb_spec (phy_i s) (EndPhysicalPage s / 64)).
  - pose proof (word_scan _ (Hw (phy_i s))) as Hs.
    destruct (if Bitmap s (phy_i s) =? not64 0 then None else _) as [k|].
    + destruct Hs as (Hk & Hbk & Hlow). simpl.
      set (f := 64 * phy_i s + k).
      assert (used (Bitmap s) f = false) as Hf.
      { unfold used. replace (f / 64) with (phy_i s) by lia.
        replace (f mod 64) with k by lia. done. }
      assert (forall g, 64 * phy_i s <= g < f -> used (Bitmap s) g = true) as Hbelow.
      { intros g Hg. unfold used. replace (g / 64) with (phy_i s) by lia.
        apply Hlow. lia. }
      set (b' := upd (Bitmap s) (phy_i s) (Z.lor (Bitmap s (phy_i s)) (Z.shiftl 1 k))).
      assert (forall g, 0 <= g -> used b' g = used (Bitmap s) g || (g =? f)) as Hb'
        by (intros; by apply used_word).
      exists f. split_and!; try done; try (unfold f; simpl; lia).
      * unfold frame_addr, SYSTEM_PAGE_SIZE, f. word_lia.
      * unfold free_frames, phys_limit. simpl.
        rewrite !(filter_seqZ_skip _ (64 * phy_i s) f) by
          (lia || done || (intros g Hg; rewrite Hb' by lia; by rewrite Hbelow)).
        replace (64 * (EndPhysicalPage s / 64) - f)
          with (Z.succ (64 * (EndPhysicalPage s / 64) - f - 1)) by lia.
        rewrite seqZ_cons by lia. rewrite filter_cons_True by done.
        rewrite filter_cons_False by (rewrite Hb', Hf, Z.eqb_refl by lia; done). f_equal.
        apply filter_ext_in. intros g Hg%elem_of_seqZ. rewrite Hb' by lia.
        rewrite (proj2 (Z.eqb_neq _ _)) by lia. by rewrite orb_false_r.
      * constructor; try done. by apply lor_words_ok.
    + specialize (IH (set_phy_i (phy_i s + 1) s)). simpl in IH.
      assert (free_frames (set_phy_i (phy_i s + 1) s) = free_frames s) as Hff.
      { unfold free_frames, phys_limit. simpl. symmetry. apply filter_seqZ_skip; [lia|lia|].
        intros g Hg. unfold used. replace (g / 64) with (phy_i s) by lia. apply Hs. lia. }
      rewrite Hff in IH. destruct (AllocateFrames_scan n _) as [s' [a|]].
      * destruct IH as (f & -> & ? & ? & ? & ? & ? & ? & ? & ?);
          [constructor; simpl; try done; lia|lia|].
        exists f. split_and!; try done; lia.
      * destruct IH as (? & ? & ? & ? & ? & ? & ? & ?);
          [constructor; simpl; try done; lia|lia|]. split_and!; try done; lia.
  - assert (free_frames s = []) as Hff.
    { unfold free_frames, phys_limit. by rewrite seqZ_nil by lia. }
    split_and!; done.
Qed.

(** What [pages] allocations do, as a whole. *)
Definition in_frames (fs : list Z) (x : Z) : Prop := x / 4096 ∈ fs.
#[export] Instance in_frames_dec fs x : Decision (in_frames fs x).
Proof. unfold in_frames. apply _. Defined.

Lemma memset_frame m f x :
  memset m (frame_addr f) 0 4096 x = if decide (x / 4096 = f) then 0 else m x.
Proof.
  unfold memset, frame_addr. case_decide.
  - rewrite (proj2 (Z.leb_le _ _)), (proj2 (Z.ltb_lt _ _)) by lia. done.
  - destruct (Z.leb_spec (f * 4096) x); [|done]. simpl.
    destruct (Z.ltb_spec x (f * 4096 + 4096)); [lia|done].
Qed.

Lemma AllocateFrames_loop_spec pages s :
  phys_ok s ->
  let '(s', fs) := AllocateFrames_loop pages s in
  let new := take pages (free_frames s) in
  fs = frame_addr <$> new /\
  free_frames s' = drop pages (free_frames s) /\ phys_ok s' /\
  (forall g, 0 <= g -> used (Bitmap s') g = used (Bitmap s) g || bool_decide (g ∈ new)) /\
  (forall x, pmem s' x = if decide (in_frames new x) then 0 else pmem s x) /\
  EndPhysicalPage s' = EndPhysicalPage s /\ phy_i_2M s' = phy_i_2M s /\ phy_i s <= phy_i s'.
Proof.
  revert s. induction pages as [|pages IH]; intros s Hok.
  { simpl. split_and!; try done. intros. by rewrite orb_false_r. }
  cbn [AllocateFrames_loop].
  pose proof (scan_spec (scan_fuel s) s Hok) as Hs.
  destruct (AllocateFrames_scan (scan_fuel s) s) as [s1 [a|]].
  - destruct Hs as (f & -> & Hff & Hok1 & Hf & Hu & He & Hi2 & Hi & Hm).
    { pose proof (po_end _ Hok). unfold scan_fuel, phys_limit, BITMAP_BITS.
      rewrite Z.quot_div_nonneg by lia. lia. }
    specialize (IH s1 Hok1). destruct (AllocateFrames_loop pages s1) as [s2 fs].
    destruct IH as (-> & Hff2 & Hok2 & Hu2 & Hm2 & He2 & Hi22 & Hi3). rewrite Hff. simpl.
    split_and!; try done; try congruence; try lia.
    + intros g Hg. rewrite Hu2, Hu by done. rewrite <- orb_assoc. f_equal.
      apply eq_true_iff_eq.
      by rewrite orb_true_iff, Z.eqb_eq, !bool_decide_eq_true, elem_of_cons.
    + intros x. rewrite Hm2, Hm, memset_frame. unfold in_frames.
      repeat case_decide; set_solver.
  - destruct Hs as (Hff & Hff1 & Hok1 & Hb & Hm & He & Hi2 & Hi).
    { pose proof (po_end _ Hok). unfold scan_fuel, phys_limit, BITMAP_BITS.
      rewrite Z.quot_div_nonneg by lia. lia. }
    rewrite Hff. simpl. split_and!; try done.
    + intros. by rewrite Hb, orb_false_r.
    + intros. by rewrite Hm.
Qed.

Lemma AllocateOneFrame_spec s f fs :
  phys_ok s -> free_frames s = f :: fs ->
  exists s', paging_physical_AllocateOneFrame s = (s', frame_addr f) /\ phys_ok s' /\
    free_frames s' = fs /\
    (forall g, 0 <= g -> used (Bitmap s') g = used (Bitmap s) g || (g =? f)) /\
    (forall x, pmem s' x = if decide (x / 4096 = f) then 0 else pmem s x) /\
    EndPhysicalPage s' = EndPhysicalPage s /\ phy_i_2M s' = phy_i_2M s.
Proof.
  intros Hok Hff. unfold paging_physical_AllocateOneFrame, paging_physical_AllocateFrames.
  pose proof (AllocateFrames_loop_spec (Z.to_nat 1) s Hok) as Hs.
  destruct (AllocateFrames_loop (Z.to_nat 1) s) as [s' l].
  rewrite Hff in Hs. destruct Hs as (-> & Hff' & Hok' & Hu & Hm & He & Hi2 & _).
  exists s'. split_and!; try done.
  - intros g Hg. rewrite Hu by done. f_equal. simpl. zcase; subst.
    + apply bool_decide_true. set_solver.
    + apply bool_decide_false. set_solver.
  - intros x. rewrite Hm. unfold in_frames. simpl. repeat case_decide; set_solver.
Qed.

(** The frames are never page 0 and their addresses are below [2^36]. *)
Lemma free_frames_in s f :
  f ∈ free_frames s -> 64 * phy_i s <= f < phys_limit s /\ used (Bitmap s) f = false.
Proof. unfold free_frames. rewrite list_elem_of_filter, elem_of_seqZ. intros [? ?]. split; [lia|done]. Qed.
Lemma free_frames_NoDup s : NoDup (free_frames s).
Proof. apply NoDup_filter, NoDup_seqZ. Qed.

(** ** 2M frames: eight whole words at a time *)

(** The words from the cursor that can start a 2M frame, in steps of eight. *)
Definition block_cands (lo lim : Z) : list Z := (fun k => lo + 8 * k) <$> seqZ 0 ((lim - lo + 7) / 8).
Definition free_blocks (s : phys) : list Z :=
  filter (fun i => all_free8 (Bitmap s) i = true)
    (block_cands (phy_i_2M s) (EndPhysicalPage s / 64)).
Definition block_addr (i : Z) : Z := i * 64 * 4096.
Definition in_block (i f : Z) : bool := (64 * i <=? f) && (f <? 64 * i + 512).

Lemma block_cands_nil lo lim : lim <= lo -> block_cands lo lim = [].
Proof. intros. unfold block_cands. by rewrite seqZ_nil by lia. Qed.
Lemma block_cands_cons lo lim : lo < lim -> block_cands lo lim = lo :: block_cands (lo + 8) lim.
Proof.
  intros. unfold block_cands.
  replace ((lim - lo + 7) / 8) with (Z.succ ((lim - (lo + 8) + 7) / 8)) by lia.
  rewrite seqZ_cons by lia. rewrite Z.pred_succ, fmap_cons. f_equal; [lia|].
  change (Z.succ 0) with (1 + 0). rewrite <- fmap_add_seqZ, <- list_fmap_compose. apply list_fmap_ext. intros ? k _. simpl. lia.
Qed.
Lemma block_cands_in lo lim i : i ∈ block_cands lo lim -> lo <= i < lim /\ (i - lo) mod 8 = 0.
Proof.
  unfold block_cands. rewrite list_elem_of_fmap. intros (k & -> & Hk%elem_of_seqZ). lia.
Qed.

Lemma all_free8_spec b i : 0 <= i ->
  all_free8 b i = true -> forall f, in_block i f = true -> used b f = false.
Proof.
  unfold all_free8. rewrite forallb_forall. intros Hi Hb f Hf. unfold in_block in Hf. zbool.
  unfold used. specialize (Hb (f / 64 - i)). rewrite Z.eqb_eq in Hb.
  replace (i + (f / 64 - i)) with (f / 64) in Hb by lia.
  rewrite Hb; [apply Z.bits_0|]. apply list_elem_of_In, elem_of_seqZ. lia.
Qed.
Lemma fill8_used b i f : 0 <= i -> 0 <= f -> used (fill8 b i) f = used b f || in_block i f.
Proof.
  intros. unfold used, fill8, in_block.
  destruct (Z.leb_spec (64 * i) f), (Z.ltb_spec f (64 * i + 512)); simpl.
  2-4: rewrite orb_false_r; zcases; done.
  rewrite (proj2 (Z.leb_le _ _)), (proj2 (Z.ltb_lt _ _)) by lia. simpl.
  by rewrite ff_testbit, orb_true_r by lia.
Qed.
Lemma fill8_words_ok b i : words_ok b -> words_ok (fill8 b i).
Proof. intros Hb j. unfold fill8. destruct ((i <=? j) && (j <? i + 8)); [apply not64_range|apply Hb]. Qed.
Lemma all_free8_fill b i j :
  i + 8 <= j \/ j + 8 <= i -> all_free8 (fill8 b i) j = all_free8 b j.
Proof.
  intros. unfold all_free8. apply eq_true_iff_eq. rewrite !forallb_forall.
  assert (forall x, In x (seqZ 0 8) -> fill8 b i (j + x) = b (j + x)) as Hx.
  { intros x Hx%list_elem_of_In%elem_of_seqZ. unfold fill8. zcases. }
  split; intros Hf x Hin; specialize (Hf x Hin); by rewrite Hx in *.
Qed.

Lemma scan_2M_spec n s :
  phys_ok s -> 0 < phy_i_2M s -> (Z.to_nat (EndPhysicalPage s / 64 - phy_i_2M s) < n)%nat ->
  let '(s', a) := AllocateFrames2M_scan n s in
  (a = 0 /\ free_blocks s = [] /\ free_blocks s' = [] /\ phys_ok s' /\ 0 < phy_i_2M s' /\
   Bitmap s' = Bitmap s /\ pmem s' = pmem s /\
   EndPhysicalPage s' = EndPhysicalPage s /\ phy_i s' = phy_i s) \/
  (exists i, a = block_addr i /\ 0 < i /\ free_blocks s = i :: free_blocks s' /\
   phys_ok s' /\ 0 < phy_i_2M s' /\
   (forall f, 0 <= f -> used (Bitmap s') f = used (Bitmap s) f || in_block i f) /\
   pmem s' = memset (pmem s) a 0 SYSTEM_PAGE_2M_SIZE /\
   EndPhysicalPage s' = EndPhysicalPage s /\ phy_i s' = phy_i s).
Proof.
  revert s. induction n as [|n IH]; intros s Hok Hi Hn; [lia|]. pose proof Hok as [Hw H1 _ He].
  unfold MAX_SYSTEM_MEMORY_PAGES in He. cbn [AllocateFrames2M_scan].
  unfold BITMAP_BITS. rewrite Z.quot_div_nonneg by lia.
  destruct (Z.ltb_spec (phy_i_2M s) (EndPhysicalPage s / 64)) as [Hl|Hl].
  - assert (free_blocks s = let rest := filter (fun i => all_free8 (Bitmap s) i = true)
              (block_cands (phy_i_2M s + 8) (EndPhysicalPage s / 64)) in
            if all_free8 (Bitmap s) (phy_i_2M s) then phy_i_2M s :: rest else rest) as ->.
    { unfold free_blocks. rewrite (block_cands_cons _ _ Hl), filter_cons. simpl.
      destruct (all_free8 (Bitmap s) (phy_i_2M s)); by case_decide. }
    destruct (all_free8 (Bitmap s) (phy_i_2M s)) eqn:E; cbv zeta.
    + right. exists (phy_i_2M s).
      split_and!; try done; [unfold block_addr, SYSTEM_PAGE_SIZE; word_lia| | |].
      * f_equal. unfold free_blocks. simpl. rewrite (block_cands_cons _ _ Hl).
        rewrite filter_cons_False.
        { apply filter_ext_in. intros j Hj%block_cands_in. by rewrite all_free8_fill by lia. }
        unfold all_free8. rewrite forallb_forall. intros Hall.
        assert (In 0 (seqZ 0 8)) as H0 by (apply list_elem_of_In, elem_of_seqZ; lia).
        specialize (Hall 0 H0).
        unfold fill8 in Hall. rewrite Z.add_0_r, Z.leb_refl in Hall.
        rewrite (proj2 (Z.ltb_lt _ _)) in Hall by lia. done.
      * constructor; simpl; try done; try lia. by apply fill8_words_ok.
      * intros f Hf. apply fill8_used; lia.
    + specialize (IH (set_phy_i_2M (phy_i_2M s + 8) s)). simpl in IH.
      apply IH; [constructor; simpl; try done; lia|lia|lia].
  - left. unfold free_blocks. rewrite block_cands_nil by done. done.
Qed.

Definition in_blocks (bl : list Z) (f : Z) : bool := existsb (fun i => in_block i f) bl.

Lemma memset_block m i x :
  memset m (block_addr i) 0 SYSTEM_PAGE_2M_SIZE x = if in_block i (x / 4096) then 0 else m x.
Proof.
  unfold memset, block_addr, in_block, SYSTEM_PAGE_2M_SIZE.
  replace ((i * 64 * 4096 <=? x) && (x <? i * 64 * 4096 + 2097152))
    with ((64 * i <=? x / 4096) && (x / 4096 <? 64 * i + 512)); [done|]. zcases.
Qed.

Lemma AllocateFrames2M_loop_spec pages s :
  phys_ok s -> 0 < phy_i_2M s ->
  let '(s', fs) := AllocateFrames2M_loop pages s in
  let new := take pages (free_blocks s) in
  fs = block_addr <$> new /\ free_blocks s' = drop pages (free_blocks s) /\ phys_ok s' /\
  (forall g, 0 <= g -> used (Bitmap s') g = used (Bitmap s) g || in_blocks new g) /\
  (forall x, pmem s' x = if in_blocks new (x / 4096) then 0 else pmem s x) /\
  EndPhysicalPage s' = EndPhysicalPage s /\ phy_i s' = phy_i s.
Proof.
  revert s. induction pages as [|pages IH]; intros s Hok Hi.
  { simpl. split_and!; try done. intros. by rewrite orb_false_r. }
  cbn [AllocateFrames2M_loop]. pose proof (scan_2M_spec (scan_fuel_2M s) s Hok Hi) as Hs.
  destruct (AllocateFrames2M_scan (scan_fuel_2M s) s) as [s1 a].
  destruct Hs as [(-> & Hff & Hff1 & Hok1 & Hi1 & Hb & Hm & He & Hp)|
    (i & -> & Hi0 & Hff & Hok1 & Hi1 & Hu & Hm & He & Hp)].
  { pose proof (po_end _ Hok). unfold scan_fuel_2M, BITMAP_BITS.
    rewrite Z.quot_div_nonneg by lia. lia. }
  - rewrite Hff. simpl. split_and!; try done; intros; by rewrite ?Hb, ?Hm, ?orb_false_r.
  - rewrite (proj2 (Z.eqb_neq (block_addr i) 0)) by (unfold block_addr; lia).
    specialize (IH s1 Hok1 Hi1). destruct (AllocateFrames2M_loop pages s1) as [s2 fs].
    destruct IH as (-> & Hff2 & Hok2 & Hu2 & Hm2 & He2 & Hp2). rewrite Hff. simpl.
    split_and!; try done; try congruence.
    + intros g Hg. rewrite Hu2, Hu by done. by rewrite orb_assoc.
    + intros x. rewrite Hm2, Hm, memset_block.
      by destruct (in_block i (x / 4096)), (in_blocks _ (x / 4096)).
Qed.

(** ** Freeing *)

Lemma FreeFrame_spec f pageCount s :
  0 <= f -> 0 < pageCount -> f + pageCount < 2 ^ 31 ->
  let s' := paging_physical_FreeFrame (frame_addr f) pageCount s in
  (forall g, 0 <= g -> used (Bitmap s') g =
     used (Bitmap s) g && negb ((f <=? g) && (g <? f + pageCount))) /\
  pmem s' = pmem s /\ phy_i s' = phy_i s /\ phy_i_2M s' = phy_i_2M s /\
  EndPhysicalPage s' = EndPhysicalPage s.
Proof.
  intros. subst s'. unfold paging_physical_FreeFrame, frame_addr, SYSTEM_PAGE_SIZE.
  rewrite Z.mod_mul by lia. simpl. rewrite Z.div_mul, !i32_small by lia.
  split_and!; try done. intros g Hg. apply BitmapWriteZero_used; lia.
Qed.

(** ** Properties *)

(** [paging_physical_BitmapWriteOne] and [paging_physical_BitmapWriteZero]
    on a non-empty range of pages set, respectively clear, exactly the bits of
    the pages of the range, across word boundaries. *)
Theorem BitmapWrite_correct b begin end_ f :
  0 <= begin < end_ -> 0 <= f ->
  used (paging_physical_BitmapWriteOne b begin end_) f =
    (if (begin <=? f) && (f <? end_) then true else used b f) /\
  used (paging_physical_BitmapWriteZero b begin end_) f =
    (if (begin <=? f) && (f <? end_) then false else used b f).
Proof.
  intros. rewrite BitmapWriteOne_used, BitmapWriteZero_used by done.
  destruct ((begin <=? f) && (f <? end_)); simpl;
    by rewrite ?orb_true_r, ?orb_false_r, ?andb_true_r, ?andb_false_r.
Qed.
Lemma BitmapWrite_correct_witness :
  used (paging_physical_BitmapWriteOne (fun _ => 0) 3 200) 199 = true.
Proof.
  exact (proj1 (BitmapWrite_correct (fun _ => 0) 3 200 199 ltac:(lia) ltac:(lia))).
Defined.

(** C8. [paging_physical_AllocateFrames] hands out the first free pages at or
    after its cursor in increasing order (fewer than asked only when there are
    no more), marks exactly these used, zeroes exactly these, and leaves the
    later free pages for the next call. *)
Theorem AllocateFrames_correct pageCount s :
  phys_ok s ->
  let '(s', fs) := paging_physical_AllocateFrames pageCount s in
  let new := take (Z.to_nat pageCount) (free_frames s) in
  fs = frame_addr <$> new /\
  free_frames s' = drop (Z.to_nat pageCount) (free_frames s) /\ phys_ok s' /\
  (forall g, 0 <= g -> used (Bitmap s') g = used (Bitmap s) g || bool_decide (g ∈ new)) /\
  (forall x, pmem s' x = if decide (in_frames new x) then 0 else pmem s x) /\
  EndPhysicalPage s' = EndPhysicalPage s /\ phy_i_2M s' = phy_i_2M s.
Proof.
  intros Hok. pose proof (AllocateFrames_loop_spec (Z.to_nat pageCount) s Hok) as Hs.
  unfold paging_physical_AllocateFrames.
  destruct (AllocateFrames_loop (Z.to_nat pageCount) s) as [s' fs]. naive_solver.
Qed.

Definition demo_phys : phys := mk_phys (fun i => if i =? 4 then 5 else not64 0) 4 8 512 (fun _ => 7).
Lemma demo_phys_ok : phys_ok demo_phys.
Proof.
  constructor; [|unfold demo_phys, MAX_SYSTEM_MEMORY_PAGES; simpl; lia..].
  intros i. simpl. zcase; [lia|]. apply not64_range.
Qed.
Lemma AllocateFrames_correct_witness :
  snd (paging_physical_AllocateFrames 2 demo_phys) = [257 * 4096; 259 * 4096].
Proof.
  pose proof (AllocateFrames_correct 2 demo_phys demo_phys_ok) as H.
  destruct (paging_physical_AllocateFrames 2 demo_phys) as [s' fs].
  destruct H as [-> _]. by vm_compute.
Defined.

(** [paging_physical_AllocateFrames2M] hands out the first groups of 512
    free pages at or after its cursor, in increasing order, marks exactly their
    pages used and zeroes exactly their bytes; every group was free before, and
    is 2M-aligned when the cursor is. *)
Theorem AllocateFrames2M_correct pageCount s :
  phys_ok s -> 0 < phy_i_2M s ->
  let '(s', fs) := paging_physical_AllocateFrames2M pageCount s in
  let new := take (Z.to_nat pageCount) (free_blocks s) in
  fs = block_addr <$> new /\
  (forall g, 0 <= g -> used (Bitmap s') g = used (Bitmap s) g || in_blocks new g) /\
  (forall g, in_blocks new g = true -> used (Bitmap s) g = false) /\
  (forall x, pmem s' x = if in_blocks new (x / 4096) then 0 else pmem s x) /\
  (phy_i_2M s mod 8 = 0 -> forall a, a ∈ fs -> a mod SYSTEM_PAGE_2M_SIZE = 0).
Proof.
  intros Hok Hi. pose proof (AllocateFrames2M_loop_spec (Z.to_nat pageCount) s Hok Hi) as Hs.
  unfold paging_physical_AllocateFrames2M.
  destruct (AllocateFrames2M_loop (Z.to_nat pageCount) s) as [s' fs].
  destruct Hs as (-> & _ & _ & Hu & Hm & _).
  assert (forall i, i ∈ take (Z.to_nat pageCount) (free_blocks s) ->
            all_free8 (Bitmap s) i = true /\ phy_i_2M s <= i /\ (i - phy_i_2M s) mod 8 = 0) as Hin.
  { intros i Hin. assert (i ∈ free_blocks s) as Hb
      by (eapply elem_of_submseteq; [exact Hin|apply sublist_submseteq, sublist_take]).
    unfold free_blocks in Hb. apply list_elem_of_filter in Hb as [? Hb%block_cands_in].
    split_and!; [done|lia..]. }
  split_and!; try done.
  - unfold in_blocks. intros g (i & Hi'%list_elem_of_In & Hg)%existsb_exists.
    destruct (Hin i Hi') as (Hf & ? & _). apply (all_free8_spec _ i); [lia|done|done].
  - intros Ha a (i & -> & Hi')%list_elem_of_fmap. destruct (Hin i Hi') as (_ & ? & ?).
    unfold block_addr, SYSTEM_PAGE_2M_SIZE. lia.
Qed.
Definition demo_phys_2M : phys := mk_phys (fun i => if i <? 8 then 5 else 0) 4 8 2048 (fun _ => 7).
Lemma AllocateFrames2M_correct_witness :
  snd (paging_physical_AllocateFrames2M 1 demo_phys_2M) = [2097152].
Proof.
  assert (phys_ok demo_phys_2M) as Hok.
  { constructor; [intros i; simpl; zcase; lia|unfold demo_phys_2M, MAX_SYSTEM_MEMORY_PAGES; simpl; lia..]. }
  pose proof (AllocateFrames2M_correct 1 demo_phys_2M Hok ltac:(simpl; lia)) as H.
  destruct (paging_physical_AllocateFrames2M 1 demo_phys_2M) as [s' fs].
  destruct H as [-> _]. by vm_compute.
Defined.

(** [paging_physical_FreeFrame] of a page-aligned address clears exactly the
    bits of the pages given back; a misaligned address changes nothing.  The
    allocation cursors do not move back, so the pages given back below the
    cursor are not among those that can be allocated. *)
Theorem FreeFrame_correct frame pageCount s :
  0 <= frame -> 0 < pageCount -> frame / 4096 + pageCount < 2 ^ 31 ->
  let s' := paging_physical_FreeFrame frame pageCount s in
  (frame mod 4096 <> 0 -> s' = s) /\
  (frame mod 4096 = 0 -> forall g, 0 <= g -> used (Bitmap s') g =
     used (Bitmap s) g && negb ((frame / 4096 <=? g) && (g <? frame / 4096 + pageCount))) /\
  (frame / 4096 + pageCount <= 64 * phy_i s -> 0 <= phy_i s -> free_frames s' = free_frames s).
Proof.
  intros Hf Hp Hl s'. destruct (decide (frame mod 4096 = 0)) as [Ha|Ha].
  - destruct (FreeFrame_spec (frame / 4096) pageCount s) as (Hu & _ & Hi & _ & He); [lia..|].
    replace (frame_addr (frame / 4096)) with frame in * by (unfold frame_addr; lia).
    fold s' in Hu, Hi, He. split; [done|]. split; [intros _; exact Hu|].
    intros Hb Hi0. unfold free_frames, phys_limit. rewrite Hi, He.
    apply filter_ext_in. intros g Hg%elem_of_seqZ. rewrite Hu by lia.
    rewrite (proj2 (Z.ltb_ge g _)) by lia. by rewrite andb_false_r, andb_true_r.
  - assert (s' = s) as ->.
    { unfold s', paging_physical_FreeFrame, SYSTEM_PAGE_SIZE.
      by rewrite (proj2 (Z.eqb_neq _ _)). }
    done.
Qed.
Lemma FreeFrame_correct_witness :
  used (Bitmap (paging_physical_FreeFrame (256 * 4096) 1 demo_phys)) 256 = false.
Proof.
  destruct (FreeFrame_correct (256 * 4096) 1 demo_phys) as (_ & H & _); [lia..|].
  by rewrite H by (reflexivity || lia).
Defined.
