(* ===== verification/Paging.v ===== *)
(** * Page tables (src/memory/paging_map.c, paging_internal.h)

    The four-level page tables live in the identity-mapped memory of the frame
    allocator's state; [PML4Table] is the address of [paging_PML4Table] and
    [SupportExecuteDisable] the flag of paging_init.c.  A failed assertion
    (which panics) is [None].  TLB invalidations have no effect on this state. *)

From S2P Require Import Prelude Mem MinMax Physical.

Definition PML_PRESENT : Z := 1.
Definition PML_WRITEABLE : Z := 2.
Definition PML_PAGE_SIZE : Z := 128.
Definition PML_EXECUTE_DISABLE : Z := 2 ^ 63.
Definition PML_ADDR_MASK : Z := 0xFFFFFFFFFF000.
Definition PML_ADDR_MASK_2M : Z := 0xFFFFFFFE00000.
Definition PML_ADDR_MASK_1G : Z := 0xFFFFFC0000000.

Definition MAP_PROT_EXEC : Z := 1.
Definition MAP_PROT_WRITE : Z := 2.
Definition MAP_PROT_READ : Z := 4.

Definition KERNEL_CODE_VIRTUAL : Z := 0xFFFFFFFFC0000000.
Definition KERNEL_STACK_END_VIRTUAL : Z := KERNEL_CODE_VIRTUAL.
Definition KERNEL_HEAP_VIRTUAL : Z := 0xFFFFFFFF00000000.
Definition KERNEL_FRAMEBUFFER_MAPPING : Z := 0xFFFFFFFEE0000000.
Definition KERNEL_MISC_MAPPING : Z := 0xFFFFFFFEC0000000.
Definition KERNEL_IDT_SIZE : Z := 256 * 16.
Definition KERNEL_GDT_SIZE : Z := 64 * 8.
Definition KERNEL_MISC_SIZE : Z := KERNEL_IDT_SIZE + KERNEL_GDT_SIZE.

(** [1 << (high - low + 1)] is computed on [int]. *)
Definition takeBitfield (v high low : Z) : Z :=
  Z.land (Z.shiftr v low) (u64 (i32 (Z.shiftl 1 (high - low + 1)) - 1)).

(** [while (s < v) s <<= 1]; the result is [None] when the shift overflows to 0
    and the loop does not end. *)
Fixpoint roundUpTo2Exponent_loop (fuel : nat) (s v : Z) : option Z :=
  match fuel with
  | O => None
  | S fuel => if s <? v then roundUpTo2Exponent_loop fuel (u64 (Z.shiftl s 1)) v else Some s
  end.
Definition roundUpTo2Exponent (v : Z) : option Z := roundUpTo2Exponent_loop 65 1 v.

Definition roundUpToPageCount (size : Z) : Z :=
  i32 (if size mod SYSTEM_PAGE_SIZE =? 0 then size / SYSTEM_PAGE_SIZE else size / SYSTEM_PAGE_SIZE + 1).
Definition roundUpToPageCount2M (size : Z) : Z :=
  i32 (if size mod SYSTEM_PAGE_2M_SIZE =? 0 then size / SYSTEM_PAGE_2M_SIZE else size / SYSTEM_PAGE_2M_SIZE + 1).
Definition roundUpToPageCount1G (size : Z) : Z :=
  i32 (if size mod SYSTEM_PAGE_1G_SIZE =? 0 then size / SYSTEM_PAGE_1G_SIZE else size / SYSTEM_PAGE_1G_SIZE + 1).

Definition HELOS_BUFFER_SIZE : Z := 16384.

Section Paging.
Variable PML4Table : Z.
Variable SupportExecuteDisable : bool.
Implicit Types s : phys.

(** [table[i]] for a [uint64_t *table]. *)
Definition entry s (table i : Z) : Z := load64 (pmem s) (table + 8 * i).
Definition set_entry (table i v : Z) s : phys := set_pmem (store64 (pmem s) (table + 8 * i) v) s.
Definition has (e flag : Z) : bool := negb (Z.land e flag =? 0).

(** [if ((table[i] & PML_PRESENT) == 0) table[i] = AllocateOneFrame() | ...;
    table = table[i] & PML_ADDR_MASK] *)
Definition next_table s (table i : Z) : phys * Z :=
  let s := if has (entry s table i) PML_PRESENT then s
           else let '(s, f) := paging_physical_AllocateOneFrame s in
                set_entry table i (Z.lor (Z.lor f PML_PRESENT) PML_WRITEABLE) s in
  (s, Z.land (entry s table i) PML_ADDR_MASK).

Definition prot_bits (protectionFlags : Z) : Z :=
  Z.lor (if has protectionFlags MAP_PROT_WRITE then PML_WRITEABLE else 0)
        (if SupportExecuteDisable && negb (has protectionFlags MAP_PROT_EXEC)
         then PML_EXECUTE_DISABLE else 0).

(** One round of the loop of [paging_map_Page]. *)
Definition map_one_Page (physical virt protectionFlags : Z) s : phys :=
  let '(s, table) := next_table s PML4Table (takeBitfield virt 47 39) in
  let '(s, table) := next_table s table (takeBitfield virt 38 30) in
  let '(s, table) := next_table s table (takeBitfield virt 29 21) in
  set_entry table (takeBitfield virt 20 12)
    (Z.lor (Z.lor physical PML_PRESENT) (prot_bits protectionFlags)) s.
Fixpoint map_Pages (n : nat) (physical virt protectionFlags : Z) s : phys :=
  match n with
  | O => s
  | S n => map_Pages n (u64 (physical + SYSTEM_PAGE_SIZE)) (u64 (virt + SYSTEM_PAGE_SIZE))
             protectionFlags (map_one_Page physical virt protectionFlags s)
  end.
Definition paging_map_Page (physical virt pageCount protectionFlags : Z) s : option phys :=
  if (physical mod SYSTEM_PAGE_SIZE =? 0) && (virt mod SYSTEM_PAGE_SIZE =? 0)
  then Some (map_Pages (Z.to_nat pageCount) physical virt protectionFlags s) else None.

(** [if present and not a page: FreeFrame] before a large page is written. *)
Definition free_old_table s (table i : Z) : phys :=
  let e := entry s table i in
  if has e PML_PRESENT && negb (has e PML_PAGE_SIZE)
  then paging_physical_FreeFrame (Z.land e PML_ADDR_MASK) 1 s else s.

Definition map_one_Page2M (physical virt protectionFlags : Z) s : phys :=
  let '(s, table) := next_table s PML4Table (takeBitfield virt 47 39) in
  let '(s, table) := next_table s table (takeBitfield virt 38 30) in
  let i := takeBitfield virt 29 21 in
  set_entry table i
    (Z.lor (Z.lor (Z.lor physical PML_PRESENT) PML_PAGE_SIZE) (prot_bits protectionFlags))
    (free_old_table s table i).
Fixpoint map_Pages2M (n : nat) (physical virt protectionFlags : Z) s : phys :=
  match n with
  | O => s
  | S n => map_Pages2M n (u64 (physical + SYSTEM_PAGE_2M_SIZE)) (u64 (virt + SYSTEM_PAGE_2M_SIZE))
             protectionFlags (map_one_Page2M physical virt protectionFlags s)
  end.
Definition paging_map_Page2M (physical virt pageCount protectionFlags : Z) s : option phys :=
  if (physical mod SYSTEM_PAGE_2M_SIZE =? 0) && (virt mod SYSTEM_PAGE_2M_SIZE =? 0)
  then Some (map_Pages2M (Z.to_nat pageCount) physical virt protectionFlags s) else None.

Definition map_one_Page1G (physical virt protectionFlags : Z) s : phys :=
  let '(s, table) := next_table s PML4Table (takeBitfield virt 47 39) in
  let i := takeBitfield virt 38 30 in
  set_entry table i
    (Z.lor (Z.lor (Z.lor physical PML_PRESENT) PML_PAGE_SIZE) (prot_bits protectionFlags))
    (free_old_table s table i).
Fixpoint map_Pages1G (n : nat) (physical virt protectionFlags : Z) s : phys :=
  match n with
  | O => s
  | S n => map_Pages1G n (u64 (physical + SYSTEM_PAGE_1G_SIZE)) (u64 (virt + SYSTEM_PAGE_1G_SIZE))
             protectionFlags (map_one_Page1G physical virt protectionFlags s)
  end.
Definition paging_map_Page1G (physical virt pageCount protectionFlags : Z) s : option phys :=
  if (physical mod SYSTEM_PAGE_1G_SIZE =? 0) && (virt mod SYSTEM_PAGE_1G_SIZE =? 0)
  then Some (map_Pages1G (Z.to_nat pageCount) physical virt protectionFlags s) else None.

(** [for (i < allocated) { paging_map_Page(buf[i], virtual, 1, flags); virtual += 4096 }] *)
Fixpoint map_frames (frames : list Z) (virt protectionFlags : Z) s : option phys :=
  match frames with
  | [] => Some s
  | f :: frames =>
      s ← paging_map_Page f virt 1 protectionFlags s;
      map_frames frames (u64 (virt + SYSTEM_PAGE_SIZE)) protectionFlags s
  end.
(** [while (pageCount > 0)]: [fuel] bounds the rounds. *)
Fixpoint PageAllocated_loop (fuel : nat) (virt pageCount protectionFlags : Z) s : option phys :=
  match fuel with
  | O => None
  | S fuel =>
      if pageCount >? 0 then
        let bufSize := HELOS_BUFFER_SIZE / 8 in
        let '(s, buf) := paging_physical_AllocateFrames (intmin pageCount bufSize) s in
        let allocated := Z.of_nat (length buf) in
        s ← map_frames buf virt protectionFlags s;
        PageAllocated_loop fuel (u64 (virt + SYSTEM_PAGE_SIZE * allocated))
          (pageCount - allocated) protectionFlags s
      else Some s
  end.
Definition paging_map_PageAllocated (fuel : nat) (virt pageCount protectionFlags : Z) s : option phys :=
  if virt mod SYSTEM_PAGE_SIZE =? 0 then PageAllocated_loop fuel virt pageCount protectionFlags s
  else None.

(** In the 2M variant the loop body maps every frame at the same [virtual],
    which only moves after the loop. *)
Fixpoint map_frames2M (frames : list Z) (virt protectionFlags : Z) s : option phys :=
  match frames with
  | [] => Some s
  | f :: frames =>
      s ← paging_map_Page2M f virt 1 protectionFlags s;
      map_frames2M frames virt protectionFlags s
  end.
Fixpoint PageAllocated2M_loop (fuel : nat) (virt pageCount protectionFlags : Z) s : option phys :=
  match fuel with
  | O => None
  | S fuel =>
      if pageCount >? 0 then
        let bufSize := HELOS_BUFFER_SIZE / 8 in
        let '(s, buf) := paging_physical_AllocateFrames2M (intmin pageCount bufSize) s in
        let allocated := Z.of_nat (length buf) in
        s ← map_frames2M buf virt protectionFlags s;
        PageAllocated2M_loop fuel (u64 (virt + SYSTEM_PAGE_2M_SIZE * allocated))
          (pageCount - allocated) protectionFlags s
      else Some s
  end.
Definition paging_map_PageAllocated2M (fuel : nat) (virt pageCount protectionFlags : Z) s : option phys :=
  if virt mod SYSTEM_PAGE_2M_SIZE =? 0 then PageAllocated2M_loop fuel virt pageCount protectionFlags s
  else None.

(** One round of the loop of [paging_map_FreeAllocated]: the new state and
    address. *)
Definition free_one (virt : Z) s : phys * Z :=
  let next := u64 (virt + SYSTEM_PAGE_SIZE) in
  let i := takeBitfield virt 47 39 in
  if negb (has (entry s PML4Table i) PML_PRESENT) then (s, next) else
  let table := Z.land (entry s PML4Table i) PML_ADDR_MASK in
  let i := takeBitfield virt 38 30 in
  if negb (has (entry s table i) PML_PRESENT) then (s, next) else
  if has (entry s table i) PML_PAGE_SIZE then
    (set_entry table i 0
       (paging_physical_FreeFrame (Z.land (entry s table i) PML_ADDR_MASK_1G) (512 * 512) s),
     u64 (virt + SYSTEM_PAGE_1G_SIZE)) else
  let table := Z.land (entry s table i) PML_ADDR_MASK in
  let i := takeBitfield virt 29 21 in
  if negb (has (entry s table i) PML_PRESENT) then (s, next) else
  if has (entry s table i) PML_PAGE_SIZE then
    (set_entry table i 0
       (paging_physical_FreeFrame (Z.land (entry s table i) PML_ADDR_MASK_2M) 512 s),
     u64 (virt + SYSTEM_PAGE_2M_SIZE)) else
  let table := Z.land (entry s table i) PML_ADDR_MASK in
  let i := takeBitfield virt 20 12 in
  (if has (entry s table i) PML_PRESENT then
     set_entry table i 0 (paging_physical_FreeFrame (Z.land (entry s table i) PML_ADDR_MASK) 1 s)
   else s, next).
Fixpoint FreeAllocated_loop (fuel : nat) (virt end_ : Z) s : option phys :=
  match fuel with
  | O => None
  | S fuel => if virt <? end_ then let '(s, virt) := free_one virt s in
                                   FreeAllocated_loop fuel virt end_ s
              else Some s
  end.
Definition paging_map_FreeAllocated (virt end_ : Z) s : option phys :=
  if virt mod SYSTEM_PAGE_SIZE =? 0
  then FreeAllocated_loop (S (Z.to_nat ((end_ - virt + 4095) / 4096))) virt end_ s else None.
End Paging.

(** The pages that [size] bytes take. *)
Lemma roundUpToPageCount_spec size :
  0 <= size -> size / 4096 < 2147483647 ->
  roundUpToPageCount size = (size + 4095) / 4096.
Proof.
  intros. unfold roundUpToPageCount, SYSTEM_PAGE_SIZE. zcase; rewrite i32_small by lia; lia.
Qed.
