(* ===== verification/PageTable.v ===== *)
(** * Page tables: the invariant and the effect of one table step

    What the processor does with the tables ([translate]), the shape the kernel
    keeps them in ([pt_ok]: tables are pairwise distinct used frames) and the
    effect of reading or creating one level ([next_table]). *)

From S2P Require Import Prelude Mem Physical Paging.

(** ** Bits of entries *)

Lemma has_testbit e k : 0 <= k -> has e (2 ^ k) = Z.testbit e k.
Proof.
  intros. unfold has. rewrite <- Z.shiftl_1_l, land_bit by done. by rewrite negb_involutive.
Qed.
Lemma has_present e : has e PML_PRESENT = Z.testbit e 0.
Proof. by apply (has_testbit e 0). Qed.
Lemma has_page_size e : has e PML_PAGE_SIZE = Z.testbit e 7.
Proof. by apply (has_testbit e 7). Qed.

Lemma takeBitfield_9 v l : 0 <= l -> takeBitfield v (l + 8) l = (v / 2 ^ l) mod 512.
Proof.
  intros. unfold takeBitfield. replace (l + 8 - l + 1) with 9 by lia.
  change (u64 (i32 (Z.shiftl 1 9) - 1)) with (Z.ones 9).
  by rewrite Z.land_ones, Z.shiftr_div_pow2 by lia.
Qed.

Lemma addr_mask q : 0 <= q < 2 ^ 40 -> Z.land (q * 4096) PML_ADDR_MASK = q * 4096.
Proof.
  intros Hq. change PML_ADDR_MASK with (Z.ones 40 * 2 ^ 12). change 4096 with (2 ^ 12).
  rewrite <- !Z.shiftl_mul_pow2, <- Z.shiftl_land, Z.land_ones by lia.
  by rewrite Z.mod_small.
Qed.
Lemma frame_bit q k : 0 <= k < 12 -> Z.testbit (q * 4096) k = false.
Proof. intros. change 4096 with (2 ^ 12). apply Z.mul_pow2_bits_low; lia. Qed.
Lemma frame_bit_high q k : 0 <= q < 2 ^ 40 -> 52 <= k -> Z.testbit (q * 4096) k = false.
Proof.
  intros. change 4096 with (2 ^ 12). rewrite Z.mul_pow2_bits by lia.
  destruct (Z.eq_dec q 0) as [->|]; [apply Z.bits_0|].
  apply Z.bits_above_log2; [lia|]. assert (Z.log2 q < 40) by (apply Z.log2_lt_pow2; lia). lia.
Qed.

(** ** What the processor does *)

Section Hardware.
Variable PML4Table : Z.

Definition level_mask (k : nat) : Z :=
  match k with O => PML_ADDR_MASK | S O => PML_ADDR_MASK_2M | _ => PML_ADDR_MASK_1G end.
(** The walk with [k] levels below table [t]; a page-size bit in the top table
    is reserved and faults. *)
Fixpoint hw_walk (k : nat) (s : phys) (t v : Z) : option Z :=
  let shift := 12 + 9 * Z.of_nat k in
  let e := entry s t ((v / 2 ^ shift) mod 512) in
  if has e PML_PRESENT then
    match k with
    | O => Some (Z.land e (level_mask O) + v mod 2 ^ shift)
    | S k' =>
        if has e PML_PAGE_SIZE then
          if decide (k = 3%nat) then None
          else Some (Z.land e (level_mask k) + v mod 2 ^ shift)
        else hw_walk k' s (Z.land e PML_ADDR_MASK) v
    end
  else None.
(** The physical address of a virtual one, [None] on a page fault. *)
Definition translate (s : phys) (v : Z) : option Z := hw_walk 3 s PML4Table v.

(** ** Tables by level and index prefix *)

Definition vpn (v : Z) : Z := (v / 4096) mod 2 ^ 36.

Definition is_table (e : Z) : bool := has e PML_PRESENT && negb (has e PML_PAGE_SIZE).
(** The table at depth [d] for the [9 d] leading bits [p] of the page number. *)
Fixpoint walk (d : nat) (s : phys) (p : Z) : option Z :=
  match d with
  | O => Some PML4Table
  | S d =>
      t ← walk d s (p / 512);
      let e := entry s t (p mod 512) in
      if is_table e then Some (Z.land e PML_ADDR_MASK) else None
  end.
(** The entry for the prefix [p] at depth [d], when it maps a page. *)
Definition leaf (d : nat) (s : phys) (p : Z) : option Z :=
  t ← walk d s (p / 512);
  let e := entry s t (p mod 512) in
  if has e PML_PRESENT && ((d =? 3)%nat || has e PML_PAGE_SIZE) then Some e else None.

Record pt_ok (s : phys) : Prop := {
  pt_used : forall d p t, (d <= 3)%nat -> 0 <= p < 512 ^ Z.of_nat d -> walk d s p = Some t ->
    exists f, t = frame_addr f /\ 0 <= f /\ used (Bitmap s) f = true;
  pt_inj : forall d p d' p' t, (d <= 3)%nat -> (d' <= 3)%nat ->
    0 <= p < 512 ^ Z.of_nat d -> 0 <= p' < 512 ^ Z.of_nat d' ->
    walk d s p = Some t -> walk d' s p' = Some t -> d = d' /\ p = p';
}.

(** ** Entries and memory *)

Lemma entry_same s s' f i :
  0 <= i < 512 -> (forall x, x / 4096 = f -> pmem s' x = pmem s x) ->
  entry s' (frame_addr f) i = entry s (frame_addr f) i.
Proof.
  intros Hi Hm. unfold entry. apply load_ext. intros x Hx. apply Hm.
  unfold frame_addr in Hx. simpl in Hx. lia.
Qed.
Lemma entry_set_ne s f g i j v :
  0 <= i < 512 -> 0 <= j < 512 -> (f <> g \/ i <> j) ->
  entry (set_entry (frame_addr g) j v s) (frame_addr f) i = entry s (frame_addr f) i.
Proof.
  intros. unfold entry, set_entry, frame_addr. simpl. apply load_store_ne. simpl. lia.
Qed.
Lemma entry_set_eq s t i v : 0 <= v < 2 ^ 64 -> entry (set_entry t i v s) t i = v.
Proof.
  intros. unfold entry, set_entry, load64, store64.
  cbn [pmem set_pmem].
  rewrite load_store_eq. change (256 ^ Z.of_nat 8) with (2 ^ 64). by rewrite Z.mod_small.
Qed.
Lemma entry_range s t i : 0 <= entry s t i < 2 ^ 64.
Proof. unfold entry, load64. pose proof (load_range 8 (pmem s) (t + 8 * i)) as H. exact H. Qed.

Lemma walk_S d s p :
  walk (S d) s p = (t ← walk d s (p / 512);
                    if is_table (entry s t (p mod 512))
                    then Some (Z.land (entry s t (p mod 512)) PML_ADDR_MASK) else None).
Proof. done. Qed.
Lemma prefix_range d p : 0 <= p < 512 ^ Z.of_nat (S d) -> 0 <= p / 512 < 512 ^ Z.of_nat d.
Proof. rewrite Nat2Z.inj_succ, Z.pow_succ_r by lia. intros. split; [lia|]. apply Z.div_lt_upper_bound; lia. Qed.

(** Changing an entry of a last-level table changes no walk. *)
Lemma walk_set_last s p0 f i v d p :
  pt_ok s -> 0 <= p0 < 512 ^ 3 -> walk 3 s p0 = Some (frame_addr f) -> 0 <= i < 512 ->
  (d <= 3)%nat -> 0 <= p < 512 ^ Z.of_nat d ->
  walk d (set_entry (frame_addr f) i v s) p = walk d s p.
Proof.
  intros Hok Hp0 Hw Hi. revert p. induction d as [|d IH]; intros p Hd Hp; [done|].
  pose proof (prefix_range _ _ Hp). rewrite !walk_S, IH by lia.
  destruct (walk d s (p / 512)) as [t|] eqn:Et; [|done]. simpl.
  destruct (pt_used _ Hok d _ _ ltac:(lia) ltac:(eassumption) Et) as (g & -> & _).
  rewrite entry_set_ne; [done|lia|lia|]. left. intros ->.
  destruct (pt_inj _ Hok d (p / 512) 3 p0 _ ltac:(lia) ltac:(lia) ltac:(lia) Hp0 Et Hw); lia.
Qed.

(** Linking a fresh zeroed frame under an absent entry adds exactly one table. *)
Section NewTable.
Context (s s1 s' : phys) (d0 : nat) (p0 f g j : Z).
Hypothesis Hok : pt_ok s.
Hypothesis Hd0 : (d0 < 3)%nat.
Hypothesis Hp0 : 0 <= p0 < 512 ^ Z.of_nat d0.
Hypothesis Hw0 : walk d0 s p0 = Some (frame_addr f).
Hypothesis Hj : 0 <= j < 512.
Hypothesis Habs : has (entry s (frame_addr f) j) PML_PRESENT = false.
Hypothesis Hg : 0 <= g < 2 ^ 40.
Hypothesis Hfree : used (Bitmap s) g = false.
Hypothesis Hused1 : forall x, 0 <= x -> used (Bitmap s1) x = used (Bitmap s) x || (x =? g).
Hypothesis Hmem1 : forall x, pmem s1 x = if decide (x / 4096 = g) then 0 else pmem s x.
Hypothesis Hs' : s' = set_entry (frame_addr f) j (Z.lor (Z.lor (frame_addr g) PML_PRESENT) PML_WRITEABLE) s1.

Let new_entry : Z := Z.lor (Z.lor (frame_addr g) PML_PRESENT) PML_WRITEABLE.

Lemma new_entry_range : 0 <= new_entry < 2 ^ 64.
Proof.
  apply range_testbit.
  - unfold new_entry, frame_addr, PML_PRESENT, PML_WRITEABLE. rewrite !Z.lor_nonneg. lia.
  - intros i Hi. unfold new_entry, frame_addr. rewrite !Z.lor_spec, frame_bit_high by lia.
    unfold PML_PRESENT, PML_WRITEABLE. by rewrite !Z.bits_above_log2 by (simpl; lia).
Qed.
Lemma new_entry_table : is_table new_entry = true.
Proof.
  unfold is_table. rewrite has_present, has_page_size. unfold new_entry, frame_addr.
  by rewrite !Z.lor_spec, !frame_bit by lia.
Qed.
Lemma new_entry_addr : Z.land new_entry PML_ADDR_MASK = frame_addr g.
Proof.
  unfold new_entry, frame_addr. rewrite !Z.land_lor_distr_l, addr_mask by done.
  by rewrite !Z.lor_0_r.
Qed.

Lemma table_ne d p h : (d <= 3)%nat -> 0 <= p < 512 ^ Z.of_nat d -> walk d s p = Some (frame_addr h) -> h <> g.
Proof.
  intros Hd Hp Hw ->. destruct (pt_used _ Hok d p _ Hd Hp Hw) as (h & Hh & _ & Hu).
  unfold frame_addr in Hh. assert (h = g) as -> by lia. congruence.
Qed.
(** Entries of old tables other than the linked one. *)
Lemma old_entry d p h i :
  (d <= 3)%nat -> 0 <= p < 512 ^ Z.of_nat d ->
  walk d s p = Some (frame_addr h) -> 0 <= i < 512 -> h <> f \/ i <> j ->
  entry s' (frame_addr h) i = entry s (frame_addr h) i.
Proof.
  intros Hd Hp Hw Hi Hne. subst s'. rewrite entry_set_ne by (done || lia).
  apply entry_same; [done|]. intros x <-. rewrite Hmem1.
  rewrite decide_False; [done|]. by eapply table_ne.
Qed.
Lemma linked_entry : entry s' (frame_addr f) j = new_entry.
Proof. subst s'. apply entry_set_eq. apply new_entry_range. Qed.
(** Entries of the new table. *)
Lemma fresh_entry i : 0 <= i < 512 -> entry s' (frame_addr g) i = 0.
Proof.
  intros Hi. subst s'. rewrite entry_set_ne; [|done..|].
  - unfold entry, load64. rewrite (load_ext 8 (fun _ => 0)); [by vm_compute|].
    intros x Hx. rewrite Hmem1, decide_True; [done|]. unfold frame_addr in Hx. simpl in Hx. lia.
  - left. intros E. apply (table_ne d0 p0 f); [lia|done|done|done].
Qed.

Definition new_prefix : Z := p0 * 512 + j.

Lemma walk_new d p :
  (d <= 3)%nat -> 0 <= p < 512 ^ Z.of_nat d ->
  walk d s' p = if decide (d = S d0 /\ p = new_prefix) then Some (frame_addr g) else walk d s p.
Proof.
  unfold new_prefix. revert p. induction d as [|d IH]; intros p Hd Hp.
  { by rewrite decide_False by lia. }
  pose proof (prefix_range _ _ Hp). rewrite !walk_S, IH by lia.
  destruct (decide (d = S d0 /\ p / 512 = p0 * 512 + j)) as [[-> Hpp]|Hn];
    cbn [mbind option_bind].
  - rewrite decide_False by lia. rewrite fresh_entry by lia.
    replace (is_table 0) with false by done. rewrite walk_S, Hpp.
    replace ((p0 * 512 + j) / 512) with p0 by lia.
    replace ((p0 * 512 + j) mod 512) with j by lia. rewrite Hw0. simpl.
    unfold is_table. by rewrite Habs.
  - destruct (walk d s (p / 512)) as [t|] eqn:Et; simpl.
    + destruct (pt_used _ Hok d _ _ ltac:(lia) ltac:(eassumption) Et) as (h & -> & _).
      destruct (decide (S d = S d0 /\ p = p0 * 512 + j)) as [[Hdd Hpp]|Hn'].
      * assert (d = d0) as -> by lia. subst p.
        replace ((p0 * 512 + j) / 512) with p0 in * by lia.
        replace ((p0 * 512 + j) mod 512) with j by lia.
        rewrite Hw0 in Et. injection Et as Et. unfold frame_addr in Et.
        assert (h = f) as -> by lia. by rewrite linked_entry, new_entry_table, new_entry_addr.
      * rewrite (old_entry d (p / 512)); [done|lia|done|done|lia|].
        destruct (decide (h = f)) as [->|]; [right|by left]. intros <-.
        destruct (pt_inj _ Hok d (p / 512) d0 p0 _ ltac:(lia) ltac:(lia) ltac:(lia) Hp0 Et Hw0).
        lia.
    + rewrite decide_False; [done|]. intros [Hdd ->]. assert (d = d0) as -> by lia.
      replace ((p0 * 512 + j) / 512) with p0 in Et by lia. congruence.
Qed.

Lemma new_pt_ok : pt_ok s'.
Proof.
  assert (Bitmap s' = Bitmap s1) as Hb by (by subst s').
  constructor.
  - intros d p t Hd Hp Hw. rewrite Hb. rewrite walk_new in Hw by done.
    case_decide.
    + injection Hw as <-. exists g. split_and!; [done|lia|].
      rewrite Hused1 by lia. by rewrite Z.eqb_refl, orb_true_r.
    + destruct (pt_used _ Hok d p t Hd Hp Hw) as (h & -> & ? & Hu). exists h.
      split_and!; [done|done|]. rewrite Hused1 by done. by rewrite Hu.
  - intros d p d' p' t Hd Hd' Hp Hp' Hw Hw'. rewrite walk_new in Hw, Hw' by done.
    repeat case_decide; simplify_eq.
    + naive_solver.
    + exfalso. by apply (table_ne d p g).
    + exfalso. by apply (table_ne d' p' g).
    + by apply (pt_inj _ Hok d p d' p' t).
Qed.
Lemma new_leaf d p : (d <= 3)%nat -> 0 <= p < 512 ^ Z.of_nat (S d) -> leaf d s' p = leaf d s p.
Proof.
  intros Hd Hp. pose proof (prefix_range _ _ Hp). unfold leaf. rewrite walk_new by done.
  unfold new_prefix. destruct (decide (d = S d0 /\ p / 512 = p0 * 512 + j)) as [[-> Hpp]|Hn].
  - rewrite walk_S, Hpp.
    replace ((p0 * 512 + j) / 512) with p0 by lia.
    replace ((p0 * 512 + j) mod 512) with j by lia. rewrite Hw0.
    cbn [mbind option_bind]. unfold is_table. rewrite Habs. cbn [andb mbind option_bind].
    rewrite fresh_entry by lia. done.
  - destruct (walk d s (p / 512)) as [t|] eqn:Et; [|done]. cbn [mbind option_bind].
    destruct (pt_used _ Hok d _ _ ltac:(lia) ltac:(eassumption) Et) as (h & -> & _).
    destruct (decide (h = f /\ p mod 512 = j)) as [[-> Hpj]|Hne].
    + destruct (pt_inj _ Hok d (p / 512) d0 p0 _ ltac:(lia) ltac:(lia) ltac:(lia) Hp0 Et Hw0) as [-> _].
      rewrite Hpj, linked_entry, Habs. simpl.
      pose proof new_entry_table as Ht. unfold is_table in Ht. apply andb_prop in Ht as [-> Hps].
      apply negb_true_iff in Hps as ->. rewrite (proj2 (Nat.eqb_neq d0 3)) by lia. done.
    + rewrite (old_entry d (p / 512)); [done|lia|done|done|lia|].
      destruct (decide (h = f)); [right; naive_solver|by left].
Qed.
End NewTable.

(** One level of the walk of the mapping functions: the next table exists
    afterwards, whether it was there or had to be created. *)
Record same_map (s s' : phys) : Prop := {
  sm_leaf : forall d p, (d <= 3)%nat -> 0 <= p < 512 ^ Z.of_nat (S d) -> leaf d s' p = leaf d s p;
  sm_used : forall x, 0 <= x -> used (Bitmap s) x = true -> used (Bitmap s') x = true;
  sm_end : EndPhysicalPage s' = EndPhysicalPage s;
}.
#[export] Instance same_map_refl : Reflexive same_map.
Proof. done. Qed.
#[export] Instance same_map_trans : Transitive same_map.
Proof.
  intros s1 s2 s3 [H1 H2 H3] [H4 H5 H6]. constructor; [|auto|congruence].
  intros. rewrite H4 by done. by apply H1.
Qed.

(** Pages in use that hold no table keep their contents and hold no table. *)
Definition is_tab (s : phys) (g : Z) : Prop :=
  exists d p, (d <= 3)%nat /\ 0 <= p < 512 ^ Z.of_nat d /\ walk d s p = Some (frame_addr g).
Definition data_ok (s s' : phys) : Prop :=
  forall g, 0 <= g -> used (Bitmap s) g = true -> ~ is_tab s g ->
    used (Bitmap s') g = true /\ ~ is_tab s' g /\ (forall x, x / 4096 = g -> pmem s' x = pmem s x).
#[export] Instance data_ok_refl : Reflexive data_ok.
Proof. done. Qed.
#[export] Instance data_ok_trans : Transitive data_ok.
Proof.
  intros s1 s2 s3 H12 H23 g Hg Hu Ht. destruct (H12 g Hg Hu Ht) as (Hu2 & Ht2 & Hm2).
  destruct (H23 g Hg Hu2 Ht2) as (Hu3 & Ht3 & Hm3). split_and!; [done|done|].
  intros x Hx. by rewrite Hm3, Hm2.
Qed.
Lemma set_entry_outside f i v s x :
  0 <= i < 512 -> x / 4096 <> f -> pmem (set_entry (frame_addr f) i v s) x = pmem s x.
Proof.
  intros. unfold set_entry, store64, frame_addr. cbn [pmem set_pmem].
  apply store_outside. simpl. lia.
Qed.

Lemma next_table_spec s d0 p0 f j :
  pt_ok s -> phys_ok s -> (d0 < 3)%nat -> 0 <= p0 < 512 ^ Z.of_nat d0 ->
  walk d0 s p0 = Some (frame_addr f) -> 0 <= j < 512 -> (0 < length (free_frames s))%nat ->
  leaf d0 s (p0 * 512 + j) = None ->
  exists s' g, next_table s (frame_addr f) j = (s', frame_addr g) /\
    walk (S d0) s' (p0 * 512 + j) = Some (frame_addr g) /\
    pt_ok s' /\ phys_ok s' /\ same_map s s' /\ data_ok s s' /\
    (length (free_frames s) <= S (length (free_frames s')))%nat /\
    (forall d p, (d <= 3)%nat -> 0 <= p < 512 ^ Z.of_nat d -> d <> S d0 \/ p <> p0 * 512 + j -> walk d s' p = walk d s p).
Proof.
  intros Hok Hpo Hd0 Hp0 Hw Hj Hfr Hleaf.
  assert ((p0 * 512 + j) / 512 = p0) as Hdiv by lia.
  assert ((p0 * 512 + j) mod 512 = j) as Hmod by lia.
  assert (0 <= p0 * 512 + j < 512 ^ Z.of_nat (S d0)) as Hpr
    by (rewrite Nat2Z.inj_succ, Z.pow_succ_r by lia; lia).
  unfold next_table. destruct (has (entry s (frame_addr f) j) PML_PRESENT) eqn:Hpres.
  - assert (walk (S d0) s (p0 * 512 + j) = Some (Z.land (entry s (frame_addr f) j) PML_ADDR_MASK)) as HwS.
    { rewrite walk_S, Hdiv, Hmod, Hw. cbn [mbind option_bind].
      unfold leaf in Hleaf. rewrite Hdiv, Hmod, Hw in Hleaf. cbn [mbind option_bind] in Hleaf.
      rewrite Hpres in Hleaf. rewrite (proj2 (Nat.eqb_neq d0 3)) in Hleaf by lia. simpl in Hleaf.
      unfold is_table. rewrite Hpres. by destruct (has _ PML_PAGE_SIZE). }
    destruct (pt_used _ Hok (S d0) _ _ ltac:(lia) Hpr HwS) as (g & Hg & _). rewrite Hg in *.
    exists s, g. split_and!; try done. lia.
  - destruct (free_frames s) as [|g fs] eqn:Hff; [simpl in Hfr; lia|].
    assert (g ∈ free_frames s) as Hin by (rewrite Hff; set_solver).
    apply free_frames_in in Hin as [Hgr Hgu].
    pose proof (po_end _ Hpo) as He. unfold MAX_SYSTEM_MEMORY_PAGES in He.
    pose proof (po_i _ Hpo). unfold phys_limit in Hgr.
    destruct (AllocateOneFrame_spec s g fs Hpo Hff) as (s1 & -> & Hpo1 & Hff1 & Hu1 & Hm1 & He1 & _).
    set (s' := set_entry _ _ _ s1).
    assert (0 <= g < 2 ^ 40) as Hg by lia.
    pose proof (walk_new s s1 s' d0 p0 f g j Hok Hd0 Hp0 Hw Hj Hpres Hg Hgu Hm1 eq_refl) as Hwn.
    exists s', g. split_and!.
    + f_equal. unfold s'. rewrite entry_set_eq by (eapply new_entry_range; eassumption).
      eapply new_entry_addr; eassumption.
    + rewrite Hwn by (lia || done). by rewrite decide_True.
    + by eapply (new_pt_ok s s1 s' d0 p0 f g j).
    + constructor; apply Hpo1.
    + constructor; [|intros x ? Hx; unfold s'; simpl; rewrite Hu1, Hx by done; done|done].
      intros. by eapply (new_leaf s s1 s' d0 p0 f g j).
    + intros h Hh Hhu Hht. assert (h <> g) by congruence. split_and!.
      * change (Bitmap s') with (Bitmap s1). by rewrite Hu1, Hhu by done.
      * intros (d & p & Hd & Hp & Hwp). apply Hht. rewrite Hwn in Hwp by done.
        case_decide; [|by exists d, p]. injection Hwp as Hgh. unfold frame_addr in Hgh. lia.
      * intros x Hx. unfold s'. rewrite set_entry_outside; [|done|].
        { rewrite Hm1, decide_False by congruence. done. }
        intros Hxf. apply Hht. exists d0, p0. split_and!; [lia|lia..|]. congruence.
    + change (free_frames s') with (free_frames s1). rewrite Hff1. simpl. lia.
    + intros d p Hd Hp Hne. rewrite Hwn by done. by rewrite decide_False by (intros [-> ->]; by destruct Hne).
Qed.

(** ** Mapping one page *)

Definition page_entry (nx : bool) (physical protectionFlags : Z) : Z :=
  Z.lor (Z.lor physical PML_PRESENT) (prot_bits nx protectionFlags).

Lemma prot_bits_cases nx fl :
  prot_bits nx fl = 0 \/ prot_bits nx fl = 2 \/ prot_bits nx fl = 2 ^ 63 \/ prot_bits nx fl = 2 ^ 63 + 2.
Proof.
  unfold prot_bits. destruct (has fl MAP_PROT_WRITE), (nx && negb (has fl MAP_PROT_EXEC)); vm_compute; auto.
Qed.
Lemma page_entry_bit nx q fl k :
  0 <= q < 2 ^ 40 -> 0 <= k -> k <> 1 -> k <> 63 ->
  Z.testbit (page_entry nx (frame_addr q) fl) k = Z.testbit (q * 4096) k || (k =? 0).
Proof.
  intros Hq Hk Hk1 Hk63. unfold page_entry, frame_addr. rewrite !Z.lor_spec, <- orb_assoc. f_equal.
  change PML_PRESENT with (2 ^ 0). rewrite Z.pow2_bits_eqb by lia.
  replace (0 =? k) with (k =? 0) by lia.
  assert (Z.testbit (prot_bits nx fl) k = false) as ->; [|by rewrite orb_false_r].
  change (2 ^ 63 + 2) with (Z.lor (2 ^ 63) (2 ^ 1)) in *.
  destruct (prot_bits_cases nx fl) as [->|[->|[->| ->]]]; [apply Z.bits_0|..].
  - change 2 with (2 ^ 1). apply Z.pow2_bits_false. lia.
  - apply Z.pow2_bits_false. lia.
  - change (2 ^ 63 + 2) with (Z.lor (2 ^ 63) (2 ^ 1)).
    by rewrite Z.lor_spec, !Z.pow2_bits_false by lia.
Qed.
Lemma page_entry_range nx q fl : 0 <= q < 2 ^ 40 -> 0 <= page_entry nx (frame_addr q) fl < 2 ^ 64.
Proof.
  intros Hq. apply range_testbit.
  - unfold page_entry, frame_addr. rewrite !Z.lor_nonneg. unfold PML_PRESENT.
    destruct (prot_bits_cases nx fl) as [->|[->|[->| ->]]]; lia.
  - intros i Hi. rewrite page_entry_bit, frame_bit_high by lia. simpl. lia.
Qed.
Lemma page_entry_present nx q fl : 0 <= q < 2 ^ 40 -> has (page_entry nx (frame_addr q) fl) PML_PRESENT = true.
Proof. intros. rewrite has_present, page_entry_bit by lia. by rewrite orb_true_r. Qed.
Lemma page_entry_addr nx q fl :
  0 <= q < 2 ^ 40 -> Z.land (page_entry nx (frame_addr q) fl) PML_ADDR_MASK = frame_addr q.
Proof.
  intros. unfold page_entry, frame_addr. rewrite !Z.land_lor_distr_l, addr_mask by done.
  destruct (prot_bits_cases nx fl) as [->|[->|[->| ->]]]; by rewrite !Z.lor_0_r.
Qed.

(** The four indices of an address are the digits of its page number. *)
Lemma vpn_digits v :
  let P := vpn v in
  0 <= P < 68719476736 /\
  takeBitfield v 47 39 = P / 134217728 /\
  takeBitfield v 38 30 = (P / 262144) mod 512 /\
  takeBitfield v 29 21 = (P / 512) mod 512 /\
  takeBitfield v 20 12 = P mod 512.
Proof.
  unfold vpn. change (2 ^ 36) with 68719476736.
  change 47 with (39 + 8) at 1. change 38 with (30 + 8). change 29 with (21 + 8) at 1.
  change (takeBitfield v 20 12) with (takeBitfield v (12 + 8) 12).
  rewrite !takeBitfield_9 by lia.
  change (2 ^ 39) with 549755813888. change (2 ^ 30) with 1073741824.
  change (2 ^ 21) with 2097152. change (2 ^ 12) with 4096. lia.
Qed.

(** Writing an entry of a last-level table changes that page only. *)
Lemma set_last_ok s P f e :
  pt_ok s -> 0 <= P < 512 ^ 4 -> walk 3 s (P / 512) = Some (frame_addr f) -> 0 <= e < 2 ^ 64 ->
  let s' := set_entry (frame_addr f) (P mod 512) e s in
  pt_ok s' /\
  leaf 3 s' P = (if has e PML_PRESENT then Some e else None) /\
  (forall d p, (d <= 3)%nat -> 0 <= p < 512 ^ Z.of_nat (S d) -> d <> 3%nat \/ p <> P ->
     leaf d s' p = leaf d s p) /\
  data_ok s s' /\ (forall d p, (d <= 3)%nat -> 0 <= p < 512 ^ Z.of_nat d -> walk d s' p = walk d s p).
Proof.
  intros Hok HP Hw He s'. change (512 ^ 4) with (512 ^ Z.of_nat (S 3)) in HP.
  pose proof (prefix_range _ _ HP) as HP'. change (512 ^ Z.of_nat 3) with (512 ^ 3) in HP'.
  assert (forall d p, (d <= 3)%nat -> 0 <= p < 512 ^ Z.of_nat d -> walk d s' p = walk d s p) as Hws.
  { intros d p Hd Hp. apply (walk_set_last s (P / 512)); (done || lia). }
  split_and!.
  - constructor.
    + intros d p t Hd Hp. rewrite Hws by done. by apply (pt_used _ Hok).
    + intros d p d' p' t Hd Hd' Hp Hp'. rewrite !Hws by done. by apply (pt_inj _ Hok).
  - unfold leaf. rewrite Hws, Hw by (done || lia). cbn [mbind option_bind].
    unfold s'. rewrite entry_set_eq by done. by rewrite andb_true_r.
  - intros d p Hd Hp Hne. pose proof (prefix_range _ _ Hp). unfold leaf. rewrite Hws by done.
    destruct (walk d s (p / 512)) as [t|] eqn:Et; [|done]. cbn [mbind option_bind].
    destruct (pt_used _ Hok d _ _ ltac:(lia) ltac:(eassumption) Et) as (h & -> & _).
    unfold s'. rewrite entry_set_ne; [done|lia|lia|].
    destruct (decide (h = f)) as [->|]; [right|by left]. intros Hm.
    destruct (pt_inj _ Hok d (p / 512) 3 (P / 512) _ ltac:(lia) ltac:(lia) ltac:(lia) ltac:(done) Et Hw).
    destruct Hne; lia.
  - intros g Hg Hu Ht. split_and!; [done| |].
    + intros (d & p & Hd & Hp & Hwp). apply Ht. rewrite Hws in Hwp by done. by exists d, p.
    + intros x Hx. apply set_entry_outside; [lia|]. intros Hxf. apply Ht.
      exists 3%nat, (P / 512). split_and!; [lia|lia..|]. congruence.
  - exact Hws.
Qed.

Lemma map_one_Page_spec nx s virt q fl :
  let P := vpn virt in
  pt_ok s -> phys_ok s -> (3 <= length (free_frames s))%nat -> 0 <= q < 2 ^ 40 ->
  leaf 0 s (P / 134217728) = None -> leaf 1 s (P / 262144) = None -> leaf 2 s (P / 512) = None ->
  let s' := map_one_Page PML4Table nx (frame_addr q) virt fl s in
  pt_ok s' /\ phys_ok s' /\ (length (free_frames s) <= 3 + length (free_frames s'))%nat /\
  leaf 3 s' P = Some (page_entry nx (frame_addr q) fl) /\
  (forall d p, (d <= 3)%nat -> 0 <= p < 512 ^ Z.of_nat (S d) -> d <> 3%nat \/ p <> P ->
     leaf d s' p = leaf d s p) /\
  data_ok s s' /\ EndPhysicalPage s' = EndPhysicalPage s /\
  (forall x, 0 <= x -> used (Bitmap s) x = true -> used (Bitmap s') x = true) /\
  (forall p, 0 <= p < 512 ^ 3 -> p <> P / 512 -> walk 3 s' p = walk 3 s p).
Proof.
  intros P Hok Hpo Hfr Hq L0 L1 L2 s'.
  destruct (vpn_digits virt) as (HP & D39 & D30 & D21 & D12). fold P in HP, D39, D30, D21, D12.
  destruct (pt_used _ Hok 0 0 PML4Table ltac:(lia) ltac:(simpl; lia) eq_refl) as (f0 & Hf0 & _).
  subst s'. unfold map_one_Page. rewrite D39, D30, D21, D12, Hf0.
  destruct (next_table_spec s 0 0 f0 (P / 134217728)) as (s1 & f1 & -> & W1 & Hok1 & Hpo1 & Hsm1 & Hdt1 & Hl1 & Hk1);
    [try done; try (simpl; lia)..|].
  { by rewrite <- Hf0. }
  change (0 * 512 + P / 134217728) with (P / 134217728) in W1.
  assert (P / 134217728 * 512 + (P / 262144) mod 512 = P / 262144) as E1 by lia.
  destruct (next_table_spec s1 1 (P / 134217728) f1 ((P / 262144) mod 512))
    as (s2 & f2 & -> & W2 & Hok2 & Hpo2 & Hsm2 & Hdt2 & Hl2 & Hk2); [try done; try (simpl; lia)..|].
  { rewrite E1, (sm_leaf _ _ Hsm1); [done|lia|simpl; lia]. }
  rewrite E1 in W2. assert (P / 262144 * 512 + (P / 512) mod 512 = P / 512) as E2 by lia.
  destruct (next_table_spec s2 2 (P / 262144) f2 ((P / 512) mod 512))
    as (s3 & f3 & -> & W3 & Hok3 & Hpo3 & Hsm3 & Hdt3 & Hl3 & Hk3); [try done; try (simpl; lia)..|].
  { rewrite E2, (sm_leaf _ _ Hsm2), (sm_leaf _ _ Hsm1); [done|lia|simpl; lia|lia|simpl; lia]. }
  rewrite E2 in W3. fold (page_entry nx (frame_addr q) fl).
  set (e := page_entry nx (frame_addr q) fl).
  assert (0 <= P < 512 ^ 4) as HP4 by (change (512 ^ 4) with 68719476736; lia).
  destruct (set_last_ok s3 P f3 e Hok3 HP4 W3 (page_entry_range _ _ _ Hq)) as (Hok4 & HL & Ho & Hda & Hw4).
  split_and!.
  - done.
  - constructor; apply Hpo3.
  - change (free_frames (set_entry _ _ _ s3)) with (free_frames s3). lia.
  - rewrite HL. unfold e. by rewrite page_entry_present.
  - intros d p Hd Hp Hne. rewrite Ho by done.
    by rewrite (sm_leaf _ _ Hsm3), (sm_leaf _ _ Hsm2), (sm_leaf _ _ Hsm1).
  - etransitivity; [done|]. etransitivity; [done|]. etransitivity; [done|]. by apply Hda.
  - simpl. by rewrite (sm_end _ _ Hsm3), (sm_end _ _ Hsm2), (sm_end _ _ Hsm1).
  - intros x Hx Hu. simpl. apply (sm_used _ _ Hsm3), (sm_used _ _ Hsm2), (sm_used _ _ Hsm1); done.
  - intros p Hp Hne. rewrite (Hw4 3%nat), (Hk3 3%nat), (Hk2 3%nat), (Hk1 3%nat); [done|lia|done|by left|lia|done|by left|lia|done| |lia|done].
    right. by rewrite E2.
Qed.

(** ** Translation by leaves *)

Lemma walk_None_entry d s p t :
  walk d s (p / 512) = Some t -> walk (S d) s p = None -> leaf d s p = None ->
  has (entry s t (p mod 512)) PML_PRESENT = false.
Proof.
  intros Hw. rewrite walk_S, Hw. unfold leaf. rewrite Hw. cbn [mbind option_bind].
  unfold is_table. destruct (has _ PML_PRESENT); [|done].
  by destruct (has _ PML_PAGE_SIZE); rewrite ?orb_true_r.
Qed.

(** The processor's result from the leaves on the path. *)
Definition leaf_translate (s : phys) (v : Z) : option Z :=
  let P := vpn v in
  match leaf 0 s (P / 134217728), leaf 1 s (P / 262144), leaf 2 s (P / 512), leaf 3 s P with
  | Some _, _, _, _ => None
  | None, Some e, _, _ => Some (Z.land e PML_ADDR_MASK_1G + v mod SYSTEM_PAGE_1G_SIZE)
  | None, None, Some e, _ => Some (Z.land e PML_ADDR_MASK_2M + v mod SYSTEM_PAGE_2M_SIZE)
  | None, None, None, Some e => Some (Z.land e PML_ADDR_MASK + v mod SYSTEM_PAGE_SIZE)
  | _, _, _, _ => None
  end.

Lemma walk_None_S d s p : walk d s (p / 512) = None -> walk (S d) s p = None.
Proof. intros H. by rewrite walk_S, H. Qed.
Lemma leaf_None_below d s p : walk (S d) s (p / 512) = None -> leaf (S d) s p = None.
Proof. intros H. unfold leaf. by rewrite H. Qed.

Lemma leaf_step d s p t :
  walk d s (p / 512) = Some t -> (d < 3)%nat ->
  let e := entry s t (p mod 512) in
  (has e PML_PRESENT = false /\ leaf d s p = None /\ walk (S d) s p = None) \/
  (has e PML_PRESENT = true /\ has e PML_PAGE_SIZE = true /\ leaf d s p = Some e /\ walk (S d) s p = None) \/
  (has e PML_PRESENT = true /\ has e PML_PAGE_SIZE = false /\ leaf d s p = None /\
   walk (S d) s p = Some (Z.land e PML_ADDR_MASK)).
Proof.
  intros Hw Hd e. unfold leaf. rewrite walk_S, Hw. cbn [mbind option_bind]. fold e.
  unfold is_table. rewrite (proj2 (Nat.eqb_neq d 3)) by lia.
  destruct (has e PML_PRESENT), (has e PML_PAGE_SIZE); simpl; auto 10.
Qed.

Lemma translate_leaves s v : translate s v = leaf_translate s v.
Proof.
  unfold translate, leaf_translate. set (P := vpn v).
  assert (0 <= P < 68719476736) as HP by (unfold P, vpn; change (2 ^ 36) with 68719476736; lia).
  assert ((v / 549755813888) mod 512 = P / 134217728 mod 512 /\ (v / 1073741824) mod 512 = P / 262144 mod 512 /\
          (v / 2097152) mod 512 = P / 512 mod 512 /\ (v / 4096) mod 512 = P mod 512) as (E0 & E1 & E2 & E3).
  { unfold P, vpn. change (2 ^ 36) with 68719476736. lia. }
  cbn [hw_walk level_mask].
  change (2 ^ (12 + 9 * Z.of_nat 3)) with 549755813888.
  change (2 ^ (12 + 9 * Z.of_nat 2)) with 1073741824.
  change (2 ^ (12 + 9 * Z.of_nat 1)) with 2097152.
  change (2 ^ (12 + 9 * Z.of_nat 0)) with 4096. rewrite E0, E1, E2, E3.
  rewrite (decide_True (P := 3%nat = 3%nat)), !decide_False by lia.
  unfold SYSTEM_PAGE_1G_SIZE, SYSTEM_PAGE_2M_SIZE, SYSTEM_PAGE_SIZE.
  assert (P / 262144 / 512 = P / 134217728) as D1 by lia.
  assert (P / 512 / 512 = P / 262144) as D2 by lia.
  destruct (leaf_step 0 s (P / 134217728) PML4Table eq_refl ltac:(lia)) as
    [(-> & -> & W1)|[(-> & -> & -> & W1)|(-> & -> & -> & W1)]]; [|done|].
  - pose proof (eq_trans (f_equal (walk 1 s) D1) W1) as W1'.
    pose proof (eq_trans (f_equal (walk 2 s) D2) (walk_None_S 1 s _ W1')) as W2'.
    pose proof (walk_None_S 2 s _ W2') as W3.
    by rewrite (leaf_None_below 0 s _ W1'), (leaf_None_below 1 s _ W2'), (leaf_None_below 2 s _ W3).
  - pose proof (eq_trans (f_equal (walk 1 s) D1) W1) as W1'.
    destruct (leaf_step 1 s (P / 262144) _ W1' ltac:(lia)) as
      [(-> & -> & W2)|[(-> & -> & -> & W2)|(-> & -> & -> & W2)]]; [|done|].
    + pose proof (eq_trans (f_equal (walk 2 s) D2) W2) as W2'. pose proof (walk_None_S 2 s _ W2') as W3.
      by rewrite (leaf_None_below 1 s _ W2'), (leaf_None_below 2 s _ W3).
    + pose proof (eq_trans (f_equal (walk 2 s) D2) W2) as W2'.
      destruct (leaf_step 2 s (P / 512) _ W2' ltac:(lia)) as
        [(-> & -> & W3)|[(-> & -> & -> & W3)|(-> & -> & -> & W3)]]; [|done|].
      * by rewrite (leaf_None_below 2 s _ W3).
      * unfold leaf. rewrite W3. cbn [mbind option_bind]. rewrite andb_true_r.
        by destruct (has _ PML_PRESENT).
Qed.
End Hardware.
