(* ===== verification/PagingSpec.v ===== *)
(** * Page tables: theorems

    [paging_map_Page] and [paging_map_PageAllocated] against the processor's
    translation. *)

From S2P Require Import Prelude Mem MinMax Physical Paging PageTable.

Section Spec.
Variable PML4Table : Z.
Variable nx : bool.
Abbreviation pt_ok := (pt_ok PML4Table).
Abbreviation leaf := (leaf PML4Table).
Abbreviation translate := (translate PML4Table).
Abbreviation data_ok := (data_ok PML4Table).

(** No large page covers page number [P]. *)
Definition no_large (s : phys) (P : Z) : Prop :=
  leaf 0 s (P / 134217728) = None /\ leaf 1 s (P / 262144) = None /\ leaf 2 s (P / 512) = None.

Record range_ok (s : phys) (V n : Z) : Prop := {
  ro_addr : 0 <= V /\ 0 <= n /\ V + n < 2 ^ 52;
  ro_vpn : V mod 2 ^ 36 + n <= 2 ^ 36;
  ro_large : forall P, V mod 2 ^ 36 <= P < V mod 2 ^ 36 + n -> no_large s P;
}.
(** The page numbers of the range. *)
Definition in_range (V n P : Z) : Prop := V mod 2 ^ 36 <= P < V mod 2 ^ 36 + n.

(** The leaves of [s'] are those of [s] except on the range. *)
Definition same_leaves (V n : Z) (s s' : phys) : Prop :=
  forall d p, (d <= 3)%nat -> 0 <= p < 512 ^ Z.of_nat (S d) -> d <> 3%nat \/ ~ in_range V n p ->
    leaf d s' p = leaf d s p.

Lemma vpn_frame V : 0 <= V -> vpn (V * 4096) = V mod 2 ^ 36.
Proof. intros. unfold vpn. by rewrite Z.div_mul. Qed.
Lemma no_large_same V n s s' P :
  same_leaves V n s s' -> 0 <= P < 2 ^ 36 -> no_large s P -> no_large s' P.
Proof.
  change (2 ^ 36) with 68719476736. intros Hs HP (H0 & H1 & H2).
  split_and!; rewrite Hs; (done || (try lia); (try (simpl; lia)); by left).
Qed.
Lemma translate_same s s' v :
  (forall d p, (d <= 3)%nat -> 0 <= p < 512 ^ Z.of_nat (S d) -> d <> 3%nat \/ p = vpn v ->
     leaf d s' p = leaf d s p) ->
  translate s' v = translate s v.
Proof.
  intros Hs. rewrite !translate_leaves. unfold leaf_translate.
  assert (0 <= vpn v < 68719476736) by (unfold vpn; change (2 ^ 36) with 68719476736; lia).
  rewrite (Hs 0%nat), (Hs 1%nat), (Hs 2%nat), (Hs 3%nat); [done|..];
    (lia || (simpl; lia) || (by right) || (by left)).
Qed.
Lemma translate_page s v q fl :
  0 <= q < 2 ^ 40 -> no_large s (vpn v) -> leaf 3 s (vpn v) = Some (page_entry nx (frame_addr q) fl) ->
  translate s v = Some (frame_addr q + v mod 4096).
Proof.
  intros Hq (H0 & H1 & H2) H3. rewrite translate_leaves. unfold leaf_translate.
  by rewrite H0, H1, H2, H3, page_entry_addr.
Qed.

Record mapped (s s' : phys) (V : Z) (frames : list Z) (fl : Z) : Prop := {
  mp_pt : pt_ok s';
  mp_phys : phys_ok s';
  mp_leaf : forall k q, frames !! k = Some q ->
    leaf 3 s' (V mod 2 ^ 36 + Z.of_nat k) = Some (page_entry nx (frame_addr q) fl);
  mp_same : same_leaves V (Z.of_nat (length frames)) s s';
  mp_data : data_ok s s';
  mp_end : EndPhysicalPage s' = EndPhysicalPage s;
  mp_used : forall x, 0 <= x -> used (Bitmap s) x = true -> used (Bitmap s') x = true;
  mp_free : (length (free_frames s) <= 3 * length frames + length (free_frames s'))%nat;
}.

Lemma vpn_succ V n :
  V mod 68719476736 + Z.of_nat (S n) <= 68719476736 ->
  n = O \/ (V + 1) mod 68719476736 = V mod 68719476736 + 1.
Proof. destruct n; [by left|right]. lia. Qed.
Lemma mapped_nil s V fl : pt_ok s -> phys_ok s -> mapped s s V [] fl.
Proof. intros. constructor; try done. Qed.

(** Mapping one page and then the rest of a list of frames. *)
Lemma mapped_cons s s1 s2 V q frames fl :
  0 <= V -> V mod 2 ^ 36 + Z.of_nat (S (length frames)) <= 2 ^ 36 ->
  mapped s s1 V [q] fl -> mapped s1 s2 (V + 1) frames fl -> mapped s s2 V (q :: frames) fl.
Proof.
  change (2 ^ 36) with 68719476736. intros HV Hr [_ _ L1 S1 D1 E1 U1 F1] [P2 Q2 L2 S2 D2 E2 U2 F2].
  change (2 ^ 36) with 68719476736 in *.
  assert (frames = [] \/ (V + 1) mod 68719476736 = V mod 68719476736 + 1) as HV1.
  { destruct (vpn_succ _ _ Hr) as [Hn|Hn]; [left; by destruct frames|by right]. }
  assert (forall P, in_range (V + 1) (Z.of_nat (length frames)) P ->
            V mod 68719476736 + 1 <= P < V mod 68719476736 + 1 + Z.of_nat (length frames)) as Hin.
  { unfold in_range. change (2 ^ 36) with 68719476736. intros P HP.
    destruct HV1 as [->|HV1]; [simpl in HP; lia|lia]. }
  constructor; try done.
  - change (2 ^ 36) with 68719476736. intros [|k] q' Hk; simpl in Hk.
    + injection Hk as <-. rewrite S2; [by apply L1|lia|simpl; lia|].
      right. intros HP%Hin. simpl in HP. lia.
    + destruct HV1 as [->|HV1]; [done|].
      replace (V mod 68719476736 + Z.of_nat (S k)) with ((V + 1) mod 68719476736 + Z.of_nat k) by lia.
      by apply L2.
  - intros d p Hd Hp Hne. rewrite S2, S1; try done.
    + destruct Hne as [?|Hne]; [by left|right]. intros HP. apply Hne. revert HP.
      unfold in_range. simpl. lia.
    + destruct Hne as [?|Hne]; [by left|right]. intros HP%Hin. apply Hne.
      unfold in_range. change (2 ^ 36) with 68719476736. simpl length. lia.
  - by etransitivity.
  - congruence.
  - auto.
  - simpl in *. lia.
Qed.

Lemma map_one_mapped s V q fl :
  0 <= V -> pt_ok s -> phys_ok s -> (3 <= length (free_frames s))%nat -> 0 <= q < 2 ^ 40 ->
  no_large s (V mod 2 ^ 36) ->
  mapped s (map_one_Page PML4Table nx (frame_addr q) (V * 4096) fl s) V [q] fl.
Proof.
  intros HV Hok Hpo Hf Hq (H0 & H1 & H2).
  pose proof (map_one_Page_spec PML4Table nx s (V * 4096) q fl) as Hs. cbv zeta in Hs.
  rewrite vpn_frame in Hs by done.
  destruct (Hs Hok Hpo Hf Hq H0 H1 H2) as (? & ? & ? & HL & Ho & Hd & He & Hu & _).
  constructor; try done.
  - intros [|k] q' Hk; [|done]. injection Hk as <-. by rewrite Z.add_0_r.
  - intros d p Hd' Hp Hne. apply Ho; [done..|]. destruct Hne as [?|Hne]; [by left|right].
    intros ->. apply Hne. unfold in_range. simpl. lia.
Qed.

(** The first page of a range, and what the rest needs. *)
Lemma mapped_first s V q frames fl :
  Forall (fun q => 0 <= q < 2 ^ 40) (q :: frames) ->
  range_ok s V (Z.of_nat (S (length frames))) -> pt_ok s -> phys_ok s ->
  (3 * S (length frames) <= length (free_frames s))%nat ->
  let s1 := map_one_Page PML4Table nx (frame_addr q) (V * 4096) fl s in
  mapped s s1 V [q] fl /\ range_ok s1 (V + 1) (Z.of_nat (length frames)) /\
  (3 * length frames <= length (free_frames s1))%nat.
Proof.
  intros [Hq _]%Forall_cons [Ha Hv Hl] Hok Hpo Hf s1. change (2 ^ 36) with 68719476736 in *.
  assert (mapped s s1 V [q] fl) as M1.
  { apply map_one_mapped; try done; [lia|lia|].
    apply Hl. change (2 ^ 36) with 68719476736. lia. }
  split; [done|]. split; [constructor; change (2 ^ 36) with 68719476736|].
  - lia.
  - destruct (vpn_succ _ _ Hv) as [Hn|Hn]; [rewrite Hn|rewrite Hn]; lia.
  - intros P HP.
    assert (V mod 68719476736 + 1 <= P < V mod 68719476736 + Z.of_nat (S (length frames))) as HP'
      by (destruct (vpn_succ _ _ Hv) as [Hn|Hn]; rewrite Hn in HP; lia).
    eapply no_large_same; [apply M1|change (2 ^ 36) with 68719476736; lia|].
    apply Hl. lia.
  - pose proof (mp_free _ _ _ _ _ M1) as Hfr. change (length [q]) with 1%nat in Hfr.
    clear -Hfr Hf. lia.
Qed.

Lemma u64_page V : 0 <= V -> V + 1 < 2 ^ 52 -> u64 (V * 4096 + SYSTEM_PAGE_SIZE) = (V + 1) * 4096.
Proof. change (2 ^ 52) with 4503599627370496. unfold SYSTEM_PAGE_SIZE. intros. word_lia. Qed.

Lemma map_Pages_mapped n s V q fl :
  0 <= q -> q + Z.of_nat n <= 2 ^ 40 -> range_ok s V (Z.of_nat n) -> pt_ok s -> phys_ok s ->
  (3 * n <= length (free_frames s))%nat ->
  mapped s (map_Pages PML4Table nx n (frame_addr q) (V * 4096) fl s) V (seqZ q (Z.of_nat n)) fl.
Proof.
  change (2 ^ 40) with 1099511627776.
  revert s V q. induction n as [|n IH]; intros s V q Hq Hqn Hr Hok Hpo Hf.
  { by apply mapped_nil. }
  rewrite seqZ_cons, Nat2Z.inj_succ, Z.pred_succ by lia.
  assert (length (seqZ (Z.succ q) (Z.of_nat n)) = n) as Hlen by (rewrite length_seqZ; lia).
  destruct (mapped_first s V q (seqZ (Z.succ q) (Z.of_nat n)) fl) as (M1 & Hr1 & Hf1); try done;
    [|by rewrite Hlen|by rewrite Hlen|].
  { apply Forall_forall. change (2 ^ 40) with 1099511627776.
    intros x [->|Hx%elem_of_seqZ]%elem_of_cons; lia. }
  rewrite Hlen in Hr1, Hf1. pose proof (ro_addr _ _ _ Hr) as Ha. pose proof (ro_vpn _ _ _ Hr) as Hv.
  eapply mapped_cons; [lia|by rewrite Hlen|exact M1|].
  cbn [map_Pages]. rewrite u64_page by lia.
  replace (u64 (frame_addr q + SYSTEM_PAGE_SIZE)) with (frame_addr (Z.succ q))
    by (unfold frame_addr, SYSTEM_PAGE_SIZE; word_lia).
  apply IH; try done; try lia; apply M1.
Qed.

Lemma map_Page_one q V fl s :
  paging_map_Page PML4Table nx (frame_addr q) (V * 4096) 1 fl s =
  Some (map_one_Page PML4Table nx (frame_addr q) (V * 4096) fl s).
Proof. unfold paging_map_Page, SYSTEM_PAGE_SIZE, frame_addr. by rewrite !Z.mod_mul. Qed.

Lemma map_frames_mapped frames s V fl :
  Forall (fun q => 0 <= q < 2 ^ 40) frames -> range_ok s V (Z.of_nat (length frames)) ->
  pt_ok s -> phys_ok s -> (3 * length frames <= length (free_frames s))%nat ->
  exists s', map_frames PML4Table nx (frame_addr <$> frames) (V * 4096) fl s = Some s' /\
    mapped s s' V frames fl.
Proof.
  revert s V. induction frames as [|q frames IH]; intros s V Hq Hr Hok Hpo Hf.
  { exists s. split; [done|]. by apply mapped_nil. }
  destruct (mapped_first s V q frames fl Hq Hr Hok Hpo Hf) as (M1 & Hr1 & Hf1).
  apply Forall_cons in Hq as [_ Hqs]. pose proof (ro_addr _ _ _ Hr) as Ha.
  change (length (q :: frames)) with (S (length frames)) in Ha.
  destruct (IH _ _ Hqs Hr1 (mp_pt _ _ _ _ _ M1) (mp_phys _ _ _ _ _ M1) Hf1) as (s2 & E2 & M2).
  exists s2. split.
  - rewrite fmap_cons. cbn [map_frames]. rewrite map_Page_one by lia.
    cbn [mbind option_bind]. rewrite u64_page by lia. exact E2.
  - eapply mapped_cons; [lia|apply (ro_vpn _ _ _ Hr)|exact M1|exact M2].
Qed.

(** ** Fresh pages *)

(** Marking free pages used and clearing them leaves the tables alone. *)
Section Alloc.
Context (s s' : phys).
Hypothesis Hok : pt_ok s.
Hypothesis Hu : forall x, 0 <= x -> used (Bitmap s) x = true -> used (Bitmap s') x = true.
Hypothesis Hm : forall x, used (Bitmap s) (x / 4096) = true -> pmem s' x = pmem s x.

Lemma alloc_entry d p t i :
  (d <= 3)%nat -> 0 <= p < 512 ^ Z.of_nat d -> walk PML4Table d s p = Some t -> 0 <= i < 512 ->
  entry s' t i = entry s t i.
Proof.
  intros Hd Hp Hw Hi. destruct (pt_used _ _ Hok d p t Hd Hp Hw) as (f & -> & Hf & Huf).
  apply entry_same; [done|]. intros x Hx. apply Hm. by rewrite Hx.
Qed.
Lemma alloc_walk d p :
  (d <= 3)%nat -> 0 <= p < 512 ^ Z.of_nat d -> walk PML4Table d s' p = walk PML4Table d s p.
Proof.
  revert p. induction d as [|d IH]; intros p Hd Hp; [done|].
  pose proof (prefix_range _ _ Hp). rewrite !walk_S, IH by lia.
  destruct (walk PML4Table d s (p / 512)) as [t|] eqn:Et; [|done]. cbn [mbind option_bind].
  by rewrite (alloc_entry d (p / 512)) by (lia || done).
Qed.
Lemma alloc_pt_ok : pt_ok s'.
Proof.
  constructor.
  - intros d p t Hd Hp Hw. rewrite alloc_walk in Hw by done.
    destruct (pt_used _ _ Hok d p t Hd Hp Hw) as (f & -> & Hf & Huf). exists f. auto.
  - intros d p d' p' t Hd Hd' Hp Hp'. rewrite !alloc_walk by done. by apply (pt_inj _ _ Hok).
Qed.
Lemma alloc_leaf d p : (d <= 3)%nat -> 0 <= p < 512 ^ Z.of_nat (S d) -> leaf d s' p = leaf d s p.
Proof.
  intros Hd Hp. pose proof (prefix_range _ _ Hp). unfold PageTable.leaf. rewrite alloc_walk by done.
  destruct (walk PML4Table d s (p / 512)) as [t|] eqn:Et; [|done]. cbn [mbind option_bind].
  by rewrite (alloc_entry d (p / 512)) by (lia || done).
Qed.
Lemma alloc_is_tab g : is_tab PML4Table s' g <-> is_tab PML4Table s g.
Proof.
  split; intros (d & p & Hd & Hp & Hw); exists d, p.
  - rewrite alloc_walk in Hw by done. done.
  - rewrite alloc_walk by done. done.
Qed.
Lemma alloc_data : data_ok s s'.
Proof.
  intros g Hg Hug Ht. rewrite alloc_is_tab. split_and!; [auto|done|].
  intros x Hx. apply Hm. by rewrite Hx.
Qed.
Lemma alloc_new_data g : used (Bitmap s) g = false -> ~ is_tab PML4Table s' g.
Proof.
  rewrite alloc_is_tab. intros Hug (d & p & Hd & Hp & Hw).
  destruct (pt_used _ _ Hok d p _ Hd Hp Hw) as (f & Hf & _ & Huf).
  unfold frame_addr in Hf. assert (g = f) as -> by lia. congruence.
Qed.
End Alloc.

(** A range of pages backed by fresh, distinct, zeroed frames. *)
Record backed (s s' : phys) (V : Z) (frames : list Z) (fl : Z) : Prop := {
  bk_pt : pt_ok s';
  bk_phys : phys_ok s';
  bk_leaf : forall k q, frames !! k = Some q ->
    leaf 3 s' (V mod 2 ^ 36 + Z.of_nat k) = Some (page_entry nx (frame_addr q) fl);
  bk_same : same_leaves V (Z.of_nat (length frames)) s s';
  bk_data : data_ok s s';
  bk_used : forall x, 0 <= x -> used (Bitmap s) x = true -> used (Bitmap s') x = true;
  bk_fresh : (NoDup frames /\ Forall (fun q => q < MAX_SYSTEM_MEMORY_PAGES) frames) /\
    Forall (fun q => 0 <= q < 2 ^ 40 /\ used (Bitmap s) q = false) frames;
  bk_zero : Forall (fun q => used (Bitmap s') q = true /\ ~ is_tab PML4Table s' q /\
                             forall x, x / 4096 = q -> pmem s' x = 0) frames;
  bk_free : (length (free_frames s) <= 4 * length frames + length (free_frames s'))%nat;
}.

(** One round of [paging_map_PageAllocated]. *)
Lemma round_backed n s V fl :
  pt_ok s -> phys_ok s -> 0 < n -> range_ok s V n -> (4 * Z.to_nat n <= length (free_frames s))%nat ->
  let '(s1, buf) := paging_physical_AllocateFrames n s in
  exists s2 frames, map_frames PML4Table nx buf (V * 4096) fl s1 = Some s2 /\
    length buf = Z.to_nat n /\ length frames = Z.to_nat n /\ backed s s2 V frames fl.
Proof.
  intros Hok Hpo Hn Hr Hf. unfold paging_physical_AllocateFrames.
  pose proof (AllocateFrames_loop_spec (Z.to_nat n) s Hpo) as Ha.
  destruct (AllocateFrames_loop (Z.to_nat n) s) as [s1 buf].
  set (new := take (Z.to_nat n) (free_frames s)) in *.
  destruct Ha as (-> & Hff & Hpo1 & Hu1 & Hm1 & He1 & _).
  assert (length new = Z.to_nat n) as Hlen by (unfold new; rewrite length_take; lia).
  assert (forall q, q ∈ new -> 0 <= q < 2 ^ 40 /\ used (Bitmap s) q = false) as Hnew.
  { intros q Hq. assert (q ∈ free_frames s) as Hin
      by (eapply elem_of_submseteq; [exact Hq|apply sublist_submseteq, sublist_take]).
    apply free_frames_in in Hin as [Hq' Hqu].
    pose proof (po_i _ Hpo). pose proof (po_end _ Hpo) as He. unfold MAX_SYSTEM_MEMORY_PAGES in He.
    unfold phys_limit in Hq'. change (2 ^ 40) with 1099511627776. split; [lia|done]. }
  assert (Forall (fun q => q < MAX_SYSTEM_MEMORY_PAGES) new) as Hbound.
  { apply Forall_forall. intros q Hq. assert (q ∈ free_frames s) as Hin
      by (eapply elem_of_submseteq; [exact Hq|apply sublist_submseteq, sublist_take]).
    apply free_frames_in in Hin as [Hq' _]. pose proof (po_i _ Hpo). pose proof (po_end _ Hpo). unfold phys_limit in Hq'. lia. }
  assert (NoDup new) as Hnd.
  { pose proof (free_frames_NoDup s) as H0. rewrite <- (take_drop (Z.to_nat n)) in H0.
    by apply NoDup_app in H0 as [? _]. }
  assert (forall x, 0 <= x -> used (Bitmap s) x = true -> used (Bitmap s1) x = true) as Hus
    by (intros x Hx Hxu; rewrite Hu1, Hxu; done).
  assert (forall x, used (Bitmap s) (x / 4096) = true -> pmem s1 x = pmem s x) as Hms.
  { intros x Hx. rewrite Hm1, decide_False; [done|]. intros Hin. apply Hnew in Hin as [_ ?]. congruence. }
  destruct (map_frames_mapped new s1 V fl) as (s2 & E2 & [P2 Q2 L2 S2 D2 E2' U2 F2]).
  { apply Forall_forall. intros q Hq. by apply Hnew. }
  { rewrite Hlen, Z2Nat.id by lia. destruct Hr as [? ? Hl]. constructor; [done|done|].
    intros P HP. pose proof (Z.mod_pos_bound V (2 ^ 36)). change (2 ^ 36) with 68719476736 in *.
    destruct (Hl P HP) as (H0 & H1 & H2).
    split_and!; (rewrite (alloc_leaf s s1 Hok Hms); [done|lia|simpl; lia]). }
  { by eapply alloc_pt_ok. }
  { done. }
  { rewrite Hff, length_drop, Hlen. lia. }
  exists s2, new. split_and!; [done|by rewrite length_fmap, Hlen|done|].
  assert (Forall (fun q => used (Bitmap s2) q = true /\ ~ is_tab PML4Table s2 q /\
                           forall x, x / 4096 = q -> pmem s2 x = 0) new) as Hz.
  { apply Forall_forall. intros q Hq. destruct (Hnew q Hq) as [? Hqu].
    destruct (D2 q) as (? & ? & Hmq).
    - lia.
    - rewrite Hu1 by lia. rewrite bool_decide_true by done. by rewrite orb_true_r.
    - by apply (alloc_new_data s s1 Hok Hms).
    - split_and!; [done|done|]. intros x Hx. rewrite Hmq, Hm1, decide_True; [done|by rewrite <- Hx in Hq|done]. }
  constructor; try done.
  - intros d p Hd Hp Hne. rewrite S2, (alloc_leaf s s1 Hok Hms) by done. done.
  - etransitivity; [by apply (alloc_data s s1)|done].
  - auto.
  - split; [done|]. apply Forall_forall. intros q Hq. by apply Hnew.
  - rewrite Hff, length_drop, Hlen in F2. rewrite Hlen. lia.
Qed.

Lemma in_range_split V n m P :
  0 <= V -> 0 <= n -> 0 <= m -> V mod 2 ^ 36 + n + m <= 2 ^ 36 ->
  in_range (V + n) m P -> V mod 2 ^ 36 + n <= P < V mod 2 ^ 36 + n + m.
Proof. unfold in_range. change (2 ^ 36) with 68719476736. lia. Qed.

(** Two consecutive ranges. *)
Lemma backed_app s s1 s2 V fs1 fs2 fl :
  0 <= V -> V mod 2 ^ 36 + Z.of_nat (length fs1) + Z.of_nat (length fs2) <= 2 ^ 36 ->
  backed s s1 V fs1 fl -> backed s1 s2 (V + Z.of_nat (length fs1)) fs2 fl ->
  backed s s2 V (fs1 ++ fs2) fl.
Proof.
  intros HV Hr [_ _ L1 S1 D1 U1 [[N1 M1] R1] Z1 F1] [P2 Q2 L2 S2 D2 U2 [[N2 M2] R2] Z2 F2].
  rewrite Forall_forall in R1, R2, Z1, Z2.
  pose proof (in_range_split V (Z.of_nat (length fs1)) (Z.of_nat (length fs2))) as Hspl.
  pose proof (Z.mod_pos_bound V (2 ^ 36) ltac:(lia)) as HVb.
  assert (forall k, (k < length fs1)%nat -> ~ in_range (V + Z.of_nat (length fs1)) (Z.of_nat (length fs2))
            (V mod 2 ^ 36 + Z.of_nat k)) as Hout by (intros k Hk HP; apply Hspl in HP; lia).
  constructor; try done.
  - intros k q Hk. destruct (decide (k < length fs1)%nat) as [Hlt|Hge].
    + rewrite lookup_app_l in Hk by done. rewrite S2; [by apply L1|lia| |right; by apply Hout].
      change (512 ^ Z.of_nat 4) with 68719476736. change (2 ^ 36) with 68719476736 in *. lia.
    + rewrite lookup_app_r in Hk by lia. pose proof (lookup_lt_Some _ _ _ Hk).
      replace (V mod 2 ^ 36 + Z.of_nat k)
        with ((V + Z.of_nat (length fs1)) mod 2 ^ 36 + Z.of_nat (k - length fs1)); [by apply L2|].
      change (2 ^ 36) with 68719476736 in *. lia.
  - intros d p Hd Hp Hne. rewrite length_app, Nat2Z.inj_add in Hne.
    rewrite S2, S1; [done|done|done| |done|done|].
    + destruct Hne as [?|Hne]; [by left|right]. intros HP. apply Hne. revert HP.
      unfold in_range. lia.
    + destruct Hne as [?|Hne]; [by left|right]. intros HP%Hspl; [|lia..]. apply Hne.
      unfold in_range. lia.
  - by etransitivity.
  - auto.
  - split; [split; [|by apply Forall_app]|].
    + apply NoDup_app. split_and!; [done| |done]. intros q Hq1 Hq2.
      destruct (Z1 q Hq1) as [Hu _]. destruct (R2 q Hq2) as [_ Hu']. congruence.
    + apply Forall_forall. intros q [Hq|Hq]%elem_of_app; [by apply R1|].
      destruct (R2 q Hq) as [Hq2 Hu]. split; [done|].
      destruct (used (Bitmap s) q) eqn:E; [|done]. rewrite U1 in Hu; [done|lia|done].
  - apply Forall_forall. intros q [Hq|Hq]%elem_of_app; [|by apply Z2].
    destruct (Z1 q Hq) as (Hu & Ht & Hm). destruct (R1 q Hq) as [? _].
    destruct (D2 q) as (? & ? & Hm2); [lia|done|done|].
    split_and!; [done|done|]. intros x Hx. by rewrite Hm2, Hm.
  - rewrite length_app. lia.
Qed.

Lemma backed_nil s V fl : pt_ok s -> phys_ok s -> backed s s V [] fl.
Proof. intros. constructor; try done; repeat split; constructor. Qed.

Lemma PageAllocated_loop_backed fuel n s V fl :
  (Z.to_nat n < fuel)%nat -> 0 <= n -> pt_ok s -> phys_ok s -> range_ok s V n ->
  (4 * Z.to_nat n <= length (free_frames s))%nat ->
  exists s' frames, PageAllocated_loop PML4Table nx fuel (V * 4096) n fl s = Some s' /\
    length frames = Z.to_nat n /\ backed s s' V frames fl.
Proof.
  revert n s V. induction fuel as [|fuel IH]; intros n s V Hfuel Hn Hok Hpo Hr Hf; [lia|].
  cbn [PageAllocated_loop]. rewrite Z.gtb_ltb. destruct (Z.ltb_spec 0 n) as [Hpos|Hz].
  2:{ exists s, []. split_and!; [done|simpl; lia|by apply backed_nil]. }
  change (HELOS_BUFFER_SIZE / 8) with 2048. rewrite intmin_spec.
  set (c := Z.min n 2048). pose proof Hr as [(Ha1 & Ha2 & Ha3) Hv Hl].
  assert (range_ok s V c) as Hrc.
  { constructor; [lia|lia|]. intros P HP. apply Hl. lia. }
  pose proof (round_backed c s V fl Hok Hpo ltac:(lia) Hrc ltac:(lia)) as Hrd.
  destruct (paging_physical_AllocateFrames c s) as [s1 buf].
  destruct Hrd as (s2 & fs1 & E2 & Hlb & Hl1 & B1). rewrite E2. cbn [mbind option_bind].
  rewrite Hlb, Z2Nat.id by lia.
  replace (u64 (V * 4096 + SYSTEM_PAGE_SIZE * c)) with ((V + c) * 4096).
  2:{ unfold SYSTEM_PAGE_SIZE. change (2 ^ 52) with 4503599627370496 in *. word_lia. }
  assert (range_ok s2 (V + c) (n - c)) as Hr2.
  { constructor; [lia| |].
    - change (2 ^ 36) with 68719476736 in *. destruct (decide (n = c)); lia.
    - intros P HP. change (2 ^ 36) with 68719476736 in *. 
      assert (V mod 68719476736 + c <= P < V mod 68719476736 + n) by (destruct (decide (n = c)); lia).
      eapply no_large_same; [apply B1|change (2 ^ 36) with 68719476736; lia|]. apply Hl.
      lia. }
  pose proof (bk_free _ _ _ _ _ B1) as Hf1. rewrite Hl1 in Hf1.
  destruct (IH (n - c) s2 (V + c)) as (s3 & fs2 & E3 & Hl2 & B2); try apply B1; try done; try lia.
  exists s3, (fs1 ++ fs2). split_and!; [exact E3|rewrite length_app; lia|].
  eapply backed_app; [lia|rewrite Hl1, Hl2; lia|exact B1|].
  by rewrite Hl1, Z2Nat.id by lia.
Qed.

(** Out of frames, the loop never ends. *)
Lemma PageAllocated_loop_stuck fuel n s V fl :
  phys_ok s -> free_frames s = [] -> 0 < n -> V mod 4096 = 0 -> 0 <= V < 2 ^ 64 ->
  PageAllocated_loop PML4Table nx fuel V n fl s = None.
Proof.
  intros Hpo Hff Hn HV HVr. revert s Hpo Hff. induction fuel as [|fuel IH]; intros s Hpo Hff; [done|].
  cbn [PageAllocated_loop]. rewrite Z.gtb_ltb, (proj2 (Z.ltb_lt 0 n)) by lia.
  change (HELOS_BUFFER_SIZE / 8) with 2048. unfold paging_physical_AllocateFrames.
  pose proof (AllocateFrames_loop_spec (Z.to_nat (intmin n 2048)) s Hpo) as Ha.
  destruct (AllocateFrames_loop _ s) as [s1 buf].
  destruct Ha as (-> & Hff1 & Hpo1 & _). rewrite Hff, take_nil. simpl length.
  cbn [map_frames fmap list_fmap mbind option_bind].
  rewrite Z.mul_0_r, Z.add_0_r, Z.sub_0_r, u64_small by (change (2 ^ 64) with 18446744073709551616 in *; lia).
  apply IH; [done|]. by rewrite Hff1, Hff, drop_nil.
Qed.

(** ** Properties *)

(** C4. [paging_map_Page] on aligned addresses maps every page of the range to
    the consecutive physical page, as the processor translates it, keeps every
    other translation, creates tables only in free frames, keeps the tables
    well formed and never writes to a used page that holds no table.  It needs
    three free frames a page and no large page over the range; a misaligned
    address fails the assertion. *)
Theorem paging_map_Page_correct s V q n fl :
  pt_ok s -> phys_ok s -> range_ok s V n -> 0 <= q -> q + n <= 2 ^ 40 ->
  (3 * Z.to_nat n <= length (free_frames s))%nat ->
  (exists s', paging_map_Page PML4Table nx (frame_addr q) (V * 4096) n fl s = Some s' /\
    pt_ok s' /\ phys_ok s' /\ data_ok s s' /\
    (forall v, in_range V n (vpn v) ->
       translate s' v = Some (frame_addr (q + (vpn v - V mod 2 ^ 36)) + v mod 4096)) /\
    (forall v, ~ in_range V n (vpn v) -> translate s' v = translate s v)) /\
  (forall physical virt, physical mod 4096 <> 0 \/ virt mod 4096 <> 0 ->
     paging_map_Page PML4Table nx physical virt n fl s = None).
Proof.
  intros Hok Hpo Hr Hq Hqn Hf. pose proof Hr as [(_ & Hn & _) Hv Hl]. split.
  - pose proof (map_Pages_mapped (Z.to_nat n) s V q fl Hq) as M.
    rewrite !Z2Nat.id in M by lia. specialize (M Hqn Hr Hok Hpo Hf).
    eexists. split.
    { unfold paging_map_Page, SYSTEM_PAGE_SIZE. unfold frame_addr at 1. by rewrite !Z.mod_mul. }
    split_and!; try apply M.
    + intros v Hin. pose proof Hin as Hin'. unfold in_range in Hin'.
      apply (translate_page _ _ _ fl).
      * change (2 ^ 40) with 1099511627776 in *. lia.
      * eapply no_large_same; [apply M|lia|]. by apply Hl.
      * pose proof (mp_leaf _ _ _ _ _ M (Z.to_nat (vpn v - V mod 2 ^ 36))) as HL.
        rewrite Z2Nat.id in HL by lia.
        replace (V mod 2 ^ 36 + (vpn v - V mod 2 ^ 36)) with (vpn v) in HL by lia.
        apply HL. rewrite lookup_seqZ. lia.
    + intros v Hout. apply translate_same. intros d p Hd Hp Hp'.
      pose proof (mp_same _ _ _ _ _ M) as Hs. rewrite length_seqZ, Z2Nat.id in Hs by lia.
      apply Hs; [done|done|]. destruct Hp' as [?| ->]; [by left|by right].
  - intros physical virt Hm. unfold paging_map_Page, SYSTEM_PAGE_SIZE.
    destruct (Z.eqb_spec (physical mod 4096) 0), (Z.eqb_spec (virt mod 4096) 0); try done. lia.
Qed.

(** C5. With four free frames a page, [paging_map_PageAllocated] terminates and
    every page of the range translates to a frame of its own that was free
    before, is used now and reads as zero; all other translations and all data
    pages stay as they were. *)
Theorem paging_map_PageAllocated_correct s V n fl fuel :
  pt_ok s -> phys_ok s -> range_ok s V n -> (4 * Z.to_nat n <= length (free_frames s))%nat ->
  (Z.to_nat n < fuel)%nat ->
  exists s' frames, paging_map_PageAllocated PML4Table nx fuel (V * 4096) n fl s = Some s' /\
    length frames = Z.to_nat n /\ NoDup frames /\ pt_ok s' /\ phys_ok s' /\ data_ok s s' /\
    (forall k f, frames !! k = Some f ->
       used (Bitmap s) f = false /\ used (Bitmap s') f = true /\
       (forall x, x / 4096 = f -> pmem s' x = 0) /\
       (forall v, vpn v = V mod 2 ^ 36 + Z.of_nat k ->
          translate s' v = Some (frame_addr f + v mod 4096))) /\
    (forall v, ~ in_range V n (vpn v) -> translate s' v = translate s v).
Proof.
  intros Hok Hpo Hr Hf Hfuel. pose proof Hr as [(Ha & Hn & _) Hv Hl].
  destruct (PageAllocated_loop_backed fuel n s V fl Hfuel Hn Hok Hpo Hr Hf)
    as (s' & frames & E1 & Hlen & [P L HL S Dt U [[N _] R] Z F]).
  exists s', frames. split.
  { unfold paging_map_PageAllocated, SYSTEM_PAGE_SIZE. by rewrite Z.mod_mul. }
  rewrite Forall_forall in R, Z. split_and!; try done.
  - intros k f Hk. pose proof (list_elem_of_lookup_2 _ _ _ Hk) as Hin.
    destruct (R f Hin) as [Hfr Hu]. destruct (Z f Hin) as (Hu' & _ & Hz).
    split_and!; try done. intros v Hvk. pose proof (lookup_lt_Some _ _ _ Hk) as Hlt.
    apply (translate_page _ _ _ fl); [done| |rewrite Hvk; by apply HL].
    assert (in_range V n (vpn v)) as Hin' by (unfold in_range; lia).
    eapply no_large_same; [apply S|unfold in_range in Hin'; lia|by apply Hl].
  - intros v Hout. apply translate_same. intros d p Hd Hp Hp'.
    rewrite Hlen, Z2Nat.id in S by lia. apply S; [done|done|].
    destruct Hp' as [?| ->]; [by left|by right].
Qed.

(** C40. When no frame is free, [paging_map_PageAllocated] of one page or more
    does not return, whatever the number of rounds. *)
Theorem paging_map_PageAllocated_exhausted s virt n fl fuel :
  phys_ok s -> free_frames s = [] -> 0 < n -> virt mod 4096 = 0 -> 0 <= virt < 2 ^ 64 ->
  paging_map_PageAllocated PML4Table nx fuel virt n fl s = None.
Proof.
  intros Hpo Hff Hn Hv Hr. unfold paging_map_PageAllocated.
  destruct (_ =? 0); [|done]. by apply PageAllocated_loop_stuck.
Qed.
End Spec.

(** ** Witnesses: empty tables in a small memory *)

Definition demo_pml4 : Z := 2 * 4096.
Definition demo_mm : phys := mk_phys (fun i => if i <? 4 then not64 0 else 0) 4 8 4096 (fun _ => 0).
Lemma demo_mm_phys : phys_ok demo_mm.
Proof.
  constructor; [|unfold demo_mm, MAX_SYSTEM_MEMORY_PAGES; simpl; lia..].
  intros i. simpl. zcase; [apply not64_range|lia].
Qed.
Lemma demo_mm_walk d p : walk demo_pml4 (S d) demo_mm p = None.
Proof. revert p. induction d as [|d IH]; intros p; [done|]. by rewrite walk_S, IH. Qed.
Lemma demo_mm_pt : pt_ok demo_pml4 demo_mm.
Proof.
  constructor.
  - intros [|d] p t _ _; [|by rewrite demo_mm_walk]. intros [= <-]. by exists 2.
  - intros [|d] p [|d'] p' t _ _; rewrite ?demo_mm_walk; try done. simpl. lia.
Qed.
Lemma demo_mm_leaf d p : leaf demo_pml4 d demo_mm p = None.
Proof. destruct d as [|d]; unfold leaf; [done|]. by rewrite demo_mm_walk. Qed.
Lemma demo_mm_range : range_ok demo_pml4 demo_mm 5 2.
Proof. constructor; [lia|vm_compute; congruence|]. intros P _. split_and!; apply demo_mm_leaf. Qed.
Lemma demo_mm_free : length (free_frames demo_mm) = 3840%nat.
Proof. by vm_compute. Qed.

Lemma paging_map_Page_correct_witness :
  exists s', paging_map_Page demo_pml4 false (frame_addr 100) (5 * 4096) 2 2 demo_mm = Some s' /\
             translate demo_pml4 s' (6 * 4096 + 8) = Some (101 * 4096 + 8).
Proof.
  destruct (paging_map_Page_correct demo_pml4 false demo_mm 5 100 2 2 demo_mm_pt demo_mm_phys
    demo_mm_range ltac:(lia) ltac:(lia)) as [(s' & E1 & _ & _ & _ & Ht & _) _].
  { rewrite demo_mm_free. lia. }
  exists s'. split; [exact E1|]. rewrite Ht; [by vm_compute|].
  unfold in_range, vpn. by vm_compute.
Defined.
Lemma paging_map_PageAllocated_correct_witness :
  exists s', paging_map_PageAllocated demo_pml4 false 3 (5 * 4096) 2 2 demo_mm = Some s'.
Proof.
  destruct (paging_map_PageAllocated_correct demo_pml4 false demo_mm 5 2 2 3 demo_mm_pt demo_mm_phys
    demo_mm_range) as (s' & fs & E1 & _); [rewrite demo_mm_free; lia|lia|].
  exists s'. exact E1.
Defined.
Lemma paging_map_PageAllocated_exhausted_witness :
  paging_map_PageAllocated demo_pml4 false 10 4096 1 2 (set_phy_i 64 demo_mm) = None.
Proof.
  apply (paging_map_PageAllocated_exhausted demo_pml4 false (set_phy_i 64 demo_mm) 4096 1 2 10);
    [|by vm_compute|lia|done|lia].
  constructor; [apply demo_mm_phys|unfold MAX_SYSTEM_MEMORY_PAGES; simpl; lia..].
Defined.

(** [paging_map_PageAllocated2M] of two pages maps both fresh frames at the
    first virtual address, so that the second page of the range is left
    unmapped and the first one translates to the second frame. *)
Theorem paging_map_PageAllocated2M_overlap :
  exists s', paging_map_PageAllocated2M demo_pml4 false 3 (2 * 2097152) 2 MAP_PROT_WRITE demo_mm = Some s' /\
    translate demo_pml4 s' (2 * 2097152) = Some (2 * 2097152) /\
    translate demo_pml4 s' (3 * 2097152) = None.
Proof. eexists. split; [reflexivity|]. split; by vm_compute. Qed.
