(* ===== verification/LargePages.v ===== *)
(** * Large pages: theorems

    [paging_map_Page2M] (src/memory/paging_map.c, modelled in Paging.v) against the
    processor's translation, and which frames the mapping calls take: what the
    set-up of the address space at boot (BootPaging.v) is composed of. *)

From S2P Require Import Prelude Mem Physical Paging PageTable PagingSpec.

(** ** Entries of large pages *)

Definition large_addr (q : Z) : Z := q * 2097152.
Definition large_entry (nx : bool) (physical fl : Z) : Z :=
  Z.lor (Z.lor (Z.lor physical PML_PRESENT) PML_PAGE_SIZE) (prot_bits nx fl).

Lemma large_bit q k : 0 <= k < 21 -> Z.testbit (large_addr q) k = false.
Proof. intros. unfold large_addr. change 2097152 with (2 ^ 21). apply Z.mul_pow2_bits_low; lia. Qed.
Lemma large_bit_high q k : 0 <= q < 2 ^ 31 -> 52 <= k -> Z.testbit (large_addr q) k = false.
Proof.
  intros. unfold large_addr. change 2097152 with (2 ^ 21). rewrite Z.mul_pow2_bits by lia.
  destruct (Z.eq_dec q 0) as [->|]; [apply Z.bits_0|].
  apply Z.bits_above_log2; [lia|]. assert (Z.log2 q < 31) by (apply Z.log2_lt_pow2; lia). lia.
Qed.
Lemma large_entry_range nx q fl : 0 <= q < 2 ^ 31 -> 0 <= large_entry nx (large_addr q) fl < 2 ^ 64.
Proof.
  intros Hq. apply range_testbit.
  - unfold large_entry, large_addr. rewrite !Z.lor_nonneg. unfold PML_PRESENT, PML_PAGE_SIZE.
    destruct (prot_bits_cases nx fl) as [->|[->|[->| ->]]]; lia.
  - intros i Hi. unfold large_entry. rewrite !Z.lor_spec, large_bit_high by lia. unfold PML_PRESENT, PML_PAGE_SIZE.
    rewrite !(Z.bits_above_log2 _ i) by (cbn; lia).
    destruct (prot_bits_cases nx fl) as [->|[->|[->| ->]]]; [apply Z.bits_0|..]; apply Z.bits_above_log2; try lia;
      (eapply Z.lt_le_trans; [|exact Hi]); by vm_compute.
Qed.
Lemma large_entry_flags nx q fl :
  has (large_entry nx (large_addr q) fl) PML_PRESENT = true /\ has (large_entry nx (large_addr q) fl) PML_PAGE_SIZE = true.
Proof.
  rewrite has_present, has_page_size. unfold large_entry. rewrite !Z.lor_spec. change PML_PRESENT with (2 ^ 0). change PML_PAGE_SIZE with (2 ^ 7).
  by rewrite !(Z.pow2_bits_true) by lia; rewrite ?orb_true_r.
Qed.
Lemma large_entry_addr nx q fl : 0 <= q < 2 ^ 31 -> Z.land (large_entry nx (large_addr q) fl) PML_ADDR_MASK_2M = large_addr q.
Proof.
  intros Hq. unfold large_entry. rewrite !Z.land_lor_distr_l.
  assert (Z.land (large_addr q) PML_ADDR_MASK_2M = large_addr q) as ->.
  { change PML_ADDR_MASK_2M with (Z.ones 31 * 2 ^ 21). unfold large_addr. change 2097152 with (2 ^ 21).
    rewrite <- !Z.shiftl_mul_pow2, <- Z.shiftl_land, Z.land_ones by lia. by rewrite Z.mod_small. }
  destruct (prot_bits_cases nx fl) as [->|[->|[->| ->]]]; by rewrite !Z.lor_0_r.
Qed.

(** ** Which frames the mapping functions take *)

(** The frames taken are the first free ones, at most [k] of them. *)
Record takes (k : nat) (s s' : phys) : Prop := {
  tk_new : exists new, free_frames s = new ++ free_frames s' /\ (length new <= k)%nat /\
    forall x, 0 <= x -> used (Bitmap s') x = used (Bitmap s) x || bool_decide (x ∈ new);
  tk_end : EndPhysicalPage s' = EndPhysicalPage s;
  tk_i2 : phy_i_2M s' = phy_i_2M s;
}.
#[export] Instance takes_refl k : Reflexive (takes k).
Proof.
  intros s. constructor; [|done..]. exists []. split_and!; [done|simpl; lia|].
  intros x _. by rewrite orb_false_r.
Qed.
Lemma takes_trans a b s1 s2 s3 : takes a s1 s2 -> takes b s2 s3 -> takes (a + b) s1 s3.
Proof.
  intros [(n1 & F1 & K1 & U1) E1 I1] [(n2 & F2 & K2 & U2) E2 I2]. constructor; [|congruence..].
  exists (n1 ++ n2). split_and!; [by rewrite F1, F2, app_assoc|rewrite length_app; lia|].
  intros x Hx. rewrite U2, U1 by done. rewrite <- orb_assoc. f_equal. apply eq_true_iff_eq.
  by rewrite orb_true_iff, !bool_decide_eq_true, elem_of_app.
Qed.
Lemma takes_free k s s' : takes k s s' -> (length (free_frames s) <= k + length (free_frames s'))%nat.
Proof. intros [(n & -> & Hn & _) _ _]. rewrite length_app. lia. Qed.
Lemma takes_used k s s' x : takes k s s' -> 0 <= x -> used (Bitmap s) x = true -> used (Bitmap s') x = true.
Proof. intros [(n & _ & _ & Hu) _ _] Hx H. by rewrite Hu, H. Qed.

Lemma next_table_takes s table i s' t :
  phys_ok s -> (0 < length (free_frames s))%nat -> next_table s table i = (s', t) -> phys_ok s' /\ takes 1 s s'.
Proof.
  intros Hpo Hf. unfold next_table. destruct (has _ _); [by intros [= <- _]|].
  destruct (free_frames s) as [|g fs] eqn:Hff; [simpl in Hf; lia|].
  destruct (AllocateOneFrame_spec s g fs Hpo Hff) as (s1 & -> & Hpo1 & Hff1 & Hu1 & _ & He1 & Hi1).
  intros [= <- _]. split; [constructor; apply Hpo1|]. constructor; [|done..]. exists [g]. split_and!; [|done|].
  - rewrite Hff. change (free_frames (set_entry _ _ _ s1)) with (free_frames s1). by rewrite Hff1.
  - intros x Hx. simpl. rewrite Hu1 by done. f_equal. apply eq_true_iff_eq.
    by rewrite Z.eqb_eq, bool_decide_eq_true, list_elem_of_singleton.
Qed.
Lemma set_entry_takes k table i v s s' : takes k s s' -> takes k s (set_entry table i v s').
Proof. intros [Hn He Hi]. by constructor. Qed.

Lemma map_one_Page_takes PML4Table nx physical virt fl s :
  phys_ok s -> (3 <= length (free_frames s))%nat -> takes 3 s (map_one_Page PML4Table nx physical virt fl s).
Proof.
  intros Hpo Hf. unfold map_one_Page.
  destruct (next_table s PML4Table _) as [s1 t1] eqn:E1.
  destruct (next_table_takes _ _ _ _ _ Hpo ltac:(lia) E1) as [P1 T1]. pose proof (takes_free _ _ _ T1).
  destruct (next_table s1 t1 _) as [s2 t2] eqn:E2.
  destruct (next_table_takes _ _ _ _ _ P1 ltac:(lia) E2) as [P2 T2]. pose proof (takes_free _ _ _ T2).
  destruct (next_table s2 t2 _) as [s3 t3] eqn:E3.
  destruct (next_table_takes _ _ _ _ _ P2 ltac:(lia) E3) as [P3 T3].
  apply set_entry_takes. exact (takes_trans 1 2 _ _ _ T1 (takes_trans 1 1 _ _ _ T2 T3)).
Qed.

Section Large.
Variable PML4Table : Z.
Variable nx : bool.
Abbreviation pt_ok := (pt_ok PML4Table).
Abbreviation walk := (walk PML4Table).
Abbreviation leaf := (leaf PML4Table).
Abbreviation translate := (translate PML4Table).
Abbreviation data_ok := (data_ok PML4Table).

(** ** One large page *)

(** Writing a large page where there is no table changes that entry only. *)
Lemma set_large_ok s L f e :
  pt_ok s -> 0 <= L < 512 ^ 3 -> walk 2 s (L / 512) = Some (frame_addr f) -> walk 3 s L = None ->
  0 <= e < 2 ^ 64 -> has e PML_PRESENT = true -> has e PML_PAGE_SIZE = true ->
  let s' := set_entry (frame_addr f) (L mod 512) e s in
  pt_ok s' /\ leaf 2 s' L = Some e /\
  (forall d p, (d <= 3)%nat -> 0 <= p < 512 ^ Z.of_nat (S d) -> d <> 2%nat \/ p <> L -> leaf d s' p = leaf d s p) /\
  data_ok s s' /\ (forall d p, (d <= 3)%nat -> 0 <= p < 512 ^ Z.of_nat d -> walk d s' p = walk d s p).
Proof.
  intros Hok HL Hw Hno He Hpr Hps s'. change (512 ^ 3) with (512 ^ Z.of_nat (S 2)) in HL.
  pose proof (prefix_range _ _ HL) as HL'.
  assert (is_table (entry s (frame_addr f) (L mod 512)) = false) as Hold.
  { rewrite walk_S, Hw in Hno. cbn [mbind option_bind] in Hno. by destruct (is_table _). }
  assert (is_table e = false) as Hnew by (unfold is_table; by rewrite Hpr, Hps).
  assert (forall d p h, (d <= 3)%nat -> 0 <= p < 512 ^ Z.of_nat (S d) -> walk d s (p / 512) = Some (frame_addr h) ->
    (d = 2%nat /\ p = L /\ h = f) \/ entry s' (frame_addr h) (p mod 512) = entry s (frame_addr h) (p mod 512)) as Hent.
  { intros d p h Hd Hp Hwp. pose proof (prefix_range _ _ Hp).
    destruct (decide (h = f /\ p mod 512 = L mod 512)) as [[-> Hm]|Hne].
    - left. destruct (pt_inj _ _ Hok d (p / 512) 2 (L / 512) _ Hd ltac:(lia) ltac:(done) ltac:(done) Hwp Hw) as [-> Hdiv].
      split; [done|]. split; [lia|done].
    - right. unfold s'. rewrite entry_set_ne; [done|lia|lia|]. destruct (decide (h = f)) as [->|]; [right|by left]. intros Hm. by apply Hne. }
  assert (forall d p, (d <= 3)%nat -> 0 <= p < 512 ^ Z.of_nat d -> walk d s' p = walk d s p) as Hws.
  { induction d as [|d IH]; intros p Hd Hp; [done|]. pose proof (prefix_range _ _ Hp). rewrite !walk_S, IH by lia.
    destruct (walk d s (p / 512)) as [t|] eqn:Et; [|done]. cbn [mbind option_bind].
    destruct (pt_used _ _ Hok d _ _ ltac:(lia) ltac:(eassumption) Et) as (h & -> & _).
    destruct (Hent d p h ltac:(lia) Hp Et) as [(-> & -> & ->)|E]; [|by rewrite E].
    unfold s'. rewrite entry_set_eq by done. by rewrite Hnew, Hold. }
  split_and!.
  - constructor.
    + intros d p t Hd Hp. rewrite Hws by done. by apply (pt_used _ _ Hok).
    + intros d p d' p' t Hd Hd' Hp Hp'. rewrite !Hws by done. by apply (pt_inj _ _ Hok).
  - unfold PageTable.leaf. rewrite Hws, Hw by (done || lia). cbn [mbind option_bind]. unfold s'. rewrite entry_set_eq by done. by rewrite Hpr, Hps.
  - intros d p Hd Hp Hne. pose proof (prefix_range _ _ Hp). unfold PageTable.leaf. rewrite Hws by done.
    destruct (walk d s (p / 512)) as [t|] eqn:Et; [|done]. cbn [mbind option_bind].
    destruct (pt_used _ _ Hok d _ _ Hd ltac:(eassumption) Et) as (h & -> & _).
    destruct (Hent d p h Hd Hp Et) as [(-> & -> & _)|E]; [by destruct Hne|by rewrite E].
  - intros g Hg Hu Ht. split_and!; [done| |].
    + intros (d & p & Hd & Hp & Hwp). apply Ht. rewrite Hws in Hwp by done. by exists d, p.
    + intros x Hx. apply set_entry_outside; [lia|]. intros Hxf. apply Ht.
      exists 2%nat, (L / 512). split_and!; [lia|lia..|]. congruence.
  - exact Hws.
Qed.

Lemma map_one_Page2M_spec s virt q fl : let L := vpn virt / 512 in
  pt_ok s -> phys_ok s -> (2 <= length (free_frames s))%nat -> 0 <= q < 2 ^ 31 ->
  leaf 0 s (L / 262144) = None -> leaf 1 s (L / 512) = None -> walk 3 s L = None ->
  let s' := map_one_Page2M PML4Table nx (large_addr q) virt fl s in
  pt_ok s' /\ phys_ok s' /\ takes 2 s s' /\
  leaf 2 s' L = Some (large_entry nx (large_addr q) fl) /\
  (forall d p, (d <= 3)%nat -> 0 <= p < 512 ^ Z.of_nat (S d) -> d <> 2%nat \/ p <> L -> leaf d s' p = leaf d s p) /\
  data_ok s s' /\ (forall p, 0 <= p < 512 ^ 3 -> walk 3 s' p = walk 3 s p).
Proof.
  intros L Hok Hpo Hfr Hq L0 L1 W s'. destruct (vpn_digits virt) as (HP & D39 & D30 & D21 & _). fold L in D21.
  assert (vpn virt / 134217728 = L / 262144 /\ vpn virt / 262144 = L / 512) as [E0 E1] by (unfold L; lia). rewrite E0 in D39. rewrite E1 in D30.
  assert (0 <= L < 134217728) as HL by (unfold L; lia).
  destruct (pt_used _ _ Hok 0 0 PML4Table ltac:(lia) ltac:(simpl; lia) eq_refl) as (f0 & Hf0 & _).
  subst s'. unfold map_one_Page2M. rewrite D39, D30, D21, Hf0.
  destruct (next_table_spec PML4Table s 0 0 f0 (L / 262144)) as (s1 & f1 & N1 & W1 & Hok1 & Hpo1 & Hsm1 & Hdt1 & Hl1 & Hk1);
    [try done; try (simpl; lia)..|].
  { by rewrite <- Hf0. }
  destruct (next_table_takes _ _ _ _ _ Hpo ltac:(lia) N1) as [_ T1]. rewrite N1.
  change (0 * 512 + L / 262144) with (L / 262144) in *.
  assert (L / 262144 * 512 + (L / 512) mod 512 = L / 512) as E2 by lia.
  destruct (next_table_spec PML4Table s1 1 (L / 262144) f1 ((L / 512) mod 512))
    as (s2 & f2 & N2 & W2 & Hok2 & Hpo2 & Hsm2 & Hdt2 & Hl2 & Hk2); [try done; try (simpl; lia)..|].
  { rewrite E2, (sm_leaf _ _ _ Hsm1); [done|lia|simpl; lia]. }
  destruct (next_table_takes _ _ _ _ _ Hpo1 ltac:(lia) N2) as [_ T2]. rewrite N2.
  rewrite E2 in W2. fold (large_entry nx (large_addr q) fl). set (e := large_entry nx (large_addr q) fl).
  assert (forall p, 0 <= p < 512 ^ 3 -> walk 3 s2 p = walk 3 s p) as Hw3.
  { intros p Hp. change (512 ^ 3) with (512 ^ Z.of_nat 3) in Hp. by rewrite (Hk2 3%nat), (Hk1 3%nat) by (done || lia || by left). }
  assert (free_old_table s2 (frame_addr f2) (L mod 512) = s2) as ->.
  { pose proof (eq_trans (Hw3 L HL) W) as W3. rewrite walk_S, W2 in W3. cbn [mbind option_bind] in W3. unfold free_old_table.
    unfold is_table in W3. by destruct (has _ _ && negb _). }
  destruct (large_entry_flags nx q fl) as [Fp Fs].
  destruct (set_large_ok s2 L f2 e Hok2 HL W2 (eq_trans (Hw3 L HL) W) (large_entry_range nx q fl Hq) Fp Fs) as (Hok3 & HLe & Ho & Hda & Hw4).
  rewrite <- Hf0. split_and!.
  - exact Hok3.
  - constructor; apply Hpo2.
  - apply set_entry_takes. exact (takes_trans 1 1 _ _ _ T1 T2).
  - exact HLe.
  - intros d p Hd Hp Hne. rewrite Ho by done. by rewrite (sm_leaf _ _ _ Hsm2), (sm_leaf _ _ _ Hsm1).
  - etransitivity; [done|]. etransitivity; [done|]. exact Hda.
  - intros p Hp. rewrite (Hw4 3%nat) by (done || lia). by apply Hw3.
Qed.
End Large.
