(* ===== verification/Unmap.v ===== *)
(** * Unmapping: theorems

    [paging_map_FreeAllocated] (src/memory/paging_map.c, modelled in Paging.v)
    against the processor's translation and the frame bitmap, and the round trip
    with [paging_map_PageAllocated]. *)

From S2P Require Import Prelude Mem MinMax Physical Paging PageTable PagingSpec LargePages.

(** ** Freeing a frame *)

Lemma land_range a b : 0 <= a < 2 ^ 64 -> 0 <= Z.land a b < 2 ^ 64.
Proof.
  intros Ha. apply range_testbit; [apply Z.land_nonneg; lia|]. intros i Hi. by rewrite Z.land_spec, (testbit_high a) by done.
Qed.
Lemma BitmapWriteZero_words_ok b begin end_ : words_ok b -> words_ok (paging_physical_BitmapWriteZero b begin end_).
Proof.
  intros Hb. unfold paging_physical_BitmapWriteZero. zcase.
  - intros i. unfold upd. zcase; [by apply land_range|done].
  - intros i. unfold fill_words, upd. destruct (_ && _); [lia|]. repeat zcase; try done; by apply land_range; zcase || apply Hb.
Qed.
Lemma FreeFrame_phys_ok f n s : phys_ok s -> phys_ok (paging_physical_FreeFrame f n s).
Proof.
  intros [Hw H1 H2 H3]. unfold paging_physical_FreeFrame. destruct (negb _); [done|]. constructor; try done. cbn [Bitmap set_bitmap].
  by apply BitmapWriteZero_words_ok.
Qed.

Section Unmap.
Variable PML4Table : Z.
Variable nx : bool.
Abbreviation pt_ok := (pt_ok PML4Table).
Abbreviation walk := (walk PML4Table).
Abbreviation leaf := (leaf PML4Table).
Abbreviation is_tab := (is_tab PML4Table).
Abbreviation translate := (translate PML4Table).
Abbreviation no_large := (no_large PML4Table).

(** The tables are in the memory, not in the bitmap. *)
Lemma walk_bitmap b s d : forall p, walk d (set_bitmap b s) p = walk d s p.
Proof. induction d as [|d IH]; intros p; [done|]. by rewrite !walk_S, IH. Qed.
Lemma FreeFrame_bitmap f n s : exists b, paging_physical_FreeFrame f n s = set_bitmap b s.
Proof. unfold paging_physical_FreeFrame. destruct (negb _); [|by eexists]. exists (Bitmap s). by destruct s. Qed.
Lemma FreeFrame_walk f n s d p : walk d (paging_physical_FreeFrame f n s) p = walk d s p.
Proof. destruct (FreeFrame_bitmap f n s) as [b ->]. apply walk_bitmap. Qed.
Lemma FreeFrame_leaf f n s d p : leaf d (paging_physical_FreeFrame f n s) p = leaf d s p.
Proof. unfold PageTable.leaf. rewrite FreeFrame_walk. by destruct (FreeFrame_bitmap f n s) as [b ->]. Qed.
Lemma FreeFrame_is_tab f n s g : is_tab (paging_physical_FreeFrame f n s) g <-> is_tab s g.
Proof. split; intros (d & p & Hd & Hp & Hw); exists d, p; by rewrite FreeFrame_walk in *. Qed.
Lemma FreeFrame_pt_ok q n s : pt_ok s -> 0 <= q -> 0 < n -> q + n < 2 ^ 31 -> (forall f, q <= f < q + n -> ~ is_tab s f) ->
  pt_ok (paging_physical_FreeFrame (frame_addr q) n s).
Proof.
  intros Hok Hq Hn Hqn Ht. destruct (FreeFrame_spec q n s Hq Hn Hqn) as (Hu & _). constructor.
  - intros d p t Hd Hp. rewrite FreeFrame_walk. intros Hw. destruct (pt_used _ _ Hok d p t Hd Hp Hw) as (f & -> & Hf & Huf).
    exists f. split; [done|]. split; [done|]. rewrite Hu by done. rewrite Huf. destruct (decide (q <= f < q + n)) as [Hin|]; [|lia].
    destruct (Ht f Hin). by exists d, p.
  - intros d p d' p' t Hd Hd' Hp Hp'. rewrite !FreeFrame_walk. by apply (pt_inj _ _ Hok).
Qed.

(** The pages under an entry at depth [d], and the mask of its frame. *)
Definition span (d : nat) : Z := 512 ^ Z.of_nat (3 - d).
Definition leaf_mask (d : nat) : Z := level_mask (3 - d).

(** Clearing the entry of a mapping, at any depth: no table goes, and the other
    mappings stay. *)
Lemma clear_leaf_ok s d p f e :
  pt_ok s -> (d <= 3)%nat -> 0 <= p < 512 ^ Z.of_nat (S d) -> walk d s (p / 512) = Some (frame_addr f) -> leaf d s p = Some e ->
  let s' := set_entry (frame_addr f) (p mod 512) 0 s in
  pt_ok s' /\ (forall d' p', (d' <= 3)%nat -> 0 <= p' < 512 ^ Z.of_nat d' -> walk d' s' p' = walk d' s p') /\
  (forall d' p', (d' <= 3)%nat -> 0 <= p' < 512 ^ Z.of_nat (S d') ->
     leaf d' s' p' = if decide (d' = d /\ p' = p) then None else leaf d' s p').
Proof.
  intros Hok Hd Hp Hw Hl s'. pose proof (prefix_range _ _ Hp) as Hp2.
  assert (is_table (entry s (frame_addr f) (p mod 512)) = false \/ d = 3%nat) as Hold.
  { unfold PageTable.leaf in Hl. rewrite Hw in Hl. cbn [mbind option_bind] in Hl. destruct (Nat.eqb_spec d 3) as [|Hd3]; [by right|left].
    unfold is_table. destruct (has _ PML_PRESENT); [|done]. cbn [orb andb] in *. by destruct (has _ PML_PAGE_SIZE). }
  assert (forall d' q h, (d' <= 3)%nat -> 0 <= q < 512 ^ Z.of_nat (S d') -> walk d' s (q / 512) = Some (frame_addr h) ->
    (d' = d /\ q = p /\ h = f) \/ (~ (d' = d /\ q = p) /\ entry s' (frame_addr h) (q mod 512) = entry s (frame_addr h) (q mod 512))) as Hent.
  { intros d' q h Hd' Hq Hwq. pose proof (prefix_range _ _ Hq).
    destruct (decide (h = f /\ q mod 512 = p mod 512)) as [[-> Hm]|Hne].
    - left. destruct (pt_inj _ _ Hok d' (q / 512) d (p / 512) _ Hd' Hd ltac:(done) ltac:(done) Hwq Hw) as [-> Hdiv].
      split; [done|]. split; [lia|done].
    - right. split.
      + intros [-> ->]. rewrite Hw in Hwq. apply Hne. split; [|done]. injection Hwq. unfold frame_addr. lia.
      + unfold s'. rewrite entry_set_ne; [done|lia|lia|]. destruct (decide (h = f)) as [->|]; [right|by left]. intros Hm. by apply Hne. }
  assert (forall d' q, (d' <= 3)%nat -> 0 <= q < 512 ^ Z.of_nat d' -> walk d' s' q = walk d' s q) as Hws.
  { induction d' as [|d' IH]; intros q Hd' Hq; [done|]. pose proof (prefix_range _ _ Hq). rewrite !walk_S, IH by lia.
    destruct (walk d' s (q / 512)) as [t|] eqn:Et; [|done]. cbn [mbind option_bind].
    destruct (pt_used _ _ Hok d' _ _ ltac:(lia) ltac:(eassumption) Et) as (h & -> & _).
    destruct (Hent d' q h ltac:(lia) Hq Et) as [(-> & -> & ->)|[_ E]]; [|by rewrite E].
    destruct Hold as [Hold|]; [|lia]. unfold s'. rewrite entry_set_eq by (change (2 ^ 64) with 18446744073709551616; lia). by rewrite Hold. }
  split_and!; [|exact Hws|].
  - constructor.
    + intros d' q t Hd' Hq. rewrite Hws by done. by apply (pt_used _ _ Hok).
    + intros d1 q1 d2 q2 t H1 H2 Hq1 Hq2. rewrite !Hws by done. by apply (pt_inj _ _ Hok).
  - intros d' q Hd' Hq. pose proof (prefix_range _ _ Hq). unfold PageTable.leaf. rewrite Hws by done.
    destruct (walk d' s (q / 512)) as [t|] eqn:Et; [|by case_decide]. cbn [mbind option_bind].
    destruct (pt_used _ _ Hok d' _ _ Hd' ltac:(eassumption) Et) as (h & -> & _).
    destruct (Hent d' q h Hd' Hq Et) as [(-> & -> & ->)|[Hne E]]; [|by rewrite E, decide_False].
    rewrite decide_True by done. unfold s'. by rewrite entry_set_eq by (change (2 ^ 64) with 18446744073709551616; lia).
Qed.

(** ** What the loop meets

    A page number that nothing maps, or a mapping at a depth: of one page (3), of
    2M (2) or of 1G (1), with its first frame. *)
Definition piece : Type := option (nat * Z).
(** How far the loop goes on. *)
Definition advance (o : piece) : Z := match o with Some (d, _) => span d | None => 1 end.
(** What page [P] is; the frames of a mapping hold no table. *)
Definition piece_at (s : phys) (P : Z) (o : piece) : Prop :=
  match o with
  | None => forall d, (d <= 3)%nat -> leaf d s (P / span d) = None
  | Some (d, q) => (1 <= d <= 3)%nat /\ (exists e, leaf d s (P / span d) = Some e /\ Z.land e (leaf_mask d) = frame_addr q) /\
      0 <= q /\ q + span d < 2 ^ 31 /\ forall f, q <= f < q + span d -> ~ is_tab s f
  end.
(** The pieces the loop meets from page [V] to before page [E], without running
    over the end of the 64-bit addresses. *)
Fixpoint pieces_at (s : phys) (V E : Z) (pieces : list piece) : Prop :=
  match pieces with
  | [] => E <= V
  | o :: pieces => V < E /\ V + advance o < 2 ^ 52 /\ piece_at s (V mod 2 ^ 36) o /\ pieces_at s (V + advance o) E pieces
  end.
(** Whether the mapping at depth [d] of the prefix [p] is met. *)
Fixpoint hits (V : Z) (pieces : list piece) (d : nat) (p : Z) : bool :=
  match pieces with
  | [] => false
  | o :: pieces =>
      (match o with Some (d', _) => (d =? d')%nat && (p =? V mod 2 ^ 36 / span d) | None => false end) || hits (V + advance o) pieces d p
  end.
(** Whether page [P] belongs to a mapping that is met. *)
Definition covers (V : Z) (pieces : list piece) (P : Z) : bool :=
  hits V pieces 1 (P / span 1) || hits V pieces 2 (P / span 2) || hits V pieces 3 (P / span 3).
(** Whether frame [f] backs one. *)
Definition frees (pieces : list piece) (f : Z) : bool :=
  existsb (fun o => match o with Some (d, q) => (q <=? f) && (f <? q + span d) | None => false end) pieces.
(** Every mapping is met at its first page. *)
Fixpoint aligned (V : Z) (pieces : list piece) : Prop :=
  match pieces with
  | [] => True
  | o :: pieces => V mod advance o = 0 /\ aligned (V + advance o) pieces
  end.

Lemma span_range d : (d <= 3)%nat -> 1 <= span d /\ (d = 3%nat /\ span d = 1 \/ d = 2%nat /\ span d = 512 \/ d = 1%nat /\ span d = 262144 \/ d = 0%nat /\ span d = 134217728).
Proof. intros Hd. unfold span. do 4 (destruct d as [|d]; [vm_compute; intuition congruence|]). lia. Qed.
Lemma advance_range s P o : piece_at s P o -> 1 <= advance o <= 262144.
Proof. destruct o as [[d q]|]; [|cbn; lia]. intros ((? & ?) & _). cbn [advance]. destruct (span_range d); lia. Qed.

(** ** One round *)

Lemma leaf_walk d s p e : leaf d s p = Some e -> exists t, walk d s (p / 512) = Some t /\ e = entry s t (p mod 512) /\
  has e PML_PRESENT = true /\ (d = 3%nat \/ has e PML_PAGE_SIZE = true).
Proof.
  unfold PageTable.leaf. destruct (walk d s (p / 512)) as [t|]; [|done]. cbn [mbind option_bind].
  destruct (has (entry s t (p mod 512)) PML_PRESENT) eqn:Ep; [|done]. cbn [andb]. intros E. exists t. split; [done|].
  destruct (Nat.eqb_spec d 3), (has (entry s t (p mod 512)) PML_PAGE_SIZE) eqn:Es; cbn in E; simplify_eq; auto.
Qed.
(** The table above a table. *)
Lemma walk_up d s p p' t : p / 512 = p' -> walk (S d) s p = Some t -> exists t', walk d s p' = Some t' /\
  let e := entry s t' (p mod 512) in has e PML_PRESENT = true /\ has e PML_PAGE_SIZE = false /\ t = Z.land e PML_ADDR_MASK.
Proof.
  intros <-. rewrite walk_S. destruct (walk d s (p / 512)) as [t'|]; [|done]. cbn [mbind option_bind]. unfold is_table.
  destruct (has (entry s t' (p mod 512)) PML_PRESENT) eqn:Ep; [|done]. destruct (has (entry s t' (p mod 512)) PML_PAGE_SIZE) eqn:Es; [done|].
  cbn [andb negb]. intros [= <-]. exists t'. by rewrite Ep, Es.
Qed.

Section Round.
Context (s : phys) (virt : Z).
Let P := vpn virt.
Let e0 := entry s PML4Table (P / 134217728).
Let ent (t i : Z) := entry s t (i mod 512).

Lemma round_digits : 0 <= P < 68719476736 /\ takeBitfield virt 47 39 = P / 134217728 /\ takeBitfield virt 38 30 = (P / 262144) mod 512 /\
  takeBitfield virt 29 21 = (P / 512) mod 512 /\ takeBitfield virt 20 12 = P mod 512 /\ (P / 134217728) mod 512 = P / 134217728 /\
  P / 262144 / 512 = P / 134217728 /\ P / 512 / 512 = P / 262144.
Proof. destruct (vpn_digits virt) as (HP & ? & ? & ? & ?). fold P in HP. split_and!; try done; lia. Qed.
(** [free_one] with the fields of the address named. *)
Lemma free_one_fields : free_one PML4Table virt s =
  let next := u64 (virt + SYSTEM_PAGE_SIZE) in
  if negb (has e0 PML_PRESENT) then (s, next) else
  let t1 := Z.land e0 PML_ADDR_MASK in
  if negb (has (ent t1 (P / 262144)) PML_PRESENT) then (s, next) else
  if has (ent t1 (P / 262144)) PML_PAGE_SIZE then
    (set_entry t1 (P / 262144 mod 512) 0 (paging_physical_FreeFrame (Z.land (ent t1 (P / 262144)) PML_ADDR_MASK_1G) 262144 s),
     u64 (virt + SYSTEM_PAGE_1G_SIZE)) else
  let t2 := Z.land (ent t1 (P / 262144)) PML_ADDR_MASK in
  if negb (has (ent t2 (P / 512)) PML_PRESENT) then (s, next) else
  if has (ent t2 (P / 512)) PML_PAGE_SIZE then
    (set_entry t2 (P / 512 mod 512) 0 (paging_physical_FreeFrame (Z.land (ent t2 (P / 512)) PML_ADDR_MASK_2M) 512 s),
     u64 (virt + SYSTEM_PAGE_2M_SIZE)) else
  let t3 := Z.land (ent t2 (P / 512)) PML_ADDR_MASK in
  (if has (ent t3 P) PML_PRESENT then set_entry t3 (P mod 512) 0 (paging_physical_FreeFrame (Z.land (ent t3 P) PML_ADDR_MASK) 1 s) else s, next).
Proof. destruct round_digits as (_ & E1 & E2 & E3 & E4 & _). unfold free_one. by rewrite E1, E2, E3, E4. Qed.

Lemma round_1 t : walk 1 s (P / 134217728) = Some t -> has e0 PML_PRESENT = true /\ t = Z.land e0 PML_ADDR_MASK.
Proof.
  destruct round_digits as (_ & _ & _ & _ & _ & E0 & _). intros Hw. destruct (walk_up 0 s _ _ t eq_refl Hw) as (t' & Ht & Hp & _ & ->).
  injection Ht as <-. rewrite E0 in *. done.
Qed.
Lemma round_2 t : walk 2 s (P / 262144) = Some t -> has e0 PML_PRESENT = true /\ let t1 := Z.land e0 PML_ADDR_MASK in
  has (ent t1 (P / 262144)) PML_PRESENT = true /\ has (ent t1 (P / 262144)) PML_PAGE_SIZE = false /\ t = Z.land (ent t1 (P / 262144)) PML_ADDR_MASK.
Proof.
  destruct round_digits as (_ & _ & _ & _ & _ & _ & D1 & _). intros Hw. destruct (walk_up 1 s _ _ t D1 Hw) as (t' & Ht & Hp & Hs & ->).
  destruct (round_1 t' Ht) as [? ->]. done.
Qed.
Lemma round_3 t : walk 3 s (P / 512) = Some t -> has e0 PML_PRESENT = true /\ let t1 := Z.land e0 PML_ADDR_MASK in
  has (ent t1 (P / 262144)) PML_PRESENT = true /\ has (ent t1 (P / 262144)) PML_PAGE_SIZE = false /\ let t2 := Z.land (ent t1 (P / 262144)) PML_ADDR_MASK in
  has (ent t2 (P / 512)) PML_PRESENT = true /\ has (ent t2 (P / 512)) PML_PAGE_SIZE = false /\ t = Z.land (ent t2 (P / 512)) PML_ADDR_MASK.
Proof.
  destruct round_digits as (_ & _ & _ & _ & _ & _ & _ & D2). intros Hw. destruct (walk_up 2 s _ _ t D2 Hw) as (t' & Ht & Hp & Hs & ->).
  destruct (round_2 t' Ht) as (? & ? & ? & ->). done.
Qed.

Lemma free_one_page t e : walk 3 s (P / 512) = Some t -> leaf 3 s P = Some e ->
  free_one PML4Table virt s = (set_entry t (P mod 512) 0 (paging_physical_FreeFrame (Z.land e PML_ADDR_MASK) 1 s), u64 (virt + SYSTEM_PAGE_SIZE)).
Proof.
  intros Hw Hl. destruct (leaf_walk _ _ _ _ Hl) as (t' & Hw' & -> & Hp & _). assert (t' = t) as -> by congruence.
  rewrite free_one_fields. cbv zeta. destruct (round_3 t Hw) as (A0 & A1 & B1 & A2 & B2 & ->). rewrite A0, A1, B1, A2, B2. cbn [negb]. unfold ent in Hp |- *. by rewrite Hp.
Qed.
Lemma free_one_2M t e : walk 2 s (P / 262144) = Some t -> leaf 2 s (P / 512) = Some e ->
  free_one PML4Table virt s = (set_entry t (P / 512 mod 512) 0 (paging_physical_FreeFrame (Z.land e PML_ADDR_MASK_2M) 512 s), u64 (virt + SYSTEM_PAGE_2M_SIZE)).
Proof.
  destruct round_digits as (_ & _ & _ & _ & _ & _ & _ & D2). intros Hw Hl. destruct (leaf_walk _ _ _ _ Hl) as (t' & Hw' & -> & Hp & [?|Hs]); [done|].
  rewrite D2 in Hw'. assert (t' = t) as -> by congruence.
  rewrite free_one_fields. cbv zeta. destruct (round_2 t Hw) as (A0 & A1 & B1 & ->). rewrite A0, A1, B1. cbn [negb]. unfold ent in Hp, Hs |- *. by rewrite Hp, Hs.
Qed.
Lemma free_one_1G t e : walk 1 s (P / 134217728) = Some t -> leaf 1 s (P / 262144) = Some e ->
  free_one PML4Table virt s = (set_entry t (P / 262144 mod 512) 0 (paging_physical_FreeFrame (Z.land e PML_ADDR_MASK_1G) 262144 s), u64 (virt + SYSTEM_PAGE_1G_SIZE)).
Proof.
  destruct round_digits as (_ & _ & _ & _ & _ & _ & D1 & _). intros Hw Hl. destruct (leaf_walk _ _ _ _ Hl) as (t' & Hw' & -> & Hp & [?|Hs]); [done|].
  rewrite D1 in Hw'. assert (t' = t) as -> by congruence.
  rewrite free_one_fields. cbv zeta. destruct (round_1 t Hw) as (A0 & ->). rewrite A0. cbn [negb]. unfold ent in Hp, Hs |- *. by rewrite Hp, Hs.
Qed.
(** An entry that is present and maps nothing leads to a table. *)
Lemma entry_hole d p p' t : (d < 3)%nat -> p / 512 = p' -> walk d s p' = Some t -> leaf d s p = None -> has (ent t p) PML_PRESENT = true ->
  has (ent t p) PML_PAGE_SIZE = false /\ walk (S d) s p = Some (Z.land (ent t p) PML_ADDR_MASK).
Proof.
  intros Hd <- Hw Hl Hp. destruct (leaf_step PML4Table d s p t Hw Hd) as [(A & _)|[(_ & _ & A & _)|(_ & B & _ & W)]]; [unfold ent in Hp; congruence|congruence|].
  by split.
Qed.
Lemma free_one_hole : leaf 0 s (P / 134217728) = None -> leaf 1 s (P / 262144) = None -> leaf 2 s (P / 512) = None -> leaf 3 s P = None ->
  free_one PML4Table virt s = (s, u64 (virt + SYSTEM_PAGE_SIZE)).
Proof.
  destruct round_digits as (_ & _ & _ & _ & _ & E0 & D1 & D2). intros L0 L1 L2 L3. rewrite free_one_fields. cbv zeta.
  destruct (has e0 PML_PRESENT) eqn:A0; [|done]. assert (has (ent PML4Table (P / 134217728)) PML_PRESENT = true) as A0' by (unfold ent; by rewrite E0).
  destruct (entry_hole 0 (P / 134217728) _ PML4Table ltac:(lia) eq_refl eq_refl L0 A0') as [_ W1]. unfold ent in W1. rewrite E0 in W1. fold e0 in W1.
  cbn [negb]. set (t1 := Z.land e0 PML_ADDR_MASK) in *. clearbody t1.
  destruct (has (ent t1 (P / 262144)) PML_PRESENT) eqn:A1; [|done]. destruct (entry_hole 1 _ _ t1 ltac:(lia) D1 W1 L1 A1) as [B1 W2]. rewrite B1. cbn [negb].
  set (t2 := Z.land (ent t1 (P / 262144)) PML_ADDR_MASK) in *. clearbody t2.
  destruct (has (ent t2 (P / 512)) PML_PRESENT) eqn:A2; [|done]. destruct (entry_hole 2 _ _ t2 ltac:(lia) D2 W2 L2 A2) as [B2 W3]. rewrite B2. cbn [negb].
  set (t3 := Z.land (ent t2 (P / 512)) PML_ADDR_MASK) in *. clearbody t3.
  destruct (has (ent t3 P) PML_PRESENT) eqn:A3; [|done]. exfalso. unfold PageTable.leaf in L3. rewrite W3 in L3. cbn [mbind option_bind] in L3.
  unfold ent in A3. by rewrite A3 in L3.
Qed.
End Round.

Lemma span_values : span 0 = 134217728 /\ span 1 = 262144 /\ span 2 = 512 /\ span 3 = 1.
Proof. done. Qed.
Lemma free_one_step s virt o :
  piece_at s (vpn virt) o ->
  free_one PML4Table virt s =
    (match o with
     | Some (d, q) =>
         match walk d s (vpn virt / span d / 512) with
         | Some t => set_entry t (vpn virt / span d mod 512) 0 (paging_physical_FreeFrame (frame_addr q) (span d) s)
         | None => s
         end
     | None => s
     end, u64 (virt + advance o * SYSTEM_PAGE_SIZE)).
Proof.
  destruct span_values as (S0 & S1 & S2 & S3). destruct (round_digits s virt) as (_ & _ & _ & _ & _ & _ & D1 & D2).
  set (P := vpn virt) in *. destruct o as [[d q]|]; cbn [piece_at advance].
  - intros (Hd & (e & He & Hm) & _). destruct (leaf_walk _ _ _ _ He) as (t & Hw & _). rewrite Hw.
    destruct d as [|[|[|[|d]]]]; [lia| | | |lia]; rewrite ?S1, ?S2, ?S3 in *; rewrite <- Hm.
    + rewrite D1 in Hw. by rewrite (free_one_1G s virt t e).
    + rewrite D2 in Hw. by rewrite (free_one_2M s virt t e).
    + rewrite Z.div_1_r in *. by rewrite (free_one_page s virt t e).
  - intros Ho. pose proof (Ho 0%nat ltac:(lia)) as L0. pose proof (Ho 1%nat ltac:(lia)) as L1. pose proof (Ho 2%nat ltac:(lia)) as L2. pose proof (Ho 3%nat ltac:(lia)) as L3.
    rewrite S0 in L0. rewrite S1 in L1. rewrite S2 in L2. rewrite S3, Z.div_1_r in L3. by rewrite free_one_hole.
Qed.

(** What an operation leaves that meets [pieces] from page [V] on: the mappings
    met are gone and their frames free. *)
Record freed (s s' : phys) (V : Z) (pieces : list piece) : Prop := {
  fr_pt : pt_ok s';
  fr_phys : phys_ok s';
  fr_leaf : forall d p, (d <= 3)%nat -> 0 <= p < 512 ^ Z.of_nat (S d) -> leaf d s' p = if hits V pieces d p then None else leaf d s p;
  fr_used : forall f, 0 <= f -> used (Bitmap s') f = used (Bitmap s) f && negb (frees pieces f);
  fr_tab : forall g, is_tab s' g <-> is_tab s g;
  fr_mem : forall x, ~ is_tab s (x / 4096) -> pmem s' x = pmem s x;
  fr_cursor : phy_i s' = phy_i s /\ EndPhysicalPage s' = EndPhysicalPage s;
}.
Lemma freed_nil s V : pt_ok s -> phys_ok s -> freed s s V [].
Proof. intros. split; try done. intros f Hf. by rewrite andb_true_r. Qed.
Lemma freed_cons s s1 s2 V o pieces : freed s s1 V [o] -> freed s1 s2 (V + advance o) pieces -> freed s s2 V (o :: pieces).
Proof.
  intros [_ _ L1 U1 T1 M1 [C1 C1']] [P2 Q2 L2 U2 T2 M2 [C2 C2']]. split; try done.
  - intros d p Hd Hp. rewrite L2, L1 by done. cbn [hits]. rewrite orb_false_r. by destruct (match o with Some _ => _ | None => _ end), (hits _ _ _ _).
  - intros f Hf. rewrite U2, U1 by done. unfold frees. cbn [existsb]. rewrite orb_false_r, negb_orb. by rewrite andb_assoc.
  - intros g. by rewrite T2, T1.
  - intros x Hx. rewrite M2, M1; [done|done|]. by rewrite T1.
  - split; congruence.
Qed.

Lemma prefix_of P d : 0 <= P < 2 ^ 36 -> (d <= 3)%nat -> 0 <= P / span d < 512 ^ Z.of_nat (S d).
Proof.
  change (2 ^ 36) with 68719476736. intros HP Hd. destruct span_values as (S0 & S1 & S2 & S3).
  destruct d as [|[|[|[|d]]]]; [| | | |lia]; rewrite ?S0, ?S1, ?S2, ?S3;
    [change (512 ^ _) with 512|change (512 ^ _) with 262144|change (512 ^ _) with 134217728|change (512 ^ _) with 68719476736]; lia.
Qed.
Lemma free_one_spec s V o :
  0 <= V -> V + advance o < 2 ^ 52 -> pt_ok s -> phys_ok s -> piece_at s (V mod 2 ^ 36) o ->
  exists s', free_one PML4Table (V * 4096) s = (s', (V + advance o) * 4096) /\ freed s s' V [o].
Proof.
  intros HV HV2 Hok Hpo Ho. pose proof (advance_range _ _ _ Ho) as Ha. pose proof (Z.mod_pos_bound V (2 ^ 36) ltac:(lia)) as HP.
  rewrite free_one_step with (o := o) by (by rewrite vpn_frame). rewrite (vpn_frame V HV).
  assert (u64 (V * 4096 + advance o * SYSTEM_PAGE_SIZE) = (V + advance o) * 4096) as ->.
  { unfold SYSTEM_PAGE_SIZE. change (2 ^ 52) with 4503599627370496 in HV2. rewrite u64_small by lia. lia. }
  eexists. split; [reflexivity|]. set (P := V mod 2 ^ 36) in *.
  destruct o as [[d q]|].
  2:{ split; try done. intros f Hf. by rewrite andb_true_r. }
  destruct Ho as (Hd & (e & He & Hm) & Hq & Hq2 & Ht). destruct (leaf_walk _ _ _ _ He) as (t & Hw & _). rewrite Hw.
  pose proof (prefix_of P d HP ltac:(lia)) as Hp. set (p := P / span d) in *. pose proof (prefix_range _ _ Hp) as Hp2.
  destruct (pt_used _ _ Hok d (p / 512) t ltac:(lia) Hp2 Hw) as (f & -> & Hf & _).
  set (s1 := paging_physical_FreeFrame (frame_addr q) (span d) s).
  destruct (span_range d ltac:(lia)) as [Hsp _].
  destruct (FreeFrame_spec q (span d) s Hq ltac:(lia) Hq2) as (Hu & Hmem & Hi & _ & Hend). fold s1 in Hu, Hmem, Hi, Hend.
  assert (pt_ok s1) as Hok1 by (apply FreeFrame_pt_ok; [done|done|lia|done|done]).
  destruct (clear_leaf_ok s1 d p f e Hok1) as (Hok2 & Hws & HL); [lia|done|unfold s1; by rewrite FreeFrame_walk|unfold s1; by rewrite FreeFrame_leaf|].
  set (s2 := set_entry (frame_addr f) (p mod 512) 0 s1) in *. split; try done.
  - destruct (FreeFrame_phys_ok (frame_addr q) (span d) s Hpo) as [A B C D]. by constructor.
  - intros d' p' Hd' Hp'. rewrite HL by done. cbn [hits]. rewrite orb_false_r. fold P. unfold s1. rewrite FreeFrame_leaf.
    destruct (decide (d' = d /\ p' = p)) as [[-> ->]|Hne].
    + by rewrite Nat.eqb_refl, Z.eqb_refl.
    + destruct (Nat.eqb_spec d' d) as [->|]; [|done]. destruct (Z.eqb_spec p' (P / span d)) as [->|]; [|done]. by destruct Hne.
  - intros g Hg. change (Bitmap s2) with (Bitmap s1). rewrite Hu by done. unfold frees. cbn [existsb]. by rewrite orb_false_r.
  - intros g. split; intros (d' & p' & Hd' & Hp' & Hwp); exists d', p'; (split; [done|]); (split; [done|]).
    + rewrite Hws in Hwp by done. unfold s1 in Hwp. by rewrite FreeFrame_walk in Hwp.
    + rewrite Hws by done. unfold s1. by rewrite FreeFrame_walk.
  - intros x Hx. unfold s2. rewrite set_entry_outside; [by rewrite Hmem|lia|]. intros Hxf. apply Hx. exists d, (p / 512).
    split; [lia|]. split; [done|]. by rewrite Hxf.
Qed.

(** ** Ranges *)

(** What is met later is still there. *)
Lemma piece_at_later s s1 V V' o o' : freed s s1 V [o] -> 0 <= V' mod 2 ^ 36 < 2 ^ 36 -> V mod 2 ^ 36 + advance o <= V' mod 2 ^ 36 -> 
  piece_at s (V mod 2 ^ 36) o -> piece_at s (V' mod 2 ^ 36) o' -> piece_at s1 (V' mod 2 ^ 36) o'.
Proof.
  intros B HV' Hle Ho Ho'. destruct o' as [[d q]|]; cbn [piece_at] in *.
  - destruct Ho' as (Hd & (e & He & Hm) & Hq & Hq2 & Ht). split; [done|]. split; [|split; [done|split; [done|intros f Hf; rewrite (fr_tab _ _ _ _ B); by apply Ht]]].
    exists e. split; [|done]. rewrite (fr_leaf _ _ _ _ B) by (lia || by apply prefix_of; [|lia]). cbn [hits]. rewrite orb_false_r.
    destruct o as [[d' q']|]; [|done]. destruct (Nat.eqb_spec d d') as [->|]; [|done]. cbn [advance andb] in *.
    destruct (span_range d' ltac:(lia)) as [Hs _]. destruct (Z.eqb_spec (V' mod 2 ^ 36 / span d') (V mod 2 ^ 36 / span d')) as [E|]; [|done].
    exfalso. pose proof (Z.div_le_mono _ _ (span d') ltac:(lia) Hle) as Hm'.
    pose proof (Z.div_add (V mod 2 ^ 36) 1 (span d') ltac:(lia)) as Hm2. rewrite Z.mul_1_l in Hm2. lia.
  - intros d Hd. rewrite (fr_leaf _ _ _ _ B) by (lia || by apply prefix_of; [|lia]). rewrite Ho' by done. by destruct (hits _ _ _ _).
Qed.
(** A range that does not leave the address space. *)
Definition range_in (V E : Z) : Prop := 0 <= V /\ V mod 2 ^ 36 + (E - V) <= 2 ^ 36.
Lemma range_next V E a : range_in V E -> V < E -> 1 <= a -> a <= 262144 -> V + a < E -> range_in (V + a) E /\ (V + a) mod 2 ^ 36 = V mod 2 ^ 36 + a.
Proof. unfold range_in. change (2 ^ 36) with 68719476736. intros (? & ?) ? ? ? ?. lia. Qed.
Lemma pieces_at_later s s1 V E o pieces : freed s s1 V [o] -> piece_at s (V mod 2 ^ 36) o -> 
  forall W, range_in W E \/ E <= W -> V mod 2 ^ 36 + advance o <= W mod 2 ^ 36 \/ E <= W -> pieces_at s W E pieces -> pieces_at s1 W E pieces.
Proof.
  intros B Ho. induction pieces as [|o' pieces IH]; intros W HW Hle; [done|]. cbn [pieces_at]. intros (Hlt & Hw & Ho' & Hrest).
  destruct HW as [HW|]; [|lia]. destruct Hle as [Hle|]; [|lia]. pose proof (Z.mod_pos_bound W (2 ^ 36) ltac:(lia)). split; [done|]. split; [done|]. split; [by eapply piece_at_later|].
  pose proof (advance_range _ _ _ Ho') as Ha. destruct (Z.le_gt_cases E (W + advance o')) as [|Hlt'].
  - apply IH; auto.
  - destruct (range_next W E (advance o') HW) as [HW' Em]; [lia..|]. apply IH; [by left|left; lia|done].
Qed.

Lemma FreeAllocated_loop_spec pieces : forall fuel s V E,
  (Z.to_nat (E - V) < fuel)%nat -> pt_ok s -> phys_ok s -> range_in V E \/ E <= V -> pieces_at s V E pieces ->
  exists s', FreeAllocated_loop PML4Table fuel (V * 4096) (E * 4096) s = Some s' /\ freed s s' V pieces.
Proof.
  induction pieces as [|o pieces IH]; intros fuel s V E Hf Hok Hpo HV Hp; (destruct fuel as [|fuel]; [lia|]); cbn [FreeAllocated_loop pieces_at] in *.
  { rewrite (proj2 (Z.ltb_ge _ _)) by lia. exists s. split; [done|]. by apply freed_nil. }
  destruct Hp as (Hlt & Hw & Ho & Hp). destruct HV as [HV|]; [|lia]. rewrite (proj2 (Z.ltb_lt _ _)) by lia. pose proof (advance_range _ _ _ Ho) as Ha.
  destruct (free_one_spec s V o) as (s1 & -> & B1); [apply HV|done|done|done|done|].
  destruct (IH fuel s1 (V + advance o) E) as (s2 & E2 & B2); [lia|apply B1|apply B1| | |].
  - destruct (Z.le_gt_cases E (V + advance o)); [by right|left]. by apply range_next; try lia.
  - apply (pieces_at_later s s1 V E o); [done|done| | |done].
    + destruct (Z.le_gt_cases E (V + advance o)); [by right|left]. by apply range_next; try lia.
    + destruct (Z.le_gt_cases E (V + advance o)); [by right|left]. destruct (range_next V E (advance o) HV) as [_ ->]; lia.
  - exists s2. split; [done|]. by eapply freed_cons.
Qed.
Lemma FreeAllocated_freed s V E pieces :
  pt_ok s -> phys_ok s -> range_in V E -> pieces_at s V E pieces ->
  exists s', paging_map_FreeAllocated PML4Table (V * 4096) (E * 4096) s = Some s' /\ freed s s' V pieces.
Proof.
  intros Hok Hpo HV Hp. unfold paging_map_FreeAllocated, SYSTEM_PAGE_SIZE. rewrite Z.mod_mul by lia. cbn [Z.eqb].
  apply FreeAllocated_loop_spec; [|done|done|by left|done]. lia.
Qed.

(** Behind the loop: the pages covered are not translated, the others as before. *)
Lemma hits_leaf s V E pieces d p : range_in V E \/ E <= V -> pieces_at s V E pieces -> hits V pieces d p = true ->
  (1 <= d <= 3)%nat /\ exists e, leaf d s p = Some e.
Proof.
  revert V. induction pieces as [|o pieces IH]; intros V HV Hp; cbn [hits pieces_at] in *; [done|]. destruct Hp as (Hlt & _ & Ho & Hp). destruct HV as [HV|]; [|lia].
  pose proof (advance_range _ _ _ Ho) as Ha. rewrite orb_true_iff. intros [Hh|Hh].
  - destruct o as [[d' q]|]; [|done]. apply andb_true_iff in Hh as [->%Nat.eqb_eq ->%Z.eqb_eq]. destruct Ho as (Hd & (e & He & _) & _). split; [done|]. by exists e.
  - eapply IH; [|exact Hp|exact Hh]. destruct (Z.le_gt_cases E (V + advance o)); [by right|left]. by apply range_next; try lia.
Qed.
(** Nothing else maps the pages of a mapping. *)
Lemma leaf_alone s d d' P e : leaf d s (P / span d) = Some e -> (1 <= d <= 3)%nat -> (d' <= 3)%nat -> d' <> d -> leaf d' s (P / span d') = None.
Proof.
  intros He Hd Hd' Hne. destruct (leaf d' s (P / span d')) as [e'|] eqn:E'; [|done]. exfalso.
  assert (forall k k' x x', (k < k' <= 3)%nat -> leaf k s (P / span k) = Some x -> leaf k' s (P / span k') = Some x' -> False) as Hlt; [|destruct (decide (d < d')%nat); [eapply (Hlt d d')|eapply (Hlt d' d)]; eauto; lia].
  clear. intros k k' x x' Hk Hx Hx'. destruct (leaf_walk _ _ _ _ Hx) as (t & Ht & -> & Hp & [?|Hs]); [lia|].
  assert (forall j, (k < j <= 3)%nat -> walk j s (P / span j / 512) = None) as Hn.
  { intros j Hj. assert (forall i, (i < 3)%nat -> P / span (S i) / 512 = P / span i) as Hsp.
    { intros i Hi. destruct i as [|[|[|i]]]; [| | |lia]; rewrite ?(eq_refl : span 3 = 1), ?(eq_refl : span 2 = 512), ?(eq_refl : span 1 = 262144), ?(eq_refl : span 0 = 134217728); lia. }
    destruct Hj as [Hj Hj3]. induction Hj as [|j Hj IH].
    - rewrite Hsp by lia. destruct (leaf_step PML4Table k s (P / span k) t Ht ltac:(lia)) as [(A & _)|[(_ & _ & _ & W)|(_ & B & _)]]; [congruence|done|congruence].
    - rewrite Hsp by lia. apply walk_None_S, IH. lia. }
  destruct (leaf_walk _ _ _ _ Hx') as (t' & Ht' & _). rewrite Hn in Ht' by lia. done.
Qed.
Lemma freed_translate s s' V E pieces v : range_in V E -> pieces_at s V E pieces -> freed s s' V pieces ->
  translate s' v = if covers V pieces (vpn v) then None else translate s v.
Proof.
  intros HV Hp B. destruct span_values as (S0 & S1 & S2 & S3). rewrite !translate_leaves. unfold leaf_translate.
  assert (0 <= vpn v < 2 ^ 36) as HP by (unfold vpn; apply Z.mod_pos_bound; lia). set (P := vpn v) in *.
  assert (forall d, (d <= 3)%nat -> leaf d s' (P / span d) = if hits V pieces d (P / span d) then None else leaf d s (P / span d)) as HL.
  { intros d Hd. apply (fr_leaf _ _ _ _ B); [done|]. by apply prefix_of. }
  assert (forall d, hits V pieces d (P / span d) = true -> (1 <= d <= 3)%nat /\ forall d', (d' <= 3)%nat -> leaf d' s' (P / span d') = None) as Hh.
  { intros d Hd. destruct (hits_leaf s V E pieces d _ (or_introl HV) Hp Hd) as (Hd3 & e & He). split; [done|]. intros d' Hd'. rewrite HL by done.
    destruct (decide (d' = d)) as [->|Hne]; [by rewrite Hd|]. rewrite (leaf_alone s d d' P e He Hd3 Hd' Hne). by destruct (hits V pieces d' (P / span d')). }
  pose proof (HL 0%nat ltac:(lia)) as L0. pose proof (HL 1%nat ltac:(lia)) as L1. pose proof (HL 2%nat ltac:(lia)) as L2. pose proof (HL 3%nat ltac:(lia)) as L3.
  assert (hits V pieces 0 (P / span 0) = false) as H0.
  { destruct (hits V pieces 0 (P / span 0)) eqn:E0; [|done]. destruct (Hh _ E0). lia. }
  rewrite H0, S0 in L0. unfold covers.
  assert (hits V pieces 1 (P / span 1) || hits V pieces 2 (P / span 2) || hits V pieces 3 (P / span 3) = true ->
    leaf 0 s' (P / 134217728) = None /\ leaf 1 s' (P / 262144) = None /\ leaf 2 s' (P / 512) = None /\ leaf 3 s' P = None) as Hcov.
  { intros Hc. assert (exists d, hits V pieces d (P / span d) = true) as [d Hd].
    { apply orb_true_iff in Hc as [[Hc|Hc]%orb_true_iff|Hc]; eexists; exact Hc. }
    destruct (Hh d Hd) as [_ Hn]. rewrite <- S0, <- S1, <- S2. pose proof (Hn 3%nat ltac:(lia)) as N3. rewrite S3, Z.div_1_r in N3.
    split_and!; [apply (Hn 0%nat)|apply (Hn 1%nat)|apply (Hn 2%nat)|exact N3]; lia. }
  destruct (hits V pieces 1 (P / span 1) || hits V pieces 2 (P / span 2) || hits V pieces 3 (P / span 3)) eqn:Ec.
  - destruct (Hcov eq_refl) as (-> & -> & -> & ->). done.
  - apply orb_false_iff in Ec as [[E1 E2]%orb_false_iff E3]. rewrite E1, S1 in L1. rewrite E2, S2 in L2. rewrite E3, S3, Z.div_1_r in L3.
    by rewrite L0, L1, L2, L3.
Qed.
(** Where every mapping is met at its first page, each page of the range is
    covered or mapped by nothing. *)
Lemma aligned_covers s V E pieces P : range_in V E \/ E <= V -> pieces_at s V E pieces -> aligned V pieces ->
  V mod 2 ^ 36 <= P < V mod 2 ^ 36 + (E - V) -> covers V pieces P = true \/ forall d, (d <= 3)%nat -> leaf d s (P / span d) = None.
Proof.
  revert V. induction pieces as [|o pieces IH]; intros V HV Hp Hal HP; cbn [pieces_at aligned] in *; [lia|]. destruct Hp as (Hlt & _ & Ho & Hp). destruct Hal as [Hm Hal]. destruct HV as [HV|]; [|lia].
  pose proof (advance_range _ _ _ Ho) as Ha. destruct (Z.lt_ge_cases P (V mod 2 ^ 36 + advance o)) as [Hin|Hout].
  - destruct o as [[d q]|]; cbn [advance piece_at] in *.
    + left. destruct Ho as (Hd & _). destruct span_values as (_ & S1 & S2 & S3).
      assert (P / span d = V mod 2 ^ 36 / span d) as Eq.
      { change (2 ^ 36) with 68719476736 in *. destruct d as [|[|[|[|d]]]]; [lia| | | |lia]; rewrite ?S1, ?S2, ?S3 in *; lia. }
      unfold covers. cbn [hits advance]. destruct d as [|[|[|[|d]]]]; [lia| | | |lia]; cbn [Nat.eqb andb]; rewrite Eq, Z.eqb_refl; cbn [orb]; rewrite ?orb_true_r; done.
    + right. assert (P = V mod 2 ^ 36) as -> by lia. done.
  - destruct (range_next V E (advance o) HV) as [HV' Em]; [lia|lia|lia| |].
    { lia. }
    destruct (IH (V + advance o)) as [Hc|Hn]; [by left|done|done|lia| |by right].
    left. unfold covers in *. cbn [hits]. apply orb_true_iff in Hc as [[Hc|Hc]%orb_true_iff|Hc]; rewrite Hc, !orb_true_r; done.
Qed.

(** ** Ranges of small pages *)

(** What the round needs of a page: it is unmapped, or mapped to a frame that
    holds no table. *)
Definition page_of (s : phys) (P : Z) (o : option Z) : Prop :=
  match o with
  | None => leaf 3 s P = None
  | Some q => (exists e, leaf 3 s P = Some e /\ Z.land e PML_ADDR_MASK = frame_addr q) /\ 0 <= q < 2147483647 /\ ~ is_tab s q
  end.
(** A range of pages is unmapped and [frames] are free. *)
Record unmapped (s s' : phys) (V n : Z) (frames : list Z) : Prop := {
  um_pt : pt_ok s';
  um_phys : phys_ok s';
  um_leaf : forall P, in_range V n P -> leaf 3 s' P = None;
  um_same : same_leaves PML4Table V n s s';
  um_used : forall x, 0 <= x -> used (Bitmap s') x = used (Bitmap s) x && bool_decide (x ∉ frames);
  um_tab : forall g, is_tab s' g <-> is_tab s g;
  um_mem : forall x, ~ is_tab s (x / 4096) -> pmem s' x = pmem s x;
  um_cursor : phy_i s' = phy_i s /\ EndPhysicalPage s' = EndPhysicalPage s;
}.
Definition frames_of (pages : list (option Z)) : list Z := omap id pages.
Definition pages_of (s : phys) (V : Z) (pages : list (option Z)) : Prop :=
  forall k o, pages !! k = Some o -> page_of s (V mod 2 ^ 36 + Z.of_nat k) o.
Definition small (o : option Z) : piece := match o with Some q => Some (3%nat, q) | None => None end.

Lemma small_advance o : advance (small o) = 1.
Proof. by destruct o. Qed.
Lemma small_pieces s V E pages : E < 2 ^ 52 -> range_in V E \/ E <= V -> E - V = Z.of_nat (length pages) ->
  (forall P, V mod 2 ^ 36 <= P < V mod 2 ^ 36 + (E - V) -> no_large s P) -> pages_of s V pages -> pieces_at s V E (small <$> pages).
Proof.
  intros HE. revert V. induction pages as [|o pages IH]; intros V HV Hlen Hl Hp; cbn [pieces_at fmap list_fmap length] in *; [lia|]. destruct HV as [HV|]; [|lia].
  pose proof (Hp O o eq_refl) as Ho. rewrite Z.add_0_r in Ho. destruct (Hl (V mod 2 ^ 36)) as (L0 & L1 & L2); [lia|].
  split; [lia|]. rewrite small_advance. split; [lia|]. split.
  - destruct o as [q|]; cbn [small piece_at page_of] in *.
    + change (span 3) with 1. rewrite Z.div_1_r. destruct Ho as (He & Hq & Ht). split; [lia|]. split; [done|]. split; [lia|]. split; [change (2 ^ 31) with 2147483648; lia|].
      intros f Hf. by replace f with q by lia.
    + intros d Hd. destruct d as [|[|[|[|d]]]]; [done|done|done| |lia]. change (span 3) with 1. by rewrite Z.div_1_r.
  - destruct (Z.le_gt_cases E (V + 1)) as [Hle|Hlt].
    + destruct pages; cbn [length] in *; [cbn; lia|lia].
    + destruct (range_next V E 1 HV) as [HV' Em]; [lia|lia|lia|lia|]. apply IH; [by left|lia|intros P HPr; apply Hl; lia|].
      intros k o' Hk. rewrite Em. replace (V mod 2 ^ 36 + 1 + Z.of_nat k) with (V mod 2 ^ 36 + Z.of_nat (S k)) by lia. by apply (Hp (S k)).
Qed.
Lemma small_hits V E pages d p : range_in V E \/ E <= V -> E - V = Z.of_nat (length pages) ->
  hits V (small <$> pages) d p = true <-> d = 3%nat /\ exists k q, pages !! k = Some (Some q) /\ p = V mod 2 ^ 36 + Z.of_nat k.
Proof.
  revert V. induction pages as [|o pages IH]; intros V HV Hlen; cbn [hits fmap list_fmap length] in *.
  { split; [done|]. by intros (_ & k & q & ? & _). }
  destruct HV as [HV|]; [|lia]. rewrite small_advance, orb_true_iff.
  assert (hits (V + 1) (small <$> pages) d p = true <-> d = 3%nat /\ exists k q, pages !! k = Some (Some q) /\ p = V mod 2 ^ 36 + Z.of_nat (S k)) as ->.
  { destruct (Z.le_gt_cases E (V + 1)) as [Hle|Hlt].
    - destruct pages; cbn [length] in *; [|lia]. cbn. split; [done|]. by intros (_ & k & q & ? & _).
    - destruct (range_next V E 1 HV) as [HV' Em]; [lia|lia|lia|lia|]. rewrite IH by (auto || lia). rewrite Em.
      split; intros (-> & k & q & Hk & ->); (split; [done|]); exists k, q; (split; [done|]); lia. }
  split.
  - intros [Hh|(-> & k & q & Hk & ->)]; [|split; [done|]; by exists (S k), q]. destruct o as [q|]; [|done]. cbn [small] in Hh.
    apply andb_true_iff in Hh as [->%Nat.eqb_eq ->%Z.eqb_eq]. change (span 3) with 1. rewrite Z.div_1_r. split; [done|]. exists O, q. split; [done|lia].
  - intros (-> & [|k] & q & Hk & ->); cbn in Hk; [|right; split; [done|]; by exists k, q]. left. injection Hk as ->. cbn [small].
    change (span 3) with 1. rewrite Z.div_1_r, Z.add_0_r. by rewrite Nat.eqb_refl, Z.eqb_refl.
Qed.
Lemma small_frees pages f : frees (small <$> pages) f = negb (bool_decide (f ∉ frames_of pages)).
Proof.
  induction pages as [|o pages IH]; unfold frees, frames_of in *; cbn [fmap list_fmap existsb omap list_omap id].
  - by rewrite bool_decide_true by apply not_elem_of_nil.
  - rewrite IH. destruct o as [q|]; cbn [small orb]; [|done]. change (span 3) with 1. change (omap id (Some q :: pages)) with (q :: omap id pages).
    destruct (decide (f = q)) as [->|Hne].
    + rewrite (bool_decide_false (q ∉ q :: omap id pages)) by (intros Hn; apply Hn; by left). cbn. rewrite Z.leb_refl, (proj2 (Z.ltb_lt _ _)) by lia. done.
    + assert ((q <=? f) && (f <? q + 1) = false) as -> by lia. cbn [orb]. f_equal. apply bool_decide_ext. rewrite not_elem_of_cons. tauto.
Qed.
Lemma FreeAllocated_spec s V pages :
  pt_ok s -> phys_ok s -> range_ok PML4Table s V (Z.of_nat (length pages)) -> pages_of s V pages ->
  exists s', paging_map_FreeAllocated PML4Table (V * 4096) ((V + Z.of_nat (length pages)) * 4096) s = Some s' /\
    unmapped s s' V (Z.of_nat (length pages)) (frames_of pages).
Proof.
  intros Hok Hpo [(Ha1 & Ha2 & Ha3) Hv Hl] Hp. set (E := V + Z.of_nat (length pages)) in *.
  assert (range_in V E) as HV by (unfold range_in; lia). assert (E - V = Z.of_nat (length pages)) as Hlen by lia.
  pose proof (small_pieces s V E pages Ha3 (or_introl HV) Hlen ltac:(by rewrite Hlen) Hp) as Hps.
  destruct (FreeAllocated_freed s V E _ Hok Hpo HV Hps) as (s' & Es & B). exists s'. split; [exact Es|].
  pose proof (fun d p => small_hits V E pages d p (or_introl HV) Hlen) as Hh. destruct B as [B1 B2 BL BU BT BM BC]. split; try done.
  - intros P HP. unfold in_range in HP. pose proof (Z.mod_pos_bound V (2 ^ 36) ltac:(lia)). rewrite BL by (lia || change (512 ^ _) with (2 ^ 36); lia).
    destruct (hits V (small <$> pages) 3 P) eqn:Ehit; [done|]. destruct (lookup_lt_is_Some_2 pages (Z.to_nat (P - V mod 2 ^ 36))) as [o Hk]; [lia|].
    pose proof (Hp _ _ Hk) as Ho. rewrite Z2Nat.id in Ho by lia. replace (V mod 2 ^ 36 + (P - V mod 2 ^ 36)) with P in Ho by lia.
    destruct o as [q|]; [|done]. assert (hits V (small <$> pages) 3 P = true); [|congruence]. apply Hh. split; [done|]. exists (Z.to_nat (P - V mod 2 ^ 36)), q. split; [done|lia].
  - intros d p Hd Hpr Hne. rewrite BL by done. destruct (hits V (small <$> pages) d p) eqn:Ehit; [|done]. apply Hh in Ehit as (-> & k & q & Hk & ->).
    exfalso. pose proof (lookup_lt_Some _ _ _ Hk). destruct Hne as [?|Hne]; [done|]. apply Hne. unfold in_range. lia.
  - intros x Hx. rewrite BU, small_frees by done. by rewrite negb_involutive.
Qed.

(** Translation behind a range of small pages. *)
Lemma unmapped_translate s s' V n frames v :
  unmapped s s' V n frames -> (forall P, in_range V n P -> no_large s P) -> 0 <= V mod 2 ^ 36 -> V mod 2 ^ 36 + n <= 2 ^ 36 ->
  translate s' v = if bool_decide (V mod 2 ^ 36 <= vpn v < V mod 2 ^ 36 + n) then None else translate s v.
Proof.
  intros B Hl HV Hr. case_bool_decide as Hin.
  - rewrite translate_leaves. unfold leaf_translate.
    destruct (no_large_same PML4Table V n s s' (vpn v) (um_same _ _ _ _ _ B)) as (-> & -> & ->); [lia|by apply Hl|].
    by rewrite (um_leaf _ _ _ _ _ B) by done.
  - apply translate_same. intros d p Hd Hp Hp'. apply (um_same _ _ _ _ _ B); [done|done|].
    destruct Hp' as [?| ->]; [by left|by right].
Qed.

Lemma frames_of_Some frames : frames_of (Some <$> frames) = frames.
Proof. unfold frames_of. induction frames as [|q frames IH]; [done|]. rewrite fmap_cons. cbn. by f_equal. Qed.

(** * Properties *)

(** C6. Unmapping a range on which the loop meets unmapped pages, pages, 2M
    pages and 1G pages returns with every mapping it met gone, as a whole, also
    where it lies outside the range, and every other translation as before;
    exactly the frames of these mappings are marked free, the tables stay well
    formed, no page that holds no table is written, and the allocator's cursor
    stays where it is.  If each mapping is met at its first page, nothing of the
    range is translated any more. *)
Theorem paging_map_FreeAllocated_correct s V E pieces :
  pt_ok s -> phys_ok s -> 0 <= V -> V mod 2 ^ 36 + (E - V) <= 2 ^ 36 -> pieces_at s V E pieces ->
  exists s', paging_map_FreeAllocated PML4Table (V * 4096) (E * 4096) s = Some s' /\
    pt_ok s' /\ phys_ok s' /\ phy_i s' = phy_i s /\
    (forall v, translate s' v = if covers V pieces (vpn v) then None else translate s v) /\
    (aligned V pieces -> forall v, V mod 2 ^ 36 <= vpn v < V mod 2 ^ 36 + (E - V) -> translate s' v = None) /\
    (forall f, 0 <= f -> used (Bitmap s') f = used (Bitmap s) f && negb (frees pieces f)) /\
    (forall x, ~ is_tab s (x / 4096) -> pmem s' x = pmem s x).
Proof.
  intros Hok Hpo HV Hr Hp. assert (range_in V E) as HVE by done.
  destruct (FreeAllocated_freed s V E pieces Hok Hpo HVE Hp) as (s' & Es & B). exists s'. split; [exact Es|].
  pose proof (fun v => freed_translate s s' V E pieces v HVE Hp B) as Ht.
  split_and!; [apply B|apply B|apply B|exact Ht| |apply B|apply B].
  intros Hal v Hv. rewrite Ht. destruct (covers V pieces (vpn v)) eqn:Ec; [done|].
  destruct (aligned_covers s V E pieces (vpn v) (or_introl HVE) Hp Hal Hv) as [?|Hn]; [congruence|].
  rewrite translate_leaves. unfold leaf_translate. destruct span_values as (S0 & S1 & S2 & S3).
  pose proof (Hn 0%nat ltac:(lia)) as N0. pose proof (Hn 1%nat ltac:(lia)) as N1. pose proof (Hn 2%nat ltac:(lia)) as N2. pose proof (Hn 3%nat ltac:(lia)) as N3.
  rewrite S0 in N0. rewrite S1 in N1. rewrite S2 in N2. rewrite S3, Z.div_1_r in N3. by rewrite N0, N1, N2, N3.
Qed.

(** Mapping and then unmapping a range. *)
Lemma alloc_free_spec s V n fl fuel :
  pt_ok s -> phys_ok s -> range_ok PML4Table s V n -> (4 * Z.to_nat n <= length (free_frames s))%nat -> (Z.to_nat n < fuel)%nat ->
  exists s1 frames, paging_map_PageAllocated PML4Table nx fuel (V * 4096) n fl s = Some s1 /\
    length frames = Z.to_nat n /\ backed PML4Table nx s s1 V frames fl /\ same_leaves PML4Table V n s s1 /\ range_ok PML4Table s1 V n /\
    exists s2, paging_map_FreeAllocated PML4Table (V * 4096) ((V + n) * 4096) s1 = Some s2 /\ unmapped s1 s2 V n frames.
Proof.
  intros Hok Hpo Hr Hf Hfuel. pose proof Hr as [(Ha & Hn & Hb) Hv Hl].
  destruct (PageAllocated_loop_backed PML4Table nx fuel n s V fl Hfuel Hn Hok Hpo Hr Hf) as (s1 & frames & E1 & Hlen & B1).
  assert (Z.of_nat (length (Some <$> frames)) = n) as Hlen' by (rewrite length_fmap; lia).
  pose proof (Z.mod_pos_bound V (2 ^ 36) ltac:(lia)) as HVb.
  assert (same_leaves PML4Table V n s s1) as Hs1.
  { pose proof (bk_same _ _ _ _ _ _ _ B1) as Hs. by rewrite Hlen, Z2Nat.id in Hs by lia. }
  assert (range_ok PML4Table s1 V n) as Hr1.
  { constructor; [done|done|]. intros P HP. eapply no_large_same; [exact Hs1|lia|by apply Hl]. }
  pose proof B1 as [P1 Q1 L1 _ _ U1 [[N1 M1] R1] Z1 _]. rewrite Forall_forall in M1, R1, Z1.
  destruct (FreeAllocated_spec s1 V (Some <$> frames) P1 Q1) as (s2 & E2 & B2); [by rewrite Hlen'| |].
  { intros k o Hk. rewrite list_lookup_fmap in Hk. destruct (frames !! k) as [q|] eqn:Eq; [|done]. injection Hk as <-.
    pose proof (list_elem_of_lookup_2 _ _ _ Eq) as Hin. destruct (R1 q Hin) as [Hq _]. destruct (Z1 q Hin) as (_ & Ht & _).
    pose proof (M1 q Hin) as Hm. unfold MAX_SYSTEM_MEMORY_PAGES in Hm. cbn [page_of]. split; [|split; [lia|done]].
    exists (page_entry nx (frame_addr q) fl). split; [by apply L1|]. by apply page_entry_addr. }
  rewrite Hlen' in E2, B2. rewrite frames_of_Some in B2. exists s1, frames. split.
  { unfold paging_map_PageAllocated, SYSTEM_PAGE_SIZE. by rewrite Z.mod_mul. }
  split; [exact Hlen|]. split; [exact B1|]. split; [exact Hs1|]. split; [exact Hr1|]. exists s2. by split.
Qed.
(** Every translation is the one before both. *)
Lemma alloc_free_translate s s1 s2 V n frames v :
  range_ok PML4Table s V n -> range_ok PML4Table s1 V n -> same_leaves PML4Table V n s s1 -> unmapped s1 s2 V n frames ->
  (forall P, in_range V n P -> leaf 3 s P = None) -> translate s2 v = translate s v.
Proof.
  intros [_ Hv Hl] [(Ha & Hn & _) _ Hl1] Hs1 B2 Hnone. pose proof (Z.mod_pos_bound V (2 ^ 36) ltac:(lia)) as HVb.
  rewrite (unmapped_translate s1 s2 V n frames v B2); [|by intros P HP; apply Hl1|lia|done]. case_bool_decide as Hin.
  - symmetry. rewrite translate_leaves. unfold leaf_translate. destruct (Hl (vpn v)) as (-> & -> & ->); [done|]. by rewrite Hnone.
  - apply translate_same. intros d p Hd Hp Hp'. apply Hs1; [done|done|]. destruct Hp' as [?| ->]; [by left|by right].
Qed.
(** A page of the range behind the mapping. *)
Lemma backed_translate s s1 V n frames fl v :
  range_ok PML4Table s1 V n -> length frames = Z.to_nat n -> backed PML4Table nx s s1 V frames fl -> in_range V n (vpn v) ->
  exists f, f ∈ frames /\ translate s1 v = Some (frame_addr f + v mod 4096) /\ pmem s1 (frame_addr f + v mod 4096) = 0.
Proof.
  intros [(? & Hn & _) _ Hl] Hlen B Hin. unfold in_range in Hin. destruct (lookup_lt_is_Some_2 frames (Z.to_nat (vpn v - V mod 2 ^ 36))) as [f Hk]; [lia|].
  pose proof (list_elem_of_lookup_2 _ _ _ Hk) as Hf. exists f. split; [done|]. pose proof B as [_ _ HL _ _ _ [_ R] Z _].
  rewrite Forall_forall in R, Z. destruct (R f Hf) as [Hfr _]. destruct (Z f Hf) as (_ & _ & Hz). split.
  - apply (translate_page PML4Table nx _ _ _ fl); [done|by apply Hl|]. rewrite <- (HL _ _ Hk). f_equal. lia.
  - apply Hz. unfold frame_addr. lia.
Qed.

(** Unmapping what [paging_map_PageAllocated] has mapped on an unmapped
    range gives every address its translation of before and marks every frame it
    backed the range with free again; only the frames of new tables stay used.
    The allocator's cursor does not move back. *)
Theorem PageAllocated_FreeAllocated_roundtrip s V n fl fuel :
  pt_ok s -> phys_ok s -> range_ok PML4Table s V n -> (4 * Z.to_nat n <= length (free_frames s))%nat -> (Z.to_nat n < fuel)%nat ->
  (forall P, in_range V n P -> leaf 3 s P = None) ->
  exists s1 s2 frames, paging_map_PageAllocated PML4Table nx fuel (V * 4096) n fl s = Some s1 /\
    paging_map_FreeAllocated PML4Table (V * 4096) ((V + n) * 4096) s1 = Some s2 /\
    length frames = Z.to_nat n /\ pt_ok s2 /\ phys_ok s2 /\
    (forall v, translate s2 v = translate s v) /\
    (forall f, f ∈ frames -> used (Bitmap s) f = false /\ used (Bitmap s1) f = true /\ used (Bitmap s2) f = false) /\
    (forall f, 0 <= f -> used (Bitmap s) f = true -> used (Bitmap s2) f = true) /\
    (forall f, 0 <= f -> used (Bitmap s2) f = true -> f ∉ frames /\ used (Bitmap s1) f = true) /\
    phy_i s2 = phy_i s1.
Proof.
  intros Hok Hpo Hr Hf Hfuel Hnone.
  destruct (alloc_free_spec s V n fl fuel Hok Hpo Hr Hf Hfuel) as (s1 & frames & E1 & Hlen & B1 & Hs1 & Hr1 & s2 & E2 & B2).
  exists s1, s2, frames. split; [exact E1|]. split; [exact E2|]. split; [exact Hlen|]. split; [apply B2|]. split; [apply B2|].
  pose proof B1 as [_ _ _ _ _ U1 [_ R1] Z1 _]. rewrite Forall_forall in R1, Z1. pose proof (um_used _ _ _ _ _ B2) as U2. split_and!.
  - intros v. by eapply alloc_free_translate.
  - intros f Hin. destruct (R1 f Hin) as [Hq Hfu]. destruct (Z1 f Hin) as (Hu & _). split; [done|]. split; [done|].
    rewrite U2 by lia. rewrite bool_decide_false by (intros Hni; by apply Hni). apply andb_false_r.
  - intros f Hf0 Hu. rewrite U2 by done. rewrite U1 by done. apply bool_decide_true. intros Hin. destruct (R1 f Hin). congruence.
  - intros f Hf0 Hu. rewrite U2 in Hu by done. apply andb_true_iff in Hu as [Hu Hni]. apply bool_decide_eq_true in Hni. done.
  - apply (um_cursor _ _ _ _ _ B2).
Qed.
End Unmap.

Lemma demo_unmap_none P : in_range 5 2 P -> leaf demo_pml4 3 demo_mm P = None.
Proof. intros _. apply demo_mm_leaf. Qed.
Lemma PageAllocated_FreeAllocated_roundtrip_witness :
  exists s1 s2, paging_map_PageAllocated demo_pml4 false 3 (5 * 4096) 2 2 demo_mm = Some s1 /\
    paging_map_FreeAllocated demo_pml4 (5 * 4096) (7 * 4096) s1 = Some s2 /\ translate demo_pml4 s2 (5 * 4096) = None.
Proof.
  destruct (PageAllocated_FreeAllocated_roundtrip demo_pml4 false demo_mm 5 2 2 3 demo_mm_pt demo_mm_phys demo_mm_range)
    as (s1 & s2 & fs & H1 & H2 & _ & _ & _ & H3 & _); [rewrite demo_mm_free; lia|lia|exact demo_unmap_none|].
  exists s1, s2. split; [exact H1|]. split; [exact H2|]. rewrite H3. reflexivity.
Defined.

(** A page and behind it a 2M page are mapped; the range ends inside the 2M
    page, which goes as a whole. *)
Definition demo_large0 : phys := mk_phys (fun i => if i <? 16 then not64 0 else 0) 16 8 4096 (fun _ => 0).
Definition demo_large1 : phys := map_one_Page2M demo_pml4 false (large_addr 1) (512 * 4096) 2 demo_large0.
Definition demo_large2 : phys := map_one_Page demo_pml4 false (frame_addr 100) (511 * 4096) 2 demo_large1.
Lemma demo_large0_walk d p : walk demo_pml4 (S d) demo_large0 p = None.
Proof. revert p. induction d as [|d IH]; intros p; [done|]. by rewrite walk_S, IH. Qed.
Lemma demo_large0_leaf d p : leaf demo_pml4 d demo_large0 p = None.
Proof. destruct d as [|d]; unfold leaf; [done|]. by rewrite demo_large0_walk. Qed.
Lemma demo_large0_ok : pt_ok demo_pml4 demo_large0 /\ phys_ok demo_large0.
Proof.
  split.
  - constructor.
    + intros [|d] p t _ _; [|by rewrite demo_large0_walk]. intros [= <-]. by exists 2.
    + intros [|d] p [|d'] p' t _ _; rewrite ?demo_large0_walk; try done. simpl. lia.
  - constructor; [|unfold demo_large0, MAX_SYSTEM_MEMORY_PAGES; simpl; lia..]. intros i. simpl. zcase; [apply not64_range|lia].
Qed.
Lemma demo_large2_spec : pt_ok demo_pml4 demo_large2 /\ phys_ok demo_large2 /\ data_ok demo_pml4 demo_large0 demo_large2 /\
  leaf demo_pml4 2 demo_large2 1 = Some (large_entry false (large_addr 1) 2) /\
  leaf demo_pml4 3 demo_large2 511 = Some (page_entry false (frame_addr 100) 2).
Proof.
  destruct demo_large0_ok as [Hok Hpo]. assert (vpn (512 * 4096) / 512 = 1 /\ vpn (511 * 4096) = 511) as [E1 E2] by done.
  destruct (map_one_Page2M_spec demo_pml4 false demo_large0 (512 * 4096) 1 2) as (Hok1 & Hpo1 & _ & L2 & Ho & Hd & _);
    [done|done|vm_compute; lia|lia|apply demo_large0_leaf|apply demo_large0_leaf|apply demo_large0_walk|].
  fold demo_large1 in *. rewrite E1 in *.
  assert (forall d p, (d <= 3)%nat -> 0 <= p < 512 ^ Z.of_nat (S d) -> d <> 2%nat \/ p <> 1 -> leaf demo_pml4 d demo_large1 p = None) as Hnone.
  { intros d p ? ? ?. rewrite Ho by done. apply demo_large0_leaf. }
  destruct (map_one_Page_spec demo_pml4 false demo_large1 (511 * 4096) 100 2) as (Hok2 & Hpo2 & _ & L3 & Ho2 & Hd2 & _);
    
    [exact Hok1|exact Hpo1|vm_compute; lia|lia|rewrite E2..|].
  { apply (Hnone 0%nat 0); [lia|lia|left; lia]. }
  { apply (Hnone 1%nat 0); [lia|lia|left; lia]. }
  { apply (Hnone 2%nat 0); [lia|lia|right; lia]. }
  fold demo_large2 in *. rewrite E2 in *. split; [exact Hok2|]. split; [exact Hpo2|]. split; [exact (data_ok_trans _ _ _ _ Hd Hd2)|]. split; [|exact L3].
  rewrite Ho2; [exact L2|lia|lia|left; lia].
Qed.
Lemma demo_large2_pieces : pieces_at demo_pml4 demo_large2 511 513 [Some (3%nat, 100); Some (2%nat, 512)].
Proof.
  destruct demo_large2_spec as (_ & _ & Hd & L2 & L3).
  assert (forall f, 3 <= f < 1024 -> ~ is_tab demo_pml4 demo_large2 f) as Ht.
  { intros f Hf. apply Hd; [lia| |].
    - unfold used, demo_large0. cbn [Bitmap]. rewrite (proj2 (Z.ltb_lt _ _)) by lia. change (not64 0) with (Z.ones 64). rewrite Z.ones_spec_low by lia. done.
    - intros (d & p & _ & _ & Hw). destruct d as [|d]; [|by rewrite demo_large0_walk in Hw]. injection Hw. unfold frame_addr, demo_pml4. lia. }
  assert (Z.land (page_entry false (frame_addr 100) 2) PML_ADDR_MASK = frame_addr 100) as Ea by reflexivity.
  assert (Z.land (large_entry false (large_addr 1) 2) PML_ADDR_MASK_2M = frame_addr 512) as Eb by reflexivity.
  cbn [pieces_at piece_at advance]. change (511 mod 2 ^ 36) with 511. change ((511 + span 3) mod 2 ^ 36) with 512.
  change (511 / span 3) with 511. change (512 / span 2) with 1. change (leaf_mask 3) with PML_ADDR_MASK. change (leaf_mask 2) with PML_ADDR_MASK_2M.
  change (span 3) with 1. change (span 2) with 512. change (2 ^ 52) with 4503599627370496. change (2 ^ 31) with 2147483648.
  rewrite L2, L3. split; [lia|]. split; [lia|]. split.
  { split; [lia|]. split; [exists (page_entry false (frame_addr 100) 2); split; [reflexivity|exact Ea]|]. split; [lia|]. split; [lia|]. intros f Hf. apply Ht. lia. }
  split; [lia|]. split; [lia|]. split; [|lia].
  split; [lia|]. split; [exists (large_entry false (large_addr 1) 2); split; [reflexivity|exact Eb]|]. split; [lia|]. split; [lia|]. intros f Hf. apply Ht. lia.
Qed.
Lemma paging_map_FreeAllocated_correct_witness :
  translate demo_pml4 demo_large2 (511 * 4096) = Some (100 * 4096) /\ translate demo_pml4 demo_large2 (1000 * 4096) = Some (1000 * 4096) /\
  exists s', paging_map_FreeAllocated demo_pml4 (511 * 4096) (513 * 4096) demo_large2 = Some s' /\
    translate demo_pml4 s' (511 * 4096) = None /\ translate demo_pml4 s' (1000 * 4096) = None /\
    used (Bitmap s') 99 = true /\ used (Bitmap s') 100 = false /\ used (Bitmap s') 1000 = false.
Proof.
  split; [by vm_compute|]. split; [by vm_compute|].
  destruct demo_large2_spec as (Hok & Hpo & _).
  destruct (paging_map_FreeAllocated_correct demo_pml4 demo_large2 511 513 _ Hok Hpo ltac:(lia) ltac:(done) demo_large2_pieces)
    as (s' & H1 & _ & _ & _ & H2 & _ & H3 & _).
  exists s'. split; [exact H1|]. rewrite !H2, !H3 by lia. split_and!; by vm_compute.
Defined.
