(* ===== verification/Regions.v ===== *)
(** * Address spaces made of regions

    A list of regions describes the tables that [paging_map_Page] and
    [paging_map_Page2M] build from an empty one: [layout] relates the two, and each
    operation of paging_map.c and paging_physical.c extends the list or leaves it alone. *)

From Stdlib Require Import Sorted.
From stdpp Require Import sorting.
From S2P Require Import Prelude Mem Physical Paging PageTable PagingSpec LargePages.

(** [r_count] pages from [r_virt] on are mapped to those from [r_phys] on, in units
    of 2 MiB when [r_large] and of 4 KiB otherwise. *)
Record region := mk_region { r_large : bool; r_virt : Z; r_phys : Z; r_count : Z; r_flags : Z }.
Definition covers (r : region) (p : Z) : bool := (r_virt r <=? p) && (p <? r_virt r + r_count r).
(** The entry of a region for page [p]. *)
Definition region_entry (nx : bool) (r : region) (p : Z) : Z :=
  let f := r_phys r + (p - r_virt r) in
  if r_large r then large_entry nx (large_addr f) (r_flags r) else page_entry nx (frame_addr f) (r_flags r).

(** The last region mapped, which comes first, wins. *)
Fixpoint leaf_of (nx : bool) (rs : list region) (large : bool) (p : Z) : option Z :=
  match rs with
  | [] => None
  | r :: rs => if eqb (r_large r) large && covers r p then Some (region_entry nx r p) else leaf_of nx rs large p
  end.
(** Is there a table for the pages of the large page [L]? *)
Fixpoint tables (rs : list region) (L : Z) : bool :=
  match rs with
  | [] => false
  | r :: rs => negb (r_large r) && (0 <? r_count r) && (r_virt r / 512 <=? L) &&
               (L <=? (r_virt r + r_count r - 1) / 512) || tables rs L
  end.
Definition one_more (r : region) : region :=
  mk_region (r_large r) (r_virt r) (r_phys r) (r_count r + 1) (r_flags r).

Lemma leaf_of_one_more nx r rs large p : 0 <= r_count r ->
  leaf_of nx (one_more r :: rs) large p =
  if eqb (r_large r) large && (p =? r_virt r + r_count r) then Some (region_entry nx r p)
  else leaf_of nx (r :: rs) large p.
Proof.
  intros Hc. cbn [leaf_of]. unfold covers, one_more. cbn [r_large r_virt r_count].
  destruct (eqb (r_large r) large); cbn [andb]; [|done].
  destruct (Z.leb_spec (r_virt r) p), (Z.ltb_spec p (r_virt r + r_count r)),
    (Z.ltb_spec p (r_virt r + (r_count r + 1))), (Z.eqb_spec p (r_virt r + r_count r)); done || lia.
Qed.
Lemma tables_one_more r rs L : 0 <= r_count r -> r_large r = false -> tables (one_more r :: rs) L = false ->
  tables (r :: rs) L = false /\ L <> (r_virt r + r_count r) / 512.
Proof.
  intros Hc Hl. cbn [tables]. unfold one_more. cbn [r_large r_virt r_count]. rewrite Hl. cbn [negb andb].
  intros [Ht ->]%orb_false_iff. rewrite orb_false_r.
  destruct (Z.ltb_spec 0 (r_count r + 1)), (Z.leb_spec (r_virt r / 512) L),
    (Z.leb_spec L ((r_virt r + (r_count r + 1) - 1) / 512)); cbn [andb] in Ht; try done;
  split; try lia; destruct (Z.ltb_spec 0 (r_count r)), (Z.leb_spec L ((r_virt r + r_count r - 1) / 512)); done || lia.
Qed.
Lemma tables_large r rs L : r_large r = true -> tables (r :: rs) L = tables rs L.
Proof. intros Hl. cbn [tables]. by rewrite Hl. Qed.

Section Regions.
Variable PML4Table : Z.
Variable nx : bool.
Abbreviation pt_ok := (pt_ok PML4Table).
Abbreviation walk := (walk PML4Table).
Abbreviation leaf := (leaf PML4Table).
Abbreviation translate := (translate PML4Table).
Abbreviation data_ok := (data_ok PML4Table).
Abbreviation leaf_of := (leaf_of nx).

(** The tables hold the regions and nothing else. *)
Record layout (s : phys) (rs : list region) : Prop := {
  la_pt : pt_ok s;
  la_phys : phys_ok s;
  la_0 : forall p, 0 <= p < 512 -> leaf 0 s p = None;
  la_1 : forall p, 0 <= p < 512 ^ 2 -> leaf 1 s p = None;
  la_2 : forall p, 0 <= p < 512 ^ 3 -> leaf 2 s p = leaf_of rs true p;
  la_3 : forall p, 0 <= p < 512 ^ 4 -> leaf 3 s p = leaf_of rs false p;
  la_walk : forall p, 0 <= p < 512 ^ 3 -> tables rs p = false -> walk 3 s p = None;
}.

(** What happens to the memory on the way: at most [k] of the first free frames are
    taken, and the pages in use keep their contents. *)
Definition progress (k : nat) (s s' : phys) : Prop := takes k s s' /\ data_ok s s'.
Lemma progress_refl k s : progress k s s.
Proof. split; reflexivity. Qed.
Lemma progress_trans a b s1 s2 s3 : progress a s1 s2 -> progress b s2 s3 -> progress (a + b) s1 s3.
Proof. intros [T1 D1] [T2 D2]. split; [by eapply takes_trans|by etransitivity]. Qed.
Lemma progress_free k s s' : progress k s s' -> (length (free_frames s) <= k + length (free_frames s'))%nat.
Proof. intros [T _]. by apply takes_free. Qed.

(** ** Mapping *)

Lemma layout_small_step s V q j fl rs virt :
  layout s (mk_region false V q j fl :: rs) -> (3 <= length (free_frames s))%nat ->
  0 <= V -> 0 <= j -> vpn virt = V + j -> 0 <= q -> q + j < 2 ^ 40 -> leaf_of rs true ((V + j) / 512) = None ->
  let s' := map_one_Page PML4Table nx (frame_addr (q + j)) virt fl s in
  layout s' (mk_region false V q (j + 1) fl :: rs) /\ progress 3 s s'.
Proof.
  intros [Hpt Hph H0 H1 H2 H3 Hw] Hf HV Hj Hv Hq Hqj Hno s'.
  set (P := V + j) in *.
  assert (0 <= P < 68719476736) as HP by (rewrite <- Hv; unfold vpn; change (2 ^ 36) with 68719476736; lia).
  pose proof (map_one_Page_spec PML4Table nx s virt (q + j) fl) as Hs. cbv zeta in Hs. rewrite Hv in Hs.
  destruct Hs as (Hpt' & Hph' & _ & HL & Ho & Hd & _ & _ & Hw'); try done; [lia|..].
  { apply H0. lia. }
  { apply H1. change (512 ^ 2) with 262144. lia. }
  { rewrite H2 by (change (512 ^ 3) with 134217728; lia). exact Hno. }
  assert (forall p, (V + j =? p) = (p =? P)) as Hcomm by (intros; apply Z.eqb_sym).
  split; [constructor|split; [by apply map_one_Page_takes|done]]; try done.
  - intros p Hp. by rewrite Ho, H0 by (done || lia || by left).
  - intros p Hp. by rewrite Ho, H1 by (done || lia || by left).
  - intros p Hp. rewrite Ho, H2 by (done || lia || by left). done.
  - intros p Hp. change (mk_region false V q (j + 1) fl) with (one_more (mk_region false V q j fl)).
    rewrite leaf_of_one_more by done. cbn [r_large r_virt r_count eqb andb]. fold P.
    destruct (Z.eqb_spec p P) as [->|Hne]; [|by rewrite Ho, H3 by (done || lia || by right)].
    unfold s'. rewrite HL. unfold region_entry. cbn [r_large r_phys r_virt r_flags].
    by replace (q + (P - V)) with (q + j) by lia.
  - intros p Hp Ht. apply (tables_one_more (mk_region false V q j fl)) in Ht as [Ht Hne]; [|done..].
    cbn [r_virt r_count] in Hne. rewrite Hw' by done. by apply Hw.
Qed.

Lemma layout_large_step s V q j fl rs virt :
  layout s (mk_region true V q j fl :: rs) -> (2 <= length (free_frames s))%nat ->
  0 <= V -> 0 <= j -> vpn virt / 512 = V + j -> 0 <= q -> q + j < 2 ^ 31 -> tables rs (V + j) = false ->
  let s' := map_one_Page2M PML4Table nx (large_addr (q + j)) virt fl s in
  layout s' (mk_region true V q (j + 1) fl :: rs) /\ progress 2 s s'.
Proof.
  intros [Hpt Hph H0 H1 H2 H3 Hw] Hf HV Hj Hv Hq Hqj Hno s'.
  set (L := V + j) in *.
  assert (0 <= L < 134217728) as HL by (rewrite <- Hv; unfold vpn; change (2 ^ 36) with 68719476736; lia).
  pose proof (map_one_Page2M_spec PML4Table nx s virt (q + j) fl) as Hs. cbv zeta in Hs. rewrite Hv in Hs.
  destruct Hs as (Hpt' & Hph' & Ht' & HLe & Ho & Hd & Hw'); try done; [lia|..].
  { apply H0. lia. }
  { apply H1. change (512 ^ 2) with 262144. lia. }
  { apply Hw; [exact HL|]. by rewrite tables_large. }
  split; [constructor|by split]; try done.
  - intros p Hp. by rewrite Ho, H0 by (done || lia || by left).
  - intros p Hp. by rewrite Ho, H1 by (done || lia || by left).
  - intros p Hp. change (mk_region true V q (j + 1) fl) with (one_more (mk_region true V q j fl)).
    rewrite leaf_of_one_more by done. cbn [r_large r_virt r_count eqb andb]. fold L.
    destruct (Z.eqb_spec p L) as [->|Hne]; [|by rewrite Ho, H2 by (done || lia || by right)].
    unfold s'. rewrite HLe. unfold region_entry. cbn [r_large r_phys r_virt r_flags].
    by replace (q + (L - V)) with (q + j) by lia.
  - intros p Hp. rewrite Ho, H3 by (done || lia || by left). done.
  - intros p Hp Ht. rewrite Hw' by done. apply Hw; [done|]. by rewrite tables_large in * by done.
Qed.

(** A region without pages is none. *)
Lemma leaf_of_empty rs lg V q fl lg' p : leaf_of (mk_region lg V q 0 fl :: rs) lg' p = leaf_of rs lg' p.
Proof.
  cbn [Regions.leaf_of]. unfold covers. cbn [r_large r_virt r_count].
  destruct (Z.leb_spec V p), (Z.ltb_spec p (V + 0)); try lia; by rewrite ?andb_false_r.
Qed.
Lemma tables_empty rs lg V q fl p : tables (mk_region lg V q 0 fl :: rs) p = tables rs p.
Proof. cbn [tables]. by rewrite andb_false_r. Qed.
Lemma layout_empty s rs lg V q fl : layout s rs -> layout s (mk_region lg V q 0 fl :: rs).
Proof.
  intros [Hpt Hph H0 H1 H2 H3 Hw]. constructor; try done; intros p Hp; rewrite ?leaf_of_empty, ?tables_empty; auto.
Qed.

Lemma layout_small_loop n s V q j fl rs virt :
  layout s (mk_region false V q j fl :: rs) -> (3 * n <= length (free_frames s))%nat ->
  0 <= V -> 0 <= j -> V + j + Z.of_nat n <= 2 ^ 36 -> 0 <= virt -> virt + Z.of_nat n < 2 ^ 52 ->
  (n = O \/ virt mod 2 ^ 36 = V + j) -> 0 <= q -> q + j + Z.of_nat n <= 2 ^ 40 ->
  (forall P, V + j <= P < V + j + Z.of_nat n -> leaf_of rs true (P / 512) = None) ->
  let s' := map_Pages PML4Table nx n (frame_addr (q + j)) (virt * 4096) fl s in
  layout s' (mk_region false V q (j + Z.of_nat n) fl :: rs) /\ progress (3 * n) s s'.
Proof.
  revert s j virt. induction n as [|n IH]; intros s j virt Hla Hf HV Hj HVj Hvi Hvn Hvm Hq Hqj Hno.
  { rewrite Z.add_0_r. split; [done|apply progress_refl]. }
  destruct Hvm as [?|Hvm]; [done|]. change (2 ^ 36) with 68719476736 in *. change (2 ^ 52) with 4503599627370496 in *.
  change (2 ^ 40) with 1099511627776 in *.
  assert (vpn (virt * 4096) = V + j) as Hv by (rewrite vpn_frame by done; exact Hvm).
  destruct (layout_small_step s V q j fl rs (virt * 4096)) as [Hla1 Hp1]; try done; [lia| |apply Hno; lia|].
  { change (2 ^ 40) with 1099511627776. lia. }
  set (s1 := map_one_Page PML4Table nx (frame_addr (q + j)) (virt * 4096) fl s) in *.
  pose proof (progress_free _ _ _ Hp1) as Hf1.
  cbn [map_Pages]. fold s1. rewrite (u64_page virt) by (change (2 ^ 52) with 4503599627370496; lia).
  replace (u64 (frame_addr (q + j) + SYSTEM_PAGE_SIZE)) with (frame_addr (q + (j + 1)))
    by (unfold frame_addr, SYSTEM_PAGE_SIZE; word_lia).
  destruct (IH s1 (j + 1) (virt + 1)) as [Hla2 Hp2]; try done; try lia.
  { intros P HP. apply Hno. lia. }
  replace (j + Z.of_nat (S n)) with (j + 1 + Z.of_nat n) by lia. split; [done|].
  replace (3 * S n)%nat with (3 + 3 * n)%nat by lia. by eapply progress_trans.
Qed.

Lemma layout_large_loop n s V q j fl rs virt :
  layout s (mk_region true V q j fl :: rs) -> (2 * n <= length (free_frames s))%nat ->
  0 <= V -> 0 <= j -> V + j + Z.of_nat n <= 2 ^ 27 -> 0 <= virt -> virt + Z.of_nat n < 2 ^ 43 ->
  (n = O \/ virt mod 2 ^ 27 = V + j) -> 0 <= q -> q + j + Z.of_nat n <= 2 ^ 31 ->
  (forall L, V + j <= L < V + j + Z.of_nat n -> tables rs L = false) ->
  let s' := map_Pages2M PML4Table nx n (large_addr (q + j)) (large_addr virt) fl s in
  layout s' (mk_region true V q (j + Z.of_nat n) fl :: rs) /\ progress (2 * n) s s'.
Proof.
  revert s j virt. induction n as [|n IH]; intros s j virt Hla Hf HV Hj HVj Hvi Hvn Hvm Hq Hqj Hno.
  { rewrite Z.add_0_r. split; [done|apply progress_refl]. }
  destruct Hvm as [?|Hvm]; [done|]. change (2 ^ 27) with 134217728 in *. change (2 ^ 43) with 8796093022208 in *.
  change (2 ^ 31) with 2147483648 in *.
  assert (vpn (large_addr virt) / 512 = V + j) as Hv.
  { rewrite <- Hvm. unfold vpn, large_addr. change (2 ^ 36) with 68719476736. lia. }
  destruct (layout_large_step s V q j fl rs (large_addr virt)) as [Hla1 Hp1]; try done; [lia| |apply Hno; lia|].
  { change (2 ^ 31) with 2147483648. lia. }
  set (s1 := map_one_Page2M PML4Table nx (large_addr (q + j)) (large_addr virt) fl s) in *.
  pose proof (progress_free _ _ _ Hp1) as Hf1.
  cbn [map_Pages2M]. fold s1.
  replace (u64 (large_addr virt + SYSTEM_PAGE_2M_SIZE)) with (large_addr (virt + 1))
    by (unfold large_addr, SYSTEM_PAGE_2M_SIZE; word_lia).
  replace (u64 (large_addr (q + j) + SYSTEM_PAGE_2M_SIZE)) with (large_addr (q + (j + 1)))
    by (unfold large_addr, SYSTEM_PAGE_2M_SIZE; word_lia).
  destruct (IH s1 (j + 1) (virt + 1)) as [Hla2 Hp2]; try done; try lia.
  { intros L HL. apply Hno. lia. }
  replace (j + Z.of_nat (S n)) with (j + 1 + Z.of_nat n) by lia. split; [done|].
  replace (2 * S n)%nat with (2 + 2 * n)%nat by lia. by eapply progress_trans.
Qed.

(** [paging_map_Page] and [paging_map_Page2M] add a region. *)
Lemma layout_map_Page s rs virt q n fl :
  layout s rs -> 0 <= n -> (3 * Z.to_nat n <= length (free_frames s))%nat ->
  0 <= virt -> virt + n < 2 ^ 52 -> virt mod 2 ^ 36 + n <= 2 ^ 36 -> 0 <= q -> q + n <= 2 ^ 40 ->
  (forall P, virt mod 2 ^ 36 <= P < virt mod 2 ^ 36 + n -> leaf_of rs true (P / 512) = None) ->
  exists s', paging_map_Page PML4Table nx (frame_addr q) (virt * 4096) n fl s = Some s' /\
    layout s' (mk_region false (virt mod 2 ^ 36) q n fl :: rs) /\ progress (3 * Z.to_nat n) s s'.
Proof.
  intros Hla Hn Hf Hv Hvn Hvm Hq Hqn Hno. pose proof (Z.mod_pos_bound virt (2 ^ 36) ltac:(done)) as Hb.
  pose proof (layout_small_loop (Z.to_nat n) s (virt mod 2 ^ 36) q 0 fl rs virt) as H.
  rewrite Z2Nat.id, !Z.add_0_r, Z.add_0_l in H by done.
  eexists. split; [unfold paging_map_Page, SYSTEM_PAGE_SIZE, frame_addr; by rewrite !Z.mod_mul|].
  apply H; try done; try lia. by apply layout_empty.
Qed.
Lemma layout_map_Page2M s rs virt q n fl :
  layout s rs -> 0 <= n -> (2 * Z.to_nat n <= length (free_frames s))%nat ->
  0 <= virt -> virt + n < 2 ^ 43 -> virt mod 2 ^ 27 + n <= 2 ^ 27 -> 0 <= q -> q + n <= 2 ^ 31 ->
  (forall L, virt mod 2 ^ 27 <= L < virt mod 2 ^ 27 + n -> tables rs L = false) ->
  exists s', paging_map_Page2M PML4Table nx (large_addr q) (large_addr virt) n fl s = Some s' /\
    layout s' (mk_region true (virt mod 2 ^ 27) q n fl :: rs) /\ progress (2 * Z.to_nat n) s s'.
Proof.
  intros Hla Hn Hf Hv Hvn Hvm Hq Hqn Hno. pose proof (Z.mod_pos_bound virt (2 ^ 27) ltac:(done)) as Hb.
  pose proof (layout_large_loop (Z.to_nat n) s (virt mod 2 ^ 27) q 0 fl rs virt) as H.
  rewrite Z2Nat.id, !Z.add_0_r, Z.add_0_l in H by done.
  eexists. split; [unfold paging_map_Page2M, SYSTEM_PAGE_2M_SIZE, large_addr; by rewrite !Z.mod_mul|].
  apply H; try done; try lia. by apply layout_empty.
Qed.

(** ** Allocation *)

(** Taking and clearing free pages leaves the tables alone. *)
Lemma layout_alloc s s' rs :
  layout s rs -> phys_ok s' ->
  (forall x, 0 <= x -> used (Bitmap s) x = true -> used (Bitmap s') x = true) ->
  (forall x, used (Bitmap s) (x / 4096) = true -> pmem s' x = pmem s x) ->
  layout s' rs /\ data_ok s s' /\ (forall g, used (Bitmap s) g = false -> ~ is_tab PML4Table s' g).
Proof.
  intros [Hpt Hph H0 H1 H2 H3 Hw] Hph' Hu Hm. split_and!.
  - constructor; [by eapply alloc_pt_ok|done|..]; intros p Hp;
      rewrite ?(alloc_leaf _ s s' Hpt Hm), ?(alloc_walk _ s s' Hpt Hm) by (done || lia); auto.
  - by apply alloc_data.
  - intros g. by apply (alloc_new_data _ s s' Hpt Hm).
Qed.

(** A page in use, without a table, all of whose bytes are zero. *)
Definition zero_page (s : phys) (f : Z) : Prop :=
  used (Bitmap s) f = true /\ ~ is_tab PML4Table s f /\ forall x, x / 4096 = f -> pmem s x = 0.
Lemma zero_page_data s s' f : 0 <= f -> data_ok s s' -> zero_page s f -> zero_page s' f.
Proof.
  intros Hf Hd (Hu & Ht & Hz). destruct (Hd f Hf Hu Ht) as (Hu' & Ht' & Hm). split_and!; [done|done|].
  intros x Hx. by rewrite Hm, Hz.
Qed.

Lemma layout_AllocateOneFrame s rs f fs :
  layout s rs -> free_frames s = f :: fs ->
  exists s', paging_physical_AllocateOneFrame s = (s', frame_addr f) /\ layout s' rs /\ progress 1 s s' /\
    zero_page s' f.
Proof.
  intros Hla Hff. assert (f ∈ free_frames s) as Hin by (rewrite Hff; left).
  apply free_frames_in in Hin as [Hr Hfree]. pose proof (po_i _ (la_phys _ _ Hla)).
  destruct (AllocateOneFrame_spec s f fs (la_phys _ _ Hla) Hff) as (s' & E & Hph' & Hff' & Hu & Hm & He & Hi).
  exists s'. destruct (layout_alloc s s' rs Hla Hph') as (Hla' & Hd & Hn).
  { intros x Hx H1. by rewrite Hu, H1. }
  { intros x Hx. rewrite Hm, decide_False; [done|]. intros <-. congruence. }
  split_and!; [done|done|split; [|done]|split_and!].
  - constructor; [|done..]. exists [f]. split_and!; [by rewrite Hff, Hff'|done|].
    intros x Hx. rewrite Hu by done. f_equal. apply eq_true_iff_eq. by rewrite Z.eqb_eq, bool_decide_eq_true, list_elem_of_singleton.
  - rewrite Hu by lia. by rewrite Z.eqb_refl, orb_true_r.
  - by apply Hn.
  - intros x Hx. by rewrite Hm, decide_True.
Qed.

Lemma free_frames_block s s' i :
  (forall f, 0 <= f -> used (Bitmap s') f = used (Bitmap s) f || in_block i f) ->
  0 <= phy_i s -> phy_i s' = phy_i s -> EndPhysicalPage s' = EndPhysicalPage s ->
  (length (free_frames s) <= 512 + length (free_frames s'))%nat.
Proof.
  intros Hu Hp Hpi He. replace 512%nat with (length (seqZ (64 * i) 512)) by (by rewrite length_seqZ).
  rewrite <- length_app. apply submseteq_length, NoDup_submseteq; [apply free_frames_NoDup|].
  intros f Hf. rewrite elem_of_app, elem_of_seqZ. unfold free_frames in *. unfold phys_limit in *.
  rewrite list_elem_of_filter, elem_of_seqZ in *. destruct Hf as [Hf Hr]. rewrite Hpi, He, Hu by lia.
  unfold in_block. rewrite Hf. destruct (Z.leb_spec (64 * i) f), (Z.ltb_spec f (64 * i + 512)); simpl; auto; left; lia.
Qed.

Lemma layout_AllocateFrames2M s rs i is_ :
  layout s rs -> 0 < phy_i_2M s -> free_blocks s = i :: is_ ->
  exists s', paging_physical_AllocateFrames2M 1 s = (s', [block_addr i]) /\ layout s' rs /\ data_ok s s' /\
    (length (free_frames s) <= 512 + length (free_frames s'))%nat /\
    (forall f, 0 <= f -> in_block i f = true -> used (Bitmap s) f = false -> zero_page s' f).
Proof.
  intros Hla Hi2 Hff. unfold paging_physical_AllocateFrames2M.
  pose proof (AllocateFrames2M_loop_spec (Z.to_nat 1) s (la_phys _ _ Hla) Hi2) as Hs.
  destruct (AllocateFrames2M_loop (Z.to_nat 1) s) as [s' l]. rewrite Hff in Hs. cbn [take fmap list_fmap] in Hs.
  change (take (Z.to_nat 1) (i :: is_)) with [i] in Hs. destruct Hs as (-> & _ & Hph' & Hu & Hm & He & Hpi).
  assert (forall f, in_blocks [i] f = in_block i f) as Hb by (intros; simpl; by rewrite orb_false_r).
  setoid_rewrite Hb in Hu. setoid_rewrite Hb in Hm.
  assert (i ∈ free_blocks s) as Hin by (rewrite Hff; left). unfold free_blocks in Hin.
  apply list_elem_of_filter in Hin as [Hall Hc%block_cands_in].
  pose proof (all_free8_spec (Bitmap s) i ltac:(lia) Hall) as Hfree.
  destruct (layout_alloc s s' rs Hla Hph') as (Hla' & Hd & Hn).
  { intros x Hx H1. by rewrite Hu, H1. }
  { intros x Hx. rewrite Hm. destruct (in_block i (x / 4096)) eqn:E; [|done]. apply Hfree in E. congruence. }
  exists s'. split_and!; [done|done|done| |].
  - eapply free_frames_block; [exact Hu|apply (la_phys _ _ Hla)|done|done].
  - intros f Hf Hfb Huf. split_and!; [by rewrite Hu, Hfb, orb_true_r|by apply Hn|].
    intros x Hx. by rewrite Hm, Hx, Hfb.
Qed.

(** ** The first table, and what the processor sees *)

Lemma walk_start s f0 d p :
  PML4Table = frame_addr f0 -> (forall i, 0 <= i < 512 -> entry s PML4Table i = 0) -> walk (S d) s p = None.
Proof.
  intros Hf He. revert p. induction d as [|d IH]; intros p; rewrite walk_S; [|by rewrite IH].
  cbn [PageTable.walk mbind option_bind]. rewrite He by lia. done.
Qed.
Lemma layout_start s f0 :
  phys_ok s -> PML4Table = frame_addr f0 -> 0 <= f0 -> used (Bitmap s) f0 = true ->
  (forall i, 0 <= i < 512 -> entry s PML4Table i = 0) ->
  layout s [] /\ (forall g, is_tab PML4Table s g <-> g = f0).
Proof.
  intros Hph Hf0 Hf Hu He. pose proof (fun d p => walk_start s f0 d p Hf0 He) as Hw.
  assert (forall d p, leaf d s p = None) as Hl.
  { intros [|d] p; unfold PageTable.leaf; [|by rewrite Hw]. cbn [PageTable.walk mbind option_bind]. by rewrite He by lia. }
  split; [constructor; try done; [|intros; apply Hl..]|].
  - constructor.
    + intros [|d] p t _ _; [|by rewrite Hw]. intros [= <-]. by exists f0.
    + intros [|d] p [|d'] p' t _ _; rewrite ?Hw; try done. simpl. lia.
  - intros g. split.
    + intros ([|d] & p & _ & _ & H); [|by rewrite Hw in H]. injection H as H. rewrite Hf0 in H. unfold frame_addr in H. lia.
    + intros ->. exists 0%nat, 0. split; [lia|]. split; [simpl; lia|]. by rewrite <- Hf0.
Qed.

Lemma vpn_large v : 0 <= vpn v / 512 < 134217728.
Proof. unfold vpn. change (2 ^ 36) with 68719476736. lia. Qed.
Lemma layout_leaves s rs v : layout s rs ->
  translate s v = match leaf_of rs true (vpn v / 512) with
                  | Some e => Some (Z.land e PML_ADDR_MASK_2M + v mod SYSTEM_PAGE_2M_SIZE)
                  | None => match leaf_of rs false (vpn v) with
                            | Some e => Some (Z.land e PML_ADDR_MASK + v mod SYSTEM_PAGE_SIZE)
                            | None => None
                            end
                  end.
Proof.
  intros Hla. rewrite translate_leaves. unfold leaf_translate. cbv zeta.
  assert (0 <= vpn v < 68719476736) as HP by (unfold vpn; change (2 ^ 36) with 68719476736; lia).
  rewrite (la_0 _ _ Hla) by lia. rewrite (la_1 _ _ Hla) by (change (512 ^ 2) with 262144; lia).
  rewrite (la_2 _ _ Hla) by (change (512 ^ 3) with 134217728; lia).
  rewrite (la_3 _ _ Hla) by (change (512 ^ 4) with 68719476736; lia).
  by destruct (leaf_of rs true (vpn v / 512)), (leaf_of rs false (vpn v)).
Qed.
Lemma layout_translate_large s rs v q fl : layout s rs -> 0 <= q < 2 ^ 31 ->
  leaf_of rs true (vpn v / 512) = Some (large_entry nx (large_addr q) fl) ->
  translate s v = Some (large_addr q + v mod 2097152).
Proof. intros Hla Hq Hl. rewrite (layout_leaves s rs v Hla), Hl. by rewrite large_entry_addr. Qed.
Lemma layout_translate_small s rs v q fl : layout s rs -> 0 <= q < 2 ^ 40 ->
  leaf_of rs true (vpn v / 512) = None -> leaf_of rs false (vpn v) = Some (page_entry nx (frame_addr q) fl) ->
  translate s v = Some (frame_addr q + v mod 4096).
Proof. intros Hla Hq Hn Hl. rewrite (layout_leaves s rs v Hla), Hn, Hl. by rewrite page_entry_addr. Qed.
End Regions.

(** ** Blocks that stay free *)

Lemma seqZ_sorted n m : StronglySorted Z.lt (seqZ m (Z.of_nat n)).
Proof.
  revert m. induction n as [|n IH]; intros m; [constructor|].
  rewrite seqZ_cons, Nat2Z.inj_succ, Z.pred_succ by lia. constructor; [apply IH|].
  apply Forall_forall. intros x Hx%elem_of_seqZ. lia.
Qed.
Lemma filter_sorted (P : Z -> Prop) `{forall x, Decision (P x)} l : StronglySorted Z.lt l -> StronglySorted Z.lt (filter P l).
Proof.
  induction 1 as [|x l Hs IH Hx]; [constructor|]. rewrite filter_cons. case_decide; [|done].
  constructor; [done|]. apply Forall_forall. intros y [_ Hy]%list_elem_of_filter. by eapply Forall_forall in Hx.
Qed.
Lemma free_frames_sorted s : StronglySorted Z.lt (free_frames s).
Proof.
  unfold free_frames. apply filter_sorted. set (m := phys_limit s - _).
  destruct (Z.le_gt_cases m 0); [rewrite seqZ_nil by done; constructor|].
  replace m with (Z.of_nat (Z.to_nat m)) by lia. apply seqZ_sorted.
Qed.

(** Taking [k] frames leaves a free block free when [k] frames below it were free. *)
Lemma takes_below k s s' (b x : Z) : takes k s s' -> (k <= length (filter (fun f => (f < b)%Z) (free_frames s)))%nat ->
  b <= x -> used (Bitmap s) x = false -> 0 <= x -> used (Bitmap s') x = false.
Proof.
  intros [(new & Hff & Hk & Hu) _ _] Hb Hx Hfree H0. rewrite Hu, Hfree by done. apply bool_decide_false. intros Hin.
  pose proof (free_frames_sorted s) as Hs. rewrite Hff in Hs, Hb. rewrite filter_app in Hb.
  rewrite (filter_none _ (free_frames s')), app_nil_r in Hb.
  2:{ intros y Hy. pose proof (StronglySorted_app_1_elem_of _ _ _ _ _ Hs Hin Hy). lia. }
  apply elem_of_Permutation in Hin as [l Hp]. rewrite Hp in Hb, Hk. rewrite filter_cons_False in Hb by lia.
  pose proof (length_filter (fun f => f < b) l). simpl in Hk. lia.
Qed.
Lemma takes_count k j s s' (b : Z) : takes k s s' ->
  (k + j <= length (filter (fun f => (f < b)%Z) (free_frames s)))%nat -> (j <= length (filter (fun f => (f < b)%Z) (free_frames s')))%nat.
Proof.
  intros [(new & -> & Hk & _) _ _]. rewrite filter_app, length_app. pose proof (length_filter (fun f => f < b)%Z new). lia.
Qed.
Lemma all_free8_intro b i : words_ok b -> 0 <= i -> (forall f, in_block i f = true -> used b f = false) -> all_free8 b i = true.
Proof.
  intros Hw Hi Hf. unfold all_free8. apply forallb_forall. intros j Hj%list_elem_of_In%elem_of_seqZ. apply Z.eqb_eq, Z.bits_inj'.
  intros n Hn. rewrite Z.bits_0. destruct (Z.lt_ge_cases n 64) as [Hn'|Hn']; [|by apply testbit_high].
  assert (used b (64 * (i + j) + n) = false) as Hu by (apply Hf; unfold in_block; lia).
  unfold used in Hu. replace ((64 * (i + j) + n) / 64) with (i + j) in Hu by lia.
  by replace ((64 * (i + j) + n) mod 64) with n in Hu by lia.
Qed.
Lemma in_block_cands lo lim i : lo <= i < lim -> (i - lo) mod 8 = 0 -> i ∈ block_cands lo lim.
Proof.
  intros Hi Hm. unfold block_cands. apply list_elem_of_fmap. exists ((i - lo) / 8). split; [lia|].
  apply elem_of_seqZ. lia.
Qed.
Lemma takes_block k s s' i : takes k s s' -> phys_ok s' -> 0 <= phy_i_2M s -> i ∈ free_blocks s ->
  (k <= length (filter (fun f => (f < 64 * i)%Z) (free_frames s)))%nat -> i ∈ free_blocks s'.
Proof.
  intros Ht Hph Hi2 Hi Hk. unfold free_blocks in *. apply list_elem_of_filter in Hi as [Hall Hc].
  rewrite (tk_i2 _ _ _ Ht), (tk_end _ _ _ Ht). apply list_elem_of_filter. split; [|done].
  apply block_cands_in in Hc as [Hc _]. pose proof (all_free8_spec (Bitmap s) i ltac:(lia) Hall) as Hfree.
  apply all_free8_intro; [apply Hph|lia|]. intros f Hf. pose proof Hf as Hf'. unfold in_block in Hf'.
  apply (takes_below k s s' (64 * i)); try done; try lia. by apply Hfree.
Qed.
