(* ===== verification/PagingInit.v ===== *)
(** * Boot-time paging (src/memory/paging_init.c)

    The first part of [runtime_InitPaging]: the pass over the firmware memory map that builds the
    frame bitmap, and the mappings of the kernel image, the framebuffer, the
    physical memory, the stack and the misc area.  The calls into the firmware
    (GetMemoryMap, ExitBootServices) and the messages are not part of the model; the
    memory map they return is its input.  BootSwitch.v has the second part. *)

From S2P Require Import Prelude Mem Physical Paging PageTable PagingSpec.

(** The fields the kernel reads of [EFI_MEMORY_DESCRIPTOR]. *)
Record EFI_MEMORY_DESCRIPTOR := mk_desc {
  Type_ : Z;
  PhysicalStart : Z;
  NumberOfPages : Z;
}.

(** The symbols of the linker script. *)
Record link_symbols := mk_link {
  link_TextStart : Z; link_TextEnd : Z;
  link_DataStart : Z; link_DataEnd : Z;
  link_RodataStart : Z; link_RodataEnd : Z;
  link_BssStart : Z; link_BssEnd : Z;
}.

(** The static data of paging_init.c that the pass writes. *)
Record scan := mk_scan {
  TotalBytes : Z;
  UsableBytes : Z;
  EndPhysicalAddress : Z;
  sBitmap : Z -> Z;
  LoaderCodeAddress : Z;
  LoaderCodeSize : Z;
  LoaderCodePageCount : Z;
}.
(** Cleared counters (the static [paging_EndPhysicalAddress] starts at 0) and
    [memset(paging_physical_Bitmap, 0xff, ...)]. *)
Definition scan_init : scan := mk_scan 0 0 0 (fun _ => not64 0) 0 0 0.

Section Init.
(** [EFI_MEMORY_TYPE] constants of the firmware headers. *)
Variables EfiLoaderCode EfiConventionalMemory : Z.

Definition entry_bytes (e : EFI_MEMORY_DESCRIPTOR) : Z := u64 (SYSTEM_PAGE_SIZE * NumberOfPages e).
Definition entry_end (e : EFI_MEMORY_DESCRIPTOR) : Z := u64 (PhysicalStart e + entry_bytes e).

(** [if (entry->Type == EfiConventionalMemory) ...] *)
Definition scan_usable (e : EFI_MEMORY_DESCRIPTOR) (s : scan) : scan :=
  if Type_ e =? EfiConventionalMemory then
    let first := PhysicalStart e / SYSTEM_PAGE_SIZE in
    mk_scan (TotalBytes s) (u64 (UsableBytes s + entry_bytes e))
      (if EndPhysicalAddress s <? entry_end e then entry_end e else EndPhysicalAddress s)
      (paging_physical_BitmapWriteZero (sBitmap s) (i32 first) (i32 (first + NumberOfPages e)))
      (LoaderCodeAddress s) (LoaderCodeSize s) (LoaderCodePageCount s)
  else s.
(** One descriptor; [None] when two loader code regions hold the kernel. *)
Definition scan_entry (text : Z) (e : EFI_MEMORY_DESCRIPTOR) (s : scan) : option scan :=
  let s := mk_scan (u64 (TotalBytes s + entry_bytes e)) (UsableBytes s) (EndPhysicalAddress s)
             (sBitmap s) (LoaderCodeAddress s) (LoaderCodeSize s) (LoaderCodePageCount s) in
  let s := scan_usable e s in
  if (Type_ e =? EfiLoaderCode) && (PhysicalStart e <=? text) && (text <=? entry_end e) then
    if LoaderCodeAddress s =? 0 then
      Some (mk_scan (TotalBytes s) (UsableBytes s) (EndPhysicalAddress s) (sBitmap s)
              (PhysicalStart e) (entry_bytes e) (i32 (NumberOfPages e)))
    else None
  else Some s.
Fixpoint scan_map (text : Z) (map : list EFI_MEMORY_DESCRIPTOR) (s : scan) : option scan :=
  match map with
  | [] => Some s
  | e :: map => s ← scan_entry text e s; scan_map text map s
  end.
(** The frame allocator the pass leaves behind. *)
Definition scan_phys (s : scan) (m : mem) : phys :=
  mk_phys (sBitmap s) phy_i_init phy_i_2M_init (i32 (EndPhysicalAddress s / SYSTEM_PAGE_SIZE)) m.

Section Map.
Variable PML4Table : Z.
Variable nx : bool.

(** One section of the image, mapped at its offset above [KERNEL_CODE_VIRTUAL]. *)
Definition map_section (loader first last prot : Z) (s : phys) : option phys :=
  paging_map_Page PML4Table nx first (u64 (KERNEL_CODE_VIRTUAL + (first - loader)))
    (roundUpToPageCount (u64 (last - first))) prot s.

(** The mapping part; [fuel] bounds the rounds of the
    misc allocation. *)
Definition paging_map_kernel (fuel : nat) (link : link_symbols) (fb fbSize : Z) (sc : scan) (m : mem)
    : option phys :=
  let ld := LoaderCodeAddress sc in
  if ld =? 0 then None else
  let s := scan_phys sc m in
  s ← map_section ld (link_TextStart link) (link_TextEnd link) (Z.lor MAP_PROT_READ MAP_PROT_EXEC) s;
  s ← map_section ld (link_DataStart link) (link_DataEnd link) (Z.lor MAP_PROT_READ MAP_PROT_WRITE) s;
  s ← map_section ld (link_RodataStart link) (link_RodataEnd link) MAP_PROT_READ s;
  s ← map_section ld (link_BssStart link) (link_BssEnd link) (Z.lor MAP_PROT_READ MAP_PROT_WRITE) s;
  s ← paging_map_Page2M PML4Table nx fb KERNEL_FRAMEBUFFER_MAPPING (roundUpToPageCount2M fbSize)
        (Z.lor MAP_PROT_READ MAP_PROT_WRITE) s;
  s ← paging_map_Page2M PML4Table nx 0 0 (roundUpToPageCount2M (EndPhysicalAddress sc))
        (Z.lor (Z.lor MAP_PROT_READ MAP_PROT_WRITE) MAP_PROT_EXEC) s;
  let '(s, stack) := paging_physical_AllocateOneFrame s in
  s ← paging_map_Page PML4Table nx stack (KERNEL_STACK_END_VIRTUAL - SYSTEM_PAGE_SIZE) 1
        (Z.lor MAP_PROT_READ MAP_PROT_WRITE) s;
  paging_map_PageAllocated2M PML4Table nx fuel KERNEL_MISC_MAPPING (roundUpToPageCount2M KERNEL_MISC_SIZE)
    (Z.lor MAP_PROT_READ MAP_PROT_WRITE) s.
(** Up to the switch to the new address space. *)
Definition runtime_InitPaging_map (fuel : nat) (map : list EFI_MEMORY_DESCRIPTOR) (link : link_symbols)
    (fb fbSize : Z) (m : mem) : option phys :=
  sc ← scan_map (link_TextStart link) map scan_init;
  paging_map_kernel fuel link fb fbSize sc m.
End Map.

(** ** The pass over the memory map *)

(** A descriptor the bitmap has room for. *)
Definition desc_ok (e : EFI_MEMORY_DESCRIPTOR) : Prop :=
  0 <= PhysicalStart e /\ 0 < NumberOfPages e /\
  PhysicalStart e / 4096 + NumberOfPages e <= MAX_SYSTEM_MEMORY_PAGES.
Definition desc_covers (e : EFI_MEMORY_DESCRIPTOR) (f : Z) : bool :=
  (Type_ e =? EfiConventionalMemory) && (PhysicalStart e / 4096 <=? f) &&
  (f <? PhysicalStart e / 4096 + NumberOfPages e).
Definition usable_end (map : list EFI_MEMORY_DESCRIPTOR) : Z :=
  foldr (fun e a => if Type_ e =? EfiConventionalMemory
                    then Z.max (PhysicalStart e + 4096 * NumberOfPages e) a else a) 0 map.

Lemma desc_widths e : desc_ok e ->
  entry_bytes e = 4096 * NumberOfPages e /\ entry_end e = PhysicalStart e + 4096 * NumberOfPages e /\
  i32 (PhysicalStart e / 4096) = PhysicalStart e / 4096 /\
  i32 (PhysicalStart e / 4096 + NumberOfPages e) = PhysicalStart e / 4096 + NumberOfPages e.
Proof.
  intros (? & ? & ?). unfold MAX_SYSTEM_MEMORY_PAGES, entry_end, entry_bytes, SYSTEM_PAGE_SIZE in *.
  split_and!; word_lia.
Qed.

Lemma scan_entry_spec text e s s' :
  desc_ok e -> scan_entry text e s = Some s' ->
  (forall f, 0 <= f -> used (sBitmap s') f = used (sBitmap s) f && negb (desc_covers e f)) /\
  EndPhysicalAddress s' = Z.max (EndPhysicalAddress s)
    (if Type_ e =? EfiConventionalMemory then PhysicalStart e + 4096 * NumberOfPages e else EndPhysicalAddress s).
Proof.
  intros He Hs. destruct (desc_widths e He) as (Eb & Ee & E1 & E2). pose proof He as (? & ? & ?).
  assert (exists s1, scan_usable e (mk_scan (u64 (TotalBytes s + entry_bytes e)) (UsableBytes s)
            (EndPhysicalAddress s) (sBitmap s) (LoaderCodeAddress s) (LoaderCodeSize s)
            (LoaderCodePageCount s)) = s1 /\ sBitmap s' = sBitmap s1 /\
            EndPhysicalAddress s' = EndPhysicalAddress s1) as (s1 & <- & -> & ->).
  { eexists. split; [reflexivity|]. unfold scan_entry in Hs.
    repeat case_match; simplify_eq; done. }
  unfold scan_usable, desc_covers. destruct (Type_ e =? EfiConventionalMemory); simpl.
  - unfold SYSTEM_PAGE_SIZE. rewrite E1, E2, Ee. split.
    + intros f Hf. rewrite BitmapWriteZero_used by lia. done.
    + destruct (Z.ltb_spec (EndPhysicalAddress s) (PhysicalStart e + 4096 * NumberOfPages e)); lia.
  - split; [intros; by rewrite andb_true_r|lia].
Qed.

Lemma scan_map_spec text map s s' :
  Forall desc_ok map -> 0 <= EndPhysicalAddress s -> scan_map text map s = Some s' ->
  (forall f, 0 <= f -> used (sBitmap s') f = used (sBitmap s) f && negb (existsb (fun e => desc_covers e f) map)) /\
  EndPhysicalAddress s' = Z.max (EndPhysicalAddress s) (usable_end map).
Proof.
  revert s. induction map as [|e map IH]; intros s Hok Hs Hm; simpl in *.
  - injection Hm as <-. split; [intros; by rewrite andb_true_r|lia].
  - apply Forall_cons in Hok as [He Hok].
    destruct (scan_entry text e s) as [s1|] eqn:E; [|done]. simpl in Hm.
    destruct (scan_entry_spec text e s s1 He E) as [Hu1 He1].
    destruct (IH s1 Hok) as [Hu He']; [rewrite He1; lia|done|]. split.
    + intros f Hf. rewrite Hu, Hu1 by done. by rewrite negb_orb, andb_assoc.
    + rewrite He', He1. destruct (Type_ e =? EfiConventionalMemory); lia.
Qed.

(** After the pass over the firmware memory map a page is free exactly when
    a descriptor of conventional memory covers it, and the end of physical
    memory is the highest end of such a descriptor. *)
Theorem scan_map_correct text map s :
  Forall desc_ok map -> scan_map text map scan_init = Some s ->
  (forall f, 0 <= f -> used (sBitmap s) f = negb (existsb (fun e => desc_covers e f) map)) /\
  EndPhysicalAddress s = usable_end map.
Proof.
  intros Hok Hs. destruct (scan_map_spec text map scan_init s Hok ltac:(simpl; lia) Hs) as [Hu He].
  split.
  - intros f Hf. rewrite Hu by done. unfold scan_init, used. simpl.
    by rewrite ff_testbit by lia.
  - rewrite He. simpl. assert (0 <= usable_end map); [|lia].
    clear -Hok. induction Hok as [|e l (? & ? & _) _ IH]; simpl; [lia|].
    destruct (Type_ e =? EfiConventionalMemory); lia.
Qed.
End Init.

Definition demo_map : list EFI_MEMORY_DESCRIPTOR :=
  [mk_desc 7 0 159; mk_desc 0 655360 96; mk_desc 7 1048576 800; mk_desc 1 4325376 64].
Lemma scan_map_correct_witness :
  exists s, scan_map 1 7 4325376 demo_map scan_init = Some s /\ used (sBitmap s) 158 = false /\
            EndPhysicalAddress s = 4325376.
Proof.
  destruct (scan_map 1 7 4325376 demo_map scan_init) as [s|] eqn:E; [|by vm_compute in E].
  destruct (scan_map_correct 1 7 4325376 demo_map s) as [Hu He]; [|done|].
  - repeat constructor; by vm_compute.
  - exists s. split_and!; [done|by rewrite Hu by lia|by rewrite He].
Defined.
