(* ===== verification/BootPaging.v ===== *)
(** * The kernel's address space at boot: theorems

    [runtime_InitPaging_map] (src/memory/paging_init.c, modelled in PagingInit.v) from
    the memory map of the firmware to the tables that the processor is switched to. *)

From S2P Require Import Prelude Mem MinMax Physical Paging PageTable PagingSpec Unmap LargePages Regions PagingInit.

(** ** The pass over the memory map *)

Section Scan.
Variables EfiLoaderCode EfiConventionalMemory : Z.
Abbreviation scan_entry := (scan_entry EfiLoaderCode EfiConventionalMemory).
Abbreviation scan_map := (scan_map EfiLoaderCode EfiConventionalMemory).

(** Does the descriptor hold the code of the kernel? *)
Definition holds_text (text : Z) (e : EFI_MEMORY_DESCRIPTOR) : bool :=
  (Type_ e =? EfiLoaderCode) && (PhysicalStart e <=? text) && (text <=? entry_end e).

Definition loader (s : scan) : Z * Z := (LoaderCodeAddress s, LoaderCodeSize s).
Definition loader_of (e : EFI_MEMORY_DESCRIPTOR) : Z * Z := (PhysicalStart e, entry_bytes e).

Lemma scan_entry_loader text e s :
  words_ok (sBitmap s) -> holds_text text e = false \/ LoaderCodeAddress s = 0 ->
  exists s', scan_entry text e s = Some s' /\ words_ok (sBitmap s') /\
    loader s' = (if holds_text text e then loader_of e else loader s).
Proof.
  intros Hw Hl. unfold PagingInit.scan_entry. fold (holds_text text e).
  set (s0 := mk_scan _ _ _ _ _ _ _). set (s1 := scan_usable _ e s0).
  assert (words_ok (sBitmap s1) /\ loader s1 = loader s) as [Hw1 Hl1].
  { unfold s1, scan_usable. case_match; [|done]. split; [by apply BitmapWriteZero_words_ok|done]. }
  change (LoaderCodeAddress (scan_usable EfiConventionalMemory e s0)) with (LoaderCodeAddress s1).
  destruct (holds_text text e); [|by exists s1]. destruct Hl as [?|Hl]; [done|]. injection Hl1 as -> _. rewrite Hl. by eexists.
Qed.

Lemma scan_map_none text map s :
  words_ok (sBitmap s) -> filter (fun e => holds_text text e = true) map = [] ->
  exists s', scan_map text map s = Some s' /\ words_ok (sBitmap s') /\ loader s' = loader s.
Proof.
  revert s. induction map as [|e map IH]; intros s Hw Hf; [by exists s|]. rewrite filter_cons in Hf. case_decide as He; [done|].
  apply not_true_is_false in He. destruct (scan_entry_loader text e s Hw (or_introl He)) as (s1 & E1 & Hw1 & Hl1).
  rewrite He in Hl1. destruct (IH s1 Hw1 Hf) as (s' & E & Hw' & Hl). exists s'. cbn [PagingInit.scan_map]. rewrite E1. split_and!; [done|done|congruence].
Qed.
Lemma scan_map_loader text map s e :
  words_ok (sBitmap s) -> LoaderCodeAddress s = 0 -> filter (fun e => holds_text text e = true) map = [e] ->
  exists s', scan_map text map s = Some s' /\ words_ok (sBitmap s') /\ loader s' = loader_of e.
Proof.
  revert s. induction map as [|e' map IH]; intros s Hw Hl Hf; [done|]. rewrite filter_cons in Hf.
  destruct (scan_entry_loader text e' s Hw (or_intror Hl)) as (s1 & E1 & Hw1 & Hl1). cbn [PagingInit.scan_map].
  rewrite E1. case_decide as He.
  - injection Hf as -> Hf. rewrite He in Hl1. destruct (scan_map_none text map s1 Hw1 Hf) as (s' & E & Hw' & Hl').
    exists s'. split_and!; [done|done|congruence].
  - apply not_true_is_false in He. rewrite He in Hl1. injection Hl1 as Hl1 _. by apply IH; [|rewrite Hl1|].
Qed.
End Scan.

(** ** The regions of the kernel *)

(** First and past-the-end address and protection of each section, in the order they are mapped. *)
Definition sections (link : link_symbols) : list (Z * Z * Z) :=
  [(link_TextStart link, link_TextEnd link, Z.lor MAP_PROT_READ MAP_PROT_EXEC);
   (link_DataStart link, link_DataEnd link, Z.lor MAP_PROT_READ MAP_PROT_WRITE);
   (link_RodataStart link, link_RodataEnd link, MAP_PROT_READ);
   (link_BssStart link, link_BssEnd link, Z.lor MAP_PROT_READ MAP_PROT_WRITE)].
Definition section_pages (sec : Z * Z * Z) : Z := let '(first, last, _) := sec in roundUpToPageCount (u64 (last - first)).
(** Whole pages of the gigabyte after the loader's address. *)
Definition section_ok (ld : Z) (sec : Z * Z * Z) : Prop :=
  let '(first, last, _) := sec in
  first mod 4096 = 0 /\ ld <= first <= last /\ last <= ld + 1073733632 /\ last < 2 ^ 47.
Definition code_page : Z := 0xFFFFC0000.
Definition section_region (ld : Z) (sec : Z * Z * Z) : region :=
  let '(first, last, fl) := sec in
  mk_region false (code_page + (first - ld) / 4096) (first / 4096) (section_pages sec) fl.

Lemma roundUpToPageCount2M_spec size : 0 <= size < 2 ^ 42 ->
  roundUpToPageCount2M size = (size + 2097151) / 2097152.
Proof.
  change (2 ^ 42) with 4398046511104. intros. unfold roundUpToPageCount2M, SYSTEM_PAGE_2M_SIZE.
  destruct (Z.eqb_spec (size mod 2097152) 0); rewrite i32_small; lia.
Qed.
Lemma section_pages_spec ld first last fl : 0 <= ld -> section_ok ld (first, last, fl) ->
  section_pages (first, last, fl) = (last - first + 4095) / 4096 /\
  (first - ld) / 4096 + section_pages (first, last, fl) < 262144.
Proof.
  intros Hld (H1 & H2 & H3 & H4). change (2 ^ 47) with 140737488355328 in H4. unfold section_pages.
  rewrite (u64_small (last - first)) by lia. rewrite roundUpToPageCount_spec by lia. lia.
Qed.

Section Sections.
Variable PML4Table : Z.
Variable nx : bool.
Abbreviation layout := (layout PML4Table nx).
Abbreviation progress := (progress PML4Table).

Lemma layout_map_section s rs ld first last fl :
  layout s rs -> 0 <= ld -> ld mod 4096 = 0 -> section_ok ld (first, last, fl) ->
  (3 * Z.to_nat (section_pages (first, last, fl)) <= length (free_frames s))%nat ->
  (forall P, code_page <= P < 68719476736 -> leaf_of nx rs true (P / 512) = None) ->
  exists s', map_section PML4Table nx ld first last fl s = Some s' /\
    layout s' (section_region ld (first, last, fl) :: rs) /\ progress (3 * Z.to_nat (section_pages (first, last, fl))) s s'.
Proof.
  intros Hla Hld0 Hld Hsec Hf Hno. destruct (section_pages_spec ld first last fl Hld0 Hsec) as [Hn Hlim].
  destruct Hsec as (H1 & H2 & H3 & H4). change (2 ^ 47) with 140737488355328 in H4.
  unfold map_section. cbn [section_region]. set (n := section_pages (first, last, fl)) in *.
  set (off := (first - ld) / 4096) in *.
  assert (u64 (KERNEL_CODE_VIRTUAL + (first - ld)) = (4503599627108352 + off) * 4096) as ->.
  { unfold KERNEL_CODE_VIRTUAL. rewrite u64_small by (change (2 ^ 64) with 18446744073709551616; lia). lia. }
  change (roundUpToPageCount (u64 (last - first))) with n.
  replace (paging_map_Page PML4Table nx first) with (paging_map_Page PML4Table nx (frame_addr (first / 4096)))
    by (f_equal; unfold frame_addr; lia).
  assert ((4503599627108352 + off) mod 2 ^ 36 = code_page + off) as Hmod
    by (unfold code_page; change (2 ^ 36) with 68719476736; lia).
  rewrite <- Hmod. apply layout_map_Page; try done; try lia; rewrite ?Hmod; unfold code_page;
    try (change (2 ^ 36) with 68719476736; lia); try (change (2 ^ 40) with 1099511627776; lia);
    try (change (2 ^ 52) with 4503599627370496; lia).
  intros P HP. apply Hno. unfold code_page. lia.
Qed.

(** Regions that map their pages at the same distance agree where they overlap. *)
Lemma leaf_of_shift c rs P :
  Forall (fun r => r_large r = false /\ r_phys r = r_virt r + c) rs -> existsb (fun r => covers r P) rs = true ->
  exists fl, leaf_of nx rs false P = Some (page_entry nx (frame_addr (P + c)) fl).
Proof.
  induction 1 as [|r rs [Hl Hc] _ IH]; [done|]. cbn [existsb leaf_of]. rewrite Hl. cbn [eqb andb].
  destruct (covers r P); [|exact IH]. intros _. exists (r_flags r). unfold region_entry.
  rewrite Hl. do 3 f_equal. lia.
Qed.

Definition section_regions (ld : Z) (link : link_symbols) : list region := reverse (section_region ld <$> sections link).
Definition section_frames (link : link_symbols) : nat := sum_list ((fun sec => 3 * Z.to_nat (section_pages sec))%nat <$> sections link).

(** The four sections, whatever follows. *)
Lemma layout_sections s ld link :
  layout s [] -> 0 <= ld -> ld mod 4096 = 0 -> Forall (section_ok ld) (sections link) ->
  (section_frames link <= length (free_frames s))%nat ->
  exists s', layout s' (section_regions ld link) /\ progress (section_frames link) s s' /\
    forall k : phys -> option phys,
      (s ← map_section PML4Table nx ld (link_TextStart link) (link_TextEnd link) (Z.lor MAP_PROT_READ MAP_PROT_EXEC) s;
       s ← map_section PML4Table nx ld (link_DataStart link) (link_DataEnd link) (Z.lor MAP_PROT_READ MAP_PROT_WRITE) s;
       s ← map_section PML4Table nx ld (link_RodataStart link) (link_RodataEnd link) MAP_PROT_READ s;
       s ← map_section PML4Table nx ld (link_BssStart link) (link_BssEnd link) (Z.lor MAP_PROT_READ MAP_PROT_WRITE) s;
       k s) = k s'.
Proof.
  intros Hla Hld0 Hld Hok. unfold section_frames, sections in *. cbn [fmap list_fmap sum_list sum_list_with foldr].
  inversion_clear Hok as [|? ? O1 Hok1]. inversion_clear Hok1 as [|? ? O2 Hok2].
  inversion_clear Hok2 as [|? ? O3 Hok3]. inversion_clear Hok3 as [|? ? O4 _].
  set (n1 := section_pages (link_TextStart link, link_TextEnd link, Z.lor MAP_PROT_READ MAP_PROT_EXEC)).
  set (n2 := section_pages (link_DataStart link, link_DataEnd link, Z.lor MAP_PROT_READ MAP_PROT_WRITE)).
  set (n3 := section_pages (link_RodataStart link, link_RodataEnd link, MAP_PROT_READ)).
  set (n4 := section_pages (link_BssStart link, link_BssEnd link, Z.lor MAP_PROT_READ MAP_PROT_WRITE)).
  unfold id. intros Hf.
  destruct (layout_map_section s [] ld _ _ _ Hla Hld0 Hld O1) as (s1 & E1 & L1 & P1); [fold n1; lia|done|].
  pose proof (progress_free _ _ _ _ P1) as F1. fold n1 in F1, P1.
  destruct (layout_map_section s1 _ ld _ _ _ L1 Hld0 Hld O2) as (s2 & E2 & L2 & P2); [fold n2; lia|done|].
  pose proof (progress_free _ _ _ _ P2) as F2. fold n2 in F2, P2.
  destruct (layout_map_section s2 _ ld _ _ _ L2 Hld0 Hld O3) as (s3 & E3 & L3 & P3); [fold n3; lia|done|].
  pose proof (progress_free _ _ _ _ P3) as F3. fold n3 in F3, P3.
  destruct (layout_map_section s3 _ ld _ _ _ L3 Hld0 Hld O4) as (s4 & E4 & L4 & P4); [fold n4; lia|done|]. fold n4 in P4.
  exists s4. split_and!; [exact L4| |].
  - pose proof (progress_trans _ _ _ _ _ _ P1 (progress_trans _ _ _ _ _ _ P2 (progress_trans _ _ _ _ _ _ P3 P4))) as P.
    by rewrite Nat.add_0_r.
  - intros k. rewrite E1. cbn [mbind option_bind]. rewrite E2. cbn [mbind option_bind]. rewrite E3. cbn [mbind option_bind].
    by rewrite E4.
Qed.

(** The pages of the stack and of the misc area. *)
Lemma layout_misc s rs i is_ fuel fl :
  layout s rs -> 0 < phy_i_2M s -> phy_i_2M s mod 8 = 0 -> free_blocks s = i :: is_ -> (1 < fuel)%nat ->
  (514 <= length (free_frames s))%nat -> tables rs 0x7FFF600 = false ->
  exists s', paging_map_PageAllocated2M PML4Table nx fuel KERNEL_MISC_MAPPING 1 fl s = Some s' /\
    layout s' (mk_region true 0x7FFF600 (i / 8) 1 fl :: rs) /\ data_ok PML4Table s s' /\ 0 < i / 8 < 2 ^ 31 /\
    (forall f, 512 * (i / 8) <= f < 512 * (i / 8) + 512 -> used (Bitmap s) f = false /\ zero_page PML4Table s' f).
Proof.
  intros Hla Hi2 Hi8 Hff Hfuel Hf Ht. pose proof (po_end _ (la_phys _ _ _ _ Hla)) as He. unfold MAX_SYSTEM_MEMORY_PAGES in He.
  assert (i ∈ free_blocks s) as Hin by (rewrite Hff; left). unfold free_blocks in Hin.
  apply list_elem_of_filter in Hin as [Hall Hc%block_cands_in].
  pose proof (all_free8_spec (Bitmap s) i ltac:(lia) Hall) as Hfree.
  assert (i = 8 * (i / 8)) as Hdiv by lia.
  assert (0 < i / 8 < 2 ^ 31) as Hb by (change (2 ^ 31) with 2147483648; lia).
  destruct (layout_AllocateFrames2M _ _ s rs i is_ Hla Hi2 Hff) as (s1 & E1 & Hla1 & Hd1 & Hf1 & Hz1).
  destruct (layout_map_Page2M PML4Table nx s1 rs 8796093019648 (i / 8) 1 fl) as (s2 & E2 & Hla2 & Hp2); try done; try lia.
  { intros L HL. change (8796093019648 mod 2 ^ 27) with 0x7FFF600 in HL. assert (L = 0x7FFF600) as -> by lia. done. }
  destruct fuel as [|[|fuel]]; [lia|lia|]. exists s2. split_and!; [|done| |lia|lia|].
  - unfold paging_map_PageAllocated2M. change (KERNEL_MISC_MAPPING mod SYSTEM_PAGE_2M_SIZE =? 0) with true. cbv iota.
    cbn [PageAllocated2M_loop]. change (1 >? 0) with true. change (intmin 1 (HELOS_BUFFER_SIZE / 8)) with 1. cbv iota.
    rewrite E1. cbn [map_frames2M length mbind option_bind].
    replace (block_addr i) with (large_addr (i / 8)) by (unfold block_addr, large_addr; lia).
    change KERNEL_MISC_MAPPING with (large_addr 8796093019648). rewrite E2. done.
  - etransitivity; [exact Hd1|apply Hp2].
  - intros f Hr. assert (in_block i f = true) as Hbf by (unfold in_block; lia).
    split; [by apply Hfree|]. eapply zero_page_data; [lia|apply Hp2|]. apply Hz1; [lia|done|by apply Hfree].
Qed.
End Sections.

(** ** What the kernel sees *)

(** A 48-bit address, sign-extended. *)
Definition canonical (v : Z) : Prop := 0 <= v < 2 ^ 47 \/ 2 ^ 64 - 2 ^ 47 <= v < 2 ^ 64.
Definition in_area (first size v : Z) : bool := (first <=? v) && (v <? first + size).
Definition in_section (ld v : Z) (sec : Z * Z * Z) : bool :=
  in_area (KERNEL_CODE_VIRTUAL + (fst (fst sec) - ld)) (4096 * section_pages sec) v.

(** The physical address of a virtual one in the new address space, where [nfb]
    and [nid] large pages cover the framebuffer and the physical memory. *)
Definition boot_translate (link : link_symbols) (ld fb nfb nid stack misc v : Z) : option Z :=
  if existsb (in_section ld v) (sections link) then Some (ld + (v - KERNEL_CODE_VIRTUAL))
  else if in_area KERNEL_FRAMEBUFFER_MAPPING (2097152 * nfb) v then Some (fb + (v - KERNEL_FRAMEBUFFER_MAPPING))
  else if in_area 0 (2097152 * nid) v then Some v
  else if in_area (KERNEL_STACK_END_VIRTUAL - 4096) 4096 v then Some (frame_addr stack + (v - (KERNEL_STACK_END_VIRTUAL - 4096)))
  else if in_area KERNEL_MISC_MAPPING 2097152 v then Some (large_addr misc + (v - KERNEL_MISC_MAPPING))
  else None.

Definition rw : Z := Z.lor MAP_PROT_READ MAP_PROT_WRITE.
Definition boot_regions (link : link_symbols) (ld fb nfb nid stack misc : Z) : list region :=
  mk_region true 0x7FFF600 misc 1 rw :: mk_region false 0xFFFFBFFFF stack 1 rw ::
  mk_region true 0 0 nid (Z.lor rw MAP_PROT_EXEC) :: mk_region true 0x7FFF700 (fb / 2097152) nfb rw ::
  section_regions ld link.

Lemma canonical_vpn v : canonical v ->
  let P := vpn v in 0 <= P < 68719476736 /\
  v = 4096 * P + v mod 4096 + (if P <? 34359738368 then 0 else 18446462598732840960).
Proof.
  unfold canonical, vpn. change (2 ^ 36) with 68719476736. change (2 ^ 64) with 18446744073709551616.
  change (2 ^ 47) with 140737488355328. cbv zeta. intros Hc. split; [lia|].
  destruct (Z.ltb_spec ((v / 4096) mod 68719476736) 34359738368); lia.
Qed.

Lemma in_section_covers ld v sec : 0 <= ld -> ld mod 4096 = 0 -> section_ok ld sec -> canonical v ->
  in_section ld v sec = covers (section_region ld sec) (vpn v) /\
  (in_section ld v sec = true -> code_page <= vpn v).
Proof.
  intros Hld0 Hld Hok Hc. destruct sec as [[first last] fl]. destruct (section_pages_spec ld first last fl Hld0 Hok) as [Hn Hlim].
  destruct Hok as (H1 & H2 & H3 & H4). destruct (canonical_vpn v Hc) as [HP Hv]. cbv zeta in *.
  unfold in_section, in_area, covers, section_region. cbn [fst snd r_virt r_count].
  set (n := section_pages (first, last, fl)) in *. set (P := vpn v) in *. unfold KERNEL_CODE_VIRTUAL, code_page.
  assert (0 <= n) by lia.
  assert (first = ld + 4096 * ((first - ld) / 4096)) as Hfo by lia. set (off := (first - ld) / 4096) in *. clearbody n P off.
  destruct (Z.ltb_spec P 34359738368);
  destruct (Z.leb_spec (18446744072635809792 + (first - ld)) v), (Z.ltb_spec v (18446744072635809792 + (first - ld) + 4096 * n)),
    (Z.leb_spec (68719214592 + off) P), (Z.ltb_spec P (68719214592 + off + n)); cbn [andb]; (split; [first [done|lia]|first [done|lia]]).
Qed.

Lemma leaf_of_small nx rs L : Forall (fun r => r_large r = false) rs -> leaf_of nx rs true L = None.
Proof. induction 1 as [|r rs Hr _ IH]; [done|]. cbn [leaf_of]. by rewrite Hr. Qed.
Lemma leaf_of_uncovered nx rs P : Forall (fun r => r_large r = false) rs ->
  existsb (fun r => covers r P) rs = false -> leaf_of nx rs false P = None.
Proof.
  induction 1 as [|r rs Hr _ IH]; [done|]. cbn [leaf_of existsb]. rewrite Hr. cbn [eqb andb].
  by destruct (covers r P).
Qed.
Lemma section_regions_small ld link : Forall (fun r => r_large r = false) (section_regions ld link).
Proof. apply Forall_reverse, Forall_fmap, Forall_forall. by intros [[? ?] ?] _. Qed.
Lemma section_regions_shift ld link : ld mod 4096 = 0 -> Forall (section_ok ld) (sections link) ->
  Forall (fun r => r_large r = false /\ r_phys r = r_virt r + (ld / 4096 - code_page)) (section_regions ld link).
Proof.
  intros Hld Hok. apply Forall_reverse, Forall_fmap. eapply Forall_impl; [exact Hok|].
  intros [[first last] fl] (H1 & H2 & _). simpl. lia.
Qed.
Lemma existsb_reverse {A} (f : A -> bool) l : existsb f (reverse l) = existsb f l.
Proof.
  apply eq_true_iff_eq. rewrite !existsb_exists. by setoid_rewrite <- list_elem_of_In; setoid_rewrite elem_of_reverse.
Qed.
Lemma section_regions_cover ld link v : 0 <= ld -> ld mod 4096 = 0 -> Forall (section_ok ld) (sections link) -> canonical v ->
  existsb (fun r => covers r (vpn v)) (section_regions ld link) = existsb (in_section ld v) (sections link) /\
  (existsb (in_section ld v) (sections link) = true -> code_page <= vpn v).
Proof.
  intros Hld0 Hld Hok Hc. unfold section_regions. rewrite existsb_reverse. clear -Hld0 Hld Hok Hc.
  induction Hok as [|sec l Hs _ [IH1 IH2]]; [done|]. destruct (in_section_covers ld v sec Hld0 Hld Hs Hc) as [E1 E2].
  cbn [existsb fmap list_fmap]. rewrite <- E1, IH1. split; [done|]. intros [?|?]%orb_true_iff; auto.
Qed.

Section Boot.
Variable PML4Table : Z.
Variable nx : bool.
Abbreviation layout := (layout PML4Table nx).
Abbreviation progress := (progress PML4Table).
Abbreviation translate := (translate PML4Table).

Lemma boot_leaf_large link ld fb nfb nid stack misc L :
  leaf_of nx (boot_regions link ld fb nfb nid stack misc) true L =
  if L =? 0x7FFF600 then Some (large_entry nx (large_addr misc) rw)
  else if in_area 0 nid L then Some (large_entry nx (large_addr L) (Z.lor rw MAP_PROT_EXEC))
  else if in_area 0x7FFF700 nfb L then Some (large_entry nx (large_addr (fb / 2097152 + (L - 0x7FFF700))) rw)
  else None.
Proof.
  unfold boot_regions. cbn [leaf_of]. unfold covers, region_entry, in_area. cbn [r_large r_virt r_count r_phys r_flags eqb andb].
  replace ((134215168 <=? L) && (L <? 134215168 + 1)) with (L =? 134215168) by lia.
  destruct (Z.eqb_spec L 134215168) as [->|]; [by rewrite Z.sub_diag, Z.add_0_r|].
  destruct ((0 <=? L) && (L <? 0 + nid)); [by rewrite Z.sub_0_r|].
  destruct ((134215424 <=? L) && (L <? 134215424 + nfb)); [done|]. apply leaf_of_small, section_regions_small.
Qed.
Lemma boot_leaf_small link ld fb nfb nid stack misc P :
  leaf_of nx (boot_regions link ld fb nfb nid stack misc) false P =
  if P =? 0xFFFFBFFFF then Some (page_entry nx (frame_addr stack) rw) else leaf_of nx (section_regions ld link) false P.
Proof.
  unfold boot_regions. cbn [leaf_of]. unfold covers, region_entry. cbn [r_large r_virt r_count r_phys r_flags eqb andb].
  replace ((68719214591 <=? P) && (P <? 68719214591 + 1)) with (P =? 68719214591) by lia.
  destruct (Z.eqb_spec P 68719214591) as [->|]; [by rewrite Z.sub_diag, Z.add_0_r|done].
Qed.

Ltac areas := repeat match goal with |- context [in_area ?a ?b ?c] =>
  first [replace (in_area a b c) with true by (unfold in_area; lia)
        |replace (in_area a b c) with false by (unfold in_area; lia)] end; cbv iota.

Lemma layout_boot_translate s link ld fb nfb nid stack misc v :
  layout s (boot_regions link ld fb nfb nid stack misc) -> canonical v ->
  0 <= ld < 2 ^ 47 -> ld mod 4096 = 0 -> Forall (section_ok ld) (sections link) ->
  fb mod 2097152 = 0 -> 0 <= fb < 2 ^ 51 -> 0 <= nfb <= 256 -> 0 <= nid <= 32768 ->
  0 <= stack < 2 ^ 40 -> 0 <= misc < 2 ^ 31 ->
  translate s v = boot_translate link ld fb nfb nid stack misc v.
Proof.
  intros Hla Hc Hld0 Hld Hok Hfa Hfb Hnf Hni Hst Hmi.
  destruct (section_regions_cover ld link v (proj1 Hld0) Hld Hok Hc) as [Hcov Hcode].
  destruct (canonical_vpn v Hc) as [HP Hv]. cbv zeta in HP, Hv. rewrite (layout_leaves PML4Table nx s _ v Hla).
  rewrite boot_leaf_large, boot_leaf_small. unfold boot_translate.
  unfold KERNEL_FRAMEBUFFER_MAPPING, KERNEL_STACK_END_VIRTUAL, KERNEL_MISC_MAPPING, KERNEL_CODE_VIRTUAL, code_page,
    SYSTEM_PAGE_2M_SIZE, SYSTEM_PAGE_SIZE in *.
  change (2 ^ 47) with 140737488355328 in *. change (2 ^ 51) with 2251799813685248 in *.
  set (P := vpn v) in *. clearbody P.
  destruct (existsb (in_section ld v) (sections link)) eqn:Es.
  { specialize (Hcode eq_refl). destruct (leaf_of_shift nx _ _ _ (section_regions_shift ld link Hld Hok) Hcov) as [fl ->].
    rewrite (proj2 (Z.eqb_neq (P / 512) _)), (proj2 (Z.eqb_neq P _)) by lia. areas.
    rewrite page_entry_addr by (unfold code_page; change (2 ^ 40) with 1099511627776; lia).
    f_equal. unfold frame_addr, code_page. destruct (Z.ltb_spec P 34359738368); lia. }
  rewrite (leaf_of_uncovered nx _ P (section_regions_small ld link) Hcov).
  destruct (Z.ltb_spec P 34359738368).
  - rewrite (proj2 (Z.eqb_neq (P / 512) _)), (proj2 (Z.eqb_neq P _)) by lia.
    destruct (Z.ltb_spec (P / 512) nid); areas; [|done].
    rewrite large_entry_addr by (change (2 ^ 31) with 2147483648; lia). f_equal. unfold large_addr. lia.
  - destruct (Z.eqb_spec (P / 512) 134215168); [areas|destruct (Z.ltb_spec (P / 512) 134215168)].
    + rewrite large_entry_addr by done. f_equal. unfold large_addr. lia.
    + rewrite (proj2 (Z.eqb_neq P _)) by lia. by areas.
    + destruct (Z.ltb_spec (P / 512) (134215424 + nfb)), (Z.leb_spec 134215424 (P / 512)), (Z.eqb_spec P 68719214591); areas; try lia; try done.
      * rewrite large_entry_addr by (change (2 ^ 31) with 2147483648; lia). f_equal. unfold large_addr. lia.
      * rewrite page_entry_addr by done. f_equal. lia.
Qed.

(** ** The sequence of mappings *)

(** An upper bound of the frames taken for tables, and for the stack. *)
Definition boot_frames (link : link_symbols) (nfb nid : Z) : nat :=
  section_frames link + (2 * Z.to_nat nfb + (2 * Z.to_nat nid + 4)).

Lemma boot_tables_high ld link : 0 <= ld -> Forall (section_ok ld) (sections link) ->
  forall L, L < 134217216 -> tables (section_regions ld link) L = false.
Proof.
  intros Hld Hok L HL. unfold section_regions.
  assert (Forall (section_ok ld) (reverse (sections link))) as Hr by by apply Forall_reverse.
  rewrite <- fmap_reverse. clear Hok. induction Hr as [|[[first last] fl] l Hs _ IH]; [done|].
  cbn [fmap list_fmap tables]. rewrite IH, orb_false_r. destruct Hs as (_ & H2 & _).
  unfold section_region, code_page. cbn [r_large r_virt r_count negb andb].
  rewrite (proj2 (Z.leb_gt ((68719214592 + (first - ld) / 4096) / 512) L)) by lia. by rewrite andb_false_r.
Qed.

(** From the framebuffer on. *)
Lemma layout_rest s rs link ld fb nfb nid fuel b :
  rs = section_regions ld link -> layout s rs -> 0 <= ld -> Forall (section_ok ld) (sections link) ->
  fb mod 2097152 = 0 -> 0 <= fb < 2 ^ 51 -> 0 <= nfb <= 256 -> 0 <= nid <= 32768 -> (1 < fuel)%nat ->
  phy_i_2M s = 8 -> b ∈ free_blocks s ->
  let k := (2 * Z.to_nat nfb + (2 * Z.to_nat nid + 4))%nat in
  (k <= length (filter (fun f => (f < 64 * b)%Z) (free_frames s)))%nat -> (k + 514 <= length (free_frames s))%nat ->
  exists s' stack misc,
    (s ← paging_map_Page2M PML4Table nx fb KERNEL_FRAMEBUFFER_MAPPING nfb rw s;
     s ← paging_map_Page2M PML4Table nx 0 0 nid (Z.lor rw MAP_PROT_EXEC) s;
     let '(s, stack) := paging_physical_AllocateOneFrame s in
     s ← paging_map_Page PML4Table nx stack (KERNEL_STACK_END_VIRTUAL - SYSTEM_PAGE_SIZE) 1 rw s;
     paging_map_PageAllocated2M PML4Table nx fuel KERNEL_MISC_MAPPING 1 rw s) = Some s' /\
    layout s' (boot_regions link ld fb nfb nid stack misc) /\ data_ok PML4Table s s' /\
    0 <= stack < 2 ^ 40 /\ 0 < misc < 2 ^ 31 /\
    (used (Bitmap s) stack = false /\ zero_page PML4Table s' stack) /\
    (forall f, 512 * misc <= f < 512 * misc + 512 -> used (Bitmap s) f = false /\ zero_page PML4Table s' f).
Proof.
  intros -> Hla Hld Hok Hfa Hfb Hnf Hni Hfuel Hi2 Hb k Hkb Hk. subst k.
  change (2 ^ 51) with 2251799813685248 in Hfb.
  assert (large_addr (fb / 2097152) = fb) as Hfe by (unfold large_addr; lia).
  destruct (layout_map_Page2M PML4Table nx s _ 8796093019904 (fb / 2097152) nfb rw Hla) as (s1 & E1 & L1 & P1); try lia.
  { change (8796093019904 mod 2 ^ 27) with 134215424. intros L HL. apply (boot_tables_high ld link Hld Hok). lia. }
  change (8796093019904 mod 2 ^ 27) with 134215424 in L1. change (large_addr 8796093019904) with KERNEL_FRAMEBUFFER_MAPPING in E1.
  rewrite Hfe in E1. pose proof (progress_free _ _ _ _ P1) as F1.
  destruct (layout_map_Page2M PML4Table nx s1 _ 0 0 nid (Z.lor rw MAP_PROT_EXEC) L1) as (s2 & E2 & L2 & P2); try lia.
  { change (0 mod 2 ^ 27) with 0. intros L HL. rewrite tables_large by done. apply (boot_tables_high ld link Hld Hok). lia. }
  change (0 mod 2 ^ 27) with 0 in L2. change (large_addr 0) with 0 in E2.
  pose proof (progress_free _ _ _ _ P2) as F2.
  destruct (free_frames s2) as [|stack fs] eqn:Hff; [simpl in F2; lia|].
  destruct (layout_AllocateOneFrame PML4Table nx s2 _ stack fs L2 Hff) as (s3 & E3 & L3 & P3 & Z3).
  pose proof (progress_free _ _ _ _ P3) as F3. rewrite Hff in F3.
  assert (stack ∈ free_frames s2) as Hin by (rewrite Hff; left). apply free_frames_in in Hin as [Hr Hu2].
  pose proof (po_i _ (la_phys _ _ _ _ L2)) as Hi. pose proof (po_end _ (la_phys _ _ _ _ L2)) as He.
  unfold MAX_SYSTEM_MEMORY_PAGES, phys_limit in *. assert (0 <= stack < 16777216) as Hst by lia.
  destruct (layout_map_Page PML4Table nx s3 _ 4503599627108351 stack 1 rw L3) as (s4 & E4 & L4 & P4); try done; try lia.
  { change (4503599627108351 mod 2 ^ 36) with 68719214591. intros Q HQ. assert (Q = 68719214591) as -> by lia.
    change (68719214591 / 512) with 134217215. cbn [leaf_of]. unfold covers. cbn [r_large r_virt r_count eqb andb].
    replace ((0 <=? 134217215) && (134217215 <? 0 + nid)) with false by lia.
    replace ((134215424 <=? 134217215) && (134217215 <? 134215424 + nfb)) with false by lia.
    apply leaf_of_small, section_regions_small. }
  change (4503599627108351 mod 2 ^ 36) with 68719214591 in L4.
  pose proof (progress_free _ _ _ _ P4) as F4. change (3 * Z.to_nat 1)%nat with 3%nat in *.
  pose proof (progress_trans _ _ _ _ _ _ P1 (progress_trans _ _ _ _ _ _ P2 (progress_trans _ _ _ _ _ _ P3 P4))) as [T D].
  change (1 + 3)%nat with 4%nat in T.
  assert (b ∈ free_blocks s4) as Hb4 by (apply (takes_block _ _ _ _ T (la_phys _ _ _ _ L4)); [lia|done|lia]).
  destruct (free_blocks s4) as [|i is_] eqn:Hblocks; [by apply elem_of_nil in Hb4|].
  pose proof (tk_i2 _ _ _ T) as Hi4. rewrite Hi2 in Hi4.
  destruct (layout_misc PML4Table nx s4 _ i is_ fuel rw L4) as (s5 & E5 & L5 & D5 & Hm & Z5); try done; try lia.
  { cbn [tables r_large r_virt r_count negb andb orb]. rewrite (boot_tables_high ld link Hld Hok) by lia. done. }
  assert (forall x, 0 <= x -> used (Bitmap s4) x = false -> used (Bitmap s) x = false) as Hback.
  { intros x Hx Hu. apply not_true_is_false. intros Hs. by rewrite (takes_used _ _ _ x T Hx Hs) in Hu. }
  exists s5, stack, (i / 8). split_and!; try done; try lia.
  - rewrite E1. cbn [mbind option_bind]. rewrite E2. cbn [mbind option_bind]. rewrite E3.
    change (KERNEL_STACK_END_VIRTUAL - SYSTEM_PAGE_SIZE) with (4503599627108351 * 4096). rewrite E4. exact E5.
  - etransitivity; [exact D|exact D5].
  - apply not_true_is_false. intros Hs.
    by rewrite (takes_used _ _ _ stack (takes_trans _ _ _ _ _ (proj1 P1) (proj1 P2)) (proj1 Hst) Hs) in Hu2.
  - eapply zero_page_data; [lia|exact D5|]. eapply zero_page_data; [lia|apply P4|done].
  - intros f Hf. destruct (Z5 f Hf) as [Hu Hz]. split; [|done]. apply Hback; [lia|done].
Qed.

(** ** From the memory map on *)

Variables EfiLoaderCode EfiConventionalMemory : Z.
Definition usable (map : list EFI_MEMORY_DESCRIPTOR) (f : Z) : bool :=
  existsb (fun e => desc_covers EfiConventionalMemory e f) map.
(** The frames the cursor of the allocator, which skips the first MiB, can reach. *)
Definition usable_frames (map : list EFI_MEMORY_DESCRIPTOR) : list Z :=
  filter (fun f => usable map f = true) (seqZ 256 (64 * (usable_end EfiConventionalMemory map / 4096 / 64) - 256)).

Lemma usable_end_bound map :
  Forall desc_ok map -> Forall (fun e => PhysicalStart e mod 4096 = 0) map ->
  0 <= usable_end EfiConventionalMemory map <= 2 ^ 36.
Proof.
  intros Hok Ha. change (2 ^ 36) with 68719476736. induction Hok as [|e map (H1 & H2 & H3) _ IH]; [simpl; lia|].
  apply Forall_cons in Ha as [Ha Has]. specialize (IH Has). unfold MAX_SYSTEM_MEMORY_PAGES in H3.
  cbn [usable_end foldr] in *. fold (usable_end EfiConventionalMemory map). case_match; lia.
Qed.

Lemma scan_phys_spec text map e m :
  Forall desc_ok map -> Forall (fun e => PhysicalStart e mod 4096 = 0) map ->
  filter (fun e => holds_text EfiLoaderCode text e = true) map = [e] ->
  exists sc, scan_map EfiLoaderCode EfiConventionalMemory text map scan_init = Some sc /\
    loader sc = loader_of e /\ EndPhysicalAddress sc = usable_end EfiConventionalMemory map /\
    let s := scan_phys sc m in
    phys_ok s /\ free_frames s = usable_frames map /\ (forall f, 0 <= f -> used (Bitmap s) f = negb (usable map f)) /\
    EndPhysicalPage s = usable_end EfiConventionalMemory map / 4096.
Proof.
  intros Hok Ha Hf. destruct (scan_map_loader EfiLoaderCode EfiConventionalMemory text map scan_init e) as (sc & E & Hw & Hl);
    [intros i; apply not64_range|done|done|].
  destruct (scan_map_spec _ _ text map scan_init sc Hok (Z.le_refl 0) E) as [Hu He].
  pose proof (usable_end_bound map Hok Ha) as Hb. change (2 ^ 36) with 68719476736 in Hb.
  change (EndPhysicalAddress scan_init) with 0 in He. rewrite Z.max_r in He by lia.
  assert (i32 (EndPhysicalAddress sc / SYSTEM_PAGE_SIZE) = usable_end EfiConventionalMemory map / 4096) as Hend.
  { rewrite He. apply i32_small. unfold SYSTEM_PAGE_SIZE. lia. }
  assert (forall f, 0 <= f -> used (sBitmap sc) f = negb (usable map f)) as Hus.
  { intros f Hf0. rewrite Hu by done. unfold scan_init, used. cbn [sBitmap]. by rewrite ff_testbit by lia. }
  exists sc. cbv zeta. split_and!; try done.
  - constructor; [exact Hw|by vm_compute|by vm_compute|]. cbn [EndPhysicalPage scan_phys]. rewrite Hend. unfold MAX_SYSTEM_MEMORY_PAGES. lia.
  - unfold free_frames, phys_limit, usable_frames. cbn [EndPhysicalPage scan_phys phy_i Bitmap]. rewrite Hend.
    change (64 * phy_i_init) with 256. apply filter_ext_in. intros f Hf0%elem_of_seqZ. rewrite Hus by lia. by destruct (usable map f).
Qed.

(** What the firmware and the linker give: a memory map that fits the bitmap, one
    descriptor around the code, page-aligned sections, a cleared top table outside the
    usable memory, a framebuffer of at most 512 MiB, and enough memory. *)
Record boot_ok (map : list EFI_MEMORY_DESCRIPTOR) (link : link_symbols) (fb fbSize : Z) (m : mem)
    (e : EFI_MEMORY_DESCRIPTOR) (f0 : Z) : Prop := {
  bo_map : Forall desc_ok map;
  bo_aligned : Forall (fun e => PhysicalStart e mod 4096 = 0) map;
  bo_loader : filter (fun e => holds_text EfiLoaderCode (link_TextStart link) e = true) map = [e];
  bo_loader_0 : PhysicalStart e <> 0;
  bo_sections : Forall (section_ok (PhysicalStart e)) (sections link);
  bo_pml4 : PML4Table = frame_addr f0 /\ 0 <= f0 /\ usable map f0 = false;
  bo_cleared : forall i, 0 <= i < 512 -> load64 m (PML4Table + 8 * i) = 0;
  bo_fb : fb mod 2097152 = 0 /\ 0 <= fb < 2 ^ 51 /\ 0 <= fbSize <= 536870912;
}.
(** Room for the tables below a free large page, and for the rest. *)
Definition boot_room (map : list EFI_MEMORY_DESCRIPTOR) (k : nat) : Prop :=
  (k + 514 <= length (usable_frames map))%nat /\
  exists b, 1 <= b /\ 8 * b < usable_end EfiConventionalMemory map / 4096 / 64 /\
    (forall f, 512 * b <= f < 512 * b + 512 -> usable map f = true) /\
    (k <= length (filter (fun f => (f < 512 * b)%Z) (usable_frames map)))%nat.

Lemma boot_room_block s map k : phys_ok s -> free_frames s = usable_frames map -> phy_i_2M s = 8 ->
  (forall f, 0 <= f -> used (Bitmap s) f = negb (usable map f)) ->
  EndPhysicalPage s = usable_end EfiConventionalMemory map / 4096 -> boot_room map k ->
  (k + 514 <= length (free_frames s))%nat /\
  exists i, i ∈ free_blocks s /\ (k <= length (filter (fun f => (f < 64 * i)%Z) (free_frames s)))%nat.
Proof.
  intros Hph Hff Hi Hu He [Hk (b & Hb1 & Hb2 & Hb3 & Hb4)]. rewrite Hff. split; [done|]. exists (8 * b). split.
  - unfold free_blocks. rewrite Hi, He. apply list_elem_of_filter. split.
    + apply all_free8_intro; [apply Hph|lia|]. intros f Hf. unfold in_block in Hf. rewrite Hu, Hb3 by lia. done.
    + apply in_block_cands; lia.
  - by replace (64 * (8 * b)) with (512 * b) by lia.
Qed.

(** The tables built, and what becomes of the memory. *)
Lemma boot_layout map link fb fbSize m e f0 fuel :
  let nfb := roundUpToPageCount2M fbSize in
  let nid := roundUpToPageCount2M (usable_end EfiConventionalMemory map) in
  boot_ok map link fb fbSize m e f0 -> boot_room map (boot_frames link nfb nid) -> (1 < fuel)%nat ->
  exists sc s' stack misc,
    scan_map EfiLoaderCode EfiConventionalMemory (link_TextStart link) map scan_init = Some sc /\
    loader sc = loader_of e /\
    paging_map_kernel PML4Table nx fuel link fb fbSize sc m = Some s' /\
    layout s' (boot_regions link (PhysicalStart e) fb nfb nid stack misc) /\
    (0 <= nfb <= 256 /\ 0 <= nid <= 32768) /\
    (forall s v, layout s (boot_regions link (PhysicalStart e) fb nfb nid stack misc) -> canonical v ->
       translate s v = boot_translate link (PhysicalStart e) fb nfb nid stack misc v) /\
    (usable map stack = true /\ zero_page PML4Table s' stack) /\
    (forall f, 512 * misc <= f < 512 * misc + 512 -> usable map f = true /\ zero_page PML4Table s' f) /\
    (forall f, 0 <= f -> usable map f = false -> f <> f0 ->
       ~ is_tab PML4Table s' f /\ forall x, x / 4096 = f -> pmem s' x = m x).
Proof.
  intros nfb nid [Hmap Hal Hload Hld0 Hsec (Hpml & Hf0 & Huf0) Hz (Hfa & Hfb & Hfs)] Hroom Hfuel.
  destruct (scan_phys_spec _ map e m Hmap Hal Hload) as (sc & Esc & Eld & Eend & Hph & Hff & Hu & Hend).
  set (s := scan_phys sc m) in *. set (ld := PhysicalStart e) in *.
  pose proof (usable_end_bound map Hmap Hal) as Hub. change (2 ^ 36) with 68719476736 in Hub.
  assert (e ∈ map) as Hin by (eapply list_elem_of_filter; rewrite Hload; by left).
  pose proof (proj1 (Forall_forall _ _) Hal e Hin) as Hlda. pose proof (proj1 (Forall_forall _ _) Hmap e Hin) as (Hl1 & Hlp & Hl2).
  fold ld in Hlda, Hl1, Hl2. unfold MAX_SYSTEM_MEMORY_PAGES in Hl2.
  assert (nfb = (fbSize + 2097151) / 2097152) as Hnf by (apply roundUpToPageCount2M_spec; change (2 ^ 42) with 4398046511104; lia).
  assert (nid = (usable_end EfiConventionalMemory map + 2097151) / 2097152) as Hni
    by (apply roundUpToPageCount2M_spec; change (2 ^ 42) with 4398046511104; lia).
  destruct (boot_room_block s map _ Hph Hff eq_refl Hu Hend Hroom) as (Hroom1 & b & Hb & Hroom2). unfold boot_frames in Hroom1, Hroom2.
  destruct (layout_start PML4Table nx s f0 Hph Hpml Hf0) as [L0 Ht0]; [by rewrite Hu, Huf0|exact Hz|].
  destruct (layout_sections PML4Table nx s ld link L0 Hl1 Hlda Hsec ltac:(lia)) as (s1 & L1 & P1 & E1).
  pose proof (progress_free _ _ _ _ P1) as F1.
  destruct (layout_rest s1 _ link ld fb nfb nid fuel b eq_refl L1 Hl1 Hsec Hfa Hfb) as
    (s' & stack & misc & E2 & L2 & D2 & Hst & Hmi & (Us & Zs) & Zm); try lia.
  { by rewrite (tk_i2 _ _ _ (proj1 P1)). }
  { apply (takes_block _ _ _ _ (proj1 P1) (la_phys _ _ _ _ L1)); [done|done|lia]. }
  { by eapply takes_count; [apply P1|]. }
  assert (forall x, 0 <= x -> used (Bitmap s1) x = false -> usable map x = true) as Hback.
  { intros x Hx Hx1. destruct (usable map x) eqn:Eu; [done|]. pose proof (Hu x Hx) as Hux. rewrite Eu in Hux.
    by rewrite (takes_used _ _ _ x (proj1 P1) Hx Hux) in Hx1. }
  exists sc, s', stack, misc. split_and!; [exact Esc|exact Eld|..].
  - unfold paging_map_kernel. injection Eld as -> _. rewrite Eend. fold ld.
    rewrite (proj2 (Z.eqb_neq ld 0)) by done. fold s nfb nid. change (roundUpToPageCount2M KERNEL_MISC_SIZE) with 1.
    rewrite E1. exact E2.
  - exact L2.
  - lia.
  - lia.
  - lia.
  - lia.
  - intros sv v Hla Hv. apply (layout_boot_translate sv); try done; try lia.
  - apply Hback; [lia|done].
  - exact Zs.
  - intros f Hf. destruct (Zm f Hf) as [Uf Zf]. split; [|done]. apply Hback; [lia|done].
  - intros f Hf Hfu Hff0. pose proof (Hu f Hf) as Hux. rewrite Hfu in Hux.
    destruct (data_ok_trans _ _ _ _ (proj2 P1) D2 f Hf Hux) as (_ & Ht & Hm); [by rewrite Ht0|]. by split.
Qed.

(** Setting up the address space at boot from a memory map with enough room
    succeeds: every canonical address translates as [boot_translate] says - the
    image at its new place, the framebuffer, the physical memory at its own
    addresses, one page of stack, one large page of misc data - and all others fault.
    The stack and the misc area are fresh zeroed usable memory, the tables are well
    formed, and no page outside the usable memory changes but the top table. *)
Theorem runtime_InitPaging_map_correct map link fb fbSize m e f0 fuel :
  let nfb := roundUpToPageCount2M fbSize in
  let nid := roundUpToPageCount2M (usable_end EfiConventionalMemory map) in
  boot_ok map link fb fbSize m e f0 -> boot_room map (boot_frames link nfb nid) -> (1 < fuel)%nat ->
  exists s' stack misc,
    runtime_InitPaging_map EfiLoaderCode EfiConventionalMemory PML4Table nx fuel map link fb fbSize m = Some s' /\
    pt_ok PML4Table s' /\ phys_ok s' /\
    (forall v, canonical v -> translate s' v = boot_translate link (PhysicalStart e) fb nfb nid stack misc v) /\
    (usable map stack = true /\ zero_page PML4Table s' stack) /\
    (forall f, 512 * misc <= f < 512 * misc + 512 -> usable map f = true /\ zero_page PML4Table s' f) /\
    (forall x, 0 <= x -> usable map (x / 4096) = false -> x / 4096 <> f0 -> pmem s' x = m x).
Proof.
  intros nfb nid Hok Hroom Hfuel.
  destruct (boot_layout map link fb fbSize m e f0 fuel Hok Hroom Hfuel) as (sc & s' & stack & misc & E1 & _ & E2 & L & _ & Ht & Hs & Hm & Hd).
  exists s', stack, misc. split_and!; [|apply L|apply L| |apply Hs|apply Hs|exact Hm|].
  - unfold runtime_InitPaging_map. rewrite E1. exact E2.
  - intros v. by apply Ht.
  - intros x Hx Hxu Hxf. by apply (Hd (x / 4096)); [lia|..].
Qed.

(** The end of physical memory is that of the usable memory only: an image loaded
    above it is not mapped at its own address, where the processor still runs when
    the new tables are loaded. *)
Theorem boot_translate_high_image link ld fb nfb nid stack misc :
  2097152 * nid <= link_TextStart link < 2 ^ 47 -> 0 <= ld <= link_TextStart link -> Forall (section_ok ld) (sections link) ->
  boot_translate link ld fb nfb nid stack misc (link_TextStart link) = None.
Proof.
  intros Ht Hld Hok. change (2 ^ 47) with 140737488355328 in Ht. unfold boot_translate.
  assert (existsb (in_section ld (link_TextStart link)) (sections link) = false) as ->.
  { clear -Ht Hld Hok. induction Hok as [|[[first last] fl] l (_ & H2 & _) _ IH]; [done|]. cbn [existsb]. rewrite IH, orb_false_r.
    unfold in_section, in_area, KERNEL_CODE_VIRTUAL. cbn [fst snd]. lia. }
  unfold KERNEL_FRAMEBUFFER_MAPPING, KERNEL_STACK_END_VIRTUAL, KERNEL_MISC_MAPPING, KERNEL_CODE_VIRTUAL. by areas.
Qed.
End Boot.

(** ** Witness *)

Definition boot_map : list EFI_MEMORY_DESCRIPTOR := [mk_desc 7 0x100000 4000; mk_desc 1 0x10A0000 64; mk_desc 0 0x10E0000 10].
Definition boot_link : link_symbols :=
  mk_link 0x10A1000 0x10A1F00 0x10A3000 0x10A3800 0x10A4000 0x10A4020 0x10A5000 0x10A5FFF.
Definition boot_e : EFI_MEMORY_DESCRIPTOR := mk_desc 1 0x10A0000 64.
Lemma boot_demo_ok m : (forall i, 0 <= i < 512 -> load64 m (frame_addr 4265 + 8 * i) = 0) ->
  boot_ok (frame_addr 4265) 1 7 boot_map boot_link 0x80000000 5000000 m boot_e 4265.
Proof.
  intros Hm. constructor.
  - repeat constructor; by vm_compute.
  - repeat constructor.
  - by vm_compute.
  - by vm_compute.
  - repeat constructor; by vm_compute.
  - split_and!; by vm_compute.
  - exact Hm.
  - split_and!; by vm_compute.
Qed.
Lemma load64_zero a : load64 (fun _ => 0) a = 0.
Proof. by vm_compute. Qed.
Lemma boot_demo_room : boot_room 7 boot_map (boot_frames boot_link 3 9).
Proof.
  split; [by vm_compute; lia|]. exists 1. split_and!; [lia|by vm_compute| |by vm_compute; lia].
  intros f Hf. unfold usable, boot_map, desc_covers. cbn [existsb Type_ PhysicalStart NumberOfPages]. simpl. lia.
Qed.
Lemma runtime_InitPaging_map_correct_witness :
  exists s', runtime_InitPaging_map 1 7 (frame_addr 4265) false 2 boot_map boot_link 0x80000000 5000000 (fun _ => 0) = Some s' /\
    translate (frame_addr 4265) s' (KERNEL_CODE_VIRTUAL + 0x1234) = Some 0x10A1234 /\
    translate (frame_addr 4265) s' 0x10A1234 = Some 0x10A1234 /\
    translate (frame_addr 4265) s' (KERNEL_FRAMEBUFFER_MAPPING + 5) = Some 0x80000005 /\
    translate (frame_addr 4265) s' KERNEL_HEAP_VIRTUAL = None.
Proof.
  destruct (runtime_InitPaging_map_correct (frame_addr 4265) false 1 7 boot_map boot_link 0x80000000 5000000 (fun _ => 0) boot_e 4265 2
    (boot_demo_ok _ (fun i _ => load64_zero _)) boot_demo_room ltac:(lia)) as (s' & stack & misc & E & _ & _ & Ht & _).
  exists s'. split; [exact E|].
  split_and!; (rewrite Ht; [reflexivity|unfold canonical; vm_compute; intuition congruence]).
Defined.
Lemma boot_translate_high_image_witness :
  boot_translate boot_link 0x10A0000 0 0 8 0 0 (link_TextStart boot_link) = None.
Proof.
  apply (boot_translate_high_image boot_link 0x10A0000 0 0 8 0 0); [by vm_compute|by vm_compute|].
  repeat constructor; by vm_compute.
Defined.
