(* ===== verification/Heap.v ===== *)
(** * Kernel address space: heap break and mapping cursor
    (src/memory/heap_break.c, memory.h) *)

From S2P Require Import Prelude Mem Physical Paging PageTable PagingSpec.

(** ** Rounding to pages *)

(** ** [memory_AllocateKernelMapping] and [paging_MapFunction] *)

(** [memory_KernelMappingBottom] is the state; the new value is returned. *)
Definition memory_AllocateKernelMapping (bottom size align : Z) : Z :=
  Z.land (u64 (bottom - size)) (not64 (u64 (align - 1))).
Definition memory_KernelMappingBottom_init : Z := KERNEL_MISC_MAPPING.

Definition paging_MapFunction (LoaderCodeAddress func : Z) : Z :=
  u64 (u64 (func - LoaderCodeAddress) + KERNEL_CODE_VIRTUAL).

(** Clearing the bits below an exponent of two rounds down. *)
Lemma land_not_low k v :
  0 <= k < 64 -> 0 <= v < 2 ^ 64 -> Z.land v (not64 (u64 (2 ^ k - 1))) = v - v mod 2 ^ k.
Proof.
  intros Hk Hv. assert (u64 (2 ^ k - 1) = Z.ones k) as ->.
  { unfold Z.ones. rewrite Z.shiftl_1_l, u64_small; [lia|].
    assert (0 < 2 ^ k <= 2 ^ 63) by (split; [lia|apply Z.pow_le_mono_r; lia]).
    change (2 ^ 63) with 9223372036854775808 in *. lia. }
  replace (v - v mod 2 ^ k) with (Z.ldiff v (Z.ones k)).
  - apply Z.bits_inj'. intros i Hi. rewrite Z.land_spec, Z.ldiff_spec.
    destruct (Z.lt_ge_cases i 64).
    + by rewrite not64_testbit by lia.
    + by rewrite (testbit_high v) by (done || lia).
  - rewrite Z.ldiff_ones_r, Z.shiftr_div_pow2, Z.shiftl_mul_pow2 by lia.
    pose proof (Z.div_mod v (2 ^ k)). lia.
Qed.

(** [memory_AllocateKernelMapping] hands out regions downwards: the result
    is aligned as asked, the region of [size] bytes at it lies below the
    previous cursor, and less than [align] bytes are skipped between them, so
    that successive regions never overlap. *)
Theorem memory_AllocateKernelMapping_correct bottom size k :
  0 <= bottom < 2 ^ 64 -> 0 <= size <= bottom -> 0 <= k < 64 ->
  let r := memory_AllocateKernelMapping bottom size (2 ^ k) in
  0 <= r /\ r mod 2 ^ k = 0 /\ r + size <= bottom /\ bottom < r + size + 2 ^ k.
Proof.
  intros Hb Hs Hk r. unfold r, memory_AllocateKernelMapping.
  change (2 ^ 64) with 18446744073709551616 in Hb. rewrite (u64_small (bottom - size)) by lia.
  rewrite land_not_low by (change (2 ^ 64) with 18446744073709551616; lia).
  assert (0 < 2 ^ k) as Hp by lia.
  pose proof (Z.mod_pos_bound (bottom - size) (2 ^ k) Hp).
  pose proof (Z.div_mod (bottom - size) (2 ^ k)) as Hd.
  assert (bottom - size - (bottom - size) mod 2 ^ k = (bottom - size) / 2 ^ k * 2 ^ k) as He by lia.
  pose proof (Z.div_pos (bottom - size) (2 ^ k)). rewrite He, Z.mod_mul by lia. split_and!; lia || nia.
Qed.
Lemma memory_AllocateKernelMapping_correct_witness :
  memory_AllocateKernelMapping memory_KernelMappingBottom_init 4097 (2 ^ 12) mod 2 ^ 12 = 0.
Proof.
  destruct (memory_AllocateKernelMapping_correct memory_KernelMappingBottom_init 4097 12)
    as (_ & H & _); [by vm_compute..|]. exact H.
Defined.

(** ** The heap break *)

Record heap_state := mk_heap {
  heapBreak : Z;
  pageBreak : Z;
  h_phys : phys;
}.
Definition heap_init (s : phys) : heap_state := mk_heap KERNEL_HEAP_VIRTUAL KERNEL_HEAP_VIRTUAL s.

Section Heap.
Variable PML4Table : Z.
Variable nx : bool.

(** The value returned, [2 ^ 64 - 1] for [(void * )-1], and the new state;
    [None] when [paging_map_PageAllocated] does not return within [fuel]. *)
Definition memory_AddBreak (fuel : nat) (h : heap_state) (inc : Z) : option (heap_state * Z) :=
  let nb := u64 (heapBreak h + inc) in
  if nb <? KERNEL_HEAP_VIRTUAL then Some (h, u64 (-1)) else
  if nb >? pageBreak h then
    let pageCount := roundUpToPageCount (u64 (nb - pageBreak h)) in
    s ← paging_map_PageAllocated PML4Table nx fuel (pageBreak h) pageCount
          (Z.lor MAP_PROT_READ MAP_PROT_WRITE) (h_phys h);
    Some (mk_heap nb (u64 (pageBreak h + SYSTEM_PAGE_SIZE * pageCount)) s, u64 (nb - inc))
  else Some (mk_heap nb (pageBreak h) (h_phys h), u64 (nb - inc)).

(** The pages of the heap window below the kernel's code and stack. *)
Definition heap_limit : Z := KERNEL_CODE_VIRTUAL.

Record heap_ok (h : heap_state) : Prop := {
  hk_break : KERNEL_HEAP_VIRTUAL <= heapBreak h <= pageBreak h;
  hk_page : pageBreak h mod 4096 = 0;
  hk_limit : pageBreak h <= heap_limit;
  hk_pt : pt_ok PML4Table (h_phys h);
  hk_phys : phys_ok (h_phys h);
  hk_large : forall P, in_range (KERNEL_HEAP_VIRTUAL / 4096) 786432 P -> no_large PML4Table (h_phys h) P;
  hk_mapped : forall v, KERNEL_HEAP_VIRTUAL <= v < pageBreak h -> translate PML4Table (h_phys h) v <> None;
}.

Lemma heap_vpn v :
  KERNEL_HEAP_VIRTUAL <= v < heap_limit ->
  vpn v = (KERNEL_HEAP_VIRTUAL / 4096) mod 2 ^ 36 + (v - KERNEL_HEAP_VIRTUAL) / 4096.
Proof.
  unfold vpn, KERNEL_HEAP_VIRTUAL, heap_limit, KERNEL_CODE_VIRTUAL.
  change (2 ^ 36) with 68719476736. lia.
Qed.

(** Growing the mapped part by [n] pages. *)
Lemma heap_grow h nb n fl fuel :
  heap_ok h -> 0 < n -> pageBreak h + 4096 * n <= heap_limit ->
  KERNEL_HEAP_VIRTUAL <= nb <= pageBreak h + 4096 * n ->
  (4 * Z.to_nat n <= length (free_frames (h_phys h)))%nat -> (Z.to_nat n < fuel)%nat ->
  exists s', paging_map_PageAllocated PML4Table nx fuel (pageBreak h) n fl (h_phys h) = Some s' /\
    heap_ok (mk_heap nb (pageBreak h + 4096 * n) s') /\
    (forall v, KERNEL_HEAP_VIRTUAL <= v < pageBreak h ->
       translate PML4Table s' v = translate PML4Table (h_phys h) v) /\
    (forall v, pageBreak h <= v < pageBreak h + 4096 * n ->
       exists a, translate PML4Table s' v = Some a /\ pmem s' a = 0).
Proof.
  intros [Hb Hpg Hlim Hpt Hpo Hlg Hmp] Hn Hlim' Hnb Hf Hfuel.
  pose proof heap_vpn as Hvpn.
  set (V := pageBreak h / 4096). assert (pageBreak h = V * 4096) as HV by (unfold V; lia).
  unfold heap_limit, KERNEL_CODE_VIRTUAL in Hlim, Hlim'.
  assert (KERNEL_HEAP_VIRTUAL = 18446744069414584320) as HK by done.
  assert (V mod 2 ^ 36 = (KERNEL_HEAP_VIRTUAL / 4096) mod 2 ^ 36 + (V - KERNEL_HEAP_VIRTUAL / 4096)) as HVm.
  { change (2 ^ 36) with 68719476736. rewrite HK in *. lia. }
  assert (range_ok PML4Table (h_phys h) V n) as Hr.
  { constructor.
    - change (2 ^ 52) with 4503599627370496. rewrite HK in *. lia.
    - rewrite HVm. change (2 ^ 36) with 68719476736. rewrite HK in *. lia.
    - intros P HP. apply Hlg. unfold in_range. rewrite HVm in HP.
      change (2 ^ 36) with 68719476736 in *. rewrite HK in *. lia. }
  destruct (PageAllocated_loop_backed PML4Table nx fuel n (h_phys h) V fl Hfuel ltac:(lia) Hpt Hpo Hr Hf)
    as (s' & frames & E1 & Hlen & [P L HL S Dt U [N R] Z F]).
  exists s'. split.
  { unfold paging_map_PageAllocated, SYSTEM_PAGE_SIZE. rewrite HV, Z.mod_mul by lia. exact E1. }
  rewrite Forall_forall in R, Z. rewrite Hlen, Z2Nat.id in S by lia.
  assert (forall v, KERNEL_HEAP_VIRTUAL <= v < pageBreak h ->
            translate PML4Table s' v = translate PML4Table (h_phys h) v) as Hold.
  { intros v Hv. apply translate_same. intros d p Hd Hp Hp'. apply S; [done|done|].
    destruct Hp' as [?| ->]; [by left|right].
    unfold in_range. rewrite Hvpn by (unfold heap_limit, KERNEL_CODE_VIRTUAL; lia).
    rewrite HVm, HK in *. change (2 ^ 36) with 68719476736. lia. }
  assert (forall v, pageBreak h <= v < pageBreak h + 4096 * n ->
            exists a, translate PML4Table s' v = Some a /\ pmem s' a = 0) as Hnew.
  { intros v Hv. set (k := Z.to_nat ((v - pageBreak h) / 4096)).
    destruct (lookup_lt_is_Some_2 frames k) as [f Hk]; [unfold k; lia|].
    destruct (Z f (list_elem_of_lookup_2 _ _ _ Hk)) as (_ & _ & Hz).
    destruct (R f (list_elem_of_lookup_2 _ _ _ Hk)) as [Hfr _].
    assert (vpn v = V mod 2 ^ 36 + Z.of_nat k) as Hvk.
    { rewrite Hvpn by (unfold heap_limit, KERNEL_CODE_VIRTUAL; rewrite HK in *; lia).
      rewrite HVm. unfold k. rewrite HK in *. lia. }
    exists (frame_addr f + v mod 4096). split.
    - apply (translate_page PML4Table nx _ _ _ fl); [done| |rewrite Hvk; by apply HL].
      eapply no_large_same; [exact S| |].
      + unfold vpn. change (2 ^ 36) with 68719476736. lia.
      + apply Hlg. unfold in_range. rewrite Hvpn by (unfold heap_limit, KERNEL_CODE_VIRTUAL; rewrite HK in *; lia).
        rewrite HK in *. lia.
    - apply Hz. unfold frame_addr. lia. }
  split_and!; [|done|done]. constructor; simpl; try done.
  - lia.
  - intros P' HP'. eapply no_large_same; [exact S| |by apply Hlg].
    revert HP'. unfold in_range. rewrite HK. change (2 ^ 36) with 68719476736. lia.
  - intros v Hv. destruct (Z.lt_ge_cases v (pageBreak h)).
    + rewrite Hold by lia. by apply Hmp; lia.
    + destruct (Hnew v) as (a & -> & _); [lia|done].
Qed.

(** [memory_AddBreak]: a break moved below the heap's base is refused with -1
    and changes nothing; otherwise the old break is returned, the new one is set
    and every address below it is mapped, the pages added being fresh and zero,
    and what was mapped stays mapped where it was.  (Pages are never given
    back.) *)
Theorem memory_AddBreak_correct h inc fuel :
  heap_ok h -> - 2 ^ 63 <= inc < 2 ^ 63 -> 0 <= heapBreak h + inc <= heap_limit ->
  (4 * Z.to_nat ((heapBreak h + inc - pageBreak h + 4095) / 4096) <= length (free_frames (h_phys h)))%nat ->
  (Z.to_nat ((heapBreak h + inc - pageBreak h + 4095) / 4096) < fuel)%nat ->
  if heapBreak h + inc <? KERNEL_HEAP_VIRTUAL
  then memory_AddBreak fuel h inc = Some (h, 2 ^ 64 - 1)
  else exists h', memory_AddBreak fuel h inc = Some (h', heapBreak h) /\
    heapBreak h' = heapBreak h + inc /\ heap_ok h' /\ pageBreak h <= pageBreak h' /\
    (forall v, KERNEL_HEAP_VIRTUAL <= v < pageBreak h ->
       translate PML4Table (h_phys h') v = translate PML4Table (h_phys h) v) /\
    (forall v, pageBreak h <= v < pageBreak h' ->
       exists a, translate PML4Table (h_phys h') v = Some a /\ pmem (h_phys h') a = 0).
Proof.
  intros Hok Hinc Hlim Hf Hfuel. pose proof Hok as [Hb Hpg Hpl _ _ _ _].
  unfold memory_AddBreak. unfold heap_limit, KERNEL_CODE_VIRTUAL in Hlim, Hpl.
  rewrite !(u64_small (heapBreak h + inc)) by lia.
  destruct (Z.ltb_spec (heapBreak h + inc) KERNEL_HEAP_VIRTUAL) as [Hlt|Hge]; [done|].
  assert (KERNEL_HEAP_VIRTUAL = 18446744069414584320) as HK by done.
  replace (heapBreak h + inc - inc) with (heapBreak h) by lia.
  rewrite (u64_small (heapBreak h)) by lia. rewrite Z.gtb_ltb.
  destruct (Z.ltb_spec (pageBreak h) (heapBreak h + inc)) as [Hmore|Hless].
  - rewrite (u64_small (_ - _)) by lia.
    rewrite roundUpToPageCount_spec by lia.
    set (n := (heapBreak h + inc - pageBreak h + 4095) / 4096) in *.
    destruct (heap_grow h (heapBreak h + inc) n (Z.lor MAP_PROT_READ MAP_PROT_WRITE) fuel)
      as (s' & -> & Hok' & Hold & Hnew); [done|lia| |lia|done|done|].
    { unfold heap_limit, KERNEL_CODE_VIRTUAL. lia. }
    cbn [mbind option_bind]. eexists. split; [done|]. unfold SYSTEM_PAGE_SIZE.
    rewrite (u64_small (pageBreak h + _)) by lia. simpl. split_and!; try done. lia.
  - eexists. split; [done|]. simpl. split_and!; try done.
    + destruct Hok. constructor; simpl; try done.
    + intros v Hv. lia.
Qed.
End Heap.

Lemma demo_heap_ok : heap_ok demo_pml4 (heap_init demo_mm).
Proof.
  constructor.
  - simpl. lia.
  - done.
  - by vm_compute.
  - apply demo_mm_pt.
  - apply demo_mm_phys.
  - intros P _. split_and!; apply demo_mm_leaf.
  - simpl. intros v Hv. lia.
Qed.
Lemma memory_AddBreak_correct_witness :
  exists h', memory_AddBreak demo_pml4 false 5 (heap_init demo_mm) 5000 = Some (h', KERNEL_HEAP_VIRTUAL) /\
             heapBreak h' = KERNEL_HEAP_VIRTUAL + 5000.
Proof.
  pose proof (memory_AddBreak_correct demo_pml4 false (heap_init demo_mm) 5000 5 demo_heap_ok) as H.
  simpl heapBreak in H. simpl pageBreak in H.
  change (h_phys (heap_init demo_mm)) with demo_mm in H. rewrite demo_mm_free in H.
  replace (KERNEL_HEAP_VIRTUAL + 5000 <? KERNEL_HEAP_VIRTUAL) with false in H by done.
  destruct H as (h' & E1 & Hb & _); [lia|by vm_compute|vm_compute; lia|vm_compute; lia|].
  by exists h'.
Defined.
