(* ===== verification/Input.v ===== *)
(** * Input state and events (src/driver/input/input.c, consts.h)

    Key and button masks, the cursor and its bounds, and the events pushed to
    the queue.  The queue is used through the interface [EventQueue]; the
    implementation on the byte ring buffer is in InputQueue.v. *)

From Stdlib Require Import Ascii String.
From S2P Require Import Prelude Mem MinMax Physical.

(** Key codes of the IBM PC (American) keyboard. *)
Inductive input_Key :=
  | input_Key_Unknown
  | input_Key_A | input_Key_B | input_Key_C | input_Key_D | input_Key_E | input_Key_F
  | input_Key_G | input_Key_H | input_Key_I | input_Key_J | input_Key_K | input_Key_L
  | input_Key_M | input_Key_N | input_Key_O | input_Key_P | input_Key_Q | input_Key_R
  | input_Key_S | input_Key_T | input_Key_U | input_Key_V | input_Key_W | input_Key_X
  | input_Key_Y | input_Key_Z | input_Key_Num0 | input_Key_Num1 | input_Key_Num2
  | input_Key_Num3 | input_Key_Num4 | input_Key_Num5 | input_Key_Num6 | input_Key_Num7
  | input_Key_Num8 | input_Key_Num9 | input_Key_Escape | input_Key_LControl
  | input_Key_LShift | input_Key_LAlt | input_Key_LSuper | input_Key_RControl
  | input_Key_RShift | input_Key_RAlt | input_Key_RSuper | input_Key_Menu
  | input_Key_LBracket | input_Key_RBracket | input_Key_Semicolon | input_Key_Comma
  | input_Key_Period | input_Key_Quote | input_Key_Slash | input_Key_Backslash
  | input_Key_Tilde | input_Key_Equal | input_Key_Hyphen | input_Key_Space
  | input_Key_Enter | input_Key_Backspace | input_Key_Tab | input_Key_PageUp
  | input_Key_PageDown | input_Key_End | input_Key_Home | input_Key_Insert
  | input_Key_Delete | input_Key_Add | input_Key_Subtract | input_Key_Multiply
  | input_Key_Divide | input_Key_Left | input_Key_Right | input_Key_Up | input_Key_Down
  | input_Key_Numpad0 | input_Key_Numpad1 | input_Key_Numpad2 | input_Key_Numpad3
  | input_Key_Numpad4 | input_Key_Numpad5 | input_Key_Numpad6 | input_Key_Numpad7
  | input_Key_Numpad8 | input_Key_Numpad9 | input_Key_F1 | input_Key_F2 | input_Key_F3
  | input_Key_F4 | input_Key_F5 | input_Key_F6 | input_Key_F7 | input_Key_F8
  | input_Key_F9 | input_Key_F10 | input_Key_F11 | input_Key_F12 | input_Key_F13
  | input_Key_F14 | input_Key_F15 | input_Key_Pause | input_Key_CapsLock
  | input_Key_NumLock | input_Key_ScrollLock.
#[export] Instance input_Key_eq_dec : EqDecision input_Key.
Proof. solve_decision. Defined.

(** The enumerators from 0 on, in order. *)
Definition all_keys : list input_Key := [
  input_Key_A; input_Key_B; input_Key_C; input_Key_D; input_Key_E; input_Key_F;
  input_Key_G; input_Key_H; input_Key_I; input_Key_J; input_Key_K; input_Key_L;
  input_Key_M; input_Key_N; input_Key_O; input_Key_P; input_Key_Q; input_Key_R;
  input_Key_S; input_Key_T; input_Key_U; input_Key_V; input_Key_W; input_Key_X;
  input_Key_Y; input_Key_Z; input_Key_Num0; input_Key_Num1; input_Key_Num2;
  input_Key_Num3; input_Key_Num4; input_Key_Num5; input_Key_Num6; input_Key_Num7;
  input_Key_Num8; input_Key_Num9; input_Key_Escape; input_Key_LControl;
  input_Key_LShift; input_Key_LAlt; input_Key_LSuper; input_Key_RControl;
  input_Key_RShift; input_Key_RAlt; input_Key_RSuper; input_Key_Menu;
  input_Key_LBracket; input_Key_RBracket; input_Key_Semicolon; input_Key_Comma;
  input_Key_Period; input_Key_Quote; input_Key_Slash; input_Key_Backslash;
  input_Key_Tilde; input_Key_Equal; input_Key_Hyphen; input_Key_Space; input_Key_Enter;
  input_Key_Backspace; input_Key_Tab; input_Key_PageUp; input_Key_PageDown;
  input_Key_End; input_Key_Home; input_Key_Insert; input_Key_Delete; input_Key_Add;
  input_Key_Subtract; input_Key_Multiply; input_Key_Divide; input_Key_Left;
  input_Key_Right; input_Key_Up; input_Key_Down; input_Key_Numpad0; input_Key_Numpad1;
  input_Key_Numpad2; input_Key_Numpad3; input_Key_Numpad4; input_Key_Numpad5;
  input_Key_Numpad6; input_Key_Numpad7; input_Key_Numpad8; input_Key_Numpad9;
  input_Key_F1; input_Key_F2; input_Key_F3; input_Key_F4; input_Key_F5; input_Key_F6;
  input_Key_F7; input_Key_F8; input_Key_F9; input_Key_F10; input_Key_F11;
  input_Key_F12; input_Key_F13; input_Key_F14; input_Key_F15; input_Key_Pause;
  input_Key_CapsLock; input_Key_NumLock; input_Key_ScrollLock].
Definition input_Key_Count : Z := Z.of_nat (length all_keys).

(** The value of an enumerator. *)
Fixpoint key_index (k : input_Key) (l : list input_Key) (i : Z) : Z :=
  match l with
  | [] => -1
  | x :: l => if decide (x = k) then i else key_index k l (i + 1)
  end.
Definition key_code (k : input_Key) : Z := key_index k all_keys 0.
Definition key_of_code (c : Z) : option input_Key :=
  if c <? 0 then None else all_keys !! Z.to_nat c.

(** The text of an enumerator, as the preprocessor spells it. *)
Definition key_name (k : input_Key) : string :=
  match k with
  | input_Key_Unknown => "(Unknown)"
  | input_Key_A => "input_Key_A"
  | input_Key_B => "input_Key_B"
  | input_Key_C => "input_Key_C"
  | input_Key_D => "input_Key_D"
  | input_Key_E => "input_Key_E"
  | input_Key_F => "input_Key_F"
  | input_Key_G => "input_Key_G"
  | input_Key_H => "input_Key_H"
  | input_Key_I => "input_Key_I"
  | input_Key_J => "input_Key_J"
  | input_Key_K => "input_Key_K"
  | input_Key_L => "input_Key_L"
  | input_Key_M => "input_Key_M"
  | input_Key_N => "input_Key_N"
  | input_Key_O => "input_Key_O"
  | input_Key_P => "input_Key_P"
  | input_Key_Q => "input_Key_Q"
  | input_Key_R => "input_Key_R"
  | input_Key_S => "input_Key_S"
  | input_Key_T => "input_Key_T"
  | input_Key_U => "input_Key_U"
  | input_Key_V => "input_Key_V"
  | input_Key_W => "input_Key_W"
  | input_Key_X => "input_Key_X"
  | input_Key_Y => "input_Key_Y"
  | input_Key_Z => "input_Key_Z"
  | input_Key_Num0 => "input_Key_Num0"
  | input_Key_Num1 => "input_Key_Num1"
  | input_Key_Num2 => "input_Key_Num2"
  | input_Key_Num3 => "input_Key_Num3"
  | input_Key_Num4 => "input_Key_Num4"
  | input_Key_Num5 => "input_Key_Num5"
  | input_Key_Num6 => "input_Key_Num6"
  | input_Key_Num7 => "input_Key_Num7"
  | input_Key_Num8 => "input_Key_Num8"
  | input_Key_Num9 => "input_Key_Num9"
  | input_Key_Escape => "input_Key_Escape"
  | input_Key_LControl => "input_Key_LControl"
  | input_Key_LShift => "input_Key_LShift"
  | input_Key_LAlt => "input_Key_LAlt"
  | input_Key_LSuper => "input_Key_LSuper"
  | input_Key_RControl => "input_Key_RControl"
  | input_Key_RShift => "input_Key_RShift"
  | input_Key_RAlt => "input_Key_RAlt"
  | input_Key_RSuper => "input_Key_RSuper"
  | input_Key_Menu => "input_Key_Menu"
  | input_Key_LBracket => "input_Key_LBracket"
  | input_Key_RBracket => "input_Key_RBracket"
  | input_Key_Semicolon => "input_Key_Semicolon"
  | input_Key_Comma => "input_Key_Comma"
  | input_Key_Period => "input_Key_Period"
  | input_Key_Quote => "input_Key_Quote"
  | input_Key_Slash => "input_Key_Slash"
  | input_Key_Backslash => "input_Key_Backslash"
  | input_Key_Tilde => "input_Key_Tilde"
  | input_Key_Equal => "input_Key_Equal"
  | input_Key_Hyphen => "input_Key_Hyphen"
  | input_Key_Space => "input_Key_Space"
  | input_Key_Enter => "input_Key_Enter"
  | input_Key_Backspace => "input_Key_Backspace"
  | input_Key_Tab => "input_Key_Tab"
  | input_Key_PageUp => "input_Key_PageUp"
  | input_Key_PageDown => "input_Key_PageDown"
  | input_Key_End => "input_Key_End"
  | input_Key_Home => "input_Key_Home"
  | input_Key_Insert => "input_Key_Insert"
  | input_Key_Delete => "input_Key_Delete"
  | input_Key_Add => "input_Key_Add"
  | input_Key_Subtract => "input_Key_Subtract"
  | input_Key_Multiply => "input_Key_Multiply"
  | input_Key_Divide => "input_Key_Divide"
  | input_Key_Left => "input_Key_Left"
  | input_Key_Right => "input_Key_Right"
  | input_Key_Up => "input_Key_Up"
  | input_Key_Down => "input_Key_Down"
  | input_Key_Numpad0 => "input_Key_Numpad0"
  | input_Key_Numpad1 => "input_Key_Numpad1"
  | input_Key_Numpad2 => "input_Key_Numpad2"
  | input_Key_Numpad3 => "input_Key_Numpad3"
  | input_Key_Numpad4 => "input_Key_Numpad4"
  | input_Key_Numpad5 => "input_Key_Numpad5"
  | input_Key_Numpad6 => "input_Key_Numpad6"
  | input_Key_Numpad7 => "input_Key_Numpad7"
  | input_Key_Numpad8 => "input_Key_Numpad8"
  | input_Key_Numpad9 => "input_Key_Numpad9"
  | input_Key_F1 => "input_Key_F1"
  | input_Key_F2 => "input_Key_F2"
  | input_Key_F3 => "input_Key_F3"
  | input_Key_F4 => "input_Key_F4"
  | input_Key_F5 => "input_Key_F5"
  | input_Key_F6 => "input_Key_F6"
  | input_Key_F7 => "input_Key_F7"
  | input_Key_F8 => "input_Key_F8"
  | input_Key_F9 => "input_Key_F9"
  | input_Key_F10 => "input_Key_F10"
  | input_Key_F11 => "input_Key_F11"
  | input_Key_F12 => "input_Key_F12"
  | input_Key_F13 => "input_Key_F13"
  | input_Key_F14 => "input_Key_F14"
  | input_Key_F15 => "input_Key_F15"
  | input_Key_Pause => "input_Key_Pause"
  | input_Key_CapsLock => "input_Key_CapsLock"
  | input_Key_NumLock => "input_Key_NumLock"
  | input_Key_ScrollLock => "input_Key_ScrollLock"
  end%string.
Definition input_Key_GetName (key : Z) : string :=
  match key_of_code key with Some k => key_name k | None => "(Unknown)"%string end.

Inductive input_MouseButton :=
  | input_MouseButton_Left | input_MouseButton_Right | input_MouseButton_Middle
  | input_MouseButton_4 | input_MouseButton_5.
Definition button_code (b : input_MouseButton) : Z :=
  match b with
  | input_MouseButton_Left => 0 | input_MouseButton_Right => 1
  | input_MouseButton_Middle => 2 | input_MouseButton_4 => 3 | input_MouseButton_5 => 4
  end.

(** [input_Event]: one constructor per [Type], with the member of the union it
    selects.  Keys are kept as their codes, as the driver passes them. *)
Inductive input_Event :=
  | MouseMoved (X Y : Z)
  | MouseButtonPressed (Button X Y : Z)
  | MouseButtonReleased (Button X Y : Z)
  | KeyPressed (Key : Z) (Control Shift Alt Super : bool)
  | KeyReleased (Key : Z) (Control Shift Alt Super : bool).

(** What the input layer needs of its event queue: a push appends the event
    when there is room and otherwise drops it. *)
Class EventQueue (Q : Type) := {
  eq_push : Q -> input_Event -> Q;
  eq_events : Q -> list input_Event;
  eq_room : Q -> bool;
  eq_ok : Q -> Prop;
  event_ok : input_Event -> Prop;
  eq_push_ok : forall q e, eq_ok q -> event_ok e -> eq_ok (eq_push q e);
  eq_push_events : forall q e, eq_ok q -> event_ok e ->
    eq_events (eq_push q e) = if eq_room q then eq_events q ++ [e] else eq_events q;
}.

Section Input.
Context {Q : Type} `{EventQueue Q}.

Record input_state := mk_input {
  KeyMask : Z -> Z;              (* __input_KeyMask[] *)
  MouseMask : Z -> Z;            (* __input_MouseMask[] *)
  CursorX : Z; CursorY : Z;
  DesktopWidth : Z; DesktopHeight : Z;
  EventQueue_ : option Q;        (* input_EventQueue, NULL or a queue *)
  has_Condition : bool;          (* input_Condition is not NULL *)
  notified : nat;                (* calls of smp_Condition_NotifyAll *)
}.
Definition set_KeyMask f s := mk_input f (MouseMask s) (CursorX s) (CursorY s)
  (DesktopWidth s) (DesktopHeight s) (EventQueue_ s) (has_Condition s) (notified s).
Definition set_MouseMask f s := mk_input (KeyMask s) f (CursorX s) (CursorY s)
  (DesktopWidth s) (DesktopHeight s) (EventQueue_ s) (has_Condition s) (notified s).
Definition set_Cursor x y s := mk_input (KeyMask s) (MouseMask s) x y
  (DesktopWidth s) (DesktopHeight s) (EventQueue_ s) (has_Condition s) (notified s).

(** [1ull << key % 64] *)
Definition key_bit (key : Z) : Z := Z.shiftl 1 (Z.rem key 64).
(** [1ull << key & 64], which the compiler reads as [(1ull << key) & 64] *)
Definition button_bit (key : Z) : Z := Z.land (Z.shiftl 1 key) 64.

Definition input_KeyPressed (s : input_state) (key : Z) : bool :=
  negb (Z.land (KeyMask s (Z.quot key 64)) (key_bit key) =? 0).
Definition input_MousePressed (s : input_state) (key : Z) : bool :=
  negb (Z.land (MouseMask s (key / 64)) (button_bit key) =? 0).
Definition input_MousePosition (s : input_state) : Z * Z := (CursorX s, CursorY s).
Definition input_DesktopSize (s : input_state) : Z * Z := (DesktopWidth s, DesktopHeight s).

Definition notify (s : input_state) : input_state :=
  mk_input (KeyMask s) (MouseMask s) (CursorX s) (CursorY s) (DesktopWidth s)
    (DesktopHeight s) (EventQueue_ s) (has_Condition s)
    (if has_Condition s then S (notified s) else notified s).
(** [if (input_EventQueue) queue_Push(...)] *)
Definition push_event (e : input_Event) (s : input_state) : input_state :=
  mk_input (KeyMask s) (MouseMask s) (CursorX s) (CursorY s) (DesktopWidth s)
    (DesktopHeight s) (option_map (fun q => eq_push q e) (EventQueue_ s)) (has_Condition s) (notified s).

Definition pressed_key (s : input_state) (k : input_Key) : bool := input_KeyPressed s (key_code k).
Definition flagControl s := pressed_key s input_Key_LControl || pressed_key s input_Key_RControl.
Definition flagShift s := pressed_key s input_Key_LShift || pressed_key s input_Key_RShift.
Definition flagAlt s := pressed_key s input_Key_LAlt || pressed_key s input_Key_RAlt.

Definition input_source_PressKey (key : Z) (s : input_state) : input_state :=
  let w := Z.quot key 64 in
  let s := set_KeyMask (upd (KeyMask s) w (Z.lor (KeyMask s w) (key_bit key))) s in
  notify (push_event (KeyPressed key (flagControl s) (flagShift s) (flagAlt s) false) s).
Definition input_source_ReleaseKey (key : Z) (s : input_state) : input_state :=
  let w := Z.quot key 64 in
  let s := set_KeyMask (upd (KeyMask s) w (Z.land (KeyMask s w) (not64 (key_bit key)))) s in
  notify (push_event (KeyReleased key (flagControl s) (flagShift s) (flagAlt s) false) s).

Definition input_source_PressMouse (key : Z) (s : input_state) : input_state :=
  let w := key / 64 in
  let s := set_MouseMask (upd (MouseMask s) w (Z.lor (MouseMask s w) (button_bit key))) s in
  notify (push_event (MouseButtonPressed key (CursorX s) (CursorY s)) s).
Definition input_source_ReleaseMouse (key : Z) (s : input_state) : input_state :=
  let w := key / 64 in
  let s := set_MouseMask (upd (MouseMask s) w
             (Z.land (MouseMask s w) (not64 (button_bit key)))) s in
  notify (push_event (MouseButtonReleased key (CursorX s) (CursorY s)) s).

Definition input_source_MoveMouse (x y : Z) (s : input_state) : input_state :=
  let s := set_Cursor (intminmax (i32 (CursorX s + x)) 0 (DesktopWidth s))
                      (intminmax (i32 (CursorY s + y)) 0 (DesktopHeight s)) s in
  notify (push_event (MouseMoved (CursorX s) (CursorY s)) s).
Definition input_source_PositionMouse (x y : Z) (s : input_state) : input_state :=
  let s := set_Cursor (intminmax x 0 (DesktopWidth s)) (intminmax y 0 (DesktopHeight s)) s in
  notify (push_event (MouseMoved (CursorX s) (CursorY s)) s).
Definition input_source_SetDesktopSize (x y : Z) (s : input_state) : input_state :=
  mk_input (KeyMask s) (MouseMask s) (intminmax (CursorX s) 0 x) (intminmax (CursorY s) 0 y)
    x y (EventQueue_ s) (has_Condition s) (notified s).
End Input.
Arguments input_state : clear implicits.

(** ** Lemmas *)

Lemma all_keys_complete k : k <> input_Key_Unknown -> k ∈ all_keys.
Proof.
  intros Hk. enough (bool_decide (k ∈ all_keys) = true) as Hb by (by apply bool_decide_eq_true in Hb).
  destruct k; first [done | by vm_compute].
Qed.
(** A boolean check over the keys, evaluated once. *)
Lemma check_keys (P : input_Key -> bool) :
  forallb P all_keys = true -> forall k, k <> input_Key_Unknown -> P k = true.
Proof.
  rewrite forallb_forall. intros HP k Hk. apply HP, list_elem_of_In. by apply all_keys_complete.
Qed.
Lemma key_code_range k : k <> input_Key_Unknown -> 0 <= key_code k < 104.
Proof.
  intros Hk. enough ((0 <=? key_code k) && (key_code k <? 104) = true) as Hb by (zbool; lia).
  revert k Hk. apply check_keys. by vm_compute.
Qed.
Lemma key_of_code_code k : k <> input_Key_Unknown -> key_of_code (key_code k) = Some k.
Proof.
  intros Hk. enough (bool_decide (key_of_code (key_code k) = Some k) = true) as Hb
    by (by apply bool_decide_eq_true in Hb).
  revert k Hk. apply check_keys. by vm_compute.
Qed.
Lemma key_code_of_code c k : key_of_code c = Some k -> key_code k = c.
Proof.
  unfold key_of_code. destruct (Z.ltb_spec c 0); [done|]. intros Hk.
  assert (forallb (fun n => match all_keys !! n with Some k => key_code k =? Z.of_nat n | None => false end)
    (seq 0 104) = true) as Hc by (by vm_compute).
  rewrite forallb_forall in Hc. specialize (Hc (Z.to_nat c)).
  rewrite Hk, Z2Nat.id, Z.eqb_eq in Hc by lia. apply Hc. apply list_elem_of_In, elem_of_seq.
  apply lookup_lt_Some in Hk. change (length all_keys) with 104%nat in Hk. lia.
Qed.
Lemma key_code_inj k k' : k <> input_Key_Unknown -> key_code k = key_code k' -> k = k'.
Proof.
  intros Hk He. destruct (decide (k' = input_Key_Unknown)) as [->|Hk'].
  - pose proof (key_code_range k Hk). change (key_code input_Key_Unknown) with (-1) in He. lia.
  - pose proof (key_of_code_code k Hk) as E1. rewrite He, key_of_code_code in E1 by done. congruence.
Qed.

Section Lemmas.
Context {Q : Type} `{EventQueue Q}.
Implicit Types s : input_state Q.

Lemma KeyPressed_testbit s key :
  0 <= key -> input_KeyPressed s key = Z.testbit (KeyMask s (key / 64)) (key mod 64).
Proof.
  intros. unfold input_KeyPressed, key_bit.
  rewrite Z.quot_div_nonneg, Z.rem_mod_nonneg, land_bit by lia. by rewrite negb_involutive.
Qed.
Lemma key_bit_testbit key i : 0 <= key -> 0 <= i -> Z.testbit (key_bit key) i = (i =? key mod 64).
Proof.
  intros. unfold key_bit. rewrite Z.rem_mod_nonneg, Z.shiftl_1_l, Z.pow2_bits_eqb by lia. lia.
Qed.

(** The key mask after a press or a release. *)
Lemma PressKey_KeyPressed key s k :
  0 <= key -> 0 <= k ->
  input_KeyPressed (input_source_PressKey key s) k = (k =? key) || input_KeyPressed s k.
Proof.
  intros Hkey Hk. rewrite !KeyPressed_testbit by done. simpl. rewrite Z.quot_div_nonneg by lia.
  unfold upd. destruct (Z.eqb_spec (k / 64) (key / 64)) as [E|].
  - rewrite E, Z.lor_spec, key_bit_testbit, orb_comm by lia. f_equal. lia.
  - destruct (Z.eqb_spec k key) as [->|]; [lia|done].
Qed.
Lemma ReleaseKey_KeyPressed key s k :
  0 <= key -> 0 <= k ->
  input_KeyPressed (input_source_ReleaseKey key s) k = negb (k =? key) && input_KeyPressed s k.
Proof.
  intros Hkey Hk. rewrite !KeyPressed_testbit by done. simpl. rewrite Z.quot_div_nonneg by lia.
  unfold upd. destruct (Z.eqb_spec (k / 64) (key / 64)) as [E|].
  - rewrite E, Z.land_spec, not64_testbit, key_bit_testbit, andb_comm by lia. do 2 f_equal. lia.
  - destruct (Z.eqb_spec k key) as [->|]; [lia|done].
Qed.

Definition cursor_ok s : Prop :=
  0 <= CursorX s <= DesktopWidth s /\ 0 <= CursorY s <= DesktopHeight s.
Lemma intminmax_range x hi : 0 <= hi -> 0 <= intminmax x 0 hi <= hi.
Proof. intros. rewrite intminmax_spec. zcase; lia. Qed.
Lemma intminmax_id x hi : 0 <= x <= hi -> intminmax x 0 hi = x.
Proof. intros. rewrite intminmax_spec. zcase; lia. Qed.

(** The calls of the input source interface. *)
Inductive source_call :=
  | CPressKey (key : Z) | CReleaseKey (key : Z)
  | CPressMouse (b : input_MouseButton) | CReleaseMouse (b : input_MouseButton)
  | CMoveMouse (x y : Z) | CPositionMouse (x y : Z)
  | CSetDesktopSize (x y : Z).
Definition source_step s (c : source_call) : input_state Q :=
  match c with
  | CPressKey k => input_source_PressKey k s
  | CReleaseKey k => input_source_ReleaseKey k s
  | CPressMouse b => input_source_PressMouse (button_code b) s
  | CReleaseMouse b => input_source_ReleaseMouse (button_code b) s
  | CMoveMouse x y => input_source_MoveMouse x y s
  | CPositionMouse x y => input_source_PositionMouse x y s
  | CSetDesktopSize x y => input_source_SetDesktopSize x y s
  end.
Definition call_ok (c : source_call) : Prop :=
  match c with
  | CPressKey k | CReleaseKey k => 0 <= k < input_Key_Count
  | CSetDesktopSize x y => 0 <= x /\ 0 <= y
  | _ => True
  end.

(** The set of keys held down after a call. *)
Definition held_step (held : gset Z) (c : source_call) : gset Z :=
  match c with
  | CPressKey k => {[ k ]} ∪ held
  | CReleaseKey k => held ∖ {[ k ]}
  | _ => held
  end.

Lemma source_step_held s held c :
  call_ok c -> (forall k, 0 <= k -> input_KeyPressed s k = bool_decide (k ∈ held)) ->
  forall k, 0 <= k -> input_KeyPressed (source_step s c) k = bool_decide (k ∈ held_step held c).
Proof.
  intros Hc Hs k Hk. destruct c as [key|key|b|b|x y|x y|x y]; simpl in *; try by apply Hs.
  - rewrite PressKey_KeyPressed, Hs by lia. apply eq_true_iff_eq.
    rewrite orb_true_iff, Z.eqb_eq, !bool_decide_eq_true. set_solver.
  - rewrite ReleaseKey_KeyPressed, Hs by lia. apply eq_true_iff_eq.
    rewrite andb_true_iff, negb_true_iff, Z.eqb_neq, !bool_decide_eq_true. set_solver.
Qed.
Lemma source_step_cursor s c : call_ok c -> cursor_ok s -> cursor_ok (source_step s c).
Proof.
  unfold cursor_ok. destruct c as [key|key|b|b|x y|x y|x y]; simpl; intros Hc [? ?]; try done;
    split; apply intminmax_range; lia.
Qed.

(** The event a call produces, computed on the state after it. *)
Definition call_event (s' : input_state Q) (c : source_call) : option input_Event :=
  match c with
  | CPressKey k => Some (KeyPressed k (flagControl s') (flagShift s') (flagAlt s') false)
  | CReleaseKey k => Some (KeyReleased k (flagControl s') (flagShift s') (flagAlt s') false)
  | CPressMouse b => Some (MouseButtonPressed (button_code b) (CursorX s') (CursorY s'))
  | CReleaseMouse b => Some (MouseButtonReleased (button_code b) (CursorX s') (CursorY s'))
  | CMoveMouse _ _ | CPositionMouse _ _ => Some (MouseMoved (CursorX s') (CursorY s'))
  | CSetDesktopSize _ _ => None
  end.
Lemma source_step_queue s c :
  EventQueue_ (source_step s c) =
  match call_event (source_step s c) c with
  | Some e => option_map (fun q => eq_push q e) (EventQueue_ s)
  | None => EventQueue_ s
  end.
Proof. by destruct c. Qed.
Lemma source_step_notified s c :
  notified (source_step s c) =
  (if has_Condition s && (if call_event (source_step s c) c then true else false)
   then S (notified s) else notified s).
Proof. by destruct c; simpl; destruct (has_Condition s). Qed.
Lemma source_step_condition s c : has_Condition (source_step s c) = has_Condition s.
Proof. by destruct c. Qed.
End Lemmas.

(** ** Properties *)

Section Props.
Context {Q : Type} `{EventQueue Q}.
Implicit Types s : input_state Q.

(** C27. After any sequence of source calls a key reads as pressed exactly when
    it was pressed after it was last released, and the cursor stays inside the
    desktop, whatever the movements. *)
Theorem input_source_correct s calls held :
  Forall call_ok calls -> cursor_ok s ->
  (forall k, 0 <= k -> input_KeyPressed s k = bool_decide (k ∈ held)) ->
  let s' := foldl source_step s calls in
  (forall k, 0 <= k -> input_KeyPressed s' k = bool_decide (k ∈ foldl held_step held calls)) /\
  cursor_ok s'.
Proof.
  intros Hc. revert s held. induction Hc as [|c calls Hc _ IH]; intros s held Hcur Hk; [done|].
  simpl. apply IH; [by apply source_step_cursor|by apply source_step_held].
Qed.

(** Every source call but a resize appends to the queue the one event that
    describes it, carrying the cursor, or the Control, Shift and Alt state after
    the call, when the queue has room (and drops it otherwise), and notifies the
    condition once if there is one. *)
Theorem input_source_event s c q e :
  EventQueue_ s = Some q -> eq_ok q ->
  call_event (source_step s c) c = Some e -> event_ok e ->
  exists q', EventQueue_ (source_step s c) = Some q' /\ eq_ok q' /\
    eq_events q' = (if eq_room q then eq_events q ++ [e] else eq_events q) /\
    notified (source_step s c) = (if has_Condition s then S (notified s) else notified s).
Proof.
  intros Hq Hok He Heo. exists (eq_push q e).
  rewrite source_step_queue, source_step_notified, He, Hq, andb_true_r. simpl.
  split_and!; [done|by apply eq_push_ok|by apply eq_push_events|done].
Qed.

(** No mouse button ever reads as pressed: the masks are tested with
    [(1ull << key) & 64], which is 0 for all five buttons. *)
Theorem input_MousePressed_never s b : input_MousePressed s (button_code b) = false.
Proof.
  unfold input_MousePressed.
  replace (button_bit (button_code b)) with 0 by (by destruct b).
  by rewrite Z.land_0_r.
Qed.
End Props.

(** [input_Key_GetName] names the 104 keys apart, by their enumerators, and
    any other value is "(Unknown)". *)
Theorem input_Key_GetName_correct :
  (forall k, k <> input_Key_Unknown -> input_Key_GetName (key_code k) = key_name k) /\
  (forall a b, 0 <= a < input_Key_Count -> 0 <= b -> input_Key_GetName a = input_Key_GetName b -> a = b) /\
  (forall c, c < 0 \/ input_Key_Count <= c -> input_Key_GetName c = "(Unknown)"%string).
Proof.
  assert (forall k k', k <> input_Key_Unknown -> key_name k = key_name k' -> k = k') as Hinj.
  { intros k k' Hk He. destruct (decide (k = k')) as [|Hne]; [done|exfalso].
    assert (bool_decide (Forall (fun a => Forall (fun b => key_name a = key_name b -> a = b)
              (input_Key_Unknown :: all_keys)) all_keys) = true) as Hb by (by vm_compute).
    apply bool_decide_eq_true in Hb. rewrite Forall_forall in Hb.
    assert (forall x, x ∈ input_Key_Unknown :: all_keys) as Hall.
    { intros x. destruct (decide (x = input_Key_Unknown)) as [->|Hx]; [set_solver|].
      apply elem_of_cons. right. by apply all_keys_complete. }
    specialize (Hb k). rewrite Forall_forall in Hb. apply Hne, (Hb); [|apply Hall|done].
    specialize (Hall k). apply elem_of_cons in Hall as [|]; done. }
  assert (forall c, c < 0 \/ 104 <= c -> key_of_code c = None) as Hout.
  { intros c Hc. unfold key_of_code. zcase; [done|]. apply lookup_ge_None.
    change (length all_keys) with 104%nat. lia. }
  unfold input_Key_GetName. change input_Key_Count with 104. split_and!.
  - intros k Hk. by rewrite key_of_code_code.
  - intros a b Ha Hb. destruct (key_of_code a) as [ka|] eqn:Ea.
    + pose proof (key_code_of_code _ _ Ea) as <-.
      assert (ka <> input_Key_Unknown) as Hka by (intros ->; by vm_compute in Ha).
      destruct (key_of_code b) as [kb|] eqn:Eb.
      * intros Hn. apply Hinj in Hn as ->; [|done]. by apply key_code_of_code.
      * change "(Unknown)"%string with (key_name input_Key_Unknown). intros Hn.
        by apply Hinj in Hn.
    + exfalso. unfold key_of_code in Ea. destruct (Z.ltb_spec a 0); [lia|].
      apply lookup_ge_None in Ea. change (length all_keys) with 104%nat in Ea. lia.
  - intros c Hc. by rewrite Hout.
Qed.
