(* ===== verification/InputQueue.v ===== *)
(** * Input events in the byte queue

    The layout of [input_Event] (a 4-byte type and a union of 12 bytes) and the
    ring buffer of queue.c as the event queue of input.c: [queue_Push] of the
    event copied to the stack.  Padding bytes, which C leaves unspecified, are
    an arbitrary byte [pad]. *)

From S2P Require Import Prelude Mem MinMax Physical Queue Input.

Definition sizeof_Event : Z := 16.
Definition enc32 (z : Z) : list Z := [u8 z; u8 (z / 256); u8 (z / 65536); u8 (z / 16777216)].
Definition dec32 (a b c d : Z) : Z := i32 (a + 256 * b + 65536 * c + 16777216 * d).
Definition encb (b : bool) : Z := if b then 1 else 0.

Definition encode (pad : Z) (e : input_Event) : list Z :=
  let p := u8 pad in
  match e with
  | MouseMoved x y => enc32 0 ++ enc32 x ++ enc32 y ++ [p; p; p; p]
  | MouseButtonPressed b x y => enc32 1 ++ enc32 b ++ enc32 x ++ enc32 y
  | MouseButtonReleased b x y => enc32 2 ++ enc32 b ++ enc32 x ++ enc32 y
  | KeyPressed k c s a u => enc32 3 ++ enc32 k ++ [encb c; encb s; encb a; encb u] ++ [p; p; p; p]
  | KeyReleased k c s a u => enc32 4 ++ enc32 k ++ [encb c; encb s; encb a; encb u] ++ [p; p; p; p]
  end.
Definition isset (b : Z) : bool := negb (b =? 0).
Definition decode_event (l : list Z) : option input_Event :=
  match l with
  | [t0; t1; t2; t3; a0; a1; a2; a3; b0; b1; b2; b3; c0; c1; c2; c3] =>
      let t := dec32 t0 t1 t2 t3 in
      let a := dec32 a0 a1 a2 a3 in
      let b := dec32 b0 b1 b2 b3 in
      let c := dec32 c0 c1 c2 c3 in
      if t =? 0 then Some (MouseMoved a b)
      else if t =? 1 then Some (MouseButtonPressed a b c)
      else if t =? 2 then Some (MouseButtonReleased a b c)
      else if t =? 3 then Some (KeyPressed a (isset b0) (isset b1) (isset b2) (isset b3))
      else if t =? 4 then Some (KeyReleased a (isset b0) (isset b1) (isset b2) (isset b3))
      else None
  | _ => None
  end.
(** The events held in a byte sequence, 16 bytes each. *)
Fixpoint decode_all (fuel : nat) (l : list Z) : list input_Event :=
  match fuel with
  | O => []
  | S fuel => match decode_event (take 16 l) with
              | Some e => e :: decode_all fuel (drop 16 l)
              | None => []
              end
  end.

Definition int_ok (z : Z) : Prop := -2147483648 <= z < 2147483648.
Definition ev_ok (e : input_Event) : Prop :=
  match e with
  | MouseMoved x y => int_ok x /\ int_ok y
  | MouseButtonPressed b x y | MouseButtonReleased b x y => int_ok b /\ int_ok x /\ int_ok y
  | KeyPressed k _ _ _ _ | KeyReleased k _ _ _ _ => int_ok k
  end.

Lemma dec32_enc32 z : int_ok z -> dec32 (u8 z) (u8 (z / 256)) (u8 (z / 65536)) (u8 (z / 16777216)) = z.
Proof. unfold int_ok, dec32. intros. word_lia. Qed.
Lemma isset_encb b : isset (encb b) = b.
Proof. by destruct b. Qed.
Lemma length_encode pad e : length (encode pad e) = 16%nat.
Proof. by destruct e. Qed.
Lemma decode_encode pad e : ev_ok e -> decode_event (encode pad e) = Some e.
Proof.
  destruct e; simpl; intros He; unfold decode_event; rewrite !dec32_enc32 by tauto;
    simpl; by rewrite ?isset_encb.
Qed.
Lemma decode_all_encode pad es fuel :
  Forall ev_ok es -> (length es <= fuel)%nat ->
  decode_all fuel (mjoin (encode pad <$> es)) = es.
Proof.
  revert fuel. induction es as [|e es IH]; intros fuel Hes Hf; [by destruct fuel|].
  apply Forall_cons in Hes as [He Hes]. destruct fuel as [|fuel]; [simpl in Hf; lia|].
  rewrite fmap_cons. cbn [mjoin list_join decode_all].
  rewrite take_app_length', drop_app_length' by (by rewrite length_encode).
  rewrite decode_encode by done. f_equal. apply IH; [done|simpl in Hf; lia].
Qed.
Lemma length_join_encode pad es : length (mjoin (encode pad <$> es)) = (16 * length es)%nat.
Proof.
  induction es as [|e es IH]; [done|].
  change (mjoin (encode pad <$> (e :: es))) with (encode pad e ++ mjoin (encode pad <$> es)).
  rewrite length_app, length_encode, IH. simpl. lia.
Qed.

(** ** The ring buffer as an event queue *)

Lemma encode_bytes pad e : Forall (fun b => 0 <= b < 256) (encode pad e).
Proof.
  assert (forall z, 0 <= u8 z < 256) as Hu by (intros; apply u8_range).
  assert (forall b, 0 <= encb b < 256) as Hb by (intros []; simpl; lia).
  destruct e; simpl; repeat constructor; apply Hu || apply Hb.
Qed.

Section Instance_.
Variable pad : Z.
(** The address of the event on the caller's stack. *)
Variable stack : Z.

Definition ring : Type := queue_Queue * mem.
Definition ring_push (r : ring) (e : input_Event) : ring :=
  let '(q, m) := r in
  queue_Push q (store_bytes m stack (encode pad e)) stack sizeof_Event.
Definition ring_events (r : ring) : list input_Event :=
  decode_all (Z.to_nat (q_count r.1)) (q_contents r.1 r.2).
Definition ring_room (r : ring) : bool := sizeof_Event <=? queue_Space r.1.
Definition ring_ok (r : ring) : Prop :=
  q_wf r.1 /\ q_disjoint r.1 stack sizeof_Event /\
  exists es, Forall ev_ok es /\ q_contents r.1 r.2 = mjoin (encode pad <$> es).

Lemma ring_events_eq r es :
  q_wf r.1 -> Forall ev_ok es -> q_contents r.1 r.2 = mjoin (encode pad <$> es) -> ring_events r = es.
Proof.
  intros Hw Hes Hc. unfold ring_events. rewrite Hc. apply decode_all_encode; [done|].
  pose proof (f_equal length Hc) as Hl. unfold q_contents in Hl.
  rewrite length_tab, length_join_encode in Hl. lia.
Qed.

Lemma ring_push_spec r e :
  ring_ok r -> ev_ok e ->
  ring_ok (ring_push r e) /\
  ring_events (ring_push r e) = if ring_room r then ring_events r ++ [e] else ring_events r.
Proof.
  destruct r as [q m]. intros (Hw & Hd & es & Hes & Hc) He. simpl in *.
  set (m1 := store_bytes m stack (encode pad e)).
  assert (q_contents q m1 = q_contents q m) as Hc1.
  { apply q_contents_ext; [done|]. intros x Hx. apply store_bytes_out. rewrite length_encode.
    unfold q_disjoint, sizeof_Event in Hd. lia. }
  assert (bytes m1 stack sizeof_Event = encode pad e) as Hb.
  { pose proof (store_bytes_bytes m stack (encode pad e) (encode_bytes pad e)) as Hb.
    by rewrite length_encode in Hb. }
  rewrite (ring_events_eq (q, m) es Hw Hes Hc). unfold ring_room, queue_Push. simpl fst. fold m1.
  destruct (Z.ltb_spec (queue_Space q) sizeof_Event) as [Hlt|Hge].
  - rewrite (proj2 (Z.leb_gt _ _)) by lia.
    assert (q_contents q m1 = mjoin (encode pad <$> es)) as Hc' by congruence.
    split; [split_and!; [done|done|by exists es]|by apply (ring_events_eq (q, m1))].
  - rewrite (proj2 (Z.leb_le _ _)) by lia. unfold sizeof_Event, queue_Space in *.
    pose proof (queue_Push_loop_spec (Z.to_nat 16) q m1 stack Hw ltac:(lia) Hd) as Hl.
    destruct (queue_Push_loop (Z.to_nat 16) q m1 stack) as [q' m'].
    destruct Hl as (Hc' & Hw' & Hda & Hsz & _).
    rewrite Hc1, Hc in Hc'. change (Z.of_nat (Z.to_nat 16)) with 16 in Hc'. rewrite Hb in Hc'.
    assert (q_contents q' m' = mjoin (encode pad <$> (es ++ [e]))) as Hfin.
    { rewrite Hc', fmap_app, join_app. simpl. by rewrite app_nil_r. }
    assert (Forall ev_ok (es ++ [e])) as Hes' by (apply Forall_app; by repeat constructor).
    split; [|by apply (ring_events_eq (q', m'))]. split_and!; [done| |by exists (es ++ [e])].
    simpl. unfold q_disjoint in *. by rewrite Hda, Hsz.
Qed.

Definition ring_EventQueue : EventQueue ring :=
  {| eq_push := ring_push; eq_events := ring_events; eq_room := ring_room; eq_ok := ring_ok;
     event_ok := ev_ok;
     eq_push_ok := fun q e Hq He => proj1 (ring_push_spec q e Hq He);
     eq_push_events := fun q e Hq He => proj2 (ring_push_spec q e Hq He) |}.
End Instance_.

(** ** Properties *)

(** Writing an event to 16 bytes and reading it back gives the event, for
    every content of the padding, and so does a queue of events: the bytes of
    the ring buffer determine them. *)
Theorem event_roundtrip pad es :
  Forall ev_ok es ->
  Forall (fun e => decode_event (encode pad e) = Some e) es /\
  decode_all (length es) (mjoin (encode pad <$> es)) = es.
Proof.
  intros Hes. split; [|by apply decode_all_encode].
  eapply Forall_impl; [exact Hes|]. intros e. apply decode_encode.
Qed.
Lemma event_roundtrip_witness :
  decode_all 2 (mjoin (encode 171 <$> [MouseMoved (-3) 70000; KeyPressed 40 true false false false])) =
  [MouseMoved (-3) 70000; KeyPressed 40 true false false false].
Proof.
  apply (event_roundtrip 171 [MouseMoved (-3) 70000; KeyPressed 40 true false false false]).
  repeat constructor; unfold int_ok; lia.
Defined.

(** ** Witnesses for the properties of Input.v, on the ring buffer *)

Definition demo_ring : ring := (queue_InitBuffered 1000 32, fun _ => 0).
Definition demo_input : input_state ring :=
  mk_input (fun _ => 0) (fun _ => 0) 5 5 800 600 (Some demo_ring) true 0.
Lemma demo_ring_ok : ring_ok 171 100 demo_ring.
Proof.
  split_and!.
  - apply queue_Init_wf; lia.
  - left. by vm_compute.
  - exists []. split; [constructor|done].
Qed.
Lemma input_source_correct_witness :
  input_KeyPressed (foldl (source_step (H := ring_EventQueue 171 100)) demo_input
    [CPressKey 37; CPressKey 70; CReleaseKey 37; CMoveMouse (-50) 900]) 70 = true.
Proof.
  destruct (input_source_correct (H := ring_EventQueue 171 100) demo_input
    [CPressKey 37; CPressKey 70; CReleaseKey 37; CMoveMouse (-50) 900] ∅) as [Hk _].
  - repeat constructor; by vm_compute.
  - split; simpl; lia.
  - intros k Hk. rewrite KeyPressed_testbit by done. simpl. by rewrite Z.bits_0.
  - rewrite Hk by lia. by vm_compute.
Defined.
Lemma input_source_event_witness :
  exists q', EventQueue_ (source_step (H := ring_EventQueue 171 100) demo_input (CPressKey 37)) = Some q' /\
    eq_events (EventQueue := ring_EventQueue 171 100) q' = [KeyPressed 37 true false false false].
Proof.
  destruct (input_source_event (H := ring_EventQueue 171 100) demo_input (CPressKey 37) demo_ring
    (KeyPressed 37 true false false false) eq_refl demo_ring_ok) as (q' & E1 & _ & E2 & _).
  - by vm_compute.
  - simpl. unfold int_ok. lia.
  - exists q'. split; [exact E1|]. rewrite E2. by vm_compute.
Defined.
