(* ===== verification/ByteQueue.v ===== *)
(** * The byte queue as an interface

    What the drivers need of a byte queue: a bounded FIFO of bytes.  The ring
    buffer of queue.c is an instance ([ring_ByteQueue]). *)

From S2P Require Import Prelude Mem Queue.

Class ByteQueue (B : Type) := {
  bq_push : B -> Z -> B;
  bq_pop : B -> Z * B;
  bq_front : B -> Z;
  bq_size : B -> Z;
  bq_cap : B -> Z;
  bq_list : B -> list Z;
  bq_ok : B -> Prop;
  bq_push_law : forall q b, bq_ok q ->
    bq_ok (bq_push q b) /\ bq_cap (bq_push q b) = bq_cap q /\
    bq_list (bq_push q b) =
      if Z.of_nat (length (bq_list q)) =? bq_cap q then bq_list q else bq_list q ++ [u8 b];
  bq_pop_law : forall q, bq_ok q ->
    bq_ok (bq_pop q).2 /\ bq_cap (bq_pop q).2 = bq_cap q /\
    (bq_pop q).1 = hd 0 (bq_list q) /\ bq_list (bq_pop q).2 = tail (bq_list q);
  bq_front_law : forall q, bq_ok q -> bq_front q = hd 0 (bq_list q);
  bq_size_law : forall q, bq_ok q -> bq_size q = Z.of_nat (length (bq_list q));
}.

(** ** The ring buffer *)

Definition ring_bytes : Type := queue_Queue * mem.
Definition rb_push (r : ring_bytes) (b : Z) : ring_bytes := queue_PushByte r.1 r.2 b.
Definition rb_pop (r : ring_bytes) : Z * ring_bytes :=
  ((queue_PopByte r.1 r.2).1, ((queue_PopByte r.1 r.2).2, r.2)).

Lemma rb_push_law (r : ring_bytes) b : q_wf r.1 ->
  q_wf (rb_push r b).1 /\ q_size (rb_push r b).1 = q_size r.1 /\
  q_contents (rb_push r b).1 (rb_push r b).2 =
    if Z.of_nat (length (q_contents r.1 r.2)) =? q_size r.1 then q_contents r.1 r.2
    else q_contents r.1 r.2 ++ [u8 b].
Proof.
  intros Hw. unfold rb_push. split_and!; [by apply queue_PushByte_wf|apply queue_PushByte_data|].
  by rewrite queue_PushByte_contents, length_q_contents by done.
Qed.
Lemma rb_pop_law (r : ring_bytes) : q_wf r.1 ->
  q_wf (rb_pop r).2.1 /\ q_size (rb_pop r).2.1 = q_size r.1 /\
  (rb_pop r).1 = hd 0 (q_contents r.1 r.2) /\
  q_contents (rb_pop r).2.1 (rb_pop r).2.2 = tail (q_contents r.1 r.2).
Proof.
  intros Hw. unfold rb_pop. simpl. split_and!; [by apply queue_PopByte_wf|apply queue_PopByte_data| |].
  - rewrite (queue_PopByte_contents r.1 r.2 Hw). unfold queue_PopByte. by zcase.
  - rewrite (queue_PopByte_contents r.1 r.2 Hw). destruct (Z.eqb_spec (q_count r.1) 0) as [E|E]; [|done].
    unfold queue_PopByte. rewrite E. simpl. by apply q_contents_nil.
Qed.
Lemma rb_front_law (r : ring_bytes) : q_wf r.1 ->
  queue_FrontByte r.1 r.2 = hd 0 (q_contents r.1 r.2).
Proof.
  intros Hw. rewrite (queue_PopByte_contents r.1 r.2 Hw).
  unfold queue_FrontByte, queue_PopByte. by zcase.
Qed.
Lemma rb_size_law (r : ring_bytes) : q_wf r.1 ->
  queue_Size r.1 = Z.of_nat (length (q_contents r.1 r.2)).
Proof. intros Hw. by rewrite length_q_contents. Qed.

#[export] Instance ring_ByteQueue : ByteQueue ring_bytes :=
  {| bq_push := rb_push; bq_pop := rb_pop; bq_front := fun r => queue_FrontByte r.1 r.2;
     bq_size := fun r => queue_Size r.1; bq_cap := fun r => q_size r.1;
     bq_list := fun r => q_contents r.1 r.2; bq_ok := fun r => q_wf r.1;
     bq_push_law := rb_push_law; bq_pop_law := rb_pop_law;
     bq_front_law := rb_front_law; bq_size_law := rb_size_law |}.
