(* ===== verification/PS2.v ===== *)
(** * The PS/2 keyboard and mouse handlers (src/driver/irq/pic/ps2/ps2.c)

    The interrupt handlers on their byte queues: scancode set 1 decoding and
    mouse packets, as the calls they make to the input layer.  A handler's
    effect on the input state is those calls, in order. *)

From S2P Require Import Prelude Mem MinMax Physical Input ByteQueue.

Definition input_EventType_KeyPressed : Z := 3.
Definition input_EventType_KeyReleased : Z := 4.

(** The scancode table, by scancode. *)
Definition __pic_ps2_KeyScancode1 : list input_Key := [
  input_Key_Unknown; input_Key_Escape; input_Key_Num1; input_Key_Num2; input_Key_Num3;
  input_Key_Num4; input_Key_Num5; input_Key_Num6; input_Key_Num7; input_Key_Num8;
  input_Key_Num9; input_Key_Num0; input_Key_Hyphen; input_Key_Equal; input_Key_Backspace;
  input_Key_Tab; input_Key_Q; input_Key_W; input_Key_E; input_Key_R; input_Key_T; input_Key_Y;
  input_Key_U; input_Key_I; input_Key_O; input_Key_P; input_Key_LBracket; input_Key_RBracket;
  input_Key_Enter; input_Key_LControl; input_Key_A; input_Key_S; input_Key_D; input_Key_F;
  input_Key_G; input_Key_H; input_Key_J; input_Key_K; input_Key_L; input_Key_Semicolon;
  input_Key_Quote; input_Key_Tilde; input_Key_LShift; input_Key_Backslash; input_Key_Z;
  input_Key_X; input_Key_C; input_Key_V; input_Key_B; input_Key_N; input_Key_M;
  input_Key_Comma; input_Key_Period; input_Key_Slash; input_Key_RShift; input_Key_Multiply;
  input_Key_LAlt; input_Key_Space; input_Key_CapsLock; input_Key_F1; input_Key_F2;
  input_Key_F3; input_Key_F4; input_Key_F5; input_Key_F6; input_Key_F7; input_Key_F8;
  input_Key_F9; input_Key_F10; input_Key_NumLock; input_Key_ScrollLock; input_Key_Numpad7;
  input_Key_Numpad8; input_Key_Numpad9; input_Key_Subtract; input_Key_Numpad4;
  input_Key_Numpad5; input_Key_Numpad6; input_Key_Add; input_Key_Numpad1; input_Key_Numpad2;
  input_Key_Numpad3; input_Key_Numpad0; input_Key_Period; input_Key_Unknown;
  input_Key_Unknown; input_Key_Unknown; input_Key_F11; input_Key_F12].
Definition scancode_key (b : Z) : Z :=
  match __pic_ps2_KeyScancode1 !! Z.to_nat b with Some k => key_code k | None => 0 end.

(** The cases of the switch on the byte after [0xe0]: type and key. *)
Definition ext_press : list (Z * input_Key) := [
  (0x1c, input_Key_Enter); (0x1d, input_Key_RControl); (0x35, input_Key_Divide);
  (0x38, input_Key_RAlt); (0x47, input_Key_Home); (0x48, input_Key_Up);
  (0x49, input_Key_PageUp); (0x4b, input_Key_Left); (0x4d, input_Key_Right);
  (0x4f, input_Key_End); (0x50, input_Key_Down); (0x51, input_Key_PageDown);
  (0x52, input_Key_Insert); (0x53, input_Key_Delete)].
Fixpoint assoc (b : Z) (l : list (Z * input_Key)) : option input_Key :=
  match l with [] => None | (x, k) :: l => if b =? x then Some k else assoc b l end.
Definition ext_key (b : Z) : option (Z * Z) :=
  match assoc b ext_press with
  | Some k => Some (input_EventType_KeyPressed, key_code k)
  | None => match assoc (b - 0x80) ext_press with
            | Some k => Some (input_EventType_KeyReleased, key_code k)
            | None => None
            end
  end.

Section PS2.
Context {B : Type} `{ByteQueue B}.

(** [__pic_ps2_DecodeKeyScancode1]: the queue, and the event's [Type] and
    [Key.Key] when it returns true.  After an unknown extended code the key is
    the caller's uninitialised variable, [garbage]; its type is -1. *)
Definition __pic_ps2_DecodeKeyScancode1 (garbage : Z) (q : B) : B * option (Z * Z) :=
  let byte0 := bq_front q in
  if byte0 =? 0xfa then ((bq_pop q).2, None)
  else if (0x01 <=? byte0) && (byte0 <=? 0x58) then
    ((bq_pop q).2, Some (input_EventType_KeyPressed, scancode_key byte0))
  else if (0x81 <=? byte0) && (byte0 <=? 0xd8) then
    ((bq_pop q).2, Some (input_EventType_KeyReleased, scancode_key (byte0 - 0x80)))
  else if byte0 =? 0xe0 then
    if bq_size q <? 2 then (q, None)
    else
      let '(_, q) := bq_pop q in
      let '(byte1, q) := bq_pop q in
      match ext_key byte1 with
      | Some e => (q, Some e)
      | None => (q, if garbage =? -1 then None else Some (-1, garbage))
      end
  else if byte0 =? 0xe1 then
    if bq_size q <? 3 then (q, None)
    else ((bq_pop (bq_pop (bq_pop q).2).2).2, None)
  else (q, None).

(** The keyboard interrupt: [byte] is what the port reads. *)
Definition pic_ps2_IRQHandlerK (garbage : Z) (q : B) (byte : Z) : B * list source_call :=
  let q := bq_push q byte in
  match __pic_ps2_DecodeKeyScancode1 garbage q with
  | (q, Some (t, k)) =>
      (q, if t =? input_EventType_KeyPressed then [CPressKey k]
          else if t =? input_EventType_KeyReleased then [CReleaseKey k] else [])
  | (q, None) => (q, [])
  end.

(** [while (queue_Size && !(queue_FrontByte & 8)) queue_PopByte] *)
Fixpoint mouse_sync (fuel : nat) (q : B) : B :=
  match fuel with
  | O => q
  | S fuel => if negb (bq_size q =? 0) && (Z.land (bq_front q) 8 =? 0)
              then mouse_sync fuel (bq_pop q).2 else q
  end.
(** The calls for one button whose mask is [bit], when the state changes. *)
Definition button_change (b : input_MouseButton) (bit old state : Z) : list source_call :=
  (if (Z.land old bit =? 0) && negb (Z.land state bit =? 0) then [CPressMouse b] else []) ++
  (if negb (Z.land old bit =? 0) && (Z.land state bit =? 0) then [CReleaseMouse b] else []).
Definition button_changes (old state : Z) : list source_call :=
  button_change input_MouseButton_Left 1 old state ++
  button_change input_MouseButton_Right 2 old state ++
  button_change input_MouseButton_Middle 4 old state.

(** One packet: queue, buttons and calls.  Movements are [unsigned int]s
    passed as [int]s. *)
Definition mouse_packet (four : bool) (q : B) (buttons : Z) : B * Z * list source_call :=
  let '(state, q) := bq_pop q in
  let '(d, q) := bq_pop q in
  let moveX := u32 (d - Z.land (u32 (Z.shiftl state 4)) 0x100) in
  let '(d, q) := bq_pop q in
  let moveY := u32 (d - Z.land (u32 (Z.shiftl state 3)) 0x100) in
  let q := if four then (bq_pop q).2 else q in
  let move := CMoveMouse (i32 moveX) (i32 (u32 (- moveY))) in
  if negb (buttons =? Z.land state 7)
  then (q, Z.land state 7, move :: button_changes buttons state)
  else (q, buttons, [move]).
Fixpoint mouse_packets (fuel : nat) (four : bool) (q : B) (buttons : Z) : B * Z * list source_call :=
  match fuel with
  | O => (q, buttons, [])
  | S fuel =>
      if (if four then 4 else 3) <=? bq_size q then
        let '(q, buttons, calls) := mouse_packet four q buttons in
        let '(q, buttons, calls') := mouse_packets fuel four q buttons in
        (q, buttons, calls ++ calls')
      else (q, buttons, [])
  end.
(** The mouse interrupt; the loops run at most once per queued byte. *)
Definition pic_ps2_IRQHandlerM (four : bool) (q : B) (buttons byte : Z) : B * Z * list source_call :=
  let q := bq_push q byte in
  let q := mouse_sync (Z.to_nat (bq_size q)) q in
  mouse_packets (Z.to_nat (bq_size q)) four q buttons.

(** ** Streams of interrupts *)

Fixpoint keyboard_run (garbage : Z) (q : B) (bytes : list Z) : B * list source_call :=
  match bytes with
  | [] => (q, [])
  | b :: bytes =>
      let '(q, c) := pic_ps2_IRQHandlerK garbage q b in
      let '(q, cs) := keyboard_run garbage q bytes in
      (q, c ++ cs)
  end.
Fixpoint mouse_run (four : bool) (q : B) (buttons : Z) (bytes : list Z) : B * Z * list source_call :=
  match bytes with
  | [] => (q, buttons, [])
  | b :: bytes =>
      let '(q, buttons, c) := pic_ps2_IRQHandlerM four q buttons b in
      let '(q, buttons, cs) := mouse_run four q buttons bytes in
      (q, buttons, c ++ cs)
  end.
End PS2.

(** ** What a keyboard sends *)

(** The codes of scancode set 1, by key: a key that is pressed sends its code, one
    that is released the code with the high bit of its last byte set; the newer
    keys have a byte 0xe0 in front.  The numpad has its own Enter, and its point,
    which has no enumerator, is the period. *)
Inductive code := Single (b : Z) | Extended (b : Z).
#[export] Instance code_eq_dec : EqDecision code.
Proof. solve_decision. Defined.
Definition set1_codes (k : input_Key) : list code :=
  match k with
  | input_Key_Escape => [Single 0x01] | input_Key_F1 => [Single 0x3b] | input_Key_F2 => [Single 0x3c]
  | input_Key_F3 => [Single 0x3d] | input_Key_F4 => [Single 0x3e] | input_Key_F5 => [Single 0x3f]
  | input_Key_F6 => [Single 0x40] | input_Key_F7 => [Single 0x41] | input_Key_F8 => [Single 0x42]
  | input_Key_F9 => [Single 0x43] | input_Key_F10 => [Single 0x44] | input_Key_F11 => [Single 0x57]
  | input_Key_F12 => [Single 0x58]
  | input_Key_Tilde => [Single 0x29] | input_Key_Num1 => [Single 0x02] | input_Key_Num2 => [Single 0x03]
  | input_Key_Num3 => [Single 0x04] | input_Key_Num4 => [Single 0x05] | input_Key_Num5 => [Single 0x06]
  | input_Key_Num6 => [Single 0x07] | input_Key_Num7 => [Single 0x08] | input_Key_Num8 => [Single 0x09]
  | input_Key_Num9 => [Single 0x0a] | input_Key_Num0 => [Single 0x0b] | input_Key_Hyphen => [Single 0x0c]
  | input_Key_Equal => [Single 0x0d] | input_Key_Backspace => [Single 0x0e]
  | input_Key_Tab => [Single 0x0f] | input_Key_Q => [Single 0x10] | input_Key_W => [Single 0x11]
  | input_Key_E => [Single 0x12] | input_Key_R => [Single 0x13] | input_Key_T => [Single 0x14]
  | input_Key_Y => [Single 0x15] | input_Key_U => [Single 0x16] | input_Key_I => [Single 0x17]
  | input_Key_O => [Single 0x18] | input_Key_P => [Single 0x19] | input_Key_LBracket => [Single 0x1a]
  | input_Key_RBracket => [Single 0x1b] | input_Key_Backslash => [Single 0x2b]
  | input_Key_CapsLock => [Single 0x3a] | input_Key_A => [Single 0x1e] | input_Key_S => [Single 0x1f]
  | input_Key_D => [Single 0x20] | input_Key_F => [Single 0x21] | input_Key_G => [Single 0x22]
  | input_Key_H => [Single 0x23] | input_Key_J => [Single 0x24] | input_Key_K => [Single 0x25]
  | input_Key_L => [Single 0x26] | input_Key_Semicolon => [Single 0x27] | input_Key_Quote => [Single 0x28]
  | input_Key_Enter => [Single 0x1c; Extended 0x1c]
  | input_Key_LShift => [Single 0x2a] | input_Key_Z => [Single 0x2c] | input_Key_X => [Single 0x2d]
  | input_Key_C => [Single 0x2e] | input_Key_V => [Single 0x2f] | input_Key_B => [Single 0x30]
  | input_Key_N => [Single 0x31] | input_Key_M => [Single 0x32] | input_Key_Comma => [Single 0x33]
  | input_Key_Period => [Single 0x34; Single 0x53] | input_Key_Slash => [Single 0x35]
  | input_Key_RShift => [Single 0x36]
  | input_Key_LControl => [Single 0x1d] | input_Key_LSuper => [Extended 0x5b] | input_Key_LAlt => [Single 0x38]
  | input_Key_Space => [Single 0x39] | input_Key_RAlt => [Extended 0x38] | input_Key_RSuper => [Extended 0x5c]
  | input_Key_Menu => [Extended 0x5d] | input_Key_RControl => [Extended 0x1d]
  | input_Key_Insert => [Extended 0x52] | input_Key_Delete => [Extended 0x53] | input_Key_Home => [Extended 0x47]
  | input_Key_End => [Extended 0x4f] | input_Key_PageUp => [Extended 0x49] | input_Key_PageDown => [Extended 0x51]
  | input_Key_Up => [Extended 0x48] | input_Key_Left => [Extended 0x4b] | input_Key_Down => [Extended 0x50]
  | input_Key_Right => [Extended 0x4d]
  | input_Key_NumLock => [Single 0x45] | input_Key_Divide => [Extended 0x35] | input_Key_Multiply => [Single 0x37]
  | input_Key_Subtract => [Single 0x4a] | input_Key_Add => [Single 0x4e] | input_Key_Numpad7 => [Single 0x47]
  | input_Key_Numpad8 => [Single 0x48] | input_Key_Numpad9 => [Single 0x49] | input_Key_Numpad4 => [Single 0x4b]
  | input_Key_Numpad5 => [Single 0x4c] | input_Key_Numpad6 => [Single 0x4d] | input_Key_Numpad1 => [Single 0x4f]
  | input_Key_Numpad2 => [Single 0x50] | input_Key_Numpad3 => [Single 0x51] | input_Key_Numpad0 => [Single 0x52]
  | input_Key_ScrollLock => [Single 0x46]
  | input_Key_F13 | input_Key_F14 | input_Key_F15 | input_Key_Pause | input_Key_Unknown => []
  end.
Definition make (c : code) : list Z := match c with Single b => [b] | Extended b => [0xe0; b] end.
Definition break (c : code) : list Z := match c with Single b => [b + 0x80] | Extended b => [0xe0; b + 0x80] end.
(** Keys with an enumerator that the driver passes over. *)
Definition unreported (k : input_Key) : bool := bool_decide (k ∈ [input_Key_LSuper; input_Key_RSuper; input_Key_Menu]).

(** One scancode, with the calls it stands for: of a key, of a key there is no
    enumerator for (0xe0 and a byte that is no key's code), of the pause key
    (0xe1 and two bytes), an acknowledgement. *)
Inductive scancode : list Z -> list source_call -> Prop :=
  | sc_make k c : c ∈ set1_codes k -> scancode (make c) (if unreported k then [] else [CPressKey (key_code k)])
  | sc_break k c : c ∈ set1_codes k -> scancode (break c) (if unreported k then [] else [CReleaseKey (key_code k)])
  | sc_ext_other b : 0 <= b < 256 -> (forall k c, c ∈ set1_codes k -> [0xe0; b] <> make c /\ [0xe0; b] <> break c) -> scancode [0xe0; b] []
  | sc_pause b c : 0 <= b < 256 -> 0 <= c < 256 -> scancode [0xe1; b; c] []
  | sc_ack : scancode [0xfa] [].
