(* ===== verification/PS2Props.v ===== *)
(** * Properties of the PS/2 handlers

    The handlers of PS2.v against what the devices send: streams of keyboard
    scancodes and of mouse packets, over any byte queue. *)

From S2P Require Import Prelude Mem MinMax Physical Input Queue ByteQueue PS2.


(** ** The handlers on the queue's contents *)

Definition list_decode (garbage : Z) (l : list Z) : list Z * option (Z * Z) :=
  let byte0 := hd 0 l in
  if byte0 =? 0xfa then (tail l, None)
  else if (0x01 <=? byte0) && (byte0 <=? 0x58) then
    (tail l, Some (input_EventType_KeyPressed, scancode_key byte0))
  else if (0x81 <=? byte0) && (byte0 <=? 0xd8) then
    (tail l, Some (input_EventType_KeyReleased, scancode_key (byte0 - 0x80)))
  else if byte0 =? 0xe0 then
    if Z.of_nat (length l) <? 2 then (l, None)
    else match ext_key (hd 0 (tail l)) with
         | Some e => (tail (tail l), Some e)
         | None => (tail (tail l), if garbage =? -1 then None else Some (-1, garbage))
         end
  else if byte0 =? 0xe1 then
    if Z.of_nat (length l) <? 3 then (l, None) else (tail (tail (tail l)), None)
  else (l, None).
Definition list_handler (garbage : Z) (l : list Z) (byte : Z) : list Z * list source_call :=
  match list_decode garbage (l ++ [u8 byte]) with
  | (l, Some (t, k)) =>
      (l, if t =? input_EventType_KeyPressed then [CPressKey k]
          else if t =? input_EventType_KeyReleased then [CReleaseKey k] else [])
  | (l, None) => (l, [])
  end.

(** The tables of the code have the codes of the keys. *)
Definition code_decoded (k : input_Key) (c : code) : bool :=
  match c with
  | Single b => (1 <=? b) && (b <=? 0x58) && (scancode_key b =? key_code k) && negb (unreported k)
  | Extended b => (0 <=? b) && (b <? 128) &&
      bool_decide (ext_key b = if unreported k then None else Some (input_EventType_KeyPressed, key_code k)) &&
      bool_decide (ext_key (b + 0x80) = if unreported k then None else Some (input_EventType_KeyReleased, key_code k))
  end.
Lemma set1_decoded k c : c ∈ set1_codes k -> code_decoded k c = true.
Proof.
  destruct (decide (k = input_Key_Unknown)) as [->|Hk]; [intros Hc; by apply elem_of_nil in Hc|].
  assert (forallb (code_decoded k) (set1_codes k) = true) as Hf.
  { revert k Hk. apply (check_keys (fun k => forallb (code_decoded k) (set1_codes k))). by vm_compute. }
  rewrite forallb_forall in Hf. intros Hc. by apply Hf, list_elem_of_In.
Qed.
(** Every extended code the code knows is that of a key. *)
Lemma ext_key_code b : 0 <= b < 256 -> ext_key b <> None ->
  exists k c, c ∈ set1_codes k /\ ([0xe0; b] = make c \/ [0xe0; b] = break c).
Proof.
  intros Hb. assert (forallb (fun b => bool_decide (ext_key b = None) ||
    existsb (fun k => existsb (fun c => bool_decide ([0xe0; b] = make c) || bool_decide ([0xe0; b] = break c)) (set1_codes k)) all_keys) (seqZ 0 256) = true) as Hf by by vm_compute.
  rewrite forallb_forall in Hf. specialize (Hf b). rewrite <- list_elem_of_In, elem_of_seqZ in Hf. specialize (Hf ltac:(lia)).
  intros Hn. rewrite bool_decide_false in Hf by done. cbn [orb] in Hf. apply existsb_exists in Hf as (k & _ & Hf).
  apply existsb_exists in Hf as (c & Hc & Hf). exists k, c. split; [by apply list_elem_of_In|].
  apply orb_true_iff in Hf. by rewrite !bool_decide_eq_true in Hf.
Qed.

Lemma keyboard_run_app {B} `{ByteQueue B} garbage (q : B) bs bs' :
  keyboard_run garbage q (bs ++ bs') =
  let '(q, c) := keyboard_run garbage q bs in
  let '(q, c') := keyboard_run garbage q bs' in (q, c ++ c').
Proof.
  revert q. induction bs as [|b bs IH]; intros q; simpl.
  { by destruct (keyboard_run garbage q bs'). }
  destruct (pic_ps2_IRQHandlerK garbage q b) as [q1 c1]. rewrite IH.
  destruct (keyboard_run garbage q1 bs) as [q2 c2].
  destruct (keyboard_run garbage q2 bs') as [q3 c3]. by rewrite app_assoc.
Qed.

(** First bytes the decoder has no case for. *)
Definition dead_byte (b : Z) : Prop :=
  b = 0 \/ 0x59 <= b <= 0x80 \/ 0xd9 <= b <= 0xdf \/ 0xe2 <= b <= 0xf9 \/ 0xfb <= b <= 0xff.
Lemma dead_decode garbage b l : dead_byte b -> list_decode garbage (b :: l) = (b :: l, None).
Proof.
  intros Hb. unfold dead_byte in Hb. unfold list_decode. cbn [hd].
  repeat (zcase; cbn [andb]; try lia); done.
Qed.

Section Lemmas.
Context {B : Type} `{ByteQueue B}.
Implicit Types q : B.

(** A queue holding [l] with capacity [cap]. *)
Definition holds q (cap : Z) (l : list Z) : Prop := bq_ok q /\ bq_cap q = cap /\ bq_list q = l.

Lemma holds_pop q cap l :
  holds q cap l -> (bq_pop q).1 = hd 0 l /\ holds (bq_pop q).2 cap (tail l).
Proof.
  intros (Hok & Hc & Hl). destruct (bq_pop_law q Hok) as (? & ? & -> & ?).
  split; [by rewrite Hl|]. split_and!; [done|congruence|congruence].
Qed.
Lemma holds_push q cap l b :
  holds q cap l -> Z.of_nat (length l) < cap -> holds (bq_push q b) cap (l ++ [u8 b]).
Proof.
  intros (Hok & Hc & Hl) Hlt. destruct (bq_push_law q b Hok) as (? & ? & Hp).
  split_and!; [done|congruence|]. rewrite Hp, Hl, Hc.
  by rewrite (proj2 (Z.eqb_neq _ _)) by lia.
Qed.
Lemma holds_full q cap l b :
  holds q cap l -> Z.of_nat (length l) = cap -> holds (bq_push q b) cap l.
Proof.
  intros (Hok & Hc & Hl) Hlt. destruct (bq_push_law q b Hok) as (? & ? & Hp).
  split_and!; [done|congruence|]. rewrite Hp, Hl, Hc. by rewrite Hlt, Z.eqb_refl.
Qed.

Lemma decode_holds garbage q cap l :
  holds q cap l ->
  let '(q', e) := __pic_ps2_DecodeKeyScancode1 garbage q in
  let '(l', e') := list_decode garbage l in holds q' cap l' /\ e = e'.
Proof.
  intros Hq. pose proof Hq as (Hok & Hc & Hl). unfold __pic_ps2_DecodeKeyScancode1, list_decode.
  rewrite bq_front_law, bq_size_law, Hl by done.
  destruct (holds_pop q cap l Hq) as [_ H1]. destruct (holds_pop _ _ _ H1) as [Hb1 H2].
  destruct (holds_pop _ _ _ H2) as [_ H3].
  destruct (bq_pop q) as [b0 q1]. simpl in *. destruct (bq_pop q1) as [b1 q2]. simpl in *. subst b1.
  repeat case_match; simplify_eq; done.
Qed.
Lemma handler_holds garbage q cap l byte :
  holds q cap l -> Z.of_nat (length l) < cap ->
  let '(q', c) := pic_ps2_IRQHandlerK garbage q byte in
  let '(l', c') := list_handler garbage l byte in holds q' cap l' /\ c = c'.
Proof.
  intros Hq Hlt. unfold pic_ps2_IRQHandlerK, list_handler.
  pose proof (decode_holds garbage _ _ _ (holds_push q cap l byte Hq Hlt)) as Hd.
  destruct (__pic_ps2_DecodeKeyScancode1 garbage (bq_push q byte)) as [q' e].
  destruct (list_decode garbage (l ++ [u8 byte])) as [l' e']. destruct Hd as [Hd ->].
  destruct e' as [[t k]|]; done.
Qed.

(** A whole scancode, starting on an empty queue. *)
Lemma scancode_run garbage q cap bytes calls :
  holds q cap [] -> 3 <= cap -> scancode bytes calls ->
  let '(q', cs) := keyboard_run garbage q bytes in holds q' cap [] /\ cs = calls.
Proof.
  intros Hq Hcap Hs.
  assert (forall b l c, list_handler garbage [] b = (l, c) -> l = [] ->
            let '(q', cs) := keyboard_run garbage q [b] in holds q' cap [] /\ cs = c) as H1.
  { intros b l c Hh ->. cbn [keyboard_run].
    pose proof (handler_holds garbage q cap [] b Hq ltac:(simpl; lia)) as Hd.
    rewrite Hh in Hd. destruct (pic_ps2_IRQHandlerK garbage q b) as [q1 c1].
    destruct Hd as [? ->]. by rewrite app_nil_r. }
  assert (forall b0 b1 c, list_handler garbage [] b0 = ([b0], []) ->
            list_handler garbage [b0] b1 = ([], c) ->
            let '(q', cs) := keyboard_run garbage q [b0; b1] in holds q' cap [] /\ cs = c) as H2.
  { intros b0 b1 c Hh0 Hh1. cbn [keyboard_run].
    pose proof (handler_holds garbage q cap [] b0 Hq ltac:(simpl; lia)) as Hd.
    rewrite Hh0 in Hd. destruct (pic_ps2_IRQHandlerK garbage q b0) as [q1 c1].
    destruct Hd as [Hq1 ->].
    pose proof (handler_holds garbage q1 cap [b0] b1 Hq1 ltac:(simpl; lia)) as Hd.
    rewrite Hh1 in Hd. destruct (pic_ps2_IRQHandlerK garbage q1 b1) as [q2 c2].
    destruct Hd as [? ->]. by rewrite app_nil_r. }
  destruct Hs as [k [b|b] Hc|k [b|b] Hc|b Hb Hn|b c Hb Hc|]; cbn [make break].
  - apply set1_decoded in Hc. cbn [code_decoded] in Hc. zbool. destruct (unreported k); [done|].
    apply (H1 b []); [|done]. unfold list_handler, list_decode. simpl. rewrite u8_small by lia.
    rewrite (proj2 (Z.eqb_neq b _)), (proj2 (Z.leb_le 1 b)), (proj2 (Z.leb_le b _)) by lia. cbn [andb]. by replace (scancode_key b) with (key_code k) by lia.
  - apply set1_decoded in Hc. cbn [code_decoded] in Hc. rewrite !andb_true_iff, !bool_decide_eq_true in Hc. destruct Hc as [[[? ?] E] _]. zbool.
    apply H2; [done|]. unfold list_handler, list_decode. simpl. rewrite u8_small, E by lia. destruct (unreported k); [|done]. by destruct (Z.eqb_spec garbage (-1)).
  - apply set1_decoded in Hc. cbn [code_decoded] in Hc. zbool. destruct (unreported k); [done|].
    apply (H1 _ []); [|done]. unfold list_handler, list_decode. simpl. rewrite u8_small by lia.
    rewrite (proj2 (Z.eqb_neq _ _)), (proj2 (Z.leb_le 1 _)), (proj2 (Z.leb_gt (b + 128) 88)),
      (proj2 (Z.leb_le 129 _)), (proj2 (Z.leb_le (b + 128) 216)) by lia. simpl.
    replace (b + 128 - 128) with b by lia. by replace (scancode_key b) with (key_code k) by lia.
  - apply set1_decoded in Hc. cbn [code_decoded] in Hc. rewrite !andb_true_iff, !bool_decide_eq_true in Hc. destruct Hc as [[[? ?] _] E]. zbool.
    apply H2; [done|]. unfold list_handler, list_decode. simpl. rewrite u8_small, E by lia. destruct (unreported k); [|done]. by destruct (Z.eqb_spec garbage (-1)).
  - assert (ext_key b = None) as E.
    { destruct (ext_key b) eqn:E; [|done]. destruct (ext_key_code b Hb) as (k & c & Hc & Hm); [congruence|]. destruct (Hn k c Hc). tauto. }
    apply H2; [done|]. unfold list_handler, list_decode. simpl. rewrite u8_small, E by lia. by destruct (Z.eqb_spec garbage (-1)).
  - cbn [keyboard_run].
    pose proof (handler_holds garbage q cap [] 225 Hq ltac:(simpl; lia)) as Hd.
    destruct (pic_ps2_IRQHandlerK garbage q 225) as [q1 c1].
    change (list_handler garbage [] 225) with ([225], @nil source_call) in Hd. destruct Hd as [Hq1 ->].
    pose proof (handler_holds garbage q1 cap [225] b Hq1 ltac:(simpl; lia)) as Hd.
    destruct (pic_ps2_IRQHandlerK garbage q1 b) as [q2 c2].
    assert (list_handler garbage [225] b = ([225; b], [])) as E
      by (unfold list_handler, list_decode; simpl; by rewrite u8_small by lia).
    rewrite E in Hd. destruct Hd as [Hq2 ->].
    pose proof (handler_holds garbage q2 cap [225; b] c Hq2 ltac:(simpl; lia)) as Hd.
    destruct (pic_ps2_IRQHandlerK garbage q2 c) as [q3 c3].
    change (list_handler garbage [225; b] c) with (@nil Z, @nil source_call) in Hd. by destruct Hd as [Hq3 ->].
  - by apply (H1 _ []).
Qed.

Lemma dead_run garbage q cap b l bytes :
  dead_byte b -> holds q cap (b :: l) -> Z.of_nat (length (b :: l)) <= cap ->
  let '(q', cs) := keyboard_run garbage q bytes in
  cs = [] /\ exists l', holds q' cap (b :: l').
Proof.
  intros Hb. revert q l. induction bytes as [|x bytes IH]; intros q l Hq Hl; [split; [done|by exists l]|].
  cbn [keyboard_run]. unfold pic_ps2_IRQHandlerK.
  assert (exists l1, holds (bq_push q x) cap (b :: l1) /\ Z.of_nat (length (b :: l1)) <= cap) as (l1 & H1 & Hl1).
  { destruct (decide (Z.of_nat (length (b :: l)) = cap)) as [E|E].
    - exists l. split; [by apply holds_full|done].
    - exists (l ++ [u8 x]). split; [by apply (holds_push q cap (b :: l)); [|lia]|].
      simpl in *. rewrite length_app. simpl. lia. }
  pose proof (decode_holds garbage _ _ _ H1) as Hd. rewrite dead_decode in Hd by done.
  destruct (__pic_ps2_DecodeKeyScancode1 garbage (bq_push q x)) as [q1 e]. destruct Hd as [Hq1 ->].
  specialize (IH q1 l1 Hq1 Hl1). destruct (keyboard_run garbage q1 bytes) as [q2 cs]. done.
Qed.
End Lemmas.

(** ** Properties *)


(** A first byte outside the decoder's cases (0x00, 0x59-0x80, 0xfe, 0xff
    and others) is never taken from the queue: from then on no byte the
    keyboard sends produces a call. *)
Theorem pic_ps2_keyboard_stuck {B} `{ByteQueue B} garbage (q : B) cap b bytes :
  dead_byte b -> holds q cap [] -> 0 < cap ->
  (keyboard_run garbage q (b :: bytes)).2 = [].
Proof.
  intros Hb Hq Hcap. cbn [keyboard_run]. unfold pic_ps2_IRQHandlerK.
  pose proof (holds_push q cap [] b Hq ltac:(simpl; lia)) as H1. simpl in H1.
  assert (u8 b = b) as E by (unfold dead_byte in Hb; apply u8_small; lia). rewrite E in H1.
  pose proof (decode_holds garbage _ _ _ H1) as Hd. rewrite dead_decode in Hd by done.
  destruct (__pic_ps2_DecodeKeyScancode1 garbage (bq_push q b)) as [q1 e]. destruct Hd as [Hq1 ->].
  pose proof (dead_run garbage q1 cap b [] bytes Hb Hq1 ltac:(simpl; lia)) as Hr.
  destruct (keyboard_run garbage q1 bytes) as [q2 cs]. by destruct Hr as [-> _].
Qed.

(** The codes 0x54 to 0x56, of keys without an enumerator, press the key -1. *)
Theorem pic_ps2_keyboard_unknown {B} `{ByteQueue B} garbage (q : B) cap b :
  holds q cap [] -> 0 < cap -> 0x54 <= b <= 0x56 -> (keyboard_run garbage q [b]).2 = [CPressKey (-1)].
Proof.
  intros Hq Hcap Hb. cbn [keyboard_run]. pose proof (handler_holds garbage q cap [] b Hq ltac:(simpl; lia)) as Hd.
  destruct (pic_ps2_IRQHandlerK garbage q b) as [q1 c1]. assert (b = 0x54 \/ b = 0x55 \/ b = 0x56) as [-> | [-> | ->]] by lia; by destruct Hd as [_ ->].
Qed.

(** ** What a mouse sends *)

Definition byte_ok (b : Z) : Prop := 0 <= b < 256.
(** A 9-bit movement: the sign is in the first byte. *)
Definition move9 (sign : bool) (d : Z) : Z := if sign then d - 256 else d.
Definition button_spec (old state : Z) : list source_call :=
  mjoin ((fun '(b, i) =>
    match Z.testbit old i, Z.testbit state i with
    | false, true => [CPressMouse b]
    | true, false => [CReleaseMouse b]
    | _, _ => []
    end) <$> [(input_MouseButton_Left, 0); (input_MouseButton_Right, 1); (input_MouseButton_Middle, 2)]).

(** One unit of the stream with the buttons before and after it and its calls:
    a packet (a first byte with bit 3 set, two movements, a fourth byte with
    four-byte mice) or a stray byte between packets. *)
Inductive mouse_unit (four : bool) : Z -> list Z -> list source_call -> Z -> Prop :=
  | mu_packet old s x y z :
      byte_ok s -> byte_ok x -> byte_ok y -> Forall byte_ok z ->
      Z.testbit s 3 = true -> length z = (if four then 1 else 0)%nat ->
      mouse_unit four old (s :: x :: y :: z)
        (CMoveMouse (move9 (Z.testbit s 4) x) (- move9 (Z.testbit s 5) y) :: button_spec old s)
        (Z.land s 7)
  | mu_stray old b : byte_ok b -> Z.testbit b 3 = false -> mouse_unit four old [b] [] old.
Inductive mouse_stream (four : bool) : Z -> list Z -> list source_call -> Z -> Prop :=
  | ms_nil old : mouse_stream four old [] [] old
  | ms_cons old bs cs mid bs' cs' new :
      mouse_unit four old bs cs mid -> mouse_stream four mid bs' cs' new ->
      mouse_stream four old (bs ++ bs') (cs ++ cs') new.

Lemma land_pow a i : 0 <= i -> (Z.land a (2 ^ i) =? 0) = negb (Z.testbit a i).
Proof. intros. rewrite <- Z.shiftl_1_l. by apply land_bit. Qed.
Lemma land_shift_bit s k i : 0 <= k -> 0 <= s < 256 -> i = 8 - k -> 0 <= i ->
  Z.land (u32 (Z.shiftl s k)) 0x100 = if Z.testbit s i then 256 else 0.
Proof.
  intros Hk Hs -> Hi. change 256 with (2 ^ 8) at 1. apply Z.bits_inj'. intros n Hn.
  rewrite Z.land_spec. destruct (Z.eqb_spec n 8) as [->|Hne].
  - rewrite Z.pow2_bits_true, andb_true_r by lia. unfold u32. change 4294967296 with (2 ^ 32).
    rewrite Z.mod_pow2_bits_low, Z.shiftl_spec by lia.
    by destruct (Z.testbit s (8 - k)).
  - rewrite Z.pow2_bits_false, andb_false_r by lia.
    destruct (Z.testbit s (8 - k)); [|by rewrite Z.bits_0].
    change 256 with (2 ^ 8). by rewrite Z.pow2_bits_false by lia.
Qed.
Lemma button_changes_spec old s : button_changes old s = button_spec old s.
Proof.
  unfold button_changes, button_change, button_spec.
  pose proof (fun a => land_pow a 0 ltac:(lia)) as H0. change (2 ^ 0) with 1 in H0.
  pose proof (fun a => land_pow a 1 ltac:(lia)) as H1. change (2 ^ 1) with 2 in H1.
  pose proof (fun a => land_pow a 2 ltac:(lia)) as H2. change (2 ^ 2) with 4 in H2.
  rewrite !H0, !H1, !H2. cbn [mjoin list_join fmap list_fmap].
  destruct (Z.testbit old 0), (Z.testbit s 0), (Z.testbit old 1), (Z.testbit s 1),
    (Z.testbit old 2), (Z.testbit s 2); done.
Qed.

Lemma button_spec_same old s : Z.land old 7 = Z.land s 7 -> button_spec (Z.land old 7) s = [].
Proof.
  intros E.
  assert (forall i, 0 <= i < 3 -> Z.testbit (Z.land old 7) i = Z.testbit s i) as Hb.
  { intros i Hi. rewrite E, Z.land_spec. change 7 with (Z.ones 3).
    by rewrite Z.ones_spec_low, andb_true_r by lia. }
  unfold button_spec. cbn [fmap list_fmap]. rewrite !Hb by lia.
  by destruct (Z.testbit s 0), (Z.testbit s 1), (Z.testbit s 2).
Qed.

Section Mouse.
Context {B : Type} `{ByteQueue B}.
Implicit Types q : B.
Variable four : bool.
Let n : Z := if four then 4 else 3.

Lemma mouse_sync_stop q cap b l fuel :
  holds q cap (b :: l) -> Z.testbit b 3 = true -> mouse_sync fuel q = q.
Proof.
  intros (Hok & _ & Hl) Hb. destruct fuel as [|fuel]; [done|]. cbn [mouse_sync].
  rewrite bq_front_law, Hl by done. cbn [hd]. change 8 with (2 ^ 3).
  by rewrite land_pow, Hb, andb_false_r by lia.
Qed.
Lemma mouse_packets_short q cap l fuel buttons :
  holds q cap l -> Z.of_nat (length l) < n -> mouse_packets fuel four q buttons = (q, buttons, []).
Proof.
  intros (Hok & _ & Hl) Hlt. destruct fuel as [|fuel]; [done|]. cbn [mouse_packets].
  rewrite bq_size_law, Hl by done. fold n. by rewrite (proj2 (Z.leb_gt _ _)) by lia.
Qed.

(** A stray byte on an empty queue. *)
Lemma handler_stray q cap b buttons :
  holds q cap [] -> 0 < cap -> byte_ok b -> Z.testbit b 3 = false ->
  let '(q', buttons', cs) := pic_ps2_IRQHandlerM four q buttons b in
  holds q' cap [] /\ buttons' = buttons /\ cs = [].
Proof.
  intros Hq Hcap Hb H3. pose proof (holds_push q cap [] b Hq ltac:(simpl; lia)) as H1.
  simpl in H1. rewrite u8_small in H1 by done. unfold pic_ps2_IRQHandlerM.
  pose proof H1 as (Hok & _ & Hl). destruct (holds_pop _ _ _ H1) as [_ H2]. cbn [tail] in H2.
  assert (mouse_sync (Z.to_nat (bq_size (bq_push q b))) (bq_push q b) = (bq_pop (bq_push q b)).2) as ->.
  { rewrite bq_size_law, Hl by done. change (Z.to_nat (Z.of_nat (length [b]))) with 1%nat.
    cbn [mouse_sync]. rewrite bq_size_law, bq_front_law, Hl by done. cbn [hd].
    change 8 with (2 ^ 3). by rewrite land_pow, H3 by lia. }
  cbn zeta. rewrite (mouse_packets_short _ cap []) by (done || (subst n; simpl; destruct four; lia)). done.
Qed.
(** A byte inside a packet. *)
Lemma handler_inside q cap l b s l' buttons :
  holds q cap l -> Z.of_nat (length l) < cap -> byte_ok b ->
  l ++ [b] = s :: l' -> Z.testbit s 3 = true -> Z.of_nat (length (l ++ [b])) < n ->
  let '(q', buttons', cs) := pic_ps2_IRQHandlerM four q buttons b in
  holds q' cap (l ++ [b]) /\ buttons' = buttons /\ cs = [].
Proof.
  intros Hq Hcap Hb He Hs Hn. pose proof (holds_push q cap l b Hq Hcap) as H1.
  rewrite u8_small in H1 by done. unfold pic_ps2_IRQHandlerM.
  rewrite (mouse_sync_stop _ cap s l') by (done || by rewrite <- He).
  by rewrite (mouse_packets_short _ cap (l ++ [b])).
Qed.
Lemma mouse_packet_holds q cap s x y z old :
  holds q cap (s :: x :: y :: z) -> length z = (if four then 1 else 0)%nat ->
  Forall byte_ok (s :: x :: y :: z) ->
  exists q', holds q' cap [] /\
    mouse_packet four q (Z.land old 7) = (q', Z.land s 7,
      CMoveMouse (move9 (Z.testbit s 4) x) (- move9 (Z.testbit s 5) y) ::
      button_spec (Z.land old 7) s).
Proof.
  intros H1 Hz Hf. apply Forall_cons in Hf as [Hs Hf]. apply Forall_cons in Hf as [Hx Hf].
  apply Forall_cons in Hf as [Hy _]. unfold byte_ok in *.
  destruct (holds_pop _ _ _ H1) as [E1 H2]. destruct (holds_pop _ _ _ H2) as [E2 H3].
  destruct (holds_pop _ _ _ H3) as [E3 H4]. destruct (holds_pop _ _ _ H4) as [_ H5].
  unfold mouse_packet. destruct (bq_pop q) as [s' q1]. cbn [fst snd tail hd] in *.
  destruct (bq_pop q1) as [x' q2]. cbn [fst snd] in *. destruct (bq_pop q2) as [y' q3].
  cbn [fst snd] in *. subst s' x' y'.
  rewrite (land_shift_bit s 4 4), (land_shift_bit s 3 5) by lia.
  assert (i32 (u32 (x - (if Z.testbit s 4 then 256 else 0))) = move9 (Z.testbit s 4) x) as ->
    by (unfold move9; destruct (Z.testbit s 4); word_lia).
  assert (i32 (u32 (- u32 (y - (if Z.testbit s 5 then 256 else 0)))) = - move9 (Z.testbit s 5) y) as ->
    by (unfold move9; destruct (Z.testbit s 5); word_lia).
  exists (if four then (bq_pop q3).2 else q3). split.
  - destruct four, z as [|? [|]]; done.
  - rewrite button_changes_spec. destruct (Z.eqb_spec (Z.land old 7) (Z.land s 7)) as [E|E]; [|done].
    by rewrite (button_spec_same old s E), E.
Qed.
(** The byte that completes a packet. *)
Lemma handler_last q cap l b s x y z buttons :
  holds q cap l -> Z.of_nat (length l) < cap -> byte_ok b ->
  l ++ [b] = s :: x :: y :: z -> length z = (if four then 1 else 0)%nat ->
  Forall byte_ok (s :: x :: y :: z) -> Z.testbit s 3 = true -> 
  (exists old, buttons = Z.land old 7) ->
  let '(q', buttons', cs) := pic_ps2_IRQHandlerM four q buttons b in
  holds q' cap [] /\ buttons' = Z.land s 7 /\
  cs = CMoveMouse (move9 (Z.testbit s 4) x) (- move9 (Z.testbit s 5) y) :: button_spec buttons s.
Proof.
  intros Hq Hcap Hb He Hz Hf Hs [old ->]. pose proof (holds_push q cap l b Hq Hcap) as H1.
  rewrite u8_small, He in H1 by done. unfold pic_ps2_IRQHandlerM.
  rewrite (mouse_sync_stop _ cap s (x :: y :: z)) by done. cbn zeta.
  assert (bq_size (bq_push q b) = n) as E.
  { pose proof H1 as (Hok & _ & Hl). rewrite bq_size_law, Hl by done. subst n. simpl.
    rewrite Hz. by destruct four. }
  rewrite E. assert (exists k, Z.to_nat n = S (S k)) as [k ->] by (subst n; destruct four; by eexists (_ : nat)).
  cbn [mouse_packets]. rewrite E. fold n. rewrite (proj2 (Z.leb_le n n)) by lia.
  destruct (mouse_packet_holds _ cap s x y z old H1 Hz Hf) as (q' & Hq' & ->).
  pose proof Hq' as (Hok & _ & Hl). rewrite (bq_size_law q'), Hl by done.
  rewrite (proj2 (Z.leb_gt n _)) by (subst n; simpl; destruct four; lia). by rewrite app_nil_r.
Qed.

End Mouse.

(** A whole unit, starting on an empty queue. *)
Lemma mouse_unit_run {B} `{ByteQueue B} four (q : B) cap old bs cs new :
  holds q cap [] -> 4 <= cap -> mouse_unit four (Z.land old 7) bs cs new ->
  let '(q', buttons', cs') := mouse_run four q (Z.land old 7) bs in
  holds q' cap [] /\ buttons' = new /\ cs' = cs.
Proof.
  intros Hq Hcap Hu. remember (Z.land old 7) as old7 eqn:E.
  destruct Hu as [old' s x y z Hs Hx Hy Hz H3 Hlen|old' b Hb H3].
  - cbn [mouse_run].
    pose proof (handler_inside four q cap [] s s [] old' Hq ltac:(simpl; lia) Hs eq_refl H3) as Hd.
    destruct (pic_ps2_IRQHandlerM four q old' s) as [[q1 b1] c1].
    destruct Hd as (Hq1 & -> & ->); [simpl; destruct four; lia|]. cbn [app] in Hq1.
    pose proof (handler_inside four q1 cap [s] x s [x] old' Hq1 ltac:(simpl; lia) Hx eq_refl H3) as Hd.
    destruct (pic_ps2_IRQHandlerM four q1 old' x) as [[q2 b2] c2].
    destruct Hd as (Hq2 & -> & ->); [simpl; destruct four; lia|]. cbn [app] in Hq2.
    subst old'. assert (exists o, Z.land old 7 = Z.land o 7) as Ho by (by exists old).
    destruct four, z as [|z0 [|]]; try done.
    + pose proof (handler_inside true q2 cap [s; x] y s [x; y] (Z.land old 7) Hq2 ltac:(simpl; lia) Hy eq_refl H3) as Hd.
      destruct (pic_ps2_IRQHandlerM _ q2 _ y) as [[q3 b3] c3].
      destruct Hd as (Hq3 & -> & ->); [simpl; lia|]. cbn [app mouse_run] in *.
      apply Forall_cons in Hz as [Hz _].
      pose proof (handler_last true q3 cap [s; x; y] z0 s x y [z0] _ Hq3 ltac:(simpl; lia) Hz eq_refl eq_refl
        ltac:(by repeat first [apply Forall_nil_2|apply Forall_cons_2]) H3 Ho) as Hd.
      destruct (pic_ps2_IRQHandlerM _ q3 _ z0) as [[q4 b4] c4]. destruct Hd as (? & -> & ->).
      by rewrite app_nil_r.
    + pose proof (handler_last false q2 cap [s; x] y s x y [] _ Hq2 ltac:(simpl; lia) Hy eq_refl eq_refl
        ltac:(by repeat first [apply Forall_nil_2|apply Forall_cons_2]) H3 Ho) as Hd. cbn [mouse_run].
      destruct (pic_ps2_IRQHandlerM _ q2 _ y) as [[q4 b4] c4]. destruct Hd as (? & -> & ->).
      by rewrite app_nil_r.
  - cbn [mouse_run]. pose proof (handler_stray four q cap b old' Hq ltac:(lia) Hb H3) as Hd.
    destruct (pic_ps2_IRQHandlerM four q old' b) as [[q1 b1] c1]. by destruct Hd as (? & -> & ->).
Qed.
Lemma mouse_run_app {B} `{ByteQueue B} four (q : B) buttons bs bs' :
  mouse_run four q buttons (bs ++ bs') =
  let '(q, buttons, c) := mouse_run four q buttons bs in
  let '(q, buttons, c') := mouse_run four q buttons bs' in (q, buttons, c ++ c').
Proof.
  revert q buttons. induction bs as [|b bs IH]; intros q buttons; cbn [mouse_run app].
  { by destruct (mouse_run four q buttons bs') as [[??]?]. }
  destruct (pic_ps2_IRQHandlerM four q buttons b) as [[q1 b1] c1]. rewrite IH.
  destruct (mouse_run four q1 b1 bs) as [[q2 b2] c2].
  destruct (mouse_run four q2 b2 bs') as [[q3 b3] c3]. by rewrite app_assoc.
Qed.

(** C24. The mouse interrupt turns any stream of packets, with stray bytes
    between them, into one movement per packet (9-bit two's complement, the
    vertical axis negated) and a press or release for each button whose bit
    changed, and leaves the queue empty: for three- and four-byte mice and every
    byte queue of capacity 4 or more. *)
Theorem pic_ps2_mouse_correct {B} `{ByteQueue B} four (q : B) cap old bytes calls new :
  holds q cap [] -> 4 <= cap -> mouse_stream four (Z.land old 7) bytes calls new ->
  let '(q', buttons', calls') := mouse_run four q (Z.land old 7) bytes in
  holds q' cap [] /\ buttons' = new /\ calls' = calls.
Proof.
  intros Hq Hcap Hs. remember (Z.land old 7) as o eqn:Eo.
  assert (exists x, o = Z.land x 7) as Ho by (by exists old). clear old Eo. revert q Hq Ho.
  induction Hs as [o|o bs cs mid bs' cs' new Hu _ IH]; intros q Hq [x ->]; [done|].
  rewrite mouse_run_app. pose proof (mouse_unit_run four q cap x bs cs mid Hq Hcap Hu) as H1.
  destruct (mouse_run four q (Z.land x 7) bs) as [[q1 b1] c1]. destruct H1 as (Hq1 & -> & ->).
  assert (exists x, mid = Z.land x 7) as Ho by (inversion Hu; eauto).
  specialize (IH q1 Hq1 Ho). destruct (mouse_run four q1 mid bs') as [[q2 b2] c2].
  by destruct IH as (? & -> & ->).
Qed.

(** ** Witnesses, on the ring buffer *)

Definition demo_bytes : ring_bytes := (queue_InitBuffered 1000 16, fun _ => 0).
Lemma demo_bytes_holds : holds demo_bytes 16 [].
Proof. split_and!; [by apply queue_Init_wf|done|done]. Qed.
Lemma pic_ps2_keyboard_unknown_witness : (keyboard_run 7 demo_bytes [0x55]).2 = [CPressKey (-1)].
Proof. apply (pic_ps2_keyboard_unknown 7 demo_bytes 16); [apply demo_bytes_holds|lia|lia]. Defined.
Lemma pic_ps2_keyboard_stuck_witness :
  (keyboard_run 7 demo_bytes [0xff; 0x1d; 0x9d; 0x1e]).2 = [].
Proof. apply (pic_ps2_keyboard_stuck 7 demo_bytes 16); [unfold dead_byte; lia|apply demo_bytes_holds|lia]. Defined.
Lemma pic_ps2_mouse_correct_witness :
  (mouse_run false demo_bytes 0 [0x00; 0x39; 0xfe; 0x05; 0x08; 0x01; 0x02]).2 =
  [CMoveMouse (-2) 251; CPressMouse input_MouseButton_Left;
   CMoveMouse 1 (-2); CReleaseMouse input_MouseButton_Left].
Proof.
  assert (mouse_stream false (Z.land 0 7) [0x00; 0x39; 0xfe; 0x05; 0x08; 0x01; 0x02]
    [CMoveMouse (-2) 251; CPressMouse input_MouseButton_Left;
     CMoveMouse 1 (-2); CReleaseMouse input_MouseButton_Left] 0) as Hs.
  { apply (ms_cons _ _ [0x00] [] 0 [0x39; 0xfe; 0x05; 0x08; 0x01; 0x02]).
    { by apply mu_stray. }
    apply (ms_cons _ _ [0x39; 0xfe; 0x05]
      [CMoveMouse (-2) 251; CPressMouse input_MouseButton_Left] 1 [0x08; 0x01; 0x02]).
    { by apply (mu_packet false 0 0x39 0xfe 0x05 []). }
    apply (ms_cons _ _ [0x08; 0x01; 0x02]
      [CMoveMouse 1 (-2); CReleaseMouse input_MouseButton_Left] 0 []).
    { by apply (mu_packet false 1 0x08 0x01 0x02 []). }
    apply ms_nil. }
  pose proof (pic_ps2_mouse_correct false demo_bytes 16 0 _ _ _ demo_bytes_holds ltac:(lia) Hs) as Hp.
  change (Z.land 0 7) with 0 in Hp. destruct (mouse_run false demo_bytes 0 _) as [[q' b'] cs]. apply Hp.
Defined.

