(* ===== verification/Unicode.v ===== *)
(** * UTF-8 (src/runtime/unicode.c, unicode.h)

    Decoding one character from a buffer and encoding one codepoint into a
    buffer.  Buffers are addresses in the machine memory. *)

From S2P Require Import Prelude Mem.

Definition HELOS_UNICODE_ERROR : Z := 0xfffd.
Definition HELOS_UNICODE_MAX : Z := 0x10ffff.
Definition HELOS_UTF8_CONTINUATION_MIN : Z := 0xc0.
Definition HELOS_UTF8_OVERLONG_LEADER_2 : Z := 0xc1.
Definition HELOS_UTF8_INVALID_LEADER_MIN : Z := 0xf5.
Definition HELOS_UTF8_INVALID_LEADER_MAX : Z := 0xff.

(** The tables [trailing], [offsets] and [firstBytes]. *)
Definition trailing : list Z :=
  replicate 192 0 ++ replicate 32 1 ++ replicate 16 2 ++ replicate 8 3 ++ replicate 4 4 ++ replicate 4 5.
Definition offsets : list Z := [0x00000000; 0x00003080; 0x000E2080; 0x03C82080; 0xFA082080; 0x82082080].
Definition firstBytes : list Z := [0x00; 0x00; 0xC0; 0xE0; 0xF0; 0xF8; 0xFC].
Definition at_ (l : list Z) (i : Z) : Z := nth (Z.to_nat i) l 0.

(** The fall-through switch of [utf8_Decode], entered at case [k]. *)
Fixpoint decode_switch (k : nat) (m : mem) (utf8 output : Z) : Z :=
  match k with
  | O => u32 (output + load8 m utf8)
  | S k => decode_switch k m (utf8 + 1) (u32 (Z.shiftl (u32 (output + load8 m utf8)) 6))
  end.

(** Bytes advanced, and the codepoint stored when the pointer is not NULL. *)
Definition utf8_Decode (m : mem) (utf8 len : Z) : Z * Z :=
  let first := load8 m utf8 in
  let trailingBytes := at_ trailing first in
  if (HELOS_UTF8_CONTINUATION_MIN <=? first) && (first <=? HELOS_UTF8_OVERLONG_LEADER_2)
     || (HELOS_UTF8_INVALID_LEADER_MIN <=? first) && (first <=? HELOS_UTF8_INVALID_LEADER_MAX)
     || (len <? u64 (trailingBytes + 1))
  then (1, HELOS_UNICODE_ERROR)
  else (trailingBytes + 1,
        u32 (decode_switch (Z.to_nat trailingBytes) m utf8 0 - at_ offsets trailingBytes)).

Definition utf8_EncodeLength (codepoint : Z) : Z :=
  if codepoint <=? 0x007f then 1
  else if codepoint <=? 0x07ff then 2
  else if codepoint <=? 0xffff then 3
  else if codepoint <=? 0x10ffff then 4
  else 0.

(** The fall-through switch of [utf8_Encode], entered at case [S k]. *)
Fixpoint encode_switch (k : nat) (len : Z) (m : mem) (utf8 codepoint : Z) : mem :=
  match k with
  | O => store8 m utf8 (Z.lor codepoint (at_ firstBytes len))
  | S k' => encode_switch k' len (store8 m (utf8 + Z.of_nat k) (Z.land (Z.lor codepoint 0x80) 0xBF))
              utf8 (Z.shiftr codepoint 6)
  end.
Definition utf8_Encode (m : mem) (utf8 codepoint : Z) : Z * mem :=
  let codepoint := if HELOS_UNICODE_MAX <? codepoint then HELOS_UNICODE_ERROR else codepoint in
  let len := utf8_EncodeLength codepoint in
  (len, encode_switch (Z.to_nat (len - 1)) len m utf8 codepoint).

(** Strings: encoding codepoints one after the other, and the loop every
    caller of [utf8_Decode] runs over a buffer. *)
Fixpoint encode_string (m : mem) (utf8 : Z) (cs : list Z) : Z * mem :=
  match cs with
  | [] => (utf8, m)
  | c :: cs => let '(n, m) := utf8_Encode m utf8 c in encode_string m (utf8 + n) cs
  end.
Fixpoint decode_string (fuel : nat) (m : mem) (utf8 len : Z) : list Z :=
  match fuel with
  | O => []
  | S fuel => if 0 <? len
              then let '(n, c) := utf8_Decode m utf8 len in
                   c :: decode_string fuel m (utf8 + n) (len - n)
              else []
  end.

(** ** Lemmas *)

(** The low six bits, marked as a continuation byte. *)
Lemma continuation_byte c : 0 <= c -> u8 (Z.land (Z.lor c 0x80) 0xBF) = 128 + c mod 64.
Proof.
  intros Hc. assert (Z.land (Z.lor c 128) 191 = Z.land (Z.lor (c mod 256) 128) 191) as ->.
  { change 256 with (2 ^ 8). rewrite <- Z.land_ones by lia.
    change (Z.lor c 128 .& 191)%helos with (Z.land (Z.lor c 128) (Z.land 191 (Z.ones 8))).
    rewrite (Z.land_comm 191), Z.land_assoc, Z.land_lor_distr_l. done. }
  assert (c mod 64 = (c mod 256) mod 64) as -> by lia.
  assert (0 <= c mod 256 < 256) as Hr by lia. generalize dependent (c mod 256). clear. intros x Hx.
  assert (forallb (fun x => u8 (Z.land (Z.lor x 128) 191) =? 128 + x mod 64) (seqZ 0 256) = true) as Hf
    by (by vm_compute).
  rewrite forallb_forall in Hf. apply Z.eqb_eq, Hf, list_elem_of_In, elem_of_seqZ. lia.
Qed.
(** A leader byte: the payload and the mark do not overlap. *)
Lemma leader_byte x len :
  0 <= x -> (len, x) ∈ (pair 1 <$> seqZ 0 128) ++ (pair 2 <$> seqZ 0 32) ++ (pair 3 <$> seqZ 0 16) ++ (pair 4 <$> seqZ 0 8) ->
  u8 (Z.lor x (at_ firstBytes len)) = x + at_ firstBytes len.
Proof.
  intros Hx Hin.
  assert (forallb (fun '(len, x) => u8 (Z.lor x (at_ firstBytes len)) =? x + at_ firstBytes len)
    ((pair 1 <$> seqZ 0 128) ++ (pair 2 <$> seqZ 0 32) ++ (pair 3 <$> seqZ 0 16) ++ (pair 4 <$> seqZ 0 8)) = true) as Hf
    by (by vm_compute).
  rewrite forallb_forall in Hf. apply list_elem_of_In in Hin. apply Hf in Hin. by zbool.
Qed.

(** What [utf8_Encode] writes: the bytes of the encoding. *)
Definition utf8_bytes (c : Z) : list Z :=
  if c <=? 0x7f then [c]
  else if c <=? 0x7ff then [192 + c / 64; 128 + c mod 64]
  else if c <=? 0xffff then [224 + c / 4096; 128 + c / 64 mod 64; 128 + c mod 64]
  else [240 + c / 262144; 128 + c / 4096 mod 64; 128 + c / 64 mod 64; 128 + c mod 64].
Definition codepoint_ok (c : Z) : Prop := 0 <= c <= HELOS_UNICODE_MAX.

Lemma shiftr6 c : Z.shiftr c 6 = c / 64.
Proof. by rewrite Z.shiftr_div_pow2. Qed.
Fixpoint enc_list (k : nat) (len c : Z) : list Z :=
  match k with
  | O => [u8 (Z.lor c (at_ firstBytes len))]
  | S k => enc_list k len (c / 64) ++ [128 + c mod 64]
  end.
Lemma encode_switch_spec k len m p c :
  0 <= c ->
  bytes (encode_switch k len m p c) p (Z.of_nat k + 1) = enc_list k len c /\
  same_outside p (Z.of_nat k + 1) m (encode_switch k len m p c).
Proof.
  revert m c. induction k as [|k IH]; intros m c Hc.
  - cbn [encode_switch enc_list]. change (Z.of_nat 0 + 1) with 1. rewrite bytes_1, load8_store8_eq.
    split; [done|]. apply same_outside_store8. lia.
  - cbn [encode_switch enc_list]. rewrite shiftr6.
    set (m1 := store8 m (p + Z.of_nat (S k)) _).
    destruct (IH m1 (c / 64) ltac:(lia)) as [IH1 IH2]. rewrite <- IH1.
    replace (Z.of_nat (S k) + 1) with (Z.of_nat k + 1 + 1) by lia.
    rewrite bytes_app, bytes_1 by lia. split.
    + do 2 f_equal. unfold load8. rewrite IH2 by lia. subst m1.
      fold (load8 (store8 m (p + Z.of_nat (S k)) (Z.land (Z.lor c 128) 191)) (p + (Z.of_nat k + 1))).
      replace (p + (Z.of_nat k + 1)) with (p + Z.of_nat (S k)) by lia.
      by rewrite load8_store8_eq, continuation_byte.
    + eapply same_outside_trans with (m2 := m1); [apply same_outside_store8; lia|].
      eapply same_outside_weaken; [| |exact IH2]; lia.
Qed.
Lemma utf8_Encode_spec m p c :
  codepoint_ok c ->
  let '(n, m') := utf8_Encode m p c in
  n = Z.of_nat (length (utf8_bytes c)) /\ bytes m' p n = utf8_bytes c /\ same_outside p n m m'.
Proof.
  unfold codepoint_ok, HELOS_UNICODE_MAX. intros Hc.
  assert (forall len x, 0 <= x -> (len = 1 /\ x < 128 \/ len = 2 /\ x < 32 \/ len = 3 /\ x < 16 \/ len = 4 /\ x < 8) ->
    u8 (Z.lor x (at_ firstBytes len)) = x + at_ firstBytes len) as Hl.
  { intros len x H0 H1. apply leader_byte; [done|].
    rewrite !elem_of_app, !list_elem_of_fmap.
    destruct H1 as [[-> ?]|[[-> ?]|[[-> ?]|[-> ?]]]]; [left|right; left|right; right; left|right; right; right];
      (exists x; split; [done|apply elem_of_seqZ; lia]). }
  unfold utf8_Encode, HELOS_UNICODE_MAX. rewrite (proj2 (Z.ltb_ge _ _)) by lia.
  set (len := utf8_EncodeLength c).
  assert (enc_list (Z.to_nat (len - 1)) len c = utf8_bytes c /\ 0 < len <= 4 /\
    len = Z.of_nat (length (utf8_bytes c))) as (He & Hlen & Hn).
  { subst len. unfold utf8_EncodeLength, utf8_bytes. repeat (zcase; [|]); try lia; (split; [|done]);
      match goal with |- enc_list (Z.to_nat ?n) _ _ = _ =>
        let k := eval vm_compute in (Z.to_nat n) in change (Z.to_nat n) with k end;
      cbn [enc_list app]; rewrite Hl by lia;
      change (at_ firstBytes 1) with 0; change (at_ firstBytes 2) with 192;
      change (at_ firstBytes 3) with 224; change (at_ firstBytes 4) with 240;
      rewrite ?Z.div_div by lia; change (64 * (64 * 64)) with 262144; change (64 * 64) with 4096;
      f_equal; lia. }
  destruct (encode_switch_spec (Z.to_nat (len - 1)) len m p c ltac:(lia)) as [E1 E2].
  replace (Z.of_nat (Z.to_nat (len - 1)) + 1) with len in * by lia.
  rewrite E1, He. done.
Qed.

Lemma trailing_at b :
  0 <= b < 256 -> at_ trailing b =
    if b <? 192 then 0 else if b <? 224 then 1 else if b <? 240 then 2 else if b <? 248 then 3
    else if b <? 252 then 4 else 5.
Proof.
  intros Hb.
  assert (forallb (fun b => at_ trailing b =? if b <? 192 then 0 else if b <? 224 then 1 else
    if b <? 240 then 2 else if b <? 248 then 3 else if b <? 252 then 4 else 5) (seqZ 0 256) = true) as Hf
    by (by vm_compute).
  rewrite forallb_forall in Hf. apply Z.eqb_eq, Hf, list_elem_of_In, elem_of_seqZ. lia.
Qed.

Lemma bytes_lookup m p n l i :
  bytes m p n = l -> (0 <= i < n) -> load8 m (p + i) = nth (Z.to_nat i) l 0.
Proof.
  intros <- Hi. symmetry. apply nth_lookup_Some. unfold bytes.
  by rewrite lookup_tab, Z2Nat.id by lia.
Qed.
Lemma shiftl6 x : Z.shiftl x 6 = x * 64.
Proof. by rewrite Z.shiftl_mul_pow2. Qed.
(** Decoding with an acceptable leader. *)
Lemma utf8_Decode_accept m p len k :
  (192 <= load8 m p <= 193 \/ 245 <= load8 m p -> False) ->
  at_ trailing (load8 m p) = Z.of_nat k -> Z.of_nat k < len -> Z.of_nat k < 4 ->
  utf8_Decode m p len = (Z.of_nat k + 1, u32 (decode_switch k m p 0 - at_ offsets (Z.of_nat k))).
Proof.
  intros Hf Ht Hk H4. unfold utf8_Decode, HELOS_UTF8_CONTINUATION_MIN, HELOS_UTF8_OVERLONG_LEADER_2,
    HELOS_UTF8_INVALID_LEADER_MIN, HELOS_UTF8_INVALID_LEADER_MAX.
  rewrite Ht, (u64_small (Z.of_nat k + 1)), Nat2Z.id by lia.
  destruct (Z.leb_spec 192 (load8 m p)), (Z.leb_spec (load8 m p) 193), (Z.leb_spec 245 (load8 m p)),
    (Z.leb_spec (load8 m p) 255), (Z.ltb_spec len (Z.of_nat k + 1)); simpl; try lia; done.
Qed.
Lemma utf8_Decode_spec m p c len :
  codepoint_ok c -> Z.of_nat (length (utf8_bytes c)) <= len ->
  bytes m p (Z.of_nat (length (utf8_bytes c))) = utf8_bytes c ->
  utf8_Decode m p len = (Z.of_nat (length (utf8_bytes c)), c).
Proof.
  unfold codepoint_ok, HELOS_UNICODE_MAX. intros Hc Hlen Hb.
  pose proof (fun i => bytes_lookup m p _ _ i Hb) as Hi. clear Hb. revert Hlen Hi. unfold utf8_bytes.
  pose proof (trailing_at (load8 m p) (load8_range m p)) as Ht.
  destruct (Z.leb_spec c 127); [|destruct (Z.leb_spec c 2047); [|destruct (Z.leb_spec c 65535)]];
    cbn [length]; intros Hlen Hi;
    pose proof (Hi 0 ltac:(lia)) as Hz; rewrite Z.add_0_r in Hz; cbv [nth Z.to_nat Pos.to_nat Pos.iter_op Nat.add] in Hz.
  - rewrite (utf8_Decode_accept m p len 0); rewrite ?Ht, ?Hz; try lia.
    2: repeat (zcase; try lia).
    f_equal. cbn [decode_switch]. rewrite Hz. change (at_ offsets (Z.of_nat 0)) with 0. word_lia.
  - rewrite (utf8_Decode_accept m p len 1); rewrite ?Ht, ?Hz; try lia.
    2: repeat (zcase; try lia).
    pose proof (Hi 1 ltac:(lia)) as Hb1. cbv [nth Z.to_nat Pos.to_nat Pos.iter_op Nat.add] in Hb1.
    f_equal. cbn [decode_switch]. rewrite Hz, Hb1, shiftl6. change (at_ offsets (Z.of_nat 1)) with 12416. word_lia.
  - rewrite (utf8_Decode_accept m p len 2); rewrite ?Ht, ?Hz; try lia.
    2: repeat (zcase; try lia).
    pose proof (Hi 1 ltac:(lia)) as Hb1. pose proof (Hi 2 ltac:(lia)) as Hb2.
    cbv [nth Z.to_nat Pos.to_nat Pos.iter_op Nat.add] in Hb1, Hb2. replace (p + 2) with (p + 1 + 1) in Hb2 by lia.
    f_equal. cbn [decode_switch]. rewrite Hz, Hb1, Hb2, !shiftl6. change (at_ offsets (Z.of_nat 2)) with 925824. word_lia.
  - rewrite (utf8_Decode_accept m p len 3); rewrite ?Ht, ?Hz; try lia.
    2: repeat (zcase; try lia).
    pose proof (Hi 1 ltac:(lia)) as Hb1. pose proof (Hi 2 ltac:(lia)) as Hb2. pose proof (Hi 3 ltac:(lia)) as Hb3.
    cbv [nth Z.to_nat Pos.to_nat Pos.iter_op Nat.add] in Hb1, Hb2, Hb3.
    replace (p + 2) with (p + 1 + 1) in Hb2 by lia. replace (p + 3) with (p + 1 + 1 + 1) in Hb3 by lia.
    f_equal. cbn [decode_switch]. rewrite Hz, Hb1, Hb2, Hb3, !shiftl6.
    change (at_ offsets (Z.of_nat 3)) with 63447168. word_lia.
Qed.

(** The whole string written by [encode_string]. *)
Definition string_bytes (cs : list Z) : list Z := mjoin (utf8_bytes <$> cs).
Lemma string_bytes_cons c cs : string_bytes (c :: cs) = utf8_bytes c ++ string_bytes cs.
Proof. done. Qed.
Lemma utf8_bytes_length c : (1 <= length (utf8_bytes c) <= 4)%nat.
Proof. unfold utf8_bytes. repeat case_match; simpl; lia. Qed.
Lemma encode_string_spec m p cs :
  Forall codepoint_ok cs ->
  let '(e, m') := encode_string m p cs in
  e = p + Z.of_nat (length (string_bytes cs)) /\
  bytes m' p (Z.of_nat (length (string_bytes cs))) = string_bytes cs /\
  same_outside p (Z.of_nat (length (string_bytes cs))) m m'.
Proof.
  intros Hc. revert m p. induction Hc as [|c cs Hc _ IH]; intros m p.
  { cbn. split_and!; [lia|done|done]. }
  cbn [encode_string]. pose proof (utf8_Encode_spec m p c Hc) as He.
  destruct (utf8_Encode m p c) as [n m1]. destruct He as (-> & Hb & Ho).
  specialize (IH m1 (p + Z.of_nat (length (utf8_bytes c)))).
  destruct (encode_string m1 _ cs) as [e m2]. destruct IH as (-> & Hb2 & Ho2).
  rewrite string_bytes_cons, length_app, Nat2Z.inj_add. split_and!.
  - lia.
  - rewrite bytes_app, Hb2 by lia. f_equal.
    rewrite (bytes_same _ _ _ _ _ _ Ho2); [done|lia].
  - eapply same_outside_trans; eapply same_outside_weaken; [| |exact Ho| | |exact Ho2]; lia.
Qed.
Lemma decode_string_spec m p cs fuel :
  Forall codepoint_ok cs -> (length cs <= fuel)%nat ->
  bytes m p (Z.of_nat (length (string_bytes cs))) = string_bytes cs ->
  decode_string fuel m p (Z.of_nat (length (string_bytes cs))) = cs.
Proof.
  intros Hc. revert p fuel. induction Hc as [|c cs Hc _ IH]; intros p fuel Hf Hb; [by destruct fuel|].
  destruct fuel as [|fuel]; [simpl in Hf; lia|]. cbn [decode_string].
  rewrite string_bytes_cons, length_app, Nat2Z.inj_add in *.
  pose proof (utf8_bytes_length c). rewrite (proj2 (Z.ltb_lt _ _)) by lia.
  rewrite bytes_app in Hb by lia. apply app_inj_1 in Hb as [Hb1 Hb2]; [|rewrite length_bytes; lia].
  rewrite (utf8_Decode_spec m p c) by (done || lia). f_equal.
  replace (Z.of_nat (length (utf8_bytes c)) + Z.of_nat (length (string_bytes cs)) - Z.of_nat (length (utf8_bytes c)))
    with (Z.of_nat (length (string_bytes cs))) by lia.
  apply IH; [simpl in Hf; lia|done].
Qed.

(** ** Properties *)

(** C28. UTF-8 round trip: encoding any string of codepoints up to U+10FFFF into
    a buffer and decoding the buffer gives the string back, one codepoint per
    [utf8_Decode]; the encoder writes [utf8_EncodeLength] bytes per codepoint
    and nothing outside them. *)
Theorem utf8_roundtrip m p cs :
  Forall codepoint_ok cs ->
  let '(e, m') := encode_string m p cs in
  decode_string (length cs) m' p (e - p) = cs /\
  e - p = foldr (fun c n => utf8_EncodeLength c + n) 0 cs /\
  same_outside p (e - p) m m'.
Proof.
  intros Hc. pose proof (encode_string_spec m p cs Hc) as He.
  destruct (encode_string m p cs) as [e m']. destruct He as (-> & Hb & Ho).
  replace (p + Z.of_nat (length (string_bytes cs)) - p) with (Z.of_nat (length (string_bytes cs))) by lia.
  split_and!; [by apply decode_string_spec| |done].
  clear -Hc. induction Hc as [|c cs Hc _ IH]; [done|].
  rewrite string_bytes_cons, length_app, Nat2Z.inj_add, IH. cbn [foldr]. f_equal.
  unfold codepoint_ok, HELOS_UNICODE_MAX in Hc. unfold utf8_bytes, utf8_EncodeLength.
  repeat case_match; zbool; simpl; lia.
Qed.
Lemma utf8_roundtrip_witness :
  let '(e, m') := encode_string (fun _ => 0) 1000 [0x24; 0x5929; 0x1f600; 0xe9] in
  decode_string 4 m' 1000 (e - 1000) = [0x24; 0x5929; 0x1f600; 0xe9] /\ e - 1000 = 10.
Proof.
  pose proof (utf8_roundtrip (fun _ => 0) 1000 [0x24; 0x5929; 0x1f600; 0xe9]
    ltac:(repeat first [apply Forall_nil_2|apply Forall_cons_2; [unfold codepoint_ok, HELOS_UNICODE_MAX; lia|]])) as Hr.
  destruct (encode_string (fun _ => 0) 1000 [0x24; 0x5929; 0x1f600; 0xe9]) as [e m'].
  destruct Hr as (H1 & H2 & _). split; [exact H1|exact H2].
Defined.

(** On any bytes [utf8_Decode] advances by one to four bytes and never past
    the end; it gives the replacement character after a first byte that is not
    a leader (0xC0, 0xC1, 0xF5 and above) or when the sequence is cut short. *)
Theorem utf8_Decode_advance m p len :
  0 < len ->
  let '(n, c) := utf8_Decode m p len in
  1 <= n <= 4 /\ n <= len /\ 0 <= c < 2 ^ 32 /\
  (load8 m p = 0xc0 \/ load8 m p = 0xc1 \/ 0xf5 <= load8 m p \/ len <= at_ trailing (load8 m p) ->
   n = 1 /\ c = HELOS_UNICODE_ERROR).
Proof.
  intros Hlen. pose proof (load8_range m p) as Hr. pose proof (trailing_at _ Hr) as Ht.
  unfold utf8_Decode, HELOS_UTF8_CONTINUATION_MIN, HELOS_UTF8_OVERLONG_LEADER_2,
    HELOS_UTF8_INVALID_LEADER_MIN, HELOS_UTF8_INVALID_LEADER_MAX, HELOS_UNICODE_ERROR.
  assert (0 <= at_ trailing (load8 m p) <= 5) as H5 by (rewrite Ht; repeat case_match; lia).
  rewrite (u64_small (_ + 1)) by lia.
  destruct (_ || (len <? _)) eqn:E.
  - change (2 ^ 32) with 4294967296. split_and!; lia || done.
  - assert (load8 m p < 245 /\ at_ trailing (load8 m p) + 1 <= len /\
      (load8 m p < 192 \/ 193 < load8 m p)) as (H245 & Hl & Hc).
    { destruct (Z.leb_spec 192 (load8 m p)), (Z.leb_spec (load8 m p) 193),
        (Z.leb_spec 245 (load8 m p)), (Z.leb_spec (load8 m p) 255); simpl in E; try done; zbool; lia. }
    split_and!; try apply u32_range; try lia.
    rewrite Ht. repeat (zcase; try lia).
Qed.
Lemma utf8_Decode_advance_witness :
  utf8_Decode (fun _ => 0xf5) 0 5 = (1, HELOS_UNICODE_ERROR).
Proof.
  pose proof (utf8_Decode_advance (fun _ => 0xf5) 0 5 ltac:(lia)) as Hd.
  destruct (utf8_Decode (fun _ => 0xf5) 0 5) as [n c]. destruct Hd as (_ & _ & _ & Hd).
  destruct Hd as [-> ->]; [|done]. right; right; left. by vm_compute.
Defined.

(** A stray continuation byte (0x80 to 0xBF) is taken as a character of its
    own, although it is no valid sequence. *)
Lemma utf8_Decode_stray m p len :
  0 < len -> 0x80 <= load8 m p < 0xc0 -> utf8_Decode m p len = (1, load8 m p).
Proof.
  intros Hlen Hb. pose proof (trailing_at _ (load8_range m p)) as Ht.
  rewrite (proj2 (Z.ltb_lt _ _)) in Ht by lia.
  rewrite (utf8_Decode_accept m p len 0) by (rewrite ?Ht; lia).
  f_equal. cbn [decode_switch]. change (at_ offsets (Z.of_nat 0)) with 0. word_lia.
Qed.
