(* ===== verification/Alloc.v ===== *)
(** * The kernel allocator as an interface

    [kMalloc] and [kFree] (src/memory/memory.c) call the third-party dlmalloc.
    What their callers rely on is the documented behaviour of malloc and free:
    blocks that do not overlap, that keep their contents until they are freed,
    and no writes outside the allocator's own memory.  [bump] is an instance. *)

From S2P Require Import Prelude Mem.

(** Two address ranges that do not overlap. *)
Definition apart (a n b k : Z) : Prop := a + n <= b \/ b + k <= a.

Class Allocator (H : Type) := {
  kMalloc : H -> mem -> Z -> Z * H * mem;
  kFree : H -> mem -> Z -> H * mem;
  al_blocks : H -> gmap Z Z;      (* address and size of every live block *)
  al_own : H -> Z -> Prop;        (* free space and bookkeeping *)
  al_room : H -> Z -> Prop;       (* a block of this size can be had *)
  al_ok : H -> Prop;
  al_live : forall h a k, al_ok h -> al_blocks h !! a = Some k ->
    0 < a /\ 0 <= k /\ a + k < 2 ^ 64 /\ (forall x, a <= x < a + k -> ~ al_own h x);
  al_apart : forall h a k b l, al_ok h -> al_blocks h !! a = Some k ->
    al_blocks h !! b = Some l -> a <> b -> apart a k b l;
  kMalloc_law : forall h m n, al_ok h -> al_room h n -> 0 <= n ->
    let '(p, h', m') := kMalloc h m n in
    al_ok h' /\ al_blocks h !! p = None /\ al_blocks h' = <[p := n]> (al_blocks h) /\
    (forall x, p <= x < p + n -> al_own h x) /\
    (forall x, al_own h' x -> al_own h x) /\ (forall x, ~ al_own h x -> m' x = m x);
  kFree_law : forall h m p n, al_ok h -> al_blocks h !! p = Some n ->
    let '(h', m') := kFree h m p in
    al_ok h' /\ al_blocks h' = delete p (al_blocks h) /\
    (forall x, al_own h' x -> al_own h x \/ p <= x < p + n) /\
    (forall x, ~ al_own h x -> ~ (p <= x < p + n) -> m' x = m x);
}.

Section Lemmas.
Context {H : Type} `{Allocator H}.
Implicit Types h : H.

(** A new block is apart from memory the allocator does not own. *)
Lemma own_apart h p n a k :
  (forall x, p <= x < p + n -> al_own h x) -> (forall x, a <= x < a + k -> ~ al_own h x) ->
  0 < n -> 0 < k -> apart p n a k.
Proof.
  intros Hp Ha Hn Hk. unfold apart.
  destruct (Z.le_gt_cases (p + n) a); [by left|]. destruct (Z.le_gt_cases (a + k) p); [by right|].
  exfalso. apply (Ha (Z.max p a)); [lia|]. apply Hp. lia.
Qed.
(** Memory the allocator does not own keeps its bytes over an allocation. *)
Lemma kMalloc_bytes h m n a k :
  al_ok h -> al_room h n -> 0 <= n -> (forall x, a <= x < a + k -> ~ al_own h x) ->
  bytes (kMalloc h m n).2 a k = bytes m a k.
Proof.
  intros Hok Hr Hn Ha. pose proof (kMalloc_law h m n Hok Hr Hn) as Hl.
  destruct (kMalloc h m n) as [[p h'] m']. destruct Hl as (_ & _ & _ & _ & _ & Hm).
  apply bytes_ext. intros x Hx. by apply Hm, Ha.
Qed.
End Lemmas.

(** ** An instance: blocks are handed out upward and never reused *)

Record bump := mk_bump { b_next : Z; b_blocks : gmap Z Z }.
Definition bump_alloc (h : bump) (m : mem) (n : Z) : Z * bump * mem :=
  (b_next h, mk_bump (b_next h + Z.max n 1) (<[b_next h := n]> (b_blocks h)), m).
Definition bump_free (h : bump) (m : mem) (p : Z) : bump * mem :=
  (mk_bump (b_next h) (delete p (b_blocks h)), m).
Record bump_ok (h : bump) : Prop := {
  bok_next : 0 < b_next h;
  bok_live : forall a k, b_blocks h !! a = Some k ->
    0 < a /\ 0 <= k /\ a + k < 2 ^ 64 /\ a + Z.max k 1 <= b_next h;
  bok_apart : forall a k b l, b_blocks h !! a = Some k -> b_blocks h !! b = Some l ->
    a <> b -> apart a k b l;
}.

Lemma bump_alloc_ok h m n :
  bump_ok h -> b_next h + Z.max n 1 < 2 ^ 64 -> 0 <= n -> bump_ok (bump_alloc h m n).1.2.
Proof.
  intros [Hn Hl Ha] Hr H0. change (2 ^ 64) with 18446744073709551616 in *.
  split; cbn [bump_alloc fst snd b_next b_blocks]; [lia| |].
  - intros a k Hk. apply lookup_insert_Some in Hk as [[<- <-]|[? Hk]]; [lia|].
    pose proof (Hl _ _ Hk) as Hk'. change (2 ^ 64) with 18446744073709551616 in *. lia.
  - intros a k b l Hk Hb Hne. unfold apart in *.
    apply lookup_insert_Some in Hk as [[<- <-]|[? Hk]];
      apply lookup_insert_Some in Hb as [[<- <-]|[? Hb]].
    + done.
    + pose proof (Hl _ _ Hb). lia.
    + pose proof (Hl _ _ Hk). lia.
    + by apply (Ha a k b l).
Qed.
Lemma bump_alloc_law h m n :
  bump_ok h -> b_next h + Z.max n 1 < 2 ^ 64 -> 0 <= n ->
  let '(p, h', m') := bump_alloc h m n in
  bump_ok h' /\ b_blocks h !! p = None /\ b_blocks h' = <[p := n]> (b_blocks h) /\
  (forall x, p <= x < p + n -> b_next h <= x) /\
  (forall x, b_next h' <= x -> b_next h <= x) /\ (forall x, ~ b_next h <= x -> m' x = m x).
Proof.
  intros Hok Hr H0. pose proof (bump_alloc_ok h m n Hok Hr H0) as Hok'. destruct Hok as [Hn Hl Ha].
  cbn [bump_alloc fst snd b_next b_blocks] in *. split_and!; [done| |done|lia|lia|done].
  destruct (b_blocks h !! b_next h) as [k|] eqn:E; [|done]. apply Hl in E. lia.
Qed.
Lemma bump_free_law h m p n :
  bump_ok h -> b_blocks h !! p = Some n ->
  let '(h', m') := bump_free h m p in
  bump_ok h' /\ b_blocks h' = delete p (b_blocks h) /\
  (forall x, b_next h' <= x -> b_next h <= x \/ p <= x < p + n) /\
  (forall x, ~ b_next h <= x -> ~ (p <= x < p + n) -> m' x = m x).
Proof.
  intros [Hn Hl Ha] E. cbn [bump_free b_next b_blocks]. split_and!; [|done|auto|done].
  split; cbn [b_next b_blocks]; [done| |].
  - intros a k Hk. apply lookup_delete_Some in Hk as [_ Hk]. by apply Hl.
  - intros a k b l Hk Hb. apply lookup_delete_Some in Hk as [_ Hk].
    apply lookup_delete_Some in Hb as [_ Hb]. by apply Ha.
Qed.

Lemma bump_live h a k : bump_ok h -> b_blocks h !! a = Some k ->
  0 < a /\ 0 <= k /\ a + k < 2 ^ 64 /\ (forall x, a <= x < a + k -> ~ b_next h <= x).
Proof. intros Hok E. pose proof (bok_live h Hok a k E). split_and!; [lia|lia|lia|intros; lia]. Qed.

#[export] Instance bump_Allocator : Allocator bump :=
  {| kMalloc := bump_alloc; kFree := bump_free; al_blocks := b_blocks;
     al_own := fun h x => b_next h <= x; al_room := fun h n => b_next h + Z.max n 1 < 2 ^ 64;
     al_ok := bump_ok; al_live := bump_live; al_apart := fun h a k b l Hok => bok_apart h Hok a k b l;
     kMalloc_law := bump_alloc_law; kFree_law := bump_free_law |}.
