(* ===== verification/Memcpy.v ===== *)
(** * Copying by words (src/extlib/memcpy.c)

    The kernel's [memcpy] with the configuration the file fixes: little endian,
    array indexes, words of 64 bits.  The destination is aligned byte by byte,
    then whole words are stored; where the source stays unaligned, each word is
    put together from two aligned loads.  [memcpy_correct]: on blocks that are
    apart it is the byte-wise copy [Mem.memcpy] the other files use. *)

From S2P Require Import Prelude Mem Alloc.
Local Open Scope helos_scope.

(** ** The macros *)

(** [INC_VAL(dst8) = INC_VAL(src8)], [n] times. *)
Fixpoint copy_bytes (n : nat) (m : mem) (dst8 src8 : Z) : mem :=
  match n with
  | O => m
  | S n => copy_bytes n (store8 m dst8 (load8 m src8)) (dst8 + 1) (src8 + 1)
  end.
(** The cases of the switch fall through to the next lower one. *)
Definition COPY_REMAINING (count : Z) (m : mem) (dst8 src8 : Z) : mem :=
  if count <=? 7 then copy_bytes (Z.to_nat count) m dst8 src8 else m.

(** The state of the word loops; [srcWord] only with a shift. *)
Record words := mk_words { wm : mem; dstN : Z; srcN : Z; srcWord : Z }.
Definition INC_INDEX (o : Z) (w : words) : words := mk_words (wm w) (dstN w + 8 * o) (srcN w + 8 * o) (srcWord w).
Definition CP_INDEX (idx : Z) (w : words) : words :=
  mk_words (store64 (wm w) (dstN w + 8 * idx) (load64 (wm w) (srcN w + 8 * idx))) (dstN w) (srcN w) (srcWord w).
Definition CP_INCR (w : words) : words := mk_words (store64 (wm w) (dstN w) (load64 (wm w) (srcN w))) (dstN w + 8) (srcN w + 8) (srcWord w).
(** [dstWord]: SHL is [>>] and SHR is [<<] on a little-endian machine. *)
Definition join (shl shr lo hi : Z) : Z := lo .>> shl .| u64 (hi .<< shr).
Definition CP_INDEX_SH (shl shr x : Z) (w : words) : words :=
  let next := load64 (wm w) (srcN w + 8 * x) in
  mk_words (store64 (wm w) (dstN w + 8 * x) (join shl shr (srcWord w) next)) (dstN w) (srcN w) next.
Definition CP_INCR_SH (shl shr : Z) (w : words) : words :=
  let next := load64 (wm w) (srcN w) in
  mk_words (store64 (wm w) (dstN w) (join shl shr (srcWord w) next)) (dstN w + 8) (srcN w + 8) next.

(** [while (length & 7) { incr; length--; }] *)
Fixpoint words_head (fuel : nat) (incr : words -> words) (length : Z) (w : words) : option (Z * words) :=
  match fuel with
  | O => None
  | S fuel => if length .& 7 =? 0 then Some (length, w) else words_head fuel incr (length - 1) (incr w)
  end.
(** [while (length--) { cp(0); ...; cp(7); INC_INDEX(dstN, 8); INC_INDEX(srcN, 8); }] *)
Fixpoint words_blocks (length : nat) (cp : Z -> words -> words) (w : words) : words :=
  match length with
  | O => w
  | S length => words_blocks length cp (INC_INDEX 8 (foldl (fun w i => cp i w) w [0; 1; 2; 3; 4; 5; 6; 7]))
  end.
Definition words_loop (fuel : nat) (incr : words -> words) (cp : Z -> words -> words) (count : Z) (w : words) : option words :=
  '(length, w) ← words_head fuel incr (count / 8) w;
  Some (words_blocks (Z.to_nat (length / 8)) cp w).

Definition COPY_NO_SHIFT (fuel : nat) (count : Z) (m : mem) (dst8 src8 : Z) : option mem :=
  w ← words_loop fuel CP_INCR CP_INDEX count (mk_words m dst8 src8 0);
  Some (COPY_REMAINING (count .& 7) (wm w) (dstN w) (srcN w)).

(** [p & ~(TYPE_WIDTH - 1)] *)
Definition align (p : Z) : Z := p .& 18446744073709551608.
Definition COPY_SHIFT (shift : Z) (fuel : nat) (count : Z) (m : mem) (dst8 src8 : Z) : option mem :=
  let w := mk_words m (align dst8) (align src8 + 8) (load64 m (align src8)) in
  w ← words_loop fuel (CP_INCR_SH (8 * shift) (8 * (8 - shift))) (CP_INDEX_SH (8 * shift) (8 * (8 - shift))) count w;
  Some (COPY_REMAINING (count .& 7) (wm w) (dstN w) (srcN w + (shift - 8))).

(** ** The function *)

(** The byte copies up to an aligned destination. *)
Fixpoint align_loop (fuel : nat) (m : mem) (dst8 src8 count : Z) : option (mem * Z * Z * Z) :=
  match fuel with
  | O => None
  | S fuel =>
      if dst8 .& 7 =? 0 then Some (m, dst8, src8, count)
      else align_loop fuel (store8 m dst8 (load8 m src8)) (dst8 + 1) (src8 + 1) (count - 1)
  end.
Definition memcpy (fuel : nat) (m : mem) (dest src count : Z) : option mem :=
  if count <? 8 then Some (COPY_REMAINING count m dest src)
  else
    '(m, dst8, src8, count) ← align_loop fuel m dest src count;
    let shift := src8 .& 7 in
    if shift =? 0 then COPY_NO_SHIFT fuel count m dst8 src8 else COPY_SHIFT shift fuel count m dst8 src8.

Example memcpy_aligned : bytes (default (fun _ => 0) (memcpy 9 (fun x => x) 1000 64 200)) 999 202 = [999 mod 256] ++ bytes (fun x => x) 64 200 ++ [1200 mod 256].
Proof. by vm_compute. Qed.
Example memcpy_shifted : bytes (default (fun _ => 0) (memcpy 9 (fun x => x) 1003 66 200)) 1002 202 = [1002 mod 256] ++ bytes (fun x => x) 66 200 ++ [1203 mod 256].
Proof. by vm_compute. Qed.

(** ** The copy so far *)

Lemma INC_INDEX_0 w : INC_INDEX 0 w = w.
Proof. destruct w. unfold INC_INDEX. cbn. f_equal; lia. Qed.

Lemma store_load_copy j m0 : forall m a b x,
  load8 (store j m a (load j m0 b)) x = if (a <=? x) && (x <? a + Z.of_nat j) then load8 m0 (b + (x - a)) else load8 m x.
Proof.
  induction j as [|j IH]; intros m a b x; cbn [store load].
  { repeat zcase; cbn [andb]; done || lia. }
  pose proof (load8_range m0 b). replace ((load8 m0 b + 256 * load j m0 (b + 1)) / 256) with (load j m0 (b + 1)) by lia.
  destruct (Z.eq_dec x a) as [->|Hne].
  - rewrite load8_store8_eq. repeat zcase; cbn [andb]; try lia. rewrite Z.sub_diag, Z.add_0_r. word_lia.
  - rewrite load8_store8_ne, IH by done. repeat zcase; cbn [andb]; try lia; [|done..]. f_equal. lia.
Qed.
(** An unaligned load from the two words it lies in. *)
Lemma load64_join m a s next : 0 < s < 8 -> load (Z.to_nat s) m (a + 8) = next mod 256 ^ s ->
  forall word, word / 256 ^ s = load (Z.to_nat (8 - s)) m (a + s) ->
  join (8 * s) (8 * (8 - s)) word next = load64 m (a + s).
Proof.
  intros Hs Hn word Hw. unfold join, load64.
  replace 8%nat with (Z.to_nat (8 - s) + Z.to_nat s)%nat by lia. rewrite load_split, <- Hw.
  rewrite Z2Nat.id by lia. replace (a + s + (8 - s)) with (a + 8) by lia. rewrite Hn.
  rewrite Z.shiftr_div_pow2, Z.shiftl_mul_pow2, !Z.pow_mul_r by lia. change (2 ^ 8) with 256.
  assert (u64 (next * 256 ^ (8 - s)) = next mod 256 ^ s * 256 ^ (8 - s)) as ->.
  { unfold u64. replace 18446744073709551616 with (256 ^ s * 256 ^ (8 - s)) by (rewrite <- Z.pow_add_r by lia; by replace (s + (8 - s)) with 8 by lia).
    rewrite Z.mul_mod_distr_r; [done|apply Z.pow_nonzero; lia..]. }
  pose proof (load_range (Z.to_nat (8 - s)) m (a + s)) as Hr. rewrite <- Hw, Z2Nat.id in Hr by lia.
  change 256 with (2 ^ 8) in *. rewrite <- !Z.pow_mul_r in * by lia. rewrite Z.lor_comm, lor_disjoint by lia. lia.
Qed.

Section Copy.
Variables (m0 : mem) (dst src n : Z).
Hypothesis Hn : 0 <= n.
Hypothesis Hapart : apart dst n src n.

(** [m] is [m0] with the first [k] bytes copied. *)
Definition copied (k : Z) (m : mem) : Prop := same_outside dst k m0 m /\ bytes m dst k = bytes m0 src k.

Lemma copied_0 : copied 0 m0.
Proof. done. Qed.
Lemma copied_load j k m a : copied k m -> 0 <= k <= n -> src <= a -> a + Z.of_nat j <= src + n -> load j m a = load j m0 a.
Proof. intros [Ho _] ? ? ?. apply load_ext. intros x Hx. apply Ho. unfold apart in *. lia. Qed.
Lemma copied_store j k m : copied k m -> 0 <= k -> copied (k + Z.of_nat j) (store j m (dst + k) (load j m0 (src + k))).
Proof.
  intros [Ho Hb] Hk. split.
  - intros x Hx. rewrite store_outside by lia. apply Ho. lia.
  - rewrite !bytes_app by lia. f_equal.
    + rewrite <- Hb. apply bytes_ext. intros x Hx. apply store_outside. lia.
    + apply tab_ext. intros i Hi. rewrite store_load_copy. repeat zcase; cbn [andb]; try lia. f_equal. lia.
Qed.
Lemma copied_byte k m : copied k m -> 0 <= k < n -> copied (k + 1) (store8 m (dst + k) (load8 m (src + k))).
Proof.
  intros Hc Hk. pose proof (copied_store 1 k m Hc ltac:(lia)) as H.
  rewrite <- (copied_load 1 k m) in H by (done || lia). cbn [store load] in H. by rewrite Z.mul_0_r, Z.add_0_r in H.
Qed.
Lemma copy_bytes_copied j : forall k m, copied k m -> 0 <= k -> k + Z.of_nat j <= n ->
  copied (k + Z.of_nat j) (copy_bytes j m (dst + k) (src + k)).
Proof.
  induction j as [|j IH]; intros k m Hc Hk Hj; [by rewrite Z.add_0_r|]. cbn [copy_bytes].
  replace (k + Z.of_nat (S j)) with (k + 1 + Z.of_nat j) by lia.
  replace (dst + k + 1) with (dst + (k + 1)) by lia. replace (src + k + 1) with (src + (k + 1)) by lia.
  apply IH; [apply copied_byte; [done|lia]|lia|lia].
Qed.
Lemma REMAINING_copied c k m : copied k m -> 0 <= k -> 0 <= c <= 7 -> k + c <= n -> copied (k + c) (COPY_REMAINING c m (dst + k) (src + k)).
Proof.
  intros Hc Hk Hc7 Hn'. unfold COPY_REMAINING. rewrite (proj2 (Z.leb_le c 7)) by lia.
  replace c with (Z.of_nat (Z.to_nat c)) at 1 by lia. apply copy_bytes_copied; [done|lia|lia].
Qed.

(** ** The word loops *)

(** [at_ k w]: [k] bytes are copied; [step] copies the next word and moves on,
    [cp i] copies the [i]th word from here. *)
Section Loop.
Variables (at_ : Z -> words -> Prop) (incr : words -> words) (cp : Z -> words -> words).
Hypothesis Hincr : forall k w, at_ k w -> 0 <= k -> k + 8 <= n -> at_ (k + 8) (incr w).
Hypothesis Hcp : forall k w i, 0 <= i -> at_ (k + 8 * i) (INC_INDEX i w) -> 0 <= k -> k + 8 * i + 8 <= n ->
  at_ (k + 8 * (i + 1)) (INC_INDEX (i + 1) (cp i w)).

Lemma words_head_at fuel : forall length k w, at_ k w -> 0 <= k -> 0 <= length -> k + 8 * length <= n ->
  length mod 8 < Z.of_nat fuel ->
  exists w', words_head fuel incr length w = Some (length - length mod 8, w') /\ at_ (k + 8 * (length mod 8)) w'.
Proof.
  induction fuel as [|fuel IH]; intros length k w Hw Hk H0 Hl Hf; [lia|]. cbn [words_head].
  change 7 with (Z.ones 3). rewrite Z.land_ones by lia. change (2 ^ 3) with 8. zcase.
  - exists w. split; [f_equal; f_equal; lia|]. by replace (k + 8 * (length mod 8)) with k by lia.
  - destruct (IH (length - 1) (k + 8) (incr w)) as (w' & E & Hw'); [apply Hincr; [done|lia|lia]|lia..|].
    exists w'. rewrite E. split; [f_equal; f_equal; lia|]. replace (k + 8 * (length mod 8)) with (k + 8 + 8 * ((length - 1) mod 8)) by lia. done.
Qed.
Lemma words_blocks_at length : forall k w, at_ k (INC_INDEX 0 w) -> 0 <= k -> k + 64 * Z.of_nat length <= n ->
  at_ (k + 64 * Z.of_nat length) (INC_INDEX 0 (words_blocks length cp w)).
Proof.
  induction length as [|length IH]; intros k w Hw Hk Hl; cbn [words_blocks]; [by rewrite Z.mul_0_r, Z.add_0_r|].
  replace (k + 64 * Z.of_nat (S length)) with (k + 64 + 64 * Z.of_nat length) by lia. apply IH; [|lia|lia].
  rewrite INC_INDEX_0.
  cbn [foldl]. apply (Hcp k _ 7); [lia| |lia..]. apply (Hcp k _ 6); [lia| |lia..]. apply (Hcp k _ 5); [lia| |lia..].
  apply (Hcp k _ 4); [lia| |lia..]. apply (Hcp k _ 3); [lia| |lia..]. apply (Hcp k _ 2); [lia| |lia..].
  apply (Hcp k _ 1); [lia| |lia..]. apply (Hcp k _ 0); [lia| |lia..]. by rewrite Z.mul_0_r, Z.add_0_r.
Qed.
Lemma words_loop_at fuel count k w : at_ k w -> 0 <= k -> 0 <= count ->
  k + count <= n -> (8 <= fuel)%nat ->
  exists w', words_loop fuel incr cp count w = Some w' /\ at_ (k + 8 * (count / 8)) w'.
Proof.
  intros Hw Hk Hc Hl Hf. unfold words_loop. destruct (words_head_at fuel (count / 8) k w) as (w1 & -> & Hw1); [done|lia..|].
  cbn [mbind option_bind]. eexists. split; [done|]. rewrite <- (INC_INDEX_0 (words_blocks _ _ _)).
  replace (k + 8 * (count / 8)) with (k + 8 * (count / 8 mod 8) + 64 * Z.of_nat (Z.to_nat ((count / 8 - count / 8 mod 8) / 8))) by lia.
  apply words_blocks_at; [by rewrite INC_INDEX_0|lia|lia].
Qed.
End Loop.

(** Both sides aligned alike: the words are where the next bytes are. *)
Definition at_words (k : Z) (w : words) : Prop := copied k (wm w) /\ dstN w = dst + k /\ srcN w = src + k.
Lemma CP_INCR_at k w : at_words k w -> 0 <= k -> k + 8 <= n -> at_words (k + 8) (CP_INCR w).
Proof.
  intros (Hc & Hd & Hs) Hk Hl. unfold at_words, CP_INCR. cbn [wm dstN srcN]. rewrite Hd, Hs. split_and!; [|lia..].
  unfold load64. rewrite (copied_load 8 k) by (done || lia). by apply (copied_store 8).
Qed.
Lemma CP_INDEX_at k w i : 0 <= i -> at_words (k + 8 * i) (INC_INDEX i w) -> 0 <= k -> k + 8 * i + 8 <= n ->
  at_words (k + 8 * (i + 1)) (INC_INDEX (i + 1) (CP_INDEX i w)).
Proof.
  intros Hi Hw Hk Hl. replace (k + 8 * (i + 1)) with (k + 8 * i + 8) by lia.
  replace (INC_INDEX (i + 1) (CP_INDEX i w)) with (CP_INCR (INC_INDEX i w)); [by apply CP_INCR_at; [|lia|]|].
  unfold CP_INCR, INC_INDEX, CP_INDEX. cbn. f_equal; lia.
Qed.

(** With a shift of [s] bytes: the words are from [s] bytes before the next bytes
    on, and the first of them is loaded: of it, the bytes from [s] on count. *)
Definition at_shift (s k : Z) (w : words) : Prop :=
  copied k (wm w) /\ dstN w = dst + k /\ srcN w = src + k - s + 8 /\
  (k + 8 <= n -> srcWord w / 256 ^ s = load (Z.to_nat (8 - s)) m0 (src + k)).
Lemma load_high s m a : 0 <= s <= 8 -> load64 m a / 256 ^ s = load (Z.to_nat (8 - s)) m (a + s).
Proof.
  intros Hs. unfold load64. replace 8%nat with (Z.to_nat s + Z.to_nat (8 - s))%nat by lia. rewrite load_split, Z2Nat.id by lia.
  pose proof (load_range (Z.to_nat s) m a) as Hr. rewrite Z2Nat.id in Hr by lia.
  rewrite (Z.mul_comm (256 ^ s)), Z.div_add by (apply Z.pow_nonzero; lia). by rewrite Z.div_small.
Qed.
Lemma CP_INCR_SH_at s k w : 0 < s < 8 -> at_shift s k w -> 0 <= k -> k + 8 <= n ->
  at_shift s (k + 8) (CP_INCR_SH (8 * s) (8 * (8 - s)) w).
Proof.
  intros Hs (Hc & Hd & Hsr & Hw) Hk Hl. unfold at_shift, CP_INCR_SH. cbn [wm dstN srcN srcWord]. rewrite Hd, Hsr. set (next := load64 (wm w) _).
  assert (join (8 * s) (8 * (8 - s)) (srcWord w) next = load64 m0 (src + k)) as ->.
  { replace (src + k) with (src + k - s + s) by lia. apply load64_join; [done| |rewrite Hw by lia; f_equal; lia].
    rewrite <- (copied_load _ k (wm w)) by (done || lia). unfold next, load64.
    replace (256 ^ s) with (256 ^ Z.of_nat (Z.to_nat s)) by (f_equal; lia).
    replace 8%nat with (Z.to_nat s + Z.to_nat (8 - s))%nat by lia. by rewrite <- load_low. }
  split_and!; [by apply (copied_store 8)|lia..|]. intros Hl'. unfold next. rewrite load_high by lia.
  replace (src + k - s + 8 + s) with (src + (k + 8)) by lia. rewrite (copied_load _ k) by (done || lia). done.
Qed.
Lemma CP_INDEX_SH_at s k w i : 0 < s < 8 -> 0 <= i -> at_shift s (k + 8 * i) (INC_INDEX i w) -> 0 <= k -> k + 8 * i + 8 <= n ->
  at_shift s (k + 8 * (i + 1)) (INC_INDEX (i + 1) (CP_INDEX_SH (8 * s) (8 * (8 - s)) i w)).
Proof.
  intros Hs Hi Hw Hk Hl. replace (k + 8 * (i + 1)) with (k + 8 * i + 8) by lia.
  replace (INC_INDEX (i + 1) (CP_INDEX_SH (8 * s) (8 * (8 - s)) i w)) with (CP_INCR_SH (8 * s) (8 * (8 - s)) (INC_INDEX i w));
    [by apply CP_INCR_SH_at; [|done|lia..]|].
  unfold CP_INCR_SH, INC_INDEX, CP_INDEX_SH. cbn [wm dstN srcN srcWord]. f_equal; lia.
Qed.

(** ** The rest *)

Lemma align_loop_copied fuel : forall k m, copied k m -> 0 <= k -> k + (- (dst + k)) mod 8 <= n -> (- (dst + k)) mod 8 < Z.of_nat fuel ->
  exists m', align_loop fuel m (dst + k) (src + k) (n - k) = Some (m', dst + (k + (- (dst + k)) mod 8), src + (k + (- (dst + k)) mod 8), n - (k + (- (dst + k)) mod 8)) /\
    copied (k + (- (dst + k)) mod 8) m'.
Proof.
  induction fuel as [|fuel IH]; intros k m Hc Hk Hl Hf; [lia|]. cbn [align_loop].
  change 7 with (Z.ones 3). rewrite Z.land_ones by lia. change (2 ^ 3) with 8. zcase.
  - replace (k + (- (dst + k)) mod 8) with k by lia. by exists m.
  - replace (dst + k + 1) with (dst + (k + 1)) by lia. replace (src + k + 1) with (src + (k + 1)) by lia.
    replace (n - k - 1) with (n - (k + 1)) by lia.
    destruct (IH (k + 1) (store8 m (dst + k) (load8 m (src + k)))) as (m' & E & Hm'); [apply copied_byte; [done|lia]|lia..|].
    exists m'. rewrite E. by replace (k + (- (dst + k)) mod 8) with (k + 1 + (- (dst + (k + 1))) mod 8) by lia.
Qed.
Lemma align_eq p : 0 <= p < 2 ^ 64 -> align p = p - p mod 8.
Proof.
  intros Hp. unfold align. replace 18446744073709551608 with (Z.ldiff (Z.ones 64) (Z.ones 3)) by done.
  assert (Z.land p (Z.ldiff (Z.ones 64) (Z.ones 3)) = Z.ldiff p (Z.ones 3)) as ->.
  { apply Z.bits_inj'. intros i Hi. rewrite Z.land_spec, !Z.ldiff_spec. destruct (Z.lt_ge_cases i 64).
    - by rewrite (Z.ones_spec_low 64) by lia.
    - by rewrite <- (Z.mod_small p (2 ^ 64)), Z.mod_pow2_bits_high by lia. }
  rewrite Z.ldiff_ones_r, Z.shiftl_mul_pow2, Z.shiftr_div_pow2 by lia. change (2 ^ 3) with 8. lia.
Qed.
Lemma memcpy_copied fuel : 0 <= dst -> 0 <= src -> dst + n <= 2 ^ 64 -> src + n <= 2 ^ 64 -> (8 <= fuel)%nat ->
  exists m', memcpy fuel m0 dst src n = Some m' /\ copied n m'.
Proof.
  intros Hd Hs Hdn Hsn Hf. unfold memcpy. zcase.
  { eexists. split; [done|]. pose proof (REMAINING_copied n 0 m0 copied_0) as Hr. rewrite !Z.add_0_r, Z.add_0_l in Hr. apply Hr; lia. }
  destruct (align_loop_copied fuel 0 m0 copied_0) as (m1 & E & Hc); [lia..|]. rewrite (Z.add_0_r dst), (Z.add_0_r src), Z.sub_0_r, Z.add_0_l in E. rewrite Z.add_0_r, Z.add_0_l in Hc.
  rewrite E. cbn [mbind option_bind]. set (k := (- dst) mod 8) in *. assert (0 <= k < 8) by lia. clear E.
  change 7 with (Z.ones 3). rewrite Z.land_ones by lia. change (2 ^ 3) with 8.
  zcase.
  - unfold COPY_NO_SHIFT.
    destruct (words_loop_at at_words CP_INCR CP_INDEX) with (fuel := fuel) (count := n - k) (k := k) (w := mk_words m1 (dst + k) (src + k) 0)
      as (w & -> & Hw & Hwd & Hws); [apply CP_INCR_at|apply CP_INDEX_at|done|lia..|]. cbn [mbind option_bind].
    eexists. split; [done|]. rewrite Hwd, Hws. change 7 with (Z.ones 3). rewrite Z.land_ones by lia. change (2 ^ 3) with 8.
    replace n with (k + 8 * ((n - k) / 8) + (n - k) mod 8) at 1 by lia. apply REMAINING_copied; [done|lia..].
  - set (s := (src + k) mod 8) in *. unfold COPY_SHIFT. rewrite !align_eq by lia.
    destruct (words_loop_at (at_shift s) (CP_INCR_SH (8 * s) (8 * (8 - s))) (CP_INDEX_SH (8 * s) (8 * (8 - s)))) with (fuel := fuel) (count := n - k) (k := k)
      (w := mk_words m1 (dst + k - (dst + k) mod 8) (src + k - (src + k) mod 8 + 8) (load64 m1 (src + k - (src + k) mod 8)))
      as (w & -> & Hw & Hwd & Hws & _);
      [by intros; apply CP_INCR_SH_at; [lia|..]|by intros; apply CP_INDEX_SH_at; [lia|..]| |lia..|].
    { split_and!; [done|cbn [dstN]; lia|cbn [srcN]; lia|]. intros Hl. cbn [srcWord]. fold s. rewrite load_high by lia.
      replace (src + k - s + s) with (src + k) by lia. rewrite (copied_load _ k) by (done || lia). done. }
    cbn [mbind option_bind]. eexists. split; [done|]. rewrite Hwd, Hws. change 7 with (Z.ones 3). rewrite Z.land_ones by lia. change (2 ^ 3) with 8.
    replace (src + (k + 8 * ((n - k) / 8)) - s + 8 + (s - 8)) with (src + (k + 8 * ((n - k) / 8))) by lia.
    replace n with (k + 8 * ((n - k) / 8) + (n - k) mod 8) at 1 by lia. apply REMAINING_copied; [done|lia..].
Qed.
End Copy.

(** ** The copy *)

(** C17. memcpy is the byte-wise copy: whatever the alignments of the two blocks,
    as long as they are apart, the call returns, leaves the destination with the
    bytes of the source and every other cell as it was.  The loops with a data
    dependent end run less than eight times. *)
Theorem memcpy_correct fuel m dest src count :
  0 <= dest -> 0 <= src -> 0 <= count -> dest + count <= 2 ^ 64 -> src + count <= 2 ^ 64 -> apart dest count src count -> (8 <= fuel)%nat ->
  exists m', memcpy fuel m dest src count = Some m' /\ same_outside dest count m m' /\
    bytes m' dest count = bytes m src count /\ forall x, load8 m' x = load8 (Mem.memcpy m dest src count) x.
Proof.
  intros Hd Hs Hc Hd' Hs' Ha Hf. destruct (memcpy_copied m dest src count Hc Ha fuel) as (m' & E & Ho & Hb); [done..|].
  exists m'. split_and!; [done..|]. intros x. unfold load8. destruct (decide (dest <= x < dest + count)).
  - rewrite memcpy_in by done. assert (bytes m' dest count !! Z.to_nat (x - dest) = bytes m src count !! Z.to_nat (x - dest)) as El by (by rewrite Hb).
    unfold bytes in El. rewrite !lookup_tab in El by lia. injection El. rewrite Z2Nat.id by lia. by replace (dest + (x - dest)) with x by lia.
  - by rewrite Ho, memcpy_out.
Qed.
(** An unaligned copy of 21 bytes. *)
Lemma memcpy_correct_witness : exists m', memcpy 8 (fun x => 3 * x) 1003 64 21 = Some m' /\ bytes m' 1003 21 = bytes (fun x => 3 * x) 64 21.
Proof.
  destruct (memcpy_correct 8 (fun x => 3 * x) 1003 64 21) as (m' & E & _ & Hb & _); [lia..|right; lia|lia|].
  exists m'. split; [exact E|exact Hb].
Defined.
(** Overlapping blocks are not what it is for: eight bytes moved up by one. *)
Example memcpy_overlap : forall m', memcpy 8 (fun x => x) 9 8 9 = Some m' -> bytes m' 9 9 <> bytes (fun x => x) 8 9.
Proof. intros m' [= <-]. by vm_compute. Qed.
