(* ===== verification/Printf.v ===== *)
(** * Formatted output (src/extlib/printf.c)

    The printf that the kernel's messages go through: the conversions of
    integers, characters, strings and pointers, the parser of the format string
    and the entry points with their output functions.  PrintfSpec.v says what is
    printed.

    The kernel is built for Windows' data model: [long] has 32 bits, [long long],
    [size_t], [ptrdiff_t] and pointers have 64.  Arguments are the 64-bit slots
    of the [va_list]; a read past the last is undefined in C and [None] here.  The
    conversions of floating-point numbers, [_ftoa] and [_etoa], are not modelled
    (the kernel is built without SSE and prints none): they are parameters on the
    bits of the [double]. *)

From S2P Require Import Prelude Mem.
Local Open Scope helos_scope.

Definition i8 (z : Z) : Z := (z + 128) mod 256 - 128.
Definition i16 (z : Z) : Z := (z + 32768) mod 65536 - 32768.

Definition FLAGS_ZEROPAD : Z := 1.
Definition FLAGS_LEFT : Z := 2.
Definition FLAGS_PLUS : Z := 4.
Definition FLAGS_SPACE : Z := 8.
Definition FLAGS_HASH : Z := 16.
Definition FLAGS_UPPERCASE : Z := 32.
Definition FLAGS_CHAR : Z := 64.
Definition FLAGS_SHORT : Z := 128.
Definition FLAGS_LONG : Z := 256.
Definition FLAGS_LONG_LONG : Z := 512.
Definition FLAGS_PRECISION : Z := 1024.
Definition FLAGS_ADAPT_EXP : Z := 2048.
(** [flags & mask] as a condition; [flags &= ~mask]. *)
Definition has (flags mask : Z) : bool := negb (flags .& mask =? 0).
Definition clear (flags mask : Z) : Z := Z.ldiff flags mask.

(** Characters. *)
Definition c_space : Z := 32.
Definition c_hash : Z := 35.
Definition c_percent : Z := 37.
Definition c_star : Z := 42.
Definition c_plus : Z := 43.
Definition c_minus : Z := 45.
Definition c_dot : Z := 46.
Definition c_0 : Z := 48.

Definition PRINTF_NTOA_BUFFER_SIZE : Z := 32.

(** ** Reading the format and strings *)

Definition _is_digit (ch : Z) : bool := (48 <=? ch) && (ch <=? 57).
(** The value read and the advanced pointer. *)
Fixpoint _atoi (fuel : nat) (m : mem) (str i : Z) : option (Z * Z) :=
  match fuel with
  | O => None
  | S fuel =>
      if _is_digit (load8 m str) then _atoi fuel m (str + 1) (u32 (i * 10 + (load8 m str - 48)))
      else Some (i, str)
  end.
Fixpoint strnlen_loop (fuel : nat) (m : mem) (s maxsize : Z) : option Z :=
  match fuel with
  | O => None
  | S fuel => if negb (load8 m s =? 0) && negb (maxsize =? 0) then strnlen_loop fuel m (s + 1) (maxsize - 1) else Some s
  end.
Definition _strnlen_s (fuel : nat) (m : mem) (str maxsize : Z) : option Z :=
  s ← strnlen_loop fuel m str maxsize; Some (u32 (s - str)).

(** The next argument of a [va_list]. *)
Definition va_arg (va : list Z) : option (Z * list Z) :=
  match va with [] => None | x :: va => Some (x, va) end.

(** ** Digits, in the order of [buf] *)

Notation len buf := (Z.of_nat (length buf)).
Definition digit_char (flags digit : Z) : Z :=
  if digit <? 10 then 48 + digit else (if has flags FLAGS_UPPERCASE then 65 else 97) + digit - 10.
(** [do ... while (value && (len < PRINTF_NTOA_BUFFER_SIZE))]; [n] is the room
    left in [buf]. *)
Fixpoint ntoa_digits (n : nat) (value base flags : Z) (buf : list Z) : list Z :=
  match n with
  | O => buf
  | S n =>
      let buf := buf ++ [digit_char flags (value mod base)] in
      if value / base =? 0 then buf else ntoa_digits n (value / base) base flags buf
  end.
(** [while ((len < upto) && (len < PRINTF_NTOA_BUFFER_SIZE)) buf[len++] = '0']:
    at most [PRINTF_NTOA_BUFFER_SIZE] steps. *)
Fixpoint pad_loop (n : nat) (upto : Z) (buf : list Z) : list Z :=
  match n with
  | O => buf
  | S n => if (len buf <? upto) && (len buf <? PRINTF_NTOA_BUFFER_SIZE) then pad_loop n upto (buf ++ [c_0]) else buf
  end.
Definition pad_zeros (upto : Z) (buf : list Z) : list Z := pad_loop 32 upto buf.
(** [if (len < PRINTF_NTOA_BUFFER_SIZE) buf[len++] = c] *)
Definition push (c : Z) (buf : list Z) : list Z := if len buf <? PRINTF_NTOA_BUFFER_SIZE then buf ++ [c] else buf.
(** [len--] *)
Definition pop (buf : list Z) : list Z := take (length buf - 1) buf.

(** The first half of [_ntoa_format]: padding, prefix, sign.  The new width
    comes with the buffer. *)
Definition ntoa_pad (buf : list Z) (negative : bool) (prec width flags : Z) : list Z * Z :=
  if has flags FLAGS_LEFT then (buf, width)
  else
    let width := if negb (width =? 0) && has flags FLAGS_ZEROPAD && (negative || has flags (FLAGS_PLUS .| FLAGS_SPACE)) then width - 1 else width in
    let buf := pad_zeros prec buf in
    (if has flags FLAGS_ZEROPAD then pad_zeros width buf else buf, width).
Definition ntoa_hash (buf : list Z) (base prec width flags : Z) : list Z :=
  if has flags FLAGS_HASH then
    let buf :=
      if negb (has flags FLAGS_PRECISION) && negb (len buf =? 0) && ((len buf =? prec) || (len buf =? width)) then
        let buf := pop buf in
        if negb (len buf =? 0) && (base =? 16) then pop buf else buf
      else buf in
    let buf :=
      if (base =? 16) && negb (has flags FLAGS_UPPERCASE) && (len buf <? PRINTF_NTOA_BUFFER_SIZE) then buf ++ [120]
      else if (base =? 16) && has flags FLAGS_UPPERCASE && (len buf <? PRINTF_NTOA_BUFFER_SIZE) then buf ++ [88]
      else if (base =? 2) && (len buf <? PRINTF_NTOA_BUFFER_SIZE) then buf ++ [98]
      else buf in
    push c_0 buf
  else buf.
Definition ntoa_sign (buf : list Z) (negative : bool) (flags : Z) : list Z :=
  if len buf <? PRINTF_NTOA_BUFFER_SIZE then
    if negative then buf ++ [c_minus]
    else if has flags FLAGS_PLUS then buf ++ [c_plus]
    else if has flags FLAGS_SPACE then buf ++ [c_space]
    else buf
  else buf.

(** The base and the flags of the conversions of integers. *)
Definition is_signed (c : Z) : bool := (c =? 105) || (c =? 100).
Definition integer_base (c : Z) : Z :=
  if (c =? 120) || (c =? 88) then 16 else if c =? 111 then 8 else if c =? 98 then 2 else 10.
Definition integer_flags (c flags : Z) : Z :=
  let flags := if integer_base c =? 10 then clear flags FLAGS_HASH else flags in
  let flags := if c =? 88 then flags .| FLAGS_UPPERCASE else flags in
  let flags := if negb (is_signed c) then clear flags (FLAGS_PLUS .| FLAGS_SPACE) else flags in
  if has flags FLAGS_PRECISION then clear flags FLAGS_ZEROPAD else flags.

(** ** Output *)

Section Printf.
(** The state the output functions act on, and the memory in it. *)
Context {T : Type}.
Variable mem_of : T -> mem.
(** [out(character, buffer, idx, maxlen)] *)
Notation out_fct_type := (Z -> Z -> Z -> Z -> T -> option T).
Variables _ftoa _etoa : out_fct_type -> Z -> Z -> Z -> Z -> Z -> Z -> Z -> T -> option (Z * T).

Definition _out_null : out_fct_type := fun character buffer idx maxlen t => Some t.

Section Out.
Variables (out : out_fct_type) (buffer maxlen : Z).

(** [out(c, buffer, idx++, maxlen)] *)
Definition put (c : Z) (s : Z * T) : option (Z * T) :=
  let '(idx, t) := s in t ← out c buffer idx maxlen t; Some (u64 (idx + 1), t).
(** [n] times a space. *)
Fixpoint spaces (n : nat) (s : Z * T) : option (Z * T) :=
  match n with
  | O => Some s
  | S n => s ← put c_space s; spaces n s
  end.
(** [while (len) out(buf[--len], buffer, idx++, maxlen)] *)
Fixpoint out_reverse (rbuf : list Z) (s : Z * T) : option (Z * T) :=
  match rbuf with
  | [] => Some s
  | c :: rbuf => s ← put c s; out_reverse rbuf s
  end.
Definition _out_rev (buf : list Z) (width flags : Z) (s : Z * T) : option (Z * T) :=
  let start_idx := s.1 in
  s ← (if negb (has flags FLAGS_LEFT) && negb (has flags FLAGS_ZEROPAD) then spaces (Z.to_nat (width - len buf)) s else Some s);
  s ← out_reverse (rev buf) s;
  if has flags FLAGS_LEFT then spaces (Z.to_nat (width - u64 (s.1 - start_idx))) s else Some s.

Definition _ntoa_format (buf : list Z) (negative : bool) (base prec width flags : Z) (s : Z * T) : option (Z * T) :=
  let '(buf, width) := ntoa_pad buf negative prec width flags in
  let buf := ntoa_hash buf base prec width flags in
  let buf := ntoa_sign buf negative flags in
  _out_rev buf width flags s.
(** The body shared by [_ntoa_long] and [_ntoa_long_long]. *)
Definition ntoa (value : Z) (negative : bool) (base prec width flags : Z) (s : Z * T) : option (Z * T) :=
  let flags := if value =? 0 then clear flags FLAGS_HASH else flags in
  let buf := if negb (has flags FLAGS_PRECISION) || negb (value =? 0) then ntoa_digits 32 value base flags [] else [] in
  _ntoa_format buf negative base prec width flags s.
Definition _ntoa_long (value : Z) (negative : bool) (base prec width flags : Z) (s : Z * T) : option (Z * T) :=
  ntoa (u32 value) negative base prec width flags s.
Definition _ntoa_long_long (value : Z) (negative : bool) (base prec width flags : Z) (s : Z * T) : option (Z * T) :=
  ntoa (u64 value) negative base prec width flags s.

(** The characters up to the terminator, at most [precision] of them if it is given. *)
Fixpoint out_string (fuel : nat) (p flags precision : Z) (s : Z * T) : option (Z * T) :=
  match fuel with
  | O => None
  | S fuel =>
      if negb (load8 (mem_of s.2) p =? 0) && (negb (has flags FLAGS_PRECISION) || negb (precision =? 0)) then
        s ← put (load8 (mem_of s.2) p) s; out_string fuel (p + 1) flags (precision - 1) s
      else Some s
  end.

(** *** The parts of a format specifier *)

Fixpoint parse_flags (fuel : nat) (m : mem) (format flags : Z) : option (Z * Z) :=
  match fuel with
  | O => None
  | S fuel =>
      let c := load8 m format in
      if c =? c_0 then parse_flags fuel m (format + 1) (flags .| FLAGS_ZEROPAD)
      else if c =? c_minus then parse_flags fuel m (format + 1) (flags .| FLAGS_LEFT)
      else if c =? c_plus then parse_flags fuel m (format + 1) (flags .| FLAGS_PLUS)
      else if c =? c_space then parse_flags fuel m (format + 1) (flags .| FLAGS_SPACE)
      else if c =? c_hash then parse_flags fuel m (format + 1) (flags .| FLAGS_HASH)
      else Some (format, flags)
  end.
(** The state of the parser: what is read, where the format goes on, the
    arguments left. *)
Record spec := mk_spec { sp_flags : Z; sp_width : Z; sp_precision : Z; sp_format : Z; sp_va : list Z }.
Definition parse_width (fuel : nat) (m : mem) (format flags : Z) (va : list Z) : option spec :=
  if _is_digit (load8 m format) then
    '(width, format) ← _atoi fuel m format 0; Some (mk_spec flags width 0 format va)
  else if load8 m format =? c_star then
    '(w, va) ← va_arg va;
    let w := i32 w in
    Some (if w <? 0 then mk_spec (flags .| FLAGS_LEFT) (u32 (- w)) 0 (format + 1) va else mk_spec flags (u32 w) 0 (format + 1) va)
  else Some (mk_spec flags 0 0 format va).
Definition parse_precision (fuel : nat) (m : mem) (sp : spec) : option spec :=
  let format := sp_format sp in
  if load8 m format =? c_dot then
    let flags := sp_flags sp .| FLAGS_PRECISION in
    let format := format + 1 in
    if _is_digit (load8 m format) then
      '(precision, format) ← _atoi fuel m format 0; Some (mk_spec flags (sp_width sp) precision format (sp_va sp))
    else if load8 m format =? c_star then
      '(prec, va) ← va_arg (sp_va sp);
      let prec := i32 prec in
      Some (mk_spec flags (sp_width sp) (if 0 <? prec then u32 prec else 0) (format + 1) va)
    else Some (mk_spec flags (sp_width sp) 0 format (sp_va sp))
  else Some sp.
(** [l], [h], [t], [j], [z]; [sizeof(long)] is 4. *)
Definition parse_length (m : mem) (sp : spec) : spec :=
  let c := load8 m (sp_format sp) in
  let skip n flags := mk_spec (sp_flags sp .| flags) (sp_width sp) (sp_precision sp) (sp_format sp + n) (sp_va sp) in
  if c =? 108 then if load8 m (sp_format sp + 1) =? 108 then skip 2 (FLAGS_LONG .| FLAGS_LONG_LONG) else skip 1 FLAGS_LONG
  else if c =? 104 then if load8 m (sp_format sp + 1) =? 104 then skip 2 (FLAGS_SHORT .| FLAGS_CHAR) else skip 1 FLAGS_SHORT
  else if (c =? 116) || (c =? 106) || (c =? 122) then skip 1 FLAGS_LONG_LONG
  else sp.
Definition parse_spec (fuel : nat) (m : mem) (format : Z) (va : list Z) : option spec :=
  '(format, flags) ← parse_flags fuel m format 0;
  sp ← parse_width fuel m format flags va;
  sp ← parse_precision fuel m sp;
  Some (parse_length m sp).

(** *** The conversions *)

(** [d i u x X o b], whose character is [c]. *)
Definition convert_integer (c : Z) (sp : spec) (s : Z * T) : option (list Z * (Z * T)) :=
  let base := integer_base c in
  let flags := integer_flags c (sp_flags sp) in
  '(arg, va) ← va_arg (sp_va sp);
  s ← (if is_signed c then
         if has flags FLAGS_LONG_LONG then
           let value := i64 arg in
           _ntoa_long_long (if 0 <? value then value else i64 (0 - value)) (value <? 0) base (sp_precision sp) (sp_width sp) flags s
         else if has flags FLAGS_LONG then
           let value := i32 arg in
           _ntoa_long (if 0 <? value then value else i32 (0 - value)) (value <? 0) base (sp_precision sp) (sp_width sp) flags s
         else
           let value := if has flags FLAGS_CHAR then i8 arg else if has flags FLAGS_SHORT then i16 arg else i32 arg in
           _ntoa_long (if 0 <? value then value else i32 (0 - value)) (value <? 0) base (sp_precision sp) (sp_width sp) flags s
       else if has flags FLAGS_LONG_LONG then
         _ntoa_long_long arg false base (sp_precision sp) (sp_width sp) flags s
       else if has flags FLAGS_LONG then
         _ntoa_long arg false base (sp_precision sp) (sp_width sp) flags s
       else
         let value := if has flags FLAGS_CHAR then u8 arg else if has flags FLAGS_SHORT then u16 arg else u32 arg in
         _ntoa_long value false base (sp_precision sp) (sp_width sp) flags s);
  Some (va, s).
Definition convert_char (sp : spec) (s : Z * T) : option (list Z * (Z * T)) :=
  let left := has (sp_flags sp) FLAGS_LEFT in
  s ← (if negb left then spaces (Z.to_nat (sp_width sp - 1)) s else Some s);
  '(c, va) ← va_arg (sp_va sp);
  s ← put (u8 c) s;
  s ← (if left then spaces (Z.to_nat (sp_width sp - 1)) s else Some s);
  Some (va, s).
Definition convert_string (fuel : nat) (sp : spec) (s : Z * T) : option (list Z * (Z * T)) :=
  let left := has (sp_flags sp) FLAGS_LEFT in
  let precision := sp_precision sp in
  '(p, va) ← va_arg (sp_va sp);
  l ← _strnlen_s fuel (mem_of s.2) p (if negb (precision =? 0) then precision else 18446744073709551615);
  let l := if has (sp_flags sp) FLAGS_PRECISION then (if l <? precision then l else precision) else l in
  s ← (if negb left then spaces (Z.to_nat (sp_width sp - l)) s else Some s);
  s ← out_string fuel p (sp_flags sp) precision s;
  s ← (if left then spaces (Z.to_nat (sp_width sp - l)) s else Some s);
  Some (va, s).
Definition convert_pointer (sp : spec) (s : Z * T) : option (list Z * (Z * T)) :=
  let flags := sp_flags sp .| (FLAGS_ZEROPAD .| FLAGS_UPPERCASE) in
  '(p, va) ← va_arg (sp_va sp);
  s ← _ntoa_long_long p false 16 (sp_precision sp) 16 flags s;
  Some (va, s).
Definition convert_float (c : Z) (sp : spec) (s : Z * T) : option (list Z * (Z * T)) :=
  '(value, va) ← va_arg (sp_va sp);
  let flags := if c =? 70 then sp_flags sp .| FLAGS_UPPERCASE else sp_flags sp in
  s ← _ftoa out buffer s.1 maxlen value (sp_precision sp) (sp_width sp) flags s.2;
  Some (va, s).
Definition convert_exponential (c : Z) (sp : spec) (s : Z * T) : option (list Z * (Z * T)) :=
  '(value, va) ← va_arg (sp_va sp);
  let flags := if (c =? 103) || (c =? 71) then sp_flags sp .| FLAGS_ADAPT_EXP else sp_flags sp in
  let flags := if (c =? 69) || (c =? 71) then flags .| FLAGS_UPPERCASE else flags in
  s ← _etoa out buffer s.1 maxlen value (sp_precision sp) (sp_width sp) flags s.2;
  Some (va, s).
(** The switch on the conversion character; any other character is itself. *)
Definition convert (fuel : nat) (c : Z) (sp : spec) (s : Z * T) : option (list Z * (Z * T)) :=
  if bool_decide (c ∈ [100; 105; 117; 120; 88; 111; 98]) then convert_integer c sp s
  else if (c =? 102) || (c =? 70) then convert_float c sp s
  else if bool_decide (c ∈ [101; 69; 103; 71]) then convert_exponential c sp s
  else if c =? 99 then convert_char sp s
  else if c =? 115 then convert_string fuel sp s
  else if c =? 112 then convert_pointer sp s
  else s ← put c s; Some (sp_va sp, s).

(** The loop over the format; [inner] is the fuel of the loops inside. *)
Fixpoint format_loop (fuel inner : nat) (format : Z) (va : list Z) (s : Z * T) : option (Z * T) :=
  match fuel with
  | O => None
  | S fuel =>
      let c := load8 (mem_of s.2) format in
      if c =? 0 then Some s
      else if negb (c =? c_percent) then s ← put c s; format_loop fuel inner (format + 1) va s
      else
        sp ← parse_spec inner (mem_of s.2) (format + 1) va;
        '(va, s) ← convert inner (load8 (mem_of s.2) (sp_format sp)) sp s;
        format_loop fuel inner (sp_format sp + 1) va s
  end.
End Out.

(** The result, and the state with the terminator. *)
Definition _vsnprintf (fuel : nat) (out : out_fct_type) (buffer maxlen format : Z) (va : list Z) (t : T) : option (Z * T) :=
  let out := if buffer =? 0 then _out_null else out in
  '(idx, t) ← format_loop out buffer maxlen fuel fuel format va (0, t);
  t ← out 0 buffer (if idx <? maxlen then idx else u64 (maxlen - 1)) maxlen t;
  Some (i32 idx, t).

(** ** The entry points that print to a function

    [SIZE_MAX] is [(size_t)-1].  [printf_] and [vprintf_] pass a buffer of their
    own that is not used, here any address that is not null. *)
Definition SIZE_MAX : Z := 18446744073709551615.
Definition _out_char (_putchar : Z -> T -> option T) : out_fct_type :=
  fun character _ _ _ t => if negb (character =? 0) then _putchar character t else Some t.
Definition vprintf_ (_putchar : Z -> T -> option T) (fuel : nat) (format : Z) (va : list Z) (t : T) : option (Z * T) :=
  _vsnprintf fuel (_out_char _putchar) 1 SIZE_MAX format va t.
Definition printf_ := vprintf_.
(** The wrapper [out_fct_wrap] on the stack holds the function and its argument. *)
Definition _out_fct (fct : Z -> Z -> T -> option T) (arg : Z) : out_fct_type :=
  fun character _ _ _ t => if negb (character =? 0) then fct character arg t else Some t.
Definition fctprintf (fct : Z -> Z -> T -> option T) (arg : Z) (fuel : nat) (format : Z) (va : list Z) (t : T) : option (Z * T) :=
  _vsnprintf fuel (_out_fct fct arg) 1 SIZE_MAX format va t.
End Printf.

(** ** The entry points that print to memory *)

Definition _out_buffer (character buffer idx maxlen : Z) (m : mem) : option mem :=
  Some (if idx <? maxlen then store8 m (buffer + idx) character else m).
Section Memory.
Variables _ftoa _etoa : (Z -> Z -> Z -> Z -> mem -> option mem) -> Z -> Z -> Z -> Z -> Z -> Z -> Z -> mem -> option (Z * mem).
Definition vsnprintf_ (fuel : nat) (buffer count format : Z) (va : list Z) (m : mem) : option (Z * mem) :=
  _vsnprintf id _ftoa _etoa fuel _out_buffer buffer count format va m.
Definition snprintf_ := vsnprintf_.
Definition sprintf_ (fuel : nat) (buffer format : Z) (va : list Z) (m : mem) : option (Z * mem) :=
  _vsnprintf id _ftoa _etoa fuel _out_buffer buffer SIZE_MAX format va m.
End Memory.
