(* ===== verification/PrintfSpec.v ===== *)
(** * What printf prints (src/extlib/printf.c)

    Format strings as their pieces, the text the C standard gives them, and the
    theorem that the code of Printf.v prints it.  The pieces are rendered to the
    format string, so the parser of the code is run on every spelling of a
    specifier. *)

From S2P Require Import Prelude Mem CString Alloc Printf.

(** ** Numerals *)

(** The value of a list of digits, the most significant first. *)
Definition numeral (base : Z) (ds : list Z) : Z := foldl (fun v d => v * base + d) 0 ds.
Fixpoint digits_from (n : nat) (base v : Z) : list Z :=
  match n with
  | O => []
  | S n => if v <? base then [v] else digits_from n base (v / base) ++ [v mod base]
  end.
Definition digits (base v : Z) : list Z := digits_from (S (Z.to_nat (Z.log2 v))) base v.
Definition digit_of (upper : bool) (d : Z) : Z := if d <? 10 then 48 + d else (if upper then 65 else 97) + (d - 10).
Definition digit_text (base : Z) (upper : bool) (v : Z) : list Z := digit_of upper <$> digits base v.

(** ** Directives *)

Inductive flag := FZero | FLeft | FPlus | FSpace | FHash.
#[export] Instance flag_eq : EqDecision flag.
Proof. solve_decision. Defined.
(** A width or precision in the format or in the arguments. *)
Inductive amount := Lit (n : Z) | Star.
Inductive size := Sint | Shh | Sh | Sl | Sll | St | Sj | Sz.
Inductive conversion := Cd | Ci | Cu | Cx (upper : bool) | Co | Cb | Cc | Cs.
#[export] Instance size_eq : EqDecision size.
Proof. solve_decision. Defined.
(** [precision] is [Some None] when there is a dot alone. *)
Record directive := mk_directive {
  d_flags : list flag; d_width : option amount; d_precision : option (option amount); d_size : size; d_conv : conversion }.
Inductive item := Plain (c : Z) | Percent | Pointer | Directive (d : directive).

Definition flag_char (f : flag) : Z :=
  match f with FZero => c_0 | FLeft => c_minus | FPlus => c_plus | FSpace => c_space | FHash => c_hash end.
Definition amount_text (a : amount) : list Z := match a with Lit n => digit_text 10 false n | Star => [c_star] end.
Definition size_text (s : size) : list Z :=
  match s with Sint => [] | Shh => [104; 104] | Sh => [104] | Sl => [108] | Sll => [108; 108] | St => [116] | Sj => [106] | Sz => [122] end.
Definition conversion_char (c : conversion) : Z :=
  match c with Cd => 100 | Ci => 105 | Cu => 117 | Cx upper => if upper then 88 else 120 | Co => 111 | Cb => 98 | Cc => 99 | Cs => 115 end.
Definition render_directive (d : directive) : list Z :=
  c_percent :: (flag_char <$> d_flags d) ++ from_option amount_text [] (d_width d) ++
  from_option (fun p => c_dot :: from_option amount_text [] p) [] (d_precision d) ++
  size_text (d_size d) ++ [conversion_char (d_conv d)].
Definition render (i : item) : list Z :=
  match i with Plain c => [c] | Percent => [c_percent; c_percent] | Pointer => [c_percent; 112] | Directive d => render_directive d end.
(** The format string of a list of pieces. *)
Definition format_string (is_ : list item) : list Z := is_ ≫= render.

(** ** Text *)

(** What a directive says once its stars are read. *)
Record layout := mk_layout { l_left : bool; l_zero : bool; l_plus : bool; l_space : bool; l_hash : bool; l_width : Z; l_precision : option Z }.

(** [prefix] is a sign or the base; zeros go behind it. *)
Definition padded (l : layout) (zero : bool) (prefix body : list Z) : list Z :=
  let room := Z.to_nat (l_width l - Z.of_nat (length (prefix ++ body))) in
  if l_left l then prefix ++ body ++ replicate room c_space
  else if zero then prefix ++ replicate room c_0 ++ body
  else replicate room c_space ++ prefix ++ body.

(** Digits, with zeros up to the precision; nothing for zero with precision zero. *)
Definition integer_body (l : layout) (base : Z) (upper : bool) (v : Z) : list Z :=
  let ds := match l_precision l with Some 0 => if v =? 0 then [] else digit_text base upper v | _ => digit_text base upper v end in
  replicate (Z.to_nat (default 1 (l_precision l) - Z.of_nat (length ds))) c_0 ++ ds.
Definition sign_text (l : layout) (v : Z) : list Z := if v <? 0 then [c_minus] else if l_plus l then [c_plus] else if l_space l then [c_space] else [].
(** With #: 0x and 0b in front of what is not zero; an octal number begins with a
    zero, which is added if the digits do not. *)
Definition starts_zero (body : list Z) : bool := match body with c :: _ => c =? c_0 | [] => false end.
Definition base_text (l : layout) (base : Z) (upper : bool) (v : Z) : list Z :=
  if l_hash l then
    if base =? 8 then (if starts_zero (integer_body l base upper v) then [] else [c_0])
    else if v =? 0 then []
    else if base =? 16 then [c_0; if upper then 88 else 120] else if base =? 2 then [c_0; 98] else []
  else [].
Definition zero_padded (l : layout) : bool := l_zero l && bool_decide (l_precision l = None).
Definition signed_text (l : layout) (v : Z) : list Z := padded l (zero_padded l) (sign_text l v) (integer_body l 10 false (Z.abs v)).
Definition unsigned_text (l : layout) (base : Z) (upper : bool) (v : Z) : list Z :=
  padded l (zero_padded l) (base_text l base upper v) (integer_body l base upper v).

(** The argument of a signed and of an unsigned conversion. *)
Definition signed_arg (s : size) (x : Z) : Z :=
  match s with Sint | Sl => i32 x | Shh => i8 x | Sh => i16 x | Sll | St | Sj | Sz => i64 x end.
Definition unsigned_arg (s : size) (x : Z) : Z :=
  match s with Sint | Sl => u32 x | Shh => u8 x | Sh => u16 x | Sll | St | Sj | Sz => u64 x end.

Definition conversion_base (c : conversion) : Z := match c with Cx _ => 16 | Co => 8 | Cb => 2 | _ => 10 end.
Definition conversion_upper (c : conversion) : bool := match c with Cx upper => upper | _ => false end.
(** The layout of a directive with the arguments its stars take.  The standard
    reads a negative precision as none; the code does not, and it is left out
    here. *)
Definition amount_value (a : amount) (va : list Z) : option (Z * list Z) :=
  match a with Lit n => Some (n, va) | Star => '(x, va) ← va_arg va; Some (i32 x, va) end.
Definition directive_layout (d : directive) (va : list Z) : option (layout * list Z) :=
  '(w, va) ← match d_width d with None => Some (0, va) | Some a => amount_value a va end;
  '(p, va) ← match d_precision d with
    | None => Some (None, va)
    | Some None => Some (Some 0, va)
    | Some (Some a) => '(p, va) ← amount_value a va; if p <? 0 then None else Some (Some p, va)
    end;
  let given f := bool_decide (f ∈ d_flags d) in
  Some (mk_layout (given FLeft || (w <? 0)) (given FZero) (given FPlus) (given FSpace) (given FHash) (Z.abs w) p, va).

(** The pieces with their arguments. *)
Inductive piece := Text (t : list Z) | Address (x : Z) | Convert (l : layout) (s : size) (c : conversion) (x : Z).
Definition resolve_item (i : item) (va : list Z) : option (piece * list Z) :=
  match i with
  | Plain c => Some (Text [c], va)
  | Percent => Some (Text [c_percent], va)
  | Pointer => '(x, va) ← va_arg va; Some (Address x, va)
  | Directive d => '(l, va) ← directive_layout d va; '(x, va) ← va_arg va; Some (Convert l (d_size d) (d_conv d) x, va)
  end.
Fixpoint resolve (is_ : list item) (va : list Z) : option (list piece) :=
  match is_ with
  | [] => Some []
  | i :: is_ => '(p, va) ← resolve_item i va; ps ← resolve is_ va; Some (p :: ps)
  end.

Definition address_text (x : Z) : list Z :=
  let ds := digit_text 16 true (u64 x) in replicate (16 - length ds) c_0 ++ ds.
(** The text of a piece whose string, for %s, is [str]. *)
Definition string_arg (fuel : nat) (m : mem) (p : piece) : option (list Z) :=
  match p with Convert _ _ Cs x => cstring fuel m x | _ => Some [] end.
Definition piece_text (str : list Z) (p : piece) : list Z :=
  match p with
  | Text t => t
  | Address x => address_text x
  | Convert l s c x =>
      match c with
      | Cd | Ci => signed_text l (signed_arg s x)
      | Cu | Cx _ | Co | Cb => unsigned_text l (conversion_base c) (conversion_upper c) (unsigned_arg s x)
      | Cc => padded l false [] [u8 x]
      | Cs => padded l false [] (match l_precision l with Some p => take (Z.to_nat p) str | None => str end)
      end
  end.
Fixpoint pieces_text (fuel : nat) (m : mem) (ps : list piece) : option (list Z) :=
  match ps with
  | [] => Some []
  | p :: ps => str ← string_arg fuel m p; t ← pieces_text fuel m ps; Some (piece_text str p ++ t)
  end.
(** What a format prints with its arguments. *)
Definition format_text (fuel : nat) (m : mem) (is_ : list item) (va : list Z) : option (list Z) :=
  ps ← resolve is_ va; pieces_text fuel m ps.

(** ** Where the code follows the standard

    The conversion buffer has 32 characters; zeros up to the precision are left
    out in left-justified fields; a prefix in a field with a width may replace
    digits; an octal number with # and a precision gets a zero too many, or none
    when it is zero. *)
Definition integer_ok (l : layout) (prefix body ds : list Z) : bool :=
  (Z.of_nat (length (prefix ++ body)) <=? 32) && (l_left l || negb (zero_padded l) || (l_width l <=? 32)) &&
  (negb (l_left l) || (default 0 (l_precision l) <=? Z.of_nat (length ds))).
(** The digits that are there without padding to a precision. *)
Definition significant (base : Z) (upper : bool) (v : Z) : list Z := if v =? 0 then [] else digit_text base upper v.
Definition no_field (l : layout) : bool := (l_width l =? 0) && bool_decide (l_precision l = None).
Definition unsigned_ok (l : layout) (base : Z) (upper : bool) (v : Z) : bool :=
  let alternative := if base =? 8 then negb (v =? 0) || bool_decide (l_precision l = Some 0) else negb (v =? 0) in
  integer_ok l (base_text l base upper v) (integer_body l base upper v) (significant base upper v) &&
  (negb (l_hash l && alternative) || no_field l).
Definition signed_ok (l : layout) (v : Z) : bool := integer_ok l (sign_text l v) (integer_body l 10 false (Z.abs v)) (significant 10 false (Z.abs v)).
Definition piece_ok (p : piece) : bool :=
  match p with
  | Convert l s (Cd | Ci) x => signed_ok l (signed_arg s x)
  | Convert l s ((Cu | Cx _ | Co | Cb) as c) x => unsigned_ok l (conversion_base c) (conversion_upper c) (unsigned_arg s x)
  | _ => true
  end.

(** The directives the standard gives a meaning: the flag # only with %x, %o and %b,
    0 only with numbers, a precision not with %c; %lc and %ls are for wide
    characters, which the code prints as narrow ones, and are left out. *)
Definition defined (d : directive) : bool :=
  match d_conv d with
  | Cc => bool_decide (d_size d = Sint) && bool_decide (FZero ∉ d_flags d) && bool_decide (FHash ∉ d_flags d) && (if d_precision d then false else true)
  | Cs => bool_decide (d_size d = Sint) && bool_decide (FZero ∉ d_flags d) && bool_decide (FHash ∉ d_flags d)
  | Cd | Ci | Cu => bool_decide (FHash ∉ d_flags d)
  | Cx _ | Co | Cb => true
  end.
(** Spellings: a width in the format is positive and fits an [int], so does a
    precision; other characters are those of strings, but %. *)
Definition amount_ok (low : Z) (a : amount) : bool := match a with Lit n => (low <=? n) && (n <? 2 ^ 31) | Star => true end.
Definition item_ok (i : item) : bool :=
  match i with
  | Plain c => (0 <? c) && (c <? 256) && negb (c =? c_percent)
  | Directive d => defined d && from_option (amount_ok 1) true (d_width d) && from_option (from_option (amount_ok 0) true) true (d_precision d)
  | _ => true
  end.
Definition format_ok (is_ : list item) (va : list Z) : bool :=
  forallb item_ok is_ && match resolve is_ va with Some ps => forallb piece_ok ps | None => false end.
(** The strings that are read: address and size with the terminator. *)
Definition strings_read (fuel : nat) (m : mem) (ps : list piece) : list (Z * Z) :=
  ps ≫= (fun p => match p with Convert _ _ Cs x => [(x, from_option (fun s => Z.of_nat (length s) + 1) 0 (cstring fuel m x))] | _ => [] end).

(** ** Numerals *)

Lemma numeral_snoc base ds d : numeral base (ds ++ [d]) = numeral base ds * base + d.
Proof. unfold numeral. by rewrite foldl_app. Qed.
Lemma foldl_numeral base ds : forall v, foldl (fun v d => v * base + d) v ds = v * base ^ Z.of_nat (length ds) + numeral base ds.
Proof.
  unfold numeral. induction ds as [|d ds IH]; intros v; cbn [foldl length]; [rewrite Z.mul_1_r; lia|].
  rewrite (IH (v * base + d)), (IH (0 * base + d)), Nat2Z.inj_succ, Z.pow_succ_r by lia. ring.
Qed.
Lemma numeral_bounds base ds : 0 < base -> Forall (fun d => 0 <= d < base) ds -> 0 <= numeral base ds < base ^ Z.of_nat (length ds).
Proof.
  intros Hb. induction 1 as [|d ds Hd _ IH]; [done|]. unfold numeral. cbn [foldl length]. rewrite foldl_numeral, Nat2Z.inj_succ, Z.pow_succ_r by lia. nia.
Qed.
Lemma log2_div base v : 2 <= base <= v -> (Z.to_nat (Z.log2 (v / base)) < Z.to_nat (Z.log2 v))%nat.
Proof.
  intros Hb. assert (v / base <= v / 2) by (apply Z.div_le_compat_l; lia).
  assert (Z.log2 (v / base) <= Z.log2 (v / 2)) by (by apply Z.log2_le_mono).
  assert (0 < Z.log2 v) by (apply Z.log2_pos; lia).
  assert (Z.log2 (v / 2) = Z.log2 v - 1) by (rewrite <- Z.div2_div, Z.div2_spec, Z.log2_shiftr; lia).
  pose proof (Z.log2_nonneg (v / base)). lia.
Qed.
(** [digits_from] with enough fuel. *)
Lemma digits_from_enough base v : forall n, 2 <= base -> 0 <= v -> (Z.to_nat (Z.log2 v) < n)%nat ->
  digits_from n base v = if v <? base then [v] else digits base (v / base) ++ [v mod base].
Proof.
  assert (forall n v, 2 <= base -> 0 <= v -> (Z.to_nat (Z.log2 v) < n)%nat -> digits_from n base v = digits base v) as He.
  { intros n. induction n as [n IH] using lt_wf_ind. intros w Hb Hw Hn. destruct n as [|n]; [lia|]. unfold digits. cbn [digits_from]. zcase; [done|].
    f_equal. pose proof (log2_div base w ltac:(lia)). rewrite (IH n) by (try lia; by apply Z.div_pos; lia).
    destruct (Z.to_nat (Z.log2 w)) as [|k] eqn:Ek; [lia|].
    rewrite (IH (S k)) by (try lia; by apply Z.div_pos; lia). done. }
  intros n Hb Hv Hn. destruct n as [|n]; [lia|]. cbn [digits_from]. zcase; [done|]. f_equal.
  pose proof (log2_div base v ltac:(lia)). apply He; [done|by apply Z.div_pos; lia|lia].
Qed.
Lemma digits_eq base v : 2 <= base -> 0 <= v -> digits base v = if v <? base then [v] else digits base (v / base) ++ [v mod base].
Proof. intros. unfold digits at 1. by rewrite digits_from_enough by lia. Qed.
Lemma digits_ind base (P : Z -> Prop) : 2 <= base -> (forall v, 0 <= v < base -> P v) -> (forall v, base <= v -> P (v / base) -> P v) -> forall v, 0 <= v -> P v.
Proof.
  intros Hb H0 Hs v Hv. pattern v. apply (Zlt_0_ind (fun v => P v)); [|done]. intros w IH Hw.
  destruct (Z.lt_ge_cases w base); [by apply H0|]. apply Hs; [done|]. apply IH. split; [apply Z.div_pos; lia|apply Z.div_lt; lia].
Qed.

(** The digits of a number: they have its value, are below the base, and the first
    is a zero only for zero itself. *)
Lemma digits_spec base v : 2 <= base -> 0 <= v ->
  numeral base (digits base v) = v /\ Forall (fun d => 0 <= d < base) (digits base v) /\
  exists d ds, digits base v = d :: ds /\ (0 < v -> 0 < d).
Proof.
  intros Hb Hv. revert v Hv. apply (digits_ind base); [done| |]; intros v Hv; rewrite (digits_eq base v) by lia.
  - rewrite (proj2 (Z.ltb_lt _ _)) by lia. split; [done|]. split; [by repeat constructor; lia|]. exists v, []. done.
  - intros (Hn & Hd & d & ds & E & H0). rewrite (proj2 (Z.ltb_ge _ _)), numeral_snoc, Hn by lia.
    pose proof (Z.mod_pos_bound v base). assert (1 <= v / base) by (apply Z.div_le_lower_bound; lia).
    split; [rewrite Z.mul_comm; symmetry; apply Z.div_mod; lia|].
    split; [by apply Forall_app; repeat constructor; [|lia..]|]. exists d, (ds ++ [v mod base]). rewrite E. split; [done|]. intros _. apply H0. lia.
Qed.
Lemma digits_bound base v n : 2 <= base -> 0 <= v < base ^ Z.of_nat n -> (0 < n)%nat -> (length (digits base v) <= n)%nat.
Proof.
  intros Hb. revert v. induction n as [|n IH]; intros v Hv Hn; [lia|]. rewrite digits_eq by lia. zcase; [cbn [length]; lia|].
  rewrite length_app. cbn [length]. destruct n as [|n]; [lia|].
  rewrite Nat2Z.inj_succ, Z.pow_succ_r in Hv by lia.
  assert (length (digits base (v / base)) <= S n)%nat; [|lia]. apply IH; [|lia]. split; [apply Z.div_pos; lia|apply Z.div_lt_upper_bound; lia].
Qed.

(** ** Flags *)

Lemma has_bit f k : 0 <= k -> has f (2 ^ k) = Z.testbit f k.
Proof. intros. unfold has. by rewrite land_bit_zero, negb_involutive. Qed.
Definition bits_of (f : Z) : Z -> bool := Z.testbit f.
Lemma has_ZEROPAD f : has f FLAGS_ZEROPAD = Z.testbit f 0.
Proof. by apply (has_bit f 0). Qed.
Lemma has_LEFT f : has f FLAGS_LEFT = Z.testbit f 1.
Proof. by apply (has_bit f 1). Qed.
Lemma has_PLUS f : has f FLAGS_PLUS = Z.testbit f 2.
Proof. by apply (has_bit f 2). Qed.
Lemma has_SPACE f : has f FLAGS_SPACE = Z.testbit f 3.
Proof. by apply (has_bit f 3). Qed.
Lemma has_HASH f : has f FLAGS_HASH = Z.testbit f 4.
Proof. by apply (has_bit f 4). Qed.
Lemma has_UPPERCASE f : has f FLAGS_UPPERCASE = Z.testbit f 5.
Proof. by apply (has_bit f 5). Qed.
Lemma has_CHAR f : has f FLAGS_CHAR = Z.testbit f 6.
Proof. by apply (has_bit f 6). Qed.
Lemma has_SHORT f : has f FLAGS_SHORT = Z.testbit f 7.
Proof. by apply (has_bit f 7). Qed.
Lemma has_LONG f : has f FLAGS_LONG = Z.testbit f 8.
Proof. by apply (has_bit f 8). Qed.
Lemma has_LONG_LONG f : has f FLAGS_LONG_LONG = Z.testbit f 9.
Proof. by apply (has_bit f 9). Qed.
Lemma has_PRECISION f : has f FLAGS_PRECISION = Z.testbit f 10.
Proof. by apply (has_bit f 10). Qed.
Lemma has_PLUS_SPACE f : has f (Z.lor FLAGS_PLUS FLAGS_SPACE) = Z.testbit f 2 || Z.testbit f 3.
Proof.
  unfold has. rewrite Z.land_lor_distr_r. change FLAGS_PLUS with (2 ^ 2). change FLAGS_SPACE with (2 ^ 3).
  destruct (Z.eqb_spec (Z.lor (Z.land f (2 ^ 2)) (Z.land f (2 ^ 3))) 0) as [E|E].
  - apply Z.lor_eq_0_iff in E as [E1 E2]. apply Z.eqb_eq in E1, E2. rewrite land_bit_zero in E1, E2 by lia.
    by destruct (Z.testbit f 2), (Z.testbit f 3).
  - destruct (Z.testbit f 2) eqn:E2; [done|]. destruct (Z.testbit f 3) eqn:E3; [done|]. exfalso. apply E.
    apply Z.lor_eq_0_iff. rewrite <- !Z.eqb_eq, !land_bit_zero by lia. by rewrite E2, E3.
Qed.
Lemma testbit_clear f mask k : Z.testbit (clear f mask) k = Z.testbit f k && negb (Z.testbit mask k).
Proof. apply Z.ldiff_spec. Qed.
Create Rewrite HintDb flags.
#[export] Hint Rewrite has_ZEROPAD has_LEFT has_PLUS has_SPACE has_HASH has_UPPERCASE has_CHAR has_SHORT has_LONG has_LONG_LONG has_PRECISION
  has_PLUS_SPACE testbit_clear Z.lor_spec : flags.
(** Tests of flags as bits, with the bits of the masks computed. *)
Ltac flag_bits := autorewrite with flags;
  repeat match goal with |- context [Z.testbit ?mask ?k] =>
    lazymatch mask with
    | FLAGS_ZEROPAD => idtac | FLAGS_LEFT => idtac | FLAGS_PLUS => idtac | FLAGS_SPACE => idtac | FLAGS_HASH => idtac | FLAGS_UPPERCASE => idtac
    end;
    let b := eval vm_compute in (Z.testbit mask k) in change (Z.testbit mask k) with b
  end; rewrite ?orb_false_r, ?orb_true_r, ?andb_true_r, ?andb_false_r.

(** ** The conversion buffer *)

Lemma ntoa_digits_spec upper base flags : 2 <= base <= 16 -> has flags FLAGS_UPPERCASE = upper -> forall n v buf, 0 <= v ->
  (length (digits base v) <= n)%nat -> ntoa_digits n v base flags buf = buf ++ rev (digit_text base upper v).
Proof.
  intros Hb Hu. induction n as [|n IH]; intros v buf Hv Hl.
  { destruct (digits_spec base v) as (_ & _ & d & ds & E & _); [lia..|]. rewrite E in Hl. cbn [length] in Hl. lia. }
  assert (forall d, digit_char flags d = digit_of upper d) as Hd.
  { intros d. unfold digit_char, digit_of. rewrite Hu. zcase; [done|]. lia. }
  unfold digit_text in *. rewrite digits_eq in Hl |- * by lia. cbn [ntoa_digits]. destruct (Z.ltb_spec v base).
  - rewrite Z.mod_small, Z.div_small, Hd by lia. done.
  - assert (1 <= v / base) by (apply Z.div_le_lower_bound; lia). rewrite (proj2 (Z.eqb_neq _ _)) by lia.
    rewrite length_app in Hl. cbn [length] in Hl. rewrite IH, Hd by lia. rewrite fmap_app, rev_app_distr. cbn. by rewrite <- app_assoc.
Qed.
Lemma pad_loop_spec upto : upto <= 32 -> forall n buf, (upto <= len buf + Z.of_nat n) ->
  pad_loop n upto buf = buf ++ replicate (Z.to_nat (upto - len buf)) c_0.
Proof.
  intros Hu. induction n as [|n IH]; intros buf Hn; cbn [pad_loop].
  { replace (Z.to_nat _) with 0%nat by lia. by rewrite app_nil_r. }
  unfold PRINTF_NTOA_BUFFER_SIZE. zcase; cbn [andb].
  - rewrite (proj2 (Z.ltb_lt _ _)) by lia. rewrite IH by (rewrite length_app; cbn [length]; lia). rewrite <- app_assoc. cbn [app].
    rewrite length_app. cbn [length]. f_equal. replace (Z.to_nat (upto - len buf)) with (S (Z.to_nat (upto - Z.of_nat (length buf + 1)))) by lia. done.
  - replace (Z.to_nat _) with 0%nat by lia. by rewrite app_nil_r.
Qed.
Lemma pad_zeros_spec upto buf : upto <= 32 -> pad_zeros upto buf = buf ++ replicate (Z.to_nat (upto - len buf)) c_0.
Proof. intros. apply pad_loop_spec; lia. Qed.

(** ** An integer in the buffer, its first character last *)

(** The flags say what the layout says. *)
Record flags_match (l : layout) (upper : bool) (flags : Z) : Prop := {
  fm_zero : Z.testbit flags 0 = zero_padded l;
  fm_left : Z.testbit flags 1 = l_left l;
  fm_upper : Z.testbit flags 5 = upper;
  fm_precision : Z.testbit flags 10 = negb (bool_decide (l_precision l = None)) }.
Definition flag_sign (negative : bool) (flags : Z) : list Z :=
  if negative then [c_minus] else if Z.testbit flags 2 then [c_plus] else if Z.testbit flags 3 then [c_space] else [].
(** The digits the code starts from. *)
Definition start_digits (base : Z) (upper : bool) (v flags : Z) : list Z :=
  if negb (has flags FLAGS_PRECISION) || negb (v =? 0) then digit_text base upper v else [].
(** The zeros of a field. *)
Definition field_zeros (l : layout) (sign body : list Z) : list Z :=
  if l_left l then [] else if zero_padded l then replicate (Z.to_nat (l_width l - Z.of_nat (length (sign ++ body)))) c_0 else [].

Lemma digit_text_nonempty base upper v : 2 <= base -> 0 <= v -> (0 < length (digit_text base upper v))%nat.
Proof. intros. unfold digit_text. rewrite length_fmap. destruct (digits_spec base v) as (_ & _ & d & x & -> & _); [lia..|]. cbn. lia. Qed.
Lemma digit_text_0 base upper : 2 <= base -> digit_text base upper 0 = [c_0].
Proof. intros. unfold digit_text. by rewrite digits_eq, (proj2 (Z.ltb_lt 0 base)) by lia. Qed.

Lemma rev_replicate {A} n (x : A) : rev (replicate n x) = replicate n x.
Proof. rewrite rev_alt. apply reverse_replicate. Qed.
Lemma replicate_0 {A} n (x : A) : n <= 0 -> replicate (Z.to_nat n) x = [].
Proof. intros. by replace (Z.to_nat n) with 0%nat by lia. Qed.

Section Buffer.
Variables (l : layout) (base : Z) (upper : bool) (v flags : Z).
Hypothesis Hbase : 2 <= base <= 16.
Hypothesis Hv : 0 <= v.
Hypothesis Hf : flags_match l upper flags.
Notation prec := (default 0 (l_precision l)).
Hypothesis Hprec : 0 <= prec.
Notation ds := (start_digits base upper v flags).
Notation body := (integer_body l base upper v).

Lemma body_zeros : body = replicate (Z.to_nat (prec - Z.of_nat (length ds))) c_0 ++ ds.
Proof.
  unfold integer_body, start_digits. rewrite has_PRECISION, (fm_precision _ _ _ Hf). pose proof (digit_text_nonempty base upper v ltac:(lia) Hv).
  destruct (l_precision l) as [p|]; cbn [from_option id] in *.
  - rewrite bool_decide_false by done. cbn [negb orb]. destruct (Z.eqb_spec v 0) as [Ev|]; cbn [negb].
    + rewrite Ev, digit_text_0 by lia. destruct p as [|p|p]; [done| |lia]. rewrite app_nil_r.
      change [c_0] with (replicate 1 c_0). rewrite <- replicate_add. f_equal. rewrite length_replicate. cbn [length]. lia.
    + by destruct p.
  - rewrite bool_decide_true by done. cbn [negb orb]. by rewrite !replicate_0 by lia.
Qed.

(** After the padding, the buffer has the body behind the zeros of the field. *)
Lemma ntoa_pad_spec negative : let sign := flag_sign negative flags in
  Z.of_nat (length (sign ++ body)) <= 32 -> (l_left l = true \/ zero_padded l = false \/ l_width l <= 32) ->
  (l_left l = true -> prec <= Z.of_nat (length ds)) -> 0 <= l_width l ->
  exists width, ntoa_pad (rev ds) negative prec (l_width l) flags = (rev (field_zeros l sign body ++ body), width) /\
    (l_left l = true \/ zero_padded l = false -> width = l_width l) /\ (l_width l = 0 -> width = 0).
Proof.
  intros sign Hl Hz Hle Hw. unfold ntoa_pad, field_zeros. rewrite has_LEFT, has_ZEROPAD, has_PLUS_SPACE, (fm_left _ _ _ Hf), (fm_zero _ _ _ Hf).
  assert (negative || (Z.testbit flags 2 || Z.testbit flags 3) = negb (length sign =? 0)%nat) as Es.
  { subst sign. unfold flag_sign. by destruct negative, (Z.testbit flags 2), (Z.testbit flags 3). }
  assert (length sign <= 1)%nat as Es1 by (subst sign; unfold flag_sign; destruct negative, (Z.testbit flags 2), (Z.testbit flags 3); cbn; lia).
    rewrite length_app in *. destruct (l_left l) eqn:El.
  { exists (l_width l). split; [|done]. f_equal. f_equal. cbn [app]. rewrite body_zeros, replicate_0; [done|]. specialize (Hle eq_refl). lia. }
  assert (length body = Nat.max (Z.to_nat prec) (length ds)) as Eb by (rewrite body_zeros, length_app, length_replicate; lia).
  assert (pad_zeros prec (rev ds) = rev body) as -> by (rewrite pad_zeros_spec, body_zeros, rev_app_distr, rev_replicate, length_rev by lia; done).
  rewrite Es. destruct (zero_padded l); cbn [andb].
  - rewrite andb_true_r. set (width := if _ && _ then _ else _). assert (width = l_width l \/ length sign = 1%nat /\ width = l_width l - 1) as Hwidth.
    { subst width. destruct (Z.eqb_spec (l_width l) 0), (Nat.eqb_spec (length sign) 0); cbn [negb andb]; lia. }
    assert (l_width l = 0 -> width = 0) as H0 by (intros E; subst width; by rewrite E).
    assert (length sign = 0%nat \/ l_width l = 0 \/ width = l_width l - 1) as Hs.
    { subst width. destruct (Z.eqb_spec (l_width l) 0), (Nat.eqb_spec (length sign) 0); cbn [negb andb]; lia. }
    exists width. split_and!; [|by intros []|done]. f_equal. rewrite pad_zeros_spec, length_rev, rev_app_distr, rev_replicate by lia.
    do 2 f_equal. lia.
  - rewrite andb_false_r. exists (l_width l). done.
Qed.
End Buffer.

Definition flag_prefix (base : Z) (upper : bool) (flags : Z) : list Z :=
  if Z.testbit flags 4 then if base =? 16 then [c_0; if upper then 88 else 120] else if base =? 8 then [c_0] else if base =? 2 then [c_0; 98] else [] else [].
Lemma ntoa_hash_spec base upper flags prec width x :
  Z.testbit flags 5 = upper ->
  Z.testbit flags 4 = false \/ base ∈ [2; 8; 16] /\ prec = 0 /\ width = 0 /\ (0 < length x)%nat /\ Z.of_nat (length (flag_prefix base upper flags ++ x)) <= 32 ->
  ntoa_hash (rev x) base prec width flags = rev (flag_prefix base upper flags ++ x).
Proof.
  intros Hu. unfold ntoa_hash, flag_prefix. rewrite has_HASH, has_UPPERCASE, Hu.
  intros [-> | (Hb & -> & -> & Hx & Hl)]; [done|]. revert Hl. destruct (Z.testbit flags 4); [|done]. intros Hl.
  assert (0 < len (rev x)) as Hlx by (rewrite length_rev; lia). rewrite (proj2 (Z.eqb_neq (len (rev x)) 0)) by lia. rewrite andb_false_r.
  unfold push, PRINTF_NTOA_BUFFER_SIZE. repeat setoid_rewrite elem_of_cons in Hb.
  destruct Hb as [-> | [-> | [-> | Hb]]]; [..|by apply elem_of_nil in Hb]; cbn [Z.eqb Pos.eqb andb] in Hl |- *; cbn [app length] in Hl; rewrite length_rev.
  - rewrite (proj2 (Z.ltb_lt (len x) 32)) by lia. rewrite length_app, length_rev, (proj2 (Z.ltb_lt _ _)) by (cbn [length]; lia).
    cbn [rev app]. by rewrite <- app_assoc.
  - by rewrite (proj2 (Z.ltb_lt (len x) 32)) by lia.
  - destruct upper; cbn [negb andb]; rewrite (proj2 (Z.ltb_lt (len x) 32)) by lia; rewrite length_app, length_rev, (proj2 (Z.ltb_lt _ _)) by (cbn [length]; lia);
      cbn [rev app]; by rewrite <- app_assoc.
Qed.
Lemma ntoa_sign_spec negative flags x : Z.of_nat (length (flag_sign negative flags ++ x)) <= 32 ->
  ntoa_sign (rev x) negative flags = rev (flag_sign negative flags ++ x).
Proof.
  unfold ntoa_sign, flag_sign, PRINTF_NTOA_BUFFER_SIZE. rewrite has_PLUS, has_SPACE, length_rev, length_app. intros Hl. zcase.
  - by destruct negative, (Z.testbit flags 2), (Z.testbit flags 3).
  - destruct negative, (Z.testbit flags 2), (Z.testbit flags 3); cbn [length] in Hl; try lia; done.
Qed.

(** ** Output of a text *)

Section Out.
Context {T : Type}.
Variables (out : Z -> Z -> Z -> Z -> T -> option T) (buffer maxlen : Z).

(** The characters at successive indexes. *)
Fixpoint puts (cs : list Z) (s : Z * T) : option (Z * T) :=
  match cs with
  | [] => Some s
  | c :: cs => s ← put out buffer maxlen c s; puts cs s
  end.
Lemma puts_app a b s : puts (a ++ b) s = s ← puts a s; puts b s.
Proof. revert s. induction a as [|c a IH]; intros s; cbn [puts app]; [done|]. destruct (put _ _ _ c s) as [s'|]; cbn [mbind option_bind]; [apply IH|done]. Qed.
Lemma spaces_puts n s : spaces out buffer maxlen n s = puts (replicate n c_space) s.
Proof. revert s. induction n as [|n IH]; intros s; cbn [spaces puts replicate]; [done|]. destruct (put _ _ _ _ s); cbn [mbind option_bind]; [apply IH|done]. Qed.
Lemma out_reverse_puts cs s : out_reverse out buffer maxlen cs s = puts cs s.
Proof. revert s. induction cs as [|c cs IH]; intros s; cbn [out_reverse puts]; [done|]. destruct (put _ _ _ _ s); cbn [mbind option_bind]; [apply IH|done]. Qed.
Lemma puts_index cs s s' : puts cs s = Some s' -> u64 (s'.1 - s.1) = u64 (Z.of_nat (length cs)).
Proof.
  revert s. induction cs as [|c cs IH]; intros [i t]; cbn [puts length]; [intros [= <-]; by rewrite Z.sub_diag|].
  cbn [put]. destruct (out c buffer i maxlen t) as [t1|]; cbn [mbind option_bind]; [|done]. intros E. apply IH in E. cbn [fst] in *. word_lia.
Qed.
Lemma out_rev_spec x width flags s : Z.of_nat (length x) < 2 ^ 64 ->
  _out_rev out buffer maxlen (rev x) width flags s =
  puts (let room := Z.to_nat (width - Z.of_nat (length x)) in
        (if has flags FLAGS_LEFT then x ++ replicate room c_space else if has flags FLAGS_ZEROPAD then x else replicate room c_space ++ x)) s.
Proof.
  intros Hx. unfold _out_rev. rewrite length_rev, rev_involutive. destruct (has flags FLAGS_LEFT); cbn [negb andb mbind option_bind].
  - rewrite out_reverse_puts, puts_app. destruct (puts x s) as [s'|] eqn:E; cbn [mbind option_bind]; [|done].
    apply puts_index in E. rewrite E, u64_small by lia. apply spaces_puts.
  - destruct (has flags FLAGS_ZEROPAD); cbn [negb mbind option_bind].
    + rewrite out_reverse_puts. by destruct (puts x s).
    + rewrite spaces_puts, puts_app. destruct (puts (replicate _ _) s) as [s'|]; cbn [mbind option_bind]; [|done].
      rewrite out_reverse_puts. by destruct (puts x s').
Qed.

(** ** Integers *)

Lemma significant_start base upper v flags : (length (significant base upper v) <= length (start_digits base upper v flags))%nat.
Proof. unfold significant, start_digits. destruct (v =? 0); cbn [length negb]; [lia|]. rewrite orb_true_r. lia. Qed.
Lemma ntoa_start base upper v flags : 2 <= base <= 16 -> 0 <= v -> Z.testbit flags 5 = upper ->
  (length (start_digits base upper v flags) <= 32)%nat ->
  (if negb (has flags FLAGS_PRECISION) || negb (v =? 0) then ntoa_digits 32 v base flags [] else []) = rev (start_digits base upper v flags).
Proof.
  intros Hb Hv Hu. unfold start_digits. destruct (_ || _); [|done]. unfold digit_text at 1. rewrite length_fmap. intros Hl.
  by rewrite (ntoa_digits_spec upper) by (done || by rewrite has_UPPERCASE).
Qed.

Lemma padded_fields l sign fp body width : fp = [] \/ sign = [] /\ l_width l = 0 -> (l_left l = true \/ zero_padded l = false -> width = l_width l) ->
  (let x := sign ++ fp ++ field_zeros l sign body ++ body in let room := Z.to_nat (width - Z.of_nat (length x)) in
   if l_left l then x ++ replicate room c_space else if zero_padded l then x else replicate room c_space ++ x) = padded l (zero_padded l) (sign ++ fp) body.
Proof.
  intros Hfp Hw. unfold padded, field_zeros. cbv zeta. destruct (l_left l); [|destruct (zero_padded l)].
  - rewrite Hw by (by left). cbn [app]. by rewrite <- !app_assoc.
  - destruct Hfp as [-> | (-> & ->)]; [by rewrite app_nil_r|]. by rewrite !replicate_0 by lia.
  - rewrite Hw by (by right). cbn [app]. by rewrite <- !app_assoc.
Qed.
(** What the conversion of a number needs; [flags] with the flag # cleared for
    zero. *)
Lemma ntoa_spec l base upper v negative flags s :
  let flags' := if v =? 0 then clear flags FLAGS_HASH else flags in
  let prefix := flag_sign negative flags ++ flag_prefix base upper flags' in
  let body := integer_body l base upper v in
  2 <= base <= 16 -> 0 <= v -> flags_match l upper flags -> 0 <= default 0 (l_precision l) -> 0 <= l_width l ->
  integer_ok l prefix body (significant base upper v) = true ->
  Z.testbit flags' 4 = false \/ base ∈ [2; 8; 16] /\ no_field l = true /\ flag_sign negative flags = [] ->
  ntoa out buffer maxlen v negative base (default 0 (l_precision l)) (l_width l) flags s = puts (padded l (zero_padded l) prefix body) s.
Proof.
  intros flags' prefix body Hb Hv Hf Hp Hw Hok Hhash. unfold ntoa. fold flags'.
  assert (flags_match l upper flags' /\ flag_sign negative flags' = flag_sign negative flags /\ has flags' FLAGS_PRECISION = has flags FLAGS_PRECISION) as (Hf' & Es & Ep).
  { subst flags'. destruct (v =? 0); [|done]. destruct Hf as [H0 H1 H5 H10]. unfold flag_sign. split; [|split]; [split| |]; flag_bits; done. }
  apply andb_true_iff in Hok as [Hok Hle]. apply andb_true_iff in Hok as [Hlen Hz]. apply Z.leb_le in Hlen.
  assert (length (start_digits base upper v flags') <= length body)%nat as Hsd.
  { subst body. rewrite (body_zeros l base upper v flags') by done. rewrite length_app. lia. }
  pose proof Hlen as Hlen'. subst prefix. rewrite !length_app in Hlen. rewrite (ntoa_start base upper v flags') by first [done|apply Hf'|lia].
  set (sign := flag_sign negative flags) in *. set (fp := flag_prefix base upper flags') in *.
  assert (fp = [] \/ sign = [] /\ l_width l = 0 /\ default 0 (l_precision l) = 0 /\ Z.testbit flags' 10 = false) as Hfp.
  { destruct Hhash as [E|(_ & Hn & ?)]; [left; subst fp; unfold flag_prefix; by rewrite E|right].
    apply andb_true_iff in Hn as [Hn1 Hn2]. apply Z.eqb_eq in Hn1. apply bool_decide_eq_true in Hn2. rewrite (fm_precision _ _ _ Hf'), Hn2. done. }
  unfold _ntoa_format.
  destruct (ntoa_pad_spec l base upper v flags' Hb Hv Hf' Hp negative) as (width & Epad & Hwd & Hw0); rewrite ?Es; fold sign; fold body.
  - rewrite length_app. lia.
  - apply orb_true_iff in Hz as [Hz|Hz]; [apply orb_true_iff in Hz as [Hz|Hz]|]; [by left|right; left; by apply negb_true_iff|right; right; by apply Z.leb_le].
  - intros E. rewrite E in Hle. apply Z.leb_le in Hle. pose proof (significant_start base upper v flags'). lia.
  - done.
  - rewrite Epad, Es. fold sign body. clear Epad. set (zs := field_zeros l sign body) in *.
    assert (l_width l = 0 -> zs = []) as Hzs0.
    { intros E. subst zs. unfold field_zeros. rewrite E. destruct (l_left l), (zero_padded l); [done..| |done]. by apply replicate_0; lia. }
    assert (Z.of_nat (length (sign ++ fp ++ zs ++ body)) <= 32) as Hall.
    { rewrite !length_app. destruct Hfp as [Efp|(Esg & Ew & _)]; [rewrite Efp in *; cbn [length] in * |rewrite (Hzs0 Ew), Esg in *; cbn [length] in *; lia].
      subst zs. unfold field_zeros. destruct (l_left l), (zero_padded l); cbn [length]; try lia. rewrite length_replicate, length_app.
      cbn [orb negb] in Hz. apply Z.leb_le in Hz. lia. }
    cbv beta iota zeta. rewrite (ntoa_hash_spec base upper flags' _ _ (zs ++ body)); [|apply Hf'|].
    + fold fp. rewrite <- Es. rewrite ntoa_sign_spec by (rewrite Es; exact Hall). rewrite Es. fold sign. rewrite out_rev_spec by lia.
      rewrite has_LEFT, has_ZEROPAD, (fm_left _ _ _ Hf'), (fm_zero _ _ _ Hf'). f_equal. apply padded_fields; [destruct Hfp as [|(? & ? & _)]; [by left|by right]|done].
    + destruct Hhash as [E|(Hb2 & Hn & Esg)]; [by left|]. destruct (Z.testbit flags' 4) eqn:E4; [right|by left]. destruct Hfp as [Efp|(_ & Ew & Ep0 & E10)].
      { exfalso. revert Efp. subst fp. unfold flag_prefix. rewrite E4. repeat setoid_rewrite elem_of_cons in Hb2.
        destruct Hb2 as [-> | [-> | [-> | Hb2]]]; [done..|by apply elem_of_nil in Hb2]. }
      split_and!; [done|done|by apply Hw0| |].
      * rewrite length_app. pose proof (digit_text_nonempty base upper v ltac:(lia) Hv). revert Hsd. unfold start_digits. rewrite has_PRECISION, E10. cbn [negb orb]. lia.
      * rewrite <- Z.leb_le in Hall |- *. rewrite Esg in Hall. exact Hall.
Qed.
End Out.
