(* ===== verification/PrintfProps.v ===== *)
(** * printf prints what a format says (src/extlib/printf.c)

    The parser reads every spelling of a directive, the conversions print what
    PrintfSpec.v says, and vsnprintf leaves the text in the buffer. *)

From S2P Require Import Prelude Mem CString Alloc Printf PrintfSpec.

(** ** Reading a directive *)

(** The character a string begins with; its terminator if it is empty. *)
Definition hd0 (s : list Z) : Z := match s with [] => 0 | c :: _ => c end.
Lemma cstr_head m a s : cstr m a s -> load8 m a = hd0 s.
Proof. destruct s; [done|]. by intros (_ & ? & _). Qed.
Lemma cstr_drop m x : forall a y, cstr m a (x ++ y) -> cstr m (a + Z.of_nat (length x)) y.
Proof.
  induction x as [|c x IH]; intros a y; cbn [app length cstr]; [by rewrite Z.add_0_r|]. intros (_ & _ & H). apply IH in H.
  by replace (a + Z.of_nat (S (length x))) with (a + 1 + Z.of_nat (length x)) by lia.
Qed.

Lemma cstring_cstr m s : forall fuel a, cstring fuel m a = Some s -> cstr m a s /\ (length s < fuel)%nat.
Proof.
  induction s as [|c s IH]; intros [|fuel] a; cbn [cstring cstr length]; try done; zcase; try done; try (split; [done|lia]);
    destruct (cstring fuel m (a + 1)) as [s'|] eqn:E; cbn [mbind option_bind]; try done.
  intros [= <- ->]. apply IH in E as [H1 H2]. split; [done|lia].
Qed.

Definition flag_bit (f : flag) : Z := match f with FZero => 0 | FLeft => 1 | FPlus => 2 | FSpace => 3 | FHash => 4 end.
Definition flags_read (fs : list flag) : Z := foldl (fun n f => Z.lor n (2 ^ flag_bit f)) 0 fs.
Lemma parse_flags_spec m fs : forall fuel a f rest, cstr m a ((flag_char <$> fs) ++ rest) -> (length fs < fuel)%nat ->
  hd0 rest ∉ [c_0; c_minus; c_plus; c_space; c_hash] ->
  parse_flags fuel m a f = Some (a + Z.of_nat (length fs), foldl (fun n f => Z.lor n (2 ^ flag_bit f)) f fs).
Proof.
  induction fs as [|g fs IH]; intros [|fuel] a f rest Hc Hf Hr; cbn [length] in Hf; try lia; cbn [parse_flags].
  - cbn [fmap list_fmap app] in Hc. rewrite (cstr_head _ _ _ Hc). repeat setoid_rewrite elem_of_cons in Hr.
    rewrite !(proj2 (Z.eqb_neq _ _)) by tauto. cbn [length foldl]. by rewrite Z.add_0_r.
  - cbn [fmap list_fmap app cstr] in Hc. destruct Hc as (_ & -> & Hc). cbn [length foldl].
    replace (a + Z.of_nat (S (length fs))) with (a + 1 + Z.of_nat (length fs)) by lia.
    rewrite <- (IH fuel (a + 1) (Z.lor f (2 ^ flag_bit g)) rest) by (done || lia). by destruct g.
Qed.
Lemma flags_fold_bit fs : forall f k, 0 <= k ->
  Z.testbit (foldl (fun n f => Z.lor n (2 ^ flag_bit f)) f fs) k = Z.testbit f k || existsb (fun g => flag_bit g =? k) fs.
Proof.
  induction fs as [|g fs IH]; intros f k Hk; cbn [foldl existsb]; [by rewrite orb_false_r|].
  assert (0 <= flag_bit g) by (by destruct g). rewrite IH, Z.lor_spec, Z.pow2_bits_eqb, orb_assoc by done. done.
Qed.
Lemma flags_read_bit fs g : Z.testbit (flags_read fs) (flag_bit g) = bool_decide (g ∈ fs).
Proof.
  unfold flags_read. rewrite flags_fold_bit, Z.bits_0 by (by destruct g). cbn [orb].
  induction fs as [|f fs IH]; [done|]. cbn [existsb]. rewrite IH.
  destruct (decide (f = g)) as [->|Hn].
  - rewrite Z.eqb_refl. symmetry. apply bool_decide_eq_true. by left.
  - assert ((flag_bit f =? flag_bit g) = false) as -> by (by destruct f, g). cbn [orb]. apply bool_decide_ext. set_solver.
Qed.
Lemma flags_read_high fs k : 5 <= k -> Z.testbit (flags_read fs) k = false.
Proof.
  intros Hk. unfold flags_read. rewrite flags_fold_bit, Z.bits_0 by lia. cbn [orb].
  induction fs as [|f fs IH]; [done|]. cbn [existsb]. rewrite IH, orb_false_r. apply Z.eqb_neq. destruct f; cbn; lia.
Qed.

Lemma atoi_spec m ds : forall fuel a i rest, Forall (fun d => 0 <= d < 10) ds -> 0 <= i ->
  foldl (fun v d => v * 10 + d) i ds < 2 ^ 32 -> cstr m a ((digit_of false <$> ds) ++ rest) -> (length ds < fuel)%nat ->
  _is_digit (hd0 rest) = false ->
  _atoi fuel m a i = Some (foldl (fun v d => v * 10 + d) i ds, a + Z.of_nat (length ds)).
Proof.
  induction ds as [|d ds IH]; intros [|fuel] a i rest Hd Hi Hb Hc Hf Hr; cbn [length] in Hf; try lia; cbn [_atoi].
  - cbn [fmap list_fmap app] in Hc. rewrite (cstr_head _ _ _ Hc), Hr. cbn [length foldl]. by rewrite Z.add_0_r.
  - apply Forall_cons in Hd as [Hd Hds]. cbn [fmap list_fmap app cstr] in Hc. destruct Hc as (_ & Hl & Hc). cbn [foldl length] in *.
    unfold digit_of in Hl. rewrite (proj2 (Z.ltb_lt d 10)) in Hl by lia. rewrite Hl. unfold _is_digit. rewrite !(proj2 (Z.leb_le _ _)) by lia. cbn [andb].
    assert (i * 10 + d < 2 ^ 32).
    { rewrite foldl_numeral in Hb. destruct (numeral_bounds 10 ds) as [H0 _]; [lia|done|]. assert (1 <= 10 ^ Z.of_nat (length ds)) by (apply (Z.pow_le_mono_r 10 0); lia). nia. }
    replace (48 + d - 48) with d by lia. rewrite u32_small by lia. rewrite (IH fuel (a + 1) (i * 10 + d) rest) by (done || lia).
    do 2 f_equal. lia.
Qed.

Lemma digit_text_head n rest : 0 <= n -> 48 <= hd0 (digit_text 10 false n ++ rest) <= 57 /\ (0 < n -> hd0 (digit_text 10 false n ++ rest) <> c_0).
Proof.
  intros Hn. destruct (digits_spec 10 n ltac:(lia) Hn) as (_ & Hd & d & ds & E & H0). unfold digit_text. rewrite E in Hd |- *.
  apply Forall_cons in Hd as [Hd _]. cbn [fmap list_fmap app hd0]. unfold digit_of, c_0. rewrite (proj2 (Z.ltb_lt _ _)) by lia. lia.
Qed.
Lemma atoi_digits fuel m a n rest : 0 <= n < 2 ^ 32 -> cstr m a (digit_text 10 false n ++ rest) -> (length (digit_text 10 false n) < fuel)%nat ->
  _is_digit (hd0 rest) = false -> _atoi fuel m a 0 = Some (n, a + Z.of_nat (length (digit_text 10 false n))).
Proof.
  intros Hn Hc Hf Hr. destruct (digits_spec 10 n) as (Ev & Hd & _); [lia..|]. unfold digit_text in *. rewrite length_fmap in *.
  rewrite (atoi_spec m (digits 10 n) fuel a 0 rest) by (done || by (fold (numeral 10 (digits 10 n)); rewrite Ev; lia)).
  fold (numeral 10 (digits 10 n)). by rewrite Ev.
Qed.
Lemma is_digit_range c : 48 <= c <= 57 -> _is_digit c = true.
Proof. intros. unfold _is_digit. by rewrite !(proj2 (Z.leb_le _ _)) by lia. Qed.
Lemma is_digit_out c : ~ 48 <= c <= 57 -> _is_digit c = false.
Proof. intros. unfold _is_digit. repeat zcase; cbn [andb]; done || lia. Qed.

(** An amount in the format or in the arguments. *)
Lemma amount_value_range low a va n va' : amount_value a va = Some (n, va') -> amount_ok low a = true -> 0 <= low -> -2 ^ 31 <= n < 2 ^ 31.
Proof.
  unfold amount_value. destruct a as [k|]; cbn [amount_ok].
  - intros [= <- _]. rewrite andb_true_iff, Z.leb_le, Z.ltb_lt. lia.
  - destruct va as [|x va]; cbn [va_arg mbind option_bind]; [done|]. intros [= <- _] _ _. word_lia.
Qed.
Lemma parse_width_spec fuel m a f w n va va' rest : cstr m a (from_option amount_text [] w ++ rest) ->
  match w with None => Some (0, va) | Some x => amount_value x va end = Some (n, va') ->
  from_option (amount_ok 1) true w = true -> ~ 48 <= hd0 rest <= 57 -> hd0 rest <> c_star ->
  (length (from_option amount_text [] w) < fuel)%nat ->
  parse_width fuel m a f va = Some (mk_spec (if n <? 0 then Z.lor f FLAGS_LEFT else f) (Z.abs n) 0 (a + Z.of_nat (length (from_option amount_text [] w))) va').
Proof.
  intros Hc Hv Hok Hr Hs Hf. unfold parse_width. rewrite (cstr_head _ _ _ Hc). destruct w as [[k|]|]; cbn [from_option amount_text amount_ok] in *.
  - apply andb_true_iff in Hok as [Hk1 Hk2]. apply Z.leb_le in Hk1. apply Z.ltb_lt in Hk2. injection Hv as <- <-.
    destruct (digit_text_head k rest) as [Hh _]; [lia|]. rewrite is_digit_range by done.
    rewrite (atoi_digits fuel m a k rest) by (done || lia || by apply is_digit_out). cbn [mbind option_bind].
    rewrite (proj2 (Z.ltb_ge k 0)), Z.abs_eq by lia. done.
  - cbn [app hd0]. change (_is_digit c_star) with false. change (c_star =? c_star) with true. cbv iota.
    destruct va as [|x va]; cbn [amount_value va_arg mbind option_bind] in Hv |- *; [done|]. injection Hv as <- <-. cbn [length].
    assert (-2147483648 <= i32 x < 2147483648) by word_lia. zcase; rewrite u32_small by lia; do 2 f_equal; lia.
  - cbn [app length]. rewrite is_digit_out by done. rewrite (proj2 (Z.eqb_neq _ _)) by done. injection Hv as <- <-. by rewrite Z.add_0_r.
Qed.
Definition precision_text (p : option (option amount)) : list Z := from_option (fun p => c_dot :: from_option amount_text [] p) [] p.
Lemma parse_precision_spec fuel m f w p q a va va' rest : cstr m a (precision_text p ++ rest) ->
  match p with
  | None => Some (None, va)
  | Some None => Some (Some 0, va)
  | Some (Some x) => '(p, va) ← amount_value x va; if p <? 0 then None else Some (Some p, va)
  end = Some (q, va') ->
  from_option (from_option (amount_ok 0) true) true p = true -> 65 <= hd0 rest -> (length (precision_text p) < fuel)%nat ->
  parse_precision fuel m (mk_spec f w 0 a va) =
    Some (mk_spec (if bool_decide (q = None) then f else Z.lor f FLAGS_PRECISION) w (default 0 q) (a + Z.of_nat (length (precision_text p))) va') /\
  0 <= default 0 q < 2 ^ 32.
Proof.
  intros Hc Hv Hok Hr Hf. unfold parse_precision. cbn [sp_format sp_flags sp_width sp_va]. rewrite (cstr_head _ _ _ Hc).
  destruct p as [x|]; cbn [precision_text from_option] in *.
  2:{ cbn [app length]. rewrite (proj2 (Z.eqb_neq _ _)) by (unfold c_dot; lia). injection Hv as <- <-. rewrite Z.add_0_r. split; [done|cbn; lia]. }
  cbn [app hd0]. change (c_dot =? c_dot) with true. cbv iota. cbn [app cstr] in Hc. destruct Hc as (_ & _ & Hc). rewrite (cstr_head _ _ _ Hc).
  destruct x as [[k|]|]; cbn [from_option amount_text amount_ok length] in *.
  - apply andb_true_iff in Hok as [Hk1 Hk2]. apply Z.leb_le in Hk1. apply Z.ltb_lt in Hk2. cbn [amount_value mbind option_bind] in Hv.
    rewrite (proj2 (Z.ltb_ge k 0)) in Hv by lia. injection Hv as <- <-.
    destruct (digit_text_head k rest) as [Hh _]; [lia|]. rewrite is_digit_range by done.
    rewrite (atoi_digits fuel m (a + 1) k rest) by (first [done|lia|apply is_digit_out; lia]). cbn [mbind option_bind from_option id]. split; [|lia].
    rewrite bool_decide_false by done. do 2 f_equal. lia.
  - cbn [app hd0]. change (_is_digit c_star) with false. change (c_star =? c_star) with true. cbv iota.
    destruct va as [|y va]; cbn [amount_value va_arg mbind option_bind] in Hv |- *; [done|]. revert Hv. destruct (Z.ltb_spec (i32 y) 0); [done|]. intros [= <- <-].
    cbn [length from_option id]. rewrite bool_decide_false by done. split; [|word_lia]. f_equal. f_equal; [|lia].
    destruct (Z.ltb_spec 0 (i32 y)); [|lia]. apply u32_small. word_lia.
  - cbn [app length]. rewrite is_digit_out by lia. rewrite (proj2 (Z.eqb_neq _ _)) by (unfold c_star; lia). injection Hv as <- <-.
    rewrite bool_decide_false by done. split; [done|cbn; lia].
Qed.

Definition size_mask (s : size) : Z :=
  match s with Sint => 0 | Shh => 192 | Sh => 128 | Sl => 256 | Sll => 768 | St | Sj | Sz => 512 end.
Lemma parse_length_spec m f w p a va s c rest : cstr m a (size_text s ++ conversion_char c :: rest) ->
  parse_length m (mk_spec f w p a va) = mk_spec (Z.lor f (size_mask s)) w p (a + Z.of_nat (length (size_text s))) va.
Proof.
  intros Hc. unfold parse_length. cbn [sp_format sp_flags sp_width sp_precision sp_va]. rewrite (cstr_head _ _ _ Hc).
  assert (forall d, d ∈ [108; 104; 116; 106; 122] -> (conversion_char c =? d) = false) as Hn.
  { intros d Hd. repeat setoid_rewrite elem_of_cons in Hd. apply Z.eqb_neq. destruct c as [| | |[]| | | |]; cbn [conversion_char]; destruct Hd as [-> | [-> | [-> | [-> | [-> | Hd]]]]]; try done; by apply elem_of_nil in Hd. }
  destruct s; cbn [size_text app hd0 length size_mask] in *.
  - rewrite !Hn by set_solver. cbn [orb]. by rewrite Z.lor_0_r, Z.add_0_r.
  - cbn [cstr] in Hc. destruct Hc as (_ & _ & _ & -> & _). done.
  - cbn [cstr] in Hc. destruct Hc as (_ & _ & _ & -> & _). cbn [Z.eqb Pos.eqb]. by rewrite Hn by set_solver.
  - cbn [cstr] in Hc. destruct Hc as (_ & _ & _ & -> & _). cbn [Z.eqb Pos.eqb]. by rewrite Hn by set_solver.
  - cbn [cstr] in Hc. destruct Hc as (_ & _ & _ & -> & _). done.
  - done.
  - done.
  - done.
Qed.

(** The flags of the code once a directive is read. *)
Record flags_of (l : layout) (s : size) (f : Z) : Prop := {
  fo_zero : Z.testbit f 0 = l_zero l; fo_left : Z.testbit f 1 = l_left l; fo_plus : Z.testbit f 2 = l_plus l;
  fo_space : Z.testbit f 3 = l_space l; fo_hash : Z.testbit f 4 = l_hash l; fo_upper : Z.testbit f 5 = false;
  fo_char : Z.testbit f 6 = bool_decide (s = Shh); fo_short : Z.testbit f 7 = bool_decide (s = Shh) || bool_decide (s = Sh);
  fo_long : Z.testbit f 8 = bool_decide (s = Sl) || bool_decide (s = Sll);
  fo_long_long : Z.testbit f 9 = bool_decide (s = Sll) || bool_decide (s = St) || bool_decide (s = Sj) || bool_decide (s = Sz);
  fo_precision : Z.testbit f 10 = negb (bool_decide (l_precision l = None)) }.
Definition final_flags (fs : list flag) (w : Z) (q : option Z) (s : size) : Z :=
  Z.lor (let f := if w <? 0 then Z.lor (flags_read fs) FLAGS_LEFT else flags_read fs in if bool_decide (q = None) then f else Z.lor f FLAGS_PRECISION) (size_mask s).
Lemma final_flags_of fs w q s z : let given f := bool_decide (f ∈ fs) in
  flags_of (mk_layout (given FLeft || (w <? 0)) (given FZero) (given FPlus) (given FSpace) (given FHash) z q) s (final_flags fs w q s).
Proof.
  intros given. unfold final_flags, given.
  pose proof (flags_read_bit fs FZero) as H0. pose proof (flags_read_bit fs FLeft) as H1. pose proof (flags_read_bit fs FPlus) as H2.
  pose proof (flags_read_bit fs FSpace) as H3. pose proof (flags_read_bit fs FHash) as H4. cbn [flag_bit] in H0, H1, H2, H3, H4.
  split; cbn [l_zero l_left l_plus l_space l_hash l_precision]; rewrite !Z.lor_spec;
    (destruct (w <? 0); destruct (bool_decide (q = None)); cbv beta iota zeta; rewrite ?Z.lor_spec;
     rewrite ?H0, ?H1, ?H2, ?H3, ?H4, ?(flags_read_high fs 5), ?(flags_read_high fs 6), ?(flags_read_high fs 7), ?(flags_read_high fs 8), ?(flags_read_high fs 9), ?(flags_read_high fs 10) by lia;
     destruct s; cbn; rewrite ?orb_false_r, ?orb_true_r; done).
Qed.

Definition directive_tail (d : directive) : list Z :=
  (flag_char <$> d_flags d) ++ from_option amount_text [] (d_width d) ++ precision_text (d_precision d) ++ size_text (d_size d) ++ [conversion_char (d_conv d)].
Lemma size_head s c rest : 65 <= hd0 (size_text s ++ conversion_char c :: rest).
Proof. destruct s; cbn; try lia. destruct c as [| | |[]| | | |]; cbn; lia. Qed.
Lemma precision_head p s c rest : let h := hd0 (precision_text p ++ size_text s ++ conversion_char c :: rest) in h = c_dot \/ 65 <= h.
Proof. destruct p; [by left|right; apply size_head]. Qed.
Lemma width_head w p s c rest : from_option (amount_ok 1) true w = true ->
  hd0 (from_option amount_text [] w ++ precision_text p ++ size_text s ++ conversion_char c :: rest) ∉ [c_0; c_minus; c_plus; c_space; c_hash].
Proof.
  intros Hok. repeat setoid_rewrite not_elem_of_cons. unfold c_0, c_minus, c_plus, c_space, c_hash.
  destruct w as [[k|]|]; cbn [from_option amount_text amount_ok] in *.
  - apply andb_true_iff in Hok as [Hk _]. apply Z.leb_le in Hk. destruct (digit_text_head k (precision_text p ++ size_text s ++ conversion_char c :: rest)) as [H1 H2]; [lia|].
    specialize (H2 ltac:(lia)). unfold c_0 in H2. repeat split; try lia. by apply not_elem_of_nil.
  - cbn. repeat split; try done. by apply not_elem_of_nil.
  - destruct (precision_head p s c rest) as [H|H]; unfold c_dot in *; repeat split; try (cbn [app] in *; lia); by apply not_elem_of_nil.
Qed.
Lemma parse_spec_spec fuel m a d l va va' rest : cstr m a (directive_tail d ++ rest) -> directive_layout d va = Some (l, va') ->
  item_ok (Directive d) = true -> (length (directive_tail d) < fuel)%nat ->
  exists f, parse_spec fuel m a va = Some (mk_spec f (l_width l) (default 0 (l_precision l)) (a + Z.of_nat (length (directive_tail d)) - 1) va') /\
    flags_of l (d_size d) f /\ 0 <= default 0 (l_precision l) < 2 ^ 32 /\ 0 <= l_width l < 2 ^ 32 /\
    load8 m (a + Z.of_nat (length (directive_tail d)) - 1) = conversion_char (d_conv d).
Proof.
  unfold directive_tail, directive_layout, item_ok. destruct d as [fs w p s c]. cbn [d_flags d_width d_precision d_size d_conv].
  intros Hc Hl Hok Hf. apply andb_true_iff in Hok as [[_ Hw]%andb_true_iff Hp]. rewrite <- !app_assoc in Hc. cbn [app] in Hc. rewrite !length_app, length_fmap in *.
  destruct (match w with None => _ | Some x => _ end) as [[n va1]|] eqn:Ew; cbn [mbind option_bind] in Hl; [|done].
  destruct (match p with None => _ | Some x => _ end) as [[q va2]|] eqn:Ep; cbn [mbind option_bind] in Hl; [|done]. injection Hl as <- <-.
  unfold parse_spec. rewrite (parse_flags_spec m fs fuel a 0 _ Hc) by (try lia; by apply width_head). cbn [mbind option_bind]. fold (flags_read fs).
  apply cstr_drop in Hc. rewrite length_fmap in Hc.
  rewrite (parse_width_spec fuel m _ _ w n va va1 _ Hc Ew Hw) by (try lia; destruct (precision_head p s c rest) as [H|H]; unfold c_dot, c_star in *; lia).
  cbn [mbind option_bind]. apply cstr_drop in Hc.
  destruct (parse_precision_spec fuel m (if n <? 0 then Z.lor (flags_read fs) FLAGS_LEFT else flags_read fs) (Z.abs n) p q _ va1 va2 _ Hc Ep Hp (size_head s c rest) ltac:(lia)) as [-> Hq].
  cbn [mbind option_bind]. apply cstr_drop in Hc. rewrite (parse_length_spec m _ _ _ _ _ s c rest Hc). apply cstr_drop in Hc.
  exists (final_flags fs n q s). cbn [l_width l_precision]. split; [|split; [apply final_flags_of|split; [done|split]]].
  - do 2 f_equal. cbn [length]. lia.
  - assert (-2 ^ 31 <= n < 2 ^ 31); [|lia]. destruct w as [x|]; [by eapply amount_value_range|]. by injection Ew as <- _.
  - apply cstr_head in Hc. cbn [hd0] in Hc. rewrite <- Hc. f_equal. cbn [length]. lia.
Qed.

(** ** The conversions *)

Definition is_integer (c : conversion) : bool := match c with Cc | Cs => false | _ => true end.
Definition signed_conversion (c : conversion) : bool := match c with Cd | Ci => true | _ => false end.
Lemma is_signed_char c : is_integer c = true -> is_signed (conversion_char c) = signed_conversion c /\ integer_base (conversion_char c) = conversion_base c.
Proof. by destruct c as [| | |[]| | | |]. Qed.
Lemma integer_flags_bits c l s f : is_integer c = true -> flags_of l s f -> let f' := integer_flags (conversion_char c) f in
  flags_match l (conversion_upper c) f' /\ Z.testbit f' 2 = signed_conversion c && l_plus l /\ Z.testbit f' 3 = signed_conversion c && l_space l /\
  Z.testbit f' 4 = l_hash l && negb (conversion_base c =? 10) /\
  Z.testbit f' 6 = Z.testbit f 6 /\ Z.testbit f' 7 = Z.testbit f 7 /\ Z.testbit f' 8 = Z.testbit f 8 /\ Z.testbit f' 9 = Z.testbit f 9.
Proof.
  intros Hc Hf. unfold integer_flags. destruct (is_signed_char c Hc) as [-> ->].
  assert (zero_padded l = Z.testbit f 0 && negb (Z.testbit f 10)) as Hz by (rewrite (fo_zero _ _ _ Hf), (fo_precision _ _ _ Hf), negb_involutive; done).
  destruct Hf. destruct c as [| | |[]| | | |]; try discriminate; cbn [conversion_char conversion_base conversion_upper signed_conversion Z.eqb Pos.eqb negb andb];
    flag_bits; (destruct (Z.testbit f 10) eqn:E10; rewrite ?E10 in Hz; cbn [negb] in Hz; rewrite ?andb_true_r, ?andb_false_r in Hz; repeat split; flag_bits; cbn [negb orb andb] in *; flag_bits; congruence).
Qed.

Lemma abs_u64 v : -2 ^ 63 <= v < 2 ^ 63 -> u64 (if 0 <? v then v else i64 (0 - v)) = Z.abs v.
Proof. intros. zcase; word_lia. Qed.
Lemma abs_u32 v : -2 ^ 31 <= v < 2 ^ 31 -> u32 (if 0 <? v then v else i32 (0 - v)) = Z.abs v.
Proof. intros. zcase; word_lia. Qed.
Lemma i8_range z : -128 <= i8 z < 128.
Proof. unfold i8. lia. Qed.
Lemma i16_range z : -32768 <= i16 z < 32768.
Proof. unfold i16. lia. Qed.
Lemma i32_range z : -2 ^ 31 <= i32 z < 2 ^ 31.
Proof. word_lia. Qed.
Lemma i64_range z : -2 ^ 63 <= i64 z < 2 ^ 63.
Proof. word_lia. Qed.
Lemma unsigned_arg_range s x : 0 <= unsigned_arg s x < 2 ^ 64.
Proof. destruct s; cbn [unsigned_arg]; word_lia. Qed.

(** Comparisons of sizes, computed. *)
Ltac decide_size := repeat match goal with |- context [@bool_decide (@eq size ?a ?b) ?d] =>
  let v := eval vm_compute in (@bool_decide (@eq size a b) d) in change (@bool_decide (@eq size a b) d) with v end.

Section Conversions.
Context {T : Type}.
Variable mem_of : T -> mem.
Variables _ftoa _etoa : (Z -> Z -> Z -> Z -> T -> option T) -> Z -> Z -> Z -> Z -> Z -> Z -> Z -> T -> option (Z * T).
Variables (out : Z -> Z -> Z -> Z -> T -> option T) (buffer maxlen : Z).
Notation puts := (puts out buffer maxlen).

(** The digits of a number the directive asks for. *)
Lemma signed_digits l f' v st : flags_match l false f' -> Z.testbit f' 2 = l_plus l -> Z.testbit f' 3 = l_space l -> Z.testbit f' 4 = false ->
  signed_ok l v = true -> 0 <= default 0 (l_precision l) -> 0 <= l_width l ->
  ntoa out buffer maxlen (Z.abs v) (v <? 0) 10 (default 0 (l_precision l)) (l_width l) f' st = puts (signed_text l v) st.
Proof.
  intros Hm H2 H3 H4 Hok Hp Hw. unfold signed_ok in Hok. unfold signed_text.
  assert (flag_sign (v <? 0) f' = sign_text l v) as Es by (unfold flag_sign, sign_text; by rewrite H2, H3).
  assert (forall b : bool, flag_prefix 10 false (if b then clear f' FLAGS_HASH else f') = []) as Ef.
  { intros []; unfold flag_prefix; flag_bits; [done|]. by rewrite H4. }
  pose proof (ntoa_spec out buffer maxlen l 10 false (Z.abs v) (v <? 0) f' st) as H. cbv zeta in H. rewrite Ef, app_nil_r, Es in H.
  apply H; first [done|lia|idtac]. left. destruct (Z.abs v =? 0); flag_bits; done.
Qed.
(** The prefix of the code is that of the standard. *)
Lemma base_text_code l base upper v : 0 <= v ->
  negb (l_hash l && (if base =? 8 then negb (v =? 0) || bool_decide (l_precision l = Some 0) else negb (v =? 0))) || no_field l = true ->
  base_text l base upper v = if l_hash l && negb (v =? 0) then
    if base =? 16 then [c_0; if upper then 88 else 120] else if base =? 8 then [c_0] else if base =? 2 then [c_0; 98] else [] else [].
Proof.
  intros Hv Hok. unfold base_text. destruct (l_hash l); [|done]. cbn [andb] in *.
  destruct (Z.eqb_spec base 8) as [->|Hb]; [|by destruct (v =? 0)]. change (8 =? 16) with false. cbv iota.
  destruct (Z.eqb_spec v 0) as [->|Hne]; cbn [negb orb] in *.
  - assert (starts_zero (integer_body l 8 upper 0) = true) as ->; [|done]. unfold integer_body. change (digit_text 8 upper 0) with [c_0].
    assert (l_precision l <> Some 0) as Hp0.
    { intros E. unfold no_field in Hok. rewrite E, bool_decide_true in Hok by done. rewrite bool_decide_false in Hok by done. by rewrite andb_false_r in Hok. }
    destruct (l_precision l) as [[|q|q]|]; [done| | |done]; cbn [from_option id Z.eqb]; by destruct (Z.to_nat _).
  - apply andb_true_iff in Hok as [_ Hp]. apply bool_decide_eq_true in Hp. unfold integer_body. rewrite Hp. cbn [from_option id].
    destruct (digits_spec 8 v ltac:(lia) Hv) as (_ & Hd & d & ds & E & H0). unfold digit_text. rewrite E in Hd |- *. cbn [fmap list_fmap length].
    rewrite replicate_0 by lia. apply Forall_cons in Hd as [Hd _]. cbn [app starts_zero]. unfold digit_of, c_0.
    rewrite (proj2 (Z.ltb_lt d 10)), (proj2 (Z.eqb_neq _ _)) by lia. done.
Qed.
Lemma unsigned_digits l f' base upper v st : flags_match l upper f' -> Z.testbit f' 2 = false -> Z.testbit f' 3 = false ->
  base ∈ [2; 8; 10; 16] -> Z.testbit f' 4 = l_hash l && negb (base =? 10) -> 0 <= v ->
  unsigned_ok l base upper v = true -> 0 <= default 0 (l_precision l) -> 0 <= l_width l ->
  ntoa out buffer maxlen v false base (default 0 (l_precision l)) (l_width l) f' st = puts (unsigned_text l base upper v) st.
Proof.
  intros Hm H2 H3 Hb H4 Hv Hok Hp Hw. unfold unsigned_ok in Hok. apply andb_true_iff in Hok as [Hok Hnf]. unfold unsigned_text.
  assert (flag_sign false f' = []) as Es by (unfold flag_sign; by rewrite H2, H3).
  assert (Z.testbit (if v =? 0 then clear f' FLAGS_HASH else f') 4 = l_hash l && negb (v =? 0) && negb (base =? 10)) as H4'.
  { destruct (v =? 0); flag_bits; cbn [negb]; rewrite ?andb_false_r, ?andb_true_r; done. }
  assert (flag_prefix base upper (if v =? 0 then clear f' FLAGS_HASH else f') = base_text l base upper v) as Ef.
  { rewrite (base_text_code l base upper v Hv Hnf). unfold flag_prefix. rewrite H4'. destruct (l_hash l && negb (v =? 0)); cbn [andb]; [|done]. zcase; [by subst|done]. }
  pose proof (ntoa_spec out buffer maxlen l base upper v false f' st) as H. cbv zeta in H. rewrite Ef, Es in H.
  assert (2 <= base <= 16) as Hb' by (repeat setoid_rewrite elem_of_cons in Hb; destruct Hb as [|[|[|[|Hb]]]]; [lia..|by apply elem_of_nil in Hb]).
  apply H; try done. rewrite H4'. destruct (l_hash l && negb (v =? 0) && negb (base =? 10)) eqn:E4; [right|by left]. symmetry in E4. apply andb_true_eq in E4 as [E1 E2].
  assert (base ∈ [2; 8; 16]) as Hb3.
  { revert Hb E2. rewrite !elem_of_cons. destruct (Z.eqb_spec base 10); [done|]. tauto. }
  split_and!; [done| |done]. apply orb_true_iff in Hnf as [Hnf|Hnf]; [|done]. exfalso. revert Hnf.
  symmetry in E1. apply andb_true_iff in E1 as [-> ->]. by destruct (base =? 8).
Qed.
Lemma convert_integer_spec c sp l s x va st : is_integer c = true -> flags_of l s (sp_flags sp) -> sp_width sp = l_width l ->
  sp_precision sp = default 0 (l_precision l) -> sp_va sp = x :: va -> piece_ok (Convert l s c x) = true -> 0 <= default 0 (l_precision l) -> 0 <= l_width l ->
  convert_integer out buffer maxlen (conversion_char c) sp st = st ← puts (piece_text [] (Convert l s c x)) st; Some (va, st).
Proof.
  intros Hc Hf Ew Ep Ev Hok Hp Hw. destruct (integer_flags_bits c l s _ Hc Hf) as (Hm & H2 & H3 & H4 & H6 & H7 & H8 & H9).
  unfold convert_integer. destruct (is_signed_char c Hc) as [-> ->]. rewrite Ev. cbn [va_arg mbind option_bind]. rewrite Ew, Ep.
  set (f' := integer_flags _ _) in *. rewrite has_LONG_LONG, has_LONG, has_CHAR, has_SHORT, H6, H7, H8, H9.
  rewrite (fo_char _ _ _ Hf), (fo_short _ _ _ Hf), (fo_long _ _ _ Hf), (fo_long_long _ _ _ Hf). clear H6 H7 H8 H9.
  destruct (signed_conversion c) eqn:Es; cbn [andb] in H2, H3.
  - assert (piece_text [] (Convert l s c x) = signed_text l (signed_arg s x) /\ signed_ok l (signed_arg s x) = true /\ conversion_base c = 10 /\ conversion_upper c = false)
      as (-> & Hok' & Eb & Eu) by (by destruct c).
    rewrite Eb, Eu in *. cbn [Z.eqb Pos.eqb negb] in H4. rewrite andb_false_r in H4. rewrite <- (signed_digits l f') by done. unfold _ntoa_long_long, _ntoa_long.
    pose proof (i8_range x). pose proof (i16_range x). pose proof (i32_range x). pose proof (i64_range x).
    destruct s; decide_size; cbn [orb signed_arg]; rewrite ?abs_u64, ?abs_u32 by lia; done.
  - assert (piece_text [] (Convert l s c x) = unsigned_text l (conversion_base c) (conversion_upper c) (unsigned_arg s x) /\
      unsigned_ok l (conversion_base c) (conversion_upper c) (unsigned_arg s x) = true /\ conversion_base c ∈ [2; 8; 10; 16]) as (-> & Hok' & Hb).
    { destruct c; try discriminate; (split; [done|split; [done|cbn; set_solver]]). }
    pose proof (unsigned_arg_range s x). rewrite <- (unsigned_digits l f') by (done || lia). unfold _ntoa_long_long, _ntoa_long.
    destruct s; decide_size; cbn [orb unsigned_arg]; rewrite ?(u32_small (u8 x)), ?(u32_small (u16 x)), ?(u32_small (u32 x)) by word_lia; done.
Qed.

Lemma padded_left l body : l_left l = true -> padded l false [] body = body ++ replicate (Z.to_nat (l_width l - Z.of_nat (length body))) c_space.
Proof. intros E. unfold padded. by rewrite E. Qed.
Lemma padded_right l body : l_left l = false -> padded l false [] body = replicate (Z.to_nat (l_width l - Z.of_nat (length body))) c_space ++ body.
Proof. intros E. unfold padded. by rewrite E. Qed.
Lemma convert_char_spec sp l s x va st : flags_of l s (sp_flags sp) -> sp_width sp = l_width l -> sp_va sp = x :: va ->
  convert_char out buffer maxlen sp st = st ← puts (piece_text [] (Convert l s Cc x)) st; Some (va, st).
Proof.
  intros Hf Ew Ev. unfold convert_char. rewrite has_LEFT, (fo_left _ _ _ Hf), Ew, Ev. cbn [piece_text].
  destruct (l_left l) eqn:El; [rewrite padded_left by done|rewrite padded_right by done]; cbn [negb mbind option_bind va_arg length]; rewrite spaces_puts || idtac;
    rewrite puts_app; cbn [PrintfSpec.puts].
  - destruct (put _ _ _ _ st) as [st1|]; cbn [mbind option_bind]; [|done]. by rewrite spaces_puts.
  - destruct (puts (replicate _ _) st) as [st1|]; cbn [mbind option_bind]; [|done]. by destruct (put _ _ _ _ st1).
Qed.
Lemma convert_pointer_spec sp l s x va st : flags_of l s (sp_flags sp) -> l = mk_layout false false false false false 0 None -> sp_precision sp = 0 -> sp_va sp = x :: va ->
  convert_pointer out buffer maxlen sp st = st ← puts (address_text x) st; Some (va, st).
Proof.
  intros Hf -> Ep Ev. unfold convert_pointer. rewrite Ev, Ep. cbn [va_arg mbind option_bind]. unfold _ntoa_long_long.
  set (l16 := mk_layout false true false false false 16 None). set (f' := Z.lor _ _).
  assert (Z.testbit f' 2 = false /\ Z.testbit f' 3 = false /\ Z.testbit f' 4 = false) as (H2 & H3 & H4).
  { destruct Hf. subst f'. flag_bits. done. }
  pose proof (u64_range x) as Hx. pose proof (digits_bound 16 (u64 x) 16 ltac:(lia) ltac:(lia) ltac:(lia)) as Hl.
  assert (unsigned_text l16 16 true (u64 x) = address_text x) as <-.
  { unfold unsigned_text, address_text, padded, integer_body, base_text. cbn [l_left l_hash l_precision l_width l16 from_option id andb zero_padded l_zero app length].
    change (zero_padded l16) with true. cbv iota.
    pose proof (digit_text_nonempty 16 true (u64 x) ltac:(lia) ltac:(lia)) as Hne.
    assert (length (digit_text 16 true (u64 x)) <= 16)%nat as Hl16 by (unfold digit_text; by rewrite length_fmap).
    set (ds := digit_text 16 true (u64 x)) in *. rewrite bool_decide_true by done. rewrite (replicate_0 (1 - len ds)) by lia. cbn [app]. f_equal. f_equal. lia. }
  rewrite <- (unsigned_digits l16 f'); [done| |done..|set_solver|done|lia| |done|done].
  - destruct Hf. cbn [l_zero l_left l_precision] in *. subst f'. split; flag_bits; done.
  - assert (length (integer_body l16 16 true (u64 x)) <= 32)%nat.
    { unfold integer_body, digit_text. cbn [l_precision l16 from_option id]. rewrite length_app, length_replicate, length_fmap. lia. }
    unfold unsigned_ok, integer_ok, base_text. cbn [l_hash l16 andb app l_left l_precision negb orb from_option id l_width].
    rewrite (proj2 (Z.leb_le _ _)) by lia. rewrite orb_true_r. done.
Qed.

(** *** Strings *)

(** Addresses that no output changes. *)
Variable keep : Z -> Prop.
Hypothesis Hkeep : forall c idx t t', 0 <= idx -> out c buffer idx maxlen t = Some t' -> forall a, keep a -> mem_of t' a = mem_of t a.
Definition kept (m : mem) (st : Z * T) : Prop := 0 <= st.1 /\ forall a, keep a -> mem_of st.2 a = m a.
Lemma put_kept m c st st' : kept m st -> put out buffer maxlen c st = Some st' -> kept m st'.
Proof.
  destruct st as [i t]. cbn [put]. destruct (out c buffer i maxlen t) as [t'|] eqn:E; cbn [mbind option_bind]; [|done].
  intros [H0 Hk] [= <-]. split; [apply u64_range|]. intros a Ha. cbn [snd] in *. rewrite (Hkeep _ _ _ _ H0 E a Ha). by apply Hk.
Qed.
Lemma puts_kept m cs : forall st st', kept m st -> puts cs st = Some st' -> kept m st'.
Proof.
  induction cs as [|c cs IH]; intros st st' Hk; cbn [PrintfSpec.puts]; [by intros [= <-]|].
  destruct (put _ _ _ c st) as [s1|] eqn:E; cbn [mbind option_bind]; [|done]. apply IH. by eapply put_kept.
Qed.
Definition keep_range (a n : Z) : Prop := forall x, a <= x < a + n -> keep x.
Lemma kept_load m st a : kept m st -> keep a -> load8 (mem_of st.2) a = load8 m a.
Proof. intros [_ Hk] Ha. unfold load8. by rewrite Hk. Qed.
Lemma out_string_spec m f str : forall fuel p precision st, cstr m p str -> keep_range p (Z.of_nat (length str) + 1) -> kept m st ->
  (length str < fuel)%nat -> (Z.testbit f 10 = true -> 0 <= precision) ->
  out_string mem_of out buffer maxlen fuel p f precision st = puts (if Z.testbit f 10 then take (Z.to_nat precision) str else str) st.
Proof.
  induction str as [|c str IH]; intros [|fuel] p precision st Hc Hr Hk Hf Hp; cbn [length] in *; try lia; cbn [out_string];
    rewrite kept_load with (m := m) by (done || apply Hr; lia); rewrite has_PRECISION; cbn [cstr] in Hc.
  - rewrite Hc. cbn [Z.eqb negb andb]. rewrite take_nil. by destruct (Z.testbit f 10).
  - destruct Hc as (Hn & -> & Hc). rewrite (proj2 (Z.eqb_neq c 0)) by done. cbn [negb andb].
    assert (forall st1, put out buffer maxlen c st = Some st1 -> (Z.testbit f 10 = true -> 0 <= precision - 1) ->
      out_string mem_of out buffer maxlen fuel (p + 1) f (precision - 1) st1 = puts (if Z.testbit f 10 then take (Z.to_nat (precision - 1)) str else str) st1) as Hrec.
    { intros st1 E Hq. apply IH; [done| |by eapply put_kept|lia|done]. intros x Hx. apply Hr. lia. }
    destruct (Z.testbit f 10); cbn [negb orb].
    + specialize (Hp eq_refl). destruct (Z.eqb_spec precision 0) as [->|]; cbn [negb]; [done|].
      replace (Z.to_nat precision) with (S (Z.to_nat (precision - 1))) by lia. cbn [take PrintfSpec.puts].
      destruct (put _ _ _ c st) as [s1|] eqn:E; cbn [mbind option_bind]; [|done]. apply Hrec; [done|]. intros _. lia.
    + cbn [PrintfSpec.puts]. destruct (put _ _ _ c st) as [s1|] eqn:E; cbn [mbind option_bind]; [|done]. by apply Hrec.
Qed.
Lemma strnlen_spec m str : forall fuel p maxsize, cstr m p str -> 0 <= maxsize -> (length str < fuel)%nat ->
  strnlen_loop fuel m p maxsize = Some (p + Z.min maxsize (Z.of_nat (length str))).
Proof.
  induction str as [|c str IH]; intros [|fuel] p maxsize Hc Hm Hf; cbn [length] in *; try lia; cbn [strnlen_loop]; cbn [cstr] in Hc.
  - rewrite Hc. cbn [Z.eqb negb andb]. f_equal. lia.
  - destruct Hc as (Hn & -> & Hc). rewrite (proj2 (Z.eqb_neq c 0)) by done. cbn [negb andb]. zcase; cbn [negb]; [f_equal; lia|].
    rewrite IH by (done || lia). f_equal. lia.
Qed.
Lemma convert_string_spec m fuel sp l s x va str st : flags_of l s (sp_flags sp) -> sp_width sp = l_width l -> sp_precision sp = default 0 (l_precision l) ->
  sp_va sp = x :: va -> 0 <= default 0 (l_precision l) < 2 ^ 32 -> cstr m x str -> keep_range x (Z.of_nat (length str) + 1) -> kept m st ->
  (length str < fuel)%nat -> Z.of_nat (length (piece_text str (Convert l s Cs x))) < 2 ^ 32 ->
  convert_string mem_of out buffer maxlen fuel sp st = st ← puts (piece_text str (Convert l s Cs x)) st; Some (va, st).
Proof.
  intros Hf Ew Ep Ev Hp Hc Hr Hk Hfu Ht. unfold convert_string, _strnlen_s. rewrite Ev, Ew, Ep. cbn [va_arg mbind option_bind].
  assert (cstr (mem_of st.2) x str) as Hc' by (eapply cstr_ext; [|done]; intros a Ha; apply Hk, Hr; lia).
  rewrite (strnlen_spec _ str) by (first [done|lia|destruct (default 0 (l_precision l) =? 0); cbn [negb]; lia]). cbn [mbind option_bind].
  set (body := match l_precision l with Some p => take (Z.to_nat p) str | None => str end).
  assert (piece_text str (Convert l s Cs x) = padded l false [] body) as Et by done. rewrite Et in Ht |- *.
  rewrite has_LEFT, has_PRECISION, (fo_left _ _ _ Hf), (fo_precision _ _ _ Hf). set (n := if negb (bool_decide (l_precision l = None)) then _ else _).
  assert (n = Z.of_nat (length body)) as ->.
  { assert (length body <= length (padded l false [] body))%nat by (unfold padded; destruct (l_left l); rewrite !length_app; lia).
    subst n body. destruct (l_precision l) as [q|]; cbn [from_option id] in *.
    - rewrite bool_decide_false by done. cbn [negb]. rewrite length_take. destruct (Z.eqb_spec q 0) as [->|]; cbn [negb].
      + zcase; [word_lia|lia].
      + rewrite u32_small by lia. zcase; lia.
    - rewrite bool_decide_true by done. cbn [negb Z.eqb]. rewrite u32_small by lia. lia. }
  assert (forall st', kept m st' -> out_string mem_of out buffer maxlen fuel x (sp_flags sp) (default 0 (l_precision l)) st' = puts body st') as Hs.
  { intros st' Hk'. rewrite (out_string_spec m _ str) by (try done; intros _; lia). rewrite (fo_precision _ _ _ Hf). subst body. by destruct (l_precision l). }
  destruct (l_left l) eqn:El; cbn [negb mbind option_bind].
  - rewrite Hs, padded_left, puts_app by done. destruct (puts body st) as [s1|]; cbn [mbind option_bind]; [|done]. by rewrite spaces_puts.
  - rewrite padded_right, puts_app, spaces_puts by done. destruct (puts (replicate _ _) st) as [s1|] eqn:E1; cbn [mbind option_bind]; [|done].
    rewrite Hs by (by eapply puts_kept). by destruct (puts body s1).
Qed.

(** ** The format *)

Lemma convert_dispatch fuel c sp st : convert mem_of _ftoa _etoa out buffer maxlen fuel (conversion_char c) sp st =
  match c with
  | Cc => convert_char out buffer maxlen sp st
  | Cs => convert_string mem_of out buffer maxlen fuel sp st
  | _ => convert_integer out buffer maxlen (conversion_char c) sp st
  end.
Proof. by destruct c as [| | |[]| | | |]. Qed.
Lemma parse_spec_bare fuel m a va c : load8 m a = c -> c ∈ [c_percent; 112] -> (0 < fuel)%nat -> parse_spec fuel m a va = Some (mk_spec 0 0 0 a va).
Proof.
  intros E Hc Hf. destruct fuel as [|fuel]; [lia|]. unfold parse_spec, parse_width, parse_precision, parse_length. cbn [parse_flags]. rewrite E.
  rewrite !elem_of_cons in Hc. destruct Hc as [-> | [-> | Hc]]; [..|by apply elem_of_nil in Hc]; by repeat (cbn -[load8]; rewrite E).
Qed.
(** One piece that begins with a percent sign: where the format goes on, and the
    output. *)
Lemma special_step m i inner fmt va va' p str st rest :
  (forall c, i <> Plain c) -> cstr m fmt (render i ++ rest) -> keep_range fmt (Z.of_nat (length (render i ++ rest)) + 1) -> kept m st ->
  resolve_item i va = Some (p, va') -> item_ok i = true -> piece_ok p = true -> string_arg inner m p = Some str ->
  Forall (fun '(a, n) => keep_range a n) (strings_read inner m [p]) -> (length (render i) <= inner)%nat -> Z.of_nat (length (piece_text str p)) < 2 ^ 32 ->
  exists sp, parse_spec inner (mem_of st.2) (fmt + 1) va = Some sp /\ sp_format sp + 1 = fmt + Z.of_nat (length (render i)) /\
    convert mem_of _ftoa _etoa out buffer maxlen inner (load8 (mem_of st.2) (sp_format sp)) sp st = st ← puts (piece_text str p) st; Some (va', st).
Proof.
  intros Hi Hc Hr Hk Hres Hok Hpok Hstr Hsr Hfu Ht.
  assert (cstr (mem_of st.2) fmt (render i ++ rest)) as Hc' by (eapply cstr_ext; [|done]; intros a Ha; apply Hk, Hr; lia).
  destruct i as [c| | |d]; [by destruct (Hi c)| | |].
  - cbn [resolve_item] in Hres. injection Hres as <- <-. cbn [render app length] in *. destruct Hc' as (_ & _ & _ & E & _).
    exists (mk_spec 0 0 0 (fmt + 1) va). split; [apply (parse_spec_bare _ _ _ _ c_percent); [done|set_solver|lia]|]. split; [cbn; lia|].
    cbn [sp_format]. rewrite E. cbn [piece_text PrintfSpec.puts]. change (convert _ _ _ _ _ _ _ c_percent _ st) with (st ← put out buffer maxlen c_percent st; Some (va, st)).
    by destruct (put _ _ _ _ st).
  - cbn [resolve_item] in Hres. destruct va as [|x va]; cbn [va_arg mbind option_bind] in Hres; [done|]. injection Hres as <- <-. cbn [render app length] in *.
    destruct Hc' as (_ & _ & _ & E & _). exists (mk_spec 0 0 0 (fmt + 1) (x :: va)).
    split; [apply (parse_spec_bare _ _ _ _ 112); [done|set_solver|lia]|]. split; [cbn; lia|]. cbn [sp_format]. rewrite E.
    change (convert _ _ _ _ _ _ _ 112 _ st) with (convert_pointer out buffer maxlen (mk_spec 0 0 0 (fmt + 1) (x :: va)) st).
    by apply (convert_pointer_spec _ (mk_layout false false false false false 0 None) Sint).
  - cbn [resolve_item] in Hres. destruct (directive_layout d va) as [[l va1]|] eqn:El; cbn [mbind option_bind] in Hres; [|done].
    destruct va1 as [|x va1]; cbn [va_arg mbind option_bind] in Hres; [done|]. injection Hres as <- <-.
    change (render (Directive d)) with (c_percent :: directive_tail d) in *. cbn [app length] in *. destruct Hc' as (_ & _ & Hc').
    destruct (parse_spec_spec inner _ _ d l va (x :: va1) rest Hc' El Hok ltac:(lia)) as (f & E & Hf & Hp & Hw & Ec).
    eexists. split; [exact E|]. cbn [sp_format]. split; [lia|]. rewrite Ec, convert_dispatch.
    destruct (is_integer (d_conv d)) eqn:Eint.
    + cbn [string_arg] in Hstr. pose proof (convert_integer_spec (d_conv d) (mk_spec f (l_width l) (default 0 (l_precision l)) (fmt + 1 + len (directive_tail d) - 1) (x :: va1)) l (d_size d) x va1 st
        Eint Hf eq_refl eq_refl eq_refl Hpok (proj1 Hp) (proj1 Hw)) as Hi'.
      destruct (d_conv d); try discriminate; exact Hi'.
    + destruct (d_conv d); try discriminate.
      * by apply (convert_char_spec _ l (d_size d)).
      * cbn [string_arg] in Hstr. destruct (cstring_cstr _ _ _ _ Hstr) as [Hs Hl]. cbn [strings_read mbind list_bind app] in Hsr. rewrite Hstr in Hsr.
        apply Forall_cons in Hsr as [Hsr _]. apply (convert_string_spec m inner _ l (d_size d) x va1 str); try done.
Qed.
Lemma render_length i : (0 < length (render i))%nat.
Proof. destruct i; cbn; lia. Qed.
Lemma plain_or_special i : (exists c, i = Plain c) \/ (forall c, i <> Plain c) /\ exists r, render i = c_percent :: r.
Proof. destruct i; [left; by eexists|right; split; [done|by eexists]..]. Qed.
(** The loop over the format prints the text of its pieces. *)
Lemma format_loop_spec m inner is_ : forall fuel fmt va st ps text,
  cstr m fmt (format_string is_) -> keep_range fmt (Z.of_nat (length (format_string is_)) + 1) -> kept m st ->
  forallb item_ok is_ = true -> resolve is_ va = Some ps -> forallb piece_ok ps = true -> pieces_text inner m ps = Some text ->
  Forall (fun '(a, n) => keep_range a n) (strings_read inner m ps) -> (length (format_string is_) < fuel)%nat -> (length (format_string is_) < inner)%nat ->
  Z.of_nat (length text) < 2 ^ 32 ->
  format_loop mem_of _ftoa _etoa out buffer maxlen fuel inner fmt va st = puts text st.
Proof.
  induction is_ as [|i is_ IH]; intros [|fuel] fmt va st ps text Hc Hr Hk Hok Hres Hpok Ht Hsr Hf Hin Hlen; try lia; cbn [format_loop].
  - cbn [resolve] in Hres. injection Hres as <-. cbn [pieces_text] in Ht. injection Ht as <-. cbn [format_string mbind list_bind cstr length] in *.
    rewrite (kept_load m) by (done || apply Hr; lia). by rewrite Hc.
  - cbn [forallb] in Hok. apply andb_true_iff in Hok as [Hok Hoks]. cbn [resolve] in Hres.
    destruct (resolve_item i va) as [[p va']|] eqn:Ei; cbn [mbind option_bind] in Hres; [|done].
    destruct (resolve is_ va') as [ps'|] eqn:Es; cbn [mbind option_bind] in Hres; [|done]. injection Hres as <-.
    cbn [forallb] in Hpok. apply andb_true_iff in Hpok as [Hp Hps]. cbn [pieces_text] in Ht.
    destruct (string_arg inner m p) as [str|] eqn:Estr; cbn [mbind option_bind] in Ht; [|done].
    destruct (pieces_text inner m ps') as [text'|] eqn:Et; cbn [mbind option_bind] in Ht; [|done]. injection Ht as <-. rewrite length_app in Hlen.
    change (strings_read inner m (p :: ps')) with (strings_read inner m ([p] ++ ps')) in Hsr. unfold strings_read in Hsr. rewrite bind_app in Hsr. apply Forall_app in Hsr as [Hsr Hsrs].
    change (format_string (i :: is_)) with (render i ++ format_string is_) in *. rewrite length_app in *. pose proof (render_length i).
    assert (forall st1, puts (piece_text str p) st = Some st1 ->
      format_loop mem_of _ftoa _etoa out buffer maxlen fuel inner (fmt + Z.of_nat (length (render i))) va' st1 = puts text' st1) as Hrec.
    { intros st1 E1. apply (IH fuel _ va' st1 ps'); try done; [by apply cstr_drop|intros x Hx; apply Hr; lia|by eapply puts_kept|lia..]. }
    rewrite puts_app. rewrite (kept_load m) by (done || apply Hr; lia).
    destruct (plain_or_special i) as [[c ->]|[Hsp [r Er]]].
    + cbn [resolve_item] in Ei. injection Ei as <- <-. cbn [render app] in *. destruct Hc as (Hn & -> & Hc). cbn [item_ok] in Hok.
      apply andb_true_iff in Hok as [_ Hnp]. rewrite (proj2 (Z.eqb_neq c 0)), Hnp by done. cbn [piece_text PrintfSpec.puts] in *.
      destruct (put _ _ _ c st) as [s1|] eqn:E1; cbn [mbind option_bind] in *; [|done]. by apply Hrec.
    + assert (load8 m fmt = c_percent) as -> by (rewrite (cstr_head _ _ _ Hc), Er; done).
      change (c_percent =? 0) with false. change (c_percent =? c_percent) with true. cbn [negb].
      destruct (special_step m i inner fmt va va' p str st (format_string is_)) as (sp & Esp & Ef & Ec); try done; [by rewrite length_app|lia|lia|].
      rewrite Esp. cbn [mbind option_bind] in *. rewrite Ec, Ef. destruct (puts (piece_text str p) st) as [s1|] eqn:E1; cbn [mbind option_bind]; [|done]. by apply Hrec.
Qed.
End Conversions.

(** ** The text is made of characters *)

Definition is_char (c : Z) : Prop := 0 <= c < 256.
Lemma replicate_chars n c : is_char c -> Forall is_char (replicate n c).
Proof. intros. by apply Forall_replicate. Qed.
Lemma digit_text_chars base upper v : 2 <= base <= 16 -> 0 <= v -> Forall is_char (digit_text base upper v).
Proof.
  intros Hb Hv. unfold digit_text. apply Forall_fmap. destruct (digits_spec base v) as (_ & Hd & _); [lia..|].
  eapply Forall_impl; [exact Hd|]. intros d Hd'. cbv beta in Hd'. unfold compose, digit_of, is_char. destruct upper; zcase; cbv iota; lia.
Qed.
Lemma padded_chars l zero prefix body : Forall is_char prefix -> Forall is_char body -> Forall is_char (padded l zero prefix body).
Proof.
  intros. unfold padded. destruct (l_left l); [|destruct zero]; repeat (apply Forall_app; split); try done; apply replicate_chars; unfold is_char, c_space, c_0; lia.
Qed.
Lemma integer_body_chars l base upper v : 2 <= base <= 16 -> 0 <= v -> Forall is_char (integer_body l base upper v).
Proof.
  intros. unfold integer_body. apply Forall_app. split; [by apply replicate_chars|].
  pose proof (digit_text_chars base upper v). destruct (l_precision l) as [[]|]; [destruct (v =? 0); [constructor|]|..]; auto.
Qed.
Lemma cstring_chars m s : forall fuel a, cstring fuel m a = Some s -> Forall is_char s.
Proof.
  induction s as [|c s IH]; intros [|fuel] a; cbn [cstring]; try done; zcase; try done; destruct (cstring fuel m (a + 1)) as [s'|] eqn:E; cbn [mbind option_bind]; try done.
  intros [= <- ->]. constructor; [apply load8_range|by eapply IH].
Qed.
Lemma piece_chars fuel m i va p va' str : item_ok i = true -> resolve_item i va = Some (p, va') -> string_arg fuel m p = Some str -> Forall is_char (piece_text str p).
Proof.
  intros Hok Hres Hstr. destruct i as [c| | |d]; cbn [resolve_item] in Hres.
  - injection Hres as <- _. cbn [item_ok] in Hok. rewrite !andb_true_iff, !Z.ltb_lt in Hok. cbn [piece_text]. repeat constructor; lia.
  - injection Hres as <- _. by repeat constructor.
  - destruct va as [|x va]; cbn [va_arg mbind option_bind] in Hres; [done|]. injection Hres as <- _. cbn [piece_text]. unfold address_text.
    apply Forall_app. split; [by apply replicate_chars|]. apply digit_text_chars; [lia|]. pose proof (u64_range x). lia.
  - destruct (directive_layout d va) as [[l va1]|]; cbn [mbind option_bind] in Hres; [|done].
    destruct va1 as [|x va1]; cbn [va_arg mbind option_bind] in Hres; [done|]. injection Hres as <- _. cbn [piece_text].
    pose proof (unsigned_arg_range (d_size d) x).
    assert (forall v, Forall is_char (sign_text l v)) as Hs.
    { intros v. unfold sign_text. destruct (v <? 0), (l_plus l), (l_space l); by repeat constructor. }
    assert (forall base upper v, Forall is_char (base_text l base upper v)) as Hb.
    { intros base upper v. unfold base_text. destruct (l_hash l), (base =? 8), (starts_zero (integer_body l base upper v)), (v =? 0), (base =? 16), (base =? 2), upper; by repeat constructor. }
    destruct (d_conv d); try (apply padded_chars; [auto|apply integer_body_chars; cbn; lia]).
    + apply padded_chars; [constructor|]. repeat constructor; apply u8_range.
    + apply padded_chars; [constructor|]. cbn [string_arg] in Hstr. apply cstring_chars in Hstr. destruct (l_precision l); [by apply Forall_take|done].
Qed.
Lemma pieces_chars fuel m is_ : forall va ps text, forallb item_ok is_ = true -> resolve is_ va = Some ps -> pieces_text fuel m ps = Some text -> Forall is_char text.
Proof.
  induction is_ as [|i is_ IH]; intros va ps text Hok Hres Ht; cbn [resolve forallb] in *.
  - injection Hres as <-. cbn [pieces_text] in Ht. by injection Ht as <-.
  - apply andb_true_iff in Hok as [Hi His]. destruct (resolve_item i va) as [[p va']|] eqn:Ei; cbn [mbind option_bind] in Hres; [|done].
    destruct (resolve is_ va') as [ps'|] eqn:Es; cbn [mbind option_bind] in Hres; [|done]. injection Hres as <-. cbn [pieces_text] in Ht.
    destruct (string_arg fuel m p) as [str|] eqn:Estr; cbn [mbind option_bind] in Ht; [|done].
    destruct (pieces_text fuel m ps') as [t|] eqn:Et; cbn [mbind option_bind] in Ht; [|done]. injection Ht as <-.
    apply Forall_app. split; [by eapply piece_chars|by eapply IH].
Qed.

(** ** Printing to memory *)

Lemma puts_buffer buffer maxlen cs : forall idx m, 0 <= idx -> idx + Z.of_nat (length cs) < 2 ^ 64 ->
  exists m', puts _out_buffer buffer maxlen cs (idx, m) = Some (idx + Z.of_nat (length cs), m') /\
    forall x, m' x = store_bytes m (buffer + idx) (u8 <$> take (Z.to_nat (maxlen - idx)) cs) x.
Proof.
  induction cs as [|c cs IH]; intros idx m Hi Hl; cbn [puts length] in *.
  { exists m. rewrite Z.add_0_r, take_nil. split; [done|]. intros x. unfold store_bytes. cbn. by zcase. }
  cbn [put]. change (_out_buffer c buffer idx maxlen m) with (Some (if idx <? maxlen then store8 m (buffer + idx) c else m)). cbn [mbind option_bind].
  rewrite u64_small by lia.
  destruct (IH (idx + 1) (if idx <? maxlen then store8 m (buffer + idx) c else m)) as (m' & E & Hm'); [lia..|]. rewrite E.
  exists m'. split; [do 2 f_equal; lia|]. intros x. rewrite Hm'. unfold store_bytes. destruct (Z.ltb_spec idx maxlen).
  - replace (Z.to_nat (maxlen - idx)) with (S (Z.to_nat (maxlen - (idx + 1)))) by lia. cbn [take fmap list_fmap]. unfold store8, upd.
    destruct (Z.ltb_spec x (buffer + (idx + 1))), (Z.ltb_spec x (buffer + idx)); try lia.
    + by rewrite (proj2 (Z.eqb_neq _ _)) by lia.
    + replace x with (buffer + idx) by lia. rewrite Z.eqb_refl. by replace (Z.to_nat (buffer + idx - (buffer + idx))) with 0%nat by lia.
    + replace (Z.to_nat (x - (buffer + idx))) with (S (Z.to_nat (x - (buffer + (idx + 1))))) by lia. cbn. by rewrite (proj2 (Z.eqb_neq _ _)) by lia.
  - replace (Z.to_nat (maxlen - idx)) with 0%nat by lia. replace (Z.to_nat (maxlen - (idx + 1))) with 0%nat by lia. cbn. by repeat zcase.
Qed.

(** The strings a format with its arguments reads. *)
Definition format_strings (fuel : nat) (m : mem) (is_ : list item) (va : list Z) : list (Z * Z) :=
  from_option (strings_read fuel m) [] (resolve is_ va).
(** A format in memory with its arguments: what is printed, from bytes that are
    apart from the buffer. *)
Record printable (fuel : nat) (m : mem) (buffer count format : Z) (is_ : list item) (va : list Z) (text : list Z) : Prop := {
  pr_ok : format_ok is_ va = true;
  pr_format : cstr m format (format_string is_);
  pr_text : format_text fuel m is_ va = Some text;
  pr_fuel : (length (format_string is_) < fuel)%nat;
  pr_length : Z.of_nat (length text) < 2 ^ 31;
  pr_apart : apart format (Z.of_nat (length (format_string is_)) + 1) buffer count;
  pr_strings : Forall (fun '(a, n) => apart a n buffer count) (format_strings fuel m is_ va) }.

Lemma printable_chars fuel m buffer count format is_ va text : printable fuel m buffer count format is_ va text -> Forall is_char text.
Proof.
  intros [Hok _ Ht _ _ _ _]. unfold format_ok in Hok. apply andb_true_iff in Hok as [Hi _]. unfold format_text in Ht.
  destruct (resolve is_ va) as [ps|] eqn:Er; [|done]. by eapply pieces_chars.
Qed.
(** With any output function that only changes a block the format and the strings
    are apart from. *)
Lemma format_loop_printable {T} (mem_of : T -> mem) ftoa etoa out to maxlen fuel t buffer count format is_ va text :
  printable fuel (mem_of t) buffer count format is_ va text -> 0 <= count ->
  (forall c idx t t', 0 <= idx -> out c to idx maxlen t = Some t' -> same_outside buffer count (mem_of t) (mem_of t')) ->
  format_loop mem_of ftoa etoa out to maxlen fuel fuel format va (0, t) = puts out to maxlen text (0, t).
Proof.
  intros [Hok Hc Ht Hf Hl Ha Hs] Hcount Hout. unfold format_ok in Hok. apply andb_true_iff in Hok as [Hi Hp]. unfold format_text in Ht. unfold format_strings in Hs.
  destruct (resolve is_ va) as [ps|] eqn:Er; [|done]. cbn [mbind option_bind from_option] in *.
  apply (format_loop_spec mem_of ftoa etoa out to maxlen (fun a => ~ (buffer <= a < buffer + count))) with (m := mem_of t) (is_ := is_) (ps := ps); try done; try lia.
  - intros x Hx. unfold apart in Ha. lia.
  - eapply Forall_impl; [exact Hs|]. intros [a n] Hn x Hx. unfold apart in Hn. lia.
Qed.

Section Memory.
Variables _ftoa _etoa : (Z -> Z -> Z -> Z -> mem -> option mem) -> Z -> Z -> Z -> Z -> Z -> Z -> Z -> mem -> option (Z * mem).

Lemma out_buffer_outside buffer count c idx t t' : 0 <= idx -> _out_buffer c buffer idx count t = Some t' -> same_outside buffer count t t'.
Proof. intros Hidx. unfold _out_buffer. intros [= <-]. zcase; [apply same_outside_store8; lia|done]. Qed.

Lemma vsnprintf_spec fuel m buffer count format is_ va text :
  printable fuel m buffer count format is_ va text -> buffer <> 0 -> 0 < count < 2 ^ 64 ->
  exists m', vsnprintf_ _ftoa _etoa fuel buffer count format va m = Some (Z.of_nat (length text), m') /\
    same_outside buffer count m m' /\
    let stored := take (Z.to_nat (count - 1)) text in
    bytes m' buffer (Z.of_nat (length stored) + 1) = stored ++ [0].
Proof.
  intros Hpr Hb Hcount. pose proof (pr_length _ _ _ _ _ _ _ _ Hpr) as Hl.
  pose proof (printable_chars _ _ _ _ _ _ _ _ Hpr) as Hch.
  unfold vsnprintf_, _vsnprintf. rewrite (proj2 (Z.eqb_neq buffer 0)) by done. rewrite (format_loop_printable id _ftoa _etoa _out_buffer buffer count fuel m buffer count format is_ va text Hpr ltac:(lia) (out_buffer_outside buffer count)).
  destruct (puts_buffer buffer count text 0 m) as (m1 & -> & Hm1); [lia..|]. rewrite Z.add_0_l. cbn [mbind option_bind]. unfold _out_buffer. cbn [mbind option_bind].
  rewrite i32_small by lia. eexists. split; [done|].
  rewrite Z.add_0_r, Z.sub_0_r in Hm1. set (end_ := if Z.of_nat (length text) <? count then _ else _).
  assert (end_ = Z.of_nat (length (take (Z.to_nat (count - 1)) text)) /\ 0 <= end_ < count) as [Ee He].
  { subst end_. rewrite length_take. zcase; [|rewrite u64_small by lia]; lia. }
  rewrite (proj2 (Z.ltb_lt end_ count)) by lia. cbv zeta. rewrite <- Ee.
  assert (u8 <$> text = text) as Hu.
  { rewrite <- (list_fmap_id text) at 2. apply list_fmap_ext. intros i x Hx. rewrite Forall_lookup in Hch. apply u8_small, (Hch i x Hx). }
  rewrite fmap_take, Hu in Hm1. split.
  - intros x Hx. unfold store8. rewrite upd_ne by lia. rewrite Hm1. apply store_bytes_out. rewrite length_take. lia.
  - rewrite bytes_app, bytes_1, load8_store8_eq by lia. f_equal. rewrite Ee at 2. rewrite <- (store_bytes_bytes m buffer) by (apply Forall_take; exact Hch).
    rewrite <- Ee. apply tab_ext. intros i Hi. rewrite load8_store8_ne by lia. unfold load8. rewrite Hm1. unfold store_bytes. rewrite !(proj2 (Z.ltb_ge (buffer + i) buffer)) by lia.
    rewrite !lookup_take_lt; [done|rewrite length_take in Ee; lia..].
Qed.
Lemma puts_null to maxlen cs : forall idx m, 0 <= idx -> idx + Z.of_nat (length cs) < 2 ^ 64 ->
  puts (T := mem) _out_null to maxlen cs (idx, m) = Some (idx + Z.of_nat (length cs), m).
Proof.
  induction cs as [|c cs IH]; intros idx m Hi Hl; cbn [puts length] in *; [by rewrite Z.add_0_r|].
  cbn [put]. change (_out_null c to idx maxlen m) with (Some m). cbn [mbind option_bind]. rewrite u64_small, IH by lia. do 2 f_equal. lia.
Qed.

(** C16. vsnprintf (and snprintf) prints what the format says: for every format
    string of plain characters and of the directives for integers, characters,
    strings and pointers the C standard defines, with their flags, widths,
    precisions, stars and sizes but the wide characters of %lc and %ls, and
    arguments for them, within the limits [format_ok] states, the call returns the
    length of the text the standard prescribes, stores as much of it as fits with
    a terminator, and writes nothing outside the buffer.  Without a buffer it
    returns the same length and writes nothing.  The limits leave out where the
    code does not follow the standard ([octal_precision] and its neighbours). *)
Theorem vsnprintf_correct fuel m buffer count format is_ va text :
  printable fuel m buffer count format is_ va text -> 0 < count < 2 ^ 64 ->
  (buffer <> 0 -> exists m', vsnprintf_ _ftoa _etoa fuel buffer count format va m = Some (Z.of_nat (length text), m') /\
    same_outside buffer count m m' /\
    let stored := take (Z.to_nat (count - 1)) text in
    bytes m' buffer (Z.of_nat (length stored) + 1) = stored ++ [0]) /\
  vsnprintf_ _ftoa _etoa fuel 0 count format va m = Some (Z.of_nat (length text), m).
Proof.
  intros Hpr Hcount. split; [intros Hb; by apply (vsnprintf_spec _ _ _ _ _ is_)|]. pose proof (pr_length _ _ _ _ _ _ _ _ Hpr) as Hl.
  unfold vsnprintf_, _vsnprintf. cbn [Z.eqb]. rewrite (format_loop_printable id _ftoa _etoa _out_null 0 count fuel m buffer count format is_ va text Hpr) by
    (try lia; by intros c idx t t' _ [= <-]).
  rewrite puts_null by lia. cbn [mbind option_bind _out_null]. by rewrite i32_small by lia.
Qed.
End Memory.

(** "%-6s|%+.3d|%#x: %*d%%" at 100 with "ab" at 300, 7, 255, a width of 4 and -5. *)
Definition no_float : (Z -> Z -> Z -> Z -> mem -> option mem) -> Z -> Z -> Z -> Z -> Z -> Z -> Z -> mem -> option (Z * mem) := fun _ _ _ _ _ _ _ _ _ => None.
Definition demo_items : list item :=
  [Directive (mk_directive [FLeft] (Some (Lit 6)) None Sint Cs); Plain 124;
   Directive (mk_directive [FPlus] None (Some (Some (Lit 3))) Sint Cd); Plain 124;
   Directive (mk_directive [FHash] None None Sint (Cx false)); Plain 58; Plain 32;
   Directive (mk_directive [] (Some Star) None Sint Cd); Percent].
Definition demo_memory : mem := store_bytes (store_bytes (fun _ => 0) 100 (format_string demo_items)) 300 [97; 98].
Definition demo_text : list Z := [97; 98; 32; 32; 32; 32; 124; 43; 48; 48; 55; 124; 48; 120; 102; 102; 58; 32; 32; 32; 45; 53; 37].
Lemma demo_printable : printable 50 demo_memory 5000 20 100 demo_items [300; 7; 255; 4; -5] demo_text.
Proof.
  split; [by vm_compute|vm_compute; intuition discriminate|by vm_compute|vm_compute; lia|by vm_compute|left; by vm_compute|].
  repeat constructor. by vm_compute.
Qed.
Lemma vsnprintf_correct_witness :
  exists m', vsnprintf_ no_float no_float 50 5000 20 100 [300; 7; 255; 4; -5] demo_memory = Some (23, m') /\ bytes m' 5000 20 = take 19 demo_text ++ [0].
Proof.
  destruct (vsnprintf_correct no_float no_float 50 demo_memory 5000 20 100 demo_items [300; 7; 255; 4; -5] demo_text demo_printable) as [Hb _]; [lia|].
  destruct Hb as (m' & E & _ & Hm); [lia|]. exists m'. split; [exact E|exact Hm].
Defined.

(** ** Reading a number back *)

(** [strtol] in base 10 on the text of a number without a field. *)
Definition digit_value (c : Z) : Z := if c <? 58 then c - 48 else if c <? 97 then c - 55 else c - 87.
Definition read_number (base : Z) (s : list Z) : Z :=
  match s with c :: ds => if c =? c_minus then - numeral base (digit_value <$> ds) else numeral base (digit_value <$> s) | [] => 0 end.
Lemma digit_value_text base upper v : 2 <= base <= 16 -> 0 <= v -> digit_value <$> digit_text base upper v = digits base v.
Proof.
  intros Hb Hv. destruct (digits_spec base v ltac:(lia) Hv) as (_ & Hd & _). unfold digit_text. rewrite <- list_fmap_compose.
  rewrite <- (list_fmap_id (digits base v)) at 2. apply list_fmap_ext. intros i d Hi. rewrite Forall_lookup in Hd. pose proof (Hd i d Hi) as Hdr. cbv beta in Hdr.
  unfold compose, digit_value, digit_of, id. destruct upper, (Z.ltb_spec d 10); cbv iota; repeat zcase; lia.
Qed.
Definition bare : layout := mk_layout false false false false false 0 None.
Lemma bare_text base upper v prefix : 2 <= base <= 16 -> 0 <= v -> padded bare (zero_padded bare) prefix (integer_body bare base upper v) = prefix ++ digit_text base upper v.
Proof.
  intros Hb Hv. unfold padded, integer_body. cbn [l_left l_precision l_width bare zero_padded l_zero andb from_option id].
  pose proof (digit_text_nonempty base upper v). rewrite !replicate_0 by lia. done.
Qed.
(** The numbers in what %d, %u, %x, %o and %b print are the arguments. *)
Lemma read_unsigned base upper v : 2 <= base <= 16 -> 0 <= v -> read_number base (unsigned_text bare base upper v) = v.
Proof.
  intros Hb Hv. unfold unsigned_text. change (base_text bare base upper v) with (@nil Z). rewrite bare_text by done. cbn [app].
  pose proof (digit_value_text base upper v Hb Hv) as E. destruct (digits_spec base v ltac:(lia) Hv) as (Hn & _ & _).
  pose proof (digit_text_nonempty base upper v ltac:(lia) Hv). unfold read_number. destruct (digit_text base upper v) as [|c ds] eqn:Ed; [cbn in *; lia|].
  assert (c <> c_minus) as Hc.
  { unfold digit_text in Ed. destruct (digits_spec base v ltac:(lia) Hv) as (_ & Hd & d & x & Ex & _). rewrite Ex in Ed, Hd. cbn [fmap list_fmap] in Ed. injection Ed as <- _.
    apply Forall_cons in Hd as [Hd _]. unfold digit_of, c_minus. destruct upper; zcase; cbv iota; lia. }
  rewrite (proj2 (Z.eqb_neq _ _)), E by done. exact Hn.
Qed.
Lemma read_signed v : read_number 10 (signed_text bare v) = v.
Proof.
  unfold signed_text. rewrite bare_text by lia. unfold sign_text. cbn [l_plus l_space bare]. zcase; cbn [app].
  - unfold read_number. rewrite Z.eqb_refl, digit_value_text by lia. destruct (digits_spec 10 (Z.abs v)) as (-> & _ & _); lia.
  - pose proof (read_unsigned 10 false v ltac:(lia) ltac:(lia)) as Hr. unfold unsigned_text in Hr. change (base_text bare 10 false v) with (@nil Z) in Hr.
    rewrite bare_text in Hr by lia. rewrite Z.abs_eq by lia. exact Hr.
Qed.

(** ** What the code prints outside these limits *)

Definition printf_to (n : Z) (f : list Z) (va : list Z) : option (list Z) :=
  '(ret, m) ← vsnprintf_ no_float no_float 100 5000 n 100 va (store_bytes (fun _ => 0) 100 f); Some (bytes m 5000 ret).
(** "%#4x" of 0x1234 is "0x34": the prefix replaces digits when they fill the field. *)
Lemma prefix_replaces_digits : printf_to 90 [37; 35; 52; 120] [0x1234] = Some [48; 120; 51; 52].
Proof. by vm_compute. Qed.
(** "%-4.3d" of 5 is "5   ": no zeros in a left-justified field. *)
Lemma left_precision_lost : printf_to 90 [37; 45; 52; 46; 51; 100] [5] = Some [53; 32; 32; 32].
Proof. by vm_compute. Qed.
(** "%llb" of 2 to the 32nd is 32 zeros: the buffer holds no more digits. *)
Lemma binary_truncated : printf_to 90 [37; 108; 108; 98] [2 ^ 32] = Some (replicate 32 48).
Proof. by vm_compute. Qed.
(** "%.32d" of -5 has no sign. *)
Lemma sign_lost : printf_to 90 [37; 46; 51; 50; 100] [-5] = Some (replicate 31 48 ++ [53]).
Proof. by vm_compute. Qed.
(** "%.*d" of -1 and 0 prints nothing. *)
Lemma negative_precision_zero : printf_to 90 [37; 46; 42; 100] [-1; 0] = Some [].
Proof. by vm_compute. Qed.
(** "%#.0o" of 0 prints nothing and "%#.3o" of 7 prints "0007", where the standard
    has "0" and "007". *)
Lemma octal_precision : printf_to 90 [37; 35; 46; 48; 111] [0] = Some [] /\
  unsigned_text (mk_layout false false false false true 0 (Some 0)) 8 false 0 = [48] /\
  printf_to 90 [37; 35; 46; 51; 111] [7] = Some [48; 48; 48; 55] /\
  unsigned_text (mk_layout false false false false true 0 (Some 3)) 8 false 7 = [48; 48; 55].
Proof. by vm_compute. Qed.
(** A format that ends in a percent sign is read on behind its terminator. *)
Lemma percent_at_end {T} (mem_of : T -> mem) ftoa etoa out buffer maxlen fuel inner a va st :
  load8 (mem_of st.2) a = c_percent -> load8 (mem_of st.2) (a + 1) = 0 ->
  format_loop mem_of ftoa etoa out buffer maxlen (S fuel) (S inner) a va st =
    st ← put out buffer maxlen 0 st; format_loop mem_of ftoa etoa out buffer maxlen fuel (S inner) (a + 2) va st.
Proof.
  intros E1 E0. cbn [format_loop]. rewrite E1. change (c_percent =? 0) with false. change (c_percent =? c_percent) with true. cbn [negb].
  assert (parse_spec (S inner) (mem_of st.2) (a + 1) va = Some (mk_spec 0 0 0 (a + 1) va)) as ->.
  { unfold parse_spec, parse_width, parse_precision, parse_length. cbn [parse_flags]. repeat (rewrite E0; cbn -[load8]). done. }
  cbn [mbind option_bind sp_format]. rewrite E0. change (convert _ _ _ _ _ _ _ 0 _ st) with (st ← put out buffer maxlen 0 st; Some (va, st)).
  destruct (put _ _ _ 0 st) as [s1|]; cbn [mbind option_bind]; [|done]. by replace (a + 1 + 1) with (a + 2) by lia.
Qed.
