(* ===== verification/Vector.v ===== *)
(** * The byte vector (src/util/vector.c, vector.h)

    A growing array of equal-sized objects in a heap block.  The heap is any
    [Allocator]; [vector_Resize] has a growth loop, run with fuel. *)

From S2P Require Import Prelude Mem Alloc.

Record vector_Vector := mk_vector {
  v_data : Z;        (* actual data buffer *)
  v_size : Z;        (* size of the data, in bytes *)
  v_cap : Z;         (* size of the buffer, in bytes *)
  v_objectSize : Z;  (* size of the object *)
}.
Definition sizeof_Vector : Z := 32.

(** [while (newcap < newsize) newcap *= 2] *)
Fixpoint grow (fuel : nat) (newcap newsize : Z) : option Z :=
  if newcap <? newsize then
    match fuel with O => None | S fuel => grow fuel (u64 (newcap * 2)) newsize end
  else Some newcap.

Definition vector_Size (v : vector_Vector) : Z := v_size v / v_objectSize v.
Definition vector_Capacity (v : vector_Vector) : Z := v_cap v / v_objectSize v.
Definition vector_At (v : vector_Vector) (i : Z) : Z := u64 (v_data v + v_objectSize v * i).
Definition vector_Data (v : vector_Vector) : Z := v_data v.
Definition vector_Clear (v : vector_Vector) : vector_Vector :=
  mk_vector (v_data v) 0 (v_cap v) (v_objectSize v).
Definition set_size (v : vector_Vector) (n : Z) : vector_Vector :=
  mk_vector (v_data v) n (v_cap v) (v_objectSize v).

Section Vector.
Context {H : Type} `{Allocator H}.

(** The vector's own address and the vector. *)
Definition vector_Create (h : H) (m : mem) (objectSize : Z) : Z * vector_Vector * H * mem :=
  let '(vec, h, m) := kMalloc h m sizeof_Vector in
  let '(data, h, m) := kMalloc h m objectSize in
  (vec, mk_vector data 0 objectSize objectSize, h, m).
Definition vector_Destroy (h : H) (m : mem) (vec : Z) (v : vector_Vector) : H * mem :=
  let '(h, m) := kFree h m (v_data v) in
  kFree h m vec.

Definition __vector_Rebuffer (v : vector_Vector) (h : H) (m : mem) (newcap : Z)
    : vector_Vector * H * mem :=
  let '(newbuf, h, m) := kMalloc h m newcap in
  let m := memcpy m newbuf (v_data v) (v_size v) in
  let '(h, m) := kFree h m (v_data v) in
  (mk_vector newbuf (v_size v) newcap (v_objectSize v), h, m).

Definition vector_Resize (fuel : nat) (v : vector_Vector) (h : H) (m : mem) (size : Z)
    : option (vector_Vector * H * mem) :=
  let newsize := u64 (size * v_objectSize v) in
  if v_cap v <? newsize then
    match grow fuel (v_cap v) newsize with
    | Some newcap => let '(v, h, m) := __vector_Rebuffer v h m newcap in
                     Some (set_size v newsize, h, m)
    | None => None
    end
  else Some (set_size v newsize, h, m).

Definition vector_Append (fuel : nat) (v : vector_Vector) (h : H) (m : mem) (data n : Z)
    : option (vector_Vector * H * mem) :=
  match vector_Resize fuel v h m (u64 (vector_Size v + n)) with
  | Some (v, h, m) =>
      let addsize := u64 (v_objectSize v * n) in
      let oldsize := u64 (v_size v - addsize) in
      Some (v, h, if negb (data =? 0) then memcpy m (u64 (v_data v + oldsize)) data addsize
                  else memset m (u64 (v_data v + oldsize)) 0 addsize)
  | None => None
  end.

(** The address of the pushed object and the vector. *)
Definition vector_Push (fuel : nat) (v : vector_Vector) (h : H) (m : mem) (data : Z)
    : option (Z * vector_Vector * H * mem) :=
  match vector_Append fuel v h m data 1 with
  | Some (v, h, m) => Some (u64 (v_data v + v_size v - v_objectSize v), v, h, m)
  | None => None
  end.

Definition vector_ShrinkBuffer (v : vector_Vector) (h : H) (m : mem) : vector_Vector * H * mem :=
  if negb (v_size v =? v_cap v) then __vector_Rebuffer v h m (v_size v) else (v, h, m).
Definition vector_Reserve (v : vector_Vector) (h : H) (m : mem) (cap : Z) : vector_Vector * H * mem :=
  let newcap := u64 (v_objectSize v * cap) in
  if v_cap v <? newcap then __vector_Rebuffer v h m newcap else (v, h, m).

(** ** Representation *)

Definition v_contents (v : vector_Vector) (m : mem) : list Z := bytes m (v_data v) (v_size v).
Record v_ok (h : H) (v : vector_Vector) : Prop := {
  vok_block : al_blocks h !! v_data v = Some (v_cap v);
  vok_obj : 0 < v_objectSize v;
  vok_size : 0 <= v_size v <= v_cap v;
  vok_mult : (v_objectSize v | v_size v);
}.
(** Every other block is still there, with its contents. *)
Definition others_kept (h : H) (m : mem) (h' : H) (m' : mem) (v : vector_Vector) : Prop :=
  forall a k, a <> v_data v -> al_blocks h !! a = Some k ->
    al_blocks h' !! a = Some k /\ bytes m' a k = bytes m a k.
(** The whole effect of an operation on the heap: the vector's block may move,
    the allocator gains at most the old block, the rest is kept. *)
Record moved (v : vector_Vector) (h : H) (m : mem) (v' : vector_Vector) (h' : H) (m' : mem) : Prop := {
  mv_ok : al_ok h';
  mv_block : al_blocks h' !! v_data v' = Some (v_cap v');
  mv_obj : v_objectSize v' = v_objectSize v;
  mv_size : v_size v' = v_size v;
  mv_contents : v_contents v' m' = v_contents v m;
  mv_fresh : v_data v' = v_data v \/ al_blocks h !! v_data v' = None;
  mv_others : others_kept h m h' m' v;
  mv_else : forall x, ~ al_own h x -> ~ (v_data v <= x < v_data v + v_cap v) -> 
    m' x = m x /\ ~ al_own h' x /\ ~ (v_data v' <= x < v_data v' + v_cap v');
}.

(** ** Lemmas *)

Lemma grow_spec fuel newcap newsize :
  0 < newcap -> newsize <= 2 ^ 63 -> newcap < 2 ^ 64 -> newsize <= newcap * 2 ^ Z.of_nat fuel ->
  exists c, grow fuel newcap newsize = Some c /\ newcap <= c < 2 ^ 64 /\ newsize <= c /\ c <= Z.max newcap (2 * newsize).
Proof.
  change (2 ^ 63) with 9223372036854775808. change (2 ^ 64) with 18446744073709551616.
  revert newcap. induction fuel as [|fuel IH]; intros c Hc Hs H64 Hf; cbn [grow].
  - rewrite Z.mul_1_r in Hf. rewrite (proj2 (Z.ltb_ge _ _)) by lia. exists c. split; [done|lia].
  - destruct (Z.ltb_spec c newsize) as [Hlt|Hge]; [|exists c; split; [done|lia]].
    rewrite u64_small by lia.
    rewrite Nat2Z.inj_succ, Z.pow_succ_r in Hf by lia.
    destruct (IH (c * 2)) as (d & E & ?); [lia..|]. exists d. split; [done|lia].
Qed.
(** A buffer of no bytes never grows. *)
Lemma grow_zero fuel newsize : 0 < newsize -> grow fuel 0 newsize = None.
Proof.
  intros Hs. induction fuel as [|fuel IH]; cbn [grow]; rewrite (proj2 (Z.ltb_lt _ _)) by lia; [done|].
  change (u64 (0 * 2)) with 0. done.
Qed.

Lemma Rebuffer_moved v h m newcap :
  al_ok h -> v_ok h v -> al_room h newcap -> v_size v <= newcap ->
  let '(v', h', m') := __vector_Rebuffer v h m newcap in
  moved v h m v' h' m' /\ v_cap v' = newcap.
Proof.
  intros Hok Hv Hroom Hle. destruct Hv as [Hb Ho Hs Hm]. unfold __vector_Rebuffer.
  pose proof (kMalloc_law h m newcap Hok Hroom ltac:(lia)) as Ha.
  destruct (kMalloc h m newcap) as [[p h1] m1] eqn:Em.
  destruct Ha as (Hok1 & Hnone & Hb1 & Hown & Hsub & Hm1).
  assert (al_blocks h1 !! v_data v = Some (v_cap v)) as Hb1d.
  { rewrite Hb1, lookup_insert_ne by congruence. done. }
  set (m2 := memcpy m1 p (v_data v) (v_size v)).
  pose proof (kFree_law h1 m2 (v_data v) (v_cap v) Hok1 Hb1d) as Hf.
  destruct (kFree h1 m2 (v_data v)) as [h2 m3]. destruct Hf as (Hok2 & Hb2 & Hsub2 & Hm3).
  assert (p <> v_data v) as Hne by congruence.
  assert (al_blocks h1 !! p = Some newcap) as Hb1p by (by rewrite Hb1, lookup_insert_eq).
  pose proof (al_apart h1 _ _ _ _ Hok1 Hb1p Hb1d Hne) as Hap.
  destruct (al_live h1 _ _ Hok1 Hb1p) as (_ & _ & _ & Hlp).
  assert (forall x, ~ al_own h x -> ~ (v_data v <= x < v_data v + v_cap v) -> m3 x = m x) as Hkeep.
  { intros x Hx Hout. rewrite Hm3 by (done || by intros ?%Hsub). subst m2.
    rewrite memcpy_out by (intros Hin; apply Hx, Hown; lia). by apply Hm1. }
  split; [|done]. split; cbn [v_data v_cap v_size v_objectSize]; try done.
  - by rewrite Hb2, lookup_delete_ne by congruence.
  - unfold v_contents. cbn [v_data v_size]. transitivity (bytes m2 p (v_size v)).
    { apply bytes_ext. intros x Hx. apply Hm3; [apply Hlp; lia|unfold apart in Hap; lia]. }
    subst m2. rewrite bytes_memcpy by lia. apply bytes_ext. intros x Hx. apply Hm1.
    destruct (al_live h _ _ Hok Hb) as (_ & _ & _ & Hl). apply Hl. lia.
  - by right.
  - intros a k Ha Hk. split.
    + rewrite Hb2, lookup_delete_ne, Hb1, lookup_insert_ne by congruence. done.
    + destruct (al_live h _ _ Hok Hk) as (_ & _ & _ & Hl).
      pose proof (al_apart h _ _ _ _ Hok Hk Hb Ha) as Hap'. unfold apart in Hap'.
      apply bytes_ext. intros x Hx. apply Hkeep; [by apply Hl|lia].
  - intros x Hx Hout. split_and!; [by apply Hkeep| |].
    + intros [?%Hsub|?]%Hsub2; done.
    + intros Hin. by apply Hx, Hown.
Qed.
Lemma moved_refl v h m : al_ok h -> al_blocks h !! v_data v = Some (v_cap v) -> moved v h m v h m.
Proof. intros Hok Hb. split; try done. by left. Qed.

Lemma v_cap_range h v : al_ok h -> v_ok h v -> 0 < v_data v /\ 0 <= v_cap v /\ v_data v + v_cap v < 2 ^ 64.
Proof. intros Hok [Hb _ _ _]. destruct (al_live h _ _ Hok Hb) as (? & ? & ? & _). done. Qed.
Lemma Resize_spec v h m size :
  al_ok h -> v_ok h v -> 0 < v_cap v -> 0 <= size -> size * v_objectSize v <= 2 ^ 63 ->
  (forall k, 0 <= k <= 2 * (size * v_objectSize v) -> al_room h k) ->
  v_size v <= size * v_objectSize v ->
  exists v1 h1 m1, vector_Resize 64 v h m size = Some (set_size v1 (size * v_objectSize v), h1, m1) /\
    moved v h m v1 h1 m1 /\ size * v_objectSize v <= v_cap v1 /\ v_cap v <= v_cap v1.
Proof.
  intros Hok Hv Hcap Hsz H63 Hroom Hge. pose proof (v_cap_range h v Hok Hv) as (Hd & _ & H64).
  change (2 ^ 64) with 18446744073709551616 in H64. pose proof (vok_obj h v Hv) as Ho.
  assert (0 <= size * v_objectSize v) as Hnn by nia. change (2 ^ 63) with 9223372036854775808 in H63.
  unfold vector_Resize. rewrite u64_small by lia.
  destruct (Z.ltb_spec (v_cap v) (size * v_objectSize v)) as [Hlt|Hge'].
  - destruct (grow_spec 64 (v_cap v) (size * v_objectSize v)) as (c & -> & Hc1 & Hc2 & Hc3).
    { done. }
    { change (2 ^ 63) with 9223372036854775808. lia. }
    { change (2 ^ 64) with 18446744073709551616. lia. }
    { change (2 ^ Z.of_nat 64) with 18446744073709551616. lia. }
    pose proof (Rebuffer_moved v h m c Hok Hv (Hroom c ltac:(lia)) ltac:(lia)) as Hr.
    destruct (__vector_Rebuffer v h m c) as [[v1 h1] m1]. destruct Hr as [Hr <-].
    exists v1, h1, m1. split_and!; [done|done|lia|lia].
  - exists v, h, m. split_and!; [done|by apply moved_refl, Hv|done|done].
Qed.
Lemma moved_v_ok v h m v' h' m' n :
  v_ok h v -> moved v h m v' h' m' -> 0 <= n <= v_cap v' -> (v_objectSize v | n) -> v_ok h' (set_size v' n).
Proof. intros Hv Hm Hn Hd. destruct Hm as [? ? Eo]. destruct Hv. split; simpl; rewrite ?Eo; done. Qed.

Lemma bytes_memset m a v n : bytes (memset m a v n) a n = replicate (Z.to_nat n) (u8 v).
Proof.
  apply list_eq. intros i. destruct (decide (Z.of_nat i < n)) as [Hi|Hi].
  - unfold bytes. rewrite lookup_tab, lookup_replicate_2 by lia. unfold load8.
    by rewrite memset_in, u8_idemp by lia.
  - rewrite !lookup_ge_None_2; [done|rewrite length_replicate; lia|rewrite length_bytes; lia].
Qed.

(** Appending bytes in place, after the buffer has room. *)
Lemma append_bytes v1 h1 m1 m2 old add l :
  al_ok h1 -> al_blocks h1 !! v_data v1 = Some (v_cap v1) ->
  0 <= old -> 0 <= add -> old + add <= v_cap v1 ->
  bytes m2 (v_data v1 + old) add = l -> same_outside (v_data v1 + old) add m1 m2 ->
  bytes m2 (v_data v1) (old + add) = bytes m1 (v_data v1) old ++ l /\
  (forall a k, a <> v_data v1 -> al_blocks h1 !! a = Some k -> bytes m2 a k = bytes m1 a k).
Proof.
  intros Hok Hb Ho Ha Hle Hl Hs. split.
  - rewrite bytes_app, Hl by lia. f_equal. apply bytes_ext. intros x Hx. apply Hs. lia.
  - intros a k Hne Hk. pose proof (al_apart h1 _ _ _ _ Hok Hk Hb Hne) as Hap. unfold apart in Hap.
    apply bytes_ext. intros x Hx. apply Hs. lia.
Qed.

(** [vector_Append] adds [n] objects at the back: the old contents stay in
    front, the new bytes are those of the source (zeros for NULL), whether or
    not the buffer had to move, every other heap block keeps its contents, and
    the growth loop ends. *)
Theorem vector_Append_correct v h m data n :
  al_ok h -> v_ok h v -> 0 < v_cap v -> 0 <= n -> 0 <= data < 2 ^ 64 ->
  v_size v + v_objectSize v * n <= 2 ^ 63 ->
  (forall k, 0 <= k <= 2 * (v_size v + v_objectSize v * n) -> al_room h k) ->
  (data <> 0 -> forall x, data <= x < data + v_objectSize v * n ->
     ~ al_own h x /\ ~ (v_data v <= x < v_data v + v_cap v)) ->
  exists v' h' m', vector_Append 64 v h m data n = Some (v', h', m') /\ al_ok h' /\ v_ok h' v' /\
    v_contents v' m' = v_contents v m ++
      (if data =? 0 then replicate (Z.to_nat (v_objectSize v * n)) 0
       else bytes m data (v_objectSize v * n)) /\
    vector_Size v' = vector_Size v + n /\ others_kept h m h' m' v /\
    v_cap v <= v_cap v' /\ v_objectSize v' = v_objectSize v /\ (v_data v' = v_data v \/ al_blocks h !! v_data v' = None).
Proof.
  intros Hok Hv Hcap Hn Hdata H63 Hroom Hsrc. pose proof (v_cap_range h v Hok Hv) as (Hd & _ & H64).
  pose proof (vok_obj h v Hv) as Ho. pose proof (vok_size h v Hv) as Hs.
  destruct (vok_mult h v Hv) as [q Hq]. 
  assert (0 <= q) as Hq0 by nia. assert (vector_Size v = q) as Eq.
  { unfold vector_Size. rewrite Hq. by apply Z.div_mul; lia. }
  set (add := v_objectSize v * n) in *. assert (0 <= add) as Hadd by nia.
  assert ((q + n) * v_objectSize v = v_size v + add) as Enew by (subst add; nia).
  change (2 ^ 64) with 18446744073709551616 in *. change (2 ^ 63) with 9223372036854775808 in *.
  assert (q + n <= v_size v + add) as Hqn by nia.
  unfold vector_Append. rewrite Eq, (u64_small (q + n)) by lia.
  destruct (Resize_spec v h m (q + n) Hok Hv Hcap) as (v1 & h1 & m1 & -> & Hmv & Hc1 & Hgr);
    rewrite ?Enew in *; try lia; [done|].
  destruct Hmv as [Hok1 Hb1 Eo Es Ec Hfresh Hoth Helse] eqn:EE. clear EE.
  cbn [set_size v_objectSize v_data v_size v_cap]. rewrite Eo. fold add.
  rewrite (u64_small add), (u64_small (v_size v + add - add)) by lia.
  replace (v_size v + add - add) with (v_size v) by lia.
  destruct (al_live h1 _ _ Hok1 Hb1) as (Hp1 & _ & Hp2 & _). change (2 ^ 64) with 18446744073709551616 in Hp2.
  rewrite (u64_small (v_data v1 + v_size v)) by lia.
  set (m2 := if negb (data =? 0) then _ else _).
  assert (bytes m2 (v_data v1 + v_size v) add =
    if data =? 0 then replicate (Z.to_nat add) 0 else bytes m data add) as Hl.
  { subst m2. destruct (Z.eqb_spec data 0) as [Hz|Hz]; cbn [negb].
    - apply bytes_memset.
    - rewrite bytes_memcpy by lia. apply bytes_ext. intros x Hx. by apply Helse; apply Hsrc. }
  assert (same_outside (v_data v1 + v_size v) add m1 m2) as Ho2.
  { subst m2. destruct (data =? 0); [apply memset_out|apply memcpy_out]. }
  destruct (append_bytes v1 h1 m1 m2 (v_size v) add _ Hok1 Hb1 ltac:(lia) Hadd ltac:(lia) Hl Ho2) as [Hfin Hrest].
  exists (set_size v1 (v_size v + add)), h1, m2. split_and!; [done|done| | | | |done|done|done].
  - apply (moved_v_ok v h m v1 h1 m1); [done|done|lia|]. rewrite <- Enew. apply Z.divide_factor_r.
  - unfold v_contents. cbn [set_size v_data v_size]. rewrite Hfin. f_equal.
    unfold v_contents in Ec. by rewrite Es in Ec.
  - unfold vector_Size. cbn [set_size v_objectSize v_size]. rewrite Eo, <- Enew. by apply Z.div_mul; lia.
  - intros a k Hne Hk. destruct (Hoth a k Hne Hk) as [Hk1 Hb1']. split; [done|].
    rewrite <- Hb1'. apply Hrest; [|done]. intros ->. destruct Hfresh; congruence.
Qed.

(** [vector_Push] appends one object and returns its address. *)
Lemma vector_Push_spec v h m data v' h' m' p :
  vector_Push 64 v h m data = Some (p, v', h', m') ->
  vector_Append 64 v h m data 1 = Some (v', h', m') /\
  (v_ok h' v' -> al_ok h' -> v_size v' = vector_Size v' * v_objectSize v' -> 0 < vector_Size v' ->
   p = vector_At v' (vector_Size v' - 1)).
Proof.
  unfold vector_Push. destruct (vector_Append 64 v h m data 1) as [[[v1 h1] m1]|]; [|done].
  intros [= <- -> -> ->]. split; [done|]. intros Hv Hok E Hpos. unfold vector_At. f_equal.
  rewrite E. lia.
Qed.

(** Pushing an element of the vector itself when the buffer is full: the old
    buffer is no block any more when the element is copied from it. *)
Theorem push_own_element_freed v h m :
  al_ok h -> v_ok h v -> 0 < v_cap v -> v_size v = v_cap v -> v_size v + v_objectSize v <= 2 ^ 63 ->
  (forall k, 0 <= k <= 2 * (v_size v + v_objectSize v) -> al_room h k) ->
  exists v1 h1 m1, vector_Resize 64 v h m (vector_Size v + 1) = Some (v1, h1, m1) /\
    al_blocks h1 !! v_data v = None /\
    vector_Append 64 v h m (v_data v) 1 = Some (v1, h1, memcpy m1 (v_data v1 + v_size v) (v_data v) (v_objectSize v)).
Proof.
  intros Hok Hv Hcap Efull H63 Hroom. destruct (vok_mult h v Hv) as [q Hq]. pose proof (vok_obj h v Hv) as Ho.
  assert (vector_Size v = q) as Eq by (unfold vector_Size; rewrite Hq; apply Z.div_mul; lia).
  pose proof (v_cap_range h v Hok Hv) as (Hd & _ & H64).
  change (2 ^ 64) with 18446744073709551616 in *. change (2 ^ 63) with 9223372036854775808 in *.
  assert ((q + 1) * v_objectSize v = v_size v + v_objectSize v) as En by lia.
  assert (q + 1 <= v_size v + v_objectSize v) as Hqn by nia.
  destruct (grow_spec 64 (v_cap v) (v_size v + v_objectSize v)) as (c & Ec & Hc1 & Hc2 & Hc3); [lia| |change (2 ^ 64) with 18446744073709551616; lia| |].
  { change (2 ^ 63) with 9223372036854775808. lia. }
  { change (2 ^ Z.of_nat 64) with 18446744073709551616. lia. }
  assert (vector_Resize 64 v h m (q + 1) = let '(v1, h1, m1) := __vector_Rebuffer v h m c in Some (set_size v1 (v_size v + v_objectSize v), h1, m1)) as ER.
  { unfold vector_Resize. by rewrite En, u64_small, (proj2 (Z.ltb_lt _ _)), Ec by lia. }
  unfold vector_Append. rewrite Eq, (u64_small (q + 1)), ER by lia. unfold __vector_Rebuffer.
  pose proof (kMalloc_law h m c Hok (Hroom c ltac:(lia)) ltac:(lia)) as Hl.
  destruct (kMalloc h m c) as [[p h1] m1]. destruct Hl as (Hok1 & Hnew & Hb1 & _).
  assert (al_blocks h1 !! v_data v = Some (v_cap v)) as Hb1d.
  { rewrite Hb1, lookup_insert_ne by (intros ->; rewrite (vok_block h v Hv) in Hnew; done). apply Hv. }
  assert (al_blocks h1 !! p = Some c) as Hb1p by (rewrite Hb1; apply lookup_insert_eq).
  destruct (al_live h1 p c Hok1 Hb1p) as (Hp & _ & Hp64 & _). change (2 ^ 64) with 18446744073709551616 in Hp64.
  pose proof (kFree_law h1 (memcpy m1 p (v_data v) (v_size v)) (v_data v) _ Hok1 Hb1d) as Hf.
  destruct (kFree h1 (memcpy m1 p (v_data v) (v_size v)) (v_data v)) as [h2 m2]. destruct Hf as (_ & Hb2 & _).
  eexists _, h2, m2. split; [done|]. split; [rewrite Hb2; apply lookup_delete_eq|].
  cbn [set_size v_data v_size v_objectSize v_cap]. rewrite (proj2 (Z.eqb_neq (v_data v) 0)) by lia. cbn [negb].
  rewrite Z.mul_1_r, (u64_small (v_objectSize v)), (u64_small (_ + _ - _)) by lia.
  replace (v_size v + v_objectSize v - v_objectSize v) with (v_size v) by lia. by rewrite u64_small by lia.
Qed.

(** After [vector_ShrinkBuffer] of an empty vector the buffer has no bytes,
    and doubling it never makes room: every later append of an object runs the
    growth loop for ever. *)
Theorem vector_Shrink_Append_diverges v h m data n fuel :
  v_size v = 0 -> 0 < v_objectSize v -> 0 < n -> v_objectSize v * n < 2 ^ 64 ->
  let '(v1, h1, m1) := vector_ShrinkBuffer v h m in
  vector_Append fuel v1 h1 m1 data n = None.
Proof.
  change (2 ^ 64) with 18446744073709551616. intros Hs Ho Hn H64.
  unfold vector_ShrinkBuffer. 
  assert (forall v1 h1 m1, v_size v1 = 0 -> v_cap v1 = 0 -> v_objectSize v1 = v_objectSize v ->
    vector_Append fuel v1 h1 m1 data n = None) as Hd.
  { intros v1 h1 m1 E1 E2 E3. unfold vector_Append, vector_Resize, vector_Size. rewrite E1, E2, E3, Z.div_0_l by lia.
    rewrite Z.add_0_l. rewrite (u64_small n), (u64_small (n * _)) by nia.
    rewrite (proj2 (Z.ltb_lt _ _)) by nia. by rewrite grow_zero by nia. }
  destruct (Z.eqb_spec (v_size v) (v_cap v)) as [E|E]; cbn [negb]; [apply Hd; congruence|].
  unfold __vector_Rebuffer. destruct (kMalloc h m (v_size v)) as [[p h1] m1].
  destruct (kFree h1 _ (v_data v)) as [h2 m2]. by apply Hd.
Qed.
End Vector.

(** ** Witnesses, on the [bump] heap *)

Definition demo_bump : bump := mk_bump 4096 ∅.
Definition demo_vec : vector_Vector * bump * mem :=
  let '(_, v, h, m) := vector_Create demo_bump (fun _ => 7) 3 in (v, h, m).
Lemma demo_bump_ok : bump_ok demo_bump.
Proof. split; [done|..]; intros ? ? ?; by rewrite ?lookup_empty. Qed.
Lemma demo_vec_ok : bump_ok demo_vec.1.2 /\ v_ok demo_vec.1.2 demo_vec.1.1.
Proof.
  split.
  - unfold demo_vec, vector_Create.
    pose proof (bump_alloc_ok demo_bump (fun _ => 7) 32 demo_bump_ok ltac:(done) ltac:(done)) as H1.
    exact (bump_alloc_ok _ (fun _ => 7) 3 H1 ltac:(done) ltac:(done)).
  - split; [by vm_compute|done|done|apply Z.divide_0_r].
Qed.
Lemma vector_Append_correct_witness :
  exists v' h' m', vector_Append 64 demo_vec.1.1 demo_vec.1.2 demo_vec.2 100 2 = Some (v', h', m') /\
    v_contents v' m' = [7; 7; 7; 7; 7; 7] /\ vector_Size v' = 2.
Proof.
  destruct demo_vec_ok as [Hok Hv].
  destruct (vector_Append_correct (H0 := bump_Allocator) demo_vec.1.1 demo_vec.1.2 demo_vec.2 100 2 Hok Hv)
    as (v' & h' & m' & E & _ & _ & Hc & Hs & _ & _); [done|lia|lia|done| |
      |exists v', h', m'; split; [exact E|split; [exact Hc|exact Hs]]].
  - intros k Hk. change (2 * (v_size demo_vec.1.1 + v_objectSize demo_vec.1.1 * 2)) with 12 in Hk.
    cbn [al_room bump_Allocator]. change (b_next demo_vec.1.2) with 4131.
    change (2 ^ 64) with 18446744073709551616. lia.
  - intros _ x Hx. change (v_objectSize demo_vec.1.1 * 2) with 6 in Hx. cbn [al_own bump_Allocator].
    change (b_next demo_vec.1.2) with 4131. change (v_data demo_vec.1.1) with 4128. lia.
Defined.
Lemma push_own_element_freed_witness :
  exists v1 h1 m1, vector_Resize 64 (set_size demo_vec.1.1 3) demo_vec.1.2 demo_vec.2 2 = Some (v1, h1, m1) /\ b_blocks h1 !! 4128 = None.
Proof.
  destruct demo_vec_ok as [Hok Hv].
  destruct (push_own_element_freed (H0 := bump_Allocator) (set_size demo_vec.1.1 3) demo_vec.1.2 demo_vec.2 Hok) as (v1 & h1 & m1 & E & Hn & _);
    [|done|done|by vm_compute| |exists v1, h1, m1; split; [exact E|exact Hn]].
  - destruct Hv as [Hb Ho Hs Hm]. split; [exact Hb|exact Ho|by vm_compute|exact (Z.divide_refl 3)].
  - intros k Hk. change (0 <= k <= 2 * (3 + 3)) in Hk. cbn [al_room bump_Allocator]. change (b_next demo_vec.1.2) with 4131.
    change (2 ^ 64) with 18446744073709551616. lia.
Defined.
Lemma vector_Shrink_Append_diverges_witness :
  let '(v1, h1, m1) := vector_ShrinkBuffer demo_vec.1.1 demo_vec.1.2 demo_vec.2 in
  vector_Append 1000 v1 h1 m1 100 1 = None.
Proof. by apply (vector_Shrink_Append_diverges demo_vec.1.1 demo_vec.1.2 demo_vec.2 100 1 1000). Defined.
