(* ===== verification/CppVector.v ===== *)
(** * The C++ vector class (src/cppruntime/vector.hpp)

    runtime::Vector owns a vector of Vector.v through a pointer.  The objects and
    the structures they point at are stores by address, the elements are in the
    machine memory.  The element type is its size.  The copying constructors
    and [Data] are left out, which do not compile: they call memcpy with two
    arguments, and return a [void *] as a [Type *].

    A store of vectors refines a store of lists of elements. *)

From S2P Require Import Prelude Mem Alloc Vector.

Section CppVector.
Context {H : Type} `{Allocator H}.

Record vt := mk_vt {
  vh : H; vm : mem;
  vecs : gmap Z vector_Vector;  (* the structures *)
  vobjs : gmap Z Z;             (* [vec] of every object *)
}.

(** [vector_Create(sizeof(Type))] *)
Definition create (sizeofType : Z) (st : vt) : Z * vt :=
  let '(vec, v, h, m) := vector_Create (vh st) (vm st) sizeofType in
  (vec, mk_vt h m (<[vec := v]> (vecs st)) (vobjs st)).
Definition set_vec (a vec : Z) (st : vt) : vt := mk_vt (vh st) (vm st) (vecs st) (<[a := vec]> (vobjs st)).
Definition Vector_default (sizeofType a : Z) (st : vt) : vt :=
  let '(vec, st) := create sizeofType st in set_vec a vec st.
(** [Vector(Vector &&move)]: the old object gets a new vector. *)
Definition Vector_move (sizeofType a b : Z) (st : vt) : option vt :=
  vec ← vobjs st !! b;
  let st := set_vec a vec st in
  let '(vec, st) := create sizeofType st in
  Some (set_vec b vec st).
Definition Vector_delete (a : Z) (st : vt) : option vt :=
  vec ← vobjs st !! a; v ← vecs st !! vec;
  let '(h, m) := vector_Destroy (vh st) (vm st) vec v in
  Some (mk_vt h m (delete vec (vecs st)) (delete a (vobjs st))).

(** The vector an object points at; a call of a vector function on it. *)
Definition the_vec (a : Z) (st : vt) : option vector_Vector := vec ← vobjs st !! a; vecs st !! vec.
Definition with_vec (a : Z) (f : vector_Vector -> H -> mem -> option (vector_Vector * H * mem)) (st : vt) : option vt :=
  vec ← vobjs st !! a; v ← vecs st !! vec;
  '(v, h, m) ← f v (vh st) (vm st);
  Some (mk_vt h m (<[vec := v]> (vecs st)) (vobjs st)).

(** The address of the new element too. *)
Definition Vector_Push (fuel : nat) (a data : Z) (st : vt) : option (Z * vt) :=
  vec ← vobjs st !! a; v ← vecs st !! vec;
  '(p, v, h, m) ← vector_Push fuel v (vh st) (vm st) data;
  Some (p, mk_vt h m (<[vec := v]> (vecs st)) (vobjs st)).
Definition Vector_Append (fuel : nat) (a data n : Z) (st : vt) : option vt :=
  with_vec a (fun v h m => vector_Append fuel v h m data n) st.
Definition Vector_Resize (fuel : nat) (a newsize : Z) (st : vt) : option vt :=
  with_vec a (fun v h m => vector_Resize fuel v h m newsize) st.
Definition Vector_Clear (a : Z) (st : vt) : option vt :=
  with_vec a (fun v h m => Some (vector_Clear v, h, m)) st.
Definition Vector_ShrinkBuffer (a : Z) (st : vt) : option vt :=
  with_vec a (fun v h m => Some (vector_ShrinkBuffer v h m)) st.
Definition Vector_Reserve (a cap : Z) (st : vt) : option vt :=
  with_vec a (fun v h m => Some (vector_Reserve v h m cap)) st.

Definition Vector_Size (a : Z) (st : vt) : option Z := vector_Size <$> the_vec a st.
Definition Vector_Capacity (a : Z) (st : vt) : option Z := vector_Capacity <$> the_vec a st.
Definition Vector_at (a at_ : Z) (st : vt) : option Z := (fun v => vector_At v at_) <$> the_vec a st.

(** ** Elements *)

(** The size of the elements and the elements, each its bytes. *)
Notation elements := (Z * list (list Z))%type.
Definition sized (sz : Z) (es : list (list Z)) : Prop := Forall (fun e => Z.of_nat (length e) = sz) es.

Lemma sized_length sz es : sized sz es -> Z.of_nat (length (concat es)) = sz * Z.of_nat (length es).
Proof using Type.
  induction 1 as [|e es He _ IH]; cbn [concat length]; [lia|]. rewrite length_app. lia.
Qed.
(** Bytes that make up elements are elements. *)
Lemma sized_chunks sz n : 0 < sz -> forall l, Z.of_nat (length l) = sz * Z.of_nat n ->
  exists es, sized sz es /\ concat es = l /\ length es = n.
Proof using Type.
  intros Hsz. induction n as [|n IH]; intros l Hl.
  - exists []. split; [constructor|]. split; [|done]. destruct l; [done|]. cbn [length] in Hl. lia.
  - destruct (IH (drop (Z.to_nat sz) l)) as (es & Hs & Hc & Hn); [rewrite length_drop; nia|].
    exists (take (Z.to_nat sz) l :: es). split_and!; [constructor; [rewrite length_take; nia|done]| |cbn; by rewrite Hn].
    cbn [concat]. by rewrite Hc, take_drop.
Qed.
Lemma sized_replicate sz n : 0 <= sz -> sized sz (replicate n (replicate (Z.to_nat sz) 0)).
Proof using Type. intros ?. apply Forall_replicate. rewrite length_replicate. lia. Qed.
Lemma concat_replicate (n k : nat) (x : Z) : concat (replicate n (replicate k x)) = replicate (n * k) x.
Proof using Type. induction n as [|n IH]; cbn [replicate concat Nat.mul]; [done|]. by rewrite IH, replicate_add. Qed.
Lemma concat_lookup sz es i e : sized sz es -> es !! i = Some e -> 
  take (Z.to_nat sz) (drop (Z.to_nat sz * i) (concat es)) = e.
Proof using Type.
  intros Hs. revert i. induction Hs as [|x es Hx Hs IH]; intros [|i]; cbn [lookup list_lookup concat]; try done.
  - intros [= ->]. rewrite Nat.mul_0_r. replace (Z.to_nat sz) with (length e) by lia. apply take_app_length.
  - intros Hi. rewrite <- (IH i Hi). f_equal. rewrite drop_app_ge by lia. f_equal. lia.
Qed.

(** ** The heap blocks an operation keeps *)

Implicit Types (h : H) (m : mem) (st : vt) (vals : gmap Z elements).

(** Every block but those at [X] is still there, with its contents. *)
Definition kept (X : list Z) h m h' m' : Prop :=
  forall a k, a ∉ X -> al_blocks h !! a = Some k -> al_blocks h' !! a = Some k /\ bytes m' a k = bytes m a k.

Lemma kept_trans X Y h m h1 m1 h2 m2 : kept X h m h1 m1 -> kept Y h1 m1 h2 m2 -> kept (X ++ Y) h m h2 m2.
Proof using Type.
  intros H1 H2 a k Hn Hk. rewrite elem_of_app in Hn. destruct (H1 a k) as [Hk1 Hb1]; [tauto|done|].
  destruct (H2 a k) as [Hk2 Hb2]; [tauto|done|]. split; [done|congruence].
Qed.
Lemma kept_refl X h m : kept X h m h m.
Proof using Type. by intros a k _ Hk. Qed.
Lemma kMalloc_kept h m n : al_ok h -> al_room h n -> 0 <= n -> 
  kept [] h m (kMalloc h m n).1.2 (kMalloc h m n).2.
Proof using Type.
  intros Hok Hr Hn a k _ Hk. pose proof (kMalloc_law h m n Hok Hr Hn) as Hl.
  destruct (al_live h a k Hok Hk) as (_ & _ & _ & Hlive). pose proof (kMalloc_bytes h m n a k Hok Hr Hn Hlive) as Hb.
  destruct (kMalloc h m n) as [[p h'] m']. destruct Hl as (_ & Hnew & Hblk & _). cbn [fst snd] in *.
  split; [|done]. rewrite Hblk, lookup_insert_ne by congruence. done.
Qed.
Lemma kFree_kept h m p n : al_ok h -> al_blocks h !! p = Some n ->
  kept [p] h m (kFree h m p).1 (kFree h m p).2.
Proof using Type.
  intros Hok Hp a k Hn Hk. pose proof (kFree_law h m p n Hok Hp) as Hl. rewrite list_elem_of_singleton in Hn.
  destruct (al_live h a k Hok Hk) as (_ & _ & _ & Hlive). pose proof (al_apart h a k p n Hok Hk Hp Hn) as Hap.
  destruct (kFree h m p) as [h' m']. destruct Hl as (_ & Hblk & _ & Hm). cbn [fst snd].
  split; [by rewrite Hblk, lookup_delete_ne by congruence|]. apply bytes_ext. intros x Hx. unfold apart in Hap.
  apply Hm; [by apply Hlive|lia].
Qed.
Lemma bytes_prefix m m' a k n : bytes m' a k = bytes m a k -> 0 <= n <= k -> bytes m' a n = bytes m a n.
Proof using Type.
  intros E Hn. replace k with (n + (k - n)) in E by lia. rewrite !bytes_app in E by lia.
  apply app_inj_1 in E as [E _]; [done|]. by rewrite !length_bytes.
Qed.

(** ** Vectors that hold elements *)

Record vec_holds h m (vec : Z) (v : vector_Vector) (val : elements) : Prop := {
  vh_ok : v_ok h v;
  vh_cap : 0 < v_cap v;
  vh_vec : al_blocks h !! vec = Some sizeof_Vector;
  vh_ne : vec <> v_data v;
  vh_size : v_objectSize v = val.1;
  vh_sized : sized val.1 val.2;
  vh_contents : v_contents v m = concat val.2;
}.
Record vectors_ok st vals : Prop := {
  vo_al : al_ok (vh st);
  vo_obj : forall a vec, vobjs st !! a = Some vec -> exists v val,
    vecs st !! vec = Some v /\ vals !! a = Some val /\ vec_holds (vh st) (vm st) vec v val;
  vo_dom : forall a val, vals !! a = Some val -> is_Some (vobjs st !! a);
  vo_apart : forall a b x y v w, a <> b -> vobjs st !! a = Some x -> vobjs st !! b = Some y ->
    vecs st !! x = Some v -> vecs st !! y = Some w -> x <> y /\ x <> v_data w /\ v_data v <> v_data w;
}.

Lemma vec_holds_length h m vec v val : vec_holds h m vec v val -> v_size v = val.1 * Z.of_nat (length val.2).
Proof using Type.
  intros Hh. rewrite <- (sized_length _ _ (vh_sized _ _ _ _ _ Hh)), <- (vh_contents _ _ _ _ _ Hh).
  unfold v_contents. rewrite length_bytes. pose proof (vok_size _ _ (vh_ok _ _ _ _ _ Hh)). lia.
Qed.
Lemma vec_holds_Size h m vec v val : vec_holds h m vec v val -> vector_Size v = Z.of_nat (length val.2).
Proof using Type.
  intros Hh. unfold vector_Size. rewrite (vec_holds_length _ _ _ _ _ Hh), (vh_size _ _ _ _ _ Hh).
  pose proof (vok_obj _ _ (vh_ok _ _ _ _ _ Hh)) as Ho. rewrite (vh_size _ _ _ _ _ Hh) in Ho.
  rewrite Z.mul_comm. apply Z.div_mul. lia.
Qed.
Lemma vec_holds_kept X h m h' m' vec v val :
  vec_holds h m vec v val -> kept X h m h' m' -> vec ∉ X -> v_data v ∉ X -> vec_holds h' m' vec v val.
Proof using Type.
  intros [[Hb Ho Hs Hd] Hc Hv Hne Hsz Hes Hcon] Hk Hx Hy. destruct (Hk _ _ Hy Hb) as [Hb' Hby].
  split; try done; [by apply Hk|]. rewrite <- Hcon. by apply (bytes_prefix _ _ _ (v_cap v)).
Qed.
(** The vector of an object, its block and buffer. *)
Lemma object_vec st vals a val : vectors_ok st vals -> vals !! a = Some val -> exists vec v,
  vobjs st !! a = Some vec /\ vecs st !! vec = Some v /\ vec_holds (vh st) (vm st) vec v val.
Proof using Type.
  intros Hok Ha. destruct (vo_dom _ _ Hok _ _ Ha) as [vec Hvec]. destruct (vo_obj _ _ Hok _ _ Hvec) as (v & val' & Hv & Hval & Hh).
  exists vec, v. split_and!; [done|done|congruence].
Qed.

(** An operation on the vector of one object. *)
Lemma change_ok st vals a vec v h' m' v' val' :
  vectors_ok st vals -> vobjs st !! a = Some vec -> vecs st !! vec = Some v ->
  al_ok h' -> kept [v_data v] (vh st) (vm st) h' m' -> vec_holds h' m' vec v' val' ->
  (v_data v' = v_data v \/ al_blocks (vh st) !! v_data v' = None) ->
  vectors_ok (mk_vt h' m' (<[vec := v']> (vecs st)) (vobjs st)) (<[a := val']> vals).
Proof using Type.
  intros Hok Ha Hv Hal Hkept Hh Hfresh. 
  assert (forall b y w, b <> a -> vobjs st !! b = Some y -> vecs st !! y = Some w ->
    y <> vec /\ y <> v_data v' /\ vec <> v_data w /\ v_data w <> v_data v' /\ y <> v_data v /\ v_data w <> v_data v) as Hap.
  { intros b y w Hne Hy Hw. destruct (vo_apart _ _ Hok b a y vec w v Hne Hy Ha Hw Hv) as (H1 & H2 & H3).
    destruct (vo_apart _ _ Hok a b vec y v w (not_eq_sym Hne) Ha Hy Hv Hw) as (_ & H4 & _).
    destruct (vo_obj _ _ Hok _ _ Hy) as (w' & val & Hw' & _ & Hhb). replace w' with w in * by congruence.
    pose proof (vh_vec _ _ _ _ _ Hhb). pose proof (vok_block _ _ (vh_ok _ _ _ _ _ Hhb)).
    split_and!; try done; destruct Hfresh; congruence. }
  split; cbn [vh vm vecs vobjs]; [done|..].
  - intros b y Hy. destruct (decide (b = a)) as [->|Hne].
    + assert (y = vec) as -> by congruence. exists v', val'. by rewrite !lookup_insert_eq.
    + destruct (vo_obj _ _ Hok _ _ Hy) as (w & val & Hw & Hval & Hhb). destruct (Hap _ _ _ Hne Hy Hw) as (? & ? & ? & ? & ? & ?).
      exists w, val. rewrite !lookup_insert_ne by congruence. split_and!; [done|done|].
      eapply vec_holds_kept; [done|done|by rewrite list_elem_of_singleton..].
  - intros b val Hb. destruct (decide (b = a)) as [->|Hne]; [by eexists|].
    rewrite lookup_insert_ne in Hb by congruence. by eapply vo_dom.
  - intros b c x y w z Hne Hx Hy Hw Hz. destruct (decide (b = a)) as [->|Hb].
    + assert (x = vec) as -> by congruence. rewrite lookup_insert_eq in Hw. injection Hw as <-.
      destruct (decide (y = vec)) as [->|Hyv]; [exfalso; by destruct (Hap c vec v)|].
      rewrite lookup_insert_ne in Hz by congruence. destruct (Hap c y z) as (? & ? & ? & ? & _); [congruence|done..|].
      split_and!; congruence.
    + destruct (decide (x = vec)) as [->|Hxv]; [exfalso; by destruct (Hap b vec v)|]. rewrite lookup_insert_ne in Hw by congruence.
      destruct (decide (c = a)) as [->|Hc].
      * assert (y = vec) as -> by congruence. rewrite lookup_insert_eq in Hz. injection Hz as <-.
        destruct (Hap b x w) as (? & ? & ? & ? & _); [done..|]. split_and!; congruence.
      * destruct (decide (y = vec)) as [->|Hyv]; [exfalso; by destruct (Hap c vec v)|].
        rewrite lookup_insert_ne in Hz by congruence. by apply (vo_apart _ _ Hok b c).
Qed.

(** Room for a vector of elements of this size. *)
Definition room_new (sizeofType : Z) st : Prop :=
  al_room (vh st) sizeof_Vector /\ al_room (kMalloc (vh st) (vm st) sizeof_Vector).1.2 sizeofType.

Lemma create_spec sz st : al_ok (vh st) -> room_new sz st -> 0 < sz -> exists vec v h m,
  create sz st = (vec, mk_vt h m (<[vec := v]> (vecs st)) (vobjs st)) /\
  al_ok h /\ kept [] (vh st) (vm st) h m /\ vec_holds h m vec v (sz, []) /\
  al_blocks (vh st) !! vec = None /\ al_blocks (vh st) !! v_data v = None.
Proof using Type.
  intros Hok [Hr1 Hr2] Hsz. unfold create, vector_Create.
  pose proof (kMalloc_law (vh st) (vm st) sizeof_Vector Hok Hr1 ltac:(done)) as Hl1.
  pose proof (kMalloc_kept (vh st) (vm st) sizeof_Vector Hok Hr1 ltac:(done)) as Hk1.
  destruct (kMalloc (vh st) (vm st) sizeof_Vector) as [[vec h1] m1]. cbn [fst snd] in *.
  destruct Hl1 as (Hok1 & Hn1 & Hb1 & _).
  pose proof (kMalloc_law h1 m1 sz Hok1 Hr2 ltac:(lia)) as Hl2.
  pose proof (kMalloc_kept h1 m1 sz Hok1 Hr2 ltac:(lia)) as Hk2.
  destruct (kMalloc h1 m1 sz) as [[data h2] m2]. cbn [fst snd] in *. destruct Hl2 as (Hok2 & Hn2 & Hb2 & _).
  assert (vec <> data /\ al_blocks (vh st) !! data = None) as [Hne Hnd].
  { rewrite Hb1 in Hn2. apply lookup_insert_None in Hn2 as [? ?]. done. }
  eexists vec, _, h2, m2. split; [done|]. split; [done|]. split; [exact (kept_trans [] [] _ _ _ _ _ _ Hk1 Hk2)|].
  split; [|done]. split; cbn [v_cap v_data v_objectSize fst snd]; try done.
  - split; cbn [v_cap v_data v_objectSize v_size]; [by rewrite Hb2, lookup_insert_eq|done|lia|apply Z.divide_0_r].
  - by rewrite Hb2, lookup_insert_ne, Hb1, lookup_insert_eq by congruence.
  - constructor.
Qed.

Lemma create_ok sz a st vals : vectors_ok st vals -> vals !! a = None -> room_new sz st -> 0 < sz ->
  vectors_ok (Vector_default sz a st) (<[a := (sz, [])]> vals).
Proof using Type.
  intros Hok Ha Hr Hsz. destruct (create_spec sz st (vo_al _ _ Hok) Hr Hsz) as (vec & v & h & m & E & Hal & Hk & Hh & Hn1 & Hn2).
  unfold Vector_default. rewrite E. unfold set_vec. cbn [vh vm vecs vobjs].
  assert (forall b y, vobjs st !! b = Some y -> b <> a) as Hba.
  { intros b y Hy ->. destruct (vo_obj _ _ Hok _ _ Hy) as (? & ? & _ & ? & _). congruence. }
  assert (forall b y w, vobjs st !! b = Some y -> vecs st !! y = Some w -> 
    y <> vec /\ y <> v_data v /\ v_data w <> vec /\ v_data w <> v_data v) as Hap.
  { intros b y w Hy Hw. destruct (vo_obj _ _ Hok _ _ Hy) as (w' & val & Hw' & _ & Hhb). replace w' with w in * by congruence.
    pose proof (vh_vec _ _ _ _ _ Hhb). pose proof (vok_block _ _ (vh_ok _ _ _ _ _ Hhb)). split_and!; congruence. }
  split; cbn [vh vm vecs vobjs]; [done|..].
  - intros b y Hy. apply lookup_insert_Some in Hy as [[<- <-]|[Hne Hy]]; [exists v, (sz, []); by rewrite !lookup_insert_eq|].
    destruct (vo_obj _ _ Hok _ _ Hy) as (w & val & Hw & Hval & Hhb). destruct (Hap _ _ _ Hy Hw) as (? & _).
    exists w, val. rewrite !lookup_insert_ne by congruence. split_and!; [done|done|].
    eapply vec_holds_kept; [done|done|by apply not_elem_of_nil..].
  - intros b val Hb. destruct (decide (b = a)) as [->|Hne]; [by rewrite lookup_insert_eq; eexists|].
    rewrite lookup_insert_ne in Hb by congruence. rewrite lookup_insert_ne by congruence. by eapply vo_dom.
  - intros b c x y w z Hne Hx Hy Hw Hz.
    apply lookup_insert_Some in Hx as [[<- <-]|[Hne1 Hx]]; apply lookup_insert_Some in Hy as [[<- <-]|[Hne2 Hy]]; [done|..].
    + rewrite lookup_insert_eq in Hw. injection Hw as <-. apply lookup_insert_Some in Hz as [[<- <-]|[Hyv Hz]].
      * exfalso. destruct (vo_obj _ _ Hok _ _ Hy) as (w & ? & Hw & _). by destruct (Hap _ _ _ Hy Hw).
      * destruct (Hap _ _ _ Hy Hz) as (? & ? & ? & ?). split_and!; congruence.
    + rewrite lookup_insert_eq in Hz. injection Hz as <-. apply lookup_insert_Some in Hw as [[<- <-]|[Hyv Hw]].
      * exfalso. destruct (vo_obj _ _ Hok _ _ Hx) as (w & ? & Hw & _). by destruct (Hap _ _ _ Hx Hw).
      * destruct (Hap _ _ _ Hx Hw) as (? & ? & ? & ?). split_and!; congruence.
    + destruct (vo_obj _ _ Hok _ _ Hx) as (w' & ? & Hw' & _). destruct (Hap _ _ _ Hx Hw') as (? & _).
      destruct (vo_obj _ _ Hok _ _ Hy) as (z' & ? & Hz' & _). destruct (Hap _ _ _ Hy Hz') as (? & _).
      rewrite lookup_insert_ne in Hw, Hz by congruence. by apply (vo_apart _ _ Hok b c).
Qed.

(** Another object takes the vector of an object. *)
Lemma rename_ok a b vec val st vals : vectors_ok st vals -> vobjs st !! b = Some vec -> vals !! b = Some val -> vals !! a = None ->
  vectors_ok (mk_vt (vh st) (vm st) (vecs st) (<[a := vec]> (delete b (vobjs st)))) (<[a := val]> (delete b vals)).
Proof using Type.
  intros Hok Hb Hval Ha.
  set (from c := if decide (c = a) then b else c).
  assert (forall c y, (<[a := vec]> (delete b (vobjs st))) !! c = Some y -> vobjs st !! from c = Some y /\ 
    (<[a := val]> (delete b vals)) !! c = vals !! from c /\ (c = a \/ c <> b)) as Hf.
  { intros c y Hc. subst from. cbn. destruct (decide (c = a)) as [->|Hca].
    - rewrite lookup_insert_eq in Hc. rewrite lookup_insert_eq. split_and!; [congruence|congruence|by left].
    - rewrite lookup_insert_ne in Hc by congruence. rewrite lookup_insert_ne by congruence. apply lookup_delete_Some in Hc as [? Hc].
      rewrite lookup_delete_ne by congruence. split_and!; [done|done|right; congruence]. }
  split; cbn [vh vm vecs vobjs]; [apply Hok|..].
  - intros c y Hc. destruct (Hf c y Hc) as (Hy & -> & _). by apply (vo_obj _ _ Hok).
  - intros c x Hc. destruct (decide (c = a)) as [->|Hca]; [by rewrite lookup_insert_eq; eexists|].
    rewrite lookup_insert_ne in Hc by congruence. rewrite lookup_insert_ne by congruence. apply lookup_delete_Some in Hc as [? Hc].
    rewrite lookup_delete_ne by congruence. by eapply vo_dom.
  - intros c d x y w z Hne Hx Hy Hw Hz. destruct (Hf c x Hx) as (Hx' & _ & Hc). destruct (Hf d y Hy) as (Hy' & _ & Hd).
    apply (vo_apart _ _ Hok (from c) (from d)); try done. subst from. cbn.
    destruct (decide (c = a)), (decide (d = a)); intuition congruence.
Qed.

Lemma delete_ok a st vals : vectors_ok st vals -> is_Some (vals !! a) ->
  exists st', Vector_delete a st = Some st' /\ vectors_ok st' (delete a vals).
Proof using Type.
  intros Hok [val Ha]. destruct (object_vec _ _ _ _ Hok Ha) as (vec & v & Hvec & Hv & Hh).
  unfold Vector_delete. rewrite Hvec. cbn [mbind option_bind]. rewrite Hv. cbn [mbind option_bind]. unfold vector_Destroy.
  pose proof (vok_block _ _ (vh_ok _ _ _ _ _ Hh)) as Hb. pose proof (vh_vec _ _ _ _ _ Hh) as Hbv.
  pose proof (kFree_law (vh st) (vm st) _ _ (vo_al _ _ Hok) Hb) as Hl. pose proof (kFree_kept (vh st) (vm st) _ _ (vo_al _ _ Hok) Hb) as Hk1.
  destruct (kFree (vh st) (vm st) (v_data v)) as [h1 m1]. destruct Hl as (Hal1 & Hb1 & _). cbn [fst snd] in Hk1.
  assert (al_blocks h1 !! vec = Some sizeof_Vector) as Hbv1.
  { rewrite Hb1, lookup_delete_ne by (intros E; by apply (vh_ne _ _ _ _ _ Hh)). done. }
  pose proof (kFree_law h1 m1 vec _ Hal1 Hbv1) as Hl2. pose proof (kFree_kept h1 m1 vec _ Hal1 Hbv1) as Hk2.
  destruct (kFree h1 m1 vec) as [h2 m2]. destruct Hl2 as (Hal2 & _). cbn [fst snd] in Hk2.
  pose proof (kept_trans _ _ _ _ _ _ _ _ Hk1 Hk2) as Hk. cbn [app] in Hk. eexists. split; [done|].
  assert (forall b y w, b <> a -> vobjs st !! b = Some y -> vecs st !! y = Some w ->
    y <> vec /\ y <> v_data v /\ v_data w <> vec /\ v_data w <> v_data v) as Hap.
  { intros b y w Hne Hy Hw. destruct (vo_apart _ _ Hok b a y vec w v Hne Hy Hvec Hw Hv) as (? & ? & ?).
    destruct (vo_apart _ _ Hok a b vec y v w (not_eq_sym Hne) Hvec Hy Hv Hw) as (_ & ? & _). split_and!; congruence. }
  split; cbn [vh vm vecs vobjs]; [done|..].
  - intros b y Hy. apply lookup_delete_Some in Hy as [Hne Hy]. destruct (vo_obj _ _ Hok _ _ Hy) as (w & val' & Hw & Hval & Hhb).
    destruct (Hap b y w) as (? & ? & ? & ?); [congruence|done..|]. exists w, val'. rewrite !lookup_delete_ne by congruence. split_and!; [done|done|].
    eapply vec_holds_kept; [done|done| |]; rewrite !not_elem_of_cons; auto using not_elem_of_nil.
  - intros b x Hx. apply lookup_delete_Some in Hx as [? Hx]. rewrite lookup_delete_ne by congruence. by eapply vo_dom.
  - intros b c x y w z Hne Hx Hy Hw Hz. apply lookup_delete_Some in Hx as [? Hx], Hy as [? Hy].
    apply lookup_delete_Some in Hw as [? Hw], Hz as [? Hz]. by apply (vo_apart _ _ Hok b c).
Qed.

(** ** The operations *)

(** What a vector function leaves, put back for its object. *)
Lemma with_vec_ok a f st vals vec v sz es v' h' m' es' :
  vectors_ok st vals -> vobjs st !! a = Some vec -> vecs st !! vec = Some v -> vec_holds (vh st) (vm st) vec v (sz, es) ->
  f v (vh st) (vm st) = Some (v', h', m') -> al_ok h' -> v_ok h' v' -> v_cap v <= v_cap v' \/ 0 < v_cap v' -> v_objectSize v' = v_objectSize v ->
  others_kept (vh st) (vm st) h' m' v -> (v_data v' = v_data v \/ al_blocks (vh st) !! v_data v' = None) ->
  sized sz es' -> v_contents v' m' = concat es' ->
  exists st', with_vec a f st = Some st' /\ vectors_ok st' (<[a := (sz, es')]> vals).
Proof using Type.
  intros Hok Ha Hv Hh Ef Hal Hvok Hcap Hsz Hkept Hfresh Hes Hcon. unfold with_vec. rewrite Ha. cbn [mbind option_bind]. rewrite Hv. cbn [mbind option_bind]. rewrite Ef.
  eexists. split; [done|]. pose proof (vh_vec _ _ _ _ _ Hh) as Hvec. pose proof (vh_ne _ _ _ _ _ Hh) as Hne.
  pose proof (vh_cap _ _ _ _ _ Hh). pose proof (vh_size _ _ _ _ _ Hh).
  assert (kept [v_data v] (vh st) (vm st) h' m') as Hk by (intros x k Hx; rewrite list_elem_of_singleton in Hx; by apply Hkept).
  apply change_ok with (v := v); try done. split; cbn [fst snd] in *; try done.
  - lia.
  - apply (Hk vec); [by rewrite list_elem_of_singleton|done].
  - destruct Hfresh; congruence.
  - congruence.
Qed.
(** The same for a function that only moves the buffer. *)
Lemma with_vec_moved a f st vals vec v sz es v' h' m' :
  vectors_ok st vals -> vobjs st !! a = Some vec -> vecs st !! vec = Some v -> vec_holds (vh st) (vm st) vec v (sz, es) ->
  f v (vh st) (vm st) = Some (v', h', m') -> moved v (vh st) (vm st) v' h' m' -> v_size v <= v_cap v' -> 0 < v_cap v' ->
  exists st', with_vec a f st = Some st' /\ vectors_ok st' (<[a := (sz, es)]> vals).
Proof using Type.
  intros Hok Ha Hv Hh Ef Hm Hc Hp. pose proof Hm as [Hal Hb Ho Hs Hcon Hf Hoth _].
  eapply with_vec_ok; [done..| |by right|done|done|done|apply Hh|by rewrite Hcon; apply Hh].
  pose proof (vok_size _ _ (vh_ok _ _ _ _ _ Hh)) as Hr. split; [done| |lia|].
  - rewrite Ho. apply (vok_obj _ _ (vh_ok _ _ _ _ _ Hh)).
  - rewrite Ho, Hs. apply (vok_mult _ _ (vh_ok _ _ _ _ _ Hh)).
Qed.

Definition count (es : list (list Z)) : Z := Z.of_nat (length es).
(** Room for a buffer of this size and for growing to it. *)
Definition room_grow st (n : Z) : Prop := n <= 2 ^ 63 /\ forall k, 0 <= k <= 2 * n -> al_room (vh st) k.
(** Memory that is neither the allocator's nor in the buffer of the object. *)
Definition readable st (a data n : Z) : Prop := 0 <= data < 2 ^ 64 /\ forall v, the_vec a st = Some v ->
  forall x, data <= x < data + n -> ~ al_own (vh st) x /\ ~ (v_data v <= x < v_data v + v_cap v).

Lemma vec_append st vals a vec v sz es data n es2 :
  vectors_ok st vals -> vobjs st !! a = Some vec -> vecs st !! vec = Some v -> vec_holds (vh st) (vm st) vec v (sz, es) ->
  n = count es2 -> sized sz es2 -> room_grow st (sz * (count es + n)) -> readable st a data (if data =? 0 then 0 else sz * n) ->
  concat es2 = (if data =? 0 then replicate (Z.to_nat (sz * n)) 0 else bytes (vm st) data (sz * n)) ->
  exists v' h' m', vector_Append 64 v (vh st) (vm st) data n = Some (v', h', m') /\ al_ok h' /\ v_ok h' v' /\
    v_contents v' m' = concat (es ++ es2) /\ vector_Size v' = count es + n /\ others_kept (vh st) (vm st) h' m' v /\
    v_cap v <= v_cap v' /\ v_objectSize v' = v_objectSize v /\ (v_data v' = v_data v \/ al_blocks (vh st) !! v_data v' = None).
Proof using Type.
  intros Hok Ha Hv Hh -> Hes2 [H63 Hroom] [Hd Hr] Hc. pose proof (vec_holds_length _ _ _ _ _ Hh) as Hlen. cbn [fst snd] in Hlen.
  pose proof (vh_size _ _ _ _ _ Hh) as Hsz. cbn [fst] in Hsz.
  assert (v_size v + v_objectSize v * count es2 = sz * (count es + count es2)) as E by (unfold count in *; nia).
  destruct (vector_Append_correct v (vh st) (vm st) data (count es2) (vo_al _ _ Hok) (vh_ok _ _ _ _ _ Hh) (vh_cap _ _ _ _ _ Hh))
    as (v' & h' & m' & EA & Hal & Hvok & Hcon & Hsize & Hrest); rewrite ?E; [unfold count; lia|done|done|done| |].
  - intros Hd0 x Hx. rewrite (proj2 (Z.eqb_neq _ _)) in Hr by done. rewrite Hsz in Hx. apply Hr; [|done]. unfold the_vec. by rewrite Ha.
  - exists v', h', m'. rewrite (vec_holds_Size _ _ _ _ _ Hh) in Hsize. split_and!; try done; try apply Hrest.
    rewrite Hcon, concat_app, (vh_contents _ _ _ _ _ Hh), Hc, Hsz. done.
Qed.

Lemma append_ok st vals a data n sz es es2 :
  vectors_ok st vals -> vals !! a = Some (sz, es) -> n = count es2 -> sized sz es2 -> room_grow st (sz * (count es + n)) ->
  readable st a data (if data =? 0 then 0 else sz * n) ->
  concat es2 = (if data =? 0 then replicate (Z.to_nat (sz * n)) 0 else bytes (vm st) data (sz * n)) ->
  exists st', Vector_Append 64 a data n st = Some st' /\ vectors_ok st' (<[a := (sz, es ++ es2)]> vals).
Proof using Type.
  intros Hok Ha Hn Hes2 Hroom Hr Hc. destruct (object_vec _ _ _ _ Hok Ha) as (vec & v & Hvec & Hv & Hh).
  destruct (vec_append st vals a vec v sz es data n es2 Hok Hvec Hv Hh Hn Hes2 Hroom Hr Hc)
    as (v' & h' & m' & E & Hal & Hvok & Hcon & _ & Hk & Hcap & Ho & Hf).
  eapply with_vec_ok; [done|done|done|done|exact E|done|done|by left|done|done|done| |done].
  apply Forall_app. split; [apply Hh|done].
Qed.

(** [Push] returns the address of the new element. *)
Lemma vec_push_ok st vals a data sz es e :
  vectors_ok st vals -> vals !! a = Some (sz, es) -> Z.of_nat (length e) = sz -> room_grow st (sz * (count es + 1)) -> data <> 0 ->
  readable st a data sz -> bytes (vm st) data sz = e ->
  exists p st', Vector_Push 64 a data st = Some (p, st') /\ vectors_ok st' (<[a := (sz, es ++ [e])]> vals) /\
    Vector_at a (count es) st' = Some p.
Proof using Type.
  intros Hok Ha He Hroom Hd Hr Hc. destruct (object_vec _ _ _ _ Hok Ha) as (vec & v & Hvec & Hv & Hh).
  assert ((data =? 0) = false) as Hd0 by lia.
  destruct (vec_append st vals a vec v sz es data 1 [e] Hok Hvec Hv Hh) as (v' & h' & m' & E & Hal & Hvok & Hcon & Hs & Hk & Hcap & Ho & Hf);
    rewrite ?Hd0, ?Z.mul_1_r; [done|by repeat constructor|done|done|cbn [concat]; by rewrite app_nil_r|].
  destruct (append_ok st vals a data 1 sz es [e] Hok Ha) as (st' & E' & Hok');
    rewrite ?Hd0, ?Z.mul_1_r; [done|by repeat constructor|done|done|cbn [concat]; by rewrite app_nil_r|].
  unfold Vector_Append, with_vec in E'. rewrite Hvec in E'. cbn [mbind option_bind] in E'. rewrite Hv in E'. cbn [mbind option_bind] in E'.
  rewrite E in E'. injection E' as <-.
  unfold Vector_Push. rewrite Hvec. cbn [mbind option_bind]. rewrite Hv. cbn [mbind option_bind].
  unfold vector_Push. rewrite E. cbn [mbind option_bind]. eexists _, _. split; [done|]. split; [done|].
  unfold Vector_at, the_vec. cbn [vobjs vecs]. rewrite Hvec. cbn [mbind option_bind]. rewrite lookup_insert_eq. cbn. f_equal. unfold vector_At. f_equal.
  destruct (vok_mult _ _ Hvok) as [q Hq]. pose proof (vok_obj _ _ Hvok). unfold vector_Size in Hs. rewrite Hq, Z.div_mul in Hs by lia. rewrite Hq, Hs. lia.
Qed.

Lemma resize_ok st vals a n sz es :
  vectors_ok st vals -> vals !! a = Some (sz, es) -> 0 <= n -> room_grow st (sz * n) ->
  exists st' more, Vector_Resize 64 a n st = Some st' /\ count (take (Z.to_nat n) es ++ more) = n /\
    vectors_ok st' (<[a := (sz, take (Z.to_nat n) es ++ more)]> vals).
Proof using Type.
  intros Hok Ha Hn [H63 Hroom]. destruct (object_vec _ _ _ _ Hok Ha) as (vec & v & Hvec & Hv & Hh).
  pose proof (vec_holds_length _ _ _ _ _ Hh) as Hlen. pose proof (vh_size _ _ _ _ _ Hh) as Hsz. pose proof (vh_contents _ _ _ _ _ Hh) as Hcon.
  pose proof (vh_sized _ _ _ _ _ Hh) as Hes. pose proof (vh_ok _ _ _ _ _ Hh) as Hvok. pose proof (vh_cap _ _ _ _ _ Hh) as Hcap.
  pose proof (vok_obj _ _ Hvok) as Ho. pose proof (vok_size _ _ Hvok) as Hr. cbn [fst snd] in *. rewrite Hsz in Ho.
  destruct (Z.le_gt_cases (count es) n) as [Hle|Hgt].
  - destruct (Resize_spec v (vh st) (vm st) n (vo_al _ _ Hok) Hvok Hcap Hn) as (v1 & h1 & m1 & E & Hm & Hc1 & Hgr);
      rewrite ?Hsz; [by rewrite Z.mul_comm|intros k Hk; apply Hroom; lia|unfold count in Hle; nia|].
    pose proof Hm as [Hal Hb Ho1 Hs1 Hcon1 Hf Hoth _]. rewrite Hsz in *.
    destruct (sized_chunks sz (Z.to_nat (n - count es)) Ho (bytes m1 (v_data v1 + v_size v1) (sz * (n - count es)))) as (more & Hmore & Hcm & Hlm).
    { rewrite length_bytes. unfold count in *. nia. }
    edestruct (with_vec_ok a (fun v h m => vector_Resize 64 v h m n) st vals vec v sz es) as (st' & E' & Hok'); [done..|exact E|done| |by left; cbn; lia|cbn; congruence|done|done| | |].
    + apply (moved_v_ok v (vh st) (vm st) v1 h1 m1); [done|done|nia|rewrite Hsz; apply Z.divide_factor_r].
    + apply (Forall_app_2 _ _ more Hes Hmore).
    + unfold v_contents. cbn [v_data v_size set_size]. unfold v_contents in Hcon1. rewrite concat_app, <- Hcon, Hcm.
      unfold v_contents. rewrite <- Hcon1. replace (n * sz) with (v_size v1 + sz * (n - count es)) by (unfold count in *; nia).
      apply bytes_app; [lia|unfold count in *; nia].
    + exists st', more. rewrite take_ge by (unfold count in Hle; lia). split; [done|]. split; [|done].
      unfold count in *. rewrite length_app. lia.
  - assert (0 <= n * sz <= v_size v) as Hns by (unfold count in Hgt; nia).
    assert (vector_Resize 64 v (vh st) (vm st) n = Some (set_size v (n * sz), vh st, vm st)) as E.
    { unfold vector_Resize. pose proof (v_cap_range _ _ (vo_al _ _ Hok) Hvok) as Hcr. change (2 ^ 64) with 18446744073709551616 in Hcr. rewrite Hsz, u64_small by lia.
      by rewrite (proj2 (Z.ltb_ge _ _)) by lia. }
    edestruct (with_vec_ok a (fun v h m => vector_Resize 64 v h m n) st vals vec v sz es) as (st' & E' & Hok'); [done..|exact E|apply Hok| |by left|done| |by left| | |].
    + destruct Hvok as [? ? ? ?]. split; cbn; [done|done|lia|]. rewrite Hsz. apply Z.divide_factor_r.
    + intros x k _ Hk. done.
    + by apply Forall_take.
    + assert (v_size v = n * sz + (v_size v - n * sz)) as Ev by lia. unfold v_contents in Hcon |- *. cbn [set_size v_data v_size].
      rewrite Ev, bytes_app in Hcon by lia. rewrite <- (take_drop (Z.to_nat n) es), concat_app in Hcon.
      apply app_inj_1 in Hcon as [Hcon _]; [exact Hcon|]. rewrite length_bytes.
      pose proof (sized_length sz (take (Z.to_nat n) es) (Forall_take _ _ _ Hes)) as Hl. rewrite length_take in Hl. unfold count in *. nia.
    + exists st', []. rewrite app_nil_r. split; [done|]. split; [|done]. unfold count in *. rewrite length_take. lia.
Qed.

Lemma clear_ok st vals a sz es :
  vectors_ok st vals -> vals !! a = Some (sz, es) ->
  exists st', Vector_Clear a st = Some st' /\ vectors_ok st' (<[a := (sz, [])]> vals).
Proof using Type.
  intros Hok Ha. destruct (object_vec _ _ _ _ Hok Ha) as (vec & v & Hvec & Hv & Hh).
  eapply with_vec_ok; [done..|apply Hok| |by left|done|by intros x k _ Hk|by left|constructor|].
  - destruct (vh_ok _ _ _ _ _ Hh) as [? ? ? ?]. split; cbn; [done|done|lia|apply Z.divide_0_r].
  - apply bytes_0.
Qed.
Lemma rebuffer_ok st vals a sz es (f : vector_Vector -> Z) (g : vector_Vector -> bool) :
  vectors_ok st vals -> vals !! a = Some (sz, es) ->
  (forall v, the_vec a st = Some v -> g v = true -> v_size v <= f v /\ 0 < f v /\ al_room (vh st) (f v)) ->
  exists st', with_vec a (fun v h m => Some (if g v then __vector_Rebuffer v h m (f v) else (v, h, m))) st = Some st' /\
    vectors_ok st' (<[a := (sz, es)]> vals).
Proof using Type.
  intros Hok Ha Hg. destruct (object_vec _ _ _ _ Hok Ha) as (vec & v & Hvec & Hv & Hh).
  pose proof (vh_ok _ _ _ _ _ Hh) as Hvok. pose proof (vok_size _ _ Hvok) as Hvs. pose proof (vh_cap _ _ _ _ _ Hh) as Hvc.
  assert (exists v' h' m', (if g v then __vector_Rebuffer v (vh st) (vm st) (f v) else (v, vh st, vm st)) = (v', h', m') /\
    moved v (vh st) (vm st) v' h' m' /\ v_size v <= v_cap v' /\ 0 < v_cap v') as (v' & h' & m' & E & Hm & Hs & Hc).
  { destruct (g v) eqn:Eg.
    - destruct (Hg v) as (Hg1 & Hg2 & Hg3); [unfold the_vec; by rewrite Hvec|done|].
      pose proof (Rebuffer_moved v (vh st) (vm st) (f v) (vo_al _ _ Hok) Hvok Hg3 Hg1) as Hm.
      destruct (__vector_Rebuffer v (vh st) (vm st) (f v)) as [[v' h'] m']. destruct Hm as [Hm Hcap]. exists v', h', m'. by rewrite Hcap.
    - exists v, (vh st), (vm st). split; [done|]. split; [apply moved_refl; [apply Hok|apply Hvok]|]. lia. }
  eapply with_vec_moved; [done|done|done|done|by rewrite E|done|done|done].
Qed.

Lemma shrink_ok st vals a sz es :
  vectors_ok st vals -> vals !! a = Some (sz, es) -> es <> [] -> al_room (vh st) (sz * count es) ->
  exists st', Vector_ShrinkBuffer a st = Some st' /\ vectors_ok st' (<[a := (sz, es)]> vals).
Proof using Type.
  intros Hok Ha Hne Hroom. apply (rebuffer_ok st vals a sz es v_size (fun v => negb (v_size v =? v_cap v))); [done|done|].
  intros v Hv _. destruct (object_vec _ _ _ _ Hok Ha) as (vec & v' & Hvec & Hv' & Hh). unfold the_vec in Hv. rewrite Hvec in Hv. cbn [mbind option_bind] in Hv.
  assert (v' = v) as -> by congruence. pose proof (vec_holds_length _ _ _ _ _ Hh) as Hl. cbn [fst snd] in Hl.
  pose proof (vok_obj _ _ (vh_ok _ _ _ _ _ Hh)) as Ho. rewrite (vh_size _ _ _ _ _ Hh) in Ho. cbn [fst] in Ho.
  rewrite Hl. split; [lia|]. split; [|done]. destruct es; [done|]. cbn [length]. nia.
Qed.
Lemma reserve_ok st vals a cap sz es :
  vectors_ok st vals -> vals !! a = Some (sz, es) -> 0 <= sz * cap < 2 ^ 64 -> al_room (vh st) (sz * cap) ->
  exists st', Vector_Reserve a cap st = Some st' /\ vectors_ok st' (<[a := (sz, es)]> vals).
Proof using Type.
  change (2 ^ 64) with 18446744073709551616. intros Hok Ha Hr Hroom.
  apply (rebuffer_ok st vals a sz es (fun v => u64 (v_objectSize v * cap)) (fun v => v_cap v <? u64 (v_objectSize v * cap))); [done|done|].
  intros v Hv Hlt. destruct (object_vec _ _ _ _ Hok Ha) as (vec & v' & Hvec & Hv' & Hh). unfold the_vec in Hv. rewrite Hvec in Hv. cbn [mbind option_bind] in Hv.
  assert (v' = v) as -> by congruence. pose proof (vok_size _ _ (vh_ok _ _ _ _ _ Hh)). rewrite (vh_size _ _ _ _ _ Hh), u64_small in * by done.
  cbn [fst] in *. split_and!; [lia|lia|done].
Qed.
Lemma move_ok sz a b st vals es : vectors_ok st vals -> vals !! a = None -> vals !! b = Some (sz, es) -> room_new sz st ->
  exists st', Vector_move sz a b st = Some st' /\ vectors_ok st' (<[b := (sz, [])]> (<[a := (sz, es)]> vals)).
Proof using Type.
  intros Hok Ha Hb Hr. destruct (object_vec _ _ _ _ Hok Hb) as (vec & v & Hvec & Hv & Hh).
  assert (0 < sz) as Hsz. { pose proof (vok_obj _ _ (vh_ok _ _ _ _ _ Hh)). by rewrite (vh_size _ _ _ _ _ Hh) in *. }
  assert (a <> b) as Hne by congruence.
  assert (forall T (M : gmap Z T) x y, <[b := y]> (<[a := x]> M) = <[b := y]> (<[a := x]> (delete b M))) as Hmap.
  { intros T M x y. apply map_eq. intros c. destruct (decide (c = b)) as [->|Hcb]; [by rewrite !lookup_insert_eq|].
    rewrite !(lookup_insert_ne _ b) by congruence. destruct (decide (c = a)) as [->|Hca]; [by rewrite !lookup_insert_eq|].
    by rewrite !lookup_insert_ne, lookup_delete_ne by congruence. }
  pose proof (create_ok sz b _ _ (rename_ok a b vec _ st vals Hok Hvec Hb Ha)) as Hc.
  rewrite Hmap. unfold Vector_move. rewrite Hvec. cbn [mbind option_bind].
  destruct (create sz (set_vec a vec st)) as [new st'] eqn:E. eexists. split; [done|].
  unfold Vector_default in Hc. unfold create in E, Hc. cbn [vh vm vecs vobjs set_vec] in E, Hc.
  destruct (vector_Create (vh st) (vm st) sz) as [[[x w] h] m]. injection E as <- <-. unfold set_vec in *. cbn [vh vm vecs vobjs] in *.
  rewrite Hmap. apply Hc; [|done|done]. rewrite lookup_insert_ne by done. apply lookup_delete_eq.
Qed.

(** What a caller sees of a vector. *)
Lemma observe st vals a sz es : vectors_ok st vals -> vals !! a = Some (sz, es) ->
  Vector_Size a st = Some (count es) /\ (exists c, Vector_Capacity a st = Some c /\ count es <= c) /\
  forall i e, es !! i = Some e -> exists p, Vector_at a (Z.of_nat i) st = Some p /\ bytes (vm st) p sz = e.
Proof using Type.
  intros Hok Ha. destruct (object_vec _ _ _ _ Hok Ha) as (vec & v & Hvec & Hv & Hh).
  pose proof (vec_holds_length _ _ _ _ _ Hh) as Hl. pose proof (vh_size _ _ _ _ _ Hh) as Hsz. cbn [fst snd] in *.
  pose proof (vok_obj _ _ (vh_ok _ _ _ _ _ Hh)) as Ho. pose proof (vok_size _ _ (vh_ok _ _ _ _ _ Hh)) as Hr. rewrite Hsz in Ho.
  unfold Vector_Size, Vector_Capacity, Vector_at, the_vec. rewrite Hvec. cbn [mbind option_bind]. rewrite Hv. cbn [fmap option_fmap option_map].
  split; [by rewrite (vec_holds_Size _ _ _ _ _ Hh)|]. split.
  - eexists. split; [done|]. unfold vector_Capacity. rewrite Hsz. apply Z.div_le_lower_bound; [done|]. unfold count. lia.
  - intros i e Hi. pose proof (lookup_lt_Some _ _ _ Hi) as Hlt. eexists. split; [done|]. unfold vector_At.
    pose proof (v_cap_range _ _ (vo_al _ _ Hok) (vh_ok _ _ _ _ _ Hh)) as Hcr. change (2 ^ 64) with 18446744073709551616 in Hcr.
    assert (sz * Z.of_nat i + sz <= v_size v) as Hb by nia. rewrite Hsz, u64_small by nia.
    rewrite <- (concat_lookup sz es i e (vh_sized _ _ _ _ _ Hh) Hi). pose proof (vh_contents _ _ _ _ _ Hh) as Hc. cbn [snd] in Hc. rewrite <- Hc.
    unfold v_contents. replace (v_size v) with (sz * Z.of_nat i + (sz + (v_size v - sz * Z.of_nat i - sz))) by lia.
    rewrite !bytes_app by lia. rewrite drop_app_length' by (rewrite length_bytes; lia).
    rewrite take_app_length'; [done|]. rewrite length_bytes. lia.
Qed.

(** ** Vectors refine lists *)

Inductive vector_op :=
  | New (sz a : Z) | Move (sz a b : Z) | Delete (a : Z)
  | Push (a data : Z) (e : list Z) | Append (a data n : Z) (es : list (list Z))
  | Resize (a n : Z) | Clear (a : Z) | Shrink (a : Z) | Reserve (a cap : Z).
Definition run_op (o : vector_op) st : option vt :=
  match o with
  | New sz a => Some (Vector_default sz a st)
  | Move sz a b => Vector_move sz a b st
  | Delete a => Vector_delete a st
  | Push a data _ => snd <$> Vector_Push 64 a data st
  | Append a data n _ => Vector_Append 64 a data n st
  | Resize a n => Vector_Resize 64 a n st
  | Clear a => Vector_Clear a st
  | Shrink a => Vector_ShrinkBuffer a st
  | Reserve a cap => Vector_Reserve a cap st
  end.
Definition value vals (a : Z) : elements := default (0, []) (vals !! a).
Definition update (a : Z) (es : list (list Z)) vals : gmap Z elements := <[a := ((value vals a).1, es)]> vals.
(** What the operation does to the elements; [Resize] leaves those behind the
    old ones open. *)
Definition spec_op (o : vector_op) vals vals' : Prop :=
  match o with
  | New sz a => vals' = <[a := (sz, [])]> vals
  | Move sz a b => vals' = <[b := (sz, [])]> (<[a := value vals b]> vals)
  | Delete a => vals' = delete a vals
  | Push a _ e => vals' = update a ((value vals a).2 ++ [e]) vals
  | Append a _ _ es => vals' = update a ((value vals a).2 ++ es) vals
  | Resize a n => exists more, count (take (Z.to_nat n) (value vals a).2 ++ more) = n /\
      vals' = update a (take (Z.to_nat n) (value vals a).2 ++ more) vals
  | Clear a => vals' = update a [] vals
  | Shrink _ | Reserve _ _ => vals' = vals
  end.
(** New objects have an unused address, there is memory, and what is added is
    not in the buffer that may move. *)
Definition op_ok (o : vector_op) st vals : Prop :=
  match o with
  | New sz a => vals !! a = None /\ 0 < sz /\ room_new sz st
  | Move sz a b => vals !! a = None /\ is_Some (vals !! b) /\ sz = (value vals b).1 /\ room_new sz st
  | Delete a | Clear a => is_Some (vals !! a)
  | Push a data e => is_Some (vals !! a) /\ let '(sz, es) := value vals a in
      data <> 0 /\ Z.of_nat (length e) = sz /\ bytes (vm st) data sz = e /\ readable st a data sz /\ room_grow st (sz * (count es + 1))
  | Append a data n es2 => is_Some (vals !! a) /\ let '(sz, es) := value vals a in
      n = count es2 /\ sized sz es2 /\ readable st a data (if data =? 0 then 0 else sz * n) /\
      concat es2 = (if data =? 0 then replicate (Z.to_nat (sz * n)) 0 else bytes (vm st) data (sz * n)) /\ room_grow st (sz * (count es + n))
  | Resize a n => is_Some (vals !! a) /\ 0 <= n /\ room_grow st ((value vals a).1 * n)
  | Shrink a => is_Some (vals !! a) /\ (value vals a).2 <> [] /\ al_room (vh st) ((value vals a).1 * count (value vals a).2)
  | Reserve a cap => is_Some (vals !! a) /\ 0 <= (value vals a).1 * cap < 2 ^ 64 /\ al_room (vh st) ((value vals a).1 * cap)
  end.

(** C12. Vectors refine lists: from a store of vectors with elements, every
    constructor, destructor and member function runs and leaves a store with
    the elements it should - added at the back, cut, cleared, handed over by a
    move that leaves the old object empty, the same ones after the buffer is
    fitted or enlarged - and all other vectors as they were.  [Size] and the
    index operator then give the number of elements and each element. *)
Theorem vectors_refine_lists o st vals :
  vectors_ok st vals -> op_ok o st vals ->
  exists st' vals', run_op o st = Some st' /\ spec_op o vals vals' /\ vectors_ok st' vals' /\
    forall a sz es, vals' !! a = Some (sz, es) -> Vector_Size a st' = Some (count es) /\
      forall i e, es !! i = Some e -> exists p, Vector_at a (Z.of_nat i) st' = Some p /\ bytes (vm st') p sz = e.
Proof using Type.
  intros Hok Ho.
  enough (exists st' vals', run_op o st = Some st' /\ spec_op o vals vals' /\ vectors_ok st' vals') as (st' & vals' & Hr & Hs & Hok').
  { exists st', vals'. split; [done|]. split; [done|]. split; [done|]. intros a sz es Ha. by destruct (observe _ _ _ _ _ Hok' Ha) as (? & _ & ?). }
  destruct o; cbn [run_op spec_op op_ok] in *; unfold update, value in *.
  - destruct Ho as (? & ? & ?). eexists _, _. split; [done|]. split; [done|]. by apply create_ok.
  - destruct Ho as (Ha & [[sz' es] Hb] & -> & Hr). rewrite Hb in *. cbn [from_option id fst] in *. destruct (move_ok sz' a b st vals es) as (st' & -> & ?); eauto.
  - destruct (delete_ok a st vals Hok Ho) as (st' & -> & ?). eauto.
  - destruct Ho as ([[sz es] Ha] & Hp). rewrite Ha in *. cbn [from_option id fst snd] in *. destruct Hp as (? & ? & ? & ? & ?).
    destruct (vec_push_ok st vals a data sz es e) as (p & st' & -> & ? & _); [done..|]. cbn. eauto.
  - destruct Ho as ([[sz es'] Ha] & Hp). rewrite Ha in *. cbn [from_option id fst snd] in *. destruct Hp as (? & ? & ? & ? & ?).
    destruct (append_ok st vals a data n sz es' es) as (st' & -> & ?); [done..|]. eauto.
  - destruct Ho as ([[sz es] Ha] & ? & ?). rewrite Ha in *. cbn [from_option id fst snd] in *.
    destruct (resize_ok st vals a n sz es) as (st' & more & -> & ? & ?); [done..|]. eexists st', _. split; [done|]. split; [by exists more|done].
  - destruct Ho as [[sz es] Ha]. rewrite Ha. cbn [from_option id fst snd]. destruct (clear_ok st vals a sz es Hok Ha) as (st' & -> & ?). eauto.
  - destruct Ho as ([[sz es] Ha] & ? & ?). rewrite Ha in *. cbn [from_option id fst snd] in *.
    destruct (shrink_ok st vals a sz es) as (st' & -> & Hok'); [done..|]. rewrite insert_id in Hok' by done. eauto.
  - destruct Ho as ([[sz es] Ha] & ? & ?). rewrite Ha in *. cbn [from_option id fst snd] in *.
    destruct (reserve_ok st vals a cap sz es) as (st' & -> & Hok'); [done..|]. rewrite insert_id in Hok' by done. eauto.
Qed.
End CppVector.
Arguments vt : clear implicits.

(** Two vectors on the [bump] heap, and elements of three bytes at 100. *)
Definition demo_vt0 : vt bump := mk_vt (mk_bump 4096 ∅) (fun x => x mod 256) ∅ ∅.
Lemma demo_vt0_ok : vectors_ok demo_vt0 ∅.
Proof.
  split; cbn [demo_vt0 vh vm vecs vobjs]; [|by intros ? ? ?%lookup_empty_Some..|by intros ? ? ? ? ? ? ? ?%lookup_empty_Some].
  split; cbn; [done|by intros ? ? ?%lookup_empty_Some|by intros ? ? ? ? ?%lookup_empty_Some].
Qed.
Definition demo_vt : vt bump := Vector_default 3 16 demo_vt0.
Lemma demo_vt_ok : vectors_ok demo_vt (<[16 := (3, [])]> ∅).
Proof. apply create_ok; [apply demo_vt0_ok|done|split; by vm_compute|done]. Qed.
Lemma vectors_refine_lists_witness :
  exists st', run_op (Append 16 100 2 [[100; 101; 102]; [103; 104; 105]]) demo_vt = Some st' /\
    vectors_ok st' (<[16 := (3, [[100; 101; 102]; [103; 104; 105]])]> ∅).
Proof.
  destruct (vectors_refine_lists (Append 16 100 2 [[100; 101; 102]; [103; 104; 105]]) demo_vt (<[16 := (3, [])]> ∅) demo_vt_ok) as (st' & vals' & Hr & -> & Hok & _).
  - split; [by eexists|]. cbn [value default lookup]. split; [reflexivity|]. split; [repeat constructor|]. split; [|split; [by vm_compute|]].
    + split; [lia|]. intros v Hv x Hx. vm_compute in Hv. injection Hv as <-. cbn [v_data v_cap al_own bump_Allocator]. 
      change (b_next (vh demo_vt)) with 4131. cbn in Hx. lia.
    + split; [by vm_compute|]. intros k Hk. cbn [al_room bump_Allocator]. change (b_next (vh demo_vt)) with 4131. change (2 * (3 * (count [] + 2))) with 12 in Hk. change (2 ^ 64) with 18446744073709551616. lia.
  - exists st'. split; [exact Hr|exact Hok].
Defined.
