(* ===== verification/CppString.v ===== *)
(** * The C++ string class (src/cppruntime/string.hpp)

    runtime::String owns a heap block, or points at its own [end] member when
    it is empty.  The string objects are a store by address, so that arguments
    that are the same object alias; [end] is the byte at the object's address,
    and the characters are in the machine memory.  [new] and [delete] are
    [kMalloc] and [kFree] (src/memory/memory_cpp.cpp) of any [Allocator]. *)

From S2P Require Import Prelude Mem CString Alloc Unicode.

Section CppString.
Context {H : Type} `{Allocator H}.

(** An object is its [str] and [size]. *)
Record rt := mk_rt { rh : H; rm : mem; objs : gmap Z (Z * Z) }.
Definition set_mem (m : mem) (st : rt) : rt := mk_rt (rh st) m (objs st).
Definition put_obj (a str size : Z) (st : rt) : rt := mk_rt (rh st) (rm st) (<[a := (str, size)]> (objs st)).
Definition new_chars (n : Z) (st : rt) : Z * rt :=
  let '(p, h, m) := kMalloc (rh st) (rm st) (u64 n) in (p, mk_rt h m (objs st)).
Definition delete_chars (p : Z) (st : rt) : rt :=
  let '(h, m) := kFree (rh st) (rm st) p in mk_rt h m (objs st).
(** [end(0)] *)
Definition init_end (a : Z) (st : rt) : rt := set_mem (store8 (rm st) a 0) st.

Definition String_default (a : Z) (st : rt) : rt := put_obj a a 0 (init_end a st).
Definition String_cstr (fuel : nat) (a cstr : Z) (st : rt) : option rt :=
  let st := init_end a st in
  match strlen fuel (rm st) cstr with
  | Some size =>
      let '(str, st) := new_chars (size + 1) st in
      Some (put_obj a str size (set_mem (memcpy (rm st) str cstr (u64 (size + 1))) st))
  | None => None
  end.
Definition String_n (a cstr csize : Z) (st : rt) : rt :=
  let '(str, st) := new_chars (csize + 1) (init_end a st) in
  put_obj a str csize (set_mem (store8 (memcpy (rm st) str cstr csize) (str + csize) 0) st).
Definition String_copy (a b : Z) (st : rt) : option rt :=
  match objs st !! b with
  | Some (ostr, osize) =>
      let '(str, st) := new_chars (osize + 1) (init_end a st) in
      Some (put_obj a str osize (set_mem (memcpy (rm st) str ostr (u64 (osize + 1))) st))
  | None => None
  end.
(** [buf] is the local buffer. *)
Definition String_unicode (a buf unicode : Z) (st : rt) : rt :=
  let st := init_end a st in
  let '(size, m) := utf8_Encode (rm st) buf unicode in
  let '(str, st) := new_chars (size + 1) (set_mem m st) in
  put_obj a str size (set_mem (store8 (memcpy (rm st) str buf size) (str + size) 0) st).
Definition String_move (a b : Z) (st : rt) : option rt :=
  match objs st !! b with
  | Some (ostr, osize) => Some (put_obj b b 0 (put_obj a ostr osize (init_end a st)))
  | None => None
  end.
(** [if (str && str != &end) delete[] str] *)
Definition free_str (a : Z) (st : rt) : option rt :=
  match objs st !! a with
  | Some (str, _) => Some (if negb (str =? 0) && negb (str =? a) then delete_chars str st else st)
  | None => None
  end.
Definition String_delete (a : Z) (st : rt) : option rt :=
  match free_str a st with
  | Some st => Some (mk_rt (rh st) (rm st) (delete a (objs st)))
  | None => None
  end.

(** Copy assignment reads [other.str] after [str] is assigned. *)
Definition String_assign (a b : Z) (st : rt) : option rt :=
  match free_str a st, objs st !! b with
  | Some st, Some (_, size) =>
      let '(str, st) := new_chars (size + 1) st in
      let st := put_obj a str size st in
      match objs st !! b with
      | Some (ostr, _) => Some (set_mem (memcpy (rm st) str ostr (u64 (size + 1))) st)
      | None => None
      end
  | _, _ => None
  end.
Definition String_assign_move (a b : Z) (st : rt) : option rt :=
  match free_str a st, objs st !! b with
  | Some st, Some (ostr, osize) => Some (put_obj b b 0 (put_obj a ostr osize st))
  | _, _ => None
  end.
Definition String_swap (a b : Z) (st : rt) : option rt :=
  match objs st !! a, objs st !! b with
  | Some (x, i), Some (y, j) => Some (put_obj b x i (put_obj a y j st))
  | _, _ => None
  end.

Definition String_Length (a : Z) (st : rt) : option Z := snd <$> objs st !! a.
Definition String_C (a : Z) (st : rt) : option Z := fst <$> objs st !! a.
Definition String_at (a offset : Z) (st : rt) : option Z := (fun x => u64 (x + offset)) <$> String_C a st.
(** [strcmp] of a string with a C string; with another string it is its [C()]. *)
Definition String_cmp (fuel : nat) (a p : Z) (st : rt) : option Z :=
  match String_C a st with Some x => strcmp fuel (rm st) x p | None => None end.
Definition String_eq (fuel : nat) (a p : Z) (st : rt) : option bool := (fun c => c =? 0) <$> String_cmp fuel a p st.
Definition String_ne (fuel : nat) (a p : Z) (st : rt) : option bool := negb <$> String_eq fuel a p st.
Definition String_lt (fuel : nat) (a p : Z) (st : rt) : option bool := (fun c => c <? 0) <$> String_cmp fuel a p st.
Definition String_le (fuel : nat) (a p : Z) (st : rt) : option bool := (fun c => c <=? 0) <$> String_cmp fuel a p st.
Definition String_gt (fuel : nat) (a p : Z) (st : rt) : option bool := (fun c => 0 <? c) <$> String_cmp fuel a p st.
Definition String_ge (fuel : nat) (a p : Z) (st : rt) : option bool := (fun c => 0 <=? c) <$> String_cmp fuel a p st.

(** The result object is [dst]. *)
Definition String_Substring (dst a offset count : Z) (st : rt) : option rt :=
  match objs st !! a with
  | Some (x, _) =>
      let st := String_default dst st in
      let '(str, st) := new_chars (count + 1) st in
      let st := put_obj dst str count st in
      Some (set_mem (store8 (memcpy (rm st) str (u64 (x + offset)) count) (str + count) 0) st)
  | None => None
  end.

(** *** The iterator over codepoints *)

Record UnicodeIterator := mk_iter { parent : Z; it_i : Z; cur : Z; adv : Z }.
Definition Iterator_begin (a : Z) (st : rt) : option UnicodeIterator :=
  match objs st !! a with
  | Some (str, size) => let '(n, c) := utf8_Decode (rm st) str size in Some (mk_iter a 0 c n)
  | None => None
  end.
Definition Iterator_next (it : UnicodeIterator) (st : rt) : option UnicodeIterator :=
  match objs st !! parent it with
  | Some (str, size) =>
      let i := u64 (it_i it + adv it) in
      Some (if i <? size then let '(n, c) := utf8_Decode (rm st) (u64 (str + i)) (u64 (size - i)) in mk_iter (parent it) i c n
            else mk_iter (parent it) i (cur it) (adv it))
  | None => None
  end.
(** The postfix operator returns the iterator before the step. *)
Definition Iterator_post (it : UnicodeIterator) (st : rt) : option (UnicodeIterator * UnicodeIterator) :=
  it' ← Iterator_next it st; Some (it, it').
Definition Iterator_End (it : UnicodeIterator) (st : rt) : option bool :=
  match objs st !! parent it with Some (_, size) => Some (size <=? it_i it) | None => None end.
(** [for (UnicodeIterator i(str); !i.End(); i++) { uint32_t code = *i; }] *)
Fixpoint iterate (fuel : nat) (it : UnicodeIterator) (st : rt) : option (list Z) :=
  match fuel with
  | O => None
  | S fuel =>
      match Iterator_End it st with
      | Some true => Some []
      | Some false =>
          match Iterator_post it st with
          | Some (_, it') => rest ← iterate fuel it' st; Some (cur it :: rest)
          | None => None
          end
      | None => None
      end
  end.
Definition codepoints (fuel : nat) (a : Z) (st : rt) : option (list Z) :=
  it ← Iterator_begin a st; iterate fuel it st.
End CppString.
Arguments rt : clear implicits.
