(* ===== verification/CppStringProps.v ===== *)
(** * Properties of the C++ string class

    String objects refine values (byte lists): the invariant of a store of
    strings, that every operation keeps it and does to the values what it
    should, that comparison and iteration are those of the values, and where
    it breaks: moving from a string without characters. *)

From S2P Require Import Prelude Mem CString Alloc Unicode CppString.

(** ** The values of strings *)

Section Values.
Context {H : Type} `{Allocator H}.
Implicit Types (h : H) (m : mem) (st : rt H) (vals : gmap Z (list Z)).

(** The object at [a] has the value [s]. *)
Record str_ok h m (a str size : Z) (s : list Z) : Prop := {
  st_size : size = Z.of_nat (length s);
  st_chars : bytes m str (size + 1) = s ++ [0];
  st_end : load8 m a = 0 /\ ~ al_own h a;
  st_block : str = a /\ s = [] \/ str <> a /\ al_blocks h !! str = Some (size + 1);
}.
(** The objects of the store have the values [vals]; no two share a block, and
    none is inside a block. *)
Record strings_ok st vals : Prop := {
  so_al : al_ok (rh st);
  so_obj : forall a x n, objs st !! a = Some (x, n) -> exists s, vals !! a = Some s /\ str_ok (rh st) (rm st) a x n s;
  so_dom : forall a s, vals !! a = Some s -> exists x n, objs st !! a = Some (x, n);
  so_blocks : forall a b x y i j, a <> b -> objs st !! a = Some (x, i) -> objs st !! b = Some (y, j) -> x <> a -> x <> y;
  so_ends : forall a b v y j, objs st !! a = Some v -> objs st !! b = Some (y, j) -> y <> b -> ~ (y <= a < y + j + 1);
}.

Lemma str_ok_size h m a x n s : str_ok h m a x n s -> 0 <= n.
Proof. intros [-> _ _ _]. lia. Qed.
(** An object keeps its value when its characters and its [end] do. *)
Lemma str_ok_keep h m h' m' a x n s :
  str_ok h m a x n s ->
  (forall k, x <= k < x + n + 1 -> m' k = m k) -> m' a = m a -> ~ al_own h' a ->
  (x <> a -> al_blocks h' !! x = al_blocks h !! x) -> str_ok h' m' a x n s.
Proof.
  intros [Hs Hc [He Ho] Hb] Hm Ha Ho' Hb'. split; [done| | |].
  - rewrite <- Hc. apply bytes_ext. intros k Hk. apply Hm. lia.
  - split; [|done]. unfold load8 in *. by rewrite Ha.
  - destruct Hb as [Hb|[Hx Hb]]; [by left|right]. split; [done|]. by rewrite Hb'.
Qed.
(** The bytes of an object are not the allocator's. *)
Lemma str_ok_own h m a x n s k : al_ok h -> str_ok h m a x n s -> x <= k < x + n + 1 -> ~ al_own h k.
Proof.
  intros Hal Hok Hk. pose proof (str_ok_size _ _ _ _ _ _ Hok). destruct Hok as [Hs _ [_ Ho] [[-> ->]|[_ Hb]]].
  - cbn in Hs. by replace k with a by lia.
  - destruct (al_live h x (n + 1) Hal Hb) as (_ & _ & _ & Hl). apply Hl. lia.
Qed.

(** A place for a new object: outside the allocator's memory and the strings. *)
Record place st (a : Z) : Prop := {
  pl_own : ~ al_own (rh st) a;
  pl_new : objs st !! a = None;
  pl_out : forall b y j, objs st !! b = Some (y, j) -> y <> b -> ~ (y <= a < y + j + 1);
}.

Lemma init_end_ok st vals a : strings_ok st vals -> (forall b y j, objs st !! b = Some (y, j) -> y <> b -> ~ (y <= a < y + j + 1)) ->
  strings_ok (init_end a st) vals.
Proof.
  intros [Hal Ho Hd Hb He] Ha. split; cbn [init_end set_mem rh rm objs]; try done.
  intros b x n Hx. destruct (Ho _ _ _ Hx) as (s & Hs & Hok). exists s. split; [done|].
  assert (forall k, k <> a -> store8 (rm st) a 0 k = rm st k) as Hk by (intros; unfold store8; by rewrite upd_ne).
  destruct Hok as [H1 H2 [H3 H4] H5]. split; [done| | |done].
  - rewrite <- H2. destruct (decide (x = b)) as [->|Hne].
    + destruct H5 as [[_ ->]|[? _]]; [|done]. cbn in H1. subst n. change (0 + 1) with 1. rewrite !bytes_1.
      destruct (decide (a = b)) as [->|]; [by rewrite load8_store8_eq, H3|by rewrite load8_store8_ne].
    + apply bytes_ext. intros k Hk'. apply Hk. intros ->. by apply (Ha b x n Hx Hne); lia.
  - split; [|done]. destruct (decide (a = b)) as [->|]; [by rewrite load8_store8_eq|by rewrite load8_store8_ne].
Qed.

(** The common end of the operations that make a new string: a block [p] of
    [n + 1] bytes, filled with [s] and its terminator, becomes the characters
    of [a], whose old characters are no one's. *)
Lemma new_string_ok st vals a n p h m m' s :
  strings_ok st vals -> al_room (rh st) (n + 1) -> n = Z.of_nat (length s) -> n + 1 < 2 ^ 64 ->
  kMalloc (rh st) (rm st) (u64 (n + 1)) = (p, h, m) ->
  ~ al_own (rh st) a -> (forall b y j, objs st !! b = Some (y, j) -> y <> b -> b <> a -> ~ (y <= a < y + j + 1)) ->
  load8 (rm st) a = 0 -> (forall x i, objs st !! a = Some (x, i) -> x = a) ->
  bytes m' p (n + 1) = s ++ [0] -> same_outside p (n + 1) m m' ->
  strings_ok (put_obj a p n (mk_rt h m' (objs st))) (<[a := s]> vals).
Proof.
  intros Hok Hroom Hn H64 E Hown Hout He Ha Hb Hs. pose proof Hok as [Hal Ho Hd Hbl Hen].
  pose proof (kMalloc_law (rh st) (rm st) (n + 1) Hal Hroom ltac:(lia)) as Hl.
  rewrite u64_small in E by (change (2 ^ 64) with 18446744073709551616 in *; lia). rewrite E in Hl.
  destruct Hl as (Hal' & Hnew & Hblk & Hp & Hsub & Hm).
  assert (forall k, ~ al_own (rh st) k -> m' k = rm st k) as Hkeep.
  { intros k Hk. rewrite Hs by (intros Hx; apply Hk, Hp; lia). by apply Hm. }
  split; cbn [put_obj rh rm objs]; [done|..].
  - intros b x i Hx. destruct (decide (a = b)) as [<-|Hne].
    + rewrite lookup_insert_eq in Hx. injection Hx as <- <-. exists s. rewrite lookup_insert_eq. split; [done|].
      split; [done|done| |].
      * split; [|by intros ?%Hsub]. unfold load8. by rewrite Hkeep.
      * right. split; [|by rewrite Hblk, lookup_insert_eq]. intros ->. apply Hown, Hp. lia.
    + rewrite lookup_insert_ne in Hx by done. destruct (Ho _ _ _ Hx) as (t & Ht & Hst). exists t.
      rewrite lookup_insert_ne by done. split; [done|]. eapply str_ok_keep; [exact Hst|..].
      * intros k Hk. apply Hkeep. by eapply str_ok_own.
      * apply Hkeep. apply (st_end _ _ _ _ _ _ Hst).
      * intros ?%Hsub. by apply (st_end _ _ _ _ _ _ Hst).
      * intros Hxb. rewrite Hblk, lookup_insert_ne; [done|]. intros ->.
        destruct (st_block _ _ _ _ _ _ Hst) as [[? _]|[_ ?]]; [done|congruence].
  - intros b t Hbt. destruct (decide (a = b)) as [<-|Hne].
    + rewrite lookup_insert_eq. by eexists _, _.
    + rewrite lookup_insert_ne in Hbt by done. rewrite lookup_insert_ne by done. by eapply Hd.
  - intros b c x y i j Hne Hx Hy Hxb ->.
    assert (forall d i, d <> a -> objs st !! d = Some (p, i) -> p <> d -> False) as Hfresh.
    { intros d i' Hda Hd' Hpd. destruct (Ho _ _ _ Hd') as (t & _ & Hst).
      destruct (st_block _ _ _ _ _ _ Hst) as [[? _]|[_ ?]]; [done|congruence]. }
    destruct (decide (a = b)) as [<-|Hab]; destruct (decide (a = c)) as [<-|Hac]; [done|..].
    + rewrite lookup_insert_eq in Hx. injection Hx as <- <-. rewrite lookup_insert_ne in Hy by done.
      destruct (decide (p = c)) as [->|]; [|by eapply (Hfresh c)].
      destruct (Ho _ _ _ Hy) as (t & _ & Hst). apply (st_end _ _ _ _ _ _ Hst). apply Hp. lia.
    + rewrite lookup_insert_eq in Hy. injection Hy as <- <-. rewrite lookup_insert_ne in Hx by done. by eapply (Hfresh b).
    + rewrite lookup_insert_ne in Hx, Hy by done. by eapply (Hbl b c).
  - intros b c v y j Hv Hy Hyc Hin.
    assert (exists w, objs st !! b = Some w \/ b = a) as [w Hw].
    { destruct (decide (a = b)) as [<-|Hne]; [by exists v; right|rewrite lookup_insert_ne in Hv by done; exists v; by left]. }
    destruct (decide (a = c)) as [<-|Hac].
    + rewrite lookup_insert_eq in Hy. injection Hy as <- <-. destruct Hw as [Hw| ->]; [|by apply Hown, Hp; lia].
      destruct w as [x i]. destruct (Ho _ _ _ Hw) as (t & _ & Hst). apply (st_end _ _ _ _ _ _ Hst), Hp. lia.
    + rewrite lookup_insert_ne in Hy by done. destruct Hw as [Hw| ->]; [by eapply (Hen b c)|].
      by eapply (Hout c).
Qed.

(** A string without characters may be dropped from the store. *)
Lemma remove_ok st vals a : strings_ok st vals -> objs st !! a = Some (a, 0) ->
  strings_ok (mk_rt (rh st) (rm st) (delete a (objs st))) (delete a vals).
Proof.
  intros [Hal Ho Hd Hb He] Ha. split; cbn [rh rm objs]; [done|..].
  - intros b x n [Hne Hx]%lookup_delete_Some. rewrite lookup_delete_ne by done. by apply Ho.
  - intros b s [Hne Hx]%lookup_delete_Some. rewrite lookup_delete_ne by done. by eapply Hd.
  - intros b c x y i j Hne [_ Hx]%lookup_delete_Some [_ Hy]%lookup_delete_Some. by eapply Hb.
  - intros b c v y j [_ Hv]%lookup_delete_Some [_ Hy]%lookup_delete_Some. by eapply He.
Qed.
(** Pointing at its own [end]: the value is empty; the characters are no one's. *)
Lemma point_to_end_ok st vals a v : strings_ok st vals -> objs st !! a = Some v ->
  strings_ok (put_obj a a 0 st) (<[a := []]> vals).
Proof.
  intros [Hal Ho Hd Hb He] Ha. split; cbn [put_obj rh rm objs]; [done|..].
  - intros b x n Hx. destruct (decide (a = b)) as [<-|Hne].
    + rewrite lookup_insert_eq in Hx. injection Hx as <- <-. exists []. rewrite lookup_insert_eq. split; [done|].
      destruct v as [x n]. destruct (Ho _ _ _ Ha) as (s & _ & [_ _ [E Hown] _]). split; [done| |done|by left].
      change (0 + 1) with 1. by rewrite bytes_1, E.
    + rewrite lookup_insert_ne in Hx by done. rewrite lookup_insert_ne by done. by apply Ho.
  - intros b s Hs. destruct (decide (a = b)) as [<-|Hne]; [rewrite lookup_insert_eq; by eexists _, _|].
    rewrite lookup_insert_ne in Hs by done. rewrite lookup_insert_ne by done. by eapply Hd.
  - intros b c x y i j Hne Hx Hy Hxb ->. destruct (decide (a = b)) as [<-|Hab].
    { rewrite lookup_insert_eq in Hx. by injection Hx as <- <-. }
    rewrite lookup_insert_ne in Hx by done. destruct (decide (a = c)) as [<-|Hac].
    + rewrite lookup_insert_eq in Hy. injection Hy as <- <-. eapply (He a b v a i); [done..|].
      destruct (Ho _ _ _ Hx) as (t & _ & Hst). apply str_ok_size in Hst. lia.
    + rewrite lookup_insert_ne in Hy by done. by eapply (Hb b c).
  - intros b c w y j Hv Hy Hyc. destruct (decide (a = c)) as [<-|Hac].
    { rewrite lookup_insert_eq in Hy. by injection Hy as <- <-. }
    rewrite lookup_insert_ne in Hy by done. destruct (decide (a = b)) as [<-|Hab]; [by eapply (He a c)|].
    rewrite lookup_insert_ne in Hv by done. by eapply (He b c).
Qed.
(** A change of heap and memory that keeps the strings. *)
Lemma keep_ok st vals h' m' :
  strings_ok st vals -> al_ok h' ->
  (forall b x n k, objs st !! b = Some (x, n) -> x <= k < x + n + 1 \/ k = b -> m' k = rm st k) ->
  (forall b v, objs st !! b = Some v -> ~ al_own h' b) ->
  (forall b x n, objs st !! b = Some (x, n) -> x <> b -> al_blocks h' !! x = al_blocks (rh st) !! x) ->
  strings_ok (mk_rt h' m' (objs st)) vals.
Proof.
  intros [Hal Ho Hd Hb He] Hal' Hm Hown Hblk. split; cbn [rh rm objs]; try done.
  intros a x n Hx. destruct (Ho _ _ _ Hx) as (s & Hs & Hst). exists s. split; [done|].
  eapply str_ok_keep; [exact Hst|intros k Hk; eapply Hm; [done|by left]|eapply Hm; [done|by right]|by eapply Hown|by eapply Hblk].
Qed.
(** Freeing the characters leaves an object to be pointed elsewhere. *)
Lemma free_str_ok st vals a v : strings_ok st vals -> objs st !! a = Some v ->
  exists st', free_str a st = Some st' /\ objs st' = objs st /\ strings_ok (put_obj a a 0 st') (<[a := []]> vals) /\
    (forall b y j k, objs st !! b = Some (y, j) -> b <> a -> y <= k < y + j + 1 -> rm st' k = rm st k).
Proof.
  intros Hok Ha. pose proof Hok as [Hal Ho Hd Hb He]. unfold free_str. rewrite Ha. destruct v as [x n].
  destruct (Ho _ _ _ Ha) as (s & Hs & Hst).
  pose proof (str_ok_size _ _ _ _ _ _ Hst) as Hn0. destruct (st_block _ _ _ _ _ _ Hst) as [[-> ->]|[Hxa Hblk]].
  { rewrite Z.eqb_refl, andb_false_r. eexists. split_and!; [done|done|by eapply point_to_end_ok|done]. }
  destruct (al_live _ _ _ Hal Hblk) as (Hpos & _ & _ & Hlive).
  rewrite (proj2 (Z.eqb_neq x 0)), (proj2 (Z.eqb_neq x a)) by lia. cbn [negb andb]. unfold delete_chars.
  pose proof (kFree_law (rh st) (rm st) x (n + 1) Hal Hblk) as Hl.
  destruct (kFree (rh st) (rm st) x) as [h' m'] eqn:E. destruct Hl as (Hal' & Hblk' & Hsub & Hm).
  assert (forall b w, objs st !! b = Some w -> ~ al_own (rh st) b /\ ~ (x <= b < x + (n + 1))) as Hkend.
  { intros b [y j] Hy. destruct (Ho _ _ _ Hy) as (t & _ & Hty). split; [apply (st_end _ _ _ _ _ _ Hty)|].
    intros Hin. eapply (He b a); eauto; lia. }
  assert (forall b y j k, objs st !! b = Some (y, j) -> b <> a -> y <= k < y + j + 1 -> ~ al_own (rh st) k /\ ~ (x <= k < x + (n + 1))) as Hkeep.
  { intros b y j k Hy Hba Hk. destruct (Ho _ _ _ Hy) as (t & _ & Hty). split; [by eapply str_ok_own|].
    destruct (st_block _ _ _ _ _ _ Hty) as [[Hyb ->]|[Hyb Hblky]].
    - pose proof (st_size _ _ _ _ _ _ Hty) as Hj. cbn in Hj. subst j y. replace k with b by lia. apply (Hkend b _ Hy).
    - assert (x <> y) as Hxy by (eapply (Hb a b); eauto). pose proof (al_apart _ _ _ _ _ Hal Hblk Hblky Hxy) as Hap. unfold apart in Hap. lia. }
  eexists. split; [done|]. cbn [objs rm]. split_and!; [done| |].
  - apply (keep_ok (put_obj a a 0 st)); [by eapply point_to_end_ok|done|..]; cbn [put_obj objs rm rh].
    + intros b y j k Hy Hk. destruct (decide (a = b)) as [<-|Hne].
      * rewrite lookup_insert_eq in Hy. injection Hy as <- <-. assert (k = a) as -> by lia. apply Hm; apply (Hkend a _ Ha).
      * rewrite lookup_insert_ne in Hy by done. destruct Hk as [Hk| ->]; apply Hm; first [by eapply (Hkeep b y j)|by eapply (Hkend b)].
    + intros b w Hw. assert (exists u, objs st !! b = Some u) as [u Hu].
      { destruct (decide (a = b)) as [<-|Hne]; [by eexists|rewrite lookup_insert_ne in Hw by done; by eexists]. }
      destruct (Hkend b u Hu) as [? Hout]. intros [?|?]%Hsub; [done|]. apply Hout. lia.
    + intros b y j Hy Hyb. destruct (decide (a = b)) as [<-|Hne].
      * rewrite lookup_insert_eq in Hy. by injection Hy as <- <-.
      * rewrite lookup_insert_ne in Hy by done. rewrite Hblk', lookup_delete_ne; [done|]. by eapply (Hb a b).
  - intros b y j k Hy Hba Hk. by apply Hm; apply (Hkeep b y j).
Qed.
End Values.

Section Operations.
Context {H : Type} `{Allocator H}.
Implicit Types (h : H) (m : mem) (st : rt H) (vals : gmap Z (list Z)).

Lemma default_ok st vals a : strings_ok st vals -> place st a -> strings_ok (String_default a st) (<[a := []]> vals).
Proof.
  intros Hok [Hown Hnew Hout]. pose proof (init_end_ok st vals a Hok Hout) as [Hal Ho Hd Hb He].
  assert (vals !! a = None) as Hva.
  { destruct (vals !! a) as [s|] eqn:E; [|done]. destruct (so_dom _ _ Hok _ _ E) as (x & n & Hx). congruence. }
  unfold String_default. split; cbn [put_obj init_end set_mem rh rm objs] in *; [done|..].
  - intros b x n Hx. destruct (decide (a = b)) as [<-|Hne].
    + rewrite lookup_insert_eq in Hx. injection Hx as <- <-. exists []. rewrite lookup_insert_eq. split; [done|].
      split; [done| | |by left]; [change (0 + 1) with 1; by rewrite bytes_1, load8_store8_eq|by rewrite load8_store8_eq].
    + rewrite lookup_insert_ne in Hx by done. rewrite lookup_insert_ne by done. by apply Ho.
  - intros b s Hs. destruct (decide (a = b)) as [<-|Hne]; [rewrite lookup_insert_eq; by eexists _, _|].
    rewrite lookup_insert_ne in Hs by done. rewrite lookup_insert_ne by done. by eapply Hd.
  - intros b c x y i j Hne Hx Hy Hxb ->. destruct (decide (a = b)) as [<-|Hab].
    { rewrite lookup_insert_eq in Hx. by injection Hx as <- <-. }
    rewrite lookup_insert_ne in Hx by done. destruct (decide (a = c)) as [<-|Hac].
    + rewrite lookup_insert_eq in Hy. injection Hy as <- <-. eapply (Hout b a i); [done..|].
      destruct (Ho _ _ _ Hx) as (t & _ & Hst). apply str_ok_size in Hst. lia.
    + rewrite lookup_insert_ne in Hy by done. by eapply (Hb b c).
  - intros b c w y j Hv Hy Hyc. destruct (decide (a = c)) as [<-|Hac].
    { rewrite lookup_insert_eq in Hy. by injection Hy as <- <-. }
    rewrite lookup_insert_ne in Hy by done. destruct (decide (a = b)) as [<-|Hab]; [by eapply (Hout c)|].
    rewrite lookup_insert_ne in Hv by done. by eapply (He b c).
Qed.
Lemma put_put a x n y k st : put_obj a x n (put_obj a y k st) = put_obj a x n st.
Proof. unfold put_obj. cbn [rh rm objs]. by rewrite insert_insert_eq. Qed.

(** A new block holding [s] for an object without characters. *)
Lemma renew_ok st vals a n p h m m' s :
  strings_ok (put_obj a a 0 st) vals -> al_room (rh st) (n + 1) -> n = Z.of_nat (length s) -> n + 1 < 2 ^ 64 ->
  kMalloc (rh st) (rm st) (u64 (n + 1)) = (p, h, m) ->
  bytes m' p (n + 1) = s ++ [0] -> same_outside p (n + 1) m m' ->
  strings_ok (put_obj a p n (mk_rt h m' (objs st))) (<[a := s]> vals).
Proof.
  intros Hok Hroom Hn H64 Ek Hb Hs. rewrite <- (put_put a p n a 0).
  destruct (so_obj _ _ Hok a a 0 (lookup_insert_eq _ _ _)) as (t & _ & Hst).
  apply (new_string_ok (put_obj a a 0 st) vals a n p h m m' s); [done..| | | | |done|done].
  - apply Hst.
  - intros b y j Hy Hyb _. by eapply (so_ends _ _ Hok a b); [apply lookup_insert_eq|..].
  - apply Hst.
  - intros x i Hx. cbn [put_obj objs] in Hx. rewrite lookup_insert_eq in Hx. by injection Hx as <- _.
Qed.
(** A constructor: the object is new. *)
Lemma construct_ok st vals a n p h m m' s :
  strings_ok st vals -> place st a -> al_room (rh st) (n + 1) -> n = Z.of_nat (length s) -> n + 1 < 2 ^ 64 ->
  kMalloc (rh (init_end a st)) (rm (init_end a st)) (u64 (n + 1)) = (p, h, m) ->
  bytes m' p (n + 1) = s ++ [0] -> same_outside p (n + 1) m m' ->
  strings_ok (put_obj a p n (mk_rt h m' (objs st))) (<[a := s]> vals).
Proof.
  intros Hok Hpl Hroom Hn H64 E Hb Hs. pose proof (renew_ok (init_end a st) _ a n p h m m' s (default_ok st vals a Hok Hpl) Hroom Hn H64 E Hb Hs) as Hr.
  by rewrite insert_insert_eq in Hr.
Qed.

(** What the allocator does not own is kept by an allocation. *)
Lemma new_chars_keeps n st : al_ok (rh st) -> al_room (rh st) n -> 0 <= n < 2 ^ 64 ->
  exists p h m, new_chars n st = (p, mk_rt h m (objs st)) /\ (forall k, ~ al_own (rh st) k -> m k = rm st k) /\
    kMalloc (rh st) (rm st) (u64 n) = (p, h, m) /\ (forall k, p <= k < p + n -> al_own (rh st) k).
Proof.
  intros Hal Hr Hn. unfold new_chars. pose proof (kMalloc_law (rh st) (rm st) n Hal Hr ltac:(lia)) as Hl.
  rewrite u64_small by done. destruct (kMalloc (rh st) (rm st) n) as [[p h] m]. destruct Hl as (_ & _ & _ & Hp & _ & Hm). by exists p, h, m.
Qed.
(** [size] bytes and a terminator are copied. *)
Lemma copy_terminated m p q n s :
  n = Z.of_nat (length s) -> bytes m q n = s ->
  bytes (store8 (memcpy m p q n) (p + n) 0) p (n + 1) = s ++ [0] /\ same_outside p (n + 1) m (store8 (memcpy m p q n) (p + n) 0).
Proof.
  intros -> Hs. split.
  - rewrite bytes_app by lia. rewrite bytes_1, load8_store8_eq. f_equal. transitivity (bytes (memcpy m p q (Z.of_nat (length s))) p (Z.of_nat (length s))).
    + apply bytes_ext. intros k Hk. unfold store8. by rewrite upd_ne by lia.
    + by rewrite bytes_memcpy by lia.
  - eapply same_outside_trans; [|apply same_outside_store8; lia].
    apply (same_outside_weaken p (Z.of_nat (length s)) p (Z.of_nat (length s) + 1)); [lia|lia|apply memcpy_out].
Qed.
Lemma copy_whole m p q n s :
  n = Z.of_nat (length s) -> bytes m q (n + 1) = s ++ [0] ->
  bytes (memcpy m p q (n + 1)) p (n + 1) = s ++ [0] /\ same_outside p (n + 1) m (memcpy m p q (n + 1)).
Proof. intros -> Hs. split; [by rewrite bytes_memcpy by lia|apply memcpy_out]. Qed.
(** Bytes outside the allocator's memory, for the object [a] to be built. *)
Lemma source_kept st a q n m :
  (forall k, ~ al_own (rh st) k -> m k = rm (init_end a st) k) -> (forall k, q <= k < q + n -> ~ al_own (rh st) k /\ k <> a) ->
  bytes m q n = bytes (rm st) q n.
Proof.
  intros Hm Hq. apply bytes_ext. intros k Hk. rewrite Hm by (by apply Hq). cbn [init_end set_mem rm]. unfold store8. by rewrite upd_ne by (by apply Hq).
Qed.

(** Memory to read from: not the allocator's, not the new object. *)
Definition readable st (a q n : Z) : Prop := forall k, q <= k < q + n -> ~ al_own (rh st) k /\ k <> a.
Definition fits st (n : Z) : Prop := 0 <= n /\ n + 1 < 2 ^ 64 /\ al_room (rh st) (n + 1).

Lemma String_n_ok st vals a p s :
  strings_ok st vals -> place st a -> fits st (Z.of_nat (length s)) -> readable st a p (Z.of_nat (length s)) ->
  bytes (rm st) p (Z.of_nat (length s)) = s -> strings_ok (String_n a p (Z.of_nat (length s)) st) (<[a := s]> vals).
Proof.
  intros Hok Hpl (Hn0 & H64 & Hroom) Hr Hs. unfold String_n.
  destruct (new_chars_keeps (Z.of_nat (length s) + 1) (init_end a st)) as (q & h & m & E & Hm & Ek & _); [apply Hok|done|lia|].
  rewrite E. destruct (copy_terminated m q p (Z.of_nat (length s)) s) as [Hb Ho]; [done|by rewrite (source_kept st a)|].
  by apply (construct_ok st vals a (Z.of_nat (length s)) q h m).
Qed.
Lemma String_cstr_ok st vals a p s fuel :
  strings_ok st vals -> place st a -> fits st (Z.of_nat (length s)) -> readable st a p (Z.of_nat (length s) + 1) ->
  cstr (rm st) p s -> (length s < fuel)%nat ->
  exists st', String_cstr fuel a p st = Some st' /\ strings_ok st' (<[a := s]> vals).
Proof.
  intros Hok Hpl (Hn0 & H64 & Hroom) Hr Hs Hf. unfold String_cstr. pose proof (proj1 (cstr_bytes _ _ _) Hs) as [Hsb Hnz].
  assert (bytes (rm (init_end a st)) p (Z.of_nat (length s) + 1) = s ++ [0]) as Hs1.
  { by rewrite (source_kept st a) by done. }
  unfold strlen. rewrite (strlen_loop_spec _ s) by (done || by apply cstr_bytes). rewrite Z.add_0_l.
  destruct (new_chars_keeps (Z.of_nat (length s) + 1) (init_end a st)) as (q & h & m & E & Hm & Ek & _); [apply Hok|done|lia|].
  rewrite E. eexists. split; [done|]. rewrite u64_small by lia.
  destruct (copy_whole m q p (Z.of_nat (length s)) s) as [Hb Ho]; [done|by rewrite (source_kept st a)|].
  by apply (construct_ok st vals a (Z.of_nat (length s)) q h m).
Qed.
(** The characters of another object can be read. *)
Lemma object_readable st vals a b x n : strings_ok st vals -> objs st !! b = Some (x, n) -> place st a ->
  readable st a x (n + 1).
Proof.
  intros Hok Hb [_ Hnew Hout] k Hk. destruct (so_obj _ _ Hok _ _ _ Hb) as (s & _ & Hst).
  split; [eapply str_ok_own; [apply Hok|done|lia]|]. intros ->. destruct (decide (x = b)) as [->|Hne]; [|by eapply Hout; [done..|lia]].
  destruct (st_block _ _ _ _ _ _ Hst) as [[_ ->]|[? _]]; [|done]. pose proof (st_size _ _ _ _ _ _ Hst) as Hn. cbn in Hn.
  assert (a = b) by lia. congruence.
Qed.
Lemma String_copy_ok st vals a b s :
  strings_ok st vals -> place st a -> vals !! b = Some s -> fits st (Z.of_nat (length s)) ->
  exists st', String_copy a b st = Some st' /\ strings_ok st' (<[a := s]> vals).
Proof.
  intros Hok Hpl Hb (Hn0 & H64 & Hroom). destruct (so_dom _ _ Hok _ _ Hb) as (x & n & Hx).
  destruct (so_obj _ _ Hok _ _ _ Hx) as (s' & Hs' & Hst). assert (s' = s) as -> by congruence.
  unfold String_copy. rewrite Hx. pose proof (st_size _ _ _ _ _ _ Hst) as ->.
  pose proof (object_readable st vals a b x _ Hok Hx Hpl) as Hr.
  destruct (new_chars_keeps (Z.of_nat (length s) + 1) (init_end a st)) as (q & h & m & E & Hm & Ek & _); [apply Hok|done|lia|].
  rewrite E. eexists. split; [done|]. rewrite u64_small by lia.
  destruct (copy_whole m q x (Z.of_nat (length s)) s) as [Hb' Ho]; [done|rewrite (source_kept st a); [apply Hst|done|done]|].
  by apply (construct_ok st vals a (Z.of_nat (length s)) q h m).
Qed.
Lemma String_delete_ok st vals a s : strings_ok st vals -> vals !! a = Some s ->
  exists st', String_delete a st = Some st' /\ strings_ok st' (delete a vals).
Proof.
  intros Hok Ha. destruct (so_dom _ _ Hok _ _ Ha) as (x & n & Hx). destruct (free_str_ok st vals a _ Hok Hx) as (st' & E & Ho & Hok' & _).
  unfold String_delete. rewrite E. eexists. split; [done|].
  pose proof (remove_ok _ _ a Hok' (lookup_insert_eq _ _ _)) as Hrm. cbn [put_obj rh rm objs] in Hrm.
  by rewrite !delete_insert_eq in Hrm.
Qed.
(** The block of one object is handed to another. *)
Lemma steal_ok st vals a b x n s v :
  strings_ok st vals -> a <> b -> objs st !! a = Some (a, v) -> objs st !! b = Some (x, n) -> vals !! b = Some s -> x <> b ->
  strings_ok (put_obj b b 0 (put_obj a x n st)) (<[b := []]> (<[a := s]> vals)).
Proof.
  intros Hok Hne Ha Hb Hs Hxb. pose proof Hok as [Hal Ho Hd Hbl He].
  destruct (Ho _ _ _ Hb) as (s' & Hs' & Hst). assert (s' = s) as -> by congruence. pose proof (str_ok_size _ _ _ _ _ _ Hst) as Hn.
  destruct (Ho _ _ _ Ha) as (t & Ht & Hat).
  assert (x <> a) as Hxa by (intros ->; eapply (He a b); [done..|lia]).
  set (o := <[b := (b, 0)]> (<[a := (x, n)]> (objs st))).
  assert (forall c w, o !! c = Some w -> c = b /\ w = (b, 0) \/ c = a /\ w = (x, n) \/ c <> a /\ c <> b /\ objs st !! c = Some w) as Hcase.
  { intros c w. unfold o. destruct (decide (b = c)) as [<-|]; [rewrite lookup_insert_eq; intros [= <-]; by left|].
    rewrite lookup_insert_ne by done. destruct (decide (a = c)) as [<-|]; [rewrite lookup_insert_eq; intros [= <-]; right; by left|].
    rewrite lookup_insert_ne by done. intros Hw. right. right. by split_and!. }
  assert (forall c w, o !! c = Some w -> exists u, objs st !! c = Some u) as Hold.
  { intros c w [[-> _]|[[-> _]|(_ & _ & ?)]]%Hcase; by eexists. }
  split; cbn [put_obj rh rm objs]; fold o; [done|..].
  - intros c y j [[-> [= -> ->]]|[[-> [= -> ->]]|(Hca & Hcb & Hc)]]%Hcase.
    + exists []. rewrite lookup_insert_eq. split; [done|]. split; [done| |apply Hst|by left].
      change (0 + 1) with 1. rewrite bytes_1. by rewrite (proj1 (st_end _ _ _ _ _ _ Hst)).
    + exists s. rewrite lookup_insert_ne, lookup_insert_eq by done. split; [done|]. destruct Hst as [H1 H2 H3 H4].
      split; [done|done|apply Hat|right]. split; [done|]. destruct H4 as [[? _]|[_ ?]]; done.
    + rewrite !lookup_insert_ne by done. by apply Ho.
  - intros c u Hc. unfold o. destruct (decide (b = c)) as [<-|]; [rewrite lookup_insert_eq; by eexists _, _|].
    rewrite lookup_insert_ne in Hc by done. rewrite lookup_insert_ne by done.
    destruct (decide (a = c)) as [<-|]; [rewrite lookup_insert_eq; by eexists _, _|].
    rewrite lookup_insert_ne in Hc by done. rewrite lookup_insert_ne by done. by eapply Hd.
  - intros c d y z i j Hcd [[-> [= -> ->]]|[[-> [= -> ->]]|(Hca & Hcb & Hc)]]%Hcase
      [[-> [= -> ->]]|[[-> [= -> ->]]|(Hda & Hdb & Hdd)]]%Hcase Hy; try done.
    + by eapply (Hbl b d).
    + intros ->. destruct (Ho _ _ _ Hc) as (u & _ & Hu). apply str_ok_size in Hu. eapply (He b c); [done..|lia].
    + by eapply (Hbl c b).
    + by eapply (Hbl c d).
  - intros c d w z j [u Hu]%Hold [[-> [= -> ->]]|[[-> [= -> ->]]|(Hda & Hdb & Hdd)]]%Hcase Hz; [done|by eapply (He c b)|by eapply (He c d)].
Qed.

Lemma String_move_ok st vals a b s :
  strings_ok st vals -> place st a -> vals !! b = Some s -> (forall x n, objs st !! b = Some (x, n) -> x <> b) ->
  exists st', String_move a b st = Some st' /\ strings_ok st' (<[b := []]> (<[a := s]> vals)).
Proof.
  intros Hok Hpl Hb Hheap. pose proof (pl_new _ _ Hpl) as Hnew. destruct (so_dom _ _ Hok _ _ Hb) as (x & n & Hx). unfold String_move. rewrite Hx.
  eexists. split; [done|]. assert (a <> b) as Hne by congruence.
  pose proof (steal_ok (String_default a st) (<[a := []]> vals) a b x n s 0 (default_ok _ _ _ Hok Hpl) Hne) as Hs.
  rewrite insert_insert_eq in Hs. unfold String_default in Hs at 3. rewrite put_put in Hs. apply Hs.
  - apply lookup_insert_eq.
  - unfold String_default. cbn [put_obj objs init_end set_mem]. by rewrite lookup_insert_ne.
  - by rewrite lookup_insert_ne.
  - by eapply Hheap.
Qed.
Lemma String_assign_move_ok st vals a b s t :
  strings_ok st vals -> a <> b -> vals !! a = Some t -> vals !! b = Some s -> (forall x n, objs st !! b = Some (x, n) -> x <> b) ->
  exists st', String_assign_move a b st = Some st' /\ strings_ok st' (<[b := []]> (<[a := s]> vals)).
Proof.
  intros Hok Hne Ha Hb Hheap. destruct (so_dom _ _ Hok _ _ Hb) as (x & n & Hx). destruct (so_dom _ _ Hok _ _ Ha) as (y & k & Hy).
  destruct (free_str_ok st vals a _ Hok Hy) as (st' & E & Ho & Hok' & _). unfold String_assign_move. rewrite E, Hx.
  eexists. split; [done|]. pose proof (steal_ok _ _ a b x n s 0 Hok' Hne) as Hs. rewrite insert_insert_eq, put_put in Hs. apply Hs.
  - apply lookup_insert_eq.
  - cbn [put_obj objs]. rewrite lookup_insert_ne, Ho by done. done.
  - by rewrite lookup_insert_ne.
  - by eapply Hheap.
Qed.
(** Exchanging two strings with characters on the heap. *)
Definition other (a b c : Z) : Z := if decide (c = a) then b else if decide (c = b) then a else c.
Lemma swap_lookup {A} (M : gmap Z A) a b x y c : M !! a = Some x -> M !! b = Some y ->
  (<[b := x]> (<[a := y]> M)) !! c = M !! other a b c.
Proof.
  intros Ha Hb. unfold other. destruct (decide (c = a)) as [->|Hca].
  - destruct (decide (a = b)) as [->|]; [rewrite lookup_insert_eq; congruence|]. by rewrite lookup_insert_ne, lookup_insert_eq.
  - destruct (decide (c = b)) as [->|]; [by rewrite lookup_insert_eq|]. by rewrite !lookup_insert_ne.
Qed.
Lemma String_swap_ok st vals a b s t :
  strings_ok st vals -> vals !! a = Some s -> vals !! b = Some t ->
  (forall x n, objs st !! a = Some (x, n) -> x <> a) -> (forall x n, objs st !! b = Some (x, n) -> x <> b) ->
  exists st', String_swap a b st = Some st' /\ strings_ok st' (<[b := s]> (<[a := t]> vals)).
Proof.
  intros Hok Ha Hb Hha Hhb. destruct (so_dom _ _ Hok _ _ Ha) as (x & n & Hx). destruct (so_dom _ _ Hok _ _ Hb) as (y & k & Hy).
  unfold String_swap. rewrite Hx, Hy. eexists. split; [done|].
  pose proof (fun c => swap_lookup (objs st) a b _ _ c Hx Hy) as Hobj. pose proof (fun c => swap_lookup vals a b _ _ c Ha Hb) as Hval.
  assert (forall c d, other a b c = other a b d -> c = d) as Hinj by (intros c d; unfold other; repeat case_decide; congruence).
  assert (forall c v, objs st !! other a b c = Some v -> exists w, objs st !! c = Some w) as Hdom.
  { intros c v. unfold other. repeat case_decide; subst; eauto. }
  assert (forall c z i, objs st !! other a b c = Some (z, i) -> other a b c <> c -> z <> other a b c /\ z <> c) as Hheap.
  { intros c z i Hz Hne. assert (z <> other a b c) as Hzo.
    { unfold other in *. repeat case_decide; subst; eauto. }
    split; [done|]. destruct (Hdom _ _ Hz) as [w Hw]. destruct (so_obj _ _ Hok _ _ _ Hz) as (u & _ & Hu). pose proof (str_ok_size _ _ _ _ _ _ Hu).
    intros ->. apply (so_ends _ _ Hok c (other a b c) w c i Hw Hz); [done|lia]. }
  destruct Hok as [Hal Ho Hd Hbl Hen]. split; cbn [put_obj rh rm objs]; [done|..].
  - intros c z i. rewrite Hobj, Hval. intros Hz. destruct (Ho _ _ _ Hz) as (u & Hu & Hst). exists u. split; [done|].
    destruct (decide (other a b c = c)) as [E|Hne]; [by rewrite E in Hst|]. destruct (Hheap _ _ _ Hz Hne) as [H1 H2].
    destruct (Hdom _ _ Hz) as [[z' i'] Hw]. destruct (Ho _ _ _ Hw) as (u' & _ & Hst'). destruct Hst as [E1 E2 _ E4]. split; [done|done|apply Hst'|].
    right. destruct E4 as [[? _]|[_ ?]]; done.
  - intros c u. rewrite Hval, Hobj. apply Hd.
  - intros c d z w i j Hne. rewrite !Hobj. intros Hz Hw Hzc. apply (Hbl (other a b c) (other a b d) z w i j); [intros E; by apply Hne, Hinj|done|done|].
    destruct (decide (other a b c = c)) as [E|Hn]; [by rewrite E|]. by apply (Hheap c z i).
  - intros c d v z j. rewrite !Hobj. intros Hc Hz Hzd. destruct (Hdom _ _ Hc) as [w Hw]. apply (Hen c (other a b d) w z j Hw Hz).
    destruct (decide (other a b d = d)) as [E|Hn]; [by rewrite E|]. by apply (Hheap d z j).
Qed.
Lemma String_assign_ok st vals a b s t :
  strings_ok st vals -> a <> b -> vals !! a = Some t -> vals !! b = Some s ->
  (forall st', free_str a st = Some st' -> fits st' (Z.of_nat (length s))) ->
  exists st', String_assign a b st = Some st' /\ strings_ok st' (<[a := s]> vals).
Proof.
  intros Hok Hne Ha Hb Hfit. destruct (so_dom _ _ Hok _ _ Hb) as (x & n & Hx). destruct (so_dom _ _ Hok _ _ Ha) as (y & k & Hy).
  destruct (free_str_ok st vals a _ Hok Hy) as (st' & E & Ho & Hok' & Hkeep). destruct (Hfit st' E) as (Hn0 & H64 & Hroom).
  unfold String_assign. rewrite E, Hx.
  assert (objs (put_obj a a 0 st') !! b = Some (x, n)) as Hxb by (cbn [put_obj objs]; rewrite lookup_insert_ne, Ho by done; done).
  destruct (so_obj _ _ Hok' _ _ _ Hxb) as (s' & Hs' & Hst). rewrite lookup_insert_ne in Hs' by done. assert (s' = s) as -> by congruence.
  pose proof (st_size _ _ _ _ _ _ Hst) as ->.
  destruct (new_chars_keeps (Z.of_nat (length s) + 1) st') as (q & h & m & Eq & Hm & Ek & Hq); [apply Hok'|done|lia|].
  rewrite Eq. cbn [put_obj objs rm set_mem rh]. rewrite lookup_insert_ne, Ho, Hx by done. eexists. split; [done|].
  cbn [put_obj objs rm set_mem rh]. rewrite u64_small by lia.
  destruct (copy_whole m q x (Z.of_nat (length s)) s) as [Hb' Ho']; [done| |].
  { rewrite <- (st_chars _ _ _ _ _ _ Hst). apply bytes_ext. intros i Hi. apply Hm. eapply str_ok_own; [apply Hok'|exact Hst|lia]. }
  pose proof (renew_ok st' _ a (Z.of_nat (length s)) q h m _ s Hok' Hroom eq_refl H64 Ek Hb' Ho') as Hn.
  rewrite insert_insert_eq, Ho in Hn. exact Hn.
Qed.
Lemma object_range st vals a x n : strings_ok st vals -> objs st !! a = Some (x, n) ->
  x <> a -> 0 <= x /\ x + n + 1 < 2 ^ 64.
Proof.
  intros Hok Hx Hxa. destruct (so_obj _ _ Hok _ _ _ Hx) as (s & _ & Hst).
  destruct (st_block _ _ _ _ _ _ Hst) as [[? _]|[_ Hb]]; [done|]. destruct (al_live _ _ _ (so_al _ _ Hok) Hb) as (? & ? & ? & _). lia.
Qed.
Lemma sub_bytes m a n s off k : bytes m a n = s -> 0 <= off -> 0 <= k -> off + k <= n ->
  bytes m (a + off) k = take (Z.to_nat k) (drop (Z.to_nat off) s).
Proof.
  intros <- Ho Hk Hn. replace n with (off + (k + (n - off - k))) by lia. rewrite !bytes_app by lia.
  rewrite drop_app_length' by (rewrite length_bytes; done). by rewrite take_app_length' by (rewrite length_bytes; done).
Qed.
Lemma String_Substring_ok st vals dst a off n s :
  strings_ok st vals -> place st dst -> vals !! a = Some s -> 0 <= off -> 0 <= n -> off + n <= Z.of_nat (length s) -> fits st n ->
  (0 <= a < 2 ^ 64) ->
  exists st', String_Substring dst a off n st = Some st' /\ strings_ok st' (<[dst := take (Z.to_nat n) (drop (Z.to_nat off) s)]> vals).
Proof.
  intros Hok Hpl Ha Ho Hn Hle (Hn0 & H64 & Hroom) Ha64. destruct (so_dom _ _ Hok _ _ Ha) as (x & k & Hx).
  destruct (so_obj _ _ Hok _ _ _ Hx) as (s' & Hs' & Hst). assert (s' = s) as -> by congruence. pose proof (st_size _ _ _ _ _ _ Hst) as ->.
  set (t := take _ _). assert (n = Z.of_nat (length t)) as En by (unfold t; rewrite length_take, length_drop; lia).
  pose proof (object_readable st vals dst a x _ Hok Hx Hpl) as Hr.
  assert (0 <= x + off < 2 ^ 64) as Hx64.
  { change (2 ^ 64) with 18446744073709551616 in *. destruct (decide (x = a)) as [->|Hxa].
    - destruct (st_block _ _ _ _ _ _ Hst) as [[_ ->]|[? _]]; [cbn in Hle; lia|done].
    - pose proof (object_range st vals a x _ Hok Hx Hxa) as [? ?]. change (2 ^ 64) with 18446744073709551616 in *. lia. }
  assert (bytes (rm st) (x + off) n = t) as Hsrc.
  { unfold t. pose proof (st_chars _ _ _ _ _ _ Hst) as Hc. rewrite <- (Nat2Z.id (length s)) in Hle.
    apply (sub_bytes (rm st) x (Z.of_nat (length s) + 1) (s ++ [0]) off n) in Hc; [|lia..]. rewrite Hc.
    rewrite drop_app_le, take_app_le by (rewrite ?length_drop; lia). done. }
  unfold String_Substring. rewrite Hx.
  destruct (new_chars_keeps (n + 1) (init_end dst st)) as (q & h & m & Eq & Hm & Ek & _); [apply Hok|done|lia|].
  unfold new_chars in *. cbn [String_default init_end set_mem put_obj rh rm objs] in *. rewrite Ek in Eq |- *. eexists. split; [done|].
  cbn [set_mem put_obj rh rm objs]. rewrite u64_small by (change (2 ^ 64) with 18446744073709551616 in *; lia).
  destruct (copy_terminated m q (x + off) n t) as [Hb Ho']; [done| |].
  { rewrite (source_kept st dst); [done|done|]. intros i Hi. apply Hr. lia. }
  pose proof (construct_ok st vals dst n q h m _ t Hok Hpl Hroom En H64 Ek Hb Ho') as Hc.
  unfold set_mem, put_obj. cbn [rh rm objs]. rewrite insert_insert_eq. exact Hc.
Qed.

(** A local buffer: not the allocator's, not a string's. *)
Record scratch st (a buf n : Z) : Prop := {
  sc_read : readable st a buf n;
  sc_out : forall b x i k, objs st !! b = Some (x, i) -> buf <= k < buf + n -> ~ (x <= k < x + i + 1) /\ k <> b;
}.
Lemma String_unicode_ok st vals a buf c :
  strings_ok st vals -> place st a -> codepoint_ok c -> fits st (Z.of_nat (length (utf8_bytes c))) -> scratch st a buf 4 ->
  strings_ok (String_unicode a buf c st) (<[a := utf8_bytes c]> vals).
Proof.
  intros Hok Hpl Hc (Hn0 & H64 & Hroom) [Hr Ho]. unfold String_unicode. pose proof (utf8_Encode_spec (rm (init_end a st)) buf c Hc) as He.
  destruct (utf8_Encode _ buf c) as [n m1]. destruct He as (-> & Hb1 & Hs1). pose proof (utf8_bytes_length c) as Hlen.
  assert (strings_ok (put_obj a a 0 (set_mem m1 (init_end a st))) (<[a := []]> vals)) as Hok1.
  { apply (keep_ok (String_default a st)); [by apply default_ok|apply Hok|..]; unfold String_default; cbn [put_obj init_end set_mem objs rm rh]; [| |done].
    - intros b x n k Hx Hk. apply Hs1. intros Hin. destruct (decide (a = b)) as [<-|Hne].
      + rewrite lookup_insert_eq in Hx. injection Hx as <- <-. destruct (Hr k) as [_ ?]; lia.
      + rewrite lookup_insert_ne in Hx by done. destruct (Ho _ _ _ k Hx) as [? ?]; [lia|]. destruct Hk; done.
    - intros b v Hv. destruct (decide (a = b)) as [<-|Hne]; [apply Hpl|]. rewrite lookup_insert_ne in Hv by done. destruct v as [x n].
      destruct (so_obj _ _ Hok _ _ _ Hv) as (s & _ & Hst). apply (st_end _ _ _ _ _ _ Hst). }
  destruct (new_chars_keeps (Z.of_nat (length (utf8_bytes c)) + 1) (set_mem m1 (init_end a st))) as (q & h & m & E & Hm & Ek & _); [apply Hok|done|lia|].
  rewrite E. destruct (copy_terminated m q buf (Z.of_nat (length (utf8_bytes c))) (utf8_bytes c)) as [Hb' Ho']; [done| |].
  { etransitivity; [|exact Hb1]. apply bytes_ext. intros k Hk. apply Hm. apply Hr. lia. }
  pose proof (renew_ok _ _ a _ q h m _ _ Hok1 Hroom eq_refl H64 Ek Hb' Ho') as Hn. rewrite insert_insert_eq in Hn. exact Hn.
Qed.
End Operations.

(** ** The operations as steps *)

Section Steps.
Context {H : Type} `{Allocator H}.
Implicit Types (st : rt H) (vals : gmap Z (list Z)).

Inductive string_op :=
  | Default (a : Z) | FromC (a p : Z) (s : list Z) | FromN (a p : Z) (s : list Z) | FromUnicode (a buf c : Z)
  | CopyOf (a b : Z) | MoveOf (a b : Z) | Assign (a b : Z) | AssignMove (a b : Z) | SubstringOf (a b off n : Z) | Swap (a b : Z) | Delete (a : Z).
(** [fuel] bounds the length of the C strings read. *)
Definition run_op (fuel : nat) (o : string_op) st : option (rt H) :=
  match o with
  | Default a => Some (String_default a st)
  | FromC a p _ => String_cstr fuel a p st
  | FromN a p s => Some (String_n a p (Z.of_nat (length s)) st)
  | FromUnicode a buf c => Some (String_unicode a buf c st)
  | CopyOf a b => String_copy a b st
  | MoveOf a b => String_move a b st
  | Assign a b => String_assign a b st
  | AssignMove a b => String_assign_move a b st
  | SubstringOf a b off n => String_Substring a b off n st
  | Swap a b => String_swap a b st
  | Delete a => String_delete a st
  end.
Definition value (vals : gmap Z (list Z)) (a : Z) : list Z := default [] (vals !! a).
(** What the operation does to the values. *)
Definition spec_op (o : string_op) vals : gmap Z (list Z) :=
  match o with
  | Default a => <[a := []]> vals
  | FromC a _ s | FromN a _ s => <[a := s]> vals
  | FromUnicode a _ c => <[a := utf8_bytes c]> vals
  | CopyOf a b | Assign a b => <[a := value vals b]> vals
  | MoveOf a b | AssignMove a b => <[b := []]> (<[a := value vals b]> vals)
  | SubstringOf a b off n => <[a := take (Z.to_nat n) (drop (Z.to_nat off) (value vals b))]> vals
  | Swap a b => <[b := value vals a]> (<[a := value vals b]> vals)
  | Delete a => delete a vals
  end.
(** New objects have a place and memory; the objects used exist; a moved-from
    object, and both of a swap, are not at their own [end]; source and
    destination of an assignment differ. *)
Definition op_ok (fuel : nat) (o : string_op) st vals : Prop :=
  match o with
  | Default a => place st a
  | FromC a p s => place st a /\ fits st (Z.of_nat (length s)) /\ readable st a p (Z.of_nat (length s) + 1) /\ cstr (rm st) p s /\ (length s < fuel)%nat
  | FromN a p s => place st a /\ fits st (Z.of_nat (length s)) /\ readable st a p (Z.of_nat (length s)) /\ bytes (rm st) p (Z.of_nat (length s)) = s
  | FromUnicode a buf c => place st a /\ codepoint_ok c /\ fits st (Z.of_nat (length (utf8_bytes c))) /\ scratch st a buf 4
  | CopyOf a b => place st a /\ is_Some (vals !! b) /\ fits st (Z.of_nat (length (value vals b)))
  | MoveOf a b => place st a /\ is_Some (vals !! b) /\ forall x n, objs st !! b = Some (x, n) -> x <> b
  | Assign a b => a <> b /\ is_Some (vals !! a) /\ is_Some (vals !! b) /\
      forall st', free_str a st = Some st' -> fits st' (Z.of_nat (length (value vals b)))
  | AssignMove a b => a <> b /\ is_Some (vals !! a) /\ is_Some (vals !! b) /\ forall x n, objs st !! b = Some (x, n) -> x <> b
  | SubstringOf a b off n => place st a /\ is_Some (vals !! b) /\ 0 <= off /\ 0 <= n /\ off + n <= Z.of_nat (length (value vals b)) /\
      fits st n /\ 0 <= b < 2 ^ 64
  | Swap a b => is_Some (vals !! a) /\ is_Some (vals !! b) /\ (forall x n, objs st !! a = Some (x, n) -> x <> a) /\
      forall x n, objs st !! b = Some (x, n) -> x <> b
  | Delete a => is_Some (vals !! a)
  end.

(** C11. Strings refine values: from a store of strings with values, every
    constructor, assignment, swap, substring and destructor runs and leaves a store
    with the values it should - the copied, moved, swapped, cut or encoded ones, the
    moved-from string empty, all the others as they were -, each string in a
    block of its own, freed when it goes. *)
Theorem strings_refine_values fuel o st vals :
  strings_ok st vals -> op_ok fuel o st vals ->
  exists st', run_op fuel o st = Some st' /\ strings_ok st' (spec_op o vals).
Proof.
  intros Hok Ho. destruct o; cbn [run_op spec_op op_ok] in *.
  - eexists. split; [done|]. by apply default_ok.
  - destruct Ho as (? & ? & ? & ? & ?). by eapply String_cstr_ok.
  - destruct Ho as (? & ? & ? & ?). eexists. split; [done|]. by apply String_n_ok.
  - destruct Ho as (? & ? & ? & ?). eexists. split; [done|]. by apply String_unicode_ok.
  - destruct Ho as (? & [s Hs] & Hf). unfold value in *. rewrite Hs in *. by apply String_copy_ok.
  - destruct Ho as (? & [s Hs] & ?). unfold value. rewrite Hs. by apply String_move_ok.
  - destruct Ho as (? & [t Ht] & [s Hs] & Hf). unfold value in *. rewrite Hs in *. by eapply String_assign_ok.
  - destruct Ho as (? & [t Ht] & [s Hs] & ?). unfold value. rewrite Hs. by eapply String_assign_move_ok.
  - destruct Ho as (? & [s Hs] & ? & ? & ? & ? & ?). unfold value in *. rewrite Hs in *. by apply String_Substring_ok.
  - destruct Ho as ([s Hs] & [t Ht] & ? & ?). unfold value. rewrite Hs, Ht. by apply String_swap_ok.
  - destruct Ho as [s Hs]. by eapply String_delete_ok.
Qed.
End Steps.

Definition demo_rt : rt bump := mk_rt (mk_bump 1000 ∅) (fun a => if a =? 10 then 104 else if a =? 11 then 105 else 0) ∅.
Lemma demo_rt_ok : strings_ok demo_rt ∅.
Proof.
  split; cbn [demo_rt rh rm objs]; [|by intros ? ? ? ?%lookup_empty_Some..|by intros ? ? ?%lookup_empty_Some|by intros ? ? ? ? ? ? ? ?%lookup_empty_Some|by intros ? ? ? ? ? ?%lookup_empty_Some].
  split; cbn; [done|by intros ? ? ?%lookup_empty_Some|by intros ? ? ? ? ?%lookup_empty_Some].
Qed.
Lemma demo_rt_place a : a < 1000 -> place demo_rt a.
Proof. intros Ha. split; cbn; [lia|apply lookup_empty|by intros ? ? ? ?%lookup_empty_Some]. Qed.
Lemma strings_refine_values_witness :
  exists st', run_op 0 (FromN 500 10 [104; 105]) demo_rt = Some st' /\ strings_ok st' (<[500 := [104; 105]]> ∅).
Proof.
  apply (strings_refine_values 0 (FromN 500 10 [104; 105]) demo_rt ∅ demo_rt_ok).
  split; [apply demo_rt_place; lia|]. split; [split; [lia|split; [reflexivity|reflexivity]]|].
  split; [|reflexivity]. intros k Hk. cbn in *. lia.
Defined.

(** ** Comparison and iteration *)

Section Observations.
Context {H : Type} `{Allocator H}.
Implicit Types (st : rt H) (vals : gmap Z (list Z)).

Lemma value_cstr st vals a s : strings_ok st vals -> vals !! a = Some s -> Forall (fun c => c <> 0) s ->
  exists x, String_C a st = Some x /\ cstr (rm st) x s /\ String_Length a st = Some (Z.of_nat (length s)).
Proof.
  intros Hok Ha Hs. destruct (so_dom _ _ Hok _ _ Ha) as (x & n & Hx). destruct (so_obj _ _ Hok _ _ _ Hx) as (s' & Hs' & Hst).
  assert (s' = s) as -> by congruence. pose proof (st_size _ _ _ _ _ _ Hst) as ->. exists x. unfold String_C, String_Length. rewrite Hx.
  split_and!; [done| |done]. apply cstr_bytes. split; [apply Hst|done].
Qed.
Lemma compare_strings_antisym s : forall t, compare_strings t s = - compare_strings s t.
Proof.
  induction s as [|x s IH]; intros [|y t]; cbn [compare_strings]; [done|lia|lia|].
  destruct (Z.eqb_spec x y) as [->|]; [rewrite Z.eqb_refl; apply IH|]. destruct (Z.eqb_spec y x); [congruence|lia].
Qed.

(** The comparison operators compare values: on strings without NUL they
    answer as the byte-wise order of the values does, equality exactly when the
    values are equal, and exchanging the sides reverses the order. *)
Theorem string_compare_correct st vals a b s t fuel :
  strings_ok st vals -> vals !! a = Some s -> vals !! b = Some t ->
  Forall (fun c => c <> 0) s -> Forall (fun c => c <> 0) t -> (length s < fuel)%nat -> (length t < fuel)%nat ->
  exists x y, String_C a st = Some x /\ String_C b st = Some y /\
    String_eq fuel a y st = Some (bool_decide (s = t)) /\ String_ne fuel a y st = Some (negb (bool_decide (s = t))) /\
    String_lt fuel a y st = Some (compare_strings s t <? 0) /\ String_gt fuel b x st = String_lt fuel a y st /\
    String_le fuel a y st = String_ge fuel b x st.
Proof.
  intros Hok Ha Hb Hs Ht Hfs Hft. destruct (value_cstr st vals a s Hok Ha Hs) as (x & Hx & Hcs & _).
  destruct (value_cstr st vals b t Hok Hb Ht) as (y & Hy & Hct & _). exists x, y.
  assert (String_cmp fuel a y st = Some (compare_strings s t)) as E1 by (unfold String_cmp; rewrite Hx; by apply strcmp_spec).
  assert (String_cmp fuel b x st = Some (compare_strings t s)) as E2 by (unfold String_cmp; rewrite Hy; by apply strcmp_spec).
  unfold String_ne, String_eq, String_lt, String_gt, String_le, String_ge. rewrite E1, E2, (compare_strings_antisym s t). cbn [fmap option_fmap option_map].
  assert ((compare_strings s t =? 0) = bool_decide (s = t)) as ->.
  { apply eq_true_iff_eq. rewrite Z.eqb_eq, bool_decide_eq_true. by apply compare_strings_eq. }
  split_and!; try done; f_equal; apply eq_true_iff_eq; rewrite ?Z.ltb_lt, ?Z.leb_le; lia.
Qed.

Lemma iterate_spec st a x n cs : forall fuel i,
  objs st !! a = Some (x, n) -> 0 <= x -> x + n < 2 ^ 64 -> 0 <= i -> i + Z.of_nat (length (string_bytes cs)) = n ->
  Forall codepoint_ok cs -> bytes (rm st) (x + i) (Z.of_nat (length (string_bytes cs))) = string_bytes cs -> (length cs < fuel)%nat ->
  forall c w, (forall c' cs', cs = c' :: cs' -> utf8_Decode (rm st) (x + i) (n - i) = (w, c)) ->
  iterate fuel (mk_iter a i c w) st = Some cs.
Proof.
  change (2 ^ 64) with 18446744073709551616. induction cs as [|d cs IH]; intros [|fuel] i Hx Hx0 Hn Hi Hlen Hc Hb Hf c w Hd; cbn [length] in Hf; try lia;
    cbn [iterate]; unfold Iterator_End; cbn [parent it_i]; rewrite Hx.
  - cbn in Hlen. rewrite (proj2 (Z.leb_le _ _)) by lia. done.
  - apply Forall_cons in Hc as [Hdc Hc]. pose proof (utf8_bytes_length d) as Hl.
    rewrite string_bytes_cons, length_app, Nat2Z.inj_add in Hlen, Hb. rewrite (proj2 (Z.leb_gt _ _)) by lia.
    rewrite bytes_app in Hb by lia. apply app_inj_1 in Hb as [Hb1 Hb2]; [|rewrite length_bytes; lia].
    pose proof (Hd d cs eq_refl) as E. rewrite (utf8_Decode_spec (rm st) (x + i) d) in E by (done || lia). injection E as <- <-.
    unfold Iterator_post, Iterator_next. cbn [parent it_i adv cur]. rewrite Hx. cbn [mbind option_bind].
    rewrite (u64_small (i + _)) by lia. set (i' := i + Z.of_nat (length (utf8_bytes d))) in *.
    replace (x + i + Z.of_nat (length (utf8_bytes d))) with (x + i') in Hb2 by lia.
    assert (forall c w, (forall c' cs', cs = c' :: cs' -> utf8_Decode (rm st) (x + i') (n - i') = (w, c)) -> iterate fuel (mk_iter a i' c w) st = Some cs) as IH'.
    { intros c' w' Hd'. apply IH; try done; lia. }
    destruct (Z.ltb_spec i' n).
    + rewrite !u64_small by lia. destruct (utf8_Decode (rm st) (x + i') (n - i')) as [w' c'] eqn:E. by rewrite IH'.
    + rewrite IH'; [done|]. intros c' cs' ->. rewrite string_bytes_cons, length_app in Hlen. pose proof (utf8_bytes_length c'). lia.
Qed.

(** Iterating over a string that holds the encoding of codepoints gives
    those codepoints, in order, and ends. *)
Theorem string_iterator_correct st vals a cs fuel :
  strings_ok st vals -> vals !! a = Some (string_bytes cs) -> Forall codepoint_ok cs -> 0 <= a < 2 ^ 64 - 1 -> (length cs < fuel)%nat ->
  codepoints fuel a st = Some cs.
Proof.
  intros Hok Ha Hc Ha64 Hf. destruct (so_dom _ _ Hok _ _ Ha) as (x & n & Hx). destruct (so_obj _ _ Hok _ _ _ Hx) as (s & Hs & Hst).
  assert (s = string_bytes cs) as -> by congruence. pose proof (st_size _ _ _ _ _ _ Hst) as Hn.
  assert (0 <= x /\ x + n < 2 ^ 64) as [Hx0 Hx64].
  { change (2 ^ 64) with 18446744073709551616 in *. destruct (decide (x = a)) as [->|Hxa].
    - destruct (st_block _ _ _ _ _ _ Hst) as [[_ E]|[? _]]; [|done]. rewrite E in Hn. cbn in Hn. lia.
    - pose proof (object_range st vals a x n Hok Hx Hxa) as Hr. change (2 ^ 64) with 18446744073709551616 in *. lia. }
  unfold codepoints, Iterator_begin. rewrite Hx. destruct (utf8_Decode (rm st) x n) as [w c] eqn:E. cbn [mbind option_bind].
  apply (iterate_spec st a x n cs fuel 0); try done; [|intros; by rewrite Z.add_0_r, Z.sub_0_r].
  rewrite Z.add_0_r. pose proof (st_chars _ _ _ _ _ _ Hst) as Hch. rewrite Hn in Hch. rewrite bytes_app in Hch by lia.
  apply app_inj_1 in Hch as [Hch _]; [done|]. rewrite length_bytes. lia.
Qed.

(** Moving from a string without characters leaves the new one pointing at
    the [end] of the other: destroying it frees that address, which is no block
    of the allocator. *)
Theorem string_move_default_dangles st a b :
  a <> b -> b <> 0 -> al_blocks (rh st) !! b = None ->
  exists st2, String_move a b (String_default b st) = Some st2 /\ objs st2 !! a = Some (b, 0) /\
    al_blocks (rh st2) !! b = None /\
    String_delete a st2 = Some (mk_rt (kFree (rh st2) (rm st2) b).1 (kFree (rh st2) (rm st2) b).2 (delete a (objs st2))).
Proof.
  intros Hne Hb Hblk. unfold String_move. cbn [String_default put_obj init_end set_mem objs]. rewrite lookup_insert_eq. eexists. split; [done|].
  cbn [put_obj init_end set_mem objs rh rm]. split; [by rewrite lookup_insert_ne, lookup_insert_eq by done|]. split; [done|].
  unfold String_delete, free_str. cbn [put_obj init_end set_mem objs rh rm]. rewrite lookup_insert_ne, lookup_insert_eq by done.
  rewrite (proj2 (Z.eqb_neq b 0)), (proj2 (Z.eqb_neq b a)) by done. cbn [negb andb]. unfold delete_chars. cbn [rh rm objs].
  by destruct (kFree _ _ b) as [h m].
Qed.
End Observations.

Lemma string_move_default_dangles_witness :
  exists st2, String_move 600 500 (String_default 500 demo_rt) = Some st2 /\ objs st2 !! 600 = Some (500, 0).
Proof.
  destruct (string_move_default_dangles demo_rt 600 500) as (st2 & H1 & H2 & _); [discriminate|discriminate|reflexivity|].
  exists st2. split; [exact H1|exact H2].
Defined.
(** The string "hi". *)
Definition demo_hi : rt bump := String_n 500 10 2 demo_rt.
Lemma demo_hi_ok : strings_ok demo_hi (<[500 := [104; 105]]> ∅).
Proof.
  apply (String_n_ok demo_rt ∅ 500 10 [104; 105] demo_rt_ok).
  - apply demo_rt_place. lia.
  - split; [lia|]. split; reflexivity.
  - intros k Hk. cbn in *. lia.
  - reflexivity.
Qed.
Lemma string_compare_correct_witness :
  exists x, String_C 500 demo_hi = Some x /\ String_eq 3 500 x demo_hi = Some true.
Proof.
  destruct (string_compare_correct demo_hi _ 500 500 [104; 105] [104; 105] 3 demo_hi_ok) as (x & y & _ & H3 & H2 & _);
    [reflexivity|reflexivity|repeat constructor; discriminate|repeat constructor; discriminate|cbn; lia|cbn; lia|].
  exists y. split; [exact H3|exact H2].
Defined.
Lemma string_iterator_correct_witness : codepoints 3 500 demo_hi = Some [104; 105].
Proof.
  apply (string_iterator_correct demo_hi (<[500 := [104; 105]]> ∅) 500 [104; 105] 3 demo_hi_ok); [reflexivity| |change (2 ^ 64) with 18446744073709551616; lia|cbn; lia].
  repeat constructor; discriminate.
Defined.
