(* ===== verification/Kthread.v ===== *)
(** * Kernel threads and the scheduler (src/smp/kthread.c, kthread_switch.c,
    internal.h, metrics.c)

    The scheduler's state, its operations and the context switch.  A thread
    pointer is the thread's id, the key of its node in [__smp_Threads]; using a
    thread that is not there is a dangling access and fails ([None]).  The
    treaps are the maps they implement (Treap.v): [__smp_ThreadsWaiting] maps a
    priority to a thread and is walked in key order.  What the code leaves
    uninitialised (a new node's object, a new wait block) is an argument. *)

From stdpp Require Import sorting.
From S2P Require Import Prelude Paging Heap.

Definition GDT_DATA_SELECTOR : Z := 0x08.
Definition GDT_EXEC_SELECTOR : Z := 0x10.
Definition GDT_EXEC_RING3_SELECTOR : Z := 0x23.
Definition SMP_NICENESS_DEFAULT : Z := 80.
Definition UINT64_MAX : Z := 18446744073709551615.

(** ** Data *)

Record smp_thread_State := mk_state {
  rax : Z; rbx : Z; rcx : Z; rdx : Z; rsi : Z; rdi : Z; rbp : Z; rsp : Z;
  r8 : Z; r9 : Z; r10 : Z; r11 : Z; r12 : Z; r13 : Z; r14 : Z; r15 : Z;
  rflags : Z; rip : Z; ss : Z; cs : Z;
}.
Record smp_thread_Arguments := mk_args { a_a : Z; a_b : Z; a_c : Z; a_d : Z; a_e : Z; a_f : Z }.

Inductive __smp_Thread_Waiting_Type := __smp_Thread_Waiting_Condiction | __smp_Thread_Waiting_Mutex.
Record __smp_Thread_Waiting := mk_wait {
  object : Z;      (* smp_Condition* or smp_Mutex*, NULL when not waiting *)
  w_data : Z;      (* return data *)
  timeout : Z;     (* tick when the wait times out, 0 if it does not *)
  w_type : __smp_Thread_Waiting_Type;
}.
Record __smp_Thread := mk_thread {
  id : Z;
  nice : Z;
  lastTick : Z;
  sleepUntil : Z;
  wait : option __smp_Thread_Waiting;
  state : smp_thread_State;
  stackframe : Z;
  process : Z;
}.

(** The globals of internal.c, kthread_switch.c and metrics.c, the bottom of
    the kernel mappings, and the calls to [paging_map_PageAllocated]. *)
Record smp := mk_smp {
  Now : Z;
  PauseTicker : bool;
  Current : option Z;
  Idallo : Z;
  Threads : gmap Z __smp_Thread;
  ThreadsWaiting : gmap Z Z;
  StackPool : gset Z;
  LastState : smp_thread_State;
  PrevTime : Z;
  Tick_Idling : Z; Tick_Kernel : Z; Tick_Userspace : Z;
  MappingBottom : Z;
  mapped : list (Z * Z * Z);
  rtc_handler : option Z;
}.

Definition set_threads (f : gmap Z __smp_Thread) (s : smp) : smp :=
  mk_smp (Now s) (PauseTicker s) (Current s) (Idallo s) f (ThreadsWaiting s) (StackPool s) (LastState s)
    (PrevTime s) (Tick_Idling s) (Tick_Kernel s) (Tick_Userspace s) (MappingBottom s) (mapped s) (rtc_handler s).
Definition set_waiting (w : gmap Z Z) (s : smp) : smp :=
  mk_smp (Now s) (PauseTicker s) (Current s) (Idallo s) (Threads s) w (StackPool s) (LastState s)
    (PrevTime s) (Tick_Idling s) (Tick_Kernel s) (Tick_Userspace s) (MappingBottom s) (mapped s) (rtc_handler s).
Definition set_current (c : option Z) (s : smp) : smp :=
  mk_smp (Now s) (PauseTicker s) c (Idallo s) (Threads s) (ThreadsWaiting s) (StackPool s) (LastState s)
    (PrevTime s) (Tick_Idling s) (Tick_Kernel s) (Tick_Userspace s) (MappingBottom s) (mapped s) (rtc_handler s).
Definition set_last (r : smp_thread_State) (s : smp) : smp :=
  mk_smp (Now s) (PauseTicker s) (Current s) (Idallo s) (Threads s) (ThreadsWaiting s) (StackPool s) r
    (PrevTime s) (Tick_Idling s) (Tick_Kernel s) (Tick_Userspace s) (MappingBottom s) (mapped s) (rtc_handler s).
Definition set_ticker (now : Z) (pause : bool) (s : smp) : smp :=
  mk_smp now pause (Current s) (Idallo s) (Threads s) (ThreadsWaiting s) (StackPool s) (LastState s)
    (PrevTime s) (Tick_Idling s) (Tick_Kernel s) (Tick_Userspace s) (MappingBottom s) (mapped s) (rtc_handler s).
Definition set_metrics (prev idle kernel user : Z) (s : smp) : smp :=
  mk_smp (Now s) (PauseTicker s) (Current s) (Idallo s) (Threads s) (ThreadsWaiting s) (StackPool s) (LastState s)
    prev idle kernel user (MappingBottom s) (mapped s) (rtc_handler s).
Definition set_pool (p : gset Z) (s : smp) : smp :=
  mk_smp (Now s) (PauseTicker s) (Current s) (Idallo s) (Threads s) (ThreadsWaiting s) p (LastState s)
    (PrevTime s) (Tick_Idling s) (Tick_Kernel s) (Tick_Userspace s) (MappingBottom s) (mapped s) (rtc_handler s).
Definition set_idallo (i : Z) (s : smp) : smp :=
  mk_smp (Now s) (PauseTicker s) (Current s) i (Threads s) (ThreadsWaiting s) (StackPool s) (LastState s)
    (PrevTime s) (Tick_Idling s) (Tick_Kernel s) (Tick_Userspace s) (MappingBottom s) (mapped s) (rtc_handler s).
Definition set_mapping (b : Z) (l : list (Z * Z * Z)) (s : smp) : smp :=
  mk_smp (Now s) (PauseTicker s) (Current s) (Idallo s) (Threads s) (ThreadsWaiting s) (StackPool s) (LastState s)
    (PrevTime s) (Tick_Idling s) (Tick_Kernel s) (Tick_Userspace s) b l (rtc_handler s).

Definition t_set_state (r : smp_thread_State) (t : __smp_Thread) : __smp_Thread :=
  mk_thread (id t) (nice t) (lastTick t) (sleepUntil t) (wait t) r (stackframe t) (process t).
Definition t_set_lastTick (n : Z) (t : __smp_Thread) : __smp_Thread :=
  mk_thread (id t) (nice t) n (sleepUntil t) (wait t) (state t) (stackframe t) (process t).
Definition t_set_sleep (n : Z) (t : __smp_Thread) : __smp_Thread :=
  mk_thread (id t) (nice t) (lastTick t) n (wait t) (state t) (stackframe t) (process t).
Definition t_set_wait (w : option __smp_Thread_Waiting) (t : __smp_Thread) : __smp_Thread :=
  mk_thread (id t) (nice t) (lastTick t) (sleepUntil t) w (state t) (stackframe t) (process t).
Definition t_set_nice (n : Z) (t : __smp_Thread) : __smp_Thread :=
  mk_thread (id t) n (lastTick t) (sleepUntil t) (wait t) (state t) (stackframe t) (process t).

(** [*p = f ( *p)] on a thread. *)
Definition modify_thread (s : smp) (p : Z) (f : __smp_Thread -> __smp_Thread) : option smp :=
  t ← Threads s !! p; Some (set_threads (<[p := f t]> (Threads s)) s).
(** The key order in which a tree is walked. *)
Definition tree_keys {A} (m : gmap Z A) : list Z := merge_sort Z.le (map_to_list m).*1.

(** ** The switch *)

Definition __smp_Thread_Waiting_IsWaiting (now : Z) (w : option __smp_Thread_Waiting) : bool :=
  match w with
  | Some w => negb (object w =? 0) && ((timeout w =? 0) || (now <? timeout w))
  | None => false
  end.
Definition blocked (now : Z) (t : __smp_Thread) : bool :=
  (now <? sleepUntil t) || __smp_Thread_Waiting_IsWaiting now (wait t).

(** The waiting node with the least key whose thread can run. *)
Fixpoint first_runnable (s : smp) (ks : list Z) : option (option Z) :=
  match ks with
  | [] => Some None
  | k :: ks =>
      p ← ThreadsWaiting s !! k;
      t ← Threads s !! p;
      if blocked (Now s) t then first_runnable s ks else Some (Some k)
  end.

(** [while (!ok) node = tree_InsertNode(..., priority++, &ok)] *)
Fixpoint insert_free (fuel : nat) (w : gmap Z Z) (priority p : Z) : option (gmap Z Z) :=
  match fuel with
  | O => None
  | S fuel => match w !! priority with
              | None => Some (<[priority := p]> w)
              | Some _ => insert_free fuel w (u64 (priority + 1)) p
              end
  end.

Definition account (s : smp) (t : option __smp_Thread) : smp :=
  let deltaTick := u64 (Now s - PrevTime s) in
  match t with
  | None => set_metrics (Now s) (u64 (Tick_Idling s + deltaTick)) (Tick_Kernel s) (Tick_Userspace s) s
  | Some t =>
      if cs (state t) =? GDT_EXEC_RING3_SELECTOR
      then set_metrics (Now s) (Tick_Idling s) (Tick_Kernel s) (u64 (Tick_Userspace s + deltaTick)) s
      else set_metrics (Now s) (Tick_Idling s) (u64 (Tick_Kernel s + deltaTick)) (Tick_Userspace s) s
  end.

(** The new priority of the current thread. *)
Definition new_priority (s : smp) (t : option __smp_Thread) : Z :=
  match t with
  | None => UINT64_MAX
  | Some t => u64 (nice t + (if Now s <? lastTick t then lastTick t else Now s))
  end.

(** Saves the current thread in the waiting tree. *)
Definition save_current (s : smp) (priority : Z) : option smp :=
  match Current s with
  | None => Some s
  | Some c =>
      s ← modify_thread s c (fun t => t_set_state (LastState s) (t_set_lastTick (Now s) t));
      w ← insert_free (S (size (ThreadsWaiting s))) (ThreadsWaiting s) priority c;
      Some (set_waiting w s)
  end.
Definition idle_state (switch_idle : Z) (r : smp_thread_State) : smp_thread_State :=
  mk_state (rax r) (rbx r) (rcx r) (rdx r) (rsi r) (rdi r) (rbp r) (rsp r) (r8 r) (r9 r) (r10 r)
    (r11 r) (r12 r) (r13 r) (r14 r) (r15 r) (Z.lor (rflags r) 512) switch_idle (ss r) (cs r).
(** Loads the thread of node [first], or the idle loop. *)
Definition load_next (switch_idle : Z) (s : smp) (first : option Z) : option smp :=
  match first with
  | None => Some (set_current None (set_last (idle_state switch_idle (LastState s)) s))
  | Some k =>
      p ← ThreadsWaiting s !! k;
      t ← Threads s !! p;
      Some (set_waiting (delete k (ThreadsWaiting s)) (set_current (Some p) (set_last (state t) s)))
  end.

(** [__smp_Switch]: the state and the result. *)
Definition __smp_Switch (switch_idle : Z) (s : smp) : option (smp * Z) :=
  t ← match Current s with
      | None => Some None
      | Some c => t ← Threads s !! c; Some (Some t)
      end;
  let s := account s t in
  let priority := new_priority s t in
  first ← first_runnable s (tree_keys (ThreadsWaiting s));
  if match first with Some k => priority <? k | None => false end then Some (s, 0)
  else
    s ← save_current s priority;
    s ← load_next switch_idle s first;
    Some (s, 1).

(** The timer interrupt and [smp_thread_Yield], around the switch
    (kthread_switch_asm.S): [regs] are the interrupted registers. *)
Definition __smp_IntSwitch (switch_idle : Z) (s : smp) (regs : smp_thread_State) : option smp :=
  if PauseTicker s then
    '(s, _) ← __smp_Switch switch_idle (set_last regs (set_ticker (Now s) false s)); Some s
  else
    let now := u64 (Now s + 1) in
    if Z.land now 3 =? 0
    then '(s, _) ← __smp_Switch switch_idle (set_last regs (set_ticker now false s)); Some s
    else Some (set_ticker now false s).
Definition smp_thread_Yield (switch_idle : Z) (s : smp) (regs : smp_thread_State) : option smp :=
  __smp_IntSwitch switch_idle (set_ticker (Now s) true s) regs.

(** ** Thread operations *)

(** What the code leaves uninitialised, and the addresses it uses. *)
Record env := mk_env {
  new_thread : __smp_Thread;          (* object of a new tree node *)
  new_wait : __smp_Thread_Waiting;    (* block from kMalloc *)
  EntryPoint : Z;                     (* __smp_thread_EntryPoint *)
  IntSwitch : Z;                      (* __smp_IntSwitch *)
  Switch_Idle : Z;                    (* __smp_Switch_Idle *)
}.

Section Ops.
Variable e : env.

Definition smp_thread_Init (s : smp) : smp * Z :=
  let i := i32 (Idallo s + 1) in
  let g := new_thread e in
  let t := mk_thread i SMP_NICENESS_DEFAULT 1 0 (Some (new_wait e)) (state g) (stackframe g) 0 in
  (mk_smp 1 (PauseTicker s) (Some i) i {[i := t]} ∅ ∅ (LastState s) (PrevTime s)
     (Tick_Idling s) (Tick_Kernel s) (Tick_Userspace s) (MappingBottom s) (mapped s) (Some (IntSwitch e)), i).

(** The entry state: selectors, entry point and arguments. *)
Definition entry_state (g : smp_thread_State) (entry : Z) (args : option smp_thread_Arguments) (sp : Z)
    : smp_thread_State :=
  match args with
  | Some a => mk_state entry (rbx g) (a_d a) (a_c a) (a_b a) (a_a a) (rbp g) sp (a_e a) (a_f a) (r10 g) (r11 g)
                (r12 g) (r13 g) (r14 g) (r15 g) (rflags g) (EntryPoint e) GDT_DATA_SELECTOR GDT_EXEC_SELECTOR
  | None => mk_state entry (rbx g) (rcx g) (rdx g) (rsi g) (rdi g) (rbp g) sp (r8 g) (r9 g) (r10 g) (r11 g)
              (r12 g) (r13 g) (r14 g) (r15 g) (rflags g) (EntryPoint e) GDT_DATA_SELECTOR GDT_EXEC_SELECTOR
  end.
(** The stack of a new thread: the first of the pool, or a new page. *)
Definition take_stack (s : smp) : Z * smp :=
  match merge_sort Z.le (elements (StackPool s)) with
  | spare :: _ => (u64 (spare + 4096), set_pool (StackPool s ∖ {[spare]}) s)
  | [] => let newstack := memory_AllocateKernelMapping (MappingBottom s) 4096 4096 in
          (u64 (newstack + 4096),
           set_mapping newstack (mapped s ++ [(newstack, 1, Z.lor MAP_PROT_READ MAP_PROT_WRITE)]) s)
  end.
(** [tree_Insert] of a priority that is taken gives the old node, whose pointer
    is overwritten. *)
Definition smp_thread_Start (s : smp) (entry : Z) (args : option smp_thread_Arguments) (n : Z) : smp * Z :=
  let i := i32 (Idallo s + 1) in
  let g := match Threads s !! i with Some t => t | None => new_thread e end in
  let '(sp, s') := take_stack s in
  let t := mk_thread i n (Now s) 0 (Some (new_wait e)) (entry_state (state g) entry args sp) sp 0 in
  (set_waiting (<[u64 (Now s + n) := i]> (ThreadsWaiting s'))
     (set_threads (<[i := t]> (Threads s')) (set_idallo i s')), i).

Definition smp_thread_Nice (s : smp) (i newnice : Z) : smp * Z :=
  match Threads s !! i with
  | None => (s, -1)
  | Some t => if newnice <? 0 then (s, i32 (nice t))
              else (set_threads (<[i := t_set_nice newnice t]> (Threads s)) s, i32 (nice t))
  end.

Definition smp_thread_Sleep (s : smp) (ticks : Z) (regs : smp_thread_State) : option smp :=
  c ← Current s;
  s ← modify_thread s c (t_set_sleep (u64 (Now s + ticks)));
  smp_thread_Yield (Switch_Idle e) s regs.

(** [__smp_thread_Cleanup]: the end of the current thread.  It panics when the
    yield returns, that is when the switch reports no change. *)
Definition __smp_thread_Cleanup (s : smp) (regs : smp_thread_State) : option smp :=
  c ← Current s;
  t ← Threads s !! c;
  smp_thread_Yield (Switch_Idle e)
    (set_pool (StackPool s ∪ {[stackframe t]}) (set_current None (set_threads (delete (id t) (Threads s)) s))) regs.
End Ops.
