(* ===== verification/Sched.v ===== *)
(** * The scheduler's invariant and the properties of its operations

    Every thread is either running or in the waiting tree exactly once; the
    context switch, and the operations of Kthread.v, against it. *)

From stdpp Require Import sorting.
From S2P Require Import Prelude Paging Heap Kthread.

Record sched_ok (s : smp) : Prop := {
  so_ids : forall i t, Threads s !! i = Some t -> id t = i;
  so_wait : forall p i, ThreadsWaiting s !! p = Some i -> is_Some (Threads s !! i) /\ Current s <> Some i;
  so_inj : forall p q i, ThreadsWaiting s !! p = Some i -> ThreadsWaiting s !! q = Some i -> p = q;
  so_all : forall i t, Threads s !! i = Some t ->
    Current s = Some i \/ exists p, ThreadsWaiting s !! p = Some i;
  so_cur : forall c, Current s = Some c -> is_Some (Threads s !! c);
  so_keys : forall p i, ThreadsWaiting s !! p = Some i -> 0 <= p < 2 ^ 64;
}.

(** [o] is the waiting node with the least key whose thread can run. *)
Definition is_first (s : smp) (o : option Z) : Prop :=
  match o with
  | Some k => (exists p t, ThreadsWaiting s !! k = Some p /\ Threads s !! p = Some t /\ blocked (Now s) t = false) /\
      (forall k' p t, k' < k -> ThreadsWaiting s !! k' = Some p -> Threads s !! p = Some t -> blocked (Now s) t = true)
  | None => forall k p t, ThreadsWaiting s !! k = Some p -> Threads s !! p = Some t -> blocked (Now s) t = true
  end.

(** ** Lemmas *)

Lemma tree_keys_elem {A} (m : gmap Z A) k : k ∈ tree_keys m <-> is_Some (m !! k).
Proof.
  unfold tree_keys. rewrite merge_sort_Permutation, list_elem_of_fmap. split.
  - intros ([k' v] & -> & Hin). apply elem_of_map_to_list in Hin. by exists v.
  - intros [v Hv]. exists (k, v). split; [done|]. by apply elem_of_map_to_list.
Qed.
Lemma tree_keys_sorted {A} (m : gmap Z A) : Sorted Z.le (tree_keys m).
Proof. apply Sorted_merge_sort. intros x y. lia. Qed.
Lemma tree_keys_strong {A} (m : gmap Z A) : StronglySorted Z.lt (tree_keys m).
Proof.
  assert (NoDup (tree_keys m)) as Hnd.
  { unfold tree_keys. rewrite merge_sort_Permutation. apply NoDup_fst_map_to_list. }
  assert (StronglySorted Z.le (tree_keys m)) as Hs by (apply (Sorted_StronglySorted _), tree_keys_sorted).
  revert Hnd Hs.
  generalize (tree_keys m). intros l. induction l as [|k l IH]; intros Hnd Hs; [constructor|].
  apply NoDup_cons in Hnd as [Hk Hnd]. apply StronglySorted_inv in Hs as [Hs Hf].
  constructor; [by apply IH|]. rewrite Forall_forall in *. intros x Hx.
  specialize (Hf x Hx). assert (x <> k) by (by intros ->). lia.
Qed.

Lemma first_runnable_go s ks :
  sched_ok s -> StronglySorted Z.lt ks -> (forall k, k ∈ ks -> is_Some (ThreadsWaiting s !! k)) ->
  exists o, first_runnable s ks = Some o /\
    match o with
    | Some k => (exists p t, ThreadsWaiting s !! k = Some p /\ Threads s !! p = Some t /\ blocked (Now s) t = false) /\
       forall k' p t, k' ∈ ks -> k' < k -> ThreadsWaiting s !! k' = Some p -> Threads s !! p = Some t -> blocked (Now s) t = true
    | None => forall k p t, k ∈ ks -> ThreadsWaiting s !! k = Some p -> Threads s !! p = Some t -> blocked (Now s) t = true
    end.
Proof.
  intros Hok Hs Hin. induction Hs as [|k ks Hs IH Hf]; cbn [first_runnable].
  { exists None. split; [done|]. intros k p t Hk. by apply not_elem_of_nil in Hk. }
  destruct (Hin k) as [p Hp]; [set_solver|]. destruct (so_wait s Hok k p Hp) as [[t Ht] _].
  rewrite Hp. cbn [mbind option_bind]. rewrite Ht. cbn [mbind option_bind].
  destruct (blocked (Now s) t) eqn:Eb.
  - destruct IH as (o & -> & Ho); [set_solver|]. exists o. split; [done|].
    destruct o as [k1|].
    + destruct Ho as [H1 H2]. split; [done|]. intros k' p' t' Hk' Hlt Hp' Ht'.
      apply elem_of_cons in Hk' as [->|Hk']; [congruence|by apply (H2 k' p' t')].
    + intros k' p' t' Hk' Hp' Ht'. apply elem_of_cons in Hk' as [->|Hk']; [congruence|by apply (Ho k' p' t')].
  - exists (Some k). split; [done|]. split; [by eauto|].
    intros k' p' t' Hk' Hlt. apply elem_of_cons in Hk' as [->|Hk']; [lia|].
    rewrite Forall_forall in Hf. specialize (Hf k' Hk'). lia.
Qed.
Lemma first_runnable_spec s :
  sched_ok s -> exists o, first_runnable s (tree_keys (ThreadsWaiting s)) = Some o /\ is_first s o.
Proof.
  intros Hok. destruct (first_runnable_go s (tree_keys (ThreadsWaiting s)) Hok (tree_keys_strong _))
    as (o & Ho & Hf); [by intros k ?%tree_keys_elem|].
  exists o. split; [done|]. destruct o as [k|]; simpl.
  - destruct Hf as [H1 H2]. split; [done|]. intros k' p t Hlt Hp. apply (H2 k' p t); [|done|done].
    apply tree_keys_elem. by exists p.
  - intros k p t Hp. apply (Hf k p t); [|done]. apply tree_keys_elem. by exists p.
Qed.

(** The insertion loop finds a free key: it probes one key more than there are. *)
Lemma insert_free_spec w pr p (fuel : nat) :
  0 <= pr < 2 ^ 64 -> Z.of_nat fuel <= 2 ^ 64 ->
  (exists i, 0 <= i < Z.of_nat fuel /\ w !! u64 (pr + i) = None) ->
  exists k, insert_free fuel w pr p = Some (<[k := p]> w) /\ w !! k = None /\ 0 <= k < 2 ^ 64.
Proof.
  change (2 ^ 64) with 18446744073709551616.
  revert pr. induction fuel as [|fuel IH]; intros pr Hpr Hf (i & Hi & Hn); [lia|].
  cbn [insert_free]. destruct (w !! pr) as [x|] eqn:E.
  - apply IH; [apply u64_range|lia|].
    destruct (decide (i = 0)) as [->|Hne].
    { rewrite Z.add_0_r, u64_small in Hn by lia. congruence. }
    exists (i - 1). split; [lia|]. rewrite <- Hn. f_equal. word_lia.
  - by exists pr.
Qed.
Lemma free_key (w : gmap Z Z) pr :
  Z.of_nat (size w) < 2 ^ 64 ->
  exists i, 0 <= i < Z.of_nat (S (size w)) /\ w !! u64 (pr + i) = None.
Proof.
  change (2 ^ 64) with 18446744073709551616. intros Hsz.
  destruct (decide (Exists (fun i => w !! u64 (pr + i) = None) (seqZ 0 (Z.of_nat (S (size w)))))) as [He|Hn].
  { apply Exists_exists in He as (i & Hi & Hw). apply elem_of_seqZ in Hi. exists i. split; [lia|done]. }
  exfalso. set (l := (fun i => u64 (pr + i)) <$> seqZ 0 (Z.of_nat (S (size w)))).
  assert (NoDup l) as Hnd.
  { apply NoDup_fmap_2_strong; [|apply NoDup_seqZ].
    intros x y Hx%elem_of_seqZ Hy%elem_of_seqZ E. revert E. word_unfold. lia. }
  assert (list_to_set l ⊆ dom w) as Hsub.
  { intros k Hk. apply elem_of_list_to_set, list_elem_of_fmap in Hk as (i & -> & Hi).
    apply elem_of_dom. destruct (w !! u64 (pr + i)) eqn:E; [by eexists|].
    exfalso. apply Hn, Exists_exists. by exists i. }
  apply subseteq_size in Hsub. rewrite size_list_to_set, size_dom in Hsub by done.
  subst l. rewrite length_fmap, length_seqZ in Hsub. lia.
Qed.

(** ** The switch in two steps: save, then load *)

Lemma account_eq s t :
  Threads (account s t) = Threads s /\ ThreadsWaiting (account s t) = ThreadsWaiting s /\
  Current (account s t) = Current s /\ Now (account s t) = Now s /\ LastState (account s t) = LastState s.
Proof. unfold account. repeat case_match; done. Qed.
Lemma sched_ok_ext s s' :
  Threads s' = Threads s -> ThreadsWaiting s' = ThreadsWaiting s -> Current s' = Current s ->
  sched_ok s -> sched_ok s'.
Proof. intros E1 E2 E3 [H1 H2 H3 H4 H5 H6]. split; rewrite ?E1, ?E2, ?E3; done. Qed.
Lemma is_first_ext s s' o :
  Threads s' = Threads s -> ThreadsWaiting s' = ThreadsWaiting s -> Now s' = Now s ->
  is_first s' o -> is_first s o.
Proof. intros E1 E2 E3. unfold is_first. by rewrite E1, E2, E3. Qed.

(** The current thread's record. *)
Definition cur_thread (s : smp) : option __smp_Thread := c ← Current s; Threads s !! c.
(** The thread map after the current thread's context is saved. *)
Definition saved (s : smp) : gmap Z __smp_Thread :=
  match Current s with
  | None => Threads s
  | Some c =>
      match Threads s !! c with
      | Some t => <[c := t_set_state (LastState s) (t_set_lastTick (Now s) t)]> (Threads s)
      | None => Threads s
      end
  end.

Lemma save_current_ok s pr :
  sched_ok s -> Z.of_nat (size (ThreadsWaiting s)) + 1 < 2 ^ 64 -> 0 <= pr < 2 ^ 64 ->
  exists s1, save_current s pr = Some s1 /\ sched_ok (set_current None s1) /\
    Threads s1 = saved s /\ LastState s1 = LastState s /\ Now s1 = Now s /\
    (forall k p, ThreadsWaiting s !! k = Some p -> ThreadsWaiting s1 !! k = Some p).
Proof.
  intros Hok Hsz Hpr. unfold save_current, saved. destruct (Current s) as [c|] eqn:Ec.
  2: { exists s. split_and!; try done. destruct Hok. split; simpl; rewrite ?Ec in *; done. }
  destruct (so_cur s Hok c Ec) as [t Ht]. unfold modify_thread. rewrite Ht. cbn [mbind option_bind].
  cbn [set_threads ThreadsWaiting].
  destruct (insert_free_spec (ThreadsWaiting s) pr c (S (size (ThreadsWaiting s))) Hpr ltac:(lia))
    as (k & -> & Hk & Hk64); [apply free_key; lia|]. cbn [mbind option_bind].
  eexists. split; [reflexivity|]. cbn [set_waiting set_threads set_current LastState Now Threads ThreadsWaiting].
  split_and!; [|done|done|done|].
  - destruct Hok as [H1 H2 H3 H4 H5 H6]. split; simpl; try done.
    + intros i t'. destruct (decide (i = c)) as [->|Hne].
      * rewrite lookup_insert_eq. intros [= <-]. simpl. by apply H1.
      * rewrite lookup_insert_ne by done. apply H1.
    + intros p i. destruct (decide (p = k)) as [->|Hne].
      * rewrite lookup_insert_eq. intros [= <-]. by rewrite lookup_insert_eq.
      * rewrite lookup_insert_ne by done. intros Hp. destruct (H2 _ _ Hp) as [Hi _]. split; [|done].
        destruct (decide (i = c)) as [->|Hne']; [by rewrite lookup_insert_eq|by rewrite lookup_insert_ne].
    + intros p q i.
      destruct (decide (p = k)) as [->|Hp]; destruct (decide (q = k)) as [->|Hq];
        rewrite ?lookup_insert_eq, ?lookup_insert_ne by done; try done.
      * intros [= <-] Hi. by destruct (H2 _ _ Hi).
      * intros Hi [= <-]. by destruct (H2 _ _ Hi).
      * apply H3.
    + intros i t' Hi. right. destruct (decide (i = c)) as [->|Hne].
      * exists k. by rewrite lookup_insert_eq.
      * rewrite lookup_insert_ne in Hi by done. destruct (H4 _ _ Hi) as [?|[p Hp]]; [congruence|].
        exists p. rewrite lookup_insert_ne; [done|congruence].
    + intros p i. destruct (decide (p = k)) as [->|Hne]; [done|].
      rewrite lookup_insert_ne by done. apply H6.
  - intros k' p Hp. rewrite lookup_insert_ne; [done|congruence].
Qed.

Lemma load_next_ok idle s s1 o :
  sched_ok (set_current None s1) ->
  (forall k p, ThreadsWaiting s !! k = Some p -> ThreadsWaiting s1 !! k = Some p) -> is_first s o ->
  exists s', load_next idle s1 o = Some s' /\ sched_ok s' /\ Threads s' = Threads s1 /\
    Current s' = (k ← o; ThreadsWaiting s !! k) /\
    match Current s' with
    | Some p => exists t, Threads s' !! p = Some t /\ LastState s' = state t
    | None => LastState s' = idle_state idle (LastState s1)
    end.
Proof.
  intros Hok Hsub Ho. destruct o as [k|]; cbn [load_next].
  2: { eexists. split; [reflexivity|]. split_and!; try done. by apply (sched_ok_ext (set_current None s1)). }
  destruct Ho as [(p & t0 & Hp0 & _) _]. pose proof (Hsub _ _ Hp0) as Hp.
  destruct (so_wait _ Hok k p Hp) as [[t Ht] _]. simpl in Ht.
  rewrite Hp. cbn [mbind option_bind]. rewrite Ht. cbn [mbind option_bind].
  eexists. split; [reflexivity|]. cbn. rewrite Hp0. split_and!; try done; [|by eauto].
  destruct Hok as [H1 H2 H3 H4 H5 H6]. simpl in *. split; simpl; try done.
  - intros q i. rewrite lookup_delete_Some. intros [Hne Hq]. destruct (H2 _ _ Hq) as [? _]. split; [done|].
    intros [= ->]. by apply Hne, (H3 _ _ i).
  - intros q q' i. rewrite !lookup_delete_Some. intros [_ Hq] [_ Hq']. by apply (H3 _ _ i).
  - intros i t' Hi. destruct (decide (i = p)) as [->|Hne]; [by left|right].
    destruct (H4 _ _ Hi) as [?|[q Hq]]; [done|]. exists q. rewrite lookup_delete_ne; [done|].
    intros ->. congruence.
  - intros c [= <-]. by exists t.
  - intros q i. rewrite lookup_delete_Some. intros [_ Hq]. by apply (H6 q i).
Qed.

Lemma Switch_spec idle s :
  sched_ok s -> Z.of_nat (size (ThreadsWaiting s)) + 1 < 2 ^ 64 ->
  exists s' r o, __smp_Switch idle s = Some (s', r) /\ sched_ok s' /\ is_first s o /\
    ((r = 0 /\ (exists k, o = Some k /\ new_priority s (cur_thread s) < k) /\
      Threads s' = Threads s /\ ThreadsWaiting s' = ThreadsWaiting s /\
      Current s' = Current s /\ LastState s' = LastState s) \/
     (r = 1 /\ (forall k, o = Some k -> k <= new_priority s (cur_thread s)) /\
      Threads s' = saved s /\ Current s' = (k ← o; ThreadsWaiting s !! k) /\
      match Current s' with
      | Some p => exists t, Threads s' !! p = Some t /\ LastState s' = state t
      | None => LastState s' = idle_state idle (LastState s)
      end)).
Proof.
  intros Hok Hsz. unfold __smp_Switch.
  assert (match Current s with None => Some None | Some c => t ← Threads s !! c; Some (Some t) end =
    Some (cur_thread s)) as Ecur.
  { unfold cur_thread. destruct (Current s) as [c|] eqn:Ec; [|done]. destruct (so_cur s Hok c Ec) as [t Ht].
    cbn [mbind option_bind]. by rewrite Ht. }
  rewrite Ecur. cbn [mbind option_bind].
  set (t := cur_thread s).
  destruct (account_eq s t) as (E1 & E2 & E3 & E4 & E5). set (s0 := account s t) in *.
  assert (sched_ok s0) as Hok0 by (by apply (sched_ok_ext s)).
  destruct (first_runnable_spec s0 Hok0) as (o & -> & Ho). cbn [mbind option_bind].
  assert (new_priority s0 t = new_priority s t) as Epr by (unfold new_priority; by rewrite E4).
  rewrite Epr. apply (is_first_ext s) in Ho; [|done..].
  assert (0 <= new_priority s t < 2 ^ 64) as Hpr.
  { unfold new_priority, UINT64_MAX. change (2 ^ 64) with 18446744073709551616.
    destruct t; [apply u64_range|lia]. }
  destruct (match o with Some k => _ | None => false end) eqn:Eo.
  - exists s0, 0, o. split_and!; [done|done|done|]. left. destruct o as [k|]; [|done]. zbool.
    split_and!; [done|by exists k|done..].
  - destruct (save_current_ok s0 (new_priority s t) Hok0) as (s1 & -> & Hok1 & T1 & L1 & _ & Hsub);
      [by rewrite E2|done|]. cbn [mbind option_bind]. rewrite E2 in Hsub.
    destruct (load_next_ok idle s s1 o Hok1 Hsub Ho) as (s' & -> & Hok' & T' & C' & L').
    cbn [mbind option_bind]. exists s', 1, o. split_and!; [done|done|done|]. right. split_and!.
    + done.
    + intros k ->. by zbool.
    + rewrite T', T1. unfold saved. by rewrite E1, E3, E4, E5.
    + done.
    + destruct (Current s'); [done|]. by rewrite L', L1, E5.
Qed.

(** ** Properties *)

(** C1. The context switch always returns, keeps every thread running or waiting
    exactly once, and picks by key: it returns 0 and changes nothing when the
    least key of a waiting thread that can run is above the current thread's new
    priority; otherwise it returns 1, saves the current thread's registers and
    tick, and loads the registers of that thread, or the idle loop when no
    waiting thread can run. *)
Theorem __smp_Switch_correct idle s :
  sched_ok s -> Z.of_nat (size (ThreadsWaiting s)) + 1 < 2 ^ 64 ->
  exists s' r o, __smp_Switch idle s = Some (s', r) /\ sched_ok s' /\ is_first s o /\
    ((r = 0 /\ (exists k, o = Some k /\ new_priority s (cur_thread s) < k) /\
      Threads s' = Threads s /\ ThreadsWaiting s' = ThreadsWaiting s /\
      Current s' = Current s /\ LastState s' = LastState s) \/
     (r = 1 /\ (forall k, o = Some k -> k <= new_priority s (cur_thread s)) /\
      Threads s' = saved s /\ Current s' = (k ← o; ThreadsWaiting s !! k) /\
      match Current s' with
      | Some p => exists t, Threads s' !! p = Some t /\ LastState s' = state t
      | None => LastState s' = idle_state idle (LastState s)
      end)).
Proof. apply Switch_spec. Qed.

(** ** Starting threads *)

Lemma take_stack_eq s sp s' :
  take_stack s = (sp, s') ->
  Threads s' = Threads s /\ ThreadsWaiting s' = ThreadsWaiting s /\ Current s' = Current s /\ Now s' = Now s.
Proof. unfold take_stack. case_match; intros [= <- <-]; done. Qed.

(** C39. [smp_thread_Start] keeps the invariant, with the new thread waiting at
    priority [Now + nice], entered at the entry point with its arguments in
    the System V registers, exactly when that priority is not taken by a
    waiting thread; if it is, that thread is in no list any more. *)
Theorem smp_thread_Start_correct e s entry args n :
  sched_ok s -> Threads s !! i32 (Idallo s + 1) = None -> Current s <> Some (i32 (Idallo s + 1)) ->
  let '(s', i) := smp_thread_Start e s entry args n in
  let k := u64 (Now s + n) in
  (sched_ok s' <-> ThreadsWaiting s !! k = None) /\
  ThreadsWaiting s' !! k = Some i /\
  (exists t, Threads s' !! i = Some t /\ lastTick t = Now s /\ nice t = n /\ rip (state t) = EntryPoint e /\
     rax (state t) = entry /\ rsp (state t) = stackframe t /\ 
     forall a, args = Some a -> [rdi (state t); rsi (state t); rdx (state t); rcx (state t); r8 (state t); r9 (state t)] =
                            [a_a a; a_b a; a_c a; a_d a; a_e a; a_f a]) /\
  (forall j, ThreadsWaiting s !! k = Some j -> is_Some (Threads s' !! j) /\ Current s' <> Some j /\
     forall q, ThreadsWaiting s' !! q <> Some j).
Proof.
  intros Hok Hnew Hcur. unfold smp_thread_Start. destruct (take_stack s) as [sp s1] eqn:Es.
  destruct (take_stack_eq _ _ _ Es) as (E1 & E2 & E3 & E4). clear Es. rewrite Hnew, E1, E2.
  set (i := i32 (Idallo s + 1)) in *. set (t := mk_thread i _ _ _ _ _ _ _). set (k := u64 (Now s + n)).
  assert (forall j q, ThreadsWaiting s !! q = Some j -> j <> i) as Hold.
  { intros j q Hq ->. destruct (so_wait s Hok _ _ Hq) as [[? Ht] _]. congruence. }
  assert (forall j, ThreadsWaiting s !! k = Some j -> forall q, <[k := i]> (ThreadsWaiting s) !! q <> Some j) as Hlost.
  { intros j Hj q Hq. apply lookup_insert_Some in Hq as [[? ?]|[Hne Hq]]; [by destruct (Hold j k Hj)|].
    by apply Hne, (so_inj s Hok k q j). }
  split_and!.
  - split.
    + intros Hok'. destruct (ThreadsWaiting s !! k) as [j|] eqn:Ek; [exfalso|done].
      destruct (so_wait s Hok _ _ Ek) as [[tj Hj] Hcj].
      destruct (so_all _ Hok' j tj) as [Hc|[q Hq]].
      * cbn. rewrite lookup_insert_ne; [done|]. intros E. by apply (Hold j k).
      * cbn in Hc. congruence.
      * cbn in Hq. by apply (Hlost j eq_refl q).
    + intros Hk. destruct Hok as [H1 H2 H3 H4 H5 H6]. split; cbn; rewrite ?E3.
      * intros j tj. rewrite lookup_insert_Some. intros [[<- <-]|[_ Hj]]; [done|by apply H1].
      * intros q j. rewrite lookup_insert_Some. intros [[<- <-]|[_ Hq]]; [by rewrite lookup_insert_eq|].
        destruct (H2 _ _ Hq) as [? ?]. rewrite lookup_insert_ne; [done|]. intros E. by apply (Hold j q).
      * intros q q' j [[? ?]|[? Hq]]%lookup_insert_Some [[? ?]|[? Hq']]%lookup_insert_Some.
        -- congruence.
        -- by destruct (Hold j q' Hq').
        -- by destruct (Hold j q Hq).
        -- by apply (H3 _ _ j).
      * intros j tj. rewrite lookup_insert_Some. intros [[<- <-]|[Hne Hj]]; [right; exists k; by rewrite lookup_insert_eq|].
        destruct (H4 _ _ Hj) as [?|[q Hq]]; [by left|right]. exists q. rewrite lookup_insert_ne; [done|congruence].
      * intros c Hc. destruct (H5 _ Hc). rewrite lookup_insert_ne; [done|congruence].
      * intros q j. rewrite lookup_insert_Some. intros [[<- _]|[_ Hq]]; [apply u64_range|by apply (H6 _ j)].
  - cbn. by rewrite lookup_insert_eq.
  - exists t. cbn. rewrite lookup_insert_eq. split_and!; try done; [by destruct args..|].
    intros a ->. done.
  - intros j Hj. cbn. rewrite E3. destruct (so_wait s Hok _ _ Hj) as [? ?]. split_and!; [|done|by apply Hlost].
    rewrite lookup_insert_ne; [done|]. intros E. by apply (Hold j k).
Qed.

(** ** Blocking without leaving the processor *)

(** Changing the current thread's record. *)
Lemma modify_ok s c t t' :
  sched_ok s -> Threads s !! c = Some t -> id t' = id t -> sched_ok (set_threads (<[c := t']> (Threads s)) s).
Proof.
  intros [H1 H2 H3 H4 H5 H6] Ht Hid.
  assert (forall i, is_Some (<[c := t']> (Threads s) !! i) <-> is_Some (Threads s !! i)) as Hd.
  { intros i. destruct (decide (i = c)) as [->|Hne]; [rewrite lookup_insert_eq, Ht|by rewrite lookup_insert_ne].
    by split; intros _; eexists. }
  split; cbn.
  - intros i u. rewrite lookup_insert_Some. intros [[<- <-]|[_ Hi]]; [rewrite Hid; by apply H1|by apply H1].
  - intros p i Hp. rewrite Hd. by apply (H2 p).
  - done.
  - intros i u Hi. destruct (proj1 (Hd i)) as [v Hv]; [by eexists|by apply (H4 i v)].
  - intros i Hi. apply Hd. by apply H5.
  - done.
Qed.
Lemma is_first_modify s c t' o :
  sched_ok s -> Current s = Some c -> is_first s o -> is_first (set_threads (<[c := t']> (Threads s)) s) o.
Proof.
  intros Hok Hc.
  assert (forall q p, ThreadsWaiting s !! q = Some p -> <[c := t']> (Threads s) !! p = Threads s !! p) as Hw.
  { intros q p Hq. destruct (so_wait s Hok _ _ Hq) as [_ Hne]. rewrite lookup_insert_ne; [done|congruence]. }
  destruct o as [k|]; cbn.
  - intros [(p & t & Hp & Ht & Hb) Hlt]. split.
    + exists p, t. by rewrite (Hw k p).
    + intros k' p' u Hlt' Hp'. rewrite (Hw k' p') by done. by apply (Hlt k').
  - intros Hn k p u Hp. rewrite (Hw k p) by done. by apply (Hn k).
Qed.

(** Yielding while every runnable waiting thread has a key above the current
    thread's new priority changes nothing, whatever the thread waits for. *)
Lemma Yield_stays idle s regs c k :
  sched_ok s -> Z.of_nat (size (ThreadsWaiting s)) + 1 < 2 ^ 64 -> Current s = Some c -> 
  is_first s (Some k) -> new_priority s (cur_thread s) < k ->
  exists s', smp_thread_Yield idle s regs = Some s' /\ Current s' = Some c /\ LastState s' = regs /\
    Threads s' = Threads s /\ ThreadsWaiting s' = ThreadsWaiting s.
Proof.
  intros Hok Hsz Hc Hf Hk. unfold smp_thread_Yield, __smp_IntSwitch. cbn [PauseTicker set_ticker Now].
  set (s1 := set_last regs _).
  destruct (Switch_spec idle s1) as (s' & r & o & -> & _ & Ho & Hr); [by apply (sched_ok_ext s)|done|].
  cbn [mbind option_bind]. exists s'. split; [done|].
  assert (is_first s o) as Ho' by (by apply (is_first_ext s s1)).
  assert (o = Some k) as ->.
  { destruct Hf as [(p & t & Hp & Ht & Hb) Hlt]. destruct o as [k'|]; [|by rewrite (Ho' k p t) in Hb].
    destruct Ho' as [(p' & t' & Hp' & Ht' & Hb') Hlt']. f_equal.
    destruct (Z.lt_trichotomy k k') as [?|[?|?]]; [|done|].
    - by rewrite (Hlt' k p t) in Hb.
    - by rewrite (Hlt k' p' t') in Hb'. }
  destruct Hr as [(_ & _ & E1 & E2 & E3 & E4)|(_ & Hle & _)]; [by rewrite E3, E4, E1, E2|].
  specialize (Hle k eq_refl). change (new_priority s1 (cur_thread s1)) with (new_priority s (cur_thread s)) in Hle. lia.
Qed.

(** A sleeping thread may not sleep: when the first runnable waiting thread
    has a key above the caller's new priority, [smp_thread_Sleep] returns to the
    caller at once, whatever the number of ticks, because the switch never
    tests whether the current thread is itself blocked. *)
Theorem smp_thread_Sleep_returns e s ticks regs c t k :
  sched_ok s -> Z.of_nat (size (ThreadsWaiting s)) + 1 < 2 ^ 64 ->
  Current s = Some c -> Threads s !! c = Some t -> is_first s (Some k) -> new_priority s (Some t) < k ->
  exists s', smp_thread_Sleep e s ticks regs = Some s' /\ Current s' = Some c /\ LastState s' = regs /\
    Threads s' !! c = Some (t_set_sleep (u64 (Now s + ticks)) t).
Proof.
  intros Hok Hsz Hc Ht Hf Hk. unfold smp_thread_Sleep. rewrite Hc. cbn [mbind option_bind].
  unfold modify_thread. rewrite Ht. cbn [mbind option_bind].
  set (s1 := set_threads _ s).
  assert (sched_ok s1) as Hok1 by (by apply (modify_ok s c t)).
  destruct (Yield_stays (Switch_Idle e) s1 regs c k) as (s' & -> & ? & ? & E & _); try done.
  - by apply is_first_modify.
  - unfold cur_thread. subst s1. cbn [Current set_threads]. rewrite Hc. cbn [mbind option_bind Threads set_threads].
    by rewrite lookup_insert_eq.
  - exists s'. split_and!; try done. rewrite E. subst s1. cbn. by rewrite lookup_insert_eq.
Qed.

(** The stack pool keeps the upper end of a stack, and taking it from the pool
    adds a page again: a reused stack starts one page above the freed one. *)
Lemma stack_reuse_drift s page :
  StackPool s = {[page + 4096]} -> 0 <= page -> page + 8192 < 2 ^ 64 -> (take_stack s).1 = page + 8192.
Proof.
  change (2 ^ 64) with 18446744073709551616. intros E H0 H1. unfold take_stack. rewrite E, elements_singleton.
  cbn. rewrite u64_small; lia.
Qed.

(** ** Witnesses *)

Definition demo_regs : smp_thread_State := mk_state 0 0 0 0 0 0 0 0 0 0 0 0 0 0 0 0 2 77 8 16.
Definition demo_env : env :=
  mk_env (mk_thread 0 0 0 0 None demo_regs 0 0) (mk_wait 0 0 0 __smp_Thread_Waiting_Mutex) 1 2 3.
Definition demo_thread (i : Z) : __smp_Thread :=
  mk_thread i 80 1 0 (Some (new_wait demo_env)) demo_regs 4096 0.
Definition demo_smp : smp :=
  mk_smp 5 false (Some 1) 2 {[1 := demo_thread 1; 2 := demo_thread 2]} {[200 := 2]} ∅ demo_regs 0 0 0 0
    0xFFFFFFFEC0000000 [] None.
Lemma demo_smp_ok : sched_ok demo_smp.
Proof.
  split; cbn [demo_smp Threads ThreadsWaiting Current].
  - intros i t [[<- <-]|[_ [<- <-]%lookup_singleton_Some]]%lookup_insert_Some; done.
  - intros p i [<- <-]%lookup_singleton_Some. split; [by eexists|done].
  - intros p q i [<- <-]%lookup_singleton_Some [<- _]%lookup_singleton_Some. done.
  - intros i t [[<- <-]|[_ [<- <-]%lookup_singleton_Some]]%lookup_insert_Some; [by left|right].
    exists 200. apply lookup_singleton_eq.
  - intros c [= <-]. by eexists.
  - intros p i [<- <-]%lookup_singleton_Some. done.
Qed.
Lemma demo_first : is_first demo_smp (Some 200).
Proof.
  split; [exists 2, (demo_thread 2); by split_and!|].
  intros k p t Hk Hp _. change (({[200 := 2]} : gmap Z Z) !! k = Some p) in Hp.
  apply lookup_singleton_Some in Hp as [<- _]. lia.
Qed.
Lemma __smp_Switch_correct_witness :
  exists s' r o, __smp_Switch 3 demo_smp = Some (s', r) /\ sched_ok s' /\ is_first demo_smp o.
Proof.
  destruct (__smp_Switch_correct 3 demo_smp demo_smp_ok ltac:(done)) as (s' & r & o & H1 & H2 & H3 & _).
  by exists s', r, o.
Defined.
Lemma smp_thread_Start_correct_witness :
  let '(s', i) := smp_thread_Start demo_env demo_smp 99 None 195 in
  i = 3 /\ ~ sched_ok s' /\ forall q, ThreadsWaiting s' !! q <> Some 2.
Proof.
  pose proof (smp_thread_Start_correct demo_env demo_smp 99 None 195 demo_smp_ok eq_refl ltac:(done)) as Hs.
  destruct (smp_thread_Start demo_env demo_smp 99 None 195) as [s' i] eqn:E.
  destruct Hs as (H1 & _ & _ & H2). split; [|split].
  - by inversion E.
  - intros Hok. apply H1 in Hok. done.
  - by apply (H2 2).
Defined.
Lemma smp_thread_Sleep_returns_witness :
  exists s', smp_thread_Sleep demo_env demo_smp 1000 demo_regs = Some s' /\ Current s' = Some 1.
Proof.
  destruct (smp_thread_Sleep_returns demo_env demo_smp 1000 demo_regs 1 (demo_thread 1) 200 demo_smp_ok
    ltac:(done) eq_refl eq_refl demo_first ltac:(by vm_compute)) as (s' & H1 & H2 & _).
  by exists s'.
Defined.
