(* ===== verification/Sync.v ===== *)
(** * Conditions and mutexes (src/smp/condiction.c, mutex.c)

    Objects are found by address; their vectors of waiting threads are the
    lists they hold (Vector.v).  A call that waits is split where it gives up
    the processor: the part before [smp_thread_Yield] and the result read from
    the wait block when the thread runs again. *)

From S2P Require Import Prelude Paging Heap Kthread.

Record smp_Mutex := mk_mutex { locked : Z; waiting : list Z }.
Record sync := mk_sync {
  sched : smp;
  conds : gmap Z (list Z);          (* smp_Condition: threads *)
  mutexes : gmap Z smp_Mutex;
}.
Definition set_sched (x : smp) (s : sync) : sync := mk_sync x (conds s) (mutexes s).
Definition set_conds (x : gmap Z (list Z)) (s : sync) : sync := mk_sync (sched s) x (mutexes s).
Definition set_mutexes (x : gmap Z smp_Mutex) (s : sync) : sync := mk_sync (sched s) (conds s) x.

(** Writes through [t->wait], which must not be NULL. *)
Definition modify_wait (s : sync) (t : Z) (f : __smp_Thread_Waiting -> __smp_Thread_Waiting) : option sync :=
  th ← Threads (sched s) !! t;
  w ← wait th;
  Some (set_sched (set_threads (<[t := t_set_wait (Some (f w)) th]> (Threads (sched s))) (sched s)) s).
(** Fills the wait block of thread [t], allocating it if needed. *)
Definition fill_wait (s : sync) (t : Z) (w : __smp_Thread_Waiting) : option sync :=
  th ← Threads (sched s) !! t;
  Some (set_sched (set_threads (<[t := t_set_wait (Some w) th]> (Threads (sched s))) (sched s)) s).
Definition wait_data (s : sync) (t : Z) : option Z :=
  th ← Threads (sched s) !! t; w ← wait th; Some (w_data w).

(** ** Conditions *)

Definition smp_Condition_Create (s : sync) (addr : Z) : sync := set_conds (<[addr := []]> (conds s)) s.
(** The part of [smp_Condition_Wait] before the yield; its result is [wait_data]. *)
Definition smp_Condition_Wait (s : sync) (c : Z) : option sync :=
  t ← Current (sched s);
  s ← fill_wait s t (mk_wait c 0 0 __smp_Thread_Waiting_Condiction);
  l ← conds s !! c;
  Some (set_conds (<[c := l ++ [t]]> (conds s)) s).
Definition notify (data : Z) (w : __smp_Thread_Waiting) : __smp_Thread_Waiting :=
  mk_wait 0 data (timeout w) (w_type w).
Definition smp_Condition_NotifyOne (s : sync) (c data : Z) : option (sync * bool) :=
  l ← conds s !! c;
  match last l with
  | None => Some (s, false)
  | Some t =>
      s ← modify_wait s t (notify data);
      Some (set_conds (<[c := take (length l - 1) l]> (conds s)) s, true)
  end.
Fixpoint notify_each (s : sync) (l : list Z) (data : Z) : option sync :=
  match l with
  | [] => Some s
  | t :: l => s ← modify_wait s t (notify data); notify_each s l data
  end.
Definition smp_Condition_NotifyAll (s : sync) (c data : Z) : option (sync * Z) :=
  l ← conds s !! c;
  if Z.of_nat (length l) =? 0 then Some (s, 0)
  else
    s ← notify_each s l data;
    Some (set_conds (<[c := []]> (conds s)) s, 1).
Definition smp_Condition_Destroy (s : sync) (c : Z) : option sync :=
  '(s, _) ← smp_Condition_NotifyAll s c UINT64_MAX;
  Some (set_conds (delete c (conds s)) s).

(** ** Mutexes *)

Definition smp_Mutex_Create (s : sync) (addr : Z) : sync :=
  set_mutexes (<[addr := mk_mutex 0 []]> (mutexes s)) s.
Definition smp_Mutex_Destroy (s : sync) (addr : Z) : sync :=
  set_mutexes (delete addr (mutexes s)) s.
(** [Some true] when the lock is taken at once; [None] when the thread has put
    itself in the list and yields: its result is then [wait_data]. *)
Definition smp_Mutex_LockTimeout (s : sync) (m ticks : Z) : option (sync * option bool) :=
  mu ← mutexes s !! m;
  if locked mu =? 0
  then Some (set_mutexes (<[m := mk_mutex 1 (waiting mu)]> (mutexes s)) s, Some true)
  else
    t ← Current (sched s);
    s ← fill_wait s t (mk_wait m 0 (if negb (ticks =? 0) then u64 (Now (sched s) + ticks) else 0)
                         __smp_Thread_Waiting_Mutex);
    Some (set_mutexes (<[m := mk_mutex (locked mu) (waiting mu ++ [t])]> (mutexes s)) s, None).
Definition smp_Mutex_Lock (s : sync) (m : Z) : option (sync * option bool) := smp_Mutex_LockTimeout s m 0.
Definition smp_Mutex_TryLock (s : sync) (m : Z) : option (sync * bool) :=
  mu ← mutexes s !! m;
  if locked mu =? 0
  then Some (set_mutexes (<[m := mk_mutex 1 (waiting mu)]> (mutexes s)) s, true)
  else Some (s, false).
(** Fails (panics) on a mutex that is not held. *)
Definition smp_Mutex_Unlock (s : sync) (m : Z) : option sync :=
  mu ← mutexes s !! m;
  if locked mu =? 0 then None
  else match last (waiting mu) with
       | Some t =>
           s ← modify_wait s t (fun w => mk_wait 0 1 0 (w_type w));
           Some (set_mutexes (<[m := mk_mutex (locked mu) (take (length (waiting mu) - 1) (waiting mu))]>
                                (mutexes s)) s)
       | None => Some (set_mutexes (<[m := mk_mutex 0 (waiting mu)]> (mutexes s)) s)
       end.
