(* ===== verification/Mutex.v ===== *)
(** * Mutual exclusion and wake-ups (mutex.c, condiction.c)

    The mutex functions of Sync.v as a state machine of threads that lock,
    wait, run on and unlock one mutex: at most one thread holds it whatever the
    scheduler does, and no wake-up is lost under a scheduler that does not run
    waiting threads; and what the notifications of a condition do. *)

From S2P Require Import Prelude Mem Queue Paging Heap Kthread Sched Sync.

(** Threads that hold the mutex - a call of theirs has returned true, and they
    have not unlocked it since - and threads that yielded in a [LockTimeout]. *)
Record mstate := mk_mstate { st : sync; crit : gset Z; pend : gset Z }.
Definition run_as (t : Z) (s : sync) : sync := set_sched (set_current (Some t) (sched s)) s.
Definition still_waiting (s : sync) (t : Z) : Prop :=
  exists th, Threads (sched s) !! t = Some th /\
    __smp_Thread_Waiting_IsWaiting (Now (sched s)) (wait th) = true.

Section Mutex.
(** The mutex. *)
Variable m : Z.

(** One step of one thread: a call that returns, a call that starts to wait, a
    thread that runs on behind its yield and returns what its wait block says,
    or a clock tick.  [orderly] asks for what the scheduler of the source does
    not ensure, that a thread runs on only when its wait is over, and for locks
    without a time limit; without it any thread runs on at any time. *)
Inductive mstep (orderly : bool) : mstate -> mstate -> Prop :=
  | ms_lock x t ticks s' :
      is_Some (Threads (sched (st x)) !! t) -> t ∉ crit x -> t ∉ pend x ->
      smp_Mutex_LockTimeout (run_as t (st x)) m ticks = Some (s', Some true) ->
      mstep orderly x (mk_mstate s' ({[t]} ∪ crit x) (pend x))
  | ms_block x t ticks s' :
      is_Some (Threads (sched (st x)) !! t) -> t ∉ crit x -> t ∉ pend x -> (orderly = true -> ticks = 0) ->
      smp_Mutex_LockTimeout (run_as t (st x)) m ticks = Some (s', None) ->
      mstep orderly x (mk_mstate s' (crit x) ({[t]} ∪ pend x))
  | ms_resume x t d :
      t ∈ pend x -> (orderly = true -> ~ still_waiting (st x) t) -> wait_data (st x) t = Some d ->
      mstep orderly x (mk_mstate (st x) (if d =? 0 then crit x else {[t]} ∪ crit x) (pend x ∖ {[t]}))
  | ms_try x t s' b :
      is_Some (Threads (sched (st x)) !! t) -> t ∉ crit x -> t ∉ pend x ->
      smp_Mutex_TryLock (run_as t (st x)) m = Some (s', b) ->
      mstep orderly x (mk_mstate s' (if b then {[t]} ∪ crit x else crit x) (pend x))
  | ms_unlock x t s' :
      t ∈ crit x -> smp_Mutex_Unlock (run_as t (st x)) m = Some s' ->
      mstep orderly x (mk_mstate s' (crit x ∖ {[t]}) (pend x))
  | ms_tick x now :
      mstep orderly x (mk_mstate (set_sched (set_ticker now (PauseTicker (sched (st x))) (sched (st x))) (st x))
                 (crit x) (pend x)).
(** A mutex just created, no thread using it. *)
Inductive mreach (orderly : bool) : mstate -> Prop :=
  | mr_init s : mreach orderly (mk_mstate (smp_Mutex_Create s m) ∅ ∅)
  | mr_step x y : mreach orderly x -> mstep orderly x y -> mreach orderly y.

(** Granted: waiting threads the mutex has been handed to. *)
Record mutex_inv (x : mstate) (mu : smp_Mutex) (granted : gset Z) : Prop := {
  mi_mutex : mutexes (st x) !! m = Some mu;
  mi_nodup : NoDup (waiting mu);
  mi_pend : pend x = granted ∪ list_to_set (waiting mu);
  mi_disj : granted ## list_to_set (waiting mu);
  mi_crit : crit x ## pend x;
  mi_wait : forall t, t ∈ waiting mu -> exists th w, Threads (sched (st x)) !! t = Some th /\
    wait th = Some w /\ object w = m /\ timeout w = 0;
  mi_one : size (crit x ∪ granted) = if locked mu =? 0 then 0%nat else 1%nat;
  mi_free : locked mu = 0 -> waiting mu = [];
  mi_granted : forall t, t ∈ granted -> exists th w, Threads (sched (st x)) !! t = Some th /\
    wait th = Some w /\ object w = 0 /\ w_data w = 1;
}.
Hypothesis m_nonnull : m <> 0.

Lemma inv_waiting x mu g t : mutex_inv x mu g -> t ∈ waiting mu -> still_waiting (st x) t.
Proof.
  intros Hi Ht. destruct (mi_wait _ _ _ Hi t Ht) as (th & w & E1 & E2 & E3 & E4).
  exists th. split; [done|]. rewrite E2. unfold __smp_Thread_Waiting_IsWaiting. rewrite E3, E4.
  destruct (Z.eqb_spec m 0); done.
Qed.
Lemma size_one_add (c g : gset Z) t :
  size (c ∪ g) = 0%nat -> size (({[t]} ∪ c) ∪ g) = 1%nat.
Proof.
  intros E. apply size_empty_iff in E. assert (({[t]} ∪ c) ∪ g ≡ {[t]}) as -> by set_solver.
  apply size_singleton.
Qed.

(** What the calls do, from their results. *)
Lemma Lock_cases s t ticks s' r mu :
  smp_Mutex_LockTimeout (run_as t s) m ticks = Some (s', r) -> mutexes s !! m = Some mu ->
  (locked mu = 0 /\ r = Some true /\ mutexes s' !! m = Some (mk_mutex 1 (waiting mu)) /\
    Threads (sched s') = Threads (sched s)) \/
  (locked mu <> 0 /\ r = None /\ mutexes s' !! m = Some (mk_mutex (locked mu) (waiting mu ++ [t])) /\
    exists th, Threads (sched s) !! t = Some th /\
      Threads (sched s') = <[t := t_set_wait (Some (mk_wait m 0 (if negb (ticks =? 0) then u64 (Now (sched s) + ticks) else 0)
        __smp_Thread_Waiting_Mutex)) th]> (Threads (sched s))).
Proof.
  unfold smp_Mutex_LockTimeout. cbn [run_as set_sched mutexes sched set_current Current].
  intros Hl Hm. rewrite Hm in Hl. cbn [mbind option_bind] in Hl. destruct (Z.eqb_spec (locked mu) 0) as [E|E].
  - injection Hl as <- <-. left. cbn. by rewrite lookup_insert_eq.
  - right. unfold fill_wait in Hl.
    change (Threads (sched (run_as t s))) with (Threads (sched s)) in Hl.
    destruct (Threads (sched s) !! t) as [th|]; [|done]. cbn in Hl. injection Hl as <- <-.
    split_and!; [done|done|cbn; by rewrite lookup_insert_eq|by exists th].
Qed.
Lemma TryLock_cases s t s' b mu :
  smp_Mutex_TryLock (run_as t s) m = Some (s', b) -> mutexes s !! m = Some mu ->
  Threads (sched s') = Threads (sched s) /\ b = (locked mu =? 0) /\
  mutexes s' !! m = Some (if b then mk_mutex 1 (waiting mu) else mu).
Proof.
  unfold smp_Mutex_TryLock. cbn [run_as set_sched mutexes sched]. intros Hl Hm. rewrite Hm in Hl.
  cbn [mbind option_bind] in Hl. destruct (locked mu =? 0); injection Hl as <- <-; cbn; [|done].
  by rewrite lookup_insert_eq.
Qed.
Lemma Unlock_cases s t s' mu :
  smp_Mutex_Unlock (run_as t s) m = Some s' -> mutexes s !! m = Some mu ->
  locked mu <> 0 /\
  ((waiting mu = [] /\ mutexes s' !! m = Some (mk_mutex 0 []) /\ Threads (sched s') = Threads (sched s)) \/
   exists l u th w, waiting mu = l ++ [u] /\ mutexes s' !! m = Some (mk_mutex (locked mu) l) /\
     Threads (sched s) !! u = Some th /\ wait th = Some w /\
     Threads (sched s') = <[u := t_set_wait (Some (mk_wait 0 1 0 (w_type w))) th]> (Threads (sched s))).
Proof.
  unfold smp_Mutex_Unlock. cbn [run_as set_sched mutexes sched]. intros Hl Hm. rewrite Hm in Hl.
  cbn [mbind option_bind] in Hl. destruct (Z.eqb_spec (locked mu) 0) as [E|E]; [done|]. split; [done|].
  destruct (last (waiting mu)) as [u|] eqn:El.
  - right. apply last_Some in El as [l El]. rewrite El in *.
    rewrite length_app, Nat.add_sub, take_app_length in Hl.
    unfold modify_wait in Hl.
    change (Threads (sched (run_as t s))) with (Threads (sched s)) in Hl.
    destruct (Threads (sched s) !! u) as [th|] eqn:Et; [|done]. cbn [mbind option_bind] in Hl.
    destruct (wait th) as [w|] eqn:Ew; [|done]. cbn in Hl. injection Hl as <-.
    exists l, u, th, w. cbn. by rewrite lookup_insert_eq.
  - left. apply last_None in El. injection Hl as <-. cbn. rewrite El. by rewrite lookup_insert_eq.
Qed.

(** The invariant when only the mutex and the sets change. *)
Lemma inv_intro s c p mu g :
  mutexes s !! m = Some mu -> NoDup (waiting mu) -> p = g ∪ list_to_set (waiting mu) ->
  g ## list_to_set (waiting mu) -> c ## p ->
  (forall t, t ∈ waiting mu -> exists th w, Threads (sched s) !! t = Some th /\
    wait th = Some w /\ object w = m /\ timeout w = 0) ->
  size (c ∪ g) = (if locked mu =? 0 then 0%nat else 1%nat) -> (locked mu = 0 -> waiting mu = []) ->
  (forall t, t ∈ g -> exists th w, Threads (sched s) !! t = Some th /\ wait th = Some w /\ object w = 0 /\ w_data w = 1) ->
  exists mu' g', mutex_inv (mk_mstate s c p) mu' g'.
Proof. intros. exists mu, g. by split. Qed.

Lemma no_crit (c g : gset Z) t : c ∪ g ≡ {[t]} -> t ∉ g -> c ∖ {[t]} ∪ g ≡ ∅.
Proof.
  intros E Hg u. split; [|by intros ?%not_elem_of_empty]. intros Hu. exfalso.
  assert (u ∈ c ∪ g) as Hcg by (apply elem_of_union; apply elem_of_union in Hu as [[? _]%elem_of_difference|?]; auto).
  rewrite E in Hcg. apply elem_of_singleton in Hcg as ->.
  apply elem_of_union in Hu as [[_ Hn]%elem_of_difference|?]; [|done]. by apply Hn, elem_of_singleton.
Qed.
Lemma mstep_inv x y mu g :
  mutex_inv x mu g -> mstep true x y -> exists mu' g', mutex_inv y mu' g'.
Proof.
  intros Hi Hs. pose proof (fun t => inv_waiting x mu g t Hi) as Hsw. destruct Hi as [Hm Hnd Hp Hd Hc Hw H1 Hf Hgr].
  assert (Hw1 : forall (t : Z) (s' : sync) f, t ∉ pend x ->
    Threads (sched s') = <[t := f]> (Threads (sched (st x))) ->
    forall u, u ∈ waiting mu -> exists th w, Threads (sched s') !! u = Some th /\
    wait th = Some w /\ object w = m /\ timeout w = 0).
  { intros t s' f Hnp -> u Hu. rewrite lookup_insert_ne; [by apply Hw|]. intros ->. apply Hnp. rewrite Hp. set_solver. }
  destruct Hs as [x t ticks s' Ht Hnc Hnp Hl|x t ticks s' Ht Hnc Hnp Htk Hl|x t d Htp Hns Hd1|x t s' b Ht Hnc Hnp Hl|x t s' Htc Hl|x now];
    cbn [st crit pend] in *.
  - (* lock *)
    destruct (Lock_cases _ _ _ _ _ _ Hl Hm) as [(E & _ & Hm' & ET)|(_ & ? & _)]; [|done].
    apply (inv_intro _ _ _ _ g Hm'); cbn [waiting locked]; rewrite ?ET; try done; [set_solver|].
    rewrite (proj2 (Z.eqb_eq _ _) E) in H1. by apply size_one_add.
  - (* block *)
    specialize (Htk eq_refl) as ->.
    destruct (Lock_cases _ _ _ _ _ _ Hl Hm) as [(_ & ? & _)|(E & _ & Hm' & th & Hth & ET)]; [done|].
    apply (inv_intro _ _ _ _ g Hm'); cbn [waiting locked].
    + apply NoDup_app. split_and!; [done| |apply NoDup_singleton].
      intros u Hu Hut. apply list_elem_of_singleton in Hut as ->. apply Hnp. rewrite Hp. set_solver.
    + rewrite list_to_set_app_L, Hp. set_solver.
    + rewrite list_to_set_app_L. set_solver.
    + set_solver.
    + intros u Hu. apply elem_of_app in Hu as [Hu|Hu]; [by apply (Hw1 t s' _ Hnp ET)|].
      apply list_elem_of_singleton in Hu as ->.
      rewrite ET, lookup_insert_eq. by eexists _, _.
    + done.
    + done.
    + intros u Hu. rewrite ET, lookup_insert_ne; [by apply Hgr|]. intros ->. apply Hnp. rewrite Hp. apply elem_of_union. by left.
  - (* resume: the thread has been granted the mutex *)
    specialize (Hns eq_refl).
    assert (t ∈ g) as Hg.
    { rewrite Hp in Htp. apply elem_of_union in Htp as [?|Hin]; [done|].
      apply elem_of_list_to_set in Hin. by destruct Hns; apply Hsw. }
    destruct (Hgr t Hg) as (th & w & Eth & Ew & _ & Ed). unfold wait_data in Hd1. rewrite Eth in Hd1. cbn [mbind option_bind] in Hd1.
    rewrite Ew in Hd1. cbn [mbind option_bind] in Hd1. injection Hd1 as <-. rewrite Ed. change (1 =? 0) with false.
    apply (inv_intro _ _ _ mu (g ∖ {[t]}) Hm); try done.
    + rewrite Hp. set_solver.
    + set_solver.
    + set_solver.
    + rewrite <- H1. f_equal. apply set_eq. intros u. destruct (decide (u = t)); set_solver.
    + intros u Hu. apply Hgr. clear -Hu. set_solver.
  - (* try *)
    destruct (TryLock_cases _ _ _ _ _ Hl Hm) as (ET & -> & Hm').
    destruct (Z.eqb_spec (locked mu) 0) as [E|E].
    + apply (inv_intro _ _ _ _ g Hm'); cbn [waiting locked]; rewrite ?ET; try done; [set_solver|].
      by apply size_one_add.
    + apply (inv_intro _ _ _ mu g Hm'); rewrite ?ET; try done.
      destruct (Z.eqb_spec (locked mu) 0); done.
  - (* unlock *)
    destruct (Unlock_cases _ _ _ _ Hl Hm) as [Hlk Hcase]. rewrite (proj2 (Z.eqb_neq _ _) Hlk) in H1.
    assert (t ∉ g) as Htg by (clear -Hp Hc Htc; set_solver).
    assert (crit x ∪ g ≡ {[t]}) as Ht.
    { destruct (size_1_elem_of _ H1) as [v Hv]. assert (t ∈ crit x ∪ g) as Htv by (apply elem_of_union; by left).
      rewrite Hv in Htv. by apply elem_of_singleton in Htv as ->. }
    destruct Hcase as [(Hnil & Hm' & ET)|(l & u & th & w & El & Hm' & Hth & Hwt & ET)].
    + rewrite Hnil in *. apply (inv_intro _ _ _ _ g Hm'); cbn [waiting locked]; try done.
      * clear -Hc. set_solver.
      * intros u Hu. by apply not_elem_of_nil in Hu.
      * apply size_empty_iff. by apply no_crit.
      * intros u Hu. rewrite ET. by apply Hgr.
    + rewrite El in *. apply NoDup_app in Hnd as (Hnl & Hnd & _).
      rewrite list_to_set_app_L in *.
      apply (inv_intro _ _ _ _ (g ∪ {[u]}) Hm'); cbn [waiting locked].
      * done.
      * rewrite Hp. clear; set_solver.
      * clear -Hd Hnd; set_solver.
      * clear -Hc; set_solver.
      * intros v Hv. rewrite ET, lookup_insert_ne; [apply Hw, elem_of_app; by left|]. intros E. apply (Hnd v Hv). by apply list_elem_of_singleton.
      * rewrite (proj2 (Z.eqb_neq _ _) Hlk).
        assert (crit x ∖ {[t]} ∪ (g ∪ {[u]}) ≡ {[u]}) as ->.
        { rewrite (assoc_L (∪)). rewrite (no_crit (crit x) g t Ht Htg). apply (left_id ∅ (∪)). } apply size_singleton.
      * done.
      * intros v Hv. rewrite ET. destruct (decide (v = u)) as [->|Hne].
        { rewrite lookup_insert_eq. by eexists _, _. }
        rewrite lookup_insert_ne by done. apply Hgr. clear -Hv Hne. set_solver.
  - (* tick *) by apply (inv_intro _ _ _ mu g).
Qed.

Lemma mreach_inv x : mreach true x -> exists mu g, mutex_inv x mu g.
Proof.
  induction 1 as [s|x y _ IH Hs].
  - exists (mk_mutex 0 []), ∅. split; cbn; try done;
      first [by rewrite lookup_insert_eq | by apply NoDup_nil_2 | set_solver
            | intros t Ht; by apply not_elem_of_nil in Ht || by apply not_elem_of_empty in Ht].
  - destruct IH as (mu & g & Hi). by apply (mstep_inv x y mu g).
Qed.
Lemma granted_not_waiting x mu g t : mutex_inv x mu g -> t ∈ g -> ~ still_waiting (st x) t.
Proof.
  intros Hi Ht (th & E & Hwt). destruct (mi_granted _ _ _ Hi t Ht) as (th' & w & E' & Ew & Eo & _).
  assert (th' = th) as -> by congruence. rewrite Ew in Hwt. cbn in Hwt. by rewrite Eo in Hwt.
Qed.

(** *** Any scheduler *)

(** Threads that yielded and have been handed the mutex since. *)
Definition handed (x : mstate) (t : Z) : Prop := t ∈ pend x /\ exists d, wait_data (st x) t = Some d /\ d <> 0.
Record hold_inv (x : mstate) (mu : smp_Mutex) : Prop := {
  hi_mutex : mutexes (st x) !! m = Some mu;
  hi_apart : crit x ## pend x;
  hi_one : forall t u, t ∈ crit x \/ handed x t -> u ∈ crit x \/ handed x u -> t = u;
  hi_locked : forall t, t ∈ crit x \/ handed x t -> locked mu <> 0;
}.
Lemma handed_same s s' c p c' p' t : Threads (sched s') = Threads (sched s) -> (t ∈ p' -> t ∈ p) ->
  handed (mk_mstate s' c' p') t -> handed (mk_mstate s c p) t.
Proof. intros ET Hp [Ht Hd]. split; [by apply Hp|]. unfold wait_data in *. cbn [st] in *. by rewrite ET in Hd. Qed.

(** The mutex is taken by a thread while it is free. *)
Lemma hold_take x mu s' t : hold_inv x mu -> locked mu = 0 -> t ∉ pend x -> Threads (sched s') = Threads (sched (st x)) ->
  mutexes s' !! m = Some (mk_mutex 1 (waiting mu)) -> hold_inv (mk_mstate s' ({[t]} ∪ crit x) (pend x)) (mk_mutex 1 (waiting mu)).
Proof.
  intros [_ Ha H1 Hl] E Ht ET Hm. destruct x as [s c p]. cbn [st crit pend] in *.
  assert (forall u, u ∈ {[t]} ∪ c \/ handed (mk_mstate s' ({[t]} ∪ c) p) u -> u = t) as Hone.
  { intros u [[?%elem_of_singleton|Hu]%elem_of_union|Hu]; [done|by destruct (Hl u (or_introl Hu))|].
    destruct (Hl u); [right|done]. by apply (handed_same s s' c p ({[t]} ∪ c) p u ET). }
  split; cbn [st crit pend]; [done|set_solver| |done]. intros u v Hu%Hone Hv%Hone. congruence.
Qed.
Lemma hold_step o x y mu : hold_inv x mu -> mstep o x y -> exists mu', hold_inv y mu'.
Proof.
  intros Hi Hs. pose proof Hi as [Hm Ha H1 Hl].
  destruct Hs as [x t ticks s' Ht Hnc Hnp E|x t ticks s' Ht Hnc Hnp _ E|x t d Htp _ Hd|x t s' b Ht Hnc Hnp E|x t s' Htc E|x now].
  - destruct (Lock_cases _ _ _ _ _ _ E Hm) as [(E0 & _ & Hm' & ET)|(_ & ? & _)]; [|done]. eexists. by eapply hold_take.
  - destruct (Lock_cases _ _ _ _ _ _ E Hm) as [(_ & ? & _)|(E0 & _ & Hm' & th & Hth & ET)]; [done|].
    destruct x as [s c p]. cbn [st crit pend] in *.
    assert (forall u, handed (mk_mstate s' c ({[t]} ∪ p)) u -> handed (mk_mstate s c p) u) as Hh.
    { intros u [Hu (d & Hd & Hd0)]. cbn [st pend] in *. unfold wait_data in Hd. rewrite ET in Hd. destruct (decide (u = t)) as [->|Hne].
      - rewrite lookup_insert_eq in Hd. cbn in Hd. congruence.
      - rewrite lookup_insert_ne in Hd by done. split; [cbn; set_solver|by exists d]. }
    eexists. split; cbn [st crit pend]; [exact Hm'|set_solver| |done].
    intros u v Hu Hv. apply H1; [destruct Hu as [?|?%Hh]; auto|destruct Hv as [?|?%Hh]; auto].
  - destruct x as [s c p]. cbn [st crit pend] in *. exists mu.
    assert (forall u, u ∈ (if d =? 0 then c else {[t]} ∪ c) \/ handed (mk_mstate s (if d =? 0 then c else {[t]} ∪ c) (p ∖ {[t]})) u ->
      u ∈ c \/ handed (mk_mstate s c p) u) as Hsub.
    { intros u [Hu|Hu]; [|right; apply (handed_same s s c p _ _ u eq_refl) in Hu; [done|by intros [? _]%elem_of_difference]].
      destruct (Z.eqb_spec d 0) as [|Hd0]; [by left|]. apply elem_of_union in Hu as [->%elem_of_singleton|?]; [|by left].
      right. split; [done|]. by exists d. }
    split; cbn [st crit pend]; [done| |intros u v Hu%Hsub Hv%Hsub; by apply H1|intros u Hu%Hsub; by eapply Hl].
    destruct (d =? 0); set_solver.
  - destruct (TryLock_cases _ _ _ _ _ E Hm) as (ET & -> & Hm'). destruct (Z.eqb_spec (locked mu) 0) as [E0|E0].
    + eexists. by eapply hold_take.
    + exists mu. destruct x as [s c p]. cbn [st crit pend] in *. split; cbn [st crit pend]; [done|done|..].
      * intros u v Hu Hv. apply H1; [destruct Hu as [|Hu]|destruct Hv as [|Hv]]; try (by left); right; by apply (handed_same s s' c p c p _ ET).
      * done.
  - destruct (Unlock_cases _ _ _ _ E Hm) as [Hlk Hcase]. destruct x as [s c p]. cbn [st crit pend] in *.
    assert (forall u, u ∈ c ∖ {[t]} -> False) as Hc.
    { intros u [Hu Hne]%elem_of_difference. apply Hne, elem_of_singleton. apply H1; by left. }
    assert (forall u, handed (mk_mstate s c p) u -> False) as Hh.
    { intros u Hu. assert (u = t) as -> by (apply H1; auto). destruct Hu as [Hu _]. cbn in Hu. set_solver. }
    destruct Hcase as [(_ & Hm' & ET)|(l & u & th & w & _ & Hm' & Hth & Hw & ET)]; (eexists; split; cbn [st crit pend]; [exact Hm'|set_solver|..]).
    + intros v z [Hv%Hc|Hv]; [done|]. apply (handed_same s s' c p (c ∖ {[t]}) p) in Hv; [by apply Hh in Hv|done|done].
    + intros v [Hv%Hc|Hv]; [done|]. apply (handed_same s s' c p (c ∖ {[t]}) p) in Hv; [by apply Hh in Hv|done|done].
    + assert (forall v, v ∈ c ∖ {[t]} \/ handed (mk_mstate s' (c ∖ {[t]}) p) v -> v = u) as Hone.
      { intros v [Hv%Hc|[Hv (d & Hd & Hd0)]]; [done|]. destruct (decide (v = u)) as [|Hne]; [done|]. exfalso. apply (Hh v). split; [done|].
        exists d. split; [|done]. unfold wait_data in *. cbn [st] in *. by rewrite ET, lookup_insert_ne in Hd by congruence. }
      intros v z Hv%Hone Hz%Hone. congruence.
    + done.
  - exists mu. by split.
Qed.
Lemma mreach_hold o x : mreach o x -> exists mu, hold_inv x mu.
Proof.
  induction 1 as [s|x y _ IH Hs].
  - exists (mk_mutex 0 []). split; cbn; [by rewrite lookup_insert_eq|set_solver|..].
    + intros t u [Ht|[Ht _]]; by apply not_elem_of_empty in Ht.
    + intros t [Ht|[Ht _]]; by apply not_elem_of_empty in Ht.
  - destruct IH as (mu & Hi). by eapply hold_step.
Qed.

End Mutex.

(** The mutex does not exclude under the scheduler as it is: a thread that
    locks a held mutex goes on running at once, still waiting and without the
    lock, when the first runnable waiting thread has a key above its new
    priority. *)
Theorem smp_Mutex_Lock_runs_on idle s m mu c th regs k :
  sched_ok (sched s) -> Z.of_nat (size (ThreadsWaiting (sched s))) + 1 < 2 ^ 64 -> m <> 0 ->
  mutexes s !! m = Some mu -> locked mu <> 0 ->
  Current (sched s) = Some c -> Threads (sched s) !! c = Some th ->
  is_first (sched s) (Some k) -> new_priority (sched s) (Some th) < k ->
  exists s1 s2, smp_Mutex_Lock s m = Some (s1, None) /\
    smp_thread_Yield idle (sched s1) regs = Some s2 /\
    Current s2 = Some c /\ LastState s2 = regs /\
    still_waiting (set_sched s2 s1) c /\ wait_data (set_sched s2 s1) c = Some 0.
Proof.
  intros Hok Hsz Hm Hmu Hl Hc Hth Hf Hk.
  unfold smp_Mutex_Lock, smp_Mutex_LockTimeout. rewrite Hmu. cbn [mbind option_bind].
  rewrite (proj2 (Z.eqb_neq _ _) Hl), Hc. cbn [mbind option_bind]. unfold fill_wait. rewrite Hth.
  cbn [mbind option_bind]. eexists. 
  set (th' := t_set_wait _ th). set (x1 := set_threads (<[c := th']> (Threads (sched s))) (sched s)).
  destruct (Yield_stays idle x1 regs c k) as (s2 & Hy & Hc2 & Hl2 & Ht2 & _); try done.
  - by apply (modify_ok (sched s) c th).
  - by apply is_first_modify.
  - unfold cur_thread. subst x1. cbn [Current set_threads]. rewrite Hc. cbn [mbind option_bind Threads set_threads].
    by rewrite lookup_insert_eq.
  - exists s2. split; [reflexivity|]. split; [exact Hy|].
    assert (Threads s2 !! c = Some th') as E by (rewrite Ht2; subst x1; cbn; by rewrite lookup_insert_eq).
    split_and!; try done.
    + exists th'. split; [done|]. subst th'. cbn. by destruct (Z.eqb_spec m 0).
    + unfold wait_data. cbn [sched set_sched]. by rewrite E.
Qed.

(** ** Conditions *)

Lemma notify_each_spec data l : forall s,
  NoDup l -> (forall t, t ∈ l -> exists th w, Threads (sched s) !! t = Some th /\ wait th = Some w) ->
  exists s', notify_each s l data = Some s' /\ conds s' = conds s /\ mutexes s' = mutexes s /\
    (forall t, t ∈ l -> ~ still_waiting s' t /\ wait_data s' t = Some data) /\
    (forall t, t ∉ l -> Threads (sched s') !! t = Threads (sched s) !! t).
Proof.
  induction l as [|t l IH]; intros s Hnd Hl; cbn [notify_each].
  { exists s. split_and!; try done. intros t Ht. by apply not_elem_of_nil in Ht. }
  apply NoDup_cons in Hnd as [Ht Hnd].
  destruct (Hl t) as (th & w & Eth & Ew); [by left|].
  unfold modify_wait. rewrite Eth. cbn [mbind option_bind]. rewrite Ew. cbn [mbind option_bind].
  set (th' := t_set_wait _ th). set (s1 := set_sched _ s).
  assert (forall u, u <> t -> Threads (sched s1) !! u = Threads (sched s) !! u) as Hsame
    by (intros u Hu; subst s1; cbn; by rewrite lookup_insert_ne).
  destruct (IH s1 Hnd) as (s' & E & Ec & Em & Hin & Hout).
  { intros u Hu. rewrite Hsame by (by intros ->). apply Hl. by right. }
  exists s'. split_and!; [done|done|done| |].
  - intros u Hu. apply elem_of_cons in Hu as [->|Hu]; [|by apply Hin].
    assert (Threads (sched s') !! t = Some th') as E'.
    { rewrite Hout by done. subst s1. cbn. by rewrite lookup_insert_eq. }
    split.
    + intros (x & Ex & Hx). assert (x = th') as -> by congruence. done.
    + unfold wait_data. by rewrite E'.
  - intros u Hu. apply not_elem_of_cons in Hu as [Hne Hu]. by rewrite Hout, Hsame.
Qed.

(** The threads of a list have wait blocks. *)
Definition waiters (s : sync) (l : list Z) : Prop :=
  NoDup l /\ forall t, t ∈ l -> exists th w, Threads (sched s) !! t = Some th /\ wait th = Some w.
Lemma NotifyAll_spec s c data l : conds s !! c = Some l -> waiters s l ->
  exists s', smp_Condition_NotifyAll s c data = Some (s', if Z.of_nat (length l) =? 0 then 0 else 1) /\
    conds s' = <[c := []]> (conds s) /\ mutexes s' = mutexes s /\
    (forall t, t ∈ l -> ~ still_waiting s' t /\ wait_data s' t = Some data) /\
    (forall t, t ∉ l -> Threads (sched s') !! t = Threads (sched s) !! t).
Proof.
  intros Hc [Hnd Hl]. unfold smp_Condition_NotifyAll. rewrite Hc. cbn [mbind option_bind]. destruct l as [|t l].
  { exists s. split; [done|]. split; [by rewrite insert_id|]. split; [done|]. split; [|done]. intros t Ht. by apply not_elem_of_nil in Ht. }
  rewrite (proj2 (Z.eqb_neq _ _)) by (cbn [length]; lia).
  destruct (notify_each_spec data (t :: l) s Hnd Hl) as (s' & -> & Ec & Em & Hin & Hout).
  cbn [mbind option_bind]. eexists. split; [reflexivity|]. cbn [conds set_conds mutexes]. by rewrite Ec.
Qed.
Lemma notify_each_Now data l : forall s s', notify_each s l data = Some s' -> Now (sched s') = Now (sched s).
Proof.
  induction l as [|t l IH]; intros s s' E; cbn [notify_each] in E; [by simplify_eq|]. unfold modify_wait in E.
  destruct (Threads (sched s) !! t) as [th|]; [|done]. cbn [mbind option_bind] in E. destruct (wait th); [|done]. cbn [mbind option_bind] in E.
  by rewrite (IH _ _ E).
Qed.
Lemma NotifyAll_Now s c data s' r : smp_Condition_NotifyAll s c data = Some (s', r) -> Now (sched s') = Now (sched s).
Proof.
  unfold smp_Condition_NotifyAll. destruct (conds s !! c) as [l|]; [|done]. cbn [mbind option_bind]. zcase; [by intros [= <- _]|].
  destruct (notify_each s l data) as [s1|] eqn:E; [|done]. cbn [mbind option_bind]. intros [= <- _]. by rewrite <- (notify_each_Now _ _ _ _ E).
Qed.
Lemma NotifyOne_spec s c data l t : conds s !! c = Some (l ++ [t]) ->
  (exists th w, Threads (sched s) !! t = Some th /\ wait th = Some w) ->
  exists s', smp_Condition_NotifyOne s c data = Some (s', true) /\ conds s' = <[c := l]> (conds s) /\
    ~ still_waiting s' t /\ wait_data s' t = Some data /\ forall u, u <> t -> Threads (sched s') !! u = Threads (sched s) !! u.
Proof.
  intros Hc (th & w & Eth & Ew). unfold smp_Condition_NotifyOne. rewrite Hc. cbn [mbind option_bind].
  rewrite last_snoc, length_app, Nat.add_sub, take_app_length. unfold modify_wait. rewrite Eth. cbn [mbind option_bind].
  rewrite Ew. cbn [mbind option_bind]. eexists. split; [reflexivity|]. cbn. split; [done|]. split_and!.
  - intros (x & Ex & Hx). cbn in Ex. rewrite lookup_insert_eq in Ex. by injection Ex as <-.
  - unfold wait_data. cbn. by rewrite lookup_insert_eq.
  - intros u Hu. by rewrite lookup_insert_ne.
Qed.

(** [smp_Condition_NotifyAll] ends the wait of every thread in the list,
    hands each the data, empties the list and touches no other thread;
    [NotifyOne] does so for the last thread only.  The value returned is 1, not
    the number of threads. *)
Theorem smp_Condition_Notify_correct s c data l :
  conds s !! c = Some l -> waiters s l ->
  (exists s', smp_Condition_NotifyAll s c data = Some (s', if Z.of_nat (length l) =? 0 then 0 else 1) /\
     conds s' !! c = Some [] /\
     (forall t, t ∈ l -> ~ still_waiting s' t /\ wait_data s' t = Some data) /\
     (forall t, t ∉ l -> Threads (sched s') !! t = Threads (sched s) !! t)) /\
  (forall l' t, l = l' ++ [t] -> exists s', smp_Condition_NotifyOne s c data = Some (s', true) /\
     conds s' !! c = Some l' /\ ~ still_waiting s' t /\ wait_data s' t = Some data /\
     forall u, u <> t -> Threads (sched s') !! u = Threads (sched s) !! u).
Proof.
  intros Hc Hl. split.
  - destruct (NotifyAll_spec s c data l Hc Hl) as (s' & E & Ec & _ & Hin & Hout). exists s'. rewrite Ec, lookup_insert_eq. by split_and!.
  - intros l' t ->. destruct (NotifyOne_spec s c data l' t Hc) as (s' & E & Ec & H1 & H2 & H3).
    { apply (proj2 Hl), elem_of_app. right. by left. }
    exists s'. rewrite Ec, lookup_insert_eq. by split_and!.
Qed.

(** ** Witnesses *)

Definition demo_sync : sync := mk_sync demo_smp {[50 := [1; 2]]} {[60 := mk_mutex 1 []]}.
Lemma smp_Mutex_Lock_runs_on_witness :
  exists s1 s2, smp_Mutex_Lock demo_sync 60 = Some (s1, None) /\
    smp_thread_Yield 3 (sched s1) demo_regs = Some s2 /\ Current s2 = Some 1.
Proof.
  destruct (smp_Mutex_Lock_runs_on 3 demo_sync 60 (mk_mutex 1 []) 1 (demo_thread 1) demo_regs 200 demo_smp_ok
    ltac:(done) ltac:(lia) eq_refl ltac:(done) eq_refl eq_refl demo_first ltac:(by vm_compute))
    as (s1 & s2 & H1 & H2 & H3 & _).
  by exists s1, s2.
Defined.
Lemma smp_Condition_Notify_correct_witness :
  exists s', smp_Condition_NotifyAll demo_sync 50 33 = Some (s', 1) /\ wait_data s' 2 = Some 33.
Proof.
  destruct (smp_Condition_Notify_correct demo_sync 50 33 [1; 2] eq_refl) as [(s' & H1 & _ & H2 & _) _]; [split|].
  - apply (bool_decide_unpack _). by vm_compute.
  - intros t Ht. apply elem_of_cons in Ht as [->|Ht]; [by eexists _, _|].
    apply list_elem_of_singleton in Ht as ->. by eexists _, _.
  - exists s'. split; [exact H1|]. apply (H2 2). by right; left.
Defined.
