(* ===== verification/KMain.v ===== *)
(** * The event loop of the kernel (src/kernel/kmain.c)

    The last part of [kMain]: the creation of the event queue and its condition,
    and the loop that waits, swaps the buffers and prints the events.  Interrupts
    come in between: the points where the loop runs with interrupts on are the
    program points below, and what happens between two of them is one step.  The
    keyboard and mouse handlers reach the queue through input.c (Input.v), the
    condition is that of Sync.v. *)

From Stdlib Require Import String.
From S2P Require Import Prelude Mem Physical Queue Input InputQueue Kthread Sync.

(** What is printed for an event. *)
Inductive message :=
  | MsgKeyPressed (name : string)
  | MsgKeyReleased (name : string)
  | MsgMouseButtonPressed (button : Z)
  | MsgMouseButtonReleased (button : Z).
Definition event_message (e : input_Event) : list message :=
  match e with
  | KeyPressed k _ _ _ _ => [MsgKeyPressed (input_Key_GetName k)]
  | KeyReleased k _ _ _ _ => [MsgKeyReleased (input_Key_GetName k)]
  | MouseButtonPressed b _ _ => [MsgMouseButtonPressed (i32 b)]
  | MouseButtonReleased b _ _ => [MsgMouseButtonReleased (i32 b)]
  | MouseMoved _ _ => []
  end.

(** Where the loop is when an interrupt comes: before it waits, in the wait,
    behind the swap, and behind the removal of an event. *)
Inductive kmain_pc := AtWait | InWait | AtTest | Handling (e : input_Event).
Record kmain := mk_kmain {
  km_input : input_state ring; km_sync : sync; km_pc : kmain_pc;
  km_log : list message; km_swaps : nat;
}.

Section Loop.
(** The unused bytes of an event; the addresses of the handlers' event, of [e],
    of [input_Condition]; the main thread. *)
Context (pad stack local cond tid : Z).
#[local] Instance queue_of_events : EventQueue ring := ring_EventQueue pad stack.

Definition set_queue (r : ring) (i : input_state ring) : input_state ring :=
  mk_input (KeyMask i) (MouseMask i) (CursorX i) (CursorY i) (DesktopWidth i) (DesktopHeight i)
    (Some r) (has_Condition i) (notified i).
Definition set_condition (i : input_state ring) : input_state ring :=
  mk_input (KeyMask i) (MouseMask i) (CursorX i) (CursorY i) (DesktopWidth i) (DesktopHeight i)
    (EventQueue_ i) true (notified i).

(** The creation of the condition and of the queue, with a buffer of 32 events
    at [buffer]. *)
Definition kMain_events (buffer : Z) (m : mem) (i : input_state ring) (s : sync) : kmain :=
  let s := smp_Condition_Create s cond in
  let i := set_queue (queue_InitBuffered buffer (sizeof_Event * 32), m) (set_condition i) in
  mk_kmain i s AtWait [] 0.

(** The test of the queue and the removal of an event, with interrupts off. *)
Definition next_event (k : kmain) : option kmain :=
  '(q, m) ← EventQueue_ (km_input k);
  if 0 <? queue_Size q then
    let '(_, q, m) := queue_Pop q m local sizeof_Event in
    e ← decode_event (bytes m local sizeof_Event);
    Some (mk_kmain (set_queue (q, m) (km_input k)) (km_sync k) (Handling e) (km_log k) (km_swaps k))
  else Some (mk_kmain (km_input k) (km_sync k) AtWait (km_log k) (km_swaps k)).
(** One step of the loop, from one point to the next. *)
Definition kMain_step (k : kmain) : option kmain :=
  match km_pc k with
  | AtWait =>
      s ← smp_Condition_Wait (km_sync k) cond;
      Some (mk_kmain (km_input k) s InWait (km_log k) (km_swaps k))
  | InWait => Some (mk_kmain (km_input k) (km_sync k) AtTest (km_log k) (S (km_swaps k)))
  | AtTest => next_event k
  | Handling e => next_event (mk_kmain (km_input k) (km_sync k) (km_pc k) (km_log k ++ event_message e) (km_swaps k))
  end.
Fixpoint kMain_steps (n : nat) (k : kmain) : option kmain :=
  match n with O => Some k | S n => k ← kMain_step k; kMain_steps n k end.

(** A call of input.c by an interrupt handler: the event is queued, and the
    threads that wait on the condition are woken. *)
Definition source_interrupt (c : source_call) (k : kmain) : option kmain :=
  let i := source_step (km_input k) c in
  s ← (if (notified (km_input k) <? notified i)%nat
       then '(s, _) ← smp_Condition_NotifyAll (km_sync k) cond 0; Some s
       else Some (km_sync k));
  Some (mk_kmain i s (km_pc k) (km_log k) (km_swaps k)).

(** ** Runs *)

(** The calls the two handlers make. *)
Definition device_call (c : source_call) : Prop :=
  match c with
  | CPressKey k | CReleaseKey k => 0 <= k < input_Key_Count
  | CPressMouse _ | CReleaseMouse _ | CMoveMouse _ _ => True
  | CPositionMouse _ _ | CSetDesktopSize _ _ => False
  end.
Definition queued (k : kmain) : list input_Event := match EventQueue_ (km_input k) with Some r => ring_events r | None => [] end.
(** What other threads do leaves the waiting threads and the wait of the main
    thread as they are. *)
Definition others_step (s s' : sync) : Prop :=
  conds s' !! cond = conds s !! cond /\
  exists th th', Threads (sched s) !! tid = Some th /\ Threads (sched s') !! tid = Some th' /\ wait th' = wait th.

(** A run with the events that arrive in it, each with the number of events that
    are queued then. *)
Inductive kmain_run (k0 : kmain) : list (input_Event * nat) -> kmain -> Prop :=
  | run_start : kmain_run k0 [] k0
  | run_main tr k k' : kmain_run k0 tr k ->
      Current (sched (km_sync k)) = Some tid -> kMain_step k = Some k' -> kmain_run k0 tr k'
  | run_interrupt tr k k' c e : kmain_run k0 tr k -> device_call c ->
      source_interrupt c k = Some k' -> call_event (km_input k') c = Some e ->
      kmain_run k0 (tr ++ [(e, length (queued k))]) k'
  | run_others tr k s' : kmain_run k0 tr k -> others_step (km_sync k) s' ->
      kmain_run k0 tr (mk_kmain (km_input k) s' (km_pc k) (km_log k) (km_swaps k)).

(** The events that found room, in the order they came. *)
Definition accepted (tr : list (input_Event * nat)) : list input_Event := (filter (fun p => p.2 < 32)%nat tr).*1.
(** Those not printed yet. *)
Definition pending (k : kmain) : list input_Event :=
  match km_pc k with Handling e => [e] | _ => [] end ++ queued k.

(** ** The condition *)

Definition cond_ok (s : sync) : Prop :=
  exists n th, conds s !! cond = Some (replicate n tid) /\ Threads (sched s) !! tid = Some th /\ (n = O \/ is_Some (wait th)).

Lemma modify_wait_tid s th w f : Threads (sched s) !! tid = Some th -> wait th = Some w ->
  exists s', modify_wait s tid f = Some s' /\ conds s' = conds s /\ Threads (sched s') !! tid = Some (t_set_wait (Some (f w)) th).
Proof.
  intros Ht Hw. unfold modify_wait. rewrite Ht. cbn. rewrite Hw. cbn. eexists. split; [done|]. split; [done|].
  cbn [sched set_sched Threads set_threads]. by rewrite lookup_insert_eq.
Qed.
Lemma notify_each_tid data n : forall s th, Threads (sched s) !! tid = Some th -> is_Some (wait th) ->
  exists s' th', notify_each s (replicate n tid) data = Some s' /\ conds s' = conds s /\
    Threads (sched s') !! tid = Some th' /\ is_Some (wait th').
Proof.
  induction n as [|n IH]; intros s th Ht [w Hw]; cbn [replicate notify_each].
  { exists s, th. rewrite Hw. by split_and!. }
  destruct (modify_wait_tid s th w (Sync.notify data) Ht Hw) as (s1 & -> & Ec & Ht1). cbn [mbind option_bind].
  destruct (IH s1 _ Ht1) as (s' & th' & -> & Ec' & Ht' & Hw'); [by eexists|]. exists s', th'. by rewrite Ec', Ec.
Qed.
Lemma NotifyAll_ok s data : cond_ok s -> exists s' r, smp_Condition_NotifyAll s cond data = Some (s', r) /\ cond_ok s'.
Proof.
  intros (n & th & Hc & Ht & Hn). unfold smp_Condition_NotifyAll. rewrite Hc. cbn [mbind option_bind]. rewrite length_replicate.
  destruct (Z.eqb_spec (Z.of_nat n) 0) as [E|Hne].
  { exists s, 0. split; [done|]. by exists n, th. }
  destruct Hn as [->|Hw]; [done|]. destruct (notify_each_tid data n s th Ht Hw) as (s' & th' & -> & Ec & Ht' & Hw').
  cbn [mbind option_bind]. eexists _, 1. split; [reflexivity|]. exists O, th'. cbn. rewrite lookup_insert_eq. split_and!; [done..|by left].
Qed.
Lemma Wait_ok s : cond_ok s -> Current (sched s) = Some tid ->
  exists s', smp_Condition_Wait s cond = Some s' /\ cond_ok s' /\
    exists th, Threads (sched s') !! tid = Some th /\ wait th = Some (mk_wait cond 0 0 __smp_Thread_Waiting_Condiction).
Proof.
  intros (n & th & Hc & Ht & _) Hcur. unfold smp_Condition_Wait, fill_wait. rewrite Hcur. cbn [mbind option_bind].
  rewrite Ht. cbn [mbind option_bind conds set_sched]. rewrite Hc. cbn [mbind option_bind]. eexists. split; [reflexivity|].
  cbn [sched set_conds conds set_sched Threads set_threads]. split.
  - exists (S n), (t_set_wait (Some (mk_wait cond 0 0 __smp_Thread_Waiting_Condiction)) th). cbn. rewrite !lookup_insert_eq.
    split; [by rewrite <- replicate_S_end|]. split; [done|]. right. by eexists.
  - eexists. by rewrite lookup_insert_eq.
Qed.
Lemma others_ok s s' : cond_ok s -> others_step s s' -> cond_ok s'.
Proof.
  intros (n & th & Hc & Ht & Hn) (E & th1 & th2 & H1 & H2 & Ew). simplify_eq. exists n, th2. rewrite E, Ew. by split_and!.
Qed.

(** ** The queue *)

Record queue_ok (i : input_state ring) (r : ring) : Prop := {
  qo_queue : EventQueue_ i = Some r;
  qo_ring : ring_ok pad stack r;
  qo_size : q_size r.1 = 512;
  qo_local : q_disjoint r.1 local sizeof_Event;
}.

Lemma ring_ok_events r : ring_ok pad stack r -> q_contents r.1 r.2 = mjoin (encode pad <$> ring_events r) /\ Forall ev_ok (ring_events r).
Proof. intros (Hw & Hd & es & Hes & Hc). by rewrite (ring_events_eq pad r es Hw Hes Hc). Qed.
Lemma ring_count r : ring_ok pad stack r -> q_count r.1 = 16 * Z.of_nat (length (ring_events r)).
Proof.
  intros Hr. destruct (ring_ok_events r Hr) as [Hc _]. apply (f_equal length) in Hc. destruct Hr as [Hw _].
  rewrite length_join_encode in Hc. pose proof (length_q_contents r.1 r.2 Hw). lia.
Qed.
Lemma ring_room_32 r : ring_ok pad stack r -> q_size r.1 = 512 -> ring_room r = bool_decide (length (ring_events r) < 32)%nat.
Proof.
  intros Hr Hs. unfold ring_room, queue_Space, sizeof_Event. rewrite Hs, (ring_count r Hr). apply eq_true_iff_eq.
  rewrite Z.leb_le, bool_decide_eq_true. lia.
Qed.
Lemma ring_push_ok r e : ring_ok pad stack r -> ev_ok e -> q_size r.1 = 512 -> q_disjoint r.1 local sizeof_Event ->
  let r' := ring_push pad stack r e in
  ring_ok pad stack r' /\ q_size r'.1 = 512 /\ q_disjoint r'.1 local sizeof_Event /\
  ring_events r' = if decide (length (ring_events r) < 32)%nat then ring_events r ++ [e] else ring_events r.
Proof.
  intros Hr He Hs Hl r'. destruct (ring_push_spec pad stack r e Hr He) as [H1 H2]. rewrite (ring_room_32 r Hr Hs) in H2. fold r' in H1, H2.
  assert (q_size r'.1 = q_size r.1 /\ q_data r'.1 = q_data r.1) as [E1 E2].
  { clear - Hr. unfold r', ring_push, queue_Push. destruct r as [q m]. destruct Hr as (Hw & Hd & _). cbn [fst snd] in *. zcase; [done|].
    pose proof (queue_Push_loop_spec (Z.to_nat sizeof_Event) q (store_bytes m stack (encode pad e)) stack Hw) as Hp.
    unfold sizeof_Event, queue_Space in *. destruct (queue_Push_loop _ _ _ _) as [q' m']. cbn [fst].
    destruct Hp as (_ & _ & -> & -> & _); [lia|exact Hd|done]. }
  unfold q_disjoint in *. rewrite E1, E2. split_and!; [done..|]. rewrite H2. by case_bool_decide; [rewrite decide_True|rewrite decide_False].
Qed.
(** Removing an event. *)
Lemma ring_pop_ok q m e es : ring_ok pad stack (q, m) -> q_size q = 512 -> q_disjoint q local sizeof_Event -> ring_events (q, m) = e :: es ->
  let '(_, q', m') := queue_Pop q m local sizeof_Event in
  decode_event (bytes m' local sizeof_Event) = Some e /\ ring_ok pad stack (q', m') /\ q_size q' = 512 /\ q_disjoint q' local sizeof_Event /\
  ring_events (q', m') = es.
Proof.
  intros Hr Hs Hl He. pose proof (ring_count _ Hr) as Hc. destruct (ring_ok_events _ Hr) as [Hcon Hes]. rewrite He in Hcon, Hes, Hc.
  destruct Hr as (Hw & Hd & _). cbn [fst snd length] in *. unfold queue_Pop, queue_Size. unfold sizeof_Event in *.
  destruct (Z.ltb_spec (q_count q) 16); [lia|]. pose proof (queue_Pop_loop_spec (Z.to_nat 16) q m local Hw) as Hp.
  destruct (queue_Pop_loop _ _ _ _) as [q' m']. destruct Hp as (Hb & Hw' & Ed & Es & _); [lia|exact Hl|].
  change (Z.of_nat (Z.to_nat 16)) with 16 in Hb. rewrite Hcon, fmap_cons in Hb. cbn [mjoin list_join] in Hb.
  apply app_inj_1 in Hb as [Hb1 Hb2]; [|by rewrite length_encode, length_bytes]. apply Forall_cons in Hes as [Hev Hes].
  rewrite <- Hb1, decode_encode by done. unfold q_disjoint in *. rewrite Ed, Es. split; [done|].
  assert (ring_events (q', m') = es) as E by (apply (ring_events_eq pad); [exact Hw'|exact Hes|symmetry; exact Hb2]).
  split_and!; [|lia|lia|exact E]. split_and!; [exact Hw'| |exists es; by split]. cbn [fst]. unfold q_disjoint. rewrite Ed, Es. exact Hd.
Qed.

(** ** The invariant of the loop *)

Definition input_ok (i : input_state ring) : Prop :=
  has_Condition i = true /\ cursor_ok i /\ DesktopWidth i < 2147483648 /\ DesktopHeight i < 2147483648.
Record loop_inv (k : kmain) (tr : list (input_Event * nat)) : Prop := {
  li_queue : exists r, queue_ok (km_input k) r;
  li_input : input_ok (km_input k);
  li_cond : cond_ok (km_sync k);
  li_events : exists printed, km_log k = mjoin (event_message <$> printed) /\ printed ++ pending k = accepted tr;
}.

Lemma next_event_ok k r : queue_ok (km_input k) r ->
  exists k' r', next_event k = Some k' /\ queue_ok (km_input k') r' /\ pending k' = queued k /\
    km_pc k' = (match queued k with [] => AtWait | e :: _ => Handling e end) /\
    km_sync k' = km_sync k /\ km_log k' = km_log k /\ (input_ok (km_input k) -> input_ok (km_input k')).
Proof.
  intros Hq. pose proof Hq as [Eq Hr Hs Hl]. unfold next_event, pending, queued. rewrite Eq. cbn [mbind option_bind].
  destruct r as [q m]. cbn [fst] in *. pose proof (ring_count _ Hr) as Hc. cbn [fst] in Hc. unfold queue_Size. rewrite Hc.
  destruct (ring_events (q, m)) as [|e es] eqn:Ee; cbn [length].
  { rewrite (proj2 (Z.ltb_ge _ _)) by lia. eexists _, _. split; [reflexivity|]. cbn [km_input km_pc]. split; [exact Hq|].
    rewrite Eq, Ee. by split_and!. }
  rewrite (proj2 (Z.ltb_lt _ _)) by lia. pose proof (ring_pop_ok q m e es Hr Hs Hl Ee) as Hp.
  destruct (queue_Pop q m local sizeof_Event) as [[n q'] m']. destruct Hp as (-> & Hr' & Hs' & Hl' & Ee').
  cbn [mbind option_bind]. eexists _, _. split; [reflexivity|]. cbn [km_input km_pc km_sync km_log set_queue EventQueue_].
  split; [by split|]. rewrite Ee'. by split_and!.
Qed.

Lemma device_call_event c i : device_call c -> input_ok i ->
  exists e, call_event (source_step i c) c = Some e /\ ev_ok e /\ input_ok (source_step i c).
Proof.
  intros Hc (Hh & Hcur & Hw & Hh').
  assert (input_ok (source_step i c)) as Hi.
  { split; [by rewrite source_step_condition|]. split; [apply source_step_cursor; [by destruct c|done]|]. destruct c; done. }
  destruct Hi as (H1 & [H2 H3] & H4 & H5). assert (0 <= DesktopWidth (source_step i c) < 2147483648) by lia.
  destruct c as [k|k|b|b|x y|x y|x y]; try done; eexists; (split; [reflexivity|]); (split; [|done]); cbn [ev_ok];
    unfold device_call, int_ok in *; change input_Key_Count with 104 in *.
  1,2: lia.
  all: try (assert (0 <= button_code b < 5) by (destruct b; cbn; lia)); split_and!; lia.
Qed.

Lemma accepted_snoc tr e n : accepted (tr ++ [(e, n)]) = accepted tr ++ (if decide (n < 32)%nat then [e] else []).
Proof. unfold accepted. rewrite filter_app, fmap_app. f_equal. rewrite filter_cons. by repeat case_decide. Qed.

Lemma interrupt_ok k tr c : loop_inv k tr -> device_call c ->
  exists k' e, source_interrupt c k = Some k' /\ call_event (km_input k') c = Some e /\
    loop_inv k' (tr ++ [(e, length (queued k))]).
Proof.
  intros [[r Hq] Hi Hc (pr & El & Ep)] Hd. destruct (device_call_event c _ Hd Hi) as (e & He & Hev & Hi').
  destruct (NotifyAll_ok (km_sync k) 0 Hc) as (s' & n & Hn & Hc'). unfold source_interrupt.
  rewrite source_step_notified, He, (proj1 Hi). cbn [andb]. rewrite (proj2 (Nat.ltb_lt _ _)) by lia. rewrite Hn. cbn [mbind option_bind].
  eexists _, e. split; [reflexivity|]. cbn [km_input]. split; [done|].
  destruct Hq as [Eq Hr Hs Hl]. destruct (ring_push_ok r e Hr Hev Hs Hl) as (Hr' & Hs' & Hl' & Ee).
  assert (EventQueue_ (source_step (km_input k) c) = Some (ring_push pad stack r e)) as Eq'.
  { rewrite source_step_queue, He, Eq. reflexivity. }
  split; cbn [km_input km_sync km_log]; [by eexists|done|done|]. exists pr. split; [done|].
  rewrite accepted_snoc, <- Ep. unfold pending, queued. cbn [km_pc km_input]. rewrite Eq', Eq, Ee, <- !app_assoc.
  do 2 f_equal. case_decide; [done|by rewrite app_nil_r].
Qed.

Lemma main_ok k tr : loop_inv k tr -> Current (sched (km_sync k)) = Some tid ->
  exists k', kMain_step k = Some k' /\ loop_inv k' tr.
Proof.
  intros [[r Hq] Hi Hc (pr & El & Ep)] Hcur. unfold kMain_step. destruct (km_pc k) as [| | |e] eqn:Epc.
  - destruct (Wait_ok _ Hc Hcur) as (s' & -> & Hc' & _). cbn [mbind option_bind]. eexists. split; [reflexivity|].
    split; cbn; [by eexists|done|done|]. exists pr. split; [done|]. rewrite <- Ep. unfold pending. by rewrite Epc.
  - eexists. split; [reflexivity|]. split; cbn; [by eexists|done|done|]. exists pr. split; [done|]. rewrite <- Ep. unfold pending. by rewrite Epc.
  - destruct (next_event_ok k r Hq) as (k' & r' & -> & Hq' & Ep' & _ & Es & Elog & Hi'). eexists. split; [reflexivity|].
    split; [by eexists|by apply Hi'|by rewrite Es|]. exists pr. rewrite Elog, Ep', <- Ep. split; [done|]. unfold pending. by rewrite Epc.
  - set (k1 := mk_kmain (km_input k) (km_sync k) (Handling e) (km_log k ++ event_message e) (km_swaps k)).
    destruct (next_event_ok k1 r Hq) as (k' & r' & E & Hq' & Ep' & _ & Es & Elog & Hi'). subst k1. rewrite E. eexists. split; [reflexivity|].
    split; [by eexists|by apply Hi'|by rewrite Es|]. exists (pr ++ [e]). rewrite Elog, Ep'. cbn [km_log]. split.
    + rewrite fmap_app, join_app, El. cbn. by rewrite app_nil_r.
    + rewrite <- Ep. unfold pending. rewrite Epc. by rewrite <- app_assoc.
Qed.

(** The queue behind a call of the handlers. *)
Lemma queued_interrupt k c r : queue_ok (km_input k) r -> input_ok (km_input k) -> device_call c ->
  exists e, call_event (source_step (km_input k) c) c = Some e /\
    match EventQueue_ (source_step (km_input k) c) with Some r => ring_events r | None => [] end =
      queued k ++ (if decide (length (queued k) < 32)%nat then [e] else []).
Proof.
  intros [Eq Hr Hs Hl] Hi Hd. destruct (device_call_event c _ Hd Hi) as (e & He & Hev & _). exists e. split; [done|].
  rewrite source_step_queue, He. unfold queued. rewrite Eq. destruct (ring_push_ok r e Hr Hev Hs Hl) as (_ & _ & _ & Ee).
  transitivity (ring_events (ring_push pad stack r e)); [reflexivity|]. rewrite Ee. case_decide; [done|by rewrite app_nil_r].
Qed.
(** A state as [kMain_events] leaves it. *)
Record loop_start (k : kmain) : Prop := {
  ls_pc : km_pc k = AtWait;
  ls_log : km_log k = [];
  ls_queued : queued k = [];
  ls_queue : exists r, queue_ok (km_input k) r;
  ls_input : input_ok (km_input k);
  ls_cond : cond_ok (km_sync k);
}.
Lemma run_inv k0 tr k : loop_start k0 -> kmain_run k0 tr k -> loop_inv k tr.
Proof.
  intros [Hpc Hlog Hqd Hq Hi Hc]. induction 1 as [|tr k k' _ IH Hcur Hs|tr k k' c e _ IH Hd Hs He|tr k s' _ IH Ho].
  - split; [done..|]. exists []. unfold pending. by rewrite Hpc, Hqd.
  - destruct (main_ok k tr IH Hcur) as (k1 & E & Hinv). by simplify_eq.
  - destruct (interrupt_ok k tr c IH Hd) as (k1 & e1 & E & He1 & Hinv). by simplify_eq.
  - destruct IH as [H1 H2 H3 H4]. split; [done|done|by eapply others_ok|done].
Qed.
Lemma kMain_events_start buffer m i s :
  0 <= buffer -> buffer + 512 <= 2 ^ 64 -> 0 <= stack -> 0 <= local ->
  (stack + 16 <= buffer \/ buffer + 512 <= stack) -> (local + 16 <= buffer \/ buffer + 512 <= local) ->
  cursor_ok i -> DesktopWidth i < 2147483648 -> DesktopHeight i < 2147483648 ->
  is_Some (Threads (sched s) !! tid) -> loop_start (kMain_events buffer m i s).
Proof.
  intros Hb Ht Hs0 Hl0 Hs Hl Hc Hw Hh [th Hth]. set (r := (queue_InitBuffered buffer 512, m) : ring).
  assert (ring_ok pad stack r) as Hr.
  { split_and!; [by apply queue_Init_wf|unfold q_disjoint, sizeof_Event; cbn; lia|]. exists []. by split. }
  split; [done|done|reflexivity| |done|].
  - exists r. split; [done|done|done|]. unfold q_disjoint, sizeof_Event. cbn. lia.
  - exists O, th. cbn. rewrite lookup_insert_eq. split_and!; [done..|by left].
Qed.

Lemma step_InWait k : km_pc k = InWait ->
  kMain_step k = Some (mk_kmain (km_input k) (km_sync k) AtTest (km_log k) (S (km_swaps k))).
Proof. intros Hpc. unfold kMain_step. by rewrite Hpc. Qed.
Lemma step_AtTest k : km_pc k = AtTest -> kMain_step k = next_event k.
Proof. intros Hpc. unfold kMain_step. by rewrite Hpc. Qed.
Lemma interrupt_same c k k' : source_interrupt c k = Some k' ->
  km_pc k' = km_pc k /\ km_log k' = km_log k /\ km_input k' = source_step (km_input k) c.
Proof.
  unfold source_interrupt. intros E. destruct (_ <? _)%nat; cbn in E; [|by simplify_eq].
  destruct (smp_Condition_NotifyAll _ _ _) as [[? ?]|]; cbn in E; by simplify_eq.
Qed.
(** The steps of the loop until it waits again. *)
Lemma drain_steps es : forall k r e, queue_ok (km_input k) r -> km_pc k = Handling e -> queued k = es ->
  exists k' r', kMain_steps (S (length es)) k = Some k' /\ queue_ok (km_input k') r' /\ km_pc k' = AtWait /\ queued k' = [] /\
    km_log k' = km_log k ++ mjoin (event_message <$> e :: es).
Proof.
  induction es as [|e1 es IH]; intros k r e Hq Hpc Hqd; cbn [kMain_steps length]; unfold kMain_step; rewrite Hpc.
  all: set (k1 := mk_kmain (km_input k) (km_sync k) (Handling e) (km_log k ++ event_message e) (km_swaps k)).
  all: destruct (next_event_ok k1 r Hq) as (k2 & r2 & E & Hq2 & Ep & Epc & _ & Elog & _); subst k1; rewrite E; cbn [mbind option_bind].
  all: change (queued (mk_kmain _ _ _ _ _)) with (queued k) in Ep, Epc; rewrite Hqd in Ep, Epc; unfold pending in Ep; rewrite Epc in Ep.
  - exists k2, r2. split; [done|]. rewrite Elog. cbn. rewrite app_nil_r. by split_and!.
  - injection Ep as Ep. destruct (IH k2 r2 e1 Hq2 Epc Ep) as (k' & r' & E' & Hq' & Hpc' & Hqd' & Hlog'). exists k', r'.
    split; [exact E'|]. rewrite Hlog', Elog. cbn [km_log]. rewrite <- app_assoc. by split_and!.
Qed.
End Loop.

(** * Properties *)

Section Props.
Context (pad stack local cond tid : Z).

(** C13. In every run of the loop, whatever interrupts come at whatever points
    and whatever other threads do, the messages printed are those of the events
    that found fewer than 32 queued, in the order they came, up to the ones
    still pending; no interrupt fails, and neither does the loop when it runs. *)
Theorem kMain_events_correct k0 tr k :
  loop_start pad stack local cond tid k0 -> kmain_run pad stack local cond tid k0 tr k ->
  (exists printed, km_log k = mjoin (event_message <$> printed) /\ printed ++ pending k = accepted tr) /\
  (forall c, device_call c -> is_Some (source_interrupt pad stack cond c k)) /\
  (Current (sched (km_sync k)) = Some tid -> is_Some (kMain_step local cond k)).
Proof.
  intros Hs Hr. pose proof (run_inv _ _ _ _ _ _ _ _ Hs Hr) as Hi. split; [apply Hi|]. split.
  - intros c Hc. destruct (interrupt_ok _ _ _ _ _ _ _ c Hi Hc) as (k' & _ & -> & _). by eexists.
  - intros Hcur. destruct (main_ok _ _ _ _ _ _ _ Hi Hcur) as (k' & -> & _). by eexists.
Qed.

(** Once the wait is over and no interrupt comes, the loop prints every
    queued event and waits again, after as many steps as there are events and
    two more. *)
Theorem kMain_drains k0 tr k :
  loop_start pad stack local cond tid k0 -> kmain_run pad stack local cond tid k0 tr k -> km_pc k = InWait ->
  exists k', kMain_steps local cond (2 + length (queued k)) k = Some k' /\ km_pc k' = AtWait /\ queued k' = [] /\
    km_log k' = mjoin (event_message <$> accepted tr).
Proof.
  intros Hs Hr Hpc. destruct (run_inv _ _ _ _ _ _ _ _ Hs Hr) as [[r Hq] _ _ (pr & El & Ep)].
  unfold pending in Ep. rewrite Hpc in Ep. cbn [app] in Ep. rewrite <- Ep, fmap_app, join_app, <- El.
  change (2 + length (queued k))%nat with (S (S (length (queued k)))). cbn [kMain_steps].
  rewrite (step_InWait local cond k Hpc). cbn [mbind option_bind].
  set (k1 := mk_kmain (km_input k) (km_sync k) AtTest (km_log k) (S (km_swaps k))). rewrite (step_AtTest local cond k1 eq_refl).
  destruct (next_event_ok _ _ _ k1 r Hq) as (k2 & r2 & -> & Hq2 & Ep2 & Epc2 & _ & El2 & _). cbn [mbind option_bind].
  change (queued k1) with (queued k) in Ep2, Epc2. unfold pending in Ep2.
  destruct (queued k) as [|e es]; rewrite Epc2 in Ep2.
  - exists k2. rewrite El2. cbn. rewrite app_nil_r. by split_and!.
  - injection Ep2 as Ep2. destruct (drain_steps pad stack local cond es k2 r2 e Hq2 Epc2 Ep2) as (k' & _ & E' & _ & Hpc' & Hqd' & Hlog').
    exists k'. rewrite Hlog', El2. by split_and!.
Qed.

(** An event that comes after the queue was found empty and before the wait
    begins wakes nobody: the main thread waits, at every time, although the
    event is queued. *)
Theorem kMain_lost_wakeup k0 tr k c :
  loop_start pad stack local cond tid k0 -> kmain_run pad stack local cond tid k0 tr k ->
  km_pc k = AtWait -> queued k = [] -> cond <> 0 -> device_call c ->
  exists k1 e, source_interrupt pad stack cond c k = Some k1 /\ call_event (km_input k1) c = Some e /\
    (Current (sched (km_sync k1)) = Some tid ->
     exists k2 th, kMain_step local cond k1 = Some k2 /\ km_pc k2 = InWait /\ queued k2 = [e] /\
       Threads (sched (km_sync k2)) !! tid = Some th /\ forall now, blocked now th = true).
Proof.
  intros Hs Hr Hpc Hqd Hc0 Hd. pose proof (run_inv _ _ _ _ _ _ _ _ Hs Hr) as Hi.
  destruct (interrupt_ok _ _ _ _ _ _ _ c Hi Hd) as (k1 & e & E & He & Hi1). exists k1, e. split; [done|]. split; [done|]. intros Hcur.
  destruct (interrupt_same _ _ _ _ _ _ E) as (Hpc1 & Hl1 & Ei). rewrite Hpc in Hpc1.
  destruct Hi1 as [[r1 Hq1] _ Hcond1 _]. destruct (Wait_ok cond tid _ Hcond1 Hcur) as (s' & Ew & _ & th & Hth & Hw).
  unfold kMain_step. rewrite Hpc1, Ew. cbn [mbind option_bind]. eexists _, th. split; [reflexivity|]. cbn [km_pc km_sync]. split; [done|]. split.
  - change (queued (mk_kmain (km_input k1) s' InWait (km_log k1) (km_swaps k1))) with (queued k1).
    destruct Hi as [[r Hq] Hi _ _]. destruct (queued_interrupt _ _ _ _ _ r Hq Hi Hd) as (e' & He' & Eq). rewrite <- Ei in He', Eq.
    rewrite He in He'. injection He' as <-. rewrite Hqd in Eq. exact Eq.
  - split; [done|]. intros now. unfold blocked, __smp_Thread_Waiting_IsWaiting. rewrite Hw. cbn.
    rewrite (proj2 (Z.eqb_neq _ _) Hc0). by rewrite orb_true_r.
Qed.
End Props.

(** A kernel with the main thread only; a key comes while it waits. *)
Definition demo_regs : smp_thread_State := mk_state 0 0 0 0 0 0 0 0 0 0 0 0 0 0 0 0 0 0 0 0.
Definition demo_sync : sync :=
  mk_sync (mk_smp 7 false (Some 1) 2 {[ 1 := mk_thread 1 80 0 0 None demo_regs 0 0 ]} ∅ ∅ demo_regs 0 0 0 0 0 [] None) ∅ ∅.
Definition demo_loop : kmain :=
  kMain_events 500 1000 (fun _ => 0) (mk_input (fun _ => 0) (fun _ => 0) 5 5 800 600 None false 0) demo_sync.
Lemma demo_loop_start : loop_start 0 100 200 500 1 demo_loop.
Proof. apply kMain_events_start; first [lia|unfold cursor_ok; cbn; lia|by eexists|idtac]. Qed.
Definition demo_waiting : kmain := default demo_loop (kMain_step 200 500 demo_loop).
Definition demo_key : kmain := default demo_loop (source_interrupt 0 100 500 (CPressKey 37) demo_waiting).
Lemma demo_run : kmain_run 0 100 200 500 1 demo_loop [(KeyPressed 37 true false false false, O)] demo_key.
Proof.
  apply (run_interrupt _ _ _ _ _ _ [] demo_waiting demo_key (CPressKey 37)); [|by split|reflexivity|reflexivity].
  apply (run_main _ _ _ _ _ _ _ demo_loop); [constructor|reflexivity|reflexivity].
Qed.
Lemma kMain_events_correct_witness : is_Some (source_interrupt 0 100 500 (CReleaseKey 37) demo_key).
Proof.
  destruct (kMain_events_correct 0 100 200 500 1 demo_loop _ demo_key demo_loop_start demo_run) as (_ & Hi & _).
  apply Hi. by split.
Defined.
Lemma kMain_drains_witness :
  exists k', kMain_steps 200 500 3 demo_key = Some k' /\ km_pc k' = AtWait /\ km_log k' = [MsgKeyPressed "input_Key_LControl"].
Proof.
  destruct (kMain_drains 0 100 200 500 1 demo_loop _ demo_key demo_loop_start demo_run eq_refl) as (k' & H1 & H2 & _ & H4).
  exists k'. split; [exact H1|]. split; [exact H2|exact H4].
Defined.
Lemma kMain_lost_wakeup_witness : exists k1 e, source_interrupt 0 100 500 (CPressKey 37) demo_loop = Some k1 /\ call_event (km_input k1) (CPressKey 37) = Some e.
Proof.
  destruct (kMain_lost_wakeup 0 100 200 500 1 demo_loop [] demo_loop (CPressKey 37) demo_loop_start) as (k1 & e & H1 & H2 & _);
    [constructor|done|reflexivity|lia|by split|]. exists k1, e. split; [exact H1|exact H2].
Defined.

(** ** The reader of the serial port *)

(** The characters [kThreader_SerialReader] prints after a wake-up. *)
Fixpoint serial_drain (fuel : nat) (q : queue_Queue) (m : mem) : option (list Z * queue_Queue) :=
  match fuel with
  | O => None
  | S fuel =>
      if queue_Empty q then Some ([], q)
      else let '(b, q) := queue_PopByte q m in '(l, q) ← serial_drain fuel q m; Some (b :: l, q)
  end.
(** With more fuel than bytes, it prints the bytes of the queue, in order, and
    leaves it empty. *)
Theorem serial_drain_correct fuel : forall q m, q_wf q -> q_count q < Z.of_nat fuel ->
  exists q', serial_drain fuel q m = Some (q_contents q m, q') /\ q_wf q' /\ q_count q' = 0.
Proof.
  induction fuel as [|fuel IH]; intros q m Hw Hf; [destruct (qwf_count q Hw); lia|]. cbn [serial_drain]. unfold queue_Empty.
  pose proof (queue_PopByte_contents q m Hw) as Hc. destruct (Z.eqb_spec (q_count q) 0) as [E|E].
  { exists q. by rewrite Hc. }
  pose proof (queue_PopByte_wf q m Hw) as Hw'. assert (q_count (queue_PopByte q m).2 = q_count q - 1) as Hn.
  { unfold queue_PopByte. zcase; [lia|done]. }
  destruct (queue_PopByte q m) as [b q1]. cbn [fst snd] in *. destruct (IH q1 m Hw') as (q' & -> & H1 & H2); [lia|].
  cbn [mbind option_bind]. exists q'. by rewrite Hc.
Qed.
Lemma serial_drain_correct_witness :
  let q := mk_queue 100 4 103 102 3 in exists q', serial_drain 4 q (fun a => a) = Some ([103; 100; 101], q').
Proof.
  intros q. destruct (serial_drain_correct 4 q (fun a => a)) as (q' & E & _); [by split; vm_compute|by vm_compute|].
  exists q'. rewrite E. reflexivity.
Defined.
