(* ===== verification/Channel.v ===== *)
(** * Channels (src/smp/channel.c)

    Creation, sending and destruction; the source has no receiver yet.  What the
    other threads do while the sender has given up the processor is a parameter
    of the call; the conditions of the channel are those of Sync.v, its blocks are
    of the kernel's allocator. *)

From S2P Require Import Prelude Mem Queue Alloc Paging Heap Kthread Sched Sync Mutex.

(** The block of the channel; the block and the contents of the queue's struct,
    if there is a queue; the block for one object; the two conditions. *)
Record smp_Channel := mk_channel {
  ch_addr : Z;
  ch_queue : option (Z * queue_Queue);
  ch_buffer : Z;
  ch_send : Z;
  ch_recv : Z;
  objSize : Z;
}.
Definition sizeof_Channel : Z := 48.
Definition sizeof_Queue : Z := 40.

Section Channel.
Context {H : Type} `{Allocator H}.

(** [send] and [recv] are the addresses of the conditions created. *)
Definition smp_Channel_Create (s : sync) (h : H) (m : mem) (objectSize bufferSize send recv : Z) : sync * H * mem * smp_Channel :=
  let '(c, h, m) := kMalloc h m sizeof_Channel in
  let '(b, h, m) := kMalloc h m objectSize in
  let s := smp_Condition_Create (smp_Condition_Create s send) recv in
  if negb (bufferSize =? 0) then
    let '(qa, h, m) := kMalloc h m sizeof_Queue in
    let '(d, h, m) := kMalloc h m (u64 (objectSize * bufferSize)) in
    (s, h, m, mk_channel c (Some (qa, queue_InitBuffered d (u64 (objectSize * bufferSize)))) b send recv objectSize)
  else (s, h, m, mk_channel c None b send recv objectSize).

(** A channel without a queue faults: [c->queue->data]. *)
Definition smp_Channel_Destroy (s : sync) (h : H) (m : mem) (c : smp_Channel) : option (sync * H * mem) :=
  '(s, _) ← smp_Condition_NotifyAll s (ch_send c) 0;
  '(s, _) ← smp_Condition_NotifyAll s (ch_recv c) 0;
  '(qa, q) ← ch_queue c;
  let '(h, m) := kFree h m (q_data q) in
  let '(h, m) := kFree h m qa in
  let '(h, m) := kFree h m (ch_buffer c) in
  let '(h, m) := kFree h m (ch_addr c) in
  Some (s, h, m).

End Channel.

(** [i++] of an [int], undefined behind the largest. *)
Definition int_next (i : Z) : option Z := if i <? 2 ^ 31 - 1 then Some (i + 1) else None.
(** [while (i < count && queue_Space(c->queue)) queue_Push(...)] *)
Fixpoint send_fill (fuel : nat) (q : queue_Queue) (m : mem) (data size i count : Z) : option (queue_Queue * mem * Z) :=
  match fuel with
  | O => Some (q, m, i)
  | S fuel =>
      if (i <? count) && negb (queue_Space q =? 0) then
        let '(q, m) := queue_Push q m (u64 (data + i * size)) size in
        i ← int_next i;
        send_fill fuel q m data size i count
      else Some (q, m, i)
  end.

(** The places where a sender gives up the processor: behind the filled queue,
    in the wait for object [i], and behind the notification for it. *)
Inductive yield := Queued | Waits (i : Z) | Handed (i : Z).
Definition world : Type := sync * smp_Channel * mem.
Section Send.
(** What the other threads make of the world in a yield, [None] if the sender
    never runs again. *)
Variable others : yield -> world -> option world.

(** The body of the loop over the objects left over, in its two parts: up to the
    yield in the wait, and from there to the other yield. *)
Definition send_wait (w : world) : option world :=
  let '(s, c, m) := w in s ← smp_Condition_Wait s (ch_send c); Some (s, c, m).
Definition send_one (w : world) (data i : Z) : option world :=
  let '(s, c, m) := w in
  let m := memcpy m (ch_buffer c) (u64 (data + i * objSize c)) (objSize c) in
  '(s, _) ← smp_Condition_NotifyOne s (ch_recv c) 1;
  Some (s, c, m).
(** [for (; i < count; i++)], with the worlds given to the others. *)
Fixpoint send_left (fuel : nat) (w : world) (data i count : Z) : option (list (yield * world) * world) :=
  if i <? count then
    match fuel with
    | O => None
    | S fuel =>
        w1 ← send_wait w;
        w2 ← others (Waits i) w1;
        w3 ← send_one w2 data i;
        w4 ← others (Handed i) w3;
        i' ← int_next i;
        '(log, w) ← send_left fuel w4 data i' count;
        Some ((Waits i, w1) :: (Handed i, w3) :: log, w)
    end
  else Some ([], w).
(** The worlds given away, the world in the end and the value returned. *)
Definition smp_Channel_Send (w : world) (data count : Z) : option (list (yield * world) * world * Z) :=
  let '(s, c, m) := w in
  '(log, w, i) ←
    match ch_queue c with
    | Some (qa, q) =>
        '(q, m, i) ← send_fill (Z.to_nat count) q m data (objSize c) 0 count;
        '(s, _) ← smp_Condition_NotifyAll s (ch_recv c) 0;
        let w := (s, mk_channel (ch_addr c) (Some (qa, q)) (ch_buffer c) (ch_send c) (ch_recv c) (objSize c), m) in
        w' ← others Queued w;
        Some ([(Queued, w)], w', i)
    | None => Some ([], w, 0)
    end;
  let sent := i in
  '(log', w) ← send_left (Z.to_nat count) w data i count;
  Some (log ++ log', w, sent).
End Send.

(** ** Filling the queue *)

(** The queue holds whole objects of [size] bytes, [cap] at most. *)
Record objects_ok (q : queue_Queue) (size cap k : Z) : Prop := {
  oo_wf : q_wf q;
  oo_size : 0 < size /\ q_size q = size * cap;
  oo_count : q_count q = size * k /\ 0 <= k <= cap;
}.
Lemma int_next_small i : i < 2147483647 -> int_next i = Some (i + 1).
Proof. intros Hi. unfold int_next. change (2 ^ 31 - 1) with 2147483647. by rewrite (proj2 (Z.ltb_lt _ _)). Qed.
Lemma push_object q m size cap k a :
  objects_ok q size cap k -> k < cap -> q_disjoint q a size ->
  let '(q', m') := queue_Push q m a size in
  q_contents q' m' = q_contents q m ++ bytes m a size /\ objects_ok q' size cap (k + 1) /\
  q_data q' = q_data q /\ q_size q' = q_size q /\ same_outside (q_data q) (q_size q) m m'.
Proof.
  intros [Hw [Hs Hsz] [Hc Hk]] Hlt Hd. unfold queue_Push, queue_Space. rewrite (proj2 (Z.ltb_ge _ _)) by nia.
  pose proof (queue_Push_loop_spec (Z.to_nat size) q m a Hw) as Hp. rewrite Z2Nat.id in Hp by lia.
  destruct (queue_Push_loop _ _ _ _) as [q' m']. destruct Hp as (Hc' & Hw' & Hd' & Hs' & Hf); [nia|done|].
  split; [done|]. split; [|done]. constructor; [done|split; [done|congruence]|]. split; [|lia].
  pose proof (length_q_contents q' m' Hw') as Hl. rewrite Hc', length_app, length_bytes in Hl. pose proof (length_q_contents q m Hw). lia.
Qed.

Lemma send_fill_spec size cap data count fuel : forall q m i k,
  objects_ok q size cap k -> 0 <= i <= count -> count < 2 ^ 31 -> (Z.to_nat (count - i) <= fuel)%nat ->
  0 <= data -> data + count * size < 2 ^ 64 -> q_disjoint q data (count * size) ->
  let j := Z.min (count - i) (cap - k) in
  exists q' m', send_fill fuel q m data size i count = Some (q', m', i + j) /\  q_contents q' m' = q_contents q m ++ bytes m (data + i * size) (j * size) /\
  objects_ok q' size cap (k + j) /\ q_data q' = q_data q /\ same_outside (q_data q) (q_size q) m m'.
Proof.
  change (2 ^ 64) with 18446744073709551616. change (2 ^ 31) with 2147483648.
  induction fuel as [|fuel IH]; intros q m i k Ho Hi Hint Hf Hd0 Hd1 Hdj j; cbn [send_fill]; pose proof Ho as [Hw [Hs Hsz] [Hc Hk]].
  { assert (j = 0) as -> by lia. rewrite !Z.add_0_r, bytes_0, app_nil_r. by exists q, m. }
  unfold queue_Space. destruct (Z.ltb_spec i count) as [Hlt|Hge]; cbn [andb].
  2:{ assert (j = 0) as -> by lia. rewrite !Z.add_0_r, bytes_0, app_nil_r. by exists q, m. }
  destruct (Z.eqb_spec (q_size q - q_count q) 0) as [E|E]; cbn [negb].
  { assert (k = cap) as -> by nia. assert (j = 0) as -> by lia. rewrite !Z.add_0_r, bytes_0, app_nil_r. by exists q, m. }
  assert (k < cap) as Hkc by nia. assert (0 <= i * size /\ i * size + size <= count * size) as [Hi0 Hi1] by nia.
  rewrite u64_small by lia. assert (q_disjoint q (data + i * size) size) as Hdi by (unfold q_disjoint in *; lia).
  pose proof (push_object q m size cap k (data + i * size) Ho Hkc Hdi) as Hp.
  destruct (queue_Push q m (data + i * size) size) as [q1 m1]. destruct Hp as (Hc1 & Ho1 & Ed1 & Es1 & Hf1).
  rewrite int_next_small by lia. cbn [mbind option_bind].
  specialize (IH q1 m1 (i + 1) (k + 1) Ho1). cbv zeta in IH. set (j1 := Z.min (count - (i + 1)) (cap - (k + 1))) in *. assert (j = 1 + j1) as Ej by lia.
  destruct IH as (q2 & m2 & -> & Hc2 & Ho2 & Ed2 & Hf2); [lia|lia|lia|done|done|unfold q_disjoint in *; rewrite Ed1, Es1; done|].
  exists q2, m2. split; [do 2 f_equal; lia|]. split; [|split; [|split; [congruence|]]].
  - rewrite Hc2, Hc1, <- app_assoc. f_equal. rewrite Ej. replace ((1 + j1) * size) with (size + j1 * size) by lia.
    assert (0 <= j1) by lia. rewrite bytes_app by nia. f_equal. replace (data + i * size + size) with (data + (i + 1) * size) by lia.
    apply bytes_ext. intros x Hx. apply Hf1. assert ((i + 1) * size + j1 * size <= count * size) by nia. unfold q_disjoint in Hdj. lia.
  - by replace (k + j) with (k + 1 + j1) by lia.
  - eapply same_outside_trans; [exact Hf1|]. by rewrite <- Ed1, <- Es1.
Qed.

(** ** The loop over the objects left over *)

(** Calls on conditions neither change the thread that runs nor take a thread or
    its wait block away. *)
Record keeps (s s' : sync) : Prop := {
  kp_current : Current (sched s') = Current (sched s);
  kp_threads t th : Threads (sched s) !! t = Some th ->
    exists th', Threads (sched s') !! t = Some th' /\ (is_Some (wait th) -> is_Some (wait th'));
}.
#[export] Instance keeps_refl : Reflexive keeps.
Proof. intros s. split; [done|]. intros t th E. by exists th. Qed.
#[export] Instance keeps_trans : Transitive keeps.
Proof.
  intros s1 s2 s3 [C1 T1] [C2 T2]. split; [congruence|]. intros t th E. destruct (T1 t th E) as (th2 & E2 & W2).
  destruct (T2 t th2 E2) as (th3 & E3 & W3). exists th3. by split; [|intros W; apply W3, W2].
Qed.
Lemma keeps_conds s x : keeps s (set_conds x s).
Proof. split; [done|]. intros t th E. by exists th. Qed.
Lemma keeps_wait s t th w : Threads (sched s) !! t = Some th ->
  keeps s (set_sched (set_threads (<[t := t_set_wait (Some w) th]> (Threads (sched s))) (sched s)) s).
Proof.
  intros E. split; [done|]. intros u thu Eu. cbn. destruct (decide (u = t)) as [->|Hn].
  - rewrite lookup_insert_eq. eexists. split; [reflexivity|]. by eexists.
  - rewrite lookup_insert_ne by done. by exists thu.
Qed.
Lemma keeps_waiters s s' l : keeps s s' -> waiters s l -> waiters s' l.
Proof.
  intros [_ HT] [Hnd Hl]. split; [done|]. intros t Ht. destruct (Hl t Ht) as (th & w & E & W).
  destruct (HT t th E) as (th' & E' & W'). destruct W' as [w' W']; [by exists w|]. by exists th', w'.
Qed.
Lemma modify_wait_keeps s t f s' : modify_wait s t f = Some s' -> keeps s s'.
Proof.
  unfold modify_wait. destruct (Threads (sched s) !! t) as [th|] eqn:E; [|done]. cbn [mbind option_bind].
  destruct (wait th) as [w|]; [|done]. cbn [mbind option_bind]. intros [= <-]. by apply keeps_wait.
Qed.
Lemma NotifyAll_keeps s c data s' r : smp_Condition_NotifyAll s c data = Some (s', r) -> keeps s s'.
Proof.
  unfold smp_Condition_NotifyAll. destruct (conds s !! c) as [l|]; [|done]. cbn [mbind option_bind]. zcase; [by intros [= <- _]|].
  destruct (notify_each s l data) as [s1|] eqn:E; [|done]. cbn [mbind option_bind]. intros [= <- _].
  transitivity s1; [|apply keeps_conds]. clear - E. revert s E. induction l as [|t l IH]; intros s E; cbn [notify_each] in E; [by simplify_eq|].
  destruct (modify_wait s t _) as [s2|] eqn:E2; [|done]. cbn [mbind option_bind] in E. transitivity s2; [by eapply modify_wait_keeps|by apply IH].
Qed.
Lemma NotifyOne_keeps s c data s' r : smp_Condition_NotifyOne s c data = Some (s', r) -> keeps s s'.
Proof.
  unfold smp_Condition_NotifyOne. destruct (conds s !! c) as [l|]; [|done]. cbn [mbind option_bind].
  destruct (last l) as [t|]; [|by intros [= <- _]]. destruct (modify_wait s t _) as [s1|] eqn:E; [|done]. cbn [mbind option_bind].
  intros [= <- _]. transitivity s1; [by eapply modify_wait_keeps|apply keeps_conds].
Qed.
Lemma Wait_spec s c t th l : Current (sched s) = Some t -> Threads (sched s) !! t = Some th -> conds s !! c = Some l -> c <> 0 ->
  exists s', smp_Condition_Wait s c = Some s' /\ conds s' = <[c := l ++ [t]]> (conds s) /\ still_waiting s' t /\ keeps s s'.
Proof.
  intros Ec Et El Hc. unfold smp_Condition_Wait, fill_wait. rewrite Ec. cbn [mbind option_bind]. rewrite Et. cbn [mbind option_bind].
  cbn [conds set_sched]. rewrite El. cbn [mbind option_bind]. eexists. split; [reflexivity|]. split; [reflexivity|]. split.
  - eexists. split; [cbn; by rewrite lookup_insert_eq|]. unfold __smp_Thread_Waiting_IsWaiting. cbn. by rewrite (proj2 (Z.eqb_neq c 0)).
  - etransitivity; [by apply (keeps_wait s t th)|apply keeps_conds].
Qed.

Section Left.
(** A call by thread [self] on the channel [c], with its objects as they are in
    [m0]. *)
Variables (others : yield -> world -> option world) (self : Z) (c : smp_Channel) (m0 : mem) (data count : Z).
(** A world in which the sender can go on: it runs, the channel is where it was and
    not destroyed, and the objects have not been changed. *)
Record able (w : world) : Prop := {
  ab_channel : ch_addr w.1.2 = ch_addr c /\ ch_buffer w.1.2 = ch_buffer c /\ ch_send w.1.2 = ch_send c /\ ch_recv w.1.2 = ch_recv c /\
    objSize w.1.2 = objSize c;
  ab_data : bytes w.2 data (count * objSize c) = bytes m0 data (count * objSize c);
  ab_runs : Current (sched w.1.1) = Some self /\ is_Some (Threads (sched w.1.1) !! self);
  ab_send : is_Some (conds w.1.1 !! ch_send c);
  ab_recv : exists l, conds w.1.1 !! ch_recv c = Some l /\ waiters w.1.1 l;
}.
(** The others always let the sender run again, in such a world. *)
Definition resumes : Prop := forall y w, able w -> exists w', others y w = Some w' /\ able w'.

(** The sender is in the list of the senders, and waits. *)
Definition sender_waits (w : world) : Prop := (exists l, conds w.1.1 !! ch_send c = Some (l ++ [self])) /\ still_waiting w.1.1 self.
(** Object [i] is in the channel's buffer, and of the receivers waiting the last
    is told; none is told when there is none. *)
Definition hands_over (i : Z) (w w' : world) : Prop :=
  bytes w'.2 (ch_buffer c) (objSize c) = bytes m0 (data + i * objSize c) (objSize c) /\
  (forall l t, conds w.1.1 !! ch_recv c = Some (l ++ [t]) ->
     conds w'.1.1 !! ch_recv c = Some l /\ ~ still_waiting w'.1.1 t /\ wait_data w'.1.1 t = Some 1) /\
  (conds w.1.1 !! ch_recv c = Some [] -> w'.1.1 = w.1.1).
(** The objects from [i] on, each with a wait before it. *)
Inductive hand_overs : Z -> list (yield * world) -> Prop :=
  | hand_overs_end i : count <= i -> hand_overs i []
  | hand_overs_next i w1 w2 w3 log : i < count -> sender_waits w1 -> others (Waits i) w1 = Some w2 -> hands_over i w2 w3 ->
      hand_overs (i + 1) log -> hand_overs i ((Waits i, w1) :: (Handed i, w3) :: log).

Hypothesis Hsize : 0 < objSize c.
Hypothesis Hcount : 0 <= count < 2147483648.
Hypothesis Hdata : 0 <= data /\ data + count * objSize c < 18446744073709551616.
Hypothesis Hbuffer : ch_buffer c + objSize c <= data \/ data + count * objSize c <= ch_buffer c.
Hypothesis Hconds : ch_send c <> 0 /\ ch_send c <> ch_recv c.

Lemma send_wait_able w : able w -> exists w', send_wait w = Some w' /\ able w' /\ sender_waits w'.
Proof.
  destruct w as [[s c'] m]. intros [(Ea & Eb & Es & Er & Eo) Hd [Hc [th Ht]] [l Hl] (lr & Hlr & Hw)]. cbn [fst snd] in *.
  destruct Hconds as [Hn0 Hne]. destruct (Wait_spec s (ch_send c) self th l Hc Ht Hl Hn0) as (s' & E & Ec & Hst & Hk).
  unfold send_wait. rewrite Es, E. cbn [mbind option_bind]. eexists. split; [reflexivity|]. split.
  - constructor; cbn [fst snd]; [done|done| |rewrite Ec, lookup_insert_eq; by eexists|].
    + destruct Hk as [Hk1 Hk2]. split; [congruence|]. destruct (Hk2 self th Ht) as (th' & -> & _). by eexists.
    + exists lr. split; [by rewrite Ec, lookup_insert_ne|by eapply keeps_waiters].
  - split; [exists l; cbn [fst]; by rewrite Ec, lookup_insert_eq|exact Hst].
Qed.
Lemma object_at m i : bytes m data (count * objSize c) = bytes m0 data (count * objSize c) -> 0 <= i < count ->
  bytes m (data + i * objSize c) (objSize c) = bytes m0 (data + i * objSize c) (objSize c).
Proof.
  intros E Hi. assert (0 <= i * objSize c /\ i * objSize c + objSize c <= count * objSize c) as [H1 H2] by nia.
  apply tab_ext. intros x Hx. assert (load8 m (data + (i * objSize c + x)) = load8 m0 (data + (i * objSize c + x))) as Hy.
  { apply (f_equal (.!! Z.to_nat (i * objSize c + x))) in E. unfold bytes in E. rewrite !lookup_tab, !Z2Nat.id in E by lia. by injection E. }
  by rewrite !Z.add_assoc in Hy.
Qed.
Lemma send_one_able w i : able w -> 0 <= i < count -> exists w', send_one w data i = Some w' /\ able w' /\ hands_over i w w'.
Proof.
  destruct w as [[s c'] m]. intros [(Ea & Eb & Es & Er & Eo) Hd [Hc [th Ht]] Hsd (lr & Hlr & Hw)] Hi. cbn [fst snd] in *.
  assert (0 <= i * objSize c /\ i * objSize c + objSize c <= count * objSize c) as [H1 H2] by nia.
  unfold send_one. rewrite Eo, Eb, Er, u64_small by lia. set (m' := memcpy _ _ _ _).
  assert (exists s' r, smp_Condition_NotifyOne s (ch_recv c) 1 = Some (s', r) /\ keeps s s' /\ is_Some (conds s' !! ch_send c) /\
    (exists l, conds s' !! ch_recv c = Some l /\ waiters s' l) /\ (lr = [] -> s' = s) /\
    (forall l t, lr = l ++ [t] -> conds s' !! ch_recv c = Some l /\ ~ still_waiting s' t /\ wait_data s' t = Some 1)) as (s' & r & -> & Hk & Hs' & Hr' & H0 & H').
  { destruct lr as [|t lr _] using rev_ind.
    - exists s, false. unfold smp_Condition_NotifyOne. rewrite Hlr. cbn. split_and!; try done; [by exists []|]. intros l t E. by destruct l.
    - destruct (NotifyOne_spec s (ch_recv c) 1 lr t Hlr) as (s' & E & Ec & N1 & N2 & _); [apply (proj2 Hw), elem_of_app; right; by left|].
      exists s', true. pose proof (NotifyOne_keeps _ _ _ _ _ E) as Hk. split_and!; [done|done| | |by destruct lr|].
      + destruct Hconds as [_ Hne]. by rewrite Ec, lookup_insert_ne.
      + exists lr. split; [by rewrite Ec, lookup_insert_eq|]. eapply keeps_waiters; [exact Hk|]. destruct Hw as [Hnd Hl]. split; [by apply NoDup_app in Hnd as (Hnd & _)|].
        intros u Hu. apply Hl, elem_of_app. by left.
      + intros l u [<- [= <-]]%app_inj_tail. split; [by rewrite Ec, lookup_insert_eq|done]. }
  cbn [mbind option_bind]. eexists. split; [reflexivity|]. split.
  - constructor; cbn [fst snd]; [done| | |done|done].
    + rewrite <- Hd. apply bytes_ext. intros x Hx. unfold m'. apply memcpy_out. lia.
    + destruct Hk as [Hk1 Hk2]. split; [congruence|]. destruct (Hk2 self th Ht) as (th' & -> & _). by eexists.
  - split; cbn [fst snd]; [|split].
    + unfold m'. rewrite bytes_memcpy by lia. by apply object_at.
    + intros l t E. apply H'. congruence.
    + intros E. apply H0. congruence.
Qed.
Lemma send_left_spec fuel : resumes -> forall w i, able w -> 0 <= i <= count -> (Z.to_nat (count - i) <= fuel)%nat ->
  exists log w', send_left others fuel w data i count = Some (log, w') /\ hand_overs i log /\ able w'.
Proof.
  intros Hres. induction fuel as [|fuel IH]; intros w i Hw Hi Hf; cbn [send_left].
  { rewrite (proj2 (Z.ltb_ge _ _)) by lia. exists [], w. split; [done|]. split; [constructor; lia|done]. }
  destruct (Z.ltb_spec i count) as [Hlt|Hge]; [|exists [], w; split; [done|]; split; [by constructor|done]].
  destruct (send_wait_able w Hw) as (w1 & -> & A1 & S1). cbn [mbind option_bind].
  destruct (Hres (Waits i) w1 A1) as (w2 & E2 & A2). rewrite E2. cbn [mbind option_bind].
  destruct (send_one_able w2 i A2) as (w3 & -> & A3 & H3); [lia|]. cbn [mbind option_bind].
  destruct (Hres (Handed i) w3 A3) as (w4 & E4 & A4). rewrite E4. cbn [mbind option_bind]. rewrite int_next_small by lia. cbn [mbind option_bind].
  destruct (IH w4 (i + 1) A4) as (log & w' & -> & Hl & Aw); [lia|lia|]. cbn [mbind option_bind]. eexists _, w'. split; [reflexivity|]. split; [|done].
  by econstructor.
Qed.
End Left.

(** * Properties *)

(** The allocations of a list of sizes succeed one after the other. *)
Section Alloc.
Context {H : Type} `{Allocator H}.
Fixpoint rooms (h : H) (m : mem) (ns : list Z) : Prop :=
  match ns with [] => True | n :: ns => 0 <= n /\ al_room h n /\ let '(p, h, m) := kMalloc h m n in rooms h m ns end.

(** Freeing the block allocated last. *)
Lemma free_block h m p n B : al_ok h -> al_blocks h = <[p := n]> B -> B !! p = None ->
  let '(h', m') := kFree h m p in al_ok h' /\ al_blocks h' = B.
Proof.
  intros Hok Hb HB. pose proof (kFree_law h m p n Hok) as Hl. rewrite Hb, lookup_insert_eq in Hl. specialize (Hl eq_refl).
  destruct (kFree h m p) as [h' m']. destruct Hl as (Hok' & Hb' & _). split; [done|]. by rewrite Hb', delete_insert_id.
Qed.

(** A buffered channel is created empty, with room for the objects asked
    for; destroying it wakes everybody that waits for either end and gives back
    every block of the channel. *)
Theorem smp_Channel_lifecycle s h m objectSize bufferSize send recv :
  al_ok h -> 0 < objectSize -> 0 < bufferSize -> objectSize * bufferSize < 2 ^ 64 -> send <> recv ->
  rooms h m [sizeof_Channel; objectSize; sizeof_Queue; objectSize * bufferSize] ->
  exists s1 h1 m1 c qa q, smp_Channel_Create s h m objectSize bufferSize send recv = (s1, h1, m1, c) /\
    ch_queue c = Some (qa, q) /\ objects_ok q objectSize bufferSize 0 /\ q_contents q m1 = [] /\
    conds s1 !! send = Some [] /\ conds s1 !! recv = Some [] /\
    forall s2 h2 m2 ls lr, conds s2 !! send = Some ls -> conds s2 !! recv = Some lr -> waiters s2 ls -> waiters s2 lr ->
      (forall t, t ∈ ls -> t ∉ lr) -> al_ok h2 -> al_blocks h2 = al_blocks h1 ->
      exists s3 h3 m3, smp_Channel_Destroy s2 h2 m2 c = Some (s3, h3, m3) /\ al_ok h3 /\ al_blocks h3 = al_blocks h /\
        (forall t, t ∈ ls \/ t ∈ lr -> ~ still_waiting s3 t).
Proof.
  change (2 ^ 64) with 18446744073709551616. intros Hok Ho Hb Hlt Hne (_ & R1 & HR). unfold smp_Channel_Create.
  pose proof (kMalloc_law h m sizeof_Channel Hok R1 ltac:(done)) as L1. destruct (kMalloc h m sizeof_Channel) as [[c1 h1] m1].
  destruct L1 as (Hok1 & N1 & B1 & _). destruct HR as (_ & R2 & HR).
  pose proof (kMalloc_law h1 m1 objectSize Hok1 R2 ltac:(lia)) as L2. destruct (kMalloc h1 m1 objectSize) as [[c2 h2] m2].
  destruct L2 as (Hok2 & N2 & B2 & _). destruct HR as (_ & R3 & HR).
  rewrite (proj2 (Z.eqb_neq bufferSize 0)) by lia. cbn [negb].
  pose proof (kMalloc_law h2 m2 sizeof_Queue Hok2 R3 ltac:(done)) as L3. destruct (kMalloc h2 m2 sizeof_Queue) as [[c3 h3] m3].
  destruct L3 as (Hok3 & N3 & B3 & _). destruct HR as (Hn & R4 & _). rewrite u64_small by lia.
  pose proof (kMalloc_law h3 m3 (objectSize * bufferSize) Hok3 R4 Hn) as L4. destruct (kMalloc h3 m3 (objectSize * bufferSize)) as [[c4 h4] m4].
  destruct L4 as (Hok4 & N4 & B4 & _). eexists _, h4, m4, _, c3, _. split; [reflexivity|]. split; [reflexivity|].
  assert (al_blocks h4 !! c4 = Some (objectSize * bufferSize)) as E4 by (by rewrite B4, lookup_insert_eq).
  destruct (al_live h4 c4 _ Hok4 E4) as (Hc4 & _ & Ht4 & _). split.
  { constructor; [apply queue_Init_wf; [lia|lia|nia]|split; [done|reflexivity]|split; [cbn; lia|lia]]. }
  split; [apply queue_Init_contents|]. cbn [conds smp_Condition_Create set_conds]. split; [by rewrite lookup_insert_ne, lookup_insert_eq|].
  split; [by rewrite lookup_insert_eq|]. intros s2 h5 m5 ls lr Es Er Ws Wr Hdis Hok5 B5. unfold smp_Channel_Destroy. cbn [ch_send ch_recv ch_queue ch_buffer ch_addr q_data queue_InitBuffered].
  destruct (NotifyAll_spec s2 send 0 ls Es Ws) as (s3 & -> & Ec & _ & Hin & Hout). cbn [mbind option_bind].
  assert (waiters s3 lr) as Wr'. { destruct Wr as [Hnd Hl]. split; [done|]. intros t Ht. rewrite Hout; [by apply Hl|]. intros Ht'. by apply (Hdis t). }
  destruct (NotifyAll_spec s3 recv 0 lr) as (s4 & E5 & _ & _ & Hin' & Hout'); [by rewrite Ec, lookup_insert_ne|done|].
  pose proof (NotifyAll_Now _ _ _ _ _ E5) as HNow. rewrite E5.
  cbn [mbind option_bind q_data queue_InitBuffered].
  pose proof (free_block h5 m5 c4 _ _ Hok5 (eq_trans B5 B4) N4) as F4. destruct (kFree h5 m5 c4) as [h6 m6]. destruct F4 as [Hok6 B6].
  pose proof (free_block h6 m6 c3 _ _ Hok6 (eq_trans B6 B3) N3) as F3. destruct (kFree h6 m6 c3) as [h7 m7]. destruct F3 as [Hok7 B7].
  pose proof (free_block h7 m7 c2 _ _ Hok7 (eq_trans B7 B2) N2) as F2. destruct (kFree h7 m7 c2) as [h8 m8]. destruct F2 as [Hok8 B8].
  pose proof (free_block h8 m8 c1 _ _ Hok8 (eq_trans B8 B1) N1) as F1. destruct (kFree h8 m8 c1) as [h9 m9]. destruct F1 as [Hok9 B9].
  exists s4, h9, m9. split; [reflexivity|]. split; [exact Hok9|]. split; [exact B9|]. intros t [Ht|Ht]; [|by apply (Hin' t)].
  unfold still_waiting. rewrite Hout', HNow by (by apply Hdis). by apply (Hin t).
Qed.
(** An unbuffered channel cannot be destroyed: the code reads its queue. *)
Theorem smp_Channel_Destroy_unbuffered s h m c : ch_queue c = None -> smp_Channel_Destroy s h m c = None.
Proof.
  intros E. unfold smp_Channel_Destroy. rewrite E. destruct (smp_Condition_NotifyAll s _ _) as [[s1 ?]|]; [|done]. cbn.
  by destruct (smp_Condition_NotifyAll s1 _ _) as [[? ?]|].
Qed.
End Alloc.

(** C35. Sending puts as many objects into the queue as it has room for, in
    order, and wakes every waiting receiver; each object left over is then handed
    over in its turn: the sender waits, and when it runs on the object is put in
    the channel's buffer and the last of the receivers waiting is told.  With other
    threads that always let the sender run again the call ends; without a queue all
    objects are handed over.  The value returned counts the queued objects only,
    so it is the count asked for only when all of them fit. *)
Theorem smp_Channel_Send_correct others self s c m data count :
  0 < objSize c -> 0 <= count < 2 ^ 31 -> 0 <= data /\ data + count * objSize c < 2 ^ 64 ->
  ch_buffer c + objSize c <= data \/ data + count * objSize c <= ch_buffer c -> ch_send c <> 0 /\ ch_send c <> ch_recv c ->
  able self c m data count (s, c, m) -> resumes others self c m data count ->
  (ch_queue c = None -> exists log w', smp_Channel_Send others (s, c, m) data count = Some (log, w', 0) /\
     hand_overs others self c m data count 0 log) /\
  (forall qa q cap k lr, ch_queue c = Some (qa, q) -> objects_ok q (objSize c) cap k -> q_disjoint q data (count * objSize c) ->
     conds s !! ch_recv c = Some lr ->
     let j := Z.min count (cap - k) in
     exists s1 q1 m1 log w', smp_Channel_Send others (s, c, m) data count =
         Some ((Queued, (s1, mk_channel (ch_addr c) (Some (qa, q1)) (ch_buffer c) (ch_send c) (ch_recv c) (objSize c), m1)) :: log, w', j) /\
       (j = count <-> count <= cap - k) /\
       q_contents q1 m1 = q_contents q m ++ bytes m data (j * objSize c) /\ objects_ok q1 (objSize c) cap (k + j) /\
       same_outside (q_data q) (q_size q) m m1 /\
       (conds s1 !! ch_recv c = Some [] /\ forall t, t ∈ lr -> ~ still_waiting s1 t) /\
       hand_overs others self c m data count j log).
Proof.
  change (2 ^ 31) with 2147483648. change (2 ^ 64) with 18446744073709551616. intros Hs Hc Hd Hb Hn Ha Hres. unfold smp_Channel_Send. split.
  - intros ->. cbn [mbind option_bind]. destruct (send_left_spec others self c m data count Hs Hc Hd Hb Hn (Z.to_nat count) Hres (s, c, m) 0 Ha)
      as (log & w' & -> & Hl & _); [lia|lia|]. cbn [mbind option_bind app]. by exists log, w'.
  - intros qa q cap k lr Eq Ho Hdj Hr. set (j := Z.min count (cap - k)). rewrite Eq. pose proof Ho as [_ [_ Hsz] [_ Hk]].
    destruct (send_fill_spec (objSize c) cap data count (Z.to_nat count) q m 0 k Ho) as (q1 & m1 & E & Hcon & Ho1 & _ & Hsame); [lia|lia|lia|lia|lia|done|].
    rewrite Z.sub_0_r in E, Hcon, Ho1. fold j in E, Hcon, Ho1. rewrite Z.add_0_l in E. rewrite Z.mul_0_l, Z.add_0_r in Hcon.
    rewrite E. cbn [mbind option_bind]. destruct Ha as [_ _ [Hcu [th Ht]] Hse (lr' & Hr' & Hw)]. cbn [fst snd] in *. assert (lr' = lr) as -> by congruence.
    destruct (NotifyAll_spec s (ch_recv c) 0 lr Hr Hw) as (s1 & EN & Ec & _ & Hin & _). pose proof (NotifyAll_keeps _ _ _ _ _ EN) as [K1 K2].
    rewrite EN. cbn [mbind option_bind]. set (w1 := (s1, _, m1)). assert (able self c m data count w1) as A1.
    { constructor; cbn [fst snd w1]; [done| | | |].
      - apply bytes_ext. intros x Hx. apply Hsame. unfold q_disjoint in Hdj. lia.
      - split; [congruence|]. destruct (K2 self th Ht) as (th' & -> & _). by eexists.
      - by rewrite Ec, lookup_insert_ne by (intros E'; by apply (proj2 Hn)).
      - exists []. split; [by rewrite Ec, lookup_insert_eq|]. split; [constructor|]. by intros t Ht'%not_elem_of_nil. }
    destruct (Hres Queued w1 A1) as (w2 & E2 & A2). rewrite E2. cbn [mbind option_bind].
    destruct (send_left_spec others self c m data count Hs Hc Hd Hb Hn (Z.to_nat count) Hres w2 j A2) as (log & w' & -> & Hl & _); [lia|lia|].
    cbn [mbind option_bind app]. exists s1, q1, m1, log, w'. split; [reflexivity|]. split; [lia|]. split; [exact Hcon|]. split; [exact Ho1|].
    split; [exact Hsame|]. split; [|exact Hl]. split; [by rewrite Ec, lookup_insert_eq|]. intros t Ht'. by apply Hin.
Qed.

(** A channel with room for two objects of four bytes, thread 2 waiting for them;
    thread 1 sends three.  The others do nothing but end the sender's wait. *)
Definition demo_chan : smp_Channel := mk_channel 10 (Some (20, queue_InitBuffered 1000 8)) 30 40 50 4.
Definition demo_waits : sync := mk_sync demo_smp {[40 := []; 50 := [2]]} ∅.
Definition demo_others (y : yield) (w : world) : option world :=
  let '(s, c, m) := w in
  match y with
  | Waits _ => Some (match smp_Condition_NotifyOne s 40 0 with Some (s, _) => s | None => s end, c, m)
  | _ => Some w
  end.
Lemma demo_resumes : resumes demo_others 1 demo_chan (fun a => a) 100 3.
Proof.
  intros y [[s c] m] Hw. destruct y; [by exists (s, c, m)| |by exists (s, c, m)]. unfold demo_others.
  destruct (smp_Condition_NotifyOne s 40 0) as [[s' r]|] eqn:E; [|by exists (s, c, m)]. exists (s', c, m). split; [reflexivity|].
  pose proof (NotifyOne_keeps _ _ _ _ _ E) as Hk. destruct Hw as [H1 H2 [H3 [th Ht]] H4 (l & Hl & Hw)]. cbn [fst snd] in *.
  assert (is_Some (conds s' !! 40) /\ conds s' !! 50 = conds s !! 50) as [C1 C2].
  { unfold smp_Condition_NotifyOne in E. destruct (conds s !! 40) as [l4|]; [|discriminate]. cbn [mbind option_bind] in E.
    destruct (last l4) as [t|]; [|by injection E as <- _]. destruct (modify_wait s t _) as [s2|] eqn:E2; [|done]. cbn [mbind option_bind] in E.
    injection E as <- _. unfold modify_wait in E2. destruct (Threads (sched s) !! t) as [th2|]; [|done]. cbn [mbind option_bind] in E2.
    destruct (wait th2); [|done]. injection E2 as <-. cbn [conds set_conds set_sched].
    split; [rewrite lookup_insert_eq; by eexists|by rewrite lookup_insert_ne]. }
  constructor; cbn [fst snd]; [done|done| |done|].
  - destruct Hk as [K1 K2]. split; [congruence|]. destruct (K2 1 th Ht) as (th' & -> & _). by eexists.
  - exists l. split; [change (ch_recv demo_chan) with 50 in *; congruence|by eapply keeps_waiters].
Qed.
Lemma smp_Channel_Send_correct_witness :
  exists w1 w2 w3 w', smp_Channel_Send demo_others (demo_waits, demo_chan, fun a => a) 100 3 =
      Some ([(Queued, w1); (Waits 2, w2); (Handed 2, w3)], w', 2) /\
    ~ still_waiting w1.1.1 2 /\ still_waiting w2.1.1 1 /\ bytes w3.2 30 4 = [108; 109; 110; 111].
Proof.
  destruct (smp_Channel_Send_correct demo_others 1 demo_waits demo_chan (fun a => a) 100 3) as [_ H]; [cbn; lia|lia|cbn; lia|cbn; lia|cbn; lia| |exact demo_resumes|].
  { constructor; [done|done|split; [reflexivity|by eexists]|by eexists|]. exists [2]. split; [reflexivity|]. split; [apply NoDup_singleton|].
    intros t Ht. apply list_elem_of_singleton in Ht as ->. by eexists _, _. }
  destruct (H 20 (queue_InitBuffered 1000 8) 2 0 [2]) as (s1 & q1 & m1 & log & w' & E & _ & _ & _ & _ & [_ Ht] & Hl);
    [reflexivity|constructor; [apply queue_Init_wf; lia|split; [cbn; lia|reflexivity]|split; [reflexivity|lia]]|left; cbn; lia|reflexivity|].
  change (Z.min 3 (2 - 0)) with 2 in Hl. inversion Hl as [|i w1 w2 w3 log' _ Hs E2 Hh Hl']; subst; [lia|]. inversion Hl' as [|? ? ? ? ? Hlt]; subst; [|lia].
  eexists _, w1, w3, w'. split; [exact E|]. split; [apply Ht; left|]. split; [exact (proj2 Hs)|]. exact (proj1 Hh).
Defined.
Lemma smp_Channel_lifecycle_witness :
  exists s1 h1 m1 c qa q, smp_Channel_Create demo_sync (mk_bump 1000 ∅) (fun _ => 0) 4 2 700 800 = (s1, h1, m1, c) /\
    ch_queue c = Some (qa, q) /\ q_contents q m1 = [].
Proof.
  destruct (smp_Channel_lifecycle demo_sync (mk_bump 1000 ∅) (fun _ => 0) 4 2 700 800) as (s1 & h1 & m1 & c & qa & q & E & Eq & _ & Ec & _).
  - constructor; [by vm_compute|intros a k Hk; by destruct (lookup_empty_Some a k)|intros a k b l Hk; by destruct (lookup_empty_Some a k)].
  - lia.
  - lia.
  - by vm_compute.
  - lia.
  - cbn. split_and!; by vm_compute.
  - exists s1, h1, m1, c, qa, q. split; [exact E|]. split; [exact Eq|exact Ec].
Defined.
