(* ===== verification/Ports.v ===== *)
(** * Port input and output, and the devices behind the ports

    The kernel drives its devices with [inb] and [outb] (internal.h of
    src/driver/irq/pic).  A machine is any type with the two; what the drivers
    rely on is the documented behaviour of the chips: the 8259A interrupt
    controllers, the MC146818 clock and the 16550 serial port, as state
    machines that the accesses step.  [pc] is an instance. *)

From S2P Require Import Prelude.

Class Ports (D : Type) := {
  inb : D -> Z -> Z * D;
  outb : D -> Z -> Z -> D;
}.
(** The second write, to an unused port, is a delay. *)
Definition outb_wait {D} `{Ports D} (d : D) (port val : Z) : D := outb (outb d port val) 0x80 val.
Definition io_wait {D} `{Ports D} (d : D) : D := outb d 0x80 0.

(** ** The 8259A *)

(** [phase] is the initialisation word expected at the data port, 0 when the
    chip operates; [eois] counts the end-of-interrupt commands. *)
Record i8259 := mk_i8259 {
  imr : Z; irr : Z; isr : Z; vector_base : Z; cascade : Z; mode : Z; phase : Z; ocw3 : Z; eois : Z;
}.
Definition i8259_command (s : i8259) (v : Z) : i8259 :=
  if Z.testbit v 4 then mk_i8259 0 0 0 (vector_base s) (cascade s) (mode s) 2 0x0a (eois s)
  else if Z.testbit v 3 then mk_i8259 (imr s) (irr s) (isr s) (vector_base s) (cascade s) (mode s) (phase s) v (eois s)
  else mk_i8259 (imr s) (irr s) (isr s) (vector_base s) (cascade s) (mode s) (phase s) (ocw3 s) (if v =? 0x20 then eois s + 1 else eois s).
Definition i8259_data (s : i8259) (v : Z) : i8259 :=
  if phase s =? 2 then mk_i8259 (imr s) (irr s) (isr s) (v / 8 * 8) (cascade s) (mode s) 3 (ocw3 s) (eois s)
  else if phase s =? 3 then mk_i8259 (imr s) (irr s) (isr s) (vector_base s) v (mode s) 4 (ocw3 s) (eois s)
  else if phase s =? 4 then mk_i8259 (imr s) (irr s) (isr s) (vector_base s) (cascade s) v 0 (ocw3 s) (eois s)
  else mk_i8259 v (irr s) (isr s) (vector_base s) (cascade s) (mode s) (phase s) (ocw3 s) (eois s).
Definition i8259_read_command (s : i8259) : Z := if Z.testbit (ocw3 s) 0 then isr s else irr s.

Definition PIC_command (slave : bool) : Z := if slave then 0xA0 else 0x20.
Definition PIC_data (slave : bool) : Z := if slave then 0xA1 else 0x21.

Class Pics (D : Type) `{Ports D} := {
  pic : D -> bool -> i8259;
  pic_out : forall d p v s, 0 <= v < 256 ->
    pic (outb d p v) s =
      if p =? PIC_command s then i8259_command (pic d s) v
      else if p =? PIC_data s then i8259_data (pic d s) v else pic d s;
  pic_in : forall d p s, pic (inb d p).2 s = pic d s;
  pic_in_data : forall d s, (inb d (PIC_data s)).1 = u8 (imr (pic d s));
  pic_in_command : forall d s, (inb d (PIC_command s)).1 = u8 (i8259_read_command (pic d s));
}.

(** ** The real-time clock *)

(** An access to the data port moves the index to register D. *)
Record rtc := mk_rtc { rtc_index : Z; rtc_reg : Z -> Z }.
Definition rtc_out (s : rtc) (p v : Z) : rtc :=
  if p =? 0x70 then mk_rtc (v mod 128) (rtc_reg s)
  else if p =? 0x71 then mk_rtc 0x0d (fun i => if i =? rtc_index s then v else rtc_reg s i)
  else s.
Definition rtc_in (s : rtc) (p : Z) : rtc := if p =? 0x71 then mk_rtc 0x0d (rtc_reg s) else s.

Class Rtc (D : Type) `{Ports D} := {
  clock : D -> rtc;
  clock_out : forall d p v, clock (outb d p v) = rtc_out (clock d) p v;
  clock_in : forall d p, clock (inb d p).2 = rtc_in (clock d) p;
  clock_in_data : forall d, (inb d 0x71).1 = u8 (rtc_reg (clock d) (rtc_index (clock d)));
}.

(** ** The 16550 *)

(** [wait] status reads find the transmitter busy; a byte sent in loopback is
    received; resetting the FIFOs drops what they hold.  A byte written while the transmitter is busy goes out only when
    the chip has room for it: [lost] says that it had none. *)
Record uart := mk_uart {
  sent : list Z; received : list Z; wait : nat; lcr : Z; mcr : Z; ier : Z; divisor : Z;
}.
Definition uart_out (base : Z) (delay : nat) (lost : bool) (s : uart) (p v : Z) : uart :=
  if p =? base + 3 then mk_uart (sent s) (received s) (wait s) v (mcr s) (ier s) (divisor s)
  else if p =? base + 4 then mk_uart (sent s) (received s) (wait s) (lcr s) v (ier s) (divisor s)
  else if p =? base + 2 then
    mk_uart (sent s) (if Z.testbit v 1 then [] else received s) (if Z.testbit v 2 then O else wait s) (lcr s) (mcr s) (ier s) (divisor s)
  else if p =? base + 1 then
    if Z.testbit (lcr s) 7 then mk_uart (sent s) (received s) (wait s) (lcr s) (mcr s) (ier s) (divisor s mod 256 + 256 * v)
    else mk_uart (sent s) (received s) (wait s) (lcr s) (mcr s) v (divisor s)
  else if p =? base then
    if Z.testbit (lcr s) 7 then mk_uart (sent s) (received s) (wait s) (lcr s) (mcr s) (ier s) (divisor s / 256 * 256 + v)
    else if lost && negb (wait s =? 0)%nat then s
    else if Z.testbit (mcr s) 4 then mk_uart (sent s) (received s ++ [v]) (wait s) (lcr s) (mcr s) (ier s) (divisor s)
    else mk_uart (sent s ++ [v]) (received s) delay (lcr s) (mcr s) (ier s) (divisor s)
  else s.
Definition uart_in (base : Z) (s : uart) (p : Z) : uart :=
  if p =? base then mk_uart (sent s) (tail (received s)) (wait s) (lcr s) (mcr s) (ier s) (divisor s)
  else if p =? base + 5 then mk_uart (sent s) (received s) (pred (wait s)) (lcr s) (mcr s) (ier s) (divisor s)
  else s.

(** A serial port at [base]: each write may set its own delay, a byte written
    to a busy transmitter may be lost, and writes to other ports leave it
    alone. *)
Class Uart (D : Type) `{Ports D} (base : Z) := {
  serial : D -> uart;
  serial_out : forall d p v, 0 <= v < 256 -> exists delay lost, serial (outb d p v) = uart_out base delay lost (serial d) p v;
  serial_in : forall d p, serial (inb d p).2 = uart_in base (serial d) p;
  serial_in_data : forall d b l, received (serial d) = b :: l -> (inb d base).1 = b;
  serial_in_status : forall d,
    Z.testbit (inb d (base + 5)).1 5 = (wait (serial d) =? 0)%nat /\
    Z.testbit (inb d (base + 5)).1 0 = negb (bool_decide (received (serial d) = []));
}.

(** ** An instance *)

(** Both controllers, the clock, and a serial port at 0x3f8 that is busy for two
    status reads after every byte and loses the bytes written meanwhile. *)
Record pc := mk_pc { pc_master : i8259; pc_slave : i8259; pc_rtc : rtc; pc_uart : uart }.
Definition COM1 : Z := 0x3f8.
Definition pc_pic (d : pc) (slave : bool) : i8259 := if slave then pc_slave d else pc_master d.
Definition step_pic (slave : bool) (s : i8259) (p v : Z) : i8259 :=
  if p =? PIC_command slave then i8259_command s v else if p =? PIC_data slave then i8259_data s v else s.
Definition pc_out (d : pc) (p v : Z) : pc :=
  mk_pc (step_pic false (pc_master d) p v) (step_pic true (pc_slave d) p v) (rtc_out (pc_rtc d) p v) (uart_out COM1 2 true (pc_uart d) p v).
Definition pc_in (d : pc) (p : Z) : Z * pc :=
  ((if p =? PIC_data false then u8 (imr (pc_master d)) else if p =? PIC_data true then u8 (imr (pc_slave d))
    else if p =? PIC_command false then u8 (i8259_read_command (pc_master d))
    else if p =? PIC_command true then u8 (i8259_read_command (pc_slave d))
    else if p =? 0x71 then u8 (rtc_reg (pc_rtc d) (rtc_index (pc_rtc d)))
    else if p =? COM1 then default 0 (head (received (pc_uart d)))
    else if p =? COM1 + 5
      then (if (wait (pc_uart d) =? 0)%nat then 32 else 0) + (if bool_decide (received (pc_uart d) = []) then 0 else 1)
    else 0),
   mk_pc (pc_master d) (pc_slave d) (rtc_in (pc_rtc d) p) (uart_in COM1 (pc_uart d) p)).
#[export] Instance pc_Ports : Ports pc := {| inb := pc_in; outb := pc_out |}.
#[export, program] Instance pc_Pics : Pics pc := {| pic := pc_pic |}.
Next Obligation. by intros d p v []. Qed.
Next Obligation. by intros d p []. Qed.
Next Obligation. by intros d []. Qed.
Next Obligation. by intros d []. Qed.
#[export, program] Instance pc_Rtc : Rtc pc := {| clock := pc_rtc |}.
Next Obligation. done. Qed.
Next Obligation. done. Qed.
Next Obligation. done. Qed.
#[export, program] Instance pc_Uart : Uart pc COM1 := {| serial := pc_uart |}.
Next Obligation. intros d p v _. by exists 2%nat, true. Qed.
Next Obligation. done. Qed.
Next Obligation. intros d b l E. cbn. by rewrite E. Qed.
Next Obligation. intros d. cbn. by destruct (wait (pc_uart d) =? 0)%nat, (bool_decide _). Qed.

(** A machine as it may be found. *)
Definition pc_boot : pc :=
  mk_pc (mk_i8259 0 0 0 8 0 0 0 0 0) (mk_i8259 0 0 0 0x70 0 0 0 0 0) (mk_rtc 0 (fun _ => 2)) (mk_uart [] [] 0 0 0 0 0).
