(* ===== verification/Interrupt.v ===== *)
(** * Interrupts (src/interrupt)

    The global and interrupt descriptor tables the kernel builds in memory, the
    handler entries written by [interrupt_MapHandler] (map_handler.S), and the
    state of the processor they are loaded into. *)

From S2P Require Import Prelude Mem.

Definition GDT_SIZE_BYTES : Z := 8.
Definition GDT_EXEC : Z := 0x00AF9A000000FFFF.
Definition GDT_DATA : Z := 0x00EF92000000FFFF.
Definition GDT_EXEC_RING3 : Z := 0x00AFFA000000FFFF.
Definition GDT_DATA_RING3 : Z := 0x00EFF2000000FFFF.
Definition GDT_DATA_SELECTOR : Z := 0x08.
Definition GDT_EXEC_SELECTOR : Z := 0x10.
Definition GDT_DATA_RING3_SELECTOR : Z := 0x1B.
Definition GDT_EXEC_RING3_SELECTOR : Z := 0x23.

Definition KERNEL_MISC_MAPPING : Z := 0xFFFFFFFEC0000000.
Definition KERNEL_IDT_MAPPING : Z := KERNEL_MISC_MAPPING.
Definition KERNEL_IDT_SIZE : Z := 256 * 16.
Definition KERNEL_GDT_MAPPING : Z := KERNEL_IDT_MAPPING + KERNEL_IDT_SIZE.
Definition KERNEL_GDT_SIZE : Z := 64 * 8.

(** The registers the code sets: limit and base of the tables, the segments,
    the interrupt flag; [memory] is what the tables are in. *)
Record cpu := mk_cpu {
  memory : mem;
  gdtr : Z * Z; idtr : Z * Z;
  cs : Z; ds : Z; es : Z; fs : Z; gs : Z; ss : Z;
  IF : bool;
}.

Definition interrupt_MapHandler (m : mem) (handler interrupt : Z) : mem :=
  let rsi := u64 (interrupt * 16 + KERNEL_IDT_MAPPING) in
  let m := store16 m rsi handler in
  let m := store16 m (rsi + 2) 0x10 in
  let m := store16 m (rsi + 4) 0x8e00 in
  let rdi := Z.shiftr handler 16 in
  let m := store16 m (rsi + 6) rdi in
  let rdi := Z.shiftr rdi 16 in
  store64 m (rsi + 8) rdi.

Definition interrupt_LoadGDT (c : cpu) (length_sub1 base_ptr : Z) : cpu :=
  mk_cpu (memory c) (length_sub1, base_ptr) (idtr c) (cs c) (ds c) (es c) (fs c) (gs c) (ss c) (IF c).
Definition interrupt_LoadIDT (c : cpu) (length_sub1 base_ptr : Z) : cpu :=
  mk_cpu (memory c) (gdtr c) (length_sub1, base_ptr) (cs c) (ds c) (es c) (fs c) (gs c) (ss c) (IF c).
Definition interrupt_ReloadSegments (c : cpu) : cpu :=
  mk_cpu (memory c) (gdtr c) (idtr c) 0x10 0x08 0x08 0x08 0x08 0x08 (IF c).
Definition set_memory (m : mem) (c : cpu) : cpu :=
  mk_cpu m (gdtr c) (idtr c) (cs c) (ds c) (es c) (fs c) (gs c) (ss c) (IF c).
Definition sti (c : cpu) : cpu :=
  mk_cpu (memory c) (gdtr c) (idtr c) (cs c) (ds c) (es c) (fs c) (gs c) (ss c) true.

(** The vectors that get a handler: the 32 exceptions and the system call. *)
Definition init_vectors : list Z := seqZ 0 32 ++ [128].
(** [interrupt_Int0 .. interrupt_Int31, interrupt_Int128] are the addresses of
    the handlers by vector. *)
Definition interrupt_Init (interrupt_Int : Z -> Z) (c : cpu) : cpu :=
  let m := memset (memory c) KERNEL_GDT_MAPPING 0 KERNEL_GDT_SIZE in
  let gdt i v m := store64 m (KERNEL_GDT_MAPPING + 8 * i) v in
  let m := gdt 0 0 m in
  let m := gdt (Z.shiftr GDT_DATA_SELECTOR 3) GDT_DATA m in
  let m := gdt (Z.shiftr GDT_EXEC_SELECTOR 3) GDT_EXEC m in
  let m := gdt (Z.shiftr GDT_DATA_RING3_SELECTOR 3) GDT_DATA_RING3 m in
  let m := gdt (Z.shiftr GDT_EXEC_RING3_SELECTOR 3) GDT_EXEC_RING3 m in
  let c := interrupt_LoadGDT (set_memory m c) (KERNEL_GDT_SIZE - 1) KERNEL_GDT_MAPPING in
  let m := memset (memory c) KERNEL_IDT_MAPPING 0 KERNEL_IDT_SIZE in
  let m := foldl (fun m v => interrupt_MapHandler m (interrupt_Int v) v) m init_vectors in
  let c := interrupt_LoadIDT (set_memory m c) (KERNEL_IDT_SIZE - 1) KERNEL_IDT_MAPPING in
  sti (interrupt_ReloadSegments c).

(** ** The entry, as the processor reads it *)

(** A 64-bit gate descriptor, by the fields of the architecture. *)
Record gate := mk_gate { g_offset : Z; g_selector : Z; g_ist : Z; g_type : Z; g_dpl : Z; g_present : bool; g_reserved : Z }.
Definition gate_at (m : mem) (a : Z) : gate :=
  mk_gate (load16 m a + 65536 * load16 m (a + 6) + 4294967296 * load32 m (a + 8)) (load16 m (a + 2))
    (load8 m (a + 4) mod 8) (load8 m (a + 5) mod 16) (load8 m (a + 5) / 32 mod 4) (128 <=? load8 m (a + 5)) (load32 m (a + 12)).
(** A segment descriptor by the fields of the architecture: base and limit (the
    last byte, in pages if bit 55 is set), code or data rather than a system
    segment, code, conforming (or expanding down), readable code or writable
    data, privilege, present, the long mode and size bits of code. *)
Record segment := mk_segment {
  s_base : Z; s_limit : Z; s_user : bool; s_code : bool; s_conforming : bool; s_rw : bool; s_dpl : Z; s_present : bool;
  s_long : bool; s_size : bool;
}.
Definition bits (d lo n : Z) : Z := (d / 2 ^ lo) mod 2 ^ n.
Definition segment_of (d : Z) : segment :=
  let limit := bits d 0 16 + 2 ^ 16 * bits d 48 4 in
  mk_segment (bits d 16 24 + 2 ^ 24 * bits d 56 8) (if Z.testbit d 55 then limit * 4096 + 4095 else limit)
    (Z.testbit d 44) (Z.testbit d 43) (Z.testbit d 42) (Z.testbit d 41) (bits d 45 2) (Z.testbit d 47)
    (Z.testbit d 43 && Z.testbit d 53) (Z.testbit d 43 && Z.testbit d 54).
(** All of the 32-bit addresses, for one ring. *)
Definition flat_code (ring : Z) : segment := mk_segment 0 (2 ^ 32 - 1) true true false true ring true true false.
Definition flat_data (ring : Z) : segment := mk_segment 0 (2 ^ 32 - 1) true false false true ring true false false.
(** A selector of the loaded global table: its privilege, and the descriptor it
    names, inside the limit. *)
Definition selects (c : cpu) (sel ring : Z) (seg : segment) : Prop :=
  sel mod 4 = ring /\ Z.testbit sel 2 = false /\ 8 * (sel / 8) + 7 <= (gdtr c).1 /\ segment_of (load64 (memory c) ((gdtr c).2 + 8 * (sel / 8))) = seg.
Definition interrupt_gate (handler : Z) : gate := mk_gate handler GDT_EXEC_SELECTOR 0 14 0 true 0.
Definition no_gate : gate := mk_gate 0 0 0 0 0 false 0.
Definition idt_entry (v : Z) : Z := KERNEL_IDT_MAPPING + 16 * v.

Lemma MapHandler_outside m h v : 0 <= v < 256 -> same_outside (idt_entry v) 16 m (interrupt_MapHandler m h v).
Proof.
  intros Hv x Hx. unfold interrupt_MapHandler, idt_entry in *. unfold KERNEL_IDT_MAPPING, KERNEL_MISC_MAPPING in *.
  rewrite u64_small by lia. unfold store64, store16. rewrite !store_outside by lia. done.
Qed.
Lemma gate_ext m m' a : (forall x, a <= x < a + 16 -> m' x = m x) -> gate_at m' a = gate_at m a.
Proof.
  intros Hx. unfold gate_at, load16, load32. rewrite !(load_ext _ m m') by (intros; apply Hx; lia).
  unfold load8. by rewrite !Hx by lia.
Qed.

(** The entry of a vector is the interrupt gate of its handler. *)
Lemma MapHandler_gate m h v : 0 <= v < 256 -> 0 <= h < 2 ^ 64 -> gate_at (interrupt_MapHandler m h v) (idt_entry v) = interrupt_gate h.
Proof.
  change (2 ^ 64) with 18446744073709551616. intros Hv Hh. unfold interrupt_MapHandler, idt_entry, KERNEL_IDT_MAPPING, KERNEL_MISC_MAPPING.
  rewrite u64_small by lia. replace (v * 16 + 18446744068340842496) with (18446744068340842496 + 16 * v) by lia.
  set (a := 18446744068340842496 + 16 * v). clearbody a. rewrite !Z.shiftr_div_pow2 by lia. change (2 ^ 16) with 65536.
  unfold store64, store16. set (m0 := store 2 m a h). set (m1 := store 2 m0 (a + 2) 0x10). set (m2 := store 2 m1 (a + 4) 0x8e00).
  set (m3 := store 2 m2 (a + 6) (h / 65536)). set (m4 := store 8 m3 (a + 8) (h / 65536 / 65536)).
  assert (load 2 m4 a = h mod 65536) as E0.
  { unfold m4, m3, m2, m1, m0. rewrite !load_store_ne by lia. by rewrite load_store_eq. }
  assert (load 2 m4 (a + 2) = 16) as E1.
  { unfold m4, m3, m2, m1. rewrite !load_store_ne by lia. by rewrite load_store_eq. }
  assert (load 2 m4 (a + 4) = 36352) as E2.
  { unfold m4, m3, m2. rewrite !load_store_ne by lia. by rewrite load_store_eq. }
  assert (load 2 m4 (a + 6) = (h / 65536) mod 65536) as E3.
  { unfold m4, m3. rewrite !load_store_ne by lia. by rewrite load_store_eq. }
  assert (load 8 m4 (a + 8) = h / 65536 / 65536) as E4.
  { unfold m4. rewrite load_store_eq. change (256 ^ Z.of_nat 8) with 18446744073709551616. apply Z.mod_small. lia. }
  clearbody m4. change 8%nat with (4 + 4)%nat in E4. rewrite load_split in E4.
  change (256 ^ Z.of_nat 4) with 4294967296 in E4. replace (a + 8 + Z.of_nat 4) with (a + 12) in E4 by lia.
  pose proof (load_range 4 m4 (a + 8)) as R1. pose proof (load_range 4 m4 (a + 12)) as R2. change (256 ^ Z.of_nat 4) with 4294967296 in R1, R2.
  cbn [load] in E2. rewrite Z.mul_0_r, Z.add_0_r in E2. replace (a + 4 + 1) with (a + 5) in E2 by lia.
  pose proof (load8_range m4 (a + 4)). pose proof (load8_range m4 (a + 5)).
  assert (load8 m4 (a + 5) = 142) as Ea by lia. assert (load8 m4 (a + 4) = 0) as Eb by lia.
  assert (load 4 m4 (a + 12) = 0) as Ec by lia.
  unfold gate_at, load16, load32. rewrite E0, E1, E3, Ea, Eb, Ec. unfold interrupt_gate, GDT_EXEC_SELECTOR. f_equal. lia.
Qed.
(** Mapping a list of vectors. *)
Lemma map_vectors_spec h vs : forall m, NoDup vs -> Forall (fun v => 0 <= v < 256) vs -> (forall v, 0 <= h v < 2 ^ 64) ->
  (forall v, 0 <= v < 256 -> gate_at (foldl (fun m v => interrupt_MapHandler m (h v) v) m vs) (idt_entry v) =
     if decide (v ∈ vs) then interrupt_gate (h v) else gate_at m (idt_entry v)) /\
  same_outside KERNEL_IDT_MAPPING KERNEL_IDT_SIZE m (foldl (fun m v => interrupt_MapHandler m (h v) v) m vs).
Proof.
  induction vs as [|w vs IH]; intros m Hn Hvs Hh; cbn [foldl].
  { split; [|done]. intros v Hv. by rewrite decide_False by apply not_elem_of_nil. }
  apply NoDup_cons in Hn as [Hw Hn]. apply Forall_cons in Hvs as [Hw' Hvs].
  destruct (IH (interrupt_MapHandler m (h w) w) Hn Hvs Hh) as [IH1 IH2]. pose proof (MapHandler_outside m (h w) w Hw') as Ho. split.
  - intros v Hv. rewrite IH1 by done. destruct (decide (v ∈ vs)) as [Hin|Hin].
    + rewrite decide_True by (by right). done.
    + destruct (decide (v = w)) as [->|Hne].
      * rewrite decide_True by (by left). by apply MapHandler_gate.
      * rewrite decide_False by (by rewrite elem_of_cons; intros [?|?]). apply gate_ext.
        intros x Hx. apply Ho. unfold idt_entry in *. lia.
  - eapply same_outside_trans; [|exact IH2]. eapply same_outside_weaken; [| |exact Ho]; unfold idt_entry, KERNEL_IDT_SIZE; lia.
Qed.
Lemma memset_gate m a n v : 0 <= v < 256 -> a <= idt_entry v -> idt_entry v + 16 <= a + n -> gate_at (memset m a 0 n) (idt_entry v) = no_gate.
Proof.
  intros Hv H1 H2. assert (forall x, idt_entry v <= x < idt_entry v + 16 -> load8 (memset m a 0 n) x = 0) as Hz.
  { intros x Hx. unfold load8. by rewrite memset_in by lia. }
  unfold gate_at, load16, load32. cbn [load]. by rewrite !Hz by lia.
Qed.
Lemma init_vectors_ok : NoDup init_vectors /\ Forall (fun v => 0 <= v < 256) init_vectors.
Proof.
  split; [by apply (bool_decide_unpack _); vm_compute|]. apply Forall_forall. intros v [Hv|Hv]%elem_of_app.
  - apply elem_of_seqZ in Hv. lia.
  - apply list_elem_of_singleton in Hv. lia.
Qed.

(** * Properties *)

(** C31. After initialisation every vector is decided: the 32 exceptions and the
    system call have a present ring-0 interrupt gate to their handler, through
    the selector the code segment has, and every other vector is absent.  The
    loaded table has a null descriptor, flat 64-bit code and flat writable data
    of ring 0, which the segment registers select, and flat code and data of
    ring 3; the registers name both tables and interrupts are on. *)
Theorem interrupt_Init_correct h c :
  (forall v, 0 <= h v < 2 ^ 64) ->
  let c' := interrupt_Init h c in
  (forall v, 0 <= v < 256 -> gate_at (memory c') (idt_entry v) =
     if decide (v < 32 \/ v = 128) then interrupt_gate (h v) else no_gate) /\
  selects c' (cs c') 0 (flat_code 0) /\ g_selector (interrupt_gate 0) = cs c' /\
  Forall (fun r => selects c' r 0 (flat_data 0)) [ds c'; es c'; fs c'; gs c'; ss c'] /\
  selects c' GDT_EXEC_RING3_SELECTOR 3 (flat_code 3) /\ selects c' GDT_DATA_RING3_SELECTOR 3 (flat_data 3) /\
  load64 (memory c') (gdtr c').2 = 0 /\
  gdtr c' = (511, KERNEL_GDT_MAPPING) /\ idtr c' = (4095, KERNEL_IDT_MAPPING) /\ IF c' = true.
Proof.
  intros Hh c'. subst c'. unfold interrupt_Init, selects.
  cbn [memory cs ds es fs gs ss gdtr idtr IF sti interrupt_ReloadSegments interrupt_LoadIDT interrupt_LoadGDT set_memory fst snd].
  change (Z.shiftr GDT_DATA_SELECTOR 3) with 1. change (Z.shiftr GDT_EXEC_SELECTOR 3) with 2.
  change (Z.shiftr GDT_DATA_RING3_SELECTOR 3) with 3. change (Z.shiftr GDT_EXEC_RING3_SELECTOR 3) with 4.
  set (m0 := memset (memory c) _ _ _). set (m1 := store64 m0 _ _). set (m2 := store64 m1 _ _). set (m3 := store64 m2 _ _).
  set (m4 := store64 m3 _ _). set (m5 := store64 m4 _ _). set (m6 := memset m5 _ _ _).
  destruct init_vectors_ok as [Hn Hf]. destruct (map_vectors_spec h init_vectors m6 Hn Hf Hh) as [Hg Ho].
  set (m7 := foldl _ m6 init_vectors) in *.
  assert (forall k, 0 <= k < 5 -> load64 m7 (KERNEL_GDT_MAPPING + 8 * k) = load64 m5 (KERNEL_GDT_MAPPING + 8 * k)) as Hk.
  { intros k Hk. apply load_ext. intros x Hx. rewrite Ho by (unfold KERNEL_GDT_MAPPING in Hx; lia).
    unfold m6. apply memset_out. unfold KERNEL_GDT_MAPPING in Hx. lia. }
  assert (load64 m7 KERNEL_GDT_MAPPING = 0) as K0.
  { pose proof (Hk 0 ltac:(lia)) as E. rewrite Z.mul_0_r, Z.add_0_r in E. rewrite E. unfold m5, m4, m3, m2, m1, store64, load64.
    rewrite Z.mul_0_r, Z.add_0_r, !load_store_ne by lia. by rewrite load_store_eq. }
  assert (load64 m7 (KERNEL_GDT_MAPPING + 8 * 1) = GDT_DATA) as K1.
  { rewrite Hk by lia. unfold m5, m4, m3, m2, store64, load64. rewrite !load_store_ne by lia. by rewrite load_store_eq. }
  assert (load64 m7 (KERNEL_GDT_MAPPING + 8 * 2) = GDT_EXEC) as K2.
  { rewrite Hk by lia. unfold m5, m4, m3, store64, load64. rewrite !load_store_ne by lia. by rewrite load_store_eq. }
  assert (load64 m7 (KERNEL_GDT_MAPPING + 8 * 3) = GDT_DATA_RING3) as K3.
  { rewrite Hk by lia. unfold m5, m4, store64, load64. rewrite !load_store_ne by lia. by rewrite load_store_eq. }
  assert (load64 m7 (KERNEL_GDT_MAPPING + 8 * 4) = GDT_EXEC_RING3) as K4.
  { rewrite Hk by lia. unfold m5, store64, load64. by rewrite load_store_eq. }
  clear Hk. rewrite !Forall_cons, Forall_nil. cbv beta. change (16 / 8) with 2. change (8 / 8) with 1. change (GDT_DATA_RING3_SELECTOR / 8) with 3. change (GDT_EXEC_RING3_SELECTOR / 8) with 4.
  rewrite K0, K1, K2, K3, K4. split; [|split_and!; try reflexivity; done].
  intros v Hv. rewrite (Hg v Hv). clear Hg. assert (v ∈ init_vectors <-> v < 32 \/ v = 128) as Hin.
  { unfold init_vectors. rewrite elem_of_app, elem_of_seqZ, list_elem_of_singleton. lia. }
  destruct (decide (v ∈ init_vectors)) as [Hd|Hd]; rewrite Hin in Hd.
  { rewrite decide_True by exact Hd. reflexivity. }
  rewrite decide_False by exact Hd. apply memset_gate; unfold idt_entry, KERNEL_IDT_SIZE; lia.
Qed.
Lemma interrupt_Init_correct_witness :
  let c' := interrupt_Init (fun v => 0xFFFFFFFFC0000000 + 64 * v mod 65536) (mk_cpu (fun _ => 7) (0, 0) (0, 0) 0 0 0 0 0 0 false) in
  gate_at (memory c') (idt_entry 14) = interrupt_gate (0xFFFFFFFFC0000000 + 64 * 14) /\ gate_at (memory c') (idt_entry 32) = no_gate.
Proof.
  set (h := fun v => 0xFFFFFFFFC0000000 + 64 * v mod 65536).
  destruct (interrupt_Init_correct h (mk_cpu (fun _ => 7) (0, 0) (0, 0) 0 0 0 0 0 0 false)) as (Hg & _).
  - intros v. unfold h. change (2 ^ 64) with 18446744073709551616. lia.
  - split; [exact (Hg 14 ltac:(lia))|exact (Hg 32 ltac:(lia))].
Defined.
