(* ===== verification/Pic.v ===== *)
(** * The interrupt controllers and the clock (src/driver/irq/pic)

    Remapping and masking the two 8259A, the dispatch of an interrupt to its
    handler (int_handler.asm.S, int_handler.c), and the real-time clock's
    interrupt, on any machine with the ports of Ports.v. *)

From S2P Require Import Prelude Mem Ports Interrupt.

Definition IRQ_PIC_INT_OFFSET_MASTER : Z := 0x20.
Definition IRQ_PIC_INT_OFFSET_SLAVE : Z := 0x28.
Definition PIC1_COMMAND : Z := 0x20.
Definition PIC1_DATA : Z := 0x21.
Definition PIC2_COMMAND : Z := 0xA0.
Definition PIC2_DATA : Z := 0xA1.
Definition PIC_CMD_EOI : Z := 0x20.
Definition ICW1_ICW4 : Z := 0x01.
Definition ICW1_INIT : Z := 0x10.
Definition ICW4_8086 : Z := 0x01.

(** The tables of handlers by line; null is 0. *)
Record irq_pic := mk_irq {
  IRQHandler : Z -> Z; IRQHandler_Data : Z -> Z; IRQHandlerRaw : Z -> Z; irq_pic_Enabled : bool;
}.
Definition set_fn (f : Z -> Z) (i v : Z) : Z -> Z := fun x => if x =? i then v else f x.
Definition set_IRQHandler (i v : Z) (t : irq_pic) : irq_pic := mk_irq (set_fn (IRQHandler t) i v) (IRQHandler_Data t) (IRQHandlerRaw t) (irq_pic_Enabled t).
Definition set_IRQHandler_Data (i v : Z) (t : irq_pic) : irq_pic := mk_irq (IRQHandler t) (set_fn (IRQHandler_Data t) i v) (IRQHandlerRaw t) (irq_pic_Enabled t).
Definition set_IRQHandlerRaw (i v : Z) (t : irq_pic) : irq_pic := mk_irq (IRQHandler t) (IRQHandler_Data t) (set_fn (IRQHandlerRaw t) i v) (irq_pic_Enabled t).

Section Pic.
Context {D : Type} `{Ports D}.

(** The sixteen entry points, mapped to vectors 0x20 to 0x2f. *)
Definition map_irqs (IntHandler : Z -> Z) (m : mem) : mem :=
  foldl (fun m v => interrupt_MapHandler m (IntHandler v) v) m (seqZ 0x20 16).
(** The interrupts must be set up first: otherwise the assertion panics. *)
Definition irq_pic_Init (interrupt_Enabled : bool) (IntHandler : Z -> Z) (d : D) (m : mem) (t : irq_pic) : option (D * mem * irq_pic) :=
  if interrupt_Enabled then
    let d := outb_wait d PIC1_DATA 0xff in
    let d := outb_wait d PIC2_DATA 0xff in
    let d := outb_wait d PIC1_COMMAND (Z.lor ICW1_INIT ICW1_ICW4) in
    let d := outb_wait d PIC1_DATA IRQ_PIC_INT_OFFSET_MASTER in
    let d := outb_wait d PIC1_DATA 4 in
    let d := outb_wait d PIC1_DATA ICW4_8086 in
    let d := outb_wait d PIC2_COMMAND (Z.lor ICW1_INIT ICW1_ICW4) in
    let d := outb_wait d PIC2_DATA IRQ_PIC_INT_OFFSET_SLAVE in
    let d := outb_wait d PIC2_DATA 2 in
    let d := outb_wait d PIC2_DATA ICW4_8086 in
    let d := outb_wait d PIC1_DATA 0xfb in
    let d := outb_wait d PIC2_DATA 0xff in
    Some (d, map_irqs IntHandler m, mk_irq (fun _ => 0) (IRQHandler_Data t) (fun _ => 0) true)
  else None.

Definition irq_pic_InitRemap (offset_master offset_slave : Z) (d : D) : D :=
  let '(a1, d) := inb d PIC1_DATA in
  let '(a2, d) := inb d PIC2_DATA in
  let d := outb_wait d PIC1_COMMAND (Z.lor ICW1_INIT ICW1_ICW4) in
  let d := outb_wait d PIC2_COMMAND (Z.lor ICW1_INIT ICW1_ICW4) in
  let d := outb_wait d PIC1_DATA (u8 offset_master) in
  let d := outb_wait d PIC2_DATA (u8 offset_slave) in
  let d := outb_wait d PIC1_DATA 4 in
  let d := outb_wait d PIC2_DATA 2 in
  let d := outb_wait d PIC1_DATA ICW4_8086 in
  let d := outb_wait d PIC2_DATA ICW4_8086 in
  let d := outb_wait d PIC1_DATA a1 in
  outb_wait d PIC2_DATA a1.

Definition irq_pic_Mask (irq_line : Z) (masked : bool) (d : D) : D :=
  let '(port, irq_line) := if irq_line <? 8 then (PIC1_DATA, irq_line) else (PIC2_DATA, u8 (irq_line - 8)) in
  let '(v, d) := inb d port in
  outb d port (u8 (if masked then Z.lor v (Z.shiftl 1 irq_line) else Z.land v (Z.lnot (Z.shiftl 1 irq_line)))).

(** The two writes of irq_pic_Disable; the routine has no return instruction,
    what it runs into is not modelled. *)
Definition irq_pic_Disable (d : D) : D := outb (outb d PIC1_DATA 0xff) PIC2_DATA 0xff.

Definition __irq_pic_GetRegister (ocw3 : Z) (d : D) : Z * D :=
  let d := outb_wait d PIC1_COMMAND ocw3 in
  let d := outb_wait d PIC2_COMMAND ocw3 in
  let '(hi, d) := inb d PIC2_COMMAND in
  let '(lo, d) := inb d PIC1_COMMAND in
  (u16 (Z.lor (Z.shiftl hi 8) lo), d).
Definition irq_pic_GetIRR (d : D) : Z * D := __irq_pic_GetRegister 0x0a d.
Definition irq_pic_GetISR (d : D) : Z * D := __irq_pic_GetRegister 0x0b d.

(** What the processor goes on with: a raw handler is jumped to, a handler is
    called with its data, and without one a line is printed. *)
Inductive dispatch := Jump (handler : Z) | Call (handler data : Z) | NoHandler (vector irq : Z).
Definition irq_pic_IntHandler (t : irq_pic) (irq : Z) (d : D) : D * dispatch :=
  let d := if 8 <=? irq then outb d PIC2_COMMAND PIC_CMD_EOI else d in
  let d := outb d PIC1_COMMAND PIC_CMD_EOI in
  (d, if IRQHandler t irq =? 0 then NoHandler (irq + IRQ_PIC_INT_OFFSET_MASTER) irq else Call (IRQHandler t irq) (IRQHandler_Data t irq)).
(** The macro [inth] of the entry points. *)
Definition inth (t : irq_pic) (op1 : Z) (d : D) : D * dispatch :=
  if negb (IRQHandlerRaw t op1 =? 0) then
    let d := if 8 <=? op1 then outb d PIC2_COMMAND PIC_CMD_EOI else d in
    (outb d PIC1_COMMAND PIC_CMD_EOI, Jump (IRQHandlerRaw t op1))
  else irq_pic_IntHandler t op1 d.

(** ** The clock *)

(** [__pic_rtc_IRQ8] is the address of the handler's entry. *)
Definition pic_rtc_Init (IRQ8 : Z) (pic_rtc_Enabled : bool) (d : D) (t : irq_pic) : option (bool * D * irq_pic) :=
  if irq_pic_Enabled t then
    if pic_rtc_Enabled then Some (true, d, t)
    else
      let d := outb d 0x70 0x8b in
      let '(prev, d) := inb d 0x71 in
      let d := outb d 0x70 0x8B in
      let d := outb d 0x71 (u8 (Z.lor prev 0x40)) in
      let t := set_IRQHandlerRaw 8 IRQ8 t in
      let d := irq_pic_Mask 8 false d in
      Some (true, d, t)
  else None.
(** The entry: register C is read, then the handler, when set, is jumped to. *)
Definition __pic_rtc_IRQ8 (handler : Z) (d : D) : D * option Z :=
  let d := outb d 0x70 0x0c in
  let '(_, d) := inb d 0x71 in
  (d, if handler =? 0 then None else Some handler).
End Pic.

(** ** What the chips see *)

(** A constant or a truncated byte is a byte. *)
Ltac byte_range := first [apply u8_range | by vm_compute].

Section Lemmas.
Context {D : Type} `{Pics D}.
Implicit Types d : D.

Lemma pic_out_wait d p v s : 0 <= v < 256 -> pic (outb_wait d p v) s =
  if p =? PIC_command s then i8259_command (pic d s) v else if p =? PIC_data s then i8259_data (pic d s) v else pic d s.
Proof.
  intros Hv. unfold outb_wait. rewrite pic_out by lia.
  destruct s; cbn [PIC_command PIC_data Z.eqb Pos.eqb]; rewrite pic_out by lia; done.
Qed.
(** The same, by port. *)
Lemma wait_1c d v : 0 <= v < 256 -> pic (outb_wait d PIC1_COMMAND v) false = i8259_command (pic d false) v.
Proof. intros Hv. by rewrite pic_out_wait. Qed.
Lemma wait_1d d v : 0 <= v < 256 -> pic (outb_wait d PIC1_DATA v) false = i8259_data (pic d false) v.
Proof. intros Hv. by rewrite pic_out_wait. Qed.
Lemma wait_2c d v : 0 <= v < 256 -> pic (outb_wait d PIC2_COMMAND v) true = i8259_command (pic d true) v.
Proof. intros Hv. by rewrite pic_out_wait. Qed.
Lemma wait_2d d v : 0 <= v < 256 -> pic (outb_wait d PIC2_DATA v) true = i8259_data (pic d true) v.
Proof. intros Hv. by rewrite pic_out_wait. Qed.
Lemma wait_1c' d v : 0 <= v < 256 -> pic (outb_wait d PIC1_COMMAND v) true = pic d true.
Proof. intros Hv. by rewrite pic_out_wait. Qed.
Lemma wait_1d' d v : 0 <= v < 256 -> pic (outb_wait d PIC1_DATA v) true = pic d true.
Proof. intros Hv. by rewrite pic_out_wait. Qed.
Lemma wait_2c' d v : 0 <= v < 256 -> pic (outb_wait d PIC2_COMMAND v) false = pic d false.
Proof. intros Hv. by rewrite pic_out_wait. Qed.
Lemma wait_2d' d v : 0 <= v < 256 -> pic (outb_wait d PIC2_DATA v) false = pic d false.
Proof. intros Hv. by rewrite pic_out_wait. Qed.
Lemma eois_data s v : eois (i8259_data s v) = eois s.
Proof. unfold i8259_data. by repeat case_match. Qed.
(** The four initialisation words and a mask, from any state. *)
Lemma icw_sequence s base casc v :
  i8259_data (i8259_data (i8259_data (i8259_data (i8259_command s (Z.lor ICW1_INIT ICW1_ICW4)) base) casc) ICW4_8086) v =
    mk_i8259 v 0 0 (base / 8 * 8) casc 1 0 0x0a (eois s).
Proof. by destruct s. Qed.
Lemma u8_bit x b : 0 <= b < 8 -> Z.testbit (u8 x) b = Z.testbit x b.
Proof. intros Hb. unfold u8. change 256 with (2 ^ 8). by rewrite Z.mod_pow2_bits_low by lia. Qed.
(** Clearing or setting one bit of a byte. *)
Lemma mask_bit v l b (masked : bool) : 0 <= l < 8 -> 0 <= b < 8 ->
  Z.testbit (u8 (if masked then Z.lor v (Z.shiftl 1 l) else Z.land v (Z.lnot (Z.shiftl 1 l)))) b = if decide (b = l) then masked else Z.testbit v b.
Proof.
  intros Hl Hb. rewrite u8_bit by done. assert (Z.testbit (Z.shiftl 1 l) b = bool_decide (b = l)) as E.
  { rewrite Z.shiftl_spec by lia. destruct (decide (b = l)) as [->|Hne]; [rewrite bool_decide_true by done; by rewrite Z.sub_diag|].
    rewrite bool_decide_false by done. destruct (Z.lt_trichotomy (b - l) 0) as [?|[?|?]]; [by apply Z.testbit_neg_r|lia|].
    apply Z.bits_above_log2; cbn; lia. }
  destruct masked; rewrite ?Z.lor_spec, ?Z.land_spec, ?Z.lnot_spec, E by lia; destruct (decide (b = l)) as [->|Hne].
  - rewrite bool_decide_true by done. apply orb_true_r.
  - rewrite bool_decide_false by done. apply orb_false_r.
  - rewrite bool_decide_true by done. apply andb_false_r.
  - rewrite bool_decide_false by done. apply andb_true_r.
Qed.
(** The registers of a controller but its mask. *)
Definition same_but_imr (s s' : i8259) : Prop :=
  irr s' = irr s /\ isr s' = isr s /\ vector_base s' = vector_base s /\ cascade s' = cascade s /\ mode s' = mode s /\
  phase s' = phase s /\ ocw3 s' = ocw3 s /\ eois s' = eois s.
Lemma Mask_spec d irq masked : 0 <= irq < 16 -> (forall s, phase (pic d s) = 0) ->
  let slave := 8 <=? irq in
  (forall b, 0 <= b < 8 -> Z.testbit (imr (pic (irq_pic_Mask irq masked d) slave)) b =
     if decide (b = irq mod 8) then masked else Z.testbit (imr (pic d slave)) b) /\
  same_but_imr (pic d slave) (pic (irq_pic_Mask irq masked d) slave) /\
  pic (irq_pic_Mask irq masked d) (negb slave) = pic d (negb slave).
Proof.
  intros Hi Hph slave. unfold irq_pic_Mask.
  assert ((if irq <? 8 then (PIC1_DATA, irq) else (PIC2_DATA, u8 (irq - 8))) = (PIC_data slave, irq mod 8)) as ->.
  { unfold slave. destruct (Z.ltb_spec irq 8).
    - rewrite (proj2 (Z.leb_gt _ _)), Z.mod_small by lia. done.
    - rewrite (proj2 (Z.leb_le _ _)) by lia. f_equal. rewrite (u8_small (irq - 8)) by lia. lia. }
  pose proof (pic_in d (PIC_data slave)) as Hin. pose proof (pic_in_data d slave) as Hv.
  destruct (inb d (PIC_data slave)) as [v d']. cbn [fst snd] in Hin, Hv. subst v.
  assert (forall x, pic (outb d' (PIC_data slave) (u8 x)) slave = i8259_data (pic d slave) (u8 x)) as Hs.
  { intros x. rewrite pic_out by apply u8_range. rewrite Hin. by destruct slave. }
  rewrite Hs. unfold i8259_data. rewrite !Hph. cbn [Z.eqb]. cbn [imr]. split_and!; [|done|].
  - intros b Hb. rewrite mask_bit by lia. destruct (decide _); [done|]. by apply u8_bit.
  - rewrite pic_out by apply u8_range. rewrite Hin. by destruct slave.
Qed.
End Lemmas.
#[export] Hint Rewrite @wait_1c @wait_1d @wait_2c @wait_2d @wait_1c' @wait_1d' @wait_2c' @wait_2d' using byte_range : pics.

(** * Properties *)

Lemma log2_byte x : 0 <= x < 256 -> Z.log2 x < 8.
Proof. intros Hx. destruct (Z.eq_dec x 0) as [->|]; [done|]. apply Z.log2_lt_pow2; [lia|]. change (2 ^ 8) with 256. lia. Qed.
Lemma join_bytes a b : 0 <= a < 256 -> 0 <= b < 256 -> u16 (Z.lor (Z.shiftl a 8) b) = 256 * a + b.
Proof.
  intros Ha Hb. rewrite Z.shiftl_mul_pow2 by lia. rewrite (lor_disjoint a b 8) by done. unfold u16. change (2 ^ 8) with 256. rewrite Z.mod_small by lia. lia.
Qed.

Lemma lor_byte a b : 0 <= a < 256 -> 0 <= b < 256 -> 0 <= Z.lor a b < 256.
Proof.
  intros Ha Hb. split; [apply Z.lor_nonneg; lia|]. destruct (Z.eq_dec (Z.lor a b) 0) as [->|Hn]; [lia|].
  assert (0 <= Z.lor a b) by (apply Z.lor_nonneg; lia). change 256 with (2 ^ 8). apply Z.log2_lt_pow2; [lia|].
  rewrite Z.log2_lor by lia. apply Z.max_lub_lt; by apply log2_byte.
Qed.

Section Properties.
Context {D : Type} `{Pics D}.
Implicit Types d : D.

(** Whatever state the controllers were in, initialisation leaves them
    operating in 8086 mode, the master at vectors 0x20-0x27 and the slave at
    0x28-0x2f on line 2, with every line but the cascade masked; the sixteen
    vectors have their entry points in the descriptor table, whose other gates
    are kept, and no handler is set; without interrupts it panics. *)
Theorem irq_pic_Init_correct IntHandler d m t :
  (forall v, 0 <= IntHandler v < 2 ^ 64) ->
  irq_pic_Init false IntHandler d m t = None /\
  exists d' m' t', irq_pic_Init true IntHandler d m t = Some (d', m', t') /\
    pic d' false = mk_i8259 0xfb 0 0 0x20 4 1 0 0x0a (eois (pic d false)) /\
    pic d' true = mk_i8259 0xff 0 0 0x28 2 1 0 0x0a (eois (pic d true)) /\
    (forall v, 0 <= v < 256 -> gate_at m' (idt_entry v) =
       if decide (0x20 <= v < 0x30) then interrupt_gate (IntHandler v) else gate_at m (idt_entry v)) /\
    irq_pic_Enabled t' = true /\ forall i, IRQHandler t' i = 0 /\ IRQHandlerRaw t' i = 0.
Proof.
  intros Hh. split; [done|]. unfold irq_pic_Init. eexists _, _, _. split; [done|]. split_and!; [| | |done|done].
  - autorewrite with pics. by rewrite icw_sequence, eois_data.
  - autorewrite with pics. by rewrite icw_sequence, eois_data.
  - intros v Hv. destruct (map_vectors_spec IntHandler (seqZ 0x20 16) m) as [Hg _]; [apply NoDup_seqZ| |done|].
    + apply Forall_forall. intros x Hx%elem_of_seqZ. lia.
    + rewrite Hg by done. destruct (decide (v ∈ seqZ 0x20 16)) as [Hin|Hin]; rewrite elem_of_seqZ in Hin.
      * by rewrite decide_True by lia.
      * by rewrite decide_False by lia.
Qed.

Lemma Mask_lines d irq masked :
  0 <= irq < 16 -> (forall s, phase (pic d s) = 0) ->
  forall line, 0 <= line < 16 ->
    Z.testbit (imr (pic (irq_pic_Mask irq masked d) (8 <=? line))) (line mod 8) =
      if decide (line = irq) then masked else Z.testbit (imr (pic d (8 <=? line))) (line mod 8).
Proof.
  intros Hi Hph line Hl. destruct (Mask_spec d irq masked Hi Hph) as (Hb & _ & Ho).
  destruct (decide ((8 <=? line) = (8 <=? irq))) as [E0|Hne].
  - rewrite E0, Hb by lia. destruct (decide (line = irq)) as [->|Hli]; [by rewrite decide_True|].
    destruct (decide (line mod 8 = irq mod 8)) as [E|]; [|done].
    revert E0. destruct (Z.leb_spec 8 line), (Z.leb_spec 8 irq); lia || done.
  - rewrite decide_False by (by intros ->). replace (8 <=? line) with (negb (8 <=? irq)); [by rewrite Ho|].
    by destruct (8 <=? line), (8 <=? irq).
Qed.

(** Masking changes the one bit of the line, in the mask of its controller;
    every other line, and the other controller, keep theirs. *)
Theorem irq_pic_Mask_correct d irq masked :
  0 <= irq < 16 -> (forall s, phase (pic d s) = 0) ->
  forall line, 0 <= line < 16 ->
    Z.testbit (imr (pic (irq_pic_Mask irq masked d) (8 <=? line))) (line mod 8) =
      if decide (line = irq) then masked else Z.testbit (imr (pic d (8 <=? line))) (line mod 8).
Proof. apply Mask_lines. Qed.

(** Remapping loses the slave's mask: both controllers end with the mask the
    master had. *)
Theorem irq_pic_InitRemap_masks d offset_master offset_slave :
  let d' := irq_pic_InitRemap offset_master offset_slave d in
  imr (pic d' false) = u8 (imr (pic d false)) /\ imr (pic d' true) = u8 (imr (pic d false)) /\
  vector_base (pic d' false) = u8 offset_master / 8 * 8 /\ vector_base (pic d' true) = u8 offset_slave / 8 * 8.
Proof.
  cbn zeta. unfold irq_pic_InitRemap. pose proof (pic_in d PIC1_DATA) as H1. pose proof (pic_in_data d false) as Hv.
  change (PIC_data false) with PIC1_DATA in Hv. destruct (inb d PIC1_DATA) as [a1 d1]. cbn [fst snd] in H1, Hv. subst a1.
  pose proof (pic_in d1 PIC2_DATA) as H2. destruct (inb d1 PIC2_DATA) as [a2 d2]. cbn [snd] in H2.
  pose proof (u8_range offset_master). pose proof (u8_range offset_slave). pose proof (u8_range (imr (pic d false))).
  split_and!; autorewrite with pics; by rewrite icw_sequence, ?H2, ?H1.
Qed.

(** An interrupt is acknowledged and dispatched: the slave gets an end of
    interrupt exactly for its own lines and the master always, once; then the
    raw handler is jumped to if there is one, else the handler is called with
    its data if there is one. *)
Theorem irq_dispatch_correct t irq d :
  0 <= irq < 16 ->
  let '(d', a) := inth t irq d in
  eois (pic d' false) = eois (pic d false) + 1 /\
  eois (pic d' true) = eois (pic d true) + (if decide (8 <= irq) then 1 else 0) /\
  (forall s, imr (pic d' s) = imr (pic d s) /\ phase (pic d' s) = phase (pic d s)) /\
  a = (if decide (IRQHandlerRaw t irq = 0) then
         if decide (IRQHandler t irq = 0) then NoHandler (0x20 + irq) irq else Call (IRQHandler t irq) (IRQHandler_Data t irq)
       else Jump (IRQHandlerRaw t irq)).
Proof.
  intros Hi. set (d1 := outb (if 8 <=? irq then outb d PIC2_COMMAND PIC_CMD_EOI else d) PIC1_COMMAND PIC_CMD_EOI).
  assert (eois (pic d1 false) = eois (pic d false) + 1 /\
    eois (pic d1 true) = eois (pic d true) + (if decide (8 <= irq) then 1 else 0) /\
    (forall s, imr (pic d1 s) = imr (pic d s) /\ phase (pic d1 s) = phase (pic d s))) as (H1 & H2 & H3).
  { unfold d1. split_and!; [| |intros s].
    - rewrite pic_out by (by vm_compute). destruct (8 <=? irq); rewrite ?pic_out by (by vm_compute); by cbn.
    - rewrite pic_out by (by vm_compute). destruct (Z.leb_spec 8 irq); [rewrite decide_True by done|rewrite decide_False by lia];
        rewrite ?pic_out by (by vm_compute); cbn; [done|lia].
    - rewrite pic_out by (by vm_compute). destruct (8 <=? irq), s; rewrite ?pic_out by (by vm_compute); by cbn. }
  unfold inth, irq_pic_IntHandler. fold d1. destruct (Z.eqb_spec (IRQHandlerRaw t irq) 0) as [E|E]; cbn [negb].
  - destruct (decide (IRQHandlerRaw t irq = 0)) as [_|]; [|done]. split_and!; try done.
    destruct (Z.eqb_spec (IRQHandler t irq) 0), (decide (IRQHandler t irq = 0)); try done. f_equal. unfold IRQ_PIC_INT_OFFSET_MASTER. lia.
  - by destruct (decide (IRQHandlerRaw t irq = 0)) as [?|_].
Qed.

(** The request and in-service registers are read as one word, the slave's
    in the high byte. *)
Theorem irq_pic_registers_correct d :
  (irq_pic_GetIRR d).1 = 256 * u8 (irr (pic d true)) + u8 (irr (pic d false)) /\
  (irq_pic_GetISR d).1 = 256 * u8 (isr (pic d true)) + u8 (isr (pic d false)).
Proof.
  assert (forall v, v = 0x0a \/ v = 0x0b -> (__irq_pic_GetRegister v d).1 =
    256 * u8 (if v =? 0x0a then irr (pic d true) else isr (pic d true)) + u8 (if v =? 0x0a then irr (pic d false) else isr (pic d false))) as Hg.
  { intros v Hv. assert (0 <= v < 256) as Hv' by lia. unfold __irq_pic_GetRegister. set (d1 := outb_wait (outb_wait d PIC1_COMMAND v) PIC2_COMMAND v).
    pose proof (pic_in_command d1 true) as E2. pose proof (pic_in d1 PIC2_COMMAND false) as P2. change (PIC_command true) with PIC2_COMMAND in E2.
    destruct (inb d1 PIC2_COMMAND) as [hi d2]. cbn [fst snd] in E2, P2.
    pose proof (pic_in_command d2 false) as E1. change (PIC_command false) with PIC1_COMMAND in E1. destruct (inb d2 PIC1_COMMAND) as [lo d3].
    cbn [fst snd] in E1 |- *. rewrite P2 in E1. unfold d1 in E1, E2. rewrite wait_2c, wait_1c' in E2 by done. rewrite wait_2c', wait_1c in E1 by done.
    rewrite E1, E2, join_bytes by apply u8_range. destruct Hv as [->| ->]; done. }
  split; [exact (Hg 0x0a (or_introl eq_refl))|exact (Hg 0x0b (or_intror eq_refl))].
Qed.
End Properties.

Lemma irq_pic_Init_correct_witness :
  exists d' m' t', irq_pic_Init true (fun v => 4096 + v mod 65536) pc_boot (fun _ => 0) (mk_irq (fun _ => 1) (fun _ => 2) (fun _ => 3) false) = Some (d', m', t') /\
    imr (pic d' false) = 0xfb /\ vector_base (pic d' true) = 0x28 /\ gate_at m' (idt_entry 0x21) = interrupt_gate 4129.
Proof.
  destruct (irq_pic_Init_correct (fun v => 4096 + v mod 65536) pc_boot (fun _ => 0) (mk_irq (fun _ => 1) (fun _ => 2) (fun _ => 3) false))
    as (_ & d' & m' & t' & H1 & H2 & H3 & H4 & _).
  - intros v. change (2 ^ 64) with 18446744073709551616. lia.
  - exists d', m', t'. split; [exact H1|]. split; [by rewrite H2|]. split; [by rewrite H3|]. exact (H4 0x21 ltac:(lia)).
Defined.
Lemma irq_pic_Mask_correct_witness :
  Z.testbit (imr (pic (irq_pic_Mask 12 true pc_boot) true)) 4 = true /\ Z.testbit (imr (pic (irq_pic_Mask 12 true pc_boot) true)) 5 = false.
Proof.
  split.
  - apply (irq_pic_Mask_correct pc_boot 12 true ltac:(lia) ltac:(by intros []) 12). lia.
  - apply (irq_pic_Mask_correct pc_boot 12 true ltac:(lia) ltac:(by intros []) 13). lia.
Defined.
Lemma irq_dispatch_correct_witness :
  let t := mk_irq (fun i => 100 + i) (fun i => i) (fun i => if i =? 8 then 7 else 0) true in
  (inth t 8 pc_boot).2 = Jump 7 /\ (inth t 9 pc_boot).2 = Call 109 9 /\ eois (pic (inth t 9 pc_boot).1 true) = 1.
Proof.
  set (t := mk_irq (fun i => 100 + i) (fun i => i) (fun i => if i =? 8 then 7 else 0) true). cbn zeta.
  pose proof (irq_dispatch_correct t 8 pc_boot ltac:(lia)) as H8. pose proof (irq_dispatch_correct t 9 pc_boot ltac:(lia)) as H9.
  destruct (inth t 8 pc_boot) as [d8 a8], (inth t 9 pc_boot) as [d9 a9]. cbn [fst snd].
  destruct H8 as (_ & _ & _ & H8), H9 as (_ & H9' & _ & H9). split; [exact H8|]. split; [exact H9|exact H9'].
Defined.

Section Clock.
Context {D : Type} `{HP : Ports D} {HPic : Pics D} {HR : Rtc D}.
Implicit Types d : D.

Lemma clock_Mask d irq masked : 0 <= irq < 16 -> clock (irq_pic_Mask irq masked d) = clock d.
Proof.
  intros Hi. unfold irq_pic_Mask. assert (exists p l, (if irq <? 8 then (PIC1_DATA, irq) else (PIC2_DATA, u8 (irq - 8))) = (p, l) /\ (p = PIC1_DATA \/ p = PIC2_DATA)) as (p & l & -> & Hp).
  { destruct (irq <? 8); eexists _, _; split; [done|by left|done|by right]. }
  pose proof (clock_in d p) as E. destruct (inb d p) as [v d']. cbn [snd] in E. rewrite clock_out, E. by destruct Hp as [->| ->].
Qed.
Lemma pic_rtc_ports d v s : 0 <= v < 256 -> pic (outb d 0x70 v) s = pic d s /\ pic (outb d 0x71 v) s = pic d s.
Proof. intros Hv. split; rewrite pic_out by done; by destruct s. Qed.

(** Turning the clock on, with the controllers operating, sets the periodic
    bit of its register B and no other, installs the raw handler of line 8, and
    opens that line alone; a second call changes nothing, and without the
    controllers it panics. *)
Theorem pic_rtc_Init_correct IRQ8 d t :
  irq_pic_Enabled t = true -> (forall s, phase (pic d s) = 0) ->
  exists d' t', pic_rtc_Init IRQ8 false d t = Some (true, d', t') /\
    rtc_reg (clock d') 0x0b = Z.lor (u8 (rtc_reg (clock d) 0x0b)) 0x40 /\
    (forall i, i <> 0x0b -> rtc_reg (clock d') i = rtc_reg (clock d) i) /\
    IRQHandlerRaw t' 8 = IRQ8 /\ (forall i, i <> 8 -> IRQHandlerRaw t' i = IRQHandlerRaw t i) /\
    (forall line, 0 <= line < 16 -> Z.testbit (imr (pic d' (8 <=? line))) (line mod 8) =
       if decide (line = 8) then false else Z.testbit (imr (pic d (8 <=? line))) (line mod 8)) /\
    pic_rtc_Init IRQ8 true d' t' = Some (true, d', t') /\ pic_rtc_Init IRQ8 false d (mk_irq (IRQHandler t) (IRQHandler_Data t) (IRQHandlerRaw t) false) = None.
Proof.
  intros Ht Hph. unfold pic_rtc_Init. rewrite Ht.
  pose proof (clock_in_data (outb d 0x70 0x8b)) as Ev. pose proof (clock_in (outb d 0x70 0x8b) 0x71) as Ec.
  pose proof (pic_in (outb d 0x70 0x8b) 0x71) as Ep. destruct (inb (outb d 0x70 0x8b) 0x71) as [v d1]. cbn [fst snd] in Ev, Ec, Ep.
  rewrite clock_out in Ev, Ec. cbn [rtc_out rtc_in Z.eqb Pos.eqb rtc_index rtc_reg] in Ev, Ec. change (0x8b mod 128) with 0x0b in Ev.
  set (d2 := outb (outb d1 0x70 0x8b) 0x71 (u8 (Z.lor v 0x40))).
  assert (forall s, pic d2 s = pic d s) as Hp2.
  { intros s. unfold d2. rewrite (proj2 (pic_rtc_ports _ _ _ (u8_range _))), (proj1 (pic_rtc_ports d1 0x8b s ltac:(lia))), Ep. by apply pic_rtc_ports. }
  eexists _, _. split; [done|]. rewrite !clock_Mask by lia. unfold d2 at 1 2. rewrite !clock_out, Ec. cbn [rtc_out Z.eqb Pos.eqb rtc_index rtc_reg].
  change (0x8B mod 128) with 0x0b. split_and!.
  - rewrite Ev. rewrite u8_small; [done|]. apply lor_byte; [apply u8_range|lia].
  - intros i Hi. by rewrite (proj2 (Z.eqb_neq _ _)).
  - done.
  - intros i Hi. cbn. unfold set_fn. by rewrite (proj2 (Z.eqb_neq _ _)).
  - intros line Hl. destruct (Mask_spec d2 8 false ltac:(lia)) as (Hb & _ & Ho); [intros s; rewrite Hp2; apply Hph|].
    change (8 <=? 8) with true in Hb, Ho. cbn [negb] in Ho. destruct (Z.leb_spec 8 line).
    + rewrite Hb, Hp2 by lia. destruct (decide (line mod 8 = 8 mod 8)), (decide (line = 8)); lia || done.
    + rewrite Ho, Hp2. by rewrite decide_False by lia.
  - by cbn; rewrite Ht.
  - done.
Qed.
End Clock.

Lemma pic_rtc_Init_correct_witness :
  exists d' t', pic_rtc_Init 4096 false pc_boot (mk_irq (fun _ => 0) (fun _ => 0) (fun _ => 0) true) = Some (true, d', t') /\
    rtc_reg (clock d') 0x0b = 0x42 /\ IRQHandlerRaw t' 8 = 4096.
Proof.
  destruct (pic_rtc_Init_correct 4096 pc_boot (mk_irq (fun _ => 0) (fun _ => 0) (fun _ => 0) true) eq_refl) as (d' & t' & H1 & H2 & _ & H3 & _).
  - intros []; reflexivity.
  - exists d', t'. split; [exact H1|]. split; [exact H2|exact H3].
Defined.
