(* ===== verification/I8042.v ===== *)
(** * The keyboard controller and the mouse behind it

    The documented behaviour of the 8042 and of a PS/2 mouse, as a state machine
    stepped by port accesses, and an instance: any machine with an 8042 added. *)

From S2P Require Import Prelude Ports.

(** ** The mouse

    [rates] are the last sample rates, the newest first; a mouse with a wheel
    changes its identity after 200, 100, 80. *)
Record mouse := mk_mouse {
  wheel : bool; rates : list Z; rate : Z; identity : Z; reporting : bool; rate_next : bool;
}.
(** The answer to a byte, and the mouse. *)
Definition mouse_byte (s : mouse) (v : Z) : list Z * mouse :=
  if rate_next s then
    let r := take 3 (v :: rates s) in
    ([0xfa], mk_mouse (wheel s) r v (if wheel s && bool_decide (r = [80; 100; 200]) then 3 else identity s) (reporting s) false)
  else if v =? 0xff then ([0xfa; 0xaa; 0x00], mk_mouse (wheel s) [] 100 0 false false)
  else if v =? 0xf2 then ([0xfa; identity s], s)
  else if v =? 0xf3 then ([0xfa], mk_mouse (wheel s) (rates s) (rate s) (identity s) (reporting s) true)
  else if v =? 0xf4 then ([0xfa], mk_mouse (wheel s) (rates s) (rate s) (identity s) true false)
  else if v =? 0xf5 then ([0xfa], mk_mouse (wheel s) (rates s) (rate s) (identity s) false false)
  else ([0xfe], s).

(** ** The controller

    [output] is what it has to say, [expect] the command whose data byte comes
    next at the data port (0: none), [config] its configuration byte. *)
Record kbc := mk_kbc { output : list Z; expect : Z; config : Z; aux : mouse }.
Definition kbc_command (s : kbc) (v : Z) : kbc :=
  if v =? 0x20 then mk_kbc (output s ++ [config s]) 0 (config s) (aux s)
  else if v =? 0xa8 then mk_kbc (output s) 0 (Z.ldiff (config s) 0x20) (aux s)
  else if v =? 0xa9 then mk_kbc (output s) 0 (Z.lor (config s) 0x20) (aux s)
  else mk_kbc (output s) v (config s) (aux s).
Definition kbc_data (s : kbc) (v : Z) : kbc :=
  if expect s =? 0x60 then mk_kbc (output s) 0 v (aux s)
  else if expect s =? 0xd4 then let '(r, a) := mouse_byte (aux s) v in mk_kbc (output s ++ r) 0 (config s) a
  else mk_kbc (output s) 0 (config s) (aux s).

(** The input buffer is full for [busy] status reads, and the next byte of the
    output is not there yet for [late] ones.  What is written to a full buffer
    is lost; reading too early gives nothing. *)
Record i8042 := mk_i8042 { core : kbc; busy : nat; late : nat }.
Definition i8042_out (delays : nat * nat) (s : i8042) (p v : Z) : i8042 :=
  if (p =? 0x60) || (p =? 0x64) then
    if (busy s =? 0)%nat then mk_i8042 (if p =? 0x64 then kbc_command (core s) v else kbc_data (core s) v) delays.1 delays.2
    else s
  else s.
Definition i8042_in (delay : nat) (s : i8042) (p : Z) : i8042 :=
  if p =? 0x60 then
    if (late s =? 0)%nat
    then mk_i8042 (mk_kbc (tail (output (core s))) (expect (core s)) (config (core s)) (aux (core s))) (busy s) delay
    else s
  else if p =? 0x64 then mk_i8042 (core s) (pred (busy s)) (pred (late s))
  else s.

(** A machine with an 8042: every access may set its own delays. *)
Class I8042 (D : Type) `{Ports D} := {
  ps2 : D -> i8042;
  ps2_out : forall d p v, 0 <= v < 256 -> exists delays, ps2 (outb d p v) = i8042_out delays (ps2 d) p v;
  ps2_in : forall d p, exists delay, ps2 (inb d p).2 = i8042_in delay (ps2 d) p;
  ps2_in_data : forall d b l, output (core (ps2 d)) = b :: l -> late (ps2 d) = 0%nat -> (inb d 0x60).1 = b;
  ps2_in_status : forall d,
    Z.testbit (inb d 0x64).1 0 = (late (ps2 d) =? 0)%nat && negb (bool_decide (output (core (ps2 d)) = [])) /\
    Z.testbit (inb d 0x64).1 1 = negb (busy (ps2 d) =? 0)%nat;
}.

(** ** An instance *)

(** Any machine, with an 8042 that is busy for two status reads after a write
    and takes three to answer. *)
Section Machine.
Context {D : Type} `{HP : Ports D}.

Definition with_out (d : D * i8042) (p v : Z) : D * i8042 := (outb d.1 p v, i8042_out (2%nat, 3%nat) d.2 p v).
Definition with_in (d : D * i8042) (p : Z) : Z * (D * i8042) :=
  (if p =? 0x60 then default 0 (head (output (core d.2)))
   else if p =? 0x64 then
     (if (late d.2 =? 0)%nat && negb (bool_decide (output (core d.2) = [])) then 1 else 0) + (if (busy d.2 =? 0)%nat then 0 else 2)
   else (inb d.1 p).1,
   ((inb d.1 p).2, i8042_in 3 d.2 p)).
#[export] Instance with_Ports : Ports (D * i8042) := {| inb := with_in; outb := with_out |}.
#[export, program] Instance with_Pics `{!Pics D} : Pics (D * i8042) := {| pic := fun d => pic d.1 |}.
Next Obligation. intros HPi d p v s Hv. cbn. by apply pic_out. Qed.
Next Obligation. intros HPi d p s. cbn. by apply pic_in. Qed.
Next Obligation. intros HPi d []; cbn; [apply (pic_in_data d.1 true)|apply (pic_in_data d.1 false)]. Qed.
Next Obligation. intros HPi d []; cbn; [apply (pic_in_command d.1 true)|apply (pic_in_command d.1 false)]. Qed.
#[export, program] Instance with_I8042 : I8042 (D * i8042) := {| ps2 := snd |}.
Next Obligation. intros d p v _. by exists (2%nat, 3%nat). Qed.
Next Obligation. intros d p. by exists 3%nat. Qed.
Next Obligation. intros d b l E _. cbn. by rewrite E. Qed.
Next Obligation. intros d. cbn. by destruct (late d.2 =? 0)%nat, (bool_decide _), (busy d.2 =? 0)%nat. Qed.
End Machine.
