(* ===== verification/PS2Init.v ===== *)
(** * Setting up the keyboard controller and the mouse
    (src/driver/irq/pic/ps2/ps2.c, pic_ps2_Init, and internal.h)

    The handshake with the controller, whose loops wait for it, on any machine
    with an 8042 (I8042.v) and interrupt controllers (Ports.v). *)

From S2P Require Import Prelude Queue Ports Pic I8042.

Definition PIC_PS2_MOUSE_SAMPLERATE : Z := 60.
Definition PIC_PS2_KEYBOARD : Z := 1.
Definition PIC_PS2_MOUSE : Z := 12.
Definition PIC_PS2_IOPORT : Z := 0x60.
Definition PIC_PS2_STATUSPORT : Z := 0x64.
Definition PIC_PS2_CMDPORT : Z := 0x64.
Definition PIC_PS2_STATUS_OUTPUT_BUFFER : Z := 1.
Definition PIC_PS2_STATUS_INPUT_BUFFER : Z := 2.
Definition PIC_PS2_CONFIG_PORT1_CLOCK : Z := 16.
Definition PIC_PS2_CONFIG_PORT1_TRANSLATION : Z := 64.
Definition PIC_PS2_ACK : Z := 0xfa.
Definition PIC_PS2_RESET_OK : Z := 0xaa.
Definition PIC_PS2_CMD_READ_CONFIGBYTE : Z := 0x20.
Definition PIC_PS2_CMD_WRITE_CONFIGBYTE : Z := 0x60.
Definition PIC_PS2_CMD_ENABLE_MOUSE : Z := 0xa8.
Definition PIC_PS2_CMD_SEND_MOUSE : Z := 0xd4.
Definition PIC_PS2_CMD_DEVICE_RESET : Z := 0xff.
Definition PIC_PS2_CMD_DEVICE_MOUSE_ENABLE_REPORTING : Z := 0xf4.
Definition PIC_PS2_QUEUESIZE_KEYBOARD : Z := 64.
Definition PIC_PS2_QUEUESIZE_MOUSE : Z := 256.

(** ** Computations on a machine

    [fuel] bounds every waiting loop; no result when one of them is still
    waiting. *)
Definition io (D A : Type) : Type := nat -> D -> option (A * D).
Definition io_ret {D A} (a : A) : io D A := fun _ d => Some (a, d).
Definition io_bind {D A B} (m : io D A) (k : A -> io D B) : io D B := fun fuel d =>
  match m fuel d with Some (a, d) => k a fuel d | None => None end.
Declare Scope io_scope.
Delimit Scope io_scope with io.
Notation "x <- m ;; k" := (io_bind m (fun x => k)) (at level 100, m at next level, right associativity) : io_scope.
Notation "m ;; k" := (io_bind m (fun _ => k)) (at level 100, right associativity) : io_scope.

Section PS2Init.
Context {D : Type} `{Ports D}.
Local Open Scope io_scope.

Definition io_inb (port : Z) : io D Z := fun _ d => Some (inb d port).
Definition io_outb (port val : Z) : io D unit := fun _ d => Some (tt, outb d port val).

(** [while ((inb(PIC_PS2_STATUSPORT) & bit) == want)], with the loop's test. *)
Fixpoint poll (again : Z -> bool) (fuel : nat) (d : D) : option (unit * D) :=
  match fuel with
  | O => None
  | S fuel => let '(v, d) := inb d PIC_PS2_STATUSPORT in if again v then poll again fuel d else Some (tt, d)
  end.
Definition __ps2_PollWait_ReadReady : io D unit := poll (fun v => Z.land v PIC_PS2_STATUS_OUTPUT_BUFFER =? 0).
Definition __ps2_PollWait_WriteReady : io D unit := poll (fun v => negb (Z.land v PIC_PS2_STATUS_INPUT_BUFFER =? 0)).
Definition __ps2_ReadData : io D Z := __ps2_PollWait_ReadReady ;; io_inb PIC_PS2_IOPORT.
Definition __ps2_WriteCommand (cmd : Z) : io D unit := __ps2_PollWait_WriteReady ;; io_outb PIC_PS2_CMDPORT cmd.
Definition __ps2_WriteCommandData (cmd data : Z) : io D unit :=
  __ps2_PollWait_WriteReady ;;
  io_outb PIC_PS2_CMDPORT cmd ;;
  __ps2_PollWait_WriteReady ;;
  io_outb PIC_PS2_IOPORT data.
(** [while (__ps2_ReadData() != v) {}] *)
Fixpoint read_until_loop (v : Z) (n fuel : nat) (d : D) : option (unit * D) :=
  match n with
  | O => None
  | S n => match __ps2_ReadData fuel d with
           | Some (b, d) => if b =? v then Some (tt, d) else read_until_loop v n fuel d
           | None => None
           end
  end.
Definition read_until (v : Z) : io D unit := fun fuel => read_until_loop v fuel fuel.
Definition __ps2_ReadACK : io D unit := read_until PIC_PS2_ACK.
Definition __ps2_SetMouseRate (rate : Z) : io D unit :=
  __ps2_WriteCommandData PIC_PS2_CMD_SEND_MOUSE 0xf3 ;;
  __ps2_ReadACK ;;
  __ps2_WriteCommandData PIC_PS2_CMD_SEND_MOUSE rate ;;
  __ps2_ReadACK.

(** The variables of the driver. *)
Record ps2_vars := mk_ps2 {
  HasMouse : bool; Mouse4Bytes : bool; QueueKeyboard : queue_Queue; QueueMouse : queue_Queue;
}.
Definition mask (line : Z) (masked : bool) : io D unit := fun _ d => Some (tt, irq_pic_Mask line masked d).

(** The part from the reset of the mouse on. *)
Definition init_mouse (IRQHandlerM : Z) (v : ps2_vars) (t : irq_pic) : io D (ps2_vars * irq_pic) :=
  __ps2_WriteCommandData PIC_PS2_CMD_SEND_MOUSE PIC_PS2_CMD_DEVICE_RESET ;;
  read_until PIC_PS2_RESET_OK ;;
  __ps2_SetMouseRate 200 ;;
  __ps2_SetMouseRate 100 ;;
  __ps2_SetMouseRate 80 ;;
  __ps2_WriteCommandData PIC_PS2_CMD_SEND_MOUSE 0xf2 ;;
  __ps2_ReadACK ;;
  id <- __ps2_ReadData ;;
  mask PIC_PS2_MOUSE false ;;
  __ps2_SetMouseRate PIC_PS2_MOUSE_SAMPLERATE ;;
  __ps2_WriteCommandData PIC_PS2_CMD_SEND_MOUSE PIC_PS2_CMD_DEVICE_MOUSE_ENABLE_REPORTING ;;
  __ps2_ReadACK ;;
  io_ret (mk_ps2 (HasMouse v) (id =? 3) (QueueKeyboard v) (QueueMouse v), set_IRQHandler PIC_PS2_MOUSE IRQHandlerM t).
(** The arguments are the addresses of the two handlers and of the two buffers;
    without the interrupt controllers it panics. *)
Definition pic_ps2_Init (IRQHandlerK IRQHandlerM bufferK bufferM : Z) (v : ps2_vars) (t : irq_pic) : io D (ps2_vars * irq_pic) :=
  if irq_pic_Enabled t then
    let v := mk_ps2 (HasMouse v) (Mouse4Bytes v)
               (queue_InitBuffered bufferK PIC_PS2_QUEUESIZE_KEYBOARD) (queue_InitBuffered bufferM PIC_PS2_QUEUESIZE_MOUSE) in
    let t := set_IRQHandler PIC_PS2_KEYBOARD IRQHandlerK t in
    mask PIC_PS2_KEYBOARD false ;;
    __ps2_WriteCommand PIC_PS2_CMD_ENABLE_MOUSE ;;
    __ps2_WriteCommand PIC_PS2_CMD_READ_CONFIGBYTE ;;
    config <- __ps2_ReadData ;;
    __ps2_WriteCommandData PIC_PS2_CMD_WRITE_CONFIGBYTE (Z.lor config PIC_PS2_CONFIG_PORT1_TRANSLATION) ;;
    if negb (Z.land config PIC_PS2_CONFIG_PORT1_CLOCK =? 0)
    then io_ret (mk_ps2 false (Mouse4Bytes v) (QueueKeyboard v) (QueueMouse v), t)
    else init_mouse IRQHandlerM v t
  else fun _ _ => None.
End PS2Init.

(** ** Computations that end *)

Section Ends.
Context {D : Type}.

(** With enough fuel the computation ends, always in the same way. *)
Definition ends {A} (m : io D A) (d : D) (Q : A -> D -> Prop) : Prop :=
  exists fuel0 a d', (forall fuel, (fuel0 <= fuel)%nat -> m fuel d = Some (a, d')) /\ Q a d'.
Lemma ends_ret {A} (a : A) d (Q : A -> D -> Prop) : Q a d -> ends (io_ret a) d Q.
Proof. intros HQ. by exists O, a, d. Qed.
Lemma ends_bind {A B} (m : io D A) (k : A -> io D B) d (P : A -> D -> Prop) Q :
  ends m d P -> (forall a d', P a d' -> ends (k a) d' Q) -> ends (io_bind m k) d Q.
Proof.
  intros (f & a & d' & Hm & HP) Hk. destruct (Hk a d' HP) as (g & b & d'' & Hb & HQ).
  exists (Nat.max f g), b, d''. split; [|done]. intros fuel Hf. unfold io_bind. rewrite Hm by lia. apply Hb. lia.
Qed.
Lemma ends_weaken {A} (m : io D A) d (P Q : A -> D -> Prop) : ends m d P -> (forall a d', P a d' -> Q a d') -> ends m d Q.
Proof. intros (f & a & d' & Hm & HP) HQ. exists f, a, d'. split; [done|by apply HQ]. Qed.
End Ends.

Section Handshake.
Context {D : Type} `{HP : Ports D} {HPic : Pics D} {HK : I8042 D}.
Implicit Types d : D.

(** The controller is in state [c] and the interrupt controllers are as they were. *)
Definition evolves d (c : kbc) (d' : D) : Prop := core (ps2 d') = c /\ forall s, pic d' s = pic d s.

Lemma evolves_in d p d' v : inb d p = (v, d') -> (p = 0x60 -> late (ps2 d) <> O) -> evolves d (core (ps2 d)) d'.
Proof.
  intros E Hp. destruct (ps2_in d p) as [delay Hi]. pose proof (pic_in d p) as Hpic. rewrite E in Hi, Hpic. cbn [snd] in Hi, Hpic.
  split; [|done]. rewrite Hi. unfold i8042_in. destruct (Z.eqb_spec p 0x60) as [->|]; [|by destruct (p =? 0x64)].
  rewrite (proj2 (Nat.eqb_neq _ _)) by auto. done.
Qed.
Lemma read_status d : exists v d', inb d 0x64 = (v, d') /\ evolves d (core (ps2 d)) d' /\
  busy (ps2 d') = pred (busy (ps2 d)) /\ late (ps2 d') = pred (late (ps2 d)) /\
  (Z.land v 1 =? 0) = negb ((late (ps2 d) =? 0)%nat && negb (bool_decide (output (core (ps2 d)) = []))) /\
  (Z.land v 2 =? 0) = (busy (ps2 d) =? 0)%nat.
Proof.
  destruct (ps2_in d 0x64) as [delay Hi]. destruct (ps2_in_status d) as [H0 H1]. destruct (inb d 0x64) as [v d'] eqn:E. cbn [fst snd] in *.
  exists v, d'. split; [done|]. split; [by eapply evolves_in|]. rewrite Hi. cbn. split; [done|]. split; [done|].
  change 1 with (2 ^ 0) at 1. change 2 with (2 ^ 1). rewrite !land_bit_zero by lia. rewrite H0, H1. split; [done|]. by rewrite negb_involutive.
Qed.
Lemma evolves_trans d1 d2 d3 c c' : evolves d1 c d2 -> evolves d2 c' d3 -> evolves d1 c' d3.
Proof. intros [_ H1] [E H2]. split; [done|]. intros s. by rewrite H2. Qed.

Lemma write_ready n : forall d, busy (ps2 d) = n -> exists d', evolves d (core (ps2 d)) d' /\ busy (ps2 d') = O /\
  forall fuel, (n < fuel)%nat -> __ps2_PollWait_WriteReady fuel d = Some (tt, d').
Proof.
  induction n as [|n IH]; intros d Hn; destruct (read_status d) as (v & d1 & E & He & Hb & _ & _ & Hv); rewrite Hn in Hb, Hv.
  - exists d1. split; [done|]. split; [done|]. intros [|fuel] Hf; [lia|]. unfold __ps2_PollWait_WriteReady. cbn [poll].
    change PIC_PS2_STATUSPORT with 0x64. rewrite E. change PIC_PS2_STATUS_INPUT_BUFFER with 2. by rewrite Hv.
  - destruct (IH d1 Hb) as (d' & He' & Hb' & Hf'). exists d'. split; [destruct He as [<- ?]; eapply evolves_trans; [|exact He']; done|].
    split; [done|]. intros [|fuel] Hf; [lia|]. unfold __ps2_PollWait_WriteReady in *. cbn [poll].
    change PIC_PS2_STATUSPORT with 0x64. rewrite E. change PIC_PS2_STATUS_INPUT_BUFFER with 2. rewrite Hv. cbn [negb Nat.eqb]. apply Hf'. lia.
Qed.
Lemma read_ready n : forall d, late (ps2 d) = n -> output (core (ps2 d)) <> [] -> exists d', evolves d (core (ps2 d)) d' /\ late (ps2 d') = O /\
  forall fuel, (n < fuel)%nat -> __ps2_PollWait_ReadReady fuel d = Some (tt, d').
Proof.
  induction n as [|n IH]; intros d Hn Ho; destruct (read_status d) as (v & d1 & E & He & _ & Hl & Hv & _); rewrite Hn, bool_decide_false in Hv by done; rewrite Hn in Hl.
  - exists d1. split; [done|]. split; [done|]. intros [|fuel] Hf; [lia|]. unfold __ps2_PollWait_ReadReady. cbn [poll].
    change PIC_PS2_STATUSPORT with 0x64. rewrite E. change PIC_PS2_STATUS_OUTPUT_BUFFER with 1. by rewrite Hv.
  - destruct (IH d1 Hl) as (d' & He' & Hb' & Hf'); [by destruct He as [-> _]|]. exists d'. split; [destruct He as [<- ?]; eapply evolves_trans; [|exact He']; done|].
    split; [done|]. intros [|fuel] Hf; [lia|]. unfold __ps2_PollWait_ReadReady in *. cbn [poll].
    change PIC_PS2_STATUSPORT with 0x64. rewrite E. change PIC_PS2_STATUS_OUTPUT_BUFFER with 1. rewrite Hv. cbn [negb Nat.eqb andb]. apply Hf'. lia.
Qed.

Lemma evolves_out d p v c : 0 <= v < 256 -> p = 0x60 \/ p = 0x64 -> busy (ps2 d) = O -> core (ps2 d) = c ->
  evolves d (if p =? 0x64 then kbc_command c v else kbc_data c v) (outb d p v).
Proof.
  intros Hv Hp Hb Hc. destruct (ps2_out d p v Hv) as [delays E]. split.
  - rewrite E. unfold i8042_out. rewrite Hb, Hc. by destruct Hp as [->| ->].
  - intros s. rewrite pic_out by done. by destruct Hp as [->| ->], s.
Qed.
(** Writing, with the wait before. *)
Lemma WriteCommand_ends cmd d c : 0 <= cmd < 256 -> core (ps2 d) = c ->
  ends (__ps2_WriteCommand cmd) d (fun _ => evolves d (kbc_command c cmd)).
Proof.
  intros Hv Hc. destruct (write_ready (busy (ps2 d)) d eq_refl) as (d1 & He & Hb & Hf).
  eapply (ends_bind _ _ _ (fun _ => eq d1)); [exists (S (busy (ps2 d))), tt, d1; split; [intros fuel Hle; apply Hf; lia|done]|].
  intros _ ? <-. exists O, tt, (outb d1 0x64 cmd). split; [done|]. destruct He as [Hc1 Hp1]. rewrite Hc in Hc1.
  eapply evolves_trans; [split; [exact Hc1|exact Hp1]|]. apply (evolves_out d1 0x64 cmd c); auto.
Qed.
Lemma WriteData_ends data d c : 0 <= data < 256 -> core (ps2 d) = c ->
  ends (io_bind __ps2_PollWait_WriteReady (fun _ => io_outb PIC_PS2_IOPORT data)) d (fun _ => evolves d (kbc_data c data)).
Proof.
  intros Hv Hc. destruct (write_ready (busy (ps2 d)) d eq_refl) as (d1 & He & Hb & Hf).
  eapply (ends_bind _ _ _ (fun _ => eq d1)); [exists (S (busy (ps2 d))), tt, d1; split; [intros fuel Hle; apply Hf; lia|done]|].
  intros _ ? <-. exists O, tt, (outb d1 0x60 data). split; [done|]. destruct He as [Hc1 Hp1]. rewrite Hc in Hc1.
  eapply evolves_trans; [split; [exact Hc1|exact Hp1]|]. apply (evolves_out d1 0x60 data c); auto.
Qed.
Lemma WriteCommandData_ends cmd data d c : 0 <= cmd < 256 -> 0 <= data < 256 -> core (ps2 d) = c ->
  ends (__ps2_WriteCommandData cmd data) d (fun _ => evolves d (kbc_data (kbc_command c cmd) data)).
Proof.
  intros Hcm Hda Hc. destruct (write_ready (busy (ps2 d)) d eq_refl) as (d1 & He & Hb & Hf).
  eapply (ends_bind _ _ _ (fun _ => eq d1)); [exists (S (busy (ps2 d))), tt, d1; split; [intros fuel Hle; apply Hf; lia|done]|].
  intros _ ? <-. destruct He as [Hc1 Hp1]. rewrite Hc in Hc1.
  eapply (ends_bind _ _ _ (fun _ => eq (outb d1 0x64 cmd))); [by exists O, tt, (outb d1 0x64 cmd)|].
  intros _ ? <-. pose proof (evolves_out d1 0x64 cmd c Hcm ltac:(auto) Hb Hc1) as [Hc2 Hp2].
  eapply ends_weaken; [apply (WriteData_ends data _ _ Hda Hc2)|]. intros _ d' [Hc3 Hp3]. split; [done|]. intros s. by rewrite Hp3, Hp2.
Qed.
Lemma ReadData_ends d o ex cf a b : core (ps2 d) = mk_kbc (b :: o) ex cf a ->
  ends __ps2_ReadData d (fun v d' => v = b /\ evolves d (mk_kbc o ex cf a) d').
Proof.
  intros Hc. destruct (read_ready (late (ps2 d)) d eq_refl) as (d1 & [Hc1 Hp1] & Hl & Hf); [by rewrite Hc|].
  eapply (ends_bind _ _ _ (fun _ => eq d1)); [exists (S (late (ps2 d))), tt, d1; split; [intros fuel Hle; apply Hf; lia|done]|].
  intros _ ? <-. exists O, (inb d1 0x60).1, (inb d1 0x60).2. split; [intros fuel _; unfold io_inb, PIC_PS2_IOPORT; by destruct (inb d1 0x60)|]. rewrite Hc in Hc1. split.
  - eapply ps2_in_data; [by rewrite Hc1|done].
  - destruct (ps2_in d1 0x60) as [delay E]. split; [rewrite E; unfold i8042_in; by rewrite Hl, Hc1|]. intros s. by rewrite pic_in.
Qed.
(** Reading up to a byte. *)
Lemma read_until_ends v pre : forall d o ex cf a, v ∉ pre -> core (ps2 d) = mk_kbc (pre ++ v :: o) ex cf a ->
  ends (read_until v) d (fun _ => evolves d (mk_kbc o ex cf a)).
Proof.
  assert (forall pre d o ex cf a, v ∉ pre -> core (ps2 d) = mk_kbc (pre ++ v :: o) ex cf a ->
    exists f d', (forall n fuel, (f <= fuel)%nat -> (length pre < n)%nat -> read_until_loop v n fuel d = Some (tt, d')) /\ evolves d (mk_kbc o ex cf a) d') as Hloop.
  { clear pre. intros pre. induction pre as [|b pre IH]; intros d o ex cf a Hn Hc.
    - destruct (ReadData_ends d o ex cf a v Hc) as (f & b & d1 & Hr & -> & He). exists f, d1. split; [|done].
      intros [|n] fuel Hle Hl; [cbn in Hl; lia|]. cbn [read_until_loop]. rewrite Hr by lia. by rewrite Z.eqb_refl.
    - destruct (ReadData_ends d (pre ++ v :: o) ex cf a b Hc) as (f & b' & d1 & Hr & -> & [Hc1 Hp1]).
      apply not_elem_of_cons in Hn as [Hne Hn]. destruct (IH d1 o ex cf a Hn Hc1) as (g & d2 & Hg & [Hc2 Hp2]).
      exists (Nat.max f g), d2. split; [|split; [done|intros s; by rewrite Hp2]].
      intros [|n] fuel Hle Hl; [cbn in Hl; lia|]. cbn [read_until_loop]. rewrite Hr by lia. rewrite (proj2 (Z.eqb_neq b v)) by congruence.
      apply Hg; [lia|cbn in Hl; lia]. }
  intros d o ex cf a Hn Hc. destruct (Hloop pre d o ex cf a Hn Hc) as (f & d' & Hf & He).
  exists (Nat.max f (S (length pre))), tt, d'. split; [|done]. intros fuel Hle. apply Hf; lia.
Qed.
(** The rate: what was left to read before the acknowledgement is dropped. *)
Lemma SetMouseRate_ends r pre d ex cf a : 0 <= r < 256 -> 0xfa ∉ pre -> rate_next a = false -> core (ps2 d) = mk_kbc pre ex cf a ->
  ends (__ps2_SetMouseRate r) d (fun _ => evolves d (mk_kbc [] 0 cf
    (let rs := take 3 (r :: rates a) in mk_mouse (wheel a) rs r (if wheel a && bool_decide (rs = [80; 100; 200]) then 3 else identity a) (reporting a) false))).
Proof.
  intros Hr Hpre Ha Hc. eapply ends_bind; [eapply (WriteCommandData_ends PIC_PS2_CMD_SEND_MOUSE 0xf3 d _); [by vm_compute|by vm_compute|exact Hc]|].
  intros [] d1 He1. cbn in He1. unfold kbc_data in He1. cbn [expect aux] in He1. unfold mouse_byte in He1. rewrite Ha in He1. cbn in He1.
  eapply ends_bind; [eapply (read_until_ends _ pre d1 []), He1; done|]. intros [] d2 He2.
  eapply ends_bind; [eapply (WriteCommandData_ends PIC_PS2_CMD_SEND_MOUSE r d2); [by vm_compute|done|apply He2]|]. intros [] d3 He3. cbn in He3.
  eapply ends_weaken; [eapply (read_until_ends _ [] d3 []); [set_solver|apply He3]|]. intros [] d4 He4.
  eapply evolves_trans; [exact He1|]. eapply evolves_trans; [exact He2|]. eapply evolves_trans; [exact He3|exact He4].
Qed.

Lemma Mask_core d line masked : 0 <= line < 16 -> core (ps2 (irq_pic_Mask line masked d)) = core (ps2 d).
Proof.
  intros Hl. unfold irq_pic_Mask.
  assert (exists p l, (if line <? 8 then (PIC1_DATA, line) else (PIC2_DATA, u8 (line - 8))) = (p, l) /\ (p = PIC1_DATA \/ p = PIC2_DATA)) as (p & l & -> & Hp).
  { destruct (line <? 8); eexists _, _; split; [done|by left|done|by right]. }
  destruct (ps2_in d p) as [delay E]. destruct (inb d p) as [v d']. cbn [snd] in E.
  destruct (ps2_out d' p (u8 (if masked then Z.lor v (Z.shiftl 1 l) else Z.land v (Z.lnot (Z.shiftl 1 l))))) as [delays ->]; [apply u8_range|].
  rewrite E. by destruct Hp as [->| ->].
Qed.
Lemma Mask_phase d line masked s : 0 <= line < 16 -> (forall s, phase (pic d s) = 0) -> phase (pic (irq_pic_Mask line masked d) s) = 0.
Proof.
  intros Hl Hph. destruct (Mask_spec d line masked Hl Hph) as (_ & (_ & _ & _ & _ & _ & Hp & _) & Ho).
  destruct (decide (s = (8 <=? line))) as [->|Hne]; [by rewrite Hp|]. replace s with (negb (8 <=? line)); [by rewrite Ho|].
  by destruct s, (8 <=? line).
Qed.
(** The open lines of the interrupt controllers. *)
Definition line_masked d (line : Z) : bool := Z.testbit (imr (pic d (8 <=? line))) (line mod 8).
Lemma line_masked_ext d d' line : (forall s, pic d' s = pic d s) -> line_masked d' line = line_masked d line.
Proof. intros Hp. unfold line_masked. by rewrite Hp. Qed.

(** A mouse that has been set up. *)
Definition ready_mouse (a : mouse) : mouse :=
  mk_mouse (wheel a) [60; 80; 100] 60 (if wheel a then 3 else 0) true false.
Lemma init_mouse_ends IRQHandlerM v t d cf a : core (ps2 d) = mk_kbc [] 0 cf a -> rate_next a = false -> (forall s, phase (pic d s) = 0) ->
  ends (init_mouse IRQHandlerM v t) d (fun r d' =>
    r = (mk_ps2 (HasMouse v) (wheel a) (QueueKeyboard v) (QueueMouse v), set_IRQHandler PIC_PS2_MOUSE IRQHandlerM t) /\
    core (ps2 d') = mk_kbc [] 0 cf (ready_mouse a) /\
    forall line, 0 <= line < 16 -> line_masked d' line = if decide (line = 12) then false else line_masked d line).
Proof.
  intros Hc Ha Hph. unfold init_mouse.
  eapply ends_bind; [eapply (WriteCommandData_ends _ _ d); [by vm_compute|by vm_compute|exact Hc]|]. intros [] d1 He1.
  cbn in He1. unfold kbc_data, mouse_byte in He1. cbn [expect aux config output Z.eqb Pos.eqb] in He1. rewrite Ha in He1. cbn in He1.
  eapply ends_bind; [eapply (read_until_ends _ [0xfa] d1 [0]), He1; set_solver|]. intros [] d2 He2.
  eapply ends_bind; [eapply (SetMouseRate_ends 200 [0] d2); [lia|set_solver| |apply He2]; done|]. intros [] d3 He3. cbn in He3.
  eapply ends_bind; [eapply (SetMouseRate_ends 100 [] d3); [lia|set_solver| |apply He3]; done|]. intros [] d4 He4. cbn in He4.
  eapply ends_bind; [eapply (SetMouseRate_ends 80 [] d4); [lia|set_solver| |apply He4]; done|]. intros [] d5 He5. cbn in He5.
  rewrite (bool_decide_true ([80; 100; 200] = _)), !bool_decide_false, !andb_false_r, andb_true_r in He5 by done. set (id := if wheel a then 3 else 0) in He5.
  eapply ends_bind; [eapply (WriteCommandData_ends _ _ d5); [by vm_compute|by vm_compute|apply He5]|]. intros [] d6 He6. cbn in He6.
  eapply ends_bind; [eapply (read_until_ends _ [] d6 [id]), He6; set_solver|]. intros [] d7 He7.
  eapply ends_bind; [eapply (ReadData_ends d7 []), He7|]. intros x d8 [-> He8].
  eapply (ends_bind _ _ _ (fun _ => eq (irq_pic_Mask 12 false d8))); [by exists O, tt, (irq_pic_Mask 12 false d8)|]. intros [] ? <-.
  eapply ends_bind; [eapply (SetMouseRate_ends 60 [] (irq_pic_Mask 12 false d8)); [lia|set_solver| |rewrite Mask_core by lia; apply He8]; done|].
  intros [] d9 He9. cbn in He9.
  eapply ends_bind; [eapply (WriteCommandData_ends _ _ d9); [by vm_compute|by vm_compute|apply He9]|]. intros [] d10 He10. cbn in He10.
  eapply ends_bind; [eapply (read_until_ends _ [] d10 []), He10; set_solver|]. intros [] d11 He11.
  apply ends_ret. split; [by unfold id; destruct (wheel a)|]. split.
  - destruct He11 as [-> _]. unfold ready_mouse. rewrite bool_decide_false, andb_false_r by done. done.
  - assert (forall s, pic d8 s = pic d s) as H8.
    { intros s. rewrite (proj2 He8), (proj2 He7), (proj2 He6), (proj2 He5), (proj2 He4), (proj2 He3), (proj2 He2). apply He1. }
    intros line Hl. rewrite (line_masked_ext (irq_pic_Mask 12 false d8)) by (intros s; rewrite (proj2 He11), (proj2 He10); apply He9).
    unfold line_masked. rewrite (Mask_lines d8 12 false) by (lia || (intros s; by rewrite H8)). by rewrite H8.
Qed.
End Handshake.

Lemma ldiff_byte cf : 0 <= cf < 256 -> 0 <= Z.ldiff cf 0x20 < 256.
Proof.
  intros Hc. assert (Forall (fun x => 0 <= Z.ldiff x 0x20 < 256) (seqZ 0 256)) as Hall by (apply (bool_decide_unpack _); vm_compute; exact I).
  rewrite Forall_forall in Hall. apply Hall. apply elem_of_seqZ. lia.
Qed.
(** The part up to the test for the mouse, whatever comes after. *)
Lemma start_ends {D} `{HP : Ports D} {HPic : Pics D} {HK : I8042 D} (d : D) ex cfg a {A} (k : Z -> io D A) Q :
  core (ps2 d) = mk_kbc [] ex cfg a -> 0 <= cfg < 256 -> let cf := Z.ldiff cfg 0x20 in
  (forall d', evolves (irq_pic_Mask 1 false d) (mk_kbc [] 0 (Z.lor cf 0x40) a) d' -> ends (k cf) d' Q) ->
  ends (mask PIC_PS2_KEYBOARD false ;; __ps2_WriteCommand PIC_PS2_CMD_ENABLE_MOUSE ;; __ps2_WriteCommand PIC_PS2_CMD_READ_CONFIGBYTE ;;
    config <- __ps2_ReadData ;; __ps2_WriteCommandData PIC_PS2_CMD_WRITE_CONFIGBYTE (Z.lor config PIC_PS2_CONFIG_PORT1_TRANSLATION) ;; k config)%io d Q.
Proof.
  intros Ec Hcf cf Hk. pose proof (ldiff_byte cfg Hcf) as Hc. fold cf in Hc. set (d0 := irq_pic_Mask 1 false d) in *.
  assert (core (ps2 d0) = mk_kbc [] ex cfg a) as Ec0 by (unfold d0; by rewrite Mask_core).
  eapply (ends_bind _ _ _ (fun _ => eq d0)); [by exists O, tt, d0|]. intros [] ? <-.
  eapply ends_bind; [eapply (WriteCommand_ends _ d0); [by vm_compute|exact Ec0]|]. intros [] d1 He1. cbn in He1.
  eapply ends_bind; [eapply (WriteCommand_ends _ d1); [by vm_compute|apply He1]|]. intros [] d2 He2. cbn in He2.
  eapply ends_bind; [eapply (ReadData_ends d2 []), He2|]. intros x d3 [-> He3].
  eapply ends_bind; [eapply (WriteCommandData_ends _ _ d3); [by vm_compute|by apply lor_byte|apply He3]|]. intros [] d4 He4. cbn in He4.
  apply Hk. eapply evolves_trans; [exact He1|]. eapply evolves_trans; [exact He2|]. eapply evolves_trans; [exact He3|exact He4].
Qed.
Lemma clock_test cf : (Z.land cf PIC_PS2_CONFIG_PORT1_CLOCK =? 0) = negb (Z.testbit cf 4).
Proof. change PIC_PS2_CONFIG_PORT1_CLOCK with (2 ^ 4). by apply land_bit_zero. Qed.

(** * Properties *)

Section Properties.
Context {D : Type} `{HP : Ports D} {HPic : Pics D} {HK : I8042 D}.
Implicit Types d : D.

(** C25. The set-up ends, however long the controller and the mouse take, and
    reads everything they say.  The keyboard's handler is installed and its line
    opened, the second port is enabled and the translation of scancodes turned
    on.  Unless the configuration disables the first port's clock, the mouse is
    reset, reports at 60 samples per second, its line is opened with its
    handler, and packets have four bytes exactly when it has a wheel. *)
Theorem pic_ps2_Init_correct K M bufK bufM v t d :
  let c := core (ps2 d) in let cf := Z.ldiff (config c) 0x20 in
  irq_pic_Enabled t = true -> (forall s, phase (pic d s) = 0) ->
  output c = [] -> rate_next (aux c) = false -> 0 <= config c < 256 ->
  exists fuel0 v' t' d', (forall fuel, (fuel0 <= fuel)%nat -> pic_ps2_Init K M bufK bufM v t fuel d = Some ((v', t'), d')) /\
    let has_mouse := negb (Z.testbit cf 4) in
    core (ps2 d') = mk_kbc [] 0 (Z.lor cf 0x40) (if has_mouse then ready_mouse (aux c) else aux c) /\
    Mouse4Bytes v' = (if has_mouse then wheel (aux c) else Mouse4Bytes v) /\ HasMouse v' = (if has_mouse then HasMouse v else false) /\
    QueueKeyboard v' = queue_InitBuffered bufK 64 /\ QueueMouse v' = queue_InitBuffered bufM 256 /\
    (forall line, 0 <= line < 16 ->
       IRQHandler t' line = (if decide (line = 1) then K else if decide (line = 12 /\ has_mouse = true) then M else IRQHandler t line) /\
       line_masked d' line = (if decide (line = 1 \/ line = 12 /\ has_mouse = true) then false else line_masked d line)).
Proof.
  intros c cf Ht Hph Ho Hr Hcf. subst c cf. destruct (core (ps2 d)) as [o ex cfg a] eqn:Ec. cbn [output config aux] in *. subst o.
  set (cf := Z.ldiff cfg 0x20).
  assert (forall d', evolves (irq_pic_Mask 1 false d) (mk_kbc [] 0 (Z.lor cf 0x40) a) d' -> forall line, 0 <= line < 16 ->
    line_masked d' line = if decide (line = 1) then false else line_masked d line) as Hline.
  { intros d' [_ He] line Hl. rewrite (line_masked_ext (irq_pic_Mask 1 false d)) by exact He. by apply Mask_lines. }
  set (Q := fun (r : ps2_vars * irq_pic) d' => 
    core (ps2 d') = mk_kbc [] 0 (Z.lor cf 0x40) (if negb (Z.testbit cf 4) then ready_mouse a else a) /\
    Mouse4Bytes r.1 = (if negb (Z.testbit cf 4) then wheel a else Mouse4Bytes v) /\ HasMouse r.1 = (if negb (Z.testbit cf 4) then HasMouse v else false) /\
    QueueKeyboard r.1 = queue_InitBuffered bufK 64 /\ QueueMouse r.1 = queue_InitBuffered bufM 256 /\
    (forall line, 0 <= line < 16 ->
       IRQHandler r.2 line = (if decide (line = 1) then K else if decide (line = 12 /\ negb (Z.testbit cf 4) = true) then M else IRQHandler t line) /\
       line_masked d' line = (if decide (line = 1 \/ line = 12 /\ negb (Z.testbit cf 4) = true) then false else line_masked d line))).
  assert (ends (pic_ps2_Init K M bufK bufM v t) d Q) as (f & [v' t'] & d' & Hf & HQ).
  2:{ exists f, v', t', d'. split; [exact Hf|exact HQ]. }
  unfold pic_ps2_Init. rewrite Ht. apply (start_ends d ex cfg a); [done|done|]. fold cf. intros d1 He. specialize (Hline d1 He).
  rewrite clock_test, negb_involutive. unfold Q. destruct (Z.testbit cf 4); cbn [negb].
  - apply ends_ret. cbn [fst snd HasMouse Mouse4Bytes QueueKeyboard QueueMouse]. split; [apply He|]. split_and!; [done..|]. intros line Hl. rewrite Hline by done.
    unfold set_IRQHandler, set_fn. cbn [IRQHandler]. repeat case_decide; try lia; repeat zcase; try lia; naive_solver.
  - eapply ends_weaken.
    { eapply (init_mouse_ends _ _ _ d1 (Z.lor cf 0x40) a); [apply He|done|]. intros s. rewrite (proj2 He). by apply Mask_phase. }
    intros r d' (-> & Hc & Hl'). cbn [fst snd HasMouse Mouse4Bytes QueueKeyboard QueueMouse]. split; [done|]. split_and!; [done..|].
    intros line Hl. rewrite Hl', Hline by done. unfold set_IRQHandler, set_fn. cbn [IRQHandler].
    change PIC_PS2_MOUSE with 12. change PIC_PS2_KEYBOARD with 1. repeat case_decide; try lia; repeat zcase; try lia; naive_solver.
Qed.
End Properties.

(** A mouse with a wheel; the second port is off at first. *)
Definition demo_ps2 : pc * i8042 :=
  (pc_boot, mk_i8042 (mk_kbc [] 0 0x27 (mk_mouse true [] 100 0 false false)) 1 0).
Definition demo_vars : ps2_vars := mk_ps2 false false (queue_InitBuffered 0 1) (queue_InitBuffered 0 1).
Lemma pic_ps2_Init_correct_witness :
  exists fuel v' t' d', pic_ps2_Init 7 8 1000 2000 demo_vars (mk_irq (fun _ => 0) (fun _ => 0) (fun _ => 0) true) fuel demo_ps2 = Some ((v', t'), d') /\
    config (core (ps2 d')) = 0x47 /\ Mouse4Bytes v' = true /\ IRQHandler t' 12 = 8 /\ line_masked d' 12 = false.
Proof.
  destruct (pic_ps2_Init_correct 7 8 1000 2000 demo_vars (mk_irq (fun _ => 0) (fun _ => 0) (fun _ => 0) true) demo_ps2)
    as (fuel & v' & t' & d' & Hf & Hc & H4 & _ & _ & _ & Hl); [done|by intros []|done|done|by split|].
  exists fuel, v', t', d'. split; [by apply Hf|]. split; [rewrite Hc; reflexivity|]. split; [exact H4|].
  destruct (Hl 12 ltac:(lia)) as [H1 H2]. split; [exact H1|exact H2].
Defined.
