(* ===== verification/Entry.v ===== *)
(** * Entry code: exceptions, the system call, calling conventions, mode switch
    (src/interrupt/handler.asm.S, handler.c, syscall.S,
    src/runtime/calling_convention.S, src/memory/paging_modeswitch.S)

    The assembly routines as steps on the processor's registers and the stack,
    and what the C functions they call receive.  What the processor does on an
    exception is the documented behaviour of an interrupt gate without a change
    of stack or privilege. *)

From S2P Require Import Prelude Mem.

Inductive reg := RAX | RBX | RCX | RDX | RSI | RDI | RBP | R8 | R9 | R10 | R11 | R12 | R13 | R14 | R15.
#[export] Instance reg_eq_dec : EqDecision reg.
Proof. solve_decision. Defined.

Record machine := mk_machine { gp : reg -> Z; rsp : Z; stk : mem }.

(** ** Instructions *)

Definition mov (r : reg) (v : Z) (s : machine) : machine :=
  mk_machine (fun x => if decide (x = r) then v else gp s x) (rsp s) (stk s).
Definition push_val (v : Z) (s : machine) : machine :=
  let a := u64 (rsp s - 8) in mk_machine (gp s) a (store64 (stk s) a v).
Definition push (r : reg) (s : machine) : machine := push_val (gp s r) s.
Definition qword (s : machine) (off : Z) : Z := load64 (stk s) (u64 (rsp s + off)).
Definition dword (s : machine) (off : Z) : Z := load32 (stk s) (u64 (rsp s + off)).

(** The processor on an exception or interrupt: the stack is aligned, and the
    frame of the interrupted code and the error code, if any, are pushed. *)
Record interrupted := mk_interrupted { i_rip : Z; i_cs : Z; i_rflags : Z; i_ss : Z; i_err : option Z }.
Definition deliver (i : interrupted) (s : machine) : machine :=
  let s0 := mk_machine (gp s) (rsp s / 16 * 16) (stk s) in
  let s1 := push_val (i_rip i) (push_val (i_cs i) (push_val (i_rflags i) (push_val (rsp s) (push_val (i_ss i) s0)))) in
  match i_err i with Some e => push_val e s1 | None => s1 end.

(** ** The exceptions *)

(** The pushes both macros begin with. *)
Definition save_all (s : machine) : machine :=
  let s := push R15 s in
  let s := mov R15 (u64 (rsp s + 8)) s in
  push RDX (push RSI (push RDI (push RBP (push R15 (push R8 (push R9 (push R10 (push R11 (push R12 (push R13 (push R14 s))))))))))).
(** The state in which [interrupt_Handler] is called. *)
Definition inth_noerr (op1 : Z) (s : machine) : machine :=
  let s := save_all s in
  let s := mov R9 (gp s RCX) s in
  let s := mov R8 (gp s RBX) s in
  let s := mov RCX (gp s RAX) s in
  let s := mov RDX (qword s 104) s in
  let s := mov RSI 0 s in
  mov RDI op1 s.
Definition inth_err (op1 : Z) (s : machine) : machine :=
  let s := save_all s in
  let s := mov R9 (gp s RCX) s in
  let s := mov R8 (gp s RBX) s in
  let s := mov RCX (gp s RAX) s in
  let s := mov RDX (qword s (8 + 104)) s in
  let s := mov RSI (dword s 104) s in
  mov RDI op1 s.
(** The entries that expect an error code. *)
Definition err_vectors : list Z := [10; 11; 12; 13; 14; 17; 21].
Definition interrupt_Int (v : Z) (s : machine) : machine :=
  if bool_decide (v ∈ err_vectors) then inth_err v s else inth_noerr v s.

(** What [interrupt_Handler] prints before it halts: its arguments, the first
    six from registers, the others from the stack; [ret] is the address the call
    pushes. *)
Record panic_report := mk_report { r_vec : Z; r_err : Z; r_rip : Z; r_regs : reg -> Z; r_rsp : Z }.
Definition interrupt_Handler (ret : Z) (s : machine) : panic_report :=
  let s := push_val ret s in
  let arg k := qword s (8 + 8 * k) in
  mk_report (i32 (gp s RDI)) (i32 (gp s RSI)) (gp s RDX)
    (fun r => match r with
              | RAX => gp s RCX | RBX => gp s R8 | RCX => gp s R9
              | RDX => arg 0 | RSI => arg 1 | RDI => arg 2 | RBP => arg 3
              | R8 => arg 5 | R9 => arg 6 | R10 => arg 7 | R11 => arg 8 | R12 => arg 9 | R13 => arg 10 | R14 => arg 11 | R15 => arg 12
              end) (arg 4).

(** ** The system call *)

(** Up to the interrupt; the stack holds the return address and the seventh
    argument. *)
Definition asm_Syscall (s : machine) : machine :=
  let s := mov RAX (gp s RDI) s in
  let s := mov RDI (gp s RSI) s in
  let s := mov RSI (gp s RDX) s in
  let s := mov RDX (gp s RCX) s in
  let s := mov RCX (gp s R8) s in
  let s := mov R8 (gp s R9) s in
  mov R9 (qword s 8) s.
(** [interrupt_Handler128]: the opcode and the six [int]s it prints. *)
Definition interrupt_Handler128 (s : machine) : Z * list Z :=
  (i32 (gp s RAX), [i32 (gp s RDI); i32 (gp s RSI); i32 (gp s RDX); i32 (gp s RCX); i32 (gp s R8); i32 (gp s R9)]).
(** [int 0x80] enters at [interrupt_Int128], whose only instruction before the
    call is the call. *)
Definition Syscall (i : interrupted) (ret : Z) (s : machine) : Z * list Z :=
  interrupt_Handler128 (push_val ret (deliver i (asm_Syscall s))).

(** ** Calls to Microsoft's convention *)

(** The state in which the function at [rdi] starts; [ret] is pushed by the
    call. *)
Definition sysv_x64fastcall (ret : Z) (s : machine) : machine :=
  let s := mk_machine (gp s) (u64 (rsp s - 4 * 8)) (stk s) in
  let s := mov RAX (gp s RCX) s in
  let s := mov RCX (gp s RDX) s in
  let s := mov RDX (gp s RAX) s in
  push_val ret s.

(** ** The mode switch *)

Record control := mk_control { cr3 : Z; cr4 : Z; efer : Z }.
Definition CR4_LA57 : Z := 0x1000.
Definition CR4_PCIDE : Z := 0x20000.
(** The processor faults when the identifiers are turned on while CR3 holds
    one, and when 5-level paging is switched in 64-bit mode. *)
Definition mov_cr4 (v : Z) (c : control) : option control :=
  if xorb (Z.testbit (cr4 c) 12) (Z.testbit v 12) then None
  else if negb (Z.testbit (cr4 c) 17) && Z.testbit v 17 && negb (Z.land (cr3 c) 0xFFF =? 0) then None
  else Some (mk_control (cr3 c) v (efer c)).
Definition cr3_of (pml4 pcid : Z) : Z := Z.lor pml4 (Z.land pcid 0xFFF).
Definition paging_modeswitch_4LevelPaging (pml4 pcid : Z) (c : control) : option control :=
  c ← mov_cr4 (Z.lor (Z.land (cr4 c) 0xFFFFFFFFFFFFEFFF) CR4_PCIDE) c;
  Some (mk_control (cr3_of pml4 pcid) (cr4 c) (efer c)).
(** The model specific register is read and written as two halves. *)
Definition paging_modeswitch_4LevelPagingNX (pml4 pcid : Z) (c : control) : option control :=
  c ← mov_cr4 (Z.lor (Z.land (cr4 c) 0xFFFFFFFFFFFFEFFF) CR4_PCIDE) c;
  let edx := efer c / 2 ^ 32 in
  let eax := Z.lor (u32 (efer c)) (Z.shiftl 1 11) in
  let c := mk_control (cr3 c) (cr4 c) (edx * 2 ^ 32 + eax) in
  Some (mk_control (cr3_of pml4 pcid) (cr4 c) (efer c)).
Definition paging_modeswitch_Table (pml4 pcid : Z) (c : control) : control := mk_control (cr3_of pml4 pcid) (cr4 c) (efer c).

(** ** The stack as a list *)

Definition is_u64 (v : Z) : Prop := 0 <= v < 2 ^ 64.
(** The values on the stack, from the top. *)
Record holds (s : machine) (l : list Z) : Prop := {
  ho_rsp : 0 <= rsp s /\ rsp s + 8 * Z.of_nat (length l) <= 2 ^ 64;
  ho_vals : forall k x, l !! k = Some x -> qword s (8 * Z.of_nat k) = x;
}.
Lemma holds_nil s : 0 <= rsp s <= 2 ^ 64 -> holds s [].
Proof. intros Hr. split; [cbn [length]; lia|done]. Qed.
Lemma stack_push s l v : holds s l -> 8 <= rsp s -> is_u64 v ->
  holds (push_val v s) (v :: l) /\ rsp (push_val v s) = rsp s - 8.
Proof.
  unfold is_u64. change (2 ^ 64) with 18446744073709551616. intros [[Hr0 Hr] Hv] Hr8 Hu. change (2 ^ 64) with 18446744073709551616 in Hr.
  assert (u64 (rsp s - 8) = rsp s - 8) as Ea by (apply u64_small; lia). unfold push_val. rewrite Ea.
  split; [|done]. split; cbn [rsp length].
  { change (2 ^ 64) with 18446744073709551616. lia. }
  intros [|k] x Hk; cbn [lookup] in Hk; unfold qword; cbn [rsp stk].
  - injection Hk as <-. rewrite u64_small by lia. replace (rsp s - 8 + 8 * Z.of_nat 0) with (rsp s - 8) by lia.
    unfold load64, store64. rewrite load_store_eq. change (256 ^ Z.of_nat 8) with 18446744073709551616. by apply Z.mod_small.
  - pose proof (Hv k x Hk) as Hx. apply lookup_lt_Some in Hk. cbn [length] in Hk. unfold qword in Hx.
    rewrite u64_small in Hx by lia. rewrite u64_small by lia.
    unfold load64, store64 in *. rewrite load_store_ne by lia. rewrite <- Hx. f_equal. lia.
Qed.
Lemma holds_mov s l r v : holds s l -> holds (mov r v s) l.
Proof. by intros [? ?]. Qed.
Lemma holds_qword s l k x : holds s l -> l !! k = Some x -> qword s (8 * Z.of_nat k) = x.
Proof. intros [_ Hv]. apply Hv. Qed.

(** The interrupted code's frame and registers are machine words. *)
Record frame_ok (i : interrupted) : Prop := {
  fo_words : Forall is_u64 [i_rip i; i_cs i; i_rflags i; i_ss i];
  fo_err : forall e, i_err i = Some e -> 0 <= e < 2 ^ 31;
}.
Record machine_ok (s : machine) : Prop := {
  mo_gp : forall r, is_u64 (gp s r);
  mo_rsp : 256 <= rsp s < 2 ^ 64;
}.
Definition frame (i : interrupted) (s : machine) : list Z :=
  match i_err i with Some e => [e] | None => [] end ++ [i_rip i; i_cs i; i_rflags i; rsp s; i_ss i].

Lemma deliver_spec i s : frame_ok i -> machine_ok s ->
  holds (deliver i s) (frame i s) /\ gp (deliver i s) = gp s /\
  rsp (deliver i s) = rsp s / 16 * 16 - 8 * Z.of_nat (length (frame i s)).
Proof.
  intros [Hw He] [Hg Hr]. change (2 ^ 64) with 18446744073709551616 in Hr. rewrite !Forall_cons in Hw. destruct Hw as (H1 & H2 & H3 & H4 & _).
  unfold deliver. set (s0 := mk_machine (gp s) (rsp s / 16 * 16) (stk s)).
  assert (rsp s - 16 < rsp s0 <= rsp s) as H0 by (unfold s0; cbn [rsp]; lia).
  assert (is_u64 (rsp s)) as Hrs by (unfold is_u64; change (2 ^ 64) with 18446744073709551616; lia).
  destruct (stack_push s0 [] (i_ss i)) as [Ha Ra]; [apply holds_nil; change (2 ^ 64) with 18446744073709551616; lia|lia|done|].
  destruct (stack_push _ _ (rsp s) Ha) as [Hb Rb]; [lia|done|]. destruct (stack_push _ _ (i_rflags i) Hb) as [Hc Rc]; [lia|done|].
  destruct (stack_push _ _ (i_cs i) Hc) as [Hd Rd]; [lia|done|]. destruct (stack_push _ _ (i_rip i) Hd) as [Hf Rf]; [lia|done|].
  assert (rsp s0 = rsp s / 16 * 16) as Es0 by done. unfold frame. destruct (i_err i) as [e|].
  - destruct (stack_push _ _ e Hf) as [Hh Rh]; [lia| |].
    { pose proof (He e eq_refl). unfold is_u64. change (2 ^ 64) with 18446744073709551616. change (2 ^ 31) with 2147483648 in *. lia. }
    split; [exact Hh|]. split; [done|]. cbn [app length]. lia.
  - split; [exact Hf|]. split; [done|]. cbn [app length]. lia.
Qed.
Definition pushes (rs : list reg) (s : machine) : machine := foldl (fun s r => push r s) s rs.
Lemma holds_pushes rs : forall s l, holds s l -> (forall r, is_u64 (gp s r)) -> 8 * Z.of_nat (length rs) <= rsp s ->
  holds (pushes rs s) (reverse (gp s <$> rs) ++ l) /\ gp (pushes rs s) = gp s /\ rsp (pushes rs s) = rsp s - 8 * Z.of_nat (length rs).
Proof.
  induction rs as [|r rs IH]; intros s l Hl Hg Hr; cbn [length] in *.
  { split; [done|]. split; [done|]. cbn. lia. }
  destruct (stack_push s l (gp s r) Hl) as [H1 R1]; [lia|done|].
  destruct (IH (push r s) (gp s r :: l)) as (H2 & G2 & R2); [done|done|unfold push; lia|].
  change (pushes (r :: rs) s) with (pushes rs (push r s)). split; [|split; [exact G2|unfold push in *; lia]].
  rewrite fmap_cons, reverse_cons, <- app_assoc. exact H2.
Qed.
Lemma save_all_spec s l : holds s l -> (forall r, is_u64 (gp s r)) -> 200 <= rsp s < 2 ^ 64 ->
  holds (save_all s) ((gp s <$> [RDX; RSI; RDI; RBP]) ++ [rsp s] ++ (gp s <$> [R8; R9; R10; R11; R12; R13; R14; R15]) ++ l) /\
  (forall r, r <> R15 -> gp (save_all s) r = gp s r) /\ rsp (save_all s) = rsp s - 104.
Proof.
  change (2 ^ 64) with 18446744073709551616. intros Hl Hg Hr.
  destruct (stack_push s l (gp s R15) Hl) as [H1 R1]; [lia|done|].
  set (s1 := mov R15 (rsp s) (push R15 s)). assert (save_all s = pushes [R14; R13; R12; R11; R10; R9; R8; R15; RBP; RDI; RSI; RDX] s1) as ->.
  { unfold save_all, s1. rewrite u64_small by (unfold push; lia). replace (rsp (push R15 s) + 8) with (rsp s) by (unfold push; lia). done. }
  destruct (holds_pushes [R14; R13; R12; R11; R10; R9; R8; R15; RBP; RDI; RSI; RDX] s1 (gp s R15 :: l)) as (H2 & G2 & R2).
  - by apply holds_mov.
  - intros r. unfold s1. cbn. destruct (decide _); [unfold is_u64; change (2 ^ 64) with 18446744073709551616; lia|apply Hg].
  - unfold s1, push in *. cbn [rsp mov length]. lia.
  - split; [exact H2|]. split.
    + intros r Hne. rewrite G2. unfold s1. cbn. by rewrite decide_False by done.
    + rewrite R2. unfold s1, push in *. cbn [rsp mov length]. lia.
Qed.
Lemma push_val_top s l v : holds s l -> 8 <= rsp s -> is_u64 v -> forall k x, l !! k = Some x -> qword (push_val v s) (8 + 8 * Z.of_nat k) = x.
Proof.
  intros Hl Hr Hv k x Hk. destruct (stack_push s l v Hl Hr Hv) as [H1 _].
  replace (8 + 8 * Z.of_nat k) with (8 * Z.of_nat (S k)) by lia. by apply (holds_qword _ _ _ _ H1).
Qed.
Lemma dword_small s off e : qword s off = e -> 0 <= e < 2 ^ 31 -> dword s off = e.
Proof.
  change (2 ^ 31) with 2147483648. unfold qword, dword, load32, load64. intros E He. rewrite (load_low 4 4).
  change (4 + 4)%nat with 8%nat. rewrite E. change (256 ^ Z.of_nat 4) with 4294967296. apply Z.mod_small. lia.
Qed.

(** The two macros, in one line each. *)
Definition call_state (v e rip : Z) (s sv : machine) : machine :=
  mov RDI v (mov RSI e (mov RDX rip (mov RCX (gp s RAX) (mov R8 (gp s RBX) (mov R9 (gp s RCX) sv))))).
Lemma inth_eq op1 s : (forall r, r <> R15 -> gp (save_all s) r = gp s r) ->
  inth_noerr op1 s = call_state op1 0 (qword (save_all s) 104) s (save_all s) /\
  inth_err op1 s = call_state op1 (dword (save_all s) 104) (qword (save_all s) 112) s (save_all s).
Proof.
  unfold inth_noerr, inth_err, call_state. generalize (save_all s). intros sv Hg. rewrite <- !Hg by done. split; reflexivity.
Qed.

(** What the handler gets after the macro's saving, from any stack. *)
Lemma report_spec v e rip ret s l : holds s l -> (forall r, is_u64 (gp s r)) -> 250 <= rsp s < 2 ^ 64 -> is_u64 ret ->
  let s' := call_state v e rip s (save_all s) in
  let rep := interrupt_Handler ret s' in
  r_vec rep = i32 v /\ r_err rep = i32 e /\ r_rip rep = rip /\ (forall r, r_regs rep r = gp s r) /\ r_rsp rep = rsp s.
Proof.
  intros Hl Hg Hr Hret s' rep. destruct (save_all_spec s l Hl Hg) as (H1 & G1 & R1); [lia|].
  assert (forall k x, ((gp s <$> [RDX; RSI; RDI; RBP]) ++ [rsp s] ++ (gp s <$> [R8; R9; R10; R11; R12; R13; R14; R15]) ++ l) !! k = Some x ->
    qword (push_val ret s') (8 + 8 * Z.of_nat k) = x) as Harg.
  { apply (push_val_top s' _ ret); [unfold s', call_state; by repeat apply holds_mov|unfold s', call_state; cbn [rsp mov]; lia|done]. }
  subst rep. unfold interrupt_Handler. cbn [r_vec r_err r_rip r_regs r_rsp]. split_and!; [done..| |by apply (Harg 4%nat)].
  intros []; try done.
  - by apply (Harg 0%nat).
  - by apply (Harg 1%nat).
  - by apply (Harg 2%nat).
  - by apply (Harg 3%nat).
  - by apply (Harg 5%nat).
  - by apply (Harg 6%nat).
  - by apply (Harg 7%nat).
  - by apply (Harg 8%nat).
  - by apply (Harg 9%nat).
  - by apply (Harg 10%nat).
  - by apply (Harg 11%nat).
  - by apply (Harg 12%nat).
Qed.

Lemma call_state_rsp v e rip s sv : rsp (call_state v e rip s sv) = rsp sv.
Proof. reflexivity. Qed.
Lemma interrupt_Int_rsp v s : (forall r, r <> R15 -> gp (save_all s) r = gp s r) -> rsp (interrupt_Int v s) = rsp (save_all s).
Proof.
  intros G2. destruct (inth_eq v s G2) as [E1 E2]. unfold interrupt_Int.
  destruct (bool_decide _); [rewrite E2|rewrite E1]; apply call_state_rsp.
Qed.

(** * Properties *)

(** The exceptions for which the processor pushes an error code. *)
Definition cpu_err_vectors : list Z := [8; 10; 11; 12; 13; 14; 17; 21].
Definition delivered (i : interrupted) (v : Z) : Prop := is_Some (i_err i) <-> v ∈ cpu_err_vectors.

Lemma err_vectors_cpu v : v <> 8 -> v ∈ cpu_err_vectors <-> v ∈ err_vectors.
Proof. intros Hv. change cpu_err_vectors with (8 :: err_vectors). rewrite elem_of_cons. split; [by intros [?|?]|by right]. Qed.
(** The stack the entries find. *)
Lemma delivered_stack i s : frame_ok i -> machine_ok s -> 400 <= rsp s ->
  let s1 := deliver i s in
  250 <= rsp s1 < 2 ^ 64 /\ (forall r, is_u64 (gp s1 r)) /\ (forall r, r <> R15 -> gp (save_all s1) r = gp s1 r) /\
  forall k x, frame i s !! k = Some x -> qword (save_all s1) (104 + 8 * Z.of_nat k) = x.
Proof.
  intros Hi Hs Hr s1. destruct (deliver_spec i s Hi Hs) as (Hh & Hg & Hrsp). destruct Hs as [Hgp [_ Hr2]]. fold s1 in Hh, Hg, Hrsp.
  assert (250 <= rsp s1 < 2 ^ 64) as Hr1.
  { change (2 ^ 64) with 18446744073709551616 in *. unfold frame in Hrsp. destruct (i_err i); cbn [app length] in Hrsp; lia. }
  assert (forall r, is_u64 (gp s1 r)) as Hg1 by (intros r; rewrite Hg; apply Hgp).
  destruct (save_all_spec s1 (frame i s) Hh Hg1) as (H2 & G2 & R2); [lia|]. split_and!; [lia|lia|done|done|].
  intros k x Hk. replace (104 + 8 * Z.of_nat k) with (8 * Z.of_nat (13 + k)) by lia. by apply (holds_qword _ _ _ _ H2).
Qed.

(** C26. For every exception but the double fault, the panic message gets the
    vector, the error code (0 when there is none), the address of the
    interrupted instruction and all fifteen general registers as they were; the
    stack pointer it gets is that of the processor's frame. *)
Theorem exception_report_correct i v s ret :
  frame_ok i -> machine_ok s -> 400 <= rsp s -> is_u64 ret -> 0 <= v < 32 -> v <> 8 -> delivered i v ->
  let rep := interrupt_Handler ret (interrupt_Int v (deliver i s)) in
  r_vec rep = v /\ r_err rep = default 0 (i_err i) /\ r_rip rep = i_rip i /\ (forall r, r_regs rep r = gp s r) /\
  r_rsp rep = rsp (deliver i s).
Proof.
  intros Hi Hs Hr Hret Hv H8 Hdel. destruct (deliver_spec i s Hi Hs) as (Hh & <- & _).
  destruct (delivered_stack i s Hi Hs Hr) as (Hr1 & Hg1 & G2 & Hf). set (s1 := deliver i s) in *. clearbody s1.
  destruct (inth_eq v s1 G2) as [E1 E2]. unfold interrupt_Int. unfold delivered in Hdel.
  assert (is_Some (i_err i) <-> v ∈ err_vectors) as Hdel'.
  { rewrite Hdel. by apply err_vectors_cpu. }
  clear Hdel. destruct (i_err i) as [e|] eqn:He.
  - rewrite bool_decide_true by (apply Hdel'; by eexists). rewrite E2.
    unfold frame in Hf. rewrite He in Hf. pose proof (fo_err i Hi e He) as Hle. change (2 ^ 31) with 2147483648 in Hle.
    pose proof (Hf 0%nat e eq_refl) as F0. pose proof (Hf 1%nat (i_rip i) eq_refl) as F1.
    change (104 + 8 * Z.of_nat 0) with 104 in F0. change (104 + 8 * Z.of_nat 1) with 112 in F1.
    rewrite (dword_small _ 104 e F0), F1 by done.
    destruct (report_spec v e (i_rip i) ret s1 _ Hh Hg1 Hr1 Hret) as (-> & -> & -> & Hregs & ->). rewrite !i32_small by lia.
    split; [|split; [|split; [|split; [exact Hregs|]]]]; reflexivity.
  - rewrite bool_decide_false by (intros Hin; apply Hdel' in Hin; by destruct Hin). rewrite E1.
    unfold frame in Hf. rewrite He in Hf.
    pose proof (Hf 0%nat (i_rip i) eq_refl) as F0. change (104 + 8 * Z.of_nat 0) with 104 in F0. rewrite F0.
    destruct (report_spec v 0 (i_rip i) ret s1 _ Hh Hg1 Hr1 Hret) as (-> & -> & -> & Hregs & ->). rewrite !i32_small by lia.
    split; [|split; [|split; [|split; [exact Hregs|]]]]; reflexivity.
Qed.
(** The double fault has an error code, but its entry is the one without: what
    is reported as the address of the instruction is the error code, and the
    error code as 0. *)
Theorem double_fault_report i s ret e :
  frame_ok i -> machine_ok s -> 400 <= rsp s -> is_u64 ret -> i_err i = Some e ->
  let rep := interrupt_Handler ret (interrupt_Int 8 (deliver i s)) in r_rip rep = e /\ r_err rep = 0.
Proof.
  intros Hi Hs Hr Hret He. destruct (deliver_spec i s Hi Hs) as (Hh & _ & _).
  destruct (delivered_stack i s Hi Hs Hr) as (Hr1 & Hg1 & G2 & Hf). set (s1 := deliver i s) in *. clearbody s1.
  destruct (inth_eq 8 s1 G2) as [E1 _]. unfold interrupt_Int. change (bool_decide (8 ∈ err_vectors)) with false.
  rewrite E1. unfold frame in Hf. rewrite He in Hf. pose proof (Hf 0%nat e eq_refl) as F0. change (104 + 8 * Z.of_nat 0) with 104 in F0. rewrite F0.
  destruct (report_spec 8 0 e ret s1 _ Hh Hg1 Hr1 Hret) as (_ & -> & -> & _ & _). split; reflexivity.
Qed.
(** The stack where the C handlers are called: aligned to 16 bytes as the
    convention asks exactly for the exceptions without an error code, and never
    for the system call. *)
Theorem entry_alignment i v s : frame_ok i -> machine_ok s -> 400 <= rsp s ->
  rsp (interrupt_Int v (deliver i s)) mod 16 = match i_err i with Some _ => 8 | None => 0 end /\
  (i_err i = None -> rsp (deliver i s) mod 16 = 8).
Proof.
  intros Hi Hs Hr. destruct (deliver_spec i s Hi Hs) as (Hh & _ & Hrsp).
  destruct (delivered_stack i s Hi Hs Hr) as (Hr1 & Hg1 & G2 & _). set (s1 := deliver i s) in *. clearbody s1.
  assert (200 <= rsp s1 < 2 ^ 64) as Hr2 by lia. destruct (save_all_spec s1 _ Hh Hg1 Hr2) as (_ & _ & R2).
  assert (rsp (interrupt_Int v s1) = rsp (save_all s1)) as ->.
  { by apply interrupt_Int_rsp. }
  rewrite R2, Hrsp. clear. unfold frame. destruct (i_err i); cbn [app length]; (split; [lia|]); intros; first [discriminate|lia].
Qed.

(** The system call reports its number and its six arguments, as [int]s, in
    order. *)
Theorem Syscall_correct i ret s ra f : holds s [ra; f] ->
  Syscall i ret s = (i32 (gp s RDI), [i32 (gp s RSI); i32 (gp s RDX); i32 (gp s RCX); i32 (gp s R8); i32 (gp s R9); i32 f]).
Proof.
  intros Hh. assert (gp (deliver i (asm_Syscall s)) = gp (asm_Syscall s)) as E by (unfold deliver; by destruct (i_err i)).
  unfold Syscall, interrupt_Handler128. cbn [gp push_val]. rewrite E. clear E.
  assert (gp (asm_Syscall s) R9 = f) as ->; [|reflexivity].
  unfold asm_Syscall. transitivity (qword s 8); [reflexivity|]. by apply (holds_qword _ _ 1 _ Hh).
Qed.
Definition demo_machine : machine :=
  mk_machine (fun r => match r with RDI => 4 | RSI => 1 | RDX => 2 | RCX => 3 | R8 => 4294967295 | R9 => 5 | _ => 0 end) 1000
    (store64 (store64 (fun _ => 0) 1008 6) 1000 77).
Lemma demo_machine_ok : machine_ok demo_machine.
Proof. split; [intros []; by split|by split]. Qed.
Lemma exception_report_correct_witness :
  let i := mk_interrupted 4096 16 2 8 (Some 5) in
  let rep := interrupt_Handler 9 (interrupt_Int 13 (deliver i demo_machine)) in
  r_vec rep = 13 /\ r_err rep = 5 /\ r_rip rep = 4096 /\ r_regs rep R8 = 4294967295.
Proof.
  intros i rep. destruct (exception_report_correct i 13 demo_machine 9) as (H1 & H2 & H3 & H4 & _).
  - split; [repeat constructor; by vm_compute|by intros e [= <-]].
  - apply demo_machine_ok.
  - by vm_compute.
  - by split.
  - lia.
  - lia.
  - split; [intros _; by apply (bool_decide_unpack (13 ∈ cpu_err_vectors))|intros _; by eexists].
  - split; [exact H1|]. split; [exact H2|]. split; [exact H3|]. rewrite H4. reflexivity.
Defined.
Lemma Syscall_correct_witness :
  Syscall (mk_interrupted 4096 16 2 8 None) 9 demo_machine = (4, [1; 2; 3; -1; 5; 6]).
Proof.
  rewrite (Syscall_correct _ 9 demo_machine 77 6); [reflexivity|].
  split; [by vm_compute|]. intros [|[|k]] x [= <-]; by vm_compute.
Defined.

(** The function called gets the four arguments in Microsoft's registers and
    its shadow space; but from a stack as either convention asks for at entry it
    gets one that is off by eight. *)
Theorem sysv_x64fastcall_args ret s : 256 <= rsp s < 2 ^ 64 -> rsp s mod 16 = 8 ->
  let s' := sysv_x64fastcall ret s in
  gp s' RCX = gp s RDX /\ gp s' RDX = gp s RCX /\ gp s' R8 = gp s R8 /\ gp s' R9 = gp s R9 /\
  rsp s' = rsp s - 40 /\ rsp s' mod 16 = 0.
Proof.
  change (2 ^ 64) with 18446744073709551616. intros Hr Hm s'. assert (rsp s' = rsp s - 40) as E.
  { unfold s', sysv_x64fastcall. cbn [rsp push_val mov]. rewrite (u64_small (rsp s - _)) by lia. rewrite u64_small by lia. lia. }
  split_and!; [reflexivity..|exact E|]. rewrite E. lia.
Qed.

(** ** The mode switch *)

Lemma land_la57 v n : 0 <= n < 64 -> Z.testbit (Z.land v 0xFFFFFFFFFFFFEFFF) n = negb (n =? 12) && Z.testbit v n.
Proof.
  intros Hn. change 0xFFFFFFFFFFFFEFFF with (Z.lxor (Z.ones 64) (2 ^ 12)). rewrite Z.land_spec, Z.lxor_spec, Z.ones_spec_low by lia.
  destruct (Z.eqb_spec n 12) as [->|Hne]; [by rewrite Z.pow2_bits_true, andb_comm|]. rewrite Z.pow2_bits_false by lia. apply andb_comm.
Qed.
Lemma new_cr4 v n : 0 <= n < 64 ->
  Z.testbit (Z.lor (Z.land v 0xFFFFFFFFFFFFEFFF) CR4_PCIDE) n = if decide (n = 12) then false else if decide (n = 17) then true else Z.testbit v n.
Proof.
  intros Hn. rewrite Z.lor_spec, land_la57 by done. change CR4_PCIDE with (2 ^ 17).
  destruct (decide (n = 17)) as [->|H17]; [by rewrite Z.pow2_bits_true, orb_true_r|]. rewrite Z.pow2_bits_false, orb_false_r by lia.
  destruct (decide (n = 12)) as [->|H12]; [done|]. by rewrite (proj2 (Z.eqb_neq _ _)).
Qed.
Lemma new_cr4_12 v : Z.testbit (Z.lor (Z.land v 0xFFFFFFFFFFFFEFFF) CR4_PCIDE) 12 = false.
Proof. by rewrite new_cr4 by lia. Qed.
Lemma cr3_of_add pml4 pcid : 0 <= pml4 -> pml4 mod 4096 = 0 -> 0 <= pcid < 4096 -> cr3_of pml4 pcid = pml4 + pcid.
Proof.
  intros H0 Hp Hc. unfold cr3_of. change 0xFFF with (Z.ones 12). rewrite Z.land_ones, Z.mod_small by (change (2 ^ 12) with 4096; lia).
  rewrite (Z.div_mod pml4 4096), Hp, Z.add_0_r by lia. rewrite Z.mul_comm. change 4096 with (2 ^ 12) at 1 2 3 4.
  by apply (lor_disjoint _ _ 12).
Qed.
Lemma split_disjoint v : Z.land (Z.shiftl (Z.shiftr v 32) 32) (Z.lor (Z.land v (Z.ones 32)) (Z.shiftl 1 11)) = 0.
Proof.
  apply Z.bits_inj'. intros n Hn. rewrite Z.land_spec, Z.lor_spec, Z.land_spec, Z.bits_0. rewrite (Z.shiftl_spec _ 32) by lia.
  destruct (Z.lt_ge_cases n 32); [by rewrite Z.testbit_neg_r by lia|].
  rewrite Z.ones_spec_high, andb_false_r by lia. rewrite (Z.shiftl_1_l 11), Z.pow2_bits_false by lia. apply andb_false_r.
Qed.
(** Setting a bit in the low half. *)
Lemma efer_halves v : 0 <= v < 2 ^ 64 -> v / 2 ^ 32 * 2 ^ 32 + Z.lor (u32 v) (Z.shiftl 1 11) = Z.lor v (Z.shiftl 1 11).
Proof.
  intros Hv. assert (u32 v = Z.land v (Z.ones 32)) as -> by (by rewrite Z.land_ones). rewrite <- Z.shiftr_div_pow2, <- Z.shiftl_mul_pow2 by lia.
  rewrite Z.add_nocarry_lxor, Z.lxor_lor.
  - apply Z.bits_inj'. intros n Hn. rewrite !Z.lor_spec, Z.land_spec, Z.shiftl_spec by lia. destruct (Z.lt_ge_cases n 32).
    + rewrite (Z.testbit_neg_r _ (n - 32)), Z.ones_spec_low, andb_true_r by lia. done.
    + rewrite Z.shiftr_spec, Z.sub_add, (Z.ones_spec_high _ n), andb_false_r by lia. done.
  - apply split_disjoint.
  - apply split_disjoint.
Qed.
(** Switching to the kernel's tables loads the table and the identifier
    into CR3 and turns identifiers on, changing no other
    bit of CR4; the variant for no-execute pages also sets that bit alone.
    Neither faults when the firmware runs with 4 levels and its CR3 is page
    aligned. *)
Theorem modeswitch_correct pml4 pcid c :
  0 <= pml4 -> pml4 mod 4096 = 0 -> 0 <= pcid < 4096 -> cr3 c mod 4096 = 0 -> Z.testbit (cr4 c) 12 = false -> 0 <= efer c < 2 ^ 64 ->
  exists c1 c2, paging_modeswitch_4LevelPaging pml4 pcid c = Some c1 /\ paging_modeswitch_4LevelPagingNX pml4 pcid c = Some c2 /\
    cr3 c1 = pml4 + pcid /\ cr3 c2 = pml4 + pcid /\ cr4 c1 = cr4 c2 /\ efer c1 = efer c /\
    (forall n, 0 <= n < 64 -> Z.testbit (cr4 c1) n = if decide (n = 12) then false else if decide (n = 17) then true else Z.testbit (cr4 c) n) /\
    (forall n, 0 <= n < 64 -> Z.testbit (efer c2) n = if decide (n = 11) then true else Z.testbit (efer c) n).
Proof.
  intros H0 Hp Hc Hcr Hla He. unfold paging_modeswitch_4LevelPaging, paging_modeswitch_4LevelPagingNX, mov_cr4.
  rewrite Hla, new_cr4_12. cbn [xorb].
  assert (Z.land (cr3 c) 0xFFF = 0) as -> by (change 0xFFF with (Z.ones 12); by rewrite Z.land_ones). rewrite Z.eqb_refl, andb_false_r.
  eexists _, _. split; [reflexivity|]. split; [reflexivity|]. cbn [cr3 cr4 efer]. rewrite cr3_of_add by done.
  split_and!; [done..|intros n Hn; by apply new_cr4|].
  intros n Hn. rewrite efer_halves by done. rewrite Z.lor_spec. destruct (decide (n = 11)) as [->|Hne].
  - apply orb_true_r.
  - rewrite (Z.shiftl_1_l 11), Z.pow2_bits_false by lia. apply orb_false_r.
Qed.
(** From a firmware that runs with 5 levels, both fault: the bit cannot be
    cleared in 64-bit mode. *)
Theorem modeswitch_5level_faults pml4 pcid c : Z.testbit (cr4 c) 12 = true ->
  paging_modeswitch_4LevelPaging pml4 pcid c = None /\ paging_modeswitch_4LevelPagingNX pml4 pcid c = None.
Proof.
  intros Hla. unfold paging_modeswitch_4LevelPaging, paging_modeswitch_4LevelPagingNX, mov_cr4.
  by rewrite Hla, new_cr4_12.
Qed.
Lemma modeswitch_correct_witness :
  exists c2, paging_modeswitch_4LevelPagingNX 0x1000000 0 (mk_control 0x2000 0x20 0x500) = Some c2 /\
    cr3 c2 = 0x1000000 /\ Z.testbit (cr4 c2) 12 = false /\ Z.testbit (efer c2) 11 = true.
Proof.
  destruct (modeswitch_correct 0x1000000 0 (mk_control 0x2000 0x20 0x500)) as (c1 & c2 & _ & H2 & _ & H3 & E & _ & H4 & H5);
    [lia|reflexivity|lia|reflexivity|reflexivity|by split|].
  exists c2. split; [exact H2|]. split; [exact H3|]. rewrite <- E, (H4 12), (H5 11) by lia. split; reflexivity.
Defined.
