(* ===== verification/Serial.v ===== *)
(** * The serial ports (src/driver/irq/pic/serial)

    Setting up a 16550, sending strings, and receiving bytes into the buffer of
    the port, on any machine with the ports of Ports.v and any [ByteQueue]. *)

From S2P Require Import Prelude Mem CString Queue ByteQueue Ports Interrupt Pic.

Definition PIC_SERIAL_DEFAULT_BUFFERSIZE : Z := 16.
(** The buffer is kept apart: it exists once the input is set up. *)
Record pic_serial_Port := mk_serial { port : Z; s_irq : Z; ok : bool; cond : Z }.
Definition pic_serial_COM1 : pic_serial_Port := mk_serial 0x3f8 4 false 0.
Definition pic_serial_COM2 : pic_serial_Port := mk_serial 0x2f8 3 false 0.

Section Serial.
Context {D : Type} `{Ports D} {B : Type} `{ByteQueue B}.

(** The interrupt: the machine, the buffer, and the number of calls of
    [smp_Condition_NotifyAll(cond, 0)]. *)
Fixpoint __pic_serial_IRQHandler (fuel : nat) (p : pic_serial_Port) (d : D) (q : B) : option (D * B * nat) :=
  match fuel with
  | O => None
  | S fuel =>
      let '(status, d) := inb d (port p + 5) in
      if Z.land status 1 =? 0 then Some (d, q, 0%nat)
      else
        let '(b, d) := inb d (port p) in
        match __pic_serial_IRQHandler fuel p d (bq_push q b) with
        | Some (d, q, n) => Some (d, q, S n)
        | None => None
        end
  end.

(** No result: a division by zero. *)
Definition pic_serial_Init (p : pic_serial_Port) (baudrate lineFlags : Z) (d : D) : option (bool * pic_serial_Port * D) :=
  if baudrate =? 0 then None
  else if negb (Z.rem 115200 baudrate =? 0) then Some (false, p, d)
  else
    let divisor := u16 (Z.quot 115200 baudrate) in
    let d := outb d (port p + 3) 0x80 in
    let d := outb d (port p + 0) (Z.land divisor 0xFF) in
    let d := outb d (port p + 1) (Z.shiftr divisor 8) in
    let d := outb d (port p + 3) 0x03 in
    let d := outb d (port p + 2) 0xC7 in
    let d := outb d (port p + 4) 0x0B in
    let d := outb d (port p + 4) 0x1E in
    let d := outb d (port p + 0) 0xAE in
    let '(v, d) := inb d (port p + 0) in
    if negb (v =? 0xAE) then Some (false, p, d)
    else
      let d := outb d (port p + 4) 0x0F in
      Some (true, mk_serial (port p) (s_irq p) true (cond p), d).

(** [buffer] is the initialised queue on the new block, [cond] the new
    condition, [IRQHandler] and [self] the addresses of the handler and of the
    port. *)
Definition pic_serial_InitInput (p : pic_serial_Port) (buffer : B) (cond IRQHandler self : Z) (d : D) (t : irq_pic)
    : option (bool * pic_serial_Port * option B * D * irq_pic) :=
  if negb (s_irq p =? 0) then
    let t := set_IRQHandler (s_irq p) IRQHandler t in
    let t := set_IRQHandler_Data (s_irq p) self t in
    let d := irq_pic_Mask (s_irq p) false d in
    let d := outb d (port p + 1) 1 in
    Some (true, mk_serial (port p) (s_irq p) (ok p) cond, Some buffer, d, t)
  else Some (false, p, None, d, t).

(** The loop until the transmitter is free. *)
Fixpoint wait_transmit (fuel : nat) (p : pic_serial_Port) (d : D) : option D :=
  match fuel with
  | O => None
  | S fuel =>
      let '(status, d) := inb d (port p + 5) in
      if Z.land status 0x20 =? 0 then wait_transmit fuel p d else Some d
  end.
Fixpoint send_n (fuel n : nat) (p : pic_serial_Port) (m : mem) (str : Z) (d : D) : option D :=
  match n with
  | O => Some d
  | S n =>
      match wait_transmit fuel p d with
      | Some d => send_n fuel n p m (str + 1) (outb d (port p) (load8 m str))
      | None => None
      end
  end.
Fixpoint send_string (fuel sf : nat) (p : pic_serial_Port) (m : mem) (str : Z) (d : D) : option D :=
  match sf with
  | O => None
  | S sf =>
      if load8 m str =? 0 then Some d
      else
        match wait_transmit fuel p d with
        | Some d => send_string fuel sf p m (str + 1) (outb d (port p) (load8 m str))
        | None => None
        end
  end.
(** [fuel] bounds each wait, [sf] the length of the string. *)
Definition pic_serial_Write (fuel sf : nat) (p : pic_serial_Port) (m : mem) (str n : Z) (d : D) : option D :=
  if ok p then
    if negb (n =? 0) then send_n fuel (Z.to_nat n) p m str d else send_string fuel sf p m str d
  else Some d.
End Serial.

(** ** The transmitter *)

Section Lemmas.
Context {D : Type} `{HP : Ports D} (p : pic_serial_Port) `{HU : !Uart D (port p)}.
Implicit Types d : D.

(** The parts of the chip that sending leaves alone. *)
Definition same_setup (s s' : uart) : Prop :=
  received s' = received s /\ lcr s' = lcr s /\ mcr s' = mcr s /\ ier s' = ier s /\ divisor s' = divisor s.
Lemma wait_transmit_spec fuel : forall d, (wait (serial d) < fuel)%nat ->
  exists d', wait_transmit fuel p d = Some d' /\ wait (serial d') = O /\ sent (serial d') = sent (serial d) /\ same_setup (serial d) (serial d').
Proof.
  induction fuel as [|fuel IH]; intros d Hf; [lia|]. cbn [wait_transmit].
  destruct (serial_in_status (base := port p) d) as [Hs _]. pose proof (serial_in (base := port p) d (port p + 5)) as Hd.
  destruct (inb d (port p + 5)) as [v d1]. cbn [fst snd] in Hs, Hd. change 0x20 with (2 ^ 5). rewrite land_bit_zero, Hs by lia.
  unfold uart_in in Hd. rewrite (proj2 (Z.eqb_neq (port p + 5) (port p))), Z.eqb_refl in Hd by lia.
  destruct (Nat.eqb_spec (wait (serial d)) 0) as [E|E]; cbn [negb].
  - eexists. split; [done|]. rewrite Hd. split; [cbn; by rewrite E|done].
  - destruct (IH d1) as (d' & Hd' & Hw & Hse & Hsa); [rewrite Hd; cbn; lia|]. exists d'. rewrite Hd in Hse, Hsa. done.
Qed.
(** The line is out of the divisor's latch and of the loopback. *)
Definition operating (s : uart) : Prop := Z.testbit (lcr s) 7 = false /\ Z.testbit (mcr s) 4 = false.
Lemma send_byte d b : operating (serial d) -> wait (serial d) = O -> 0 <= b < 256 ->
  sent (serial (outb d (port p) b)) = sent (serial d) ++ [b] /\ same_setup (serial d) (serial (outb d (port p) b)).
Proof.
  intros [Hl Hm] Hw Hb. destruct (serial_out (base := port p) d (port p) b Hb) as (delay & lost & ->). unfold uart_out.
  rewrite !(proj2 (Z.eqb_neq (port p) _)), Z.eqb_refl, Hl, Hm, Hw, andb_false_r by lia. done.
Qed.
Lemma same_setup_trans a b c : same_setup a b -> same_setup b c -> same_setup a c.
Proof. intros (? & ? & ? & ? & ?) (? & ? & ? & ? & ?). unfold same_setup. split_and!; congruence. Qed.
Lemma same_setup_operating a b : same_setup a b -> operating a -> operating b.
Proof. intros (_ & E1 & E2 & _). unfold operating. by rewrite E1, E2. Qed.

Lemma wait_transmit_more k : forall fuel d d', wait_transmit k p d = Some d' -> (k <= fuel)%nat -> wait_transmit fuel p d = Some d'.
Proof.
  induction k as [|k IH]; intros [|fuel] d d' E Hf; cbn [wait_transmit] in *; try done; [lia|].
  destruct (inb d (port p + 5)) as [v d1]. destruct (_ =? 0); [|done]. apply IH; [done|lia].
Qed.
(** One byte goes out after a wait that ends. *)
Lemma send_one d b : operating (serial d) -> 0 <= b < 256 ->
  exists d1, (forall fuel, (wait (serial d) < fuel)%nat -> wait_transmit fuel p d = Some d1) /\
    let d2 := outb d1 (port p) b in
    sent (serial d2) = sent (serial d) ++ [b] /\ same_setup (serial d) (serial d2) /\ operating (serial d2).
Proof.
  intros Ho Hb. destruct (wait_transmit_spec (S (wait (serial d))) d ltac:(lia)) as (d1 & E1 & Hw1 & Hs1 & Ha1). exists d1. split.
  { intros fuel Hf. eapply wait_transmit_more; [exact E1|lia]. }
  pose proof (same_setup_operating _ _ Ha1 Ho) as Ho1. destruct (send_byte d1 b Ho1 Hw1 Hb) as [Hs2 Ha2]. cbn zeta.
  split_and!; [by rewrite Hs2, Hs1|by eapply same_setup_trans|by eapply same_setup_operating].
Qed.
Lemma send_n_ends n m : forall str d, operating (serial d) ->
  exists fuel0 d', (forall fuel, (fuel0 <= fuel)%nat -> send_n fuel n p m str d = Some d') /\
    sent (serial d') = sent (serial d) ++ bytes m str (Z.of_nat n) /\ same_setup (serial d) (serial d').
Proof.
  induction n as [|n IH]; intros str d Ho.
  { exists O, d. split; [done|]. cbn. by rewrite app_nil_r. }
  destruct (send_one d (load8 m str) Ho (load8_range _ _)) as (d1 & Hw & Hs & Ha & Ho').
  destruct (IH (str + 1) _ Ho') as (f & d' & Hf & Hs' & Ha'). exists (Nat.max f (S (wait (serial d)))), d'. split.
  - intros fuel Hle. cbn [send_n]. rewrite Hw by lia. apply Hf. lia.
  - split; [|by eapply same_setup_trans]. rewrite Hs', Hs, <- app_assoc.
    replace (Z.of_nat (S n)) with (1 + Z.of_nat n) by lia. by rewrite (bytes_app m str 1), bytes_1 by lia.
Qed.
Lemma send_string_ends m s sf : forall str d, operating (serial d) -> cstr m str s -> (length s < sf)%nat ->
  exists fuel0 d', (forall fuel, (fuel0 <= fuel)%nat -> send_string fuel sf p m str d = Some d') /\
    sent (serial d') = sent (serial d) ++ s /\ same_setup (serial d) (serial d').
Proof.
  revert sf. induction s as [|c s IH]; intros [|sf] str d Ho Hs Hsf; cbn [length cstr] in *; try lia; cbn [send_string].
  { exists O, d. rewrite Hs. split; [done|]. by rewrite app_nil_r. }
  destruct Hs as (Hc & <- & Hs). rewrite (proj2 (Z.eqb_neq _ 0)) by done.
  destruct (send_one d (load8 m str) Ho (load8_range _ _)) as (d1 & Hw & Hsn & Ha & Ho').
  destruct (IH sf (str + 1) _ Ho' Hs ltac:(lia)) as (f & d' & Hf & Hs' & Ha'). exists (Nat.max f (S (wait (serial d)))), d'. split.
  - intros fuel Hle. rewrite Hw by lia. apply Hf. lia.
  - split; [|by eapply same_setup_trans]. by rewrite Hs', Hsn, <- app_assoc.
Qed.

(** Writes to the registers, by offset. *)
Ltac uart_write d v Hv :=
  match goal with |- context [outb d ?q v] => destruct (serial_out (base := port p) d q v Hv) as (delay & lost & ->) end;
  unfold uart_out; rewrite ?Z.add_0_r, ?Z.eqb_refl, ?(proj2 (Z.eqb_neq _ _)) by lia.
Lemma out_lcr d v : 0 <= v < 256 -> let s := serial d in
  serial (outb d (port p + 3) v) = mk_uart (sent s) (received s) (wait s) v (mcr s) (ier s) (divisor s).
Proof. intros Hv. by uart_write d v Hv. Qed.
Lemma out_mcr d v : 0 <= v < 256 -> let s := serial d in
  serial (outb d (port p + 4) v) = mk_uart (sent s) (received s) (wait s) (lcr s) v (ier s) (divisor s).
Proof. intros Hv. by uart_write d v Hv. Qed.
Lemma out_fcr d v : 0 <= v < 256 -> Z.testbit v 1 = true -> Z.testbit v 2 = true -> let s := serial d in
  serial (outb d (port p + 2) v) = mk_uart (sent s) [] O (lcr s) (mcr s) (ier s) (divisor s).
Proof.
  intros Hv Hb Hc. uart_write d v Hv. by rewrite Hb, Hc.
Qed.
Lemma out_divisor d lo hi : 0 <= lo < 256 -> 0 <= hi < 256 -> let s := serial d in
  Z.testbit (lcr s) 7 = true ->
  serial (outb (outb d (port p + 0) lo) (port p + 1) hi) = mk_uart (sent s) (received s) (wait s) (lcr s) (mcr s) (ier s) (lo + 256 * hi).
Proof.
  intros Hlo Hhi s Hl. subst s. assert (serial (outb d (port p + 0) lo) = mk_uart (sent (serial d)) (received (serial d)) (wait (serial d)) (lcr (serial d)) (mcr (serial d)) (ier (serial d)) (divisor (serial d) / 256 * 256 + lo)) as E.
  { uart_write d lo Hlo. by rewrite Hl. }
  rewrite Z.add_0_r in E |- *. uart_write (outb d (port p) lo) hi Hhi. rewrite E. cbn [lcr sent received wait mcr ier divisor]. rewrite Hl. f_equal. lia.
Qed.
Lemma out_loopback d v : 0 <= v < 256 -> let s := serial d in
  Z.testbit (lcr s) 7 = false -> Z.testbit (mcr s) 4 = true -> wait s = O ->
  serial (outb d (port p + 0) v) = mk_uart (sent s) (received s ++ [v]) (wait s) (lcr s) (mcr s) (ier s) (divisor s).
Proof. intros Hv s Hl Hm Hw. subst s. uart_write d v Hv. by rewrite Hl, Hm, Hw, andb_false_r. Qed.
End Lemmas.

(** * Properties *)

Section Properties.
Context {D : Type} `{HP : Ports D} (p : pic_serial_Port) `{HU : !Uart D (port p)}.
Implicit Types d : D.

(** C30. Writing to a usable port always ends, however long the chip is busy
    after each byte, and sends exactly the bytes: the first [n] of the buffer,
    or, for [n = 0], those of the string; an unusable port is left alone. *)
Theorem pic_serial_Write_sends d m str s sf :
  operating (serial d) -> ok p = true ->
  (forall n, 0 < n -> exists fuel0 d', (forall fuel, (fuel0 <= fuel)%nat -> pic_serial_Write fuel sf p m str n d = Some d') /\
     sent (serial d') = sent (serial d) ++ bytes m str n) /\
  (cstr m str s -> (length s < sf)%nat ->
   exists fuel0 d', (forall fuel, (fuel0 <= fuel)%nat -> pic_serial_Write fuel sf p m str 0 d = Some d') /\
     sent (serial d') = sent (serial d) ++ s) /\
  (forall fuel n, pic_serial_Write fuel sf (mk_serial (port p) (s_irq p) false (cond p)) m str n d = Some d).
Proof.
  intros Ho Hok. unfold pic_serial_Write. rewrite Hok. split_and!.
  - intros n Hn. rewrite (proj2 (Z.eqb_neq n 0)) by lia. cbn [negb].
    destruct (send_n_ends p (Z.to_nat n) m str d Ho) as (f & d' & Hf & Hs & _). exists f, d'. rewrite Z2Nat.id in Hs by lia. done.
  - intros Hs Hl. cbn [Z.eqb negb]. destruct (send_string_ends p m s sf str d Ho Hs Hl) as (f & d' & Hf & Hs' & _). by exists f, d'.
  - done.
Qed.

(** A port whose chip answers comes up with the divisor of the baud rate, 8
    data bits, one stop bit and no parity, out of the loopback, with nothing
    received and nothing sent, for rates that divide 115200 and give a 16-bit
    divisor; other rates are refused before the chip is touched, the rate 0
    divides by zero, and the rate 1 is set to 49664. *)
Theorem pic_serial_Init_correct d baud flags :
  (0 < baud -> Z.rem 115200 baud = 0 -> exists d',
     pic_serial_Init p baud flags d = Some (true, mk_serial (port p) (s_irq p) true (cond p), d') /\
     divisor (serial d') = u16 (115200 / baud) /\ lcr (serial d') = 3 /\ mcr (serial d') = 15 /\
     received (serial d') = [] /\ sent (serial d') = sent (serial d) /\ operating (serial d')) /\
  (baud <> 0 -> Z.rem 115200 baud <> 0 -> pic_serial_Init p baud flags d = Some (false, p, d)) /\
  pic_serial_Init p 0 flags d = None /\ u16 (115200 / 1) = 49664.
Proof.
  split; [|split; [|done]].
  - intros Hb Hr. unfold pic_serial_Init. rewrite (proj2 (Z.eqb_neq baud 0)), Hr, Z.quot_div_nonneg by lia. cbn [negb Z.eqb].
    set (dv := u16 (115200 / baud)). assert (0 <= dv < 65536) as Hdv by (unfold dv, u16; lia).
    assert (Z.land dv 0xFF = dv mod 256) as -> by apply (Z.land_ones dv 8 ltac:(lia)).
    rewrite Z.shiftr_div_pow2 by lia. change (2 ^ 8) with 256.
    set (d1 := outb d (port p + 3) 0x80). set (d2 := outb (outb d1 _ _) _ _). set (d3 := outb d2 _ 0x03). set (d4 := outb d3 _ 0xC7).
    set (d5 := outb d4 _ 0x0B). set (d6 := outb d5 _ 0x1E). set (d7 := outb d6 _ 0xAE).
    assert (serial d7 = mk_uart (sent (serial d)) [0xAE] O 3 0x1E (ier (serial d)) dv) as E7.
    { assert (serial d2 = mk_uart (sent (serial d)) (received (serial d)) (wait (serial d)) 0x80 (mcr (serial d)) (ier (serial d)) dv) as E2.
      { unfold d2. rewrite out_divisor; [|lia|lia|]; unfold d1; rewrite out_lcr by lia; [|done]. cbn. f_equal. lia. }
      unfold d7. rewrite out_loopback; [|lia|..]; unfold d6, d5, d4; rewrite !out_mcr, out_fcr by (lia || done); unfold d3; rewrite out_lcr, E2 by lia; done. }
    pose proof (serial_in (base := port p) d7 (port p)) as Hin. pose proof (serial_in_data (base := port p) d7 0xAE []) as Hv.
    rewrite E7 in Hin, Hv. rewrite Z.add_0_r. destruct (inb d7 (port p)) as [v d8]. cbn [fst snd] in Hin, Hv. rewrite Hv by done. cbn [negb Z.eqb Pos.eqb].
    eexists. split; [done|]. rewrite out_mcr, Hin by lia. unfold uart_in. rewrite Z.eqb_refl. by cbn.
  - intros Hb Hr. unfold pic_serial_Init. by rewrite (proj2 (Z.eqb_neq baud 0)), (proj2 (Z.eqb_neq _ 0)) by done.
Qed.
End Properties.

Section Input.
Context {D : Type} `{HP : Ports D} (p : pic_serial_Port) `{HU : !Uart D (port p)} {B : Type} `{HB : ByteQueue B}.
Implicit Types d : D.

Lemma IRQHandler_S fuel d q : __pic_serial_IRQHandler (S fuel) p d q =
  let '(status, d) := inb d (port p + 5) in
  if Z.land status 1 =? 0 then Some (d, q, 0%nat)
  else
    let '(b, d) := inb d (port p) in
    match __pic_serial_IRQHandler fuel p d (bq_push q b) with Some (d, q, n) => Some (d, q, S n) | None => None end.
Proof. done. Qed.
Lemma IRQHandler_spec l : forall d q, received (serial d) = l -> bq_ok q -> Z.of_nat (length (bq_list q)) <= bq_cap q ->
  exists d' q', __pic_serial_IRQHandler (S (length l)) p d q = Some (d', q', length l) /\
    received (serial d') = [] /\ sent (serial d') = sent (serial d) /\ bq_ok q' /\ bq_cap q' = bq_cap q /\
    bq_list q' = take (Z.to_nat (bq_cap q)) (bq_list q ++ (u8 <$> l)).
Proof.
  induction l as [|b l IH]; intros d q Hr Hok Hcap; rewrite IRQHandler_S;
    destruct (serial_in_status (base := port p) d) as [_ Hs]; pose proof (serial_in (base := port p) d (port p + 5)) as Hd;
    destruct (inb d (port p + 5)) as [v d1]; cbn [fst snd] in Hs, Hd; unfold uart_in in Hd;
    rewrite (proj2 (Z.eqb_neq (port p + 5) (port p))), Z.eqb_refl in Hd by lia;
    change (Z.land v 1) with (Z.land v (2 ^ 0)); rewrite (land_bit_zero v 0), Hs, Hr by lia.
  - rewrite bool_decide_true by done. cbn [negb]. exists d1, q. rewrite Hd. cbn [received sent]. split_and!; try done.
    cbn [fmap list_fmap]. rewrite app_nil_r, take_ge by lia. done.
  - rewrite bool_decide_false by done. cbn [negb].
    assert (received (serial d1) = b :: l) as Hr1 by (by rewrite Hd).
    pose proof (serial_in_data (base := port p) d1 b l Hr1) as Hv. pose proof (serial_in (base := port p) d1 (port p)) as Hd1.
    destruct (inb d1 (port p)) as [c d2]. cbn [fst snd] in Hv, Hd1. subst c. unfold uart_in in Hd1. rewrite Z.eqb_refl in Hd1.
    destruct (bq_push_law q b Hok) as (Hok' & Hc' & Hl').
    destruct (IH d2 (bq_push q b)) as (d' & q' & E & H1 & H2 & H3 & H4 & H5); [by rewrite Hd1, Hr1|done| |].
    { rewrite Hl', Hc'. destruct (Z.eqb_spec (Z.of_nat (length (bq_list q))) (bq_cap q)); rewrite ?length_app; cbn [length]; lia. }
    cbn [length]. rewrite E. exists d', q'. split_and!; try done; [by rewrite H2, Hd1, Hd|by rewrite H4|].
    rewrite H5, Hc', Hl'. cbn [fmap list_fmap]. destruct (Z.eqb_spec (Z.of_nat (length (bq_list q))) (bq_cap q)) as [Ef|Ef].
    + rewrite !take_app_le by lia. done.
    + by rewrite <- app_assoc.
Qed.

(** A serial interrupt empties the chip: it ends, the received bytes are
    appended to the port's buffer in order, those that do not fit are dropped,
    and the waiting threads are notified once per byte. *)
Theorem pic_serial_IRQHandler_correct d q :
  bq_ok q -> Z.of_nat (length (bq_list q)) <= bq_cap q ->
  let l := received (serial d) in
  exists d' q', __pic_serial_IRQHandler (S (length l)) p d q = Some (d', q', length l) /\
    received (serial d') = [] /\ bq_ok q' /\
    bq_list q' = take (Z.to_nat (bq_cap q)) (bq_list q ++ (u8 <$> l)).
Proof.
  intros Hok Hc l. destruct (IRQHandler_spec l d q eq_refl Hok Hc) as (d' & q' & H1 & H2 & _ & H3 & _ & H4). by exists d', q'.
Qed.

(** Setting up the input of a port connects its line: the handler and the
    port are in the tables, the line and no other is opened, and the chip
    raises an interrupt for received data; a port without a line is refused. *)
Theorem pic_serial_InitInput_correct `{HPic : !Pics D} (buffer : B) c handler self d t :
  0 < s_irq p < 16 -> (forall s, phase (pic d s) = 0) -> 0xA1 < port p -> operating (serial d) ->
  exists d' t', pic_serial_InitInput p buffer c handler self d t = Some (true, mk_serial (port p) (s_irq p) (ok p) c, Some buffer, d', t') /\
    IRQHandler t' (s_irq p) = handler /\ IRQHandler_Data t' (s_irq p) = self /\
    (forall i, i <> s_irq p -> IRQHandler t' i = IRQHandler t i /\ IRQHandler_Data t' i = IRQHandler_Data t i) /\
    (forall line, 0 <= line < 16 -> Z.testbit (imr (pic d' (8 <=? line))) (line mod 8) =
       if decide (line = s_irq p) then false else Z.testbit (imr (pic d (8 <=? line))) (line mod 8)) /\
    ier (serial d') = 1 /\ sent (serial d') = sent (serial d) /\ received (serial d') = received (serial d).
Proof.
  intros Hi Hph Hport Ho. unfold pic_serial_InitInput. rewrite (proj2 (Z.eqb_neq (s_irq p) 0)) by lia. cbn [negb].
  eexists _, _. split; [done|].
  assert (serial (irq_pic_Mask (s_irq p) false d) = serial d) as Em.
  { unfold irq_pic_Mask. assert (exists q l, (if s_irq p <? 8 then (PIC1_DATA, s_irq p) else (PIC2_DATA, u8 (s_irq p - 8))) = (q, l) /\ q <= 0xA1) as (q & l & -> & Hq).
    { destruct (s_irq p <? 8); eexists _, _; split; [done|by vm_compute|done|by vm_compute]. }
    pose proof (serial_in (base := port p) d q) as E. destruct (inb d q) as [v d1]. cbn [snd] in E.
    unfold uart_in in E. rewrite !(proj2 (Z.eqb_neq q _)) in E by lia.
    match goal with |- serial (outb d1 q ?x) = _ => destruct (serial_out (base := port p) d1 q x (u8_range _)) as (delay & lost & ->) end.
    unfold uart_out. by rewrite !(proj2 (Z.eqb_neq q _)) by lia. }
  destruct (serial_out (base := port p) (irq_pic_Mask (s_irq p) false d) (port p + 1) 1 ltac:(lia)) as (delay & lost & Es).
  destruct Ho as [Ho _]. unfold uart_out in Es. rewrite Em, Ho in Es. rewrite Z.eqb_refl, !(proj2 (Z.eqb_neq (port p + 1) _)) in Es by lia.
  rewrite Es. cbn [ier sent received]. split_and!; try done.
  - cbn. unfold set_fn. by rewrite Z.eqb_refl.
  - cbn. unfold set_fn. by rewrite Z.eqb_refl.
  - intros i Hn. cbn. unfold set_fn. by rewrite (proj2 (Z.eqb_neq _ _)).
  - intros line Hl. rewrite pic_out by lia.
    assert ((port p + 1 =? PIC_command (8 <=? line)) = false) as -> by (apply Z.eqb_neq; destruct (8 <=? line); cbn; lia).
    assert ((port p + 1 =? PIC_data (8 <=? line)) = false) as -> by (apply Z.eqb_neq; destruct (8 <=? line); cbn; lia).
    apply Mask_lines; [lia|done|done].
Qed.
End Input.

(** "hi" at 10, sent by a machine that is busy after every byte. *)
Definition hi_mem : mem := fun a => if a =? 10 then 104 else if a =? 11 then 105 else 0.
Definition COM1_ok : pic_serial_Port := mk_serial COM1 4 true 0.
Lemma pc_boot_operating : operating (serial (base := COM1) pc_boot).
Proof. done. Qed.
Lemma pic_serial_Write_sends_witness :
  exists fuel0 d', (forall fuel, (fuel0 <= fuel)%nat -> pic_serial_Write fuel 5 COM1_ok hi_mem 10 0 pc_boot = Some d') /\
    sent (pc_uart d') = [104; 105].
Proof.
  destruct (pic_serial_Write_sends (D := pc) COM1_ok pc_boot hi_mem 10 [104; 105] 5 pc_boot_operating eq_refl) as (_ & H & _).
  destruct H as (f & d' & Hf & Hs); [by vm_compute|cbn; lia|]. exists f, d'. split; [exact Hf|exact Hs].
Defined.
Lemma pic_serial_IRQHandler_correct_witness :
  let d := mk_pc (pc_master pc_boot) (pc_slave pc_boot) (pc_rtc pc_boot) (mk_uart [] [65; 66] 0 3 15 1 1) in
  let q : ring_bytes := (queue_InitBuffered 100 16, fun _ => 0) in
  exists d' q', __pic_serial_IRQHandler 3 COM1_ok d q = Some (d', q', 2%nat) /\ bq_list q' = [65; 66].
Proof.
  set (d := mk_pc _ _ _ (mk_uart [] [65; 66] 0 3 15 1 1)). set (q := (queue_InitBuffered 100 16, fun _ => 0) : ring_bytes).
  destruct (pic_serial_IRQHandler_correct (D := pc) COM1_ok d q) as (d' & q' & H1 & _ & _ & H2).
  - split; by vm_compute.
  - by vm_compute.
  - exists d', q'. split; [exact H1|exact H2].
Defined.
Lemma pic_serial_InitInput_correct_witness :
  exists d' t', pic_serial_InitInput (D := pc) COM1_ok tt 1 4096 8192 pc_boot (mk_irq (fun _ => 0) (fun _ => 0) (fun _ => 0) true) =
      Some (true, mk_serial COM1 4 true 1, Some tt, d', t') /\ IRQHandler t' 4 = 4096 /\ ier (pc_uart d') = 1.
Proof.
  destruct (pic_serial_InitInput_correct (D := pc) COM1_ok tt 1 4096 8192 pc_boot (mk_irq (fun _ => 0) (fun _ => 0) (fun _ => 0) true))
    as (d' & t' & H1 & H2 & _ & _ & _ & H3 & _).
  - by vm_compute.
  - intros []; reflexivity.
  - by vm_compute.
  - exact pc_boot_operating.
  - exists d', t'. split; [exact H1|]. split; [exact H2|exact H3].
Defined.
Lemma pic_serial_Init_correct_witness :
  exists d', pic_serial_Init (mk_serial COM1 4 false 0) 9600 0 pc_boot = Some (true, COM1_ok, d') /\ divisor (pc_uart d') = 12 /\ lcr (pc_uart d') = 3.
Proof.
  destruct (pic_serial_Init_correct (D := pc) (mk_serial COM1 4 false 0) pc_boot 9600 0) as (H & _).
  destruct H as (d' & H1 & H2 & H3 & _); [lia|reflexivity|]. exists d'. split; [exact H1|]. split; [exact H2|exact H3].
Defined.
