(* ===== verification/Stdio.v ===== *)
(** * Console output of strings (src/runtime/stdio.c)

    The UTF-16 buffer a string is converted into before it is written, and its
    growth, with any [Allocator]; the sinks it goes to are the serial port
    (Serial.v) and the console (Console.v). *)

From S2P Require Import Prelude Mem CString Alloc Unicode.

Section Stdio.
Context {H : Type} `{Allocator H}.

(** [bufferReal] is the address of the static buffer of 512 units. *)
Variable bufferReal : Z.
Record stdio := mk_stdio { sh : H; sm : mem; bufSize : Z; buffer : Z }.
Definition stdio_init (h : H) (m : mem) : stdio := mk_stdio h m 512 bufferReal.

(** [while (bufSize < size) bufSize *= 2], on an [int]. *)
Fixpoint double_loop (fuel : nat) (bufSize size : Z) : option Z :=
  match fuel with
  | O => None
  | S fuel => if bufSize <? size then double_loop fuel (i32 (bufSize * 2)) size else Some bufSize
  end.
(** [if (buffer != bufferReal) kFree(buffer)]. *)
Definition free_old (st : stdio) : H * mem :=
  if negb (buffer st =? bufferReal) then kFree (sh st) (sm st) (buffer st) else (sh st, sm st).
Definition __io_WriteConsole_ResizeBuffer (fuel : nat) (size : Z) (st : stdio) : option stdio :=
  if bufSize st <? size then
    match double_loop fuel (bufSize st) size with
    | Some n =>
        let '(h, m) := free_old st in
        let '(p, h, m) := kMalloc h m (u64 (size * 2)) in
        Some (mk_stdio h m n p)
    | None => None
    end
  else Some st.

(** The bytes of the buffer: those of its block, 1024 for the static one. *)
Definition room (st : stdio) : Z := default 1024 (al_blocks (sh st) !! buffer st).
(** [buffer[j] = c] in a buffer of [size] bytes.  No result: past its end. *)
Definition store_unit (size : Z) (m : mem) (buffer j c : Z) : option mem :=
  if 2 * (j + 1) <=? size then Some (store16 m (buffer + 2 * j) c) else None.

(** The count of codepoints. *)
Fixpoint count_loop (fuel : nat) (m : mem) (str len i size : Z) : option Z :=
  match fuel with
  | O => None
  | S fuel =>
      if i <? len then let '(n, _) := utf8_Decode m (str + i) (u64 (len - i)) in count_loop fuel m str len (i + n) (size + 1)
      else Some size
  end.
Fixpoint fill_loop (fuel : nat) (room : Z) (m : mem) (buffer str len i j : Z) : option mem :=
  match fuel with
  | O => None
  | S fuel =>
      if i <? len then
        let '(n, c) := utf8_Decode m (str + i) (u64 (len - i)) in
        m ← store_unit room m buffer j c; fill_loop fuel room m buffer str len (i + n) (j + 1)
      else Some m
  end.
(** Up to the call of the sink, which gets the buffer. *)
Definition __io_WriteConsoleUTF8 (fuel : nat) (str : Z) (st : stdio) : option stdio :=
  l ← strlen fuel (sm st) str;
  let len := i32 l in
  size ← count_loop fuel (sm st) str len 0 0;
  st ← __io_WriteConsole_ResizeBuffer fuel (size + 1) st;
  m ← fill_loop fuel (room st) (sm st) (buffer st) str len 0 0;
  m ← store_unit (room st) m (buffer st) size 0;
  Some (mk_stdio (sh st) m (bufSize st) (buffer st)).
End Stdio.
Arguments stdio : clear implicits.

(** ** The conversion *)

(** The UTF-16 units at an address. *)
Definition units (m : mem) (a : Z) (n : nat) : list Z := (fun i => load16 m (a + 2 * Z.of_nat i)) <$> seq 0 n.

Lemma decode_step m a c cs len : codepoint_ok c -> Forall codepoint_ok cs ->
  bytes m a (Z.of_nat (length (string_bytes (c :: cs)))) = string_bytes (c :: cs) -> Z.of_nat (length (string_bytes (c :: cs))) <= len ->
  utf8_Decode m a len = (Z.of_nat (length (utf8_bytes c)), c) /\
  bytes m (a + Z.of_nat (length (utf8_bytes c))) (Z.of_nat (length (string_bytes cs))) = string_bytes cs /\
  length (string_bytes (c :: cs)) = (length (utf8_bytes c) + length (string_bytes cs))%nat.
Proof.
  intros Hc Hcs Hb Hl. rewrite string_bytes_cons, length_app in *. rewrite Nat2Z.inj_add in *. pose proof (utf8_bytes_length c).
  rewrite bytes_app in Hb by lia. apply app_inj_1 in Hb as [Hb1 Hb2]; [|rewrite length_bytes; lia].
  split_and!; [apply utf8_Decode_spec; [done|lia|done]|done|done].
Qed.
Lemma count_loop_spec m str len cs : forall fuel i size,
  Forall codepoint_ok cs -> len < 2 ^ 64 -> 0 <= i -> i + Z.of_nat (length (string_bytes cs)) = len ->
  bytes m (str + i) (Z.of_nat (length (string_bytes cs))) = string_bytes cs -> (length cs < fuel)%nat ->
  count_loop fuel m str len i size = Some (size + Z.of_nat (length cs)).
Proof.
  change (2 ^ 64) with 18446744073709551616. induction cs as [|c cs IH]; intros [|fuel] i size Hc H64 Hi Hlen Hb Hf; cbn [length] in Hf; try lia; cbn [count_loop].
  - cbn in Hlen. rewrite (proj2 (Z.ltb_ge _ _)) by lia. f_equal. cbn. lia.
  - apply Forall_cons in Hc as [Hc Hcs]. rewrite u64_small by lia.
    destruct (decode_step m (str + i) c cs (len - i) Hc Hcs Hb ltac:(lia)) as (E & Hb' & El). pose proof (utf8_bytes_length c).
    rewrite (proj2 (Z.ltb_lt _ _)), E by lia. rewrite IH; [f_equal; cbn [length]; lia|done|done|lia|lia| |lia].
    by replace (str + (i + Z.of_nat (length (utf8_bytes c)))) with (str + i + Z.of_nat (length (utf8_bytes c))) by lia.
Qed.
Lemma store_unit_ok room m buf j c : 2 * (j + 1) <= room -> store_unit room m buf j c = Some (store16 m (buf + 2 * j) c).
Proof. intros Hr. unfold store_unit. by rewrite (proj2 (Z.leb_le _ _)). Qed.
Lemma fill_loop_spec room buf str len cs : forall fuel m i j,
  Forall codepoint_ok cs -> len < 2 ^ 64 -> 0 <= i -> 0 <= j -> i + Z.of_nat (length (string_bytes cs)) = len ->
  apart str len buf (2 * (j + Z.of_nat (length cs))) -> 2 * (j + Z.of_nat (length cs)) <= room ->
  bytes m (str + i) (Z.of_nat (length (string_bytes cs))) = string_bytes cs -> (length cs < fuel)%nat ->
  exists m', fill_loop fuel room m buf str len i j = Some m' /\
    units m' (buf + 2 * j) (length cs) = (u16 <$> cs) /\ same_outside (buf + 2 * j) (2 * Z.of_nat (length cs)) m m'.
Proof.
  change (2 ^ 64) with 18446744073709551616. unfold apart.
  induction cs as [|c cs IH]; intros [|fuel] m i j Hc H64 Hi Hj Hlen Hap Hroom Hb Hf; cbn [length] in Hf, Hap, Hroom |- *; try lia; cbn [fill_loop].
  - cbn in Hlen. rewrite (proj2 (Z.ltb_ge _ _)) by lia. by exists m.
  - apply Forall_cons in Hc as [Hc Hcs]. rewrite u64_small by lia.
    destruct (decode_step m (str + i) c cs (len - i) Hc Hcs Hb ltac:(lia)) as (E & Hb' & El). pose proof (utf8_bytes_length c).
    rewrite (proj2 (Z.ltb_lt _ _)), E, store_unit_ok by lia. cbn [mbind option_bind]. set (m1 := store16 m (buf + 2 * j) c).
    assert (same_outside (buf + 2 * j) 2 m m1) as Hs1 by (intros x Hx; by apply store_outside).
    destruct (IH fuel m1 (i + Z.of_nat (length (utf8_bytes c))) (j + 1)) as (m' & E' & Hu & Ho).
    { done. } { lia. } { lia. } { lia. } { lia. }
    { lia. } { lia. }
    { rewrite (bytes_same _ _ _ _ _ _ Hs1) by lia.
      by replace (str + (i + Z.of_nat (length (utf8_bytes c)))) with (str + i + Z.of_nat (length (utf8_bytes c))) by lia. }
    { lia. }
    exists m'. split; [done|]. split.
    + unfold units in *. cbn [seq fmap list_fmap]. f_equal.
      * unfold load16. rewrite (load_ext 2 m1) by (intros x Hx; apply Ho; lia). unfold m1, store16.
        rewrite Z.mul_0_r, Z.add_0_r. by rewrite load_store_eq.
      * rewrite <- Hu. rewrite <- fmap_S_seq, <- list_fmap_compose. apply list_fmap_ext. intros k x _.
        cbn [compose]. unfold compose. by replace (buf + 2 * (j + 1) + 2 * Z.of_nat x) with (buf + 2 * j + 2 * Z.of_nat (S x)) by lia.
    + eapply same_outside_trans; [eapply same_outside_weaken; [| |exact Hs1]; lia|].
      eapply same_outside_weaken; [| |exact Ho]; lia.
Qed.

Lemma string_bytes_length cs : (length cs <= length (string_bytes cs))%nat.
Proof. induction cs as [|c cs IH]; [done|]. rewrite string_bytes_cons, length_app. pose proof (utf8_bytes_length c). cbn [length]. lia. Qed.
Lemma units_store_snoc m a n us v : units m a n = us -> 
  units (store16 m (a + 2 * Z.of_nat n) v) a (S n) = us ++ [u16 v].
Proof.
  intros <-. unfold units. rewrite seq_S, fmap_app. f_equal.
  - apply list_fmap_ext. intros k x Hx. apply lookup_seq in Hx. unfold load16, store16. apply load_store_ne. lia.
  - cbn [fmap list_fmap]. unfold load16, store16. by rewrite load_store_eq.
Qed.

(** ** The buffer *)

Section StdioSpec.
Context {H : Type} `{Allocator H}.
Variable real : Z.
Implicit Types st : stdio H.

(** The buffer is the static one or a live block, of at most the recorded size. *)
Record stdio_ok st : Prop := {
  so_ok : al_ok (sh st);
  so_size : 0 < bufSize st;
  so_buffer : buffer st <> real -> is_Some (al_blocks (sh st) !! buffer st);
  so_room : room st <= 2 * bufSize st;
}.
(** Memory that neither the allocator nor the buffer block uses. *)
Definition foreign st (a n : Z) : Prop := forall x, a <= x < a + n ->
  ~ al_own (sh st) x /\ forall k, al_blocks (sh st) !! buffer st = Some k -> ~ (buffer st <= x < buffer st + k).

Lemma double_loop_spec size : forall fuel b, 0 < b -> b < 2 * size -> 2 * size < 2 ^ 31 -> (Z.to_nat (size - b) < fuel)%nat ->
  exists n, double_loop fuel b size = Some n /\ size <= n < 2 * size.
Proof.
  change (2 ^ 31) with 2147483648. induction fuel as [|fuel IH]; intros b Hb Hb2 Hs Hf; [lia|]. cbn [double_loop].
  destruct (Z.ltb_spec b size); [|exists b; split; [done|lia]]. rewrite i32_small by lia. apply IH; lia.
Qed.
Lemma free_old_spec st : stdio_ok st ->
  al_ok (free_old real st).1 /\
  (forall a n, foreign st a n -> (forall x, a <= x < a + n -> ~ al_own (free_old real st).1 x) /\
    bytes (free_old real st).2 a n = bytes (sm st) a n).
Proof.
  intros [Hok _ Hb _]. unfold free_old. destruct (Z.eqb_spec (buffer st) real) as [E|E]; cbn [negb].
  { split; [done|]. intros a n Hf. split; [|done]. intros x Hx. by apply Hf. }
  destruct (Hb E) as [k Hk]. pose proof (kFree_law (sh st) (sm st) (buffer st) k Hok Hk) as Hl.
  destruct (kFree (sh st) (sm st) (buffer st)) as [h' m']. destruct Hl as (Hok' & _ & Hown & Hm).
  split; [done|]. intros a n Hf. split.
  - intros x Hx Ho. destruct (Hf x Hx) as [Hn Hbk]. destruct (Hown x Ho) as [?|?]; [done|]. by apply (Hbk k).
  - apply bytes_ext. intros x Hx. destruct (Hf x Hx) as [Hn Hbk]. apply Hm; [done|by apply Hbk].
Qed.
(** Growing: a block for [size] units, while the recorded size is the doubled one. *)
Lemma ResizeBuffer_grows fuel size st : stdio_ok st -> bufSize st < size -> 2 * size < 2 ^ 31 -> (Z.to_nat size < fuel)%nat ->
  al_room (free_old real st).1 (2 * size) ->
  exists st', __io_WriteConsole_ResizeBuffer real fuel size st = Some st' /\ al_ok (sh st') /\
    al_blocks (sh st') !! buffer st' = Some (2 * size) /\ size <= bufSize st' < 2 * size /\
    forall a n, 0 < n -> foreign st a n -> bytes (sm st') a n = bytes (sm st) a n /\ apart (buffer st') (2 * size) a n.
Proof.
  change (2 ^ 31) with 2147483648. intros Hst Hb Hs Hf Hr. pose proof (so_size _ Hst). destruct (free_old_spec st Hst) as [Hok Hfor].
  unfold __io_WriteConsole_ResizeBuffer. rewrite (proj2 (Z.ltb_lt _ _)) by lia.
  destruct (double_loop_spec size fuel (bufSize st)) as (n & -> & Hn); try (change (2 ^ 31) with 2147483648; lia).
  rewrite u64_small by lia. replace (size * 2) with (2 * size) by lia.
  destruct (free_old real st) as [h m]. cbn [fst snd] in *.
  pose proof (kMalloc_bytes h m (2 * size)) as Hkb. pose proof (kMalloc_law h m (2 * size) Hok Hr ltac:(lia)) as Hl.
  destruct (kMalloc h m (2 * size)) as [[p h'] m']. destruct Hl as (Hok' & _ & Hbl & Hown & _ & _). cbn [snd] in Hkb.
  eexists. split; [done|]. cbn [sh sm bufSize buffer]. split; [done|].
  split; [by rewrite Hbl, lookup_insert_eq|]. split; [done|].
  intros a k Hk Hfo. destruct (Hfor a k Hfo) as [Ho Hm]. split; [rewrite <- Hm; by apply Hkb; try lia|].
  by apply (own_apart h); try lia.
Qed.

(** Making room for [n + 1] units: other memory keeps its bytes and is apart from
    the units. *)
Lemma ResizeBuffer_spec fuel n st : stdio_ok st -> 0 <= n -> 2 * (n + 1) < 2 ^ 31 -> (Z.to_nat (n + 1) < fuel)%nat ->
  (bufSize st < n + 1 -> al_room (free_old real st).1 (2 * (n + 1))) ->
  exists st1, __io_WriteConsole_ResizeBuffer real fuel (n + 1) st = Some st1 /\ stdio_ok st1 /\
    (2 * (n + 1) <= room st \/ bufSize st < n + 1 -> 2 * (n + 1) <= room st1 /\ room st <= room st1) /\
    (n + 1 <= bufSize st -> st1 = st) /\
    (bufSize st < n + 1 -> al_blocks (sh st1) !! buffer st1 = Some (2 * (n + 1)) /\ n + 1 <= bufSize st1) /\
    forall a k, 0 < k -> foreign st a k -> (n + 1 <= bufSize st -> apart a k (buffer st) (2 * (n + 1))) ->
      bytes (sm st1) a k = bytes (sm st) a k /\ apart a k (buffer st1) (2 * (n + 1)).
Proof.
  change (2 ^ 31) with 2147483648. intros Hst Hn Hn2 Hf Hroom. destruct (Z.lt_ge_cases (bufSize st) (n + 1)) as [Hlt|Hge].
  - destruct (ResizeBuffer_grows fuel (n + 1) st Hst Hlt) as (st1 & E & Hok & Hbl & Hsz & Hk); [lia|lia|by apply Hroom|].
    assert (room st1 = 2 * (n + 1)) as Hr1 by (unfold room; by rewrite Hbl). pose proof (so_room _ Hst).
    exists st1. split; [done|]. split; [split; [done|lia|by eexists|lia]|]. split; [lia|]. split; [lia|]. split; [intros _; split; [done|lia]|].
    intros a k Hk0 Hfo _. destruct (Hk a k Hk0 Hfo) as [E1 E2]. split; [done|]. unfold apart in *. lia.
  - exists st. unfold __io_WriteConsole_ResizeBuffer. rewrite (proj2 (Z.ltb_ge _ _)) by lia.
    split; [done|]. split; [done|]. split; [lia|]. split; [done|]. split; [lia|]. intros a k _ _ Hap. split; [done|by apply Hap].
Qed.
(** The loops that count. *)
Lemma UTF8_counts fuel str cs st : let len := Z.of_nat (length (string_bytes cs)) in
  Forall codepoint_ok cs -> cstr (sm st) str (string_bytes cs) -> 2 * (len + 1) < 2 ^ 31 -> (Z.to_nat (len + 1) < fuel)%nat ->
  __io_WriteConsoleUTF8 real fuel str st =
    st ← __io_WriteConsole_ResizeBuffer real fuel (Z.of_nat (length cs) + 1) st;
    m ← fill_loop fuel (room st) (sm st) (buffer st) str len 0 0;
    m ← store_unit (room st) m (buffer st) (Z.of_nat (length cs)) 0;
    Some (mk_stdio (sh st) m (bufSize st) (buffer st)).
Proof.
  change (2 ^ 31) with 2147483648. intros len Hcs Hs Hlen Hf.
  pose proof (string_bytes_length cs) as Hnl. apply cstr_bytes in Hs as Hb. destruct Hb as [Hb _]. fold len in Hb.
  unfold __io_WriteConsoleUTF8, strlen. rewrite (strlen_loop_spec _ (string_bytes cs)) by (done || lia). cbn [mbind option_bind].
  rewrite Z.add_0_l, i32_small by lia. fold len. rewrite (count_loop_spec (sm st) str len cs); [done|done|lia|lia|lia| |lia].
  rewrite Z.add_0_r. rewrite bytes_app in Hb by lia. apply app_inj_1 in Hb as [Hb _]; [done|]. rewrite length_bytes. unfold len. lia.
Qed.
Lemma WriteConsoleUTF8_spec fuel str cs st :
  let n := Z.of_nat (length cs) in let len := Z.of_nat (length (string_bytes cs)) in
  stdio_ok st -> Forall codepoint_ok cs -> cstr (sm st) str (string_bytes cs) -> foreign st str (len + 1) ->
  2 * (len + 1) < 2 ^ 31 -> 0 <= str -> (Z.to_nat (len + 1) < fuel)%nat ->
  (n + 1 <= bufSize st -> apart str (len + 1) (buffer st) (2 * (n + 1))) ->
  (bufSize st < n + 1 -> al_room (free_old real st).1 (2 * (n + 1))) ->
  (n + 1 <= bufSize st -> 2 * (n + 1) <= room st) ->
  exists st', __io_WriteConsoleUTF8 real fuel str st = Some st' /\
    units (sm st') (buffer st') (S (length cs)) = (u16 <$> cs) ++ [0] /\
    (n + 1 <= bufSize st -> sh st' = sh st /\ buffer st' = buffer st /\ bufSize st' = bufSize st) /\
    (bufSize st < n + 1 -> al_blocks (sh st') !! buffer st' = Some (2 * (n + 1)) /\ n + 1 <= bufSize st') /\
    stdio_ok st' /\ (2 * (n + 1) <= room st' /\ room st <= room st') /\
    forall a k, 0 < k -> foreign st a k -> (n + 1 <= bufSize st -> apart a k (buffer st) (2 * (n + 1))) ->
      bytes (sm st') a k = bytes (sm st) a k /\ apart a k (buffer st') (2 * (n + 1)).
Proof.
  change (2 ^ 31) with 2147483648. intros n len Hst Hcs Hs Hfor Hlen Hstr Hf Hfit Hroom Hblk.
  pose proof (string_bytes_length cs) as Hnl. apply cstr_bytes in Hs as Hb. destruct Hb as [Hb _]. fold len in Hb.
  rewrite (UTF8_counts fuel str cs st) by done. fold n. fold len.
  destruct (ResizeBuffer_spec fuel n st Hst) as (st1 & -> & Hok1 & Hr1 & Hsame & Hnew & Hkeep); [lia|change (2 ^ 31) with 2147483648; lia|lia|done|].
  destruct Hr1 as [Hr1 Hr2]; [lia|]. cbn [mbind option_bind].
  destruct (Hkeep str (len + 1) ltac:(lia) Hfor Hfit) as [Hb1 Hap]. rewrite Hb in Hb1.
  destruct (fill_loop_spec (room st1) (buffer st1) str len cs fuel (sm st1) 0 0) as (m' & -> & Hu & Ho); try done; try lia.
  { unfold apart in *. lia. }
  { rewrite Z.add_0_r. rewrite bytes_app in Hb1 by lia. apply app_inj_1 in Hb1 as [Hb1 _]; [done|]. rewrite length_bytes. unfold len. lia. }
  cbn [mbind option_bind]. rewrite store_unit_ok by lia. cbn [mbind option_bind].
  eexists. split; [done|]. cbn [sh sm bufSize buffer]. rewrite Z.mul_0_r, Z.add_0_r in Hu, Ho.
  split; [by apply units_store_snoc|]. split; [intros Hle; by rewrite (Hsame Hle)|]. split; [done|].
  split; [by destruct Hok1; split|]. split; [done|]. intros a k Hk Hfo Hna. destruct (Hkeep a k Hk Hfo Hna) as [E1 E2]. split; [|done].
  rewrite <- E1. fold n in Ho. apply bytes_ext. intros x Hx. unfold apart in E2.
  unfold store16. rewrite store_outside by lia. apply Ho. lia.
Qed.

(** * Properties *)

(** Converting a string, up to the call of the sink: the buffer receives
    the low 16 bits of every codepoint and a terminating zero.  When they do
    not fit the recorded size the buffer becomes a new block for exactly the
    units of this string; when they do, the buffer and the allocator are
    unchanged. *)
Theorem __io_WriteConsoleUTF8_correct fuel str cs st :
  let n := Z.of_nat (length cs) in let len := Z.of_nat (length (string_bytes cs)) in
  stdio_ok st -> Forall codepoint_ok cs -> cstr (sm st) str (string_bytes cs) -> foreign st str (len + 1) ->
  2 * (len + 1) < 2 ^ 31 -> 0 <= str -> (Z.to_nat (len + 1) < fuel)%nat ->
  (n + 1 <= bufSize st -> apart str (len + 1) (buffer st) (2 * (n + 1))) ->
  (bufSize st < n + 1 -> al_room (free_old real st).1 (2 * (n + 1))) ->
  (n + 1 <= bufSize st -> 2 * (n + 1) <= room st) ->
  exists st', __io_WriteConsoleUTF8 real fuel str st = Some st' /\
    units (sm st') (buffer st') (S (length cs)) = (u16 <$> cs) ++ [0] /\
    (n + 1 <= bufSize st -> sh st' = sh st /\ buffer st' = buffer st /\ bufSize st' = bufSize st) /\
    (bufSize st < n + 1 -> al_blocks (sh st') !! buffer st' = Some (2 * (n + 1)) /\ n + 1 <= bufSize st').
Proof.
  intros n len H1 H2 H3 H4 H5 H6 H7 H8 H9 H10. destruct (WriteConsoleUTF8_spec fuel str cs st H1 H2 H3 H4 H5 H6 H7 H8 H9 H10) as (st' & E & Hu & Hs & Hn & _).
  by exists st'.
Qed.

(** The first growth, for a string of 512 to 1022 characters, records room for
    1024 units but allocates only the units of that string, so every later
    string of up to 1023 characters is taken to fit: a longer one is written past
    the block. *)
Theorem ResizeBuffer_short fuel size st : stdio_ok st -> bufSize st = 512 -> 512 < size < 1024 -> (Z.to_nat size < fuel)%nat ->
  al_room (free_old real st).1 (2 * size) ->
  exists st', __io_WriteConsole_ResizeBuffer real fuel size st = Some st' /\ room st' = 2 * size /\ bufSize st' = 1024 /\
    forall m str cs, Forall codepoint_ok cs -> cstr m str (string_bytes cs) ->
      2 * (Z.of_nat (length (string_bytes cs)) + 1) < 2 ^ 31 -> (length (string_bytes cs) + 1 < fuel)%nat ->
      size < Z.of_nat (length cs) + 1 <= 1024 ->
      __io_WriteConsoleUTF8 real fuel str (mk_stdio (sh st') m (bufSize st') (buffer st')) = None.
Proof.
  intros Hst Hb Hs Hf Hr.
  destruct (ResizeBuffer_grows fuel size st Hst) as (st' & E & _ & Hbl & Hn & _); [lia|change (2 ^ 31) with 2147483648; lia|done|done|].
  assert (bufSize st' = 1024) as Hn'.
  { revert E. unfold __io_WriteConsole_ResizeBuffer. rewrite Hb, (proj2 (Z.ltb_lt _ _)) by lia.
    destruct fuel as [|[|fuel]]; [lia..|]. cbn [double_loop]. rewrite (proj2 (Z.ltb_lt 512 size)) by lia.
    change (i32 (512 * 2)) with 1024. rewrite (proj2 (Z.ltb_ge 1024 size)) by lia.
    destruct (free_old real st) as [h m]. destruct (kMalloc h m _) as [[p h'] m']. by intros [= <-]. }
  assert (room st' = 2 * size) as Hroom by (unfold room; by rewrite Hbl).
  exists st'. split; [done|]. split; [done|]. split; [done|]. intros m str cs Hcs Hm Hlen Hfu Ht.
  rewrite (UTF8_counts fuel str cs) by (done || cbn; lia). unfold __io_WriteConsole_ResizeBuffer. cbn [bufSize].
  rewrite Hn', (proj2 (Z.ltb_ge _ _)) by lia. cbn [mbind option_bind]. destruct (fill_loop _ _ _ _ _ _ _ _); [|done]. cbn [mbind option_bind].
  unfold store_unit. change (room (mk_stdio (sh st') m 1024 (buffer st'))) with (room st'). by rewrite Hroom, (proj2 (Z.leb_gt _ _)) by lia.
Qed.
End StdioSpec.

(** "hé" at 100, the static buffer at 1000. *)
Definition demo_text : mem := store8 (store8 (store8 (fun _ => 0) 100 104) 101 195) 102 169.
Definition demo_stdio : stdio bump := stdio_init 1000 (mk_bump 4096 ∅) demo_text.
Lemma demo_stdio_ok : stdio_ok 1000 demo_stdio.
Proof. split; cbn; [split; cbn; [lia|by intros ??; rewrite lookup_empty|by intros ????; rewrite lookup_empty]|lia|done|unfold room; cbn; by rewrite lookup_empty]. Qed.
Lemma __io_WriteConsoleUTF8_correct_witness :
  exists st', __io_WriteConsoleUTF8 1000 9 100 demo_stdio = Some st' /\ units (sm st') (buffer st') 3 = [104; 233; 0].
Proof.
  destruct (__io_WriteConsoleUTF8_correct 1000 9 100 [104; 233] demo_stdio demo_stdio_ok) as (st' & E & Hu & _).
  - repeat constructor; vm_compute; discriminate.
  - vm_compute. intuition discriminate.
  - intros x Hx. cbn in Hx |- *. split; [lia|]. intros k. by rewrite lookup_empty.
  - vm_compute. reflexivity.
  - lia.
  - vm_compute. lia.
  - intros _. left. vm_compute. discriminate.
  - intros Hlt. by vm_compute in Hlt.
  - intros _. vm_compute. discriminate.
  - by exists st'.
Defined.
Lemma ResizeBuffer_short_witness :
  exists st', __io_WriteConsole_ResizeBuffer 1000 601 600 demo_stdio = Some st' /\ bufSize st' = 1024.
Proof.
  destruct (ResizeBuffer_short 1000 601 600 demo_stdio demo_stdio_ok) as (st' & E & _ & Hn & _); [done|lia|lia| |by exists st'].
  vm_compute. reflexivity.
Defined.
