(* ===== verification/Filesystem.v ===== *)
(** * The file system interface and block devices (src/driver/filesystem/filesystem.hpp,
    src/driver/block, format.cpp)

    Paths are the bytes of C strings.  A file system object is the record of
    its virtual methods; the base class answers -ENOSYS everywhere.  A block
    device is a class of its operations, with the ramdisk and the slice of a
    device as instances. *)

From S2P Require Import Prelude Mem.

Definition path := list Z.
Definition Seperator : Z := 47.
Definition root_path : path := [Seperator].

Definition ENOENT : Z := 2.
Definition EEXIST : Z := 17.
Definition EINVAL : Z := 22.
Definition EROFS : Z := 30.
Definition ENOSYS : Z := 38.

Definition S_IFMT : Z := 0xf000.   (* octal 0170000 *)
Definition S_IFIFO : Z := 0x1000.
Definition S_IFCHR : Z := 0x2000.
Definition S_IFDIR : Z := 0x4000.
Definition S_IFBLK : Z := 0x6000.
Definition S_IFREG : Z := 0x8000.
Definition S_IFLNK : Z := 0xa000.

Record Stat := mk_stat {
  Mode : Z; NumLinks : Z; Uid : Z; Gid : Z; Size : Z; Blocks : Z; TimeAccess : Z; TimeModification : Z;
}.

Definition Capability_AtomicTruncate : Z := 1.
Definition Capability_Export : Z := 2.
Definition Capability_NoOpen : Z := 4.

(** The virtual methods, in the order of the class.  The file argument is the
    handle of the open file: Open and Opendir return what they leave in it.
    An out parameter is passed with what it holds before.  Readdir is the list
    of its calls of the callback.  Read, Write and Ioctl take the addresses of
    their buffers; no result means that they do not return. *)
Record filesystem := mk_filesystem {
  Capabilities : Z;
  Getattr : path -> Stat -> Z * Stat;
  Readlink : path -> Z -> Z * list Z;
  Mknod : path -> Z -> Z;
  Mkdir : path -> Z -> Z;
  Unlink : path -> Z;
  Rmdir : path -> Z;
  Symlink : path -> path -> Z;
  Rename : path -> path -> Z -> Z;
  Link : path -> path -> Z;
  Chown : path -> Z -> Z -> Z;
  Chmod : path -> Z -> Z;
  Truncate : path -> Z -> Z;
  Open : path -> Z -> Z * Z;
  Read : mem -> path -> Z -> Z -> Z -> Z -> option (Z * mem);
  Write : mem -> path -> Z -> Z -> Z -> Z -> option (Z * mem);
  Fsync : path -> bool -> Z;
  Close : path -> Z -> Z;
  Opendir : path -> Z -> Z * Z;
  Readdir : path -> Z -> Z * list (path * Stat);
  Fsyncdir : path -> bool -> Z;
  Closedir : path -> Z -> Z;
  Ioctl : mem -> path -> Z -> Z -> Z -> option (Z * mem);
}.
(** The base class: every operation is not implemented.  Ioctl returns an
    [uintptr_t]. *)
Definition base_filesystem : filesystem := {|
  Capabilities := Capability_NoOpen;
  Getattr _ st := (- ENOSYS, st);
  Readlink _ _ := (- ENOSYS, []);
  Mknod _ _ := - ENOSYS;
  Mkdir _ _ := - ENOSYS;
  Unlink _ := - ENOSYS;
  Rmdir _ := - ENOSYS;
  Symlink _ _ := - ENOSYS;
  Rename _ _ _ := - ENOSYS;
  Link _ _ := - ENOSYS;
  Chown _ _ _ := - ENOSYS;
  Chmod _ _ := - ENOSYS;
  Truncate _ _ := - ENOSYS;
  Open _ h := (- ENOSYS, h);
  Read m _ _ _ _ _ := Some (- ENOSYS, m);
  Write m _ _ _ _ _ := Some (- ENOSYS, m);
  Fsync _ _ := - ENOSYS;
  Close _ _ := - ENOSYS;
  Opendir _ h := (- ENOSYS, h);
  Readdir _ _ := (- ENOSYS, []);
  Fsyncdir _ _ := - ENOSYS;
  Closedir _ _ := - ENOSYS;
  Ioctl m _ _ _ _ := Some (u64 (- ENOSYS), m);
|}.

(** [Format]: the registered allocators, and the first of them that gives a
    file system (no result: one of them does not return). *)
Definition Format_Register {A} (fslist : list A) (fs : A) : list A := fslist ++ [fs].
Fixpoint Format_AllocateBlock {B F} (fslist : list (B -> mem -> option (option F * mem))) (block : B) (m : mem)
    : option (option F * mem) :=
  match fslist with
  | [] => Some (None, m)
  | a :: l =>
      match a block m with
      | Some (Some fs, m) => Some (Some fs, m)
      | Some (None, m) => Format_AllocateBlock l block m
      | None => None
      end
  end.

(** ** Block devices *)

Definition PermExecute : Z := 1.
Definition PermWrite : Z := 2.
Definition PermRead : Z := 4.
(** [-1] as the [uint64_t] the functions return. *)
Definition minus_one : Z := u64 (-1).

(** [blockOffset], buffer address, [blockCount]: the count read or written, and
    the memory. *)
Class BlockDevice (B : Type) := {
  bd_BlockSize : B -> Z;
  bd_Size : B -> Z;
  bd_SizeBytes : B -> Z;
  bd_DevicePermission : B -> Z;
  bd_ReadBlock : B -> mem -> Z -> Z -> Z -> Z * mem;
  bd_WriteBlock : B -> mem -> Z -> Z -> Z -> Z * mem;
}.

Record BlockDeviceRamdisk := mk_ramdisk { buffer : Z; blocksize : Z; blockcount : Z; perm : Z }.
Definition ramdisk_count (d : BlockDeviceRamdisk) (offset count : Z) : Z :=
  if u64 (blockcount d - offset) <? count then u64 (blockcount d - offset) else count.
Definition ramdisk_ReadBlock (d : BlockDeviceRamdisk) (m : mem) (offset data count : Z) : Z * mem :=
  if Z.land (perm d) PermRead =? 0 then (minus_one, m)
  else
    let count := ramdisk_count d offset count in
    (count, memcpy m data (u64 (buffer d + blocksize d * offset)) (u64 (blocksize d * count))).
Definition ramdisk_WriteBlock (d : BlockDeviceRamdisk) (m : mem) (offset data count : Z) : Z * mem :=
  if Z.land (perm d) PermWrite =? 0 then (minus_one, m)
  else
    let count := ramdisk_count d offset count in
    (count, memcpy m (u64 (buffer d + blocksize d * offset)) data (u64 (blocksize d * count))).
#[export] Instance ramdisk_device : BlockDevice BlockDeviceRamdisk := {|
  bd_BlockSize := blocksize; bd_Size := blockcount;
  bd_SizeBytes := fun d => u64 (blocksize d * blockcount d);
  bd_DevicePermission := perm;
  bd_ReadBlock := ramdisk_ReadBlock; bd_WriteBlock := ramdisk_WriteBlock |}.

Record SlicedBlockDevice (B : Type) := mk_slice { backing : B; off : Z; cnt : Z }.
Arguments mk_slice {B}. Arguments backing {B}. Arguments off {B}. Arguments cnt {B}.
Definition BlockDevice_Slice {B} (d : B) (blockOffset blockCount : Z) : SlicedBlockDevice B :=
  mk_slice d blockOffset blockCount.
#[export] Instance sliced_device {B} `{BlockDevice B} : BlockDevice (SlicedBlockDevice B) := {|
  bd_BlockSize := fun s => bd_BlockSize (backing s);
  bd_Size := cnt;
  bd_SizeBytes := fun s => u64 (bd_BlockSize (backing s) * cnt s);
  bd_DevicePermission := fun s => bd_DevicePermission (backing s);
  bd_ReadBlock := fun s m o d n => bd_ReadBlock (backing s) m (u64 (o + off s)) d n;
  bd_WriteBlock := fun s m o d n => bd_WriteBlock (backing s) m (u64 (o + off s)) d n |}.

(** ** Properties *)

(** The blocks of a ramdisk are apart from a buffer, and inside the address
    space. *)
Record ramdisk_ok (d : BlockDeviceRamdisk) (data n : Z) : Prop := {
  rd_size : 0 < blocksize d /\ 0 <= blockcount d;
  rd_range : 0 <= buffer d /\ buffer d + blocksize d * blockcount d < 2 ^ 64;
  rd_apart : data + n <= buffer d \/ buffer d + blocksize d * blockcount d <= data;
}.
Lemma ramdisk_count_ok d offset count :
  0 <= offset <= blockcount d -> blockcount d < 2 ^ 64 -> ramdisk_count d offset count = Z.min count (blockcount d - offset).
Proof. intros. unfold ramdisk_count. rewrite u64_small by lia. zcase; lia. Qed.
Lemma ramdisk_bytes d offset count :
  0 < blocksize d -> 0 <= offset <= blockcount d -> 0 <= count -> buffer d + blocksize d * blockcount d < 2 ^ 64 -> 0 <= buffer d ->
  let n := Z.min count (blockcount d - offset) in
  ramdisk_count d offset count = n /\ u64 (buffer d + blocksize d * offset) = buffer d + blocksize d * offset /\
  u64 (blocksize d * n) = blocksize d * n /\ 0 <= blocksize d * offset /\ 0 <= blocksize d * n /\
  blocksize d * offset + blocksize d * n <= blocksize d * blockcount d.
Proof.
  change (2 ^ 64) with 18446744073709551616. intros Hb Ho Hc Hr H0 n.
  assert (0 <= n <= blockcount d - offset) by lia.
  assert (0 <= blocksize d * offset /\ 0 <= blocksize d * n /\ blocksize d * (offset + n) <= blocksize d * blockcount d /\
    blockcount d <= blocksize d * blockcount d) as (? & ? & Hle & ?) by (split_and!; nia).
  rewrite Z.mul_add_distr_l in Hle. split_and!; try lia; [apply ramdisk_count_ok; [lia|change (2 ^ 64) with 18446744073709551616; lia]|
    rewrite u64_small; lia|rewrite u64_small; lia].
Qed.

(** What is written to a ramdisk is read back: a write of blocks inside the
    disk followed by a read of the same blocks returns the written bytes, both
    return the number of blocks, cut at the end of the disk, and the other
    blocks of the disk are left alone; without the permission nothing moves. *)
Theorem ramdisk_Write_Read_roundtrip d m offset count data data' :
  0 <= offset <= blockcount d -> 0 <= count ->
  ramdisk_ok d data (blocksize d * count) -> ramdisk_ok d data' (blocksize d * count) ->
  Z.land (perm d) PermWrite <> 0 -> Z.land (perm d) PermRead <> 0 ->
  let n := Z.min count (blockcount d - offset) in
  let '(w, m1) := ramdisk_WriteBlock d m offset data count in
  let '(r, m2) := ramdisk_ReadBlock d m1 offset data' count in
  w = n /\ r = n /\ bytes m2 data' (blocksize d * n) = bytes m data (blocksize d * n) /\
  same_outside (buffer d + blocksize d * offset) (blocksize d * n) m m1 /\ same_outside data' (blocksize d * n) m1 m2.
Proof.
  intros Ho Hc [[? ?] [? ?] Ha] [_ _ Ha'] Hw Hr n. destruct (ramdisk_bytes d offset count) as (E1 & E2 & E3 & ? & ? & ?); try done.
  fold n in E1, E3. unfold ramdisk_WriteBlock, ramdisk_ReadBlock.
  rewrite (proj2 (Z.eqb_neq _ _) Hw), (proj2 (Z.eqb_neq _ _) Hr), E1, E2, E3.
  split_and!; [done|done| |apply memcpy_out|apply memcpy_out].
  rewrite bytes_memcpy by lia. by rewrite bytes_memcpy by lia.
Qed.
Lemma ramdisk_Write_Read_roundtrip_witness :
  let d := mk_ramdisk 1000 4 3 6 in
  let '(w, m1) := ramdisk_WriteBlock d (fun a => a) 1 0 5 in
  let '(r, m2) := ramdisk_ReadBlock d m1 1 100 5 in
  w = 2 /\ r = 2 /\ bytes m2 100 8 = [0; 1; 2; 3; 4; 5; 6; 7].
Proof.
  cbn zeta. pose proof (ramdisk_Write_Read_roundtrip (mk_ramdisk 1000 4 3 6) (fun a => a) 1 5 0 100) as H.
  destruct (ramdisk_WriteBlock (mk_ramdisk 1000 4 3 6) (fun a => a) 1 0 5) as [w m1].
  destruct (ramdisk_ReadBlock (mk_ramdisk 1000 4 3 6) m1 1 100 5) as [r m2].
  destruct H as (Hw & Hr & Hb & _); cbn [blockcount blocksize perm buffer]; try lia.
  - split; cbn; lia.
  - split; cbn; lia.
  - discriminate.
  - discriminate.
  - split; [exact Hw|]. split; [exact Hr|]. exact Hb.
Defined.
