(* ===== verification/Ramdisk.v ===== *)
(** * Ramdisks with a buffer of their own (src/driver/block/ramdisk.cpp)

    The constructor that allocates and the destructor, on the kernel's allocator,
    the cursor of kernel mappings and the page tables.  Reading and writing are in
    Filesystem.v. *)

From S2P Require Import Prelude Mem MinMax Physical Paging PageTable PagingSpec Unmap Heap Alloc Filesystem.

Definition __Ramdisk_Alloc_None : Z := 0.
Definition __Ramdisk_Alloc_Malloc : Z := 1.
Definition __Ramdisk_Alloc_4KPages : Z := 2.
Definition __Ramdisk_Alloc_2MPages : Z := 3.

(** The object; the base of it is what Filesystem.v reads and writes. *)
Record Ramdisk := mk_rd { rd_disk : BlockDeviceRamdisk; pages : Z; alloctype : Z }.
(** The allocator and its memory, [memory_KernelMappingBottom], the frames and
    page tables. *)
Record kernel_memory (H : Type) := mk_km { km_heap : H; km_mem : mem; km_bottom : Z; km_phys : phys }.
Arguments mk_km {H}. Arguments km_heap {H}. Arguments km_mem {H}. Arguments km_bottom {H}. Arguments km_phys {H}.

Section Ramdisk.
Context {H : Type} `{Allocator H} (PML4Table : Z) (nx : bool).

(** [any] is the value the constructor leaves in [pages] when it does not set
    it. *)
Definition Ramdisk_create (fuel : nat) (any blockSize blockCount perm : Z) (k : kernel_memory H) : option (Ramdisk * kernel_memory H) :=
  let bytes := u64 (blockSize * blockCount) in
  if bytes <? SYSTEM_PAGE_SIZE then
    let '(p, h, m) := kMalloc (km_heap k) (km_mem k) bytes in
    Some (mk_rd (mk_ramdisk p blockSize blockCount perm) any __Ramdisk_Alloc_Malloc, mk_km h m (km_bottom k) (km_phys k))
  else if bytes <? SYSTEM_PAGE_2M_SIZE * 64 then
    let b := memory_AllocateKernelMapping (km_bottom k) bytes SYSTEM_PAGE_SIZE in
    let n := roundUpToPageCount bytes in
    s ← paging_map_PageAllocated PML4Table nx fuel b n perm (km_phys k);
    Some (mk_rd (mk_ramdisk b blockSize blockCount perm) n __Ramdisk_Alloc_4KPages, mk_km (km_heap k) (km_mem k) b s)
  else
    let b := memory_AllocateKernelMapping (km_bottom k) bytes SYSTEM_PAGE_2M_SIZE in
    let n := roundUpToPageCount2M bytes in
    s ← paging_map_PageAllocated2M PML4Table nx fuel b n perm (km_phys k);
    Some (mk_rd (mk_ramdisk b blockSize blockCount perm) n __Ramdisk_Alloc_2MPages, mk_km (km_heap k) (km_mem k) b s).
Definition Ramdisk_wrap (any buffer blockSize blockCount perm : Z) : Ramdisk :=
  mk_rd (mk_ramdisk buffer blockSize blockCount perm) any __Ramdisk_Alloc_None.
Definition Ramdisk_destroy (r : Ramdisk) (k : kernel_memory H) : option (kernel_memory H) :=
  let b := buffer (rd_disk r) in
  if alloctype r =? __Ramdisk_Alloc_Malloc then
    let '(h, m) := kFree (km_heap k) (km_mem k) b in Some (mk_km h m (km_bottom k) (km_phys k))
  else if (alloctype r =? __Ramdisk_Alloc_4KPages) || (alloctype r =? __Ramdisk_Alloc_2MPages) then
    let size := if alloctype r =? __Ramdisk_Alloc_4KPages then SYSTEM_PAGE_SIZE else SYSTEM_PAGE_2M_SIZE in
    s ← paging_map_FreeAllocated PML4Table b (u64 (b + pages r * size)) (km_phys k);
    Some (mk_km (km_heap k) (km_mem k) (km_bottom k) s)
  else Some k.

(** ** The window of kernel mappings *)

(** Room for [n] unmapped pages below the cursor. *)
Record window_ok (k : kernel_memory H) (n : Z) : Prop := {
  wo_bottom : km_bottom k mod 4096 = 0 /\ KERNEL_FRAMEBUFFER_MAPPING - 2 ^ 36 <= km_bottom k - n * 4096 /\ km_bottom k <= KERNEL_MISC_MAPPING;
  wo_pt : pt_ok PML4Table (km_phys k);
  wo_phys : phys_ok (km_phys k);
  wo_free : forall P, in_range (km_bottom k / 4096 - n) n P -> no_large PML4Table (km_phys k) P /\ leaf PML4Table 3 (km_phys k) P = None;
  wo_frames : (4 * Z.to_nat n <= length (free_frames (km_phys k)))%nat;
}.

Lemma mapping_pages bottom bytes : bottom mod 4096 = 0 -> 0 <= bytes -> bytes + 4096 <= bottom -> bottom < 2 ^ 64 ->
  let n := (bytes + 4095) / 4096 in memory_AllocateKernelMapping bottom bytes SYSTEM_PAGE_SIZE = (bottom / 4096 - n) * 4096.
Proof.
  intros Hb Hs Hr Ht n. unfold memory_AllocateKernelMapping, SYSTEM_PAGE_SIZE. change 4096 with (2 ^ 12) at 1.
  change (2 ^ 64) with 18446744073709551616 in Ht. rewrite (u64_small (bottom - bytes)) by lia.
  rewrite (land_not_low 12) by (change (2 ^ 64) with 18446744073709551616; lia). unfold n. change (2 ^ 12) with 4096. lia.
Qed.
Lemma window_range k n : 0 < n -> window_ok k n ->
  range_ok PML4Table (km_phys k) (km_bottom k / 4096 - n) n /\ 0 <= km_bottom k - n * 4096 /\ km_bottom k < 2 ^ 64.
Proof.
  intros Hn [(Hb & Hlo & Hhi) _ _ Hf _]. unfold KERNEL_FRAMEBUFFER_MAPPING, KERNEL_MISC_MAPPING in *.
  change (2 ^ 36) with 68719476736 in *. change (2 ^ 64) with 18446744073709551616. split; [|lia]. constructor.
  - change (2 ^ 52) with 4503599627370496. lia.
  - change (2 ^ 36) with 68719476736. lia.
  - intros P HP. apply Hf. exact HP.
Qed.

(** * Properties *)

(** C34. A ramdisk between a page and 128 MiB: the constructor returns, every
    byte of the disk reads as zero through the processor's translation, the
    buffer is below everything allocated before, and no other translation is
    changed; the destructor then restores every translation and marks the pages
    of the disk free. *)
Theorem Ramdisk_lifecycle_correct k any blockSize blockCount perm fuel :
  let bytes := blockSize * blockCount in let n := (bytes + 4095) / 4096 in
  0 <= blockSize -> 0 <= blockCount -> 4096 <= bytes < 2097152 * 64 -> window_ok k n -> (Z.to_nat n < fuel)%nat ->
  exists r k1 k2 frames, Ramdisk_create fuel any blockSize blockCount perm k = Some (r, k1) /\
    buffer (rd_disk r) = km_bottom k1 /\ km_bottom k1 + bytes <= km_bottom k /\
    blocksize (rd_disk r) = blockSize /\ blockcount (rd_disk r) = blockCount /\
    (forall v, buffer (rd_disk r) <= v < buffer (rd_disk r) + bytes ->
       exists a, translate PML4Table (km_phys k1) v = Some a /\ pmem (km_phys k1) a = 0) /\
    (forall v, ~ in_range (km_bottom k1 / 4096) n (vpn v) -> translate PML4Table (km_phys k1) v = translate PML4Table (km_phys k) v) /\
    Ramdisk_destroy r k1 = Some k2 /\ km_bottom k2 = km_bottom k1 /\
    (forall v, translate PML4Table (km_phys k2) v = translate PML4Table (km_phys k) v) /\
    length frames = Z.to_nat n /\
    (forall f, f ∈ frames -> used (Bitmap (km_phys k1)) f = true /\ used (Bitmap (km_phys k2)) f = false).
Proof.
  intros bytes n Hs Hc Hb Hw Hf. assert (0 < n) as Hn by (unfold n; lia).
  destruct (window_range k n Hn Hw) as (Hr & Hlo & Hhi). destruct Hw as [(Hal & Hlow & Hmis) Hpt Hpo Hfree Hfr].
  set (V := km_bottom k / 4096 - n) in *. pose proof Hr as [(HV0 & _ & HV) HVm _].
  destruct (alloc_free_spec PML4Table nx (km_phys k) V n perm fuel Hpt Hpo Hr Hfr Hf) as (s1 & frames & E1 & Hlen & B1 & Hs1 & Hr1 & s2 & E2 & B2).
  unfold Ramdisk_create. assert (u64 (blockSize * blockCount) = bytes) as -> by (unfold bytes in *; rewrite u64_small by lia; done).
  unfold SYSTEM_PAGE_SIZE at 1, SYSTEM_PAGE_2M_SIZE at 1. rewrite (proj2 (Z.ltb_ge bytes 4096)), (proj2 (Z.ltb_lt bytes (2097152 * 64))) by lia.
  assert (memory_AllocateKernelMapping (km_bottom k) bytes SYSTEM_PAGE_SIZE = V * 4096) as ->.
  { apply mapping_pages; [done|lia| |done]. unfold KERNEL_FRAMEBUFFER_MAPPING in Hlow. change (2 ^ 36) with 68719476736 in Hlow. unfold n in *. lia. }
  rewrite roundUpToPageCount_spec by lia. fold n. rewrite E1. cbn [mbind option_bind].
  eexists _, _, _, frames. split; [reflexivity|]. cbn [rd_disk buffer km_bottom km_phys blocksize blockcount]. rewrite Z.div_mul by lia.
  split; [done|]. split; [unfold V, n; lia|]. split; [done|]. split; [done|].
  assert (V mod 2 ^ 36 = V - (2 ^ 52 - 2 ^ 36)) as EV.
  { unfold V, KERNEL_FRAMEBUFFER_MAPPING, KERNEL_MISC_MAPPING in *. change (2 ^ 36) with 68719476736 in *. change (2 ^ 52) with 4503599627370496 in *. lia. }
  split; [|split; [|split]].
  - intros v Hv. destruct (backed_translate PML4Table nx (km_phys k) s1 V n frames perm v Hr1 Hlen B1) as (f & _ & Ht & Hz); [|by eexists].
    unfold in_range. rewrite EV. unfold vpn. change (2 ^ 36) with 68719476736 in *. change (2 ^ 52) with 4503599627370496 in *. unfold n. lia.
  - intros v Hv. apply translate_same. intros d p Hd Hp Hp'. apply Hs1; [done|done|]. destruct Hp' as [?| ->]; [by left|by right].
  - unfold Ramdisk_destroy. cbn [alloctype rd_disk buffer pages km_phys]. change (__Ramdisk_Alloc_4KPages =? __Ramdisk_Alloc_Malloc) with false.
    rewrite Z.eqb_refl. cbn [orb]. unfold SYSTEM_PAGE_SIZE.
    assert (u64 (V * 4096 + n * 4096) = (V + n) * 4096) as -> by (rewrite u64_small; [lia|change (2 ^ 52) with 4503599627370496 in *; lia]).
    rewrite E2. cbn [mbind option_bind]. reflexivity.
  - cbn [km_bottom km_phys]. split; [done|]. split; [|split; [done|]].
    + intros v. eapply alloc_free_translate; [exact Hr|exact Hr1|exact Hs1|exact B2|]. intros P HP. by apply Hfree.
    + intros f Hin. pose proof B1 as [_ _ _ _ _ _ [_ R] Z _]. rewrite Forall_forall in R, Z. destruct (R f Hin) as [Hq _].
      destruct (Z f Hin) as (Hu & _). split; [done|]. rewrite (um_used _ _ _ _ _ _ B2) by lia.
      rewrite bool_decide_false by (intros Hni; by apply Hni). apply andb_false_r.
Qed.
(** A ramdisk of less than a page is a block of the allocator, whatever was in it
    before, and its destructor gives the block back. *)
Theorem Ramdisk_small k any blockSize blockCount perm fuel :
  0 <= blockSize -> 0 <= blockCount -> blockSize * blockCount < 4096 -> al_ok (km_heap k) -> al_room (km_heap k) (blockSize * blockCount) ->
  exists r k1 k2, Ramdisk_create fuel any blockSize blockCount perm k = Some (r, k1) /\
    al_blocks (km_heap k1) = <[buffer (rd_disk r) := blockSize * blockCount]> (al_blocks (km_heap k)) /\ km_phys k1 = km_phys k /\
    Ramdisk_destroy r k1 = Some k2 /\ al_blocks (km_heap k2) = al_blocks (km_heap k) /\ al_ok (km_heap k2).
Proof.
  intros Hs Hc Hb Hok Hroom. unfold Ramdisk_create. rewrite u64_small by lia. unfold SYSTEM_PAGE_SIZE at 1.
  rewrite (proj2 (Z.ltb_lt _ _)) by done. pose proof (kMalloc_law (km_heap k) (km_mem k) (blockSize * blockCount) Hok Hroom ltac:(lia)) as Hl.
  destruct (kMalloc _ _ _) as [[p h1] m1]. destruct Hl as (Hok1 & Hnone & Hbl & _).
  pose proof (kFree_law h1 m1 p (blockSize * blockCount) Hok1) as Hl. rewrite Hbl, lookup_insert_eq in Hl. specialize (Hl eq_refl).
  set (r := mk_rd (mk_ramdisk p blockSize blockCount perm) any __Ramdisk_Alloc_Malloc). set (k1 := mk_km h1 m1 (km_bottom k) (km_phys k)).
  assert (Ramdisk_destroy r k1 = (let '(h, m) := kFree h1 m1 p in Some (mk_km h m (km_bottom k) (km_phys k)))) as Ed by reflexivity.
  destruct (kFree h1 m1 p) as [h2 m2]. destruct Hl as (Hok2 & Hbl2 & _). eexists r, k1, _.
  split; [reflexivity|]. split; [done|]. split; [done|]. split; [exact Ed|]. cbn [km_heap]. by rewrite Hbl2, delete_insert_id.
Qed.
End Ramdisk.


(** ** Witnesses *)

Definition demo_km : kernel_memory bump := mk_km (mk_bump 1000 ∅) (fun _ => 0) KERNEL_MISC_MAPPING demo_mm.
Lemma demo_km_window : window_ok demo_pml4 demo_km 2.
Proof.
  constructor; cbn [demo_km km_bottom km_phys].
  - unfold KERNEL_MISC_MAPPING, KERNEL_FRAMEBUFFER_MAPPING. change (2 ^ 36) with 68719476736. split_and!; [reflexivity|lia|lia].
  - apply demo_mm_pt.
  - apply demo_mm_phys.
  - intros P _. split; [|apply demo_mm_leaf]. split_and!; apply demo_mm_leaf.
  - rewrite demo_mm_free. lia.
Qed.
Lemma demo_mm_leaf_translate v : translate demo_pml4 demo_mm v = None.
Proof. rewrite translate_leaves. unfold leaf_translate. by rewrite !demo_mm_leaf. Qed.
Lemma Ramdisk_lifecycle_correct_witness :
  exists r k1 k2, Ramdisk_create demo_pml4 false 3 0 512 10 6 demo_km = Some (r, k1) /\ Ramdisk_destroy demo_pml4 r k1 = Some k2 /\
    translate demo_pml4 (km_phys k2) (buffer (rd_disk r)) = None.
Proof.
  destruct (Ramdisk_lifecycle_correct demo_pml4 false demo_km 0 512 10 6 3) as (r & k1 & k2 & fs & H1 & _ & _ & _ & _ & _ & _ & H2 & _ & H3 & _);
    [lia|lia|lia|exact demo_km_window|change ((512 * 10 + 4095) / 4096) with 2; lia|].
  exists r, k1, k2. split; [exact H1|]. split; [exact H2|]. rewrite H3. apply demo_mm_leaf_translate.
Defined.
Lemma Ramdisk_small_witness : exists r k1, Ramdisk_create demo_pml4 false 3 0 16 10 6 demo_km = Some (r, k1) /\ al_blocks (km_heap k1) !! 1000 = Some 160.
Proof.
  destruct (Ramdisk_small demo_pml4 false demo_km 0 16 10 6 3) as (r & k1 & k2 & H1 & _).
  - lia.
  - lia.
  - lia.
  - constructor; [by vm_compute|intros a k Hk; by destruct (lookup_empty_Some a k)|intros a k b l Hk; by destruct (lookup_empty_Some a k)].
  - by vm_compute.
  - exists r, k1. split; [exact H1|]. vm_compute in H1. injection H1 as <- <-. reflexivity.
Defined.
