(* ===== verification/Vfs.v ===== *)
(** * The virtual file system (src/driver/filesystem/vfs)

    Mounting, the choice of the file system of a path, and the open-file
    objects the virtual file system puts between its callers and the mounted
    file systems. *)

From S2P Require Import Prelude Mem Filesystem.

Record mount := mk_mount { where_ : path; source : path; fs : Z }.
(** An allocated __VirtualFilesystem_OpenFile. *)
Record open_file := mk_open { of_fs : Z; fspath : path; userhandle : Z }.
(** [root_fs] is 0 before a root is mounted; [opens] holds the open-file
    objects by address. *)
Record VirtualFilesystem := mk_vfs {
  root_fs : Z;
  mounts : list mount;
  opens : gmap Z open_file;
}.
Definition set_opens (o : gmap Z open_file) (v : VirtualFilesystem) : VirtualFilesystem := mk_vfs (root_fs v) (mounts v) o.

(** The loop that drops the trailing separators, on the reversed string. *)
Fixpoint strip_loop (r : path) : path :=
  match r with
  | [] => r
  | c :: r' => match r' with
               | [] => r
               | _ => if c =? Seperator then strip_loop r' else r
               end
  end.
Definition strip (where0 : path) : path := reverse (strip_loop (reverse where0)).
Definition Mount (where0 src : path) (fs : Z) (v : VirtualFilesystem) : Z * VirtualFilesystem :=
  if fs =? 0 then (- EINVAL, v)
  else if bool_decide (where0 = root_path) then (0, mk_vfs fs (mounts v) (opens v))
  else
    let m := mk_mount (strip where0) src fs in
    if existsb (fun x => bool_decide (where_ x = where_ m)) (mounts v) then (- EEXIST, v)
    else (0, mk_vfs (root_fs v) (mounts v ++ [m]) (opens v)).
Definition Umount (where0 : path) : Z := - ENOSYS.

(** [strncmp(where, path, where.Length()) == 0 && where.Length() > maxlen], with
    [maxlen] 1; the first mount that fits is taken. *)
Definition mount_fits (p : path) (m : mount) : bool :=
  bool_decide (take (length (where_ m)) p = where_ m) && (1 <? Z.of_nat (length (where_ m))).
Definition FilesystemOfPath (v : VirtualFilesystem) (p : path) : Z * path :=
  if bool_decide (p = root_path) then (root_fs v, p)
  else
    let '(f, maxlen) := match List.find (mount_fits p) (mounts v) with
                        | Some m => (fs m, length (where_ m))
                        | None => (root_fs v, 1%nat)
                        end in
    (f, if f =? root_fs v then p else drop maxlen p).

Section Vfs.
(** The mounted file system objects, by address; a null or dangling pointer is
    not one. *)
Variable objects : Z -> option filesystem.

(** [p] is the address [new] returns. *)
Definition __CreateOpenFile (v : VirtualFilesystem) (pa : path) : open_file :=
  let '(f, fspath) := FilesystemOfPath v pa in
  mk_open f (match fspath with [] => root_path | _ => fspath end) 0.
(** [garbage] is the uninitialised handle of the new object.  The test is
    [!(Capabilities() | Capability_NoOpen)], which is never true. *)
Definition vfs_Open (v : VirtualFilesystem) (pa : path) (handle p garbage : Z) : option (Z * Z * VirtualFilesystem) :=
  let o := __CreateOpenFile v pa in
  f ← objects (of_fs o);
  if Z.lor (Capabilities f) Capability_NoOpen =? 0 then
    let '(ret, h) := Open f (fspath o) garbage in
    if ret <? 0 then Some (ret, handle, v)
    else Some (0, p, set_opens (<[p := mk_open (of_fs o) (fspath o) h]> (opens v)) v)
  else Some (0, p, set_opens (<[p := mk_open (of_fs o) (fspath o) garbage]> (opens v)) v).
Definition vfs_Close (v : VirtualFilesystem) (handle : Z) : option (Z * VirtualFilesystem) :=
  o ← opens v !! handle;
  f ← objects (of_fs o);
  let ret := if Z.lor (Capabilities f) Capability_NoOpen =? 0 then Close f (fspath o) (userhandle o) else 0 in
  Some (ret, set_opens (delete handle (opens v)) v).

Definition vfs_Opendir (v : VirtualFilesystem) (pa : path) (handle p garbage : Z) : option (Z * Z * VirtualFilesystem) :=
  let o := __CreateOpenFile v pa in
  f ← objects (of_fs o);
  if Z.land (Capabilities f) Capability_NoOpen =? 0 then
    let '(ret, h) := Opendir f (fspath o) garbage in
    if ret <? 0 then Some (ret, handle, v)
    else Some (0, p, set_opens (<[p := mk_open (of_fs o) (fspath o) h]> (opens v)) v)
  else Some (0, p, set_opens (<[p := mk_open (of_fs o) (fspath o) garbage]> (opens v)) v).
Definition vfs_Readdir (v : VirtualFilesystem) (handle : Z) : option (Z * list (path * Stat)) :=
  o ← opens v !! handle;
  f ← objects (of_fs o);
  Some (Readdir f (fspath o) (userhandle o)).
Definition vfs_Closedir (v : VirtualFilesystem) (handle : Z) : option (Z * VirtualFilesystem) :=
  o ← opens v !! handle;
  f ← objects (of_fs o);
  let ret := if Z.lor (Capabilities f) Capability_NoOpen =? 0 then Closedir f (fspath o) (userhandle o) else 0 in
  Some (ret, set_opens (delete handle (opens v)) v).
Definition vfs_Ioctl (v : VirtualFilesystem) (m : mem) (cmd arg handle : Z) : option (Z * mem) :=
  o ← opens v !! handle;
  f ← objects (of_fs o);
  Ioctl f m (fspath o) cmd arg (userhandle o).
End Vfs.

(** ** The mount table *)

(** No two mounts have the same place, and none is null. *)
Record vfs_ok (v : VirtualFilesystem) : Prop := {
  vok_distinct : NoDup (where_ <$> mounts v);
  vok_fs : Forall (fun m => fs m <> 0) (mounts v);
}.

Lemma existsb_where (w : path) l : existsb (fun x => bool_decide (where_ x = w)) l = bool_decide (w ∈ (where_ <$> l)).
Proof.
  induction l as [|m l IH]; cbn [existsb fmap list_fmap].
  { symmetry. apply bool_decide_eq_false. apply not_elem_of_nil. }
  rewrite IH. destruct (decide (where_ m = w)) as [->|Hne].
  - rewrite bool_decide_true by done. symmetry. apply bool_decide_eq_true. by left.
  - rewrite bool_decide_false by done. cbn [orb]. apply bool_decide_ext. rewrite elem_of_cons. naive_solver.
Qed.
Lemma strip_loop_spec r : exists k, r = replicate k Seperator ++ strip_loop r /\
  (strip_loop r = [] \/ (exists c, strip_loop r = [c]) \/ exists c r', strip_loop r = c :: r' /\ c <> Seperator).
Proof.
  induction r as [|c r IH]; [exists 0%nat; split; [done|by left]|].
  destruct r as [|d r]; [exists 0%nat; split; [done|right; left; by exists c]|].
  change (strip_loop (c :: d :: r)) with (if c =? Seperator then strip_loop (d :: r) else c :: d :: r).
  destruct (Z.eqb_spec c Seperator) as [->|Hne].
  - destruct IH as (k & E & Hs). exists (S k). split; [|done]. cbn. by rewrite E at 1.
  - exists 0%nat. split; [done|]. right; right. by exists c, (d :: r).
Qed.

(** A path [p] is at or below the mount place [w]: [w] is a prefix of it. *)
Lemma mount_fits_spec p m :
  mount_fits p m = true <-> (exists rest, p = where_ m ++ rest) /\ (1 < length (where_ m))%nat.
Proof.
  unfold mount_fits. rewrite andb_true_iff, bool_decide_eq_true, Z.ltb_lt. split.
  - intros [Ht Hl]. split; [|lia]. exists (drop (length (where_ m)) p). rewrite <- Ht at 1. symmetry. apply take_drop.
  - intros [[rest ->] Hl]. split; [|lia]. by rewrite take_app_length.
Qed.
Lemma find_first {A} (f : A -> bool) l :
  match List.find f l with
  | Some x => exists l1 l2, l = l1 ++ x :: l2 /\ f x = true /\ Forall (fun y => f y = false) l1
  | None => Forall (fun y => f y = false) l
  end.
Proof.
  induction l as [|y l IH]; cbn [List.find]; [done|]. destruct (f y) eqn:E.
  - exists [], l. done.
  - destruct (List.find f l) as [x|]; [|by constructor].
    destruct IH as (l1 & l2 & -> & Hx & Hl). exists (y :: l1), l2. split_and!; [done|done|by constructor].
Qed.

Lemma find_last {A} (f : A -> bool) l x : Forall (fun y => f y = false) l -> f x = true -> List.find f (l ++ [x]) = Some x.
Proof. induction 1 as [|y l Hy _ IH]; intros Hx; cbn; [by rewrite Hx|by rewrite Hy, IH]. Qed.

(** * Properties *)


(** When no mount place is a prefix of another, a path belongs to the one
    mounted file system whose place is a prefix of it - the longest - and the
    rest of the path is the path inside it; to the root with the whole path
    when there is none.  The prefix need not end at a separator. *)
Theorem vfs_FilesystemOfPath_correct v p :
  vfs_ok v -> p <> root_path ->
  (forall m m', m ∈ mounts v -> m' ∈ mounts v -> where_ m `prefix_of` where_ m' -> m = m') ->
  Forall (fun m => fs m <> root_fs v) (mounts v) ->
  let '(f, rest) := FilesystemOfPath v p in
  (exists m, m ∈ mounts v /\ f = fs m /\ p = where_ m ++ rest /\ (1 < length (where_ m))%nat /\
     forall m', m' ∈ mounts v -> where_ m' `prefix_of` p -> (1 < length (where_ m'))%nat -> m' = m) \/
  (f = root_fs v /\ rest = p /\ forall m, m ∈ mounts v -> where_ m `prefix_of` p -> (length (where_ m) <= 1)%nat).
Proof.
  intros Hok Hp Hpre Hroot. unfold FilesystemOfPath. rewrite bool_decide_false by done.
  pose proof (find_first (mount_fits p) (mounts v)) as Hf. destruct (List.find _ _) as [m|].
  - destruct Hf as (l1 & l2 & El & Hm & _). apply mount_fits_spec in Hm as [[rest ->] Hl].
    assert (m ∈ mounts v) as Hin by (rewrite El; apply elem_of_app; right; by left).
    pose proof (proj1 (Forall_forall _ _) Hroot m Hin) as Hr. destruct (Z.eqb_spec (fs m) (root_fs v)); [done|].
    left. exists m. rewrite drop_app_length. split_and!; [done..|].
    intros m' Hin' Hpf Hl'. destruct (prefix_weak_total (where_ m') (where_ m) (where_ m ++ rest)) as [Hq|Hq]; [done|by exists rest| |].
    + by apply Hpre.
    + symmetry. by apply Hpre.
  - rewrite Z.eqb_refl. right. split_and!; [done..|]. intros m Hin [rest E].
    pose proof (proj1 (Forall_forall _ _) Hf m Hin) as Hm. cbv beta in Hm.
    destruct (decide (1 < length (where_ m))%nat) as [Hl|]; [|lia].
    rewrite (proj2 (mount_fits_spec p m)) in Hm; [done|]. split; [by exists rest|done].
Qed.
(** "/devices" with "/dev" mounted: the path inside is "ices". *)
Lemma vfs_FilesystemOfPath_correct_witness :
  let v := mk_vfs 1 [mk_mount [47; 100; 101; 118] [] 2] ∅ in
  FilesystemOfPath v [47; 100; 101; 118; 105; 99; 101; 115] = (2, [105; 99; 101; 115]) /\
  exists m, m ∈ mounts v /\ fs m = 2.
Proof.
  cbn zeta. set (v := mk_vfs 1 [mk_mount [47; 100; 101; 118] [] 2] ∅). set (p := [47; 100; 101; 118; 105; 99; 101; 115]).
  assert (FilesystemOfPath v p = (2, [105; 99; 101; 115])) as E by (vm_compute; reflexivity).
  split; [exact E|]. pose proof (vfs_FilesystemOfPath_correct v p) as H. rewrite E in H.
  destruct H as [(m & Hm & Hf & _)|(Hf & _)].
  - split; [apply NoDup_singleton|by repeat constructor].
  - discriminate.
  - intros m m' Hm Hm' _. apply list_elem_of_singleton in Hm, Hm'. congruence.
  - by repeat constructor.
  - exists m. split; [exact Hm|symmetry; exact Hf].
  - discriminate Hf.
Defined.

(** With nested places mounted from the outer one in, the inner file system
    is never reached: every path below both goes to the outer one, although
    the inner place is the longer match. *)
Theorem vfs_nested_mount_shadowed v m m' l1 l2 p :
  mounts v = l1 ++ m :: l2 -> (forall x, x ∈ l1 -> ~ where_ x `prefix_of` p) ->
  m' ∈ l2 -> where_ m `prefix_of` where_ m' -> where_ m' `prefix_of` p -> (1 < length (where_ m))%nat ->
  fs m <> root_fs v -> p <> root_path ->
  FilesystemOfPath v p = (fs m, drop (length (where_ m)) p).
Proof.
  intros El Hl1 _ Hmm' Hm'p Hl Hr Hp. unfold FilesystemOfPath. rewrite bool_decide_false by done.
  assert (List.find (mount_fits p) (mounts v) = Some m) as ->.
  { assert (mount_fits p m = true) as Hm.
    { apply mount_fits_spec. split; [|done]. destruct (transitivity Hmm' Hm'p) as [rest ->]. by exists rest. }
    rewrite El. clear El. induction l1 as [|x l1 IH]; cbn [app List.find]; [by rewrite Hm|].
    destruct (mount_fits p x) eqn:E.
    - apply mount_fits_spec in E as [[rest ->] _]. exfalso. apply (Hl1 x); [by left|by exists rest].
    - apply IH. intros y Hy. apply Hl1. by right. }
  by destruct (Z.eqb_spec (fs m) (root_fs v)).
Qed.
Lemma vfs_nested_mount_shadowed_witness :
  FilesystemOfPath (mk_vfs 1 [mk_mount [47; 97] [] 2; mk_mount [47; 97; 47; 98] [] 3] ∅) [47; 97; 47; 98; 47; 99]
    = (2, [47; 98; 47; 99]).
Proof.
  apply (vfs_nested_mount_shadowed _ (mk_mount [47; 97] [] 2) (mk_mount [47; 97; 47; 98] [] 3) [] [mk_mount [47; 97; 47; 98] [] 3]).
  - reflexivity.
  - intros x Hx. by apply not_elem_of_nil in Hx.
  - by left.
  - by exists [47; 98].
  - by exists [47; 99].
  - cbn. lia.
  - discriminate.
  - discriminate.
Defined.

Section Opens.
Variable objects : Z -> option filesystem.

(** Every object that Open and Opendir allocate is freed by Close and
    Closedir, and the table is as before; Open and Close never reach the
    mounted file system (the test of the capability is never true), Opendir
    calls it, on the path inside it, unless it is stateless. *)
Theorem vfs_Open_Close_roundtrip v pa handle p garbage f :
  opens v !! p = None ->
  let o := __CreateOpenFile v pa in
  objects (of_fs o) = Some f ->
  (exists v1, vfs_Open objects v pa handle p garbage = Some (0, p, v1) /\
     opens v1 = <[p := mk_open (of_fs o) (fspath o) garbage]> (opens v) /\
     vfs_Close objects v1 p = Some (0, v)) /\
  (let '(ret, h) := if Z.land (Capabilities f) Capability_NoOpen =? 0 then Opendir f (fspath o) garbage else (0, garbage) in
   if ret <? 0 then vfs_Opendir objects v pa handle p garbage = Some (ret, handle, v)
   else exists v1, vfs_Opendir objects v pa handle p garbage = Some (0, p, v1) /\
     vfs_Readdir objects v1 p = Some (Readdir f (fspath o) h) /\ vfs_Closedir objects v1 p = Some (0, v)).
Proof.
  intros Hp o Hf. assert (forall c, (Z.lor c Capability_NoOpen =? 0) = false) as Hor.
  { intros c. apply Z.eqb_neq. intros E. apply Z.lor_eq_0_iff in E as [_ E]. done. }
  assert (forall x, set_opens (delete p (<[p := x]> (opens v))) v = v) as Hdel.
  { intros x. rewrite delete_insert_id by done. by destruct v. }
  assert (forall h, let v1 := set_opens (<[p := mk_open (of_fs o) (fspath o) h]> (opens v)) v in
    vfs_Readdir objects v1 p = Some (Readdir f (fspath o) h) /\ vfs_Closedir objects v1 p = Some (0, v) /\
    vfs_Close objects v1 p = Some (0, v)) as Hc.
  { intros h v1. unfold vfs_Readdir, vfs_Closedir, vfs_Close. unfold v1. cbn [opens set_opens]. rewrite lookup_insert_eq.
    cbn [mbind option_bind of_fs fspath userhandle]. rewrite Hf. cbn [mbind option_bind]. rewrite Hor.
    change (set_opens (delete p (<[p:=mk_open (of_fs o) (fspath o) h]> (opens v))) _) with
      (set_opens (delete p (<[p:=mk_open (of_fs o) (fspath o) h]> (opens v))) v). by rewrite Hdel. }
  split.
  - unfold vfs_Open. fold o. rewrite Hf. cbn [mbind option_bind]. rewrite Hor. eexists. split_and!; [done|done|apply Hc].
  - unfold vfs_Opendir. fold o. rewrite Hf. cbn [mbind option_bind].
    destruct (Z.land (Capabilities f) Capability_NoOpen =? 0).
    + destruct (Opendir f (fspath o) garbage) as [ret h]. destruct (ret <? 0); [done|]. eexists. split; [done|]. split; apply Hc.
    + cbn [Z.ltb]. eexists. split; [done|]. split; apply Hc.
Qed.
End Opens.
Lemma vfs_Open_Close_roundtrip_witness :
  let objects := fun a => if a =? 1 then Some base_filesystem else None in
  let v := mk_vfs 1 [] ∅ in
  exists v1, vfs_Open objects v [47; 120] 0 4096 7 = Some (0, 4096, v1) /\ vfs_Close objects v1 4096 = Some (0, v).
Proof.
  cbn zeta. destruct (vfs_Open_Close_roundtrip (fun a => if a =? 1 then Some base_filesystem else None)
    (mk_vfs 1 [] ∅) [47; 120] 0 4096 7 base_filesystem) as [(v1 & H1 & _ & H2) _].
  - reflexivity.
  - vm_compute. reflexivity.
  - exists v1. split; [exact H1|exact H2].
Defined.
