(* ===== verification/Devfs.v ===== *)
(** * The device file system (src/driver/filesystem/devfs)

    The table of mounted devices with its dispatch of Read, Write and Ioctl to
    the callbacks of a device, and the frame buffer device.  The table is
    changed with interrupts off, so each operation is one step. *)

From S2P Require Import Prelude Mem Filesystem.

(** [const char *path, void *user, buffer, count, offset, file] and
    [path, user, cmd, arg, file]; the result is an [uintptr_t]. *)
Definition io_callback := mem -> path -> Z -> Z -> Z -> Z -> Z -> option (Z * mem).
Definition ioctl_callback := mem -> path -> Z -> Z -> Z -> Z -> option (Z * mem).

(** Null callbacks are [None]. *)
Record device := mk_device {
  d_path : path; d_read : option io_callback; d_write : option io_callback; d_ioctl : option ioctl_callback;
  d_user : Z; d_type : Z;
}.

(** The return value and the table. *)
Definition __InsertMount (d : device) (mounts : list device) : Z * list device :=
  if existsb (fun x => bool_decide (d_path x = d_path d)) mounts then (- EEXIST, mounts) else (0, mounts ++ [d]).
Definition MountCharacterIoctl (p : path) (user : Z) (ioctl : option ioctl_callback) (mounts : list device) : Z * list device :=
  __InsertMount (mk_device p None None ioctl user S_IFCHR) mounts.
Definition MountCharacter (p : path) (user : Z) (read write : option io_callback) (ioctl : option ioctl_callback) (mounts : list device)
    : Z * list device :=
  __InsertMount (mk_device p read write ioctl user S_IFCHR) mounts.
Definition MountBlock (p : path) (block : Z) (mounts : list device) : Z * list device := (- ENOSYS, mounts).
Definition devfs_Umount (p : path) (mounts : list device) : Z * list device := (- ENOSYS, mounts).

Definition devfs_Readdir (mounts : list device) (p : path) (handle : Z) : Z * list (path * Stat) :=
  if bool_decide (p = root_path)
  then (0, (fun d => (drop 1 (d_path d), mk_stat (Z.lor (d_type d) 0x1b6) 0 0 0 0 0 0 0)) <$> mounts)
  else (- ENOENT, []).
(** The first device of the path; a null ioctl callback is undefined behaviour. *)
Fixpoint devfs_Ioctl (mounts : list device) (m : mem) (p : path) (cmd arg file : Z) : option (Z * mem) :=
  match mounts with
  | [] => Some (u64 (- ENOENT), m)
  | d :: l =>
      if bool_decide (d_path d = p) then f ← d_ioctl d; f m p (d_user d) cmd arg file
      else devfs_Ioctl l m p cmd arg file
  end.
(** The first device of the path that has the callback; its result is cut to an
    [int]. *)
Fixpoint devfs_io (cb : device -> option io_callback) (mounts : list device) (m : mem) (p : path) (buffer count offset file : Z)
    : option (Z * mem) :=
  match mounts with
  | [] => Some (- ENOENT, m)
  | d :: l =>
      match (if bool_decide (d_path d = p) then cb d else None) with
      | Some f => '(r, m) ← f m p (d_user d) buffer count offset file; Some (i32 (u32 r), m)
      | None => devfs_io cb l m p buffer count offset file
      end
  end.
Definition devfs_Read : list device -> mem -> path -> Z -> Z -> Z -> Z -> option (Z * mem) := devfs_io d_read.
Definition devfs_Write : list device -> mem -> path -> Z -> Z -> Z -> Z -> option (Z * mem) := devfs_io d_write.

Definition DeviceFilesystem (mounts : list device) : filesystem := {|
  Capabilities := Capability_NoOpen;
  Getattr := Getattr base_filesystem;
  Readlink := Readlink base_filesystem;
  Mknod := Mknod base_filesystem;
  Mkdir := Mkdir base_filesystem;
  Unlink := Unlink base_filesystem;
  Rmdir := Rmdir base_filesystem;
  Symlink := Symlink base_filesystem;
  Rename := Rename base_filesystem;
  Link := Link base_filesystem;
  Chown := Chown base_filesystem;
  Chmod := Chmod base_filesystem;
  Truncate := Truncate base_filesystem;
  Open := Open base_filesystem;
  Read := devfs_Read mounts;
  Write := devfs_Write mounts;
  Fsync := Fsync base_filesystem;
  Close := Close base_filesystem;
  Opendir := Opendir base_filesystem;
  Readdir := devfs_Readdir mounts;
  Fsyncdir := Fsyncdir base_filesystem;
  Closedir := Closedir base_filesystem;
  Ioctl := devfs_Ioctl mounts;
|}.

(** ** The frame buffer device *)

Definition devfs_Framebuffer_ColorFormat_BGR : Z := 0.
Definition devfs_Framebuffer_Ioctl_GetStat : Z := 0.
(** devfs_Framebuffer_Stat: Width, Height, BitsPerPixel, ColorFormat. *)
Definition store_stat (m : mem) (p w h bpp format : Z) : mem :=
  store8 (store8 (store16 (store16 m p w) (p + 2) h) (p + 4) bpp) (p + 5) format.

Section Framebuffer.
(** graphics_SystemVideoMode.Width, Height and graphics_Framebuffer. *)
Variables (Width Height Framebuffer : Z).

Definition __Framebuffer_Ioctl : ioctl_callback := fun m p user cmd arg file =>
  if cmd =? devfs_Framebuffer_Ioctl_GetStat
  then if user =? 0
       then Some (0, store_stat m arg (u16 Width) (u16 Height) 4 devfs_Framebuffer_ColorFormat_BGR)
       else Some (u64 (- EINVAL), m)
  else Some (u64 (- EINVAL), m).
Definition __Framebuffer_Write : io_callback := fun m p user buffer count offset file =>
  if negb (offset mod 4 =? 0) || negb (count mod 4 =? 0) then Some (u64 (- EINVAL), m)
  else
    let xy := i32 (offset / 4) in
    let xy := if Width * Height <? xy then Width * Height else xy in
    let xyend := i32 (u64 (offset + count) / 4) in
    let xyend := if Width * Height <? xyend then Width * Height else xyend in
    Some (u64 ((xyend - xy) * 4), memcpy m (u64 (Framebuffer + xy * 4)) buffer (u64 ((xyend - xy) * 4))).
Definition __Framebuffer_Read : io_callback := fun m p user buffer count offset file => Some (u64 (- ENOSYS), m).

Definition fb0 : path := [47; 102; 98; 48].  (* "/fb0" *)
(** The loop of Init, for [i .. fbN]; the name built from [i] is only printed. *)
Fixpoint mount_loop (n : nat) (i : Z) (mounts : list device) : list device :=
  match n with
  | O => mounts
  | S n => mount_loop n (i + 1) (MountCharacter fb0 i (Some __Framebuffer_Read) (Some __Framebuffer_Write) (Some __Framebuffer_Ioctl) mounts).2
  end.
Definition Framebuffer_Init (fbN : Z) (mounts : list device) : list device :=
  mount_loop (Z.to_nat fbN) 1
    (MountCharacter fb0 0 (Some __Framebuffer_Read) (Some __Framebuffer_Write) (Some __Framebuffer_Ioctl) mounts).2.
End Framebuffer.

(** ** The table of devices *)

(** Elements of a list with distinct keys are told apart by their keys. *)
Lemma NoDup_fmap_elem {A K} (f : A -> K) l x y : NoDup (f <$> l) -> x ∈ l -> y ∈ l -> f x = f y -> x = y.
Proof.
  induction l as [|z l IH]; intros Hn Hx Hy E; [by apply not_elem_of_nil in Hx|].
  apply NoDup_cons in Hn as [Hz Hn].
  apply elem_of_cons in Hx as [->|Hx]; apply elem_of_cons in Hy as [->|Hy]; [done|..|by apply IH]; exfalso; apply Hz.
  - rewrite E. by apply list_elem_of_fmap_2.
  - rewrite <- E. by apply list_elem_of_fmap_2.
Qed.

Lemma existsb_path d l : existsb (fun x => bool_decide (d_path x = d_path d)) l = bool_decide (d_path d ∈ (d_path <$> l)).
Proof.
  induction l as [|x l IH]; cbn [existsb fmap list_fmap]; [by rewrite bool_decide_false by apply not_elem_of_nil|].
  rewrite IH. apply eq_true_iff_eq. rewrite orb_true_iff, !bool_decide_eq_true, elem_of_cons. naive_solver.
Qed.
Lemma InsertMount_spec d mounts :
  __InsertMount d mounts = if decide (d_path d ∈ (d_path <$> mounts)) then (- EEXIST, mounts) else (0, mounts ++ [d]).
Proof. unfold __InsertMount. rewrite existsb_path. by destruct (decide _); [rewrite bool_decide_true|rewrite bool_decide_false]. Qed.
Lemma mount_loop_idle W H F n : forall i mounts, fb0 ∈ (d_path <$> mounts) -> mount_loop W H F n i mounts = mounts.
Proof.
  induction n as [|n IH]; intros i mounts Hin; [done|]. cbn [mount_loop]. unfold MountCharacter. rewrite InsertMount_spec.
  rewrite decide_True by done. by apply IH.
Qed.
(** A path that has no device. *)
Lemma devfs_io_none cb mounts m p b c o f :
  (forall d, d ∈ mounts -> d_path d = p -> cb d = None) -> devfs_io cb mounts m p b c o f = Some (- ENOENT, m).
Proof.
  induction mounts as [|d l IH]; intros Hn; [done|]. cbn [devfs_io].
  case_bool_decide as E; [rewrite (Hn d (list_elem_of_here _ _) E)|]; apply IH; intros x Hx; apply Hn; by right.
Qed.
Lemma devfs_io_some cb mounts m p b c o f d g :
  NoDup (d_path <$> mounts) -> d ∈ mounts -> d_path d = p -> cb d = Some g ->
  devfs_io cb mounts m p b c o f = ('(r, m) ← g m p (d_user d) b c o f; Some (i32 (u32 r), m)).
Proof.
  induction mounts as [|x l IH]; intros Hn Hin Hp Hg; [by apply not_elem_of_nil in Hin|]. cbn [devfs_io fmap list_fmap] in *.
  apply NoDup_cons in Hn as [Hx Hn]. apply elem_of_cons in Hin as [->|Hin].
  - by rewrite bool_decide_true, Hg.
  - rewrite bool_decide_false; [by apply IH|]. intros E. apply Hx. rewrite E, <- Hp. by apply list_elem_of_fmap_2.
Qed.
Lemma devfs_Ioctl_some mounts m p cmd arg f d g :
  NoDup (d_path <$> mounts) -> d ∈ mounts -> d_path d = p -> d_ioctl d = Some g ->
  devfs_Ioctl mounts m p cmd arg f = g m p (d_user d) cmd arg f.
Proof.
  induction mounts as [|x l IH]; intros Hn Hin Hp Hg; [by apply not_elem_of_nil in Hin|]. cbn [devfs_Ioctl fmap list_fmap] in *.
  apply NoDup_cons in Hn as [Hx Hn]. apply elem_of_cons in Hin as [->|Hin].
  - by rewrite bool_decide_true, Hg.
  - rewrite bool_decide_false; [by apply IH|]. intros E. apply Hx. rewrite E, <- Hp. by apply list_elem_of_fmap_2.
Qed.

(** * Properties *)

(** C33. Mounted devices have distinct paths and an operation reaches the device
    of its path: mounting keeps the paths distinct and is refused exactly when
    the path is taken; the root directory lists every device, in the order of
    mounting, by its name behind the slash as a character device anyone may read
    and write, and no other directory is listed; Ioctl calls the device's callback with its own user
    pointer, and Write and Read call theirs when the device has them and return
    its result as an [int], -ENOENT when it has none or the path has no
    device. *)
Theorem devfs_dispatch_correct mounts d :
  NoDup (d_path <$> mounts) ->
  (let '(ret, mounts') := __InsertMount d mounts in
   NoDup (d_path <$> mounts') /\ (ret = 0 <-> d_path d ∉ (d_path <$> mounts)) /\
   (mounts' = if ret =? 0 then mounts ++ [d] else mounts)) /\
  (forall p handle, p <> [47] -> devfs_Readdir mounts p handle = (- ENOENT, [])) /\
  (forall handle, exists l, devfs_Readdir mounts [47] handle = (0, l) /\ length l = length mounts /\
     forall i e name, mounts !! i = Some e -> d_path e = 47 :: name -> exists st, l !! i = Some (name, st) /\
       (d_type e = 0x2000 -> Mode st = 0x21b6)) /\
  (d ∈ mounts -> forall m x y z f,
     (forall g, d_ioctl d = Some g -> devfs_Ioctl mounts m (d_path d) x y f = g m (d_path d) (d_user d) x y f) /\
     devfs_Write mounts m (d_path d) x y z f =
       match d_write d with
       | Some g => '(r, m) ← g m (d_path d) (d_user d) x y z f; Some (i32 (u32 r), m)
       | None => Some (- ENOENT, m)
       end /\
     devfs_Read mounts m (d_path d) x y z f =
       match d_read d with
       | Some g => '(r, m) ← g m (d_path d) (d_user d) x y z f; Some (i32 (u32 r), m)
       | None => Some (- ENOENT, m)
       end).
Proof.
  intros Hn. split_and!.
  - rewrite InsertMount_spec. destruct (decide _) as [Hin|Hin].
    + split_and!; [done| |done]. split; [done|]. by intros ?.
    + split_and!; [|by split|done]. rewrite fmap_app. apply NoDup_app. split_and!; [done| |apply NoDup_singleton].
      intros x Hx ->%list_elem_of_singleton. done.
  - intros p handle Hp. unfold devfs_Readdir. by rewrite bool_decide_false.
  - intros handle. eexists. split; [unfold devfs_Readdir; by rewrite bool_decide_true|]. split; [apply length_fmap|].
    intros i e name Hi He. eexists. rewrite list_lookup_fmap, Hi. cbn [fmap option_fmap option_map]. rewrite He. split; [reflexivity|].
    by intros ->.
  - intros Hd m x y z f. split_and!; [intros g; by apply devfs_Ioctl_some|..].
    + destruct (d_write d) as [g|] eqn:E; [by eapply devfs_io_some|]. apply devfs_io_none.
      intros e He Ee. assert (e = d) as ->; [|done]. by apply (NoDup_fmap_elem d_path mounts e d).
    + destruct (d_read d) as [g|] eqn:E; [by eapply devfs_io_some|]. apply devfs_io_none.
      intros e He Ee. assert (e = d) as ->; [|done]. by apply (NoDup_fmap_elem d_path mounts e d).
Qed.
Lemma devfs_dispatch_correct_witness :
  let d := mk_device fb0 None (Some (__Framebuffer_Write 2 2 4096)) (Some (__Framebuffer_Ioctl 2 2)) 0 S_IFCHR in
  (__InsertMount d []).1 = 0 /\ (__InsertMount d [d]).1 = - EEXIST /\
  (exists l st, devfs_Readdir [d] [47] 0 = (0, l) /\ l !! O = Some ([102; 98; 48], st) /\ Mode st = 0x21b6) /\
  devfs_Write [d] (fun a => a) fb0 100 4 4 0 = Some (4, memcpy (fun a => a) 4100 100 4) /\
  devfs_Read [d] (fun a => a) fb0 100 4 4 0 = Some (- ENOENT, fun a => a).
Proof.
  cbn zeta. set (d := mk_device fb0 None _ _ 0 S_IFCHR).
  destruct (devfs_dispatch_correct [d] d (NoDup_singleton _)) as (_ & _ & Hl & H). destruct (Hl 0) as (l & El & _ & Hn). destruct (Hn O d [102; 98; 48] eq_refl eq_refl) as (st & Est & Hst).
  destruct (H (list_elem_of_here _ _) (fun a => a) 100 4 4 0) as (_ & Hw & Hr).
  split; [reflexivity|]. split; [reflexivity|]. split; [exists l, st; split; [exact El|split; [exact Est|exact (Hst eq_refl)]]|].
  split; [exact Hw|exact Hr].
Defined.

(** A write to the frame buffer, of whole pixels below byte [2 ^ 33], copies
    the part inside the screen to its place in the frame buffer and returns its
    length; a write of part of a pixel changes nothing and is -EINVAL. *)
Theorem framebuffer_Write_correct W H fb m p user buffer count offset file :
  0 <= W * H < 2 ^ 29 -> 0 <= fb -> fb + 4 * (W * H) < 2 ^ 64 -> 0 <= offset -> 0 <= count -> offset + count < 2 ^ 33 ->
  __Framebuffer_Write W H fb m p user buffer count offset file =
    if (offset mod 4 =? 0) && (count mod 4 =? 0) then
      let from := Z.min offset (4 * (W * H)) in
      let n := Z.min (offset + count) (4 * (W * H)) - from in
      Some (n, memcpy m (fb + from) buffer n)
    else Some (2 ^ 64 - EINVAL, m).
Proof.
  change (2 ^ 29) with 536870912. change (2 ^ 33) with 8589934592. change (2 ^ 64) with 18446744073709551616.
  intros HW Hf Hr Ho Hc Hoc. unfold __Framebuffer_Write. generalize dependent (W * H). intros N HN Hr.
  destruct (Z.eqb_spec (offset mod 4) 0) as [E1|], (Z.eqb_spec (count mod 4) 0) as [E2|]; cbn [negb orb andb]; try done.
  rewrite (u64_small (offset + count)), !i32_small by lia.
  set (a := if N <? offset / 4 then N else offset / 4). set (b := if N <? (offset + count) / 4 then N else (offset + count) / 4).
  assert (4 * a = Z.min offset (4 * N) /\ 4 * b = Z.min (offset + count) (4 * N)) as [Ea Eb].
  { unfold a, b. split; destruct (Z.ltb_spec N (offset / 4)); destruct (Z.ltb_spec N ((offset + count) / 4)); lia. }
  clearbody a b. rewrite !u64_small by lia. f_equal. f_equal; [lia|]. f_equal; lia.
Qed.
Lemma framebuffer_Write_correct_witness :
  __Framebuffer_Write 2 2 4096 (fun a => a) fb0 0 100 16 8 0 = Some (8, memcpy (fun a => a) 4104 100 8).
Proof. rewrite framebuffer_Write_correct by (cbn; lia). reflexivity. Defined.

(** The pixel number is cut to an [int]: a write at [2 ^ 34 - 4 k] puts the
    [4 k] bytes of the caller just before the frame buffer. *)
Theorem framebuffer_Write_before W H fb m p user buffer file k :
  0 < k <= 2 ^ 29 -> 0 <= W * H -> 4 * k <= fb < 2 ^ 64 ->
  __Framebuffer_Write W H fb m p user buffer (4 * k) (2 ^ 34 - 4 * k) file = Some (4 * k, memcpy m (fb - 4 * k) buffer (4 * k)).
Proof.
  change (2 ^ 29) with 536870912. change (2 ^ 34) with 17179869184. change (2 ^ 64) with 18446744073709551616.
  intros Hk HN Hf. unfold __Framebuffer_Write. generalize dependent (W * H). intros N HN.
  replace (17179869184 - 4 * k + 4 * k) with 17179869184 by lia.
  replace ((17179869184 - 4 * k) / 4) with (4294967296 - k) by lia.
  replace ((17179869184 - 4 * k) mod 4) with 0 by lia. replace (4 * k mod 4) with 0 by lia. cbn [Z.eqb negb orb].
  replace (i32 (4294967296 - k)) with (- k) by (unfold i32; lia).
  replace (i32 (u64 17179869184 / 4)) with 0 by done.
  rewrite (proj2 (Z.ltb_ge N (- k))), (proj2 (Z.ltb_ge N 0)) by lia.
  rewrite !u64_small by lia. f_equal. f_equal; [lia|]. f_equal; lia.
Qed.
Lemma framebuffer_Write_before_witness :
  __Framebuffer_Write 2 2 4096 (fun a => a) fb0 0 100 8 17179869176 0 = Some (8, memcpy (fun a => a) 4088 100 8).
Proof. apply (framebuffer_Write_before 2 2 4096 (fun a => a) fb0 0 100 0 2); cbn; lia. Defined.

(** Only the first frame buffer is mounted: after Init, for any number of
    further ones, exactly "/fb0" was added, with user pointer 0. *)
Theorem framebuffer_Init_one W H fb N mounts :
  fb0 ∉ (d_path <$> mounts) ->
  Framebuffer_Init W H fb N mounts =
    mounts ++ [mk_device fb0 (Some __Framebuffer_Read) (Some (__Framebuffer_Write W H fb)) (Some (__Framebuffer_Ioctl W H)) 0 S_IFCHR].
Proof.
  intros Hn. unfold Framebuffer_Init, MountCharacter. rewrite InsertMount_spec, decide_False by done. cbn [snd].
  apply mount_loop_idle. rewrite fmap_app. apply elem_of_app. right. by left.
Qed.
Lemma framebuffer_Init_one_witness : d_path <$> Framebuffer_Init 2 2 4096 3 [] = [fb0].
Proof. rewrite framebuffer_Init_one; [reflexivity|]. cbn. apply not_elem_of_nil. Defined.
