(* ===== verification/Layout.v ===== *)
(** * Packed structures

    A packed structure is the list of its fields; a member access is a
    little-endian load at the member's offset. *)

From Stdlib Require Import Ascii String.
From S2P Require Import Prelude Mem.

(** Field names and their widths in bytes, in order. *)
Definition layout : Type := list (string * nat).
Definition sizeof (l : layout) : Z := Z.of_nat (list_sum (snd <$> l)).
Fixpoint field (l : layout) (name : string) : option (Z * nat) :=
  match l with
  | [] => None
  | (x, w) :: l =>
      if String.eqb x name then Some (0, w)
      else match field l name with Some (o, w') => Some (o + Z.of_nat w, w') | None => None end
  end.
(** [p->name] for a pointer to the structure. *)
Definition get (m : mem) (p : Z) (l : layout) (name : string) : Z :=
  match field l name with Some (o, w) => load w m (p + o) | None => 0 end.
Definition offsetof (l : layout) (name : string) : option Z := fst <$> field l name.
