(* ===== verification/Ustar.v ===== *)
(** * The read-only TAR file system (src/driver/filesystem/ustar)

    Parsing of the archive on a block device into the table of files, and the
    file operations on that table. *)

From Stdlib Require Import Ascii String.
From S2P Require Import Prelude Mem CString Layout Filesystem.

Definition __USTAR_Metadata : layout := [
  ("filename", 100); ("filemode", 8); ("owner", 8); ("group", 8); ("size", 12); ("lastmodify", 12);
  ("checksum", 8); ("type", 1); ("linkname", 100); ("magic", 6); ("version", 2); ("ownername", 32);
  ("groupname", 32); ("deviceMajor", 8); ("deviceMinor", 8); ("prefix", 155)]%string%nat.
Definition __USTAR_Magic : list Z := [117; 115; 116; 97; 114].  (* "ustar" *)
Definition __USTAR_Version : list Z := [48; 48].                (* "00" *)

Definition __USTAR_Type_NormalFile : Z := 48.
Definition __USTAR_Type_HardLink : Z := 49.
Definition __USTAR_Type_SymbolicLink : Z := 50.
Definition __USTAR_Type_CharacterDevice : Z := 51.
Definition __USTAR_Type_BlockDevice : Z := 52.
Definition __USTAR_Type_Directory : Z := 53.
Definition __USTAR_Type_FIFO : Z := 54.

Record __USTAR_File := mk_file {
  offset : Z; filename : path; linkname : option path; size : Z; lastmodify : Z; mode : Z; owner : Z; group : Z;
}.

(** A plain [char] is signed. *)
Definition i8 (c : Z) : Z := (c + 128) mod 256 - 128.
Definition decodeOctets (str : list Z) : Z := foldl (fun v c => u64 (v * 8 + i8 c - 48)) 0 str.
Definition roundupBlocks (size : Z) : Z := u64 (size + 511) / 512.

(** The address of a member. *)
Definition member (p : Z) (name : string) : Z := p + match offsetof __USTAR_Metadata name with Some o => o | None => 0 end.
(** [strcmp(a, lit) == 0] and [strncmp(a, lit, n) == 0] for a literal. *)
Definition str_is (m : mem) (a : Z) (lit : list Z) : bool := bool_decide (bytes m a (Z.of_nat (length lit) + 1) = lit ++ [0]).
Definition strn_is (m : mem) (a : Z) (lit : list Z) : bool := bool_decide (bytes m a (Z.of_nat (length lit)) = lit).
Definition has_magic (m : mem) (meta : Z) : bool :=
  str_is m (member meta "magic") __USTAR_Magic && strn_is m (member meta "version") __USTAR_Version.

(** The name: separator, prefix and filename, less one trailing separator. *)
Definition full_name (prefix filename : path) : path :=
  let s := Seperator :: prefix ++ filename in
  match last s with Some c => if c =? Seperator then take (length s - 1) s else s | None => s end.
(** The switch on the type: mode, size and link. *)
Definition file_kind (type mode size : Z) (link : path) : Z * Z * option path :=
  if (type =? 0) || (type =? __USTAR_Type_NormalFile) then (Z.land mode S_IFREG, size, None)
  else if type =? __USTAR_Type_HardLink then (mode, 0, None)
  else if type =? __USTAR_Type_SymbolicLink then (Z.land mode S_IFLNK, 0, Some link)
  else if type =? __USTAR_Type_CharacterDevice then (Z.land mode S_IFCHR, 0, None)
  else if type =? __USTAR_Type_BlockDevice then (Z.land mode S_IFBLK, 0, None)
  else if type =? __USTAR_Type_Directory then (Z.land mode S_IFDIR, 0, None)
  else if type =? __USTAR_Type_FIFO then (Z.land mode S_IFIFO, 0, None)
  else (mode, 0, None).
(** One header: the body of the loop, for block [i].  [sf] bounds the length of
    the strings read. *)
Definition parse_file (sf : nat) (m : mem) (meta i : Z) : option __USTAR_File :=
  name ← cstring sf m (member meta "filename");
  prefix ← cstring sf m (member meta "prefix");
  ow ← cstring sf m (member meta "owner");
  gr ← cstring sf m (member meta "group");
  lm ← cstring sf m (member meta "lastmodify");
  fm ← cstring sf m (member meta "filemode");
  sz ← cstring sf m (member meta "size");
  ln ← cstring sf m (member meta "linkname");
  let '(mo, s, link) := file_kind (load8 m (member meta "type")) (Z.land (u16 (decodeOctets fm)) 0x1ff) (decodeOctets sz) ln in
  Some (mk_file (i + 1) (full_name prefix name) link s (decodeOctets lm) mo (u16 (decodeOctets ow)) (u16 (decodeOctets gr))).

Section Device.
Context {B : Type} `{BlockDevice B}.

(** The loop of [AllocateBlock]; the inner [None] is the null result.  [i] is
    an [int], compared with the unsigned size of the device. *)
Fixpoint allocate_loop (fuel sf : nat) (d : B) (m : mem) (buf i : Z) (files : list __USTAR_File)
    : option (option (list __USTAR_File) * mem) :=
  match fuel with
  | O => None
  | S fuel =>
      if u64 i <? bd_Size d then
        let m := (bd_ReadBlock d m (u64 i) buf 1).2 in
        if negb (has_magic m buf) then Some (if i =? 0 then None else Some files, m)
        else
          f ← parse_file sf m buf i;
          allocate_loop fuel sf d m buf (i32 (u64 (i + u64 (roundupBlocks (size f) + 1)))) (files ++ [f])
      else Some (Some files, m)
  end.
Definition USTAR_AllocateBlock (fuel sf : nat) (d : B) (m : mem) (buf : Z) := allocate_loop fuel sf d m buf 0 [].

(** The loop of [Read]: it reads no blocks, from the start of the device. *)
Fixpoint read_loop (fuel : nat) (d : B) (m : mem) (buffer buf i offset realsize bufoff : Z) : option mem :=
  match fuel with
  | O => None
  | S fuel =>
      if u64 i <=? u64 (offset + realsize - 1) / 512 then
        let m := (bd_ReadBlock d m (u64 i) buf 0).2 in
        let m := memcpy m (buffer + bufoff) (buf + offset mod 512) (512 - offset mod 512) in
        let bufoff := u64 ((offset / 512 + 1) * 512 - offset) in
        read_loop fuel d m buffer buf (i32 (i + 1)) (u64 (offset + bufoff)) realsize bufoff
      else Some m
  end.
Definition USTAR_Read (fuel : nat) (d : B) (m : mem) (f : __USTAR_File) (buffer buf count offset : Z) : option (Z * mem) :=
  let realsize := if u64 (size f - offset) <? count then u64 (size f - offset) else count in
  m ← read_loop fuel d m buffer buf (i32 (offset / 512)) offset realsize 0;
  Some (i32 (u32 realsize), m).
End Device.

(** ** Operations on the table *)

Definition ustar_Stat (f : __USTAR_File) : Stat :=
  mk_stat (mode f) 0 (owner f) (group f) (size f) (roundupBlocks (size f)) 0 (lastmodify f).
(** The index and the file of a name: the first match. *)
Fixpoint lookup_file (files : list __USTAR_File) (p : path) (i : Z) : option (Z * __USTAR_File) :=
  match files with
  | [] => None
  | f :: l => if bool_decide (filename f = p) then Some (i, f) else lookup_file l p (i + 1)
  end.
(** The Stat of "/" has only its mode set; [garbage] are the other members. *)
Definition USTAR_Getattr (files : list __USTAR_File) (p : path) (garbage : Stat) : Z * Stat :=
  if bool_decide (p = root_path)
  then (0, mk_stat (Z.lor S_IFDIR 0x1ed) (NumLinks garbage) (Uid garbage) (Gid garbage) (Size garbage) (Blocks garbage)
             (TimeAccess garbage) (TimeModification garbage))
  else match lookup_file files p 0 with
       | Some (_, f) => (0, ustar_Stat f)
       | None => (- ENOENT, garbage)
       end.
(** The return value and the bytes copied. *)
Definition USTAR_Readlink (files : list __USTAR_File) (p : path) (bufferSize : Z) : Z * list Z :=
  match lookup_file files p 0 with
  | Some (_, f) =>
      match linkname f with
      | Some l =>
          if negb (Z.land (mode f) S_IFMT =? S_IFLNK) then (- EINVAL, [])
          else
            let linklen := Z.of_nat (length l) in
            if bufferSize <? linklen then (i32 (u32 linklen), take (Z.to_nat bufferSize) l)
            else (0, if linklen <? bufferSize then l ++ [0] else l)
      | None => (- EINVAL, [])
      end
  | None => (- ENOENT, [])
  end.
Definition USTAR_Open (files : list __USTAR_File) (p : path) (handle : Z) : Z * Z :=
  match lookup_file files p 0 with
  | Some (i, f) =>
      if (Z.land (mode f) S_IFMT =? S_IFLNK) || (Z.land (mode f) S_IFMT =? S_IFDIR) then (- EINVAL, handle) else (0, i)
  | None => (- ENOENT, handle)
  end.
Definition USTAR_Opendir (files : list __USTAR_File) (p : path) (handle : Z) : Z * Z :=
  if bool_decide (p = root_path) then (0, Z.of_nat (length files))
  else match lookup_file files p 0 with
       | Some (i, f) => if negb (Z.land (mode f) S_IFMT =? S_IFDIR) then (- EINVAL, handle) else (0, i)
       | None => (- ENOENT, handle)
       end.
(** The name of a direct child of [p]: what follows [p] and a separator, when
    no other separator follows. *)
Definition child_name (p name : path) : option path :=
  if bool_decide (take (length p) name = p) && bool_decide (name !! length p = Some Seperator)
  then if existsb (Z.eqb Seperator) (drop (length p + 1) name) then None else Some (drop (length p + 1) name)
  else None.
Fixpoint readdir_loop (files : list __USTAR_File) (p : path) (handle i : Z) : list (path * Stat) :=
  match files with
  | [] => []
  | f :: l =>
      (if i =? handle then []
       else match child_name p (filename f) with Some n => [(n, ustar_Stat f)] | None => [] end) ++
      readdir_loop l p handle (i + 1)
  end.
Definition USTAR_Readdir (files : list __USTAR_File) (p : path) (handle : Z) : Z * list (path * Stat) :=
  (0, readdir_loop files (if bool_decide (p = root_path) then [] else p) handle 0).
(** The operations of a read-only file system: Mknod, Unlink, Rmdir, Symlink,
    Rename, Link, Chown, Chmod, Truncate and Write. *)
Definition USTAR_modify : Z := - EROFS.
(** The object: its virtual methods, on a device [d] with the local buffer of a
    read at [buf].  A handle outside the table is undefined behaviour. *)
Definition USTAR {B} `{BlockDevice B} (fuel : nat) (d : B) (buf : Z) (files : list __USTAR_File) : filesystem := {|
  Capabilities := 0;
  Getattr := USTAR_Getattr files;
  Readlink := USTAR_Readlink files;
  Mknod _ _ := USTAR_modify;
  Mkdir := Mkdir base_filesystem;
  Unlink _ := USTAR_modify;
  Rmdir _ := USTAR_modify;
  Symlink _ _ := USTAR_modify;
  Rename _ _ _ := USTAR_modify;
  Link _ _ := USTAR_modify;
  Chown _ _ _ := USTAR_modify;
  Chmod _ _ := USTAR_modify;
  Truncate _ _ := USTAR_modify;
  Open := USTAR_Open files;
  Read m p buffer count offset h := f ← files !! Z.to_nat h; USTAR_Read fuel d m f buffer buf count offset;
  Write m _ _ _ _ _ := Some (USTAR_modify, m);
  Fsync := Fsync base_filesystem;
  Close _ _ := 0;
  Opendir := USTAR_Opendir files;
  Readdir := USTAR_Readdir files;
  Fsyncdir := Fsyncdir base_filesystem;
  Closedir _ _ := 0;
  Ioctl := Ioctl base_filesystem;
|}.
