(* ===== verification/UstarProps.v ===== *)
(** * Properties of the TAR file system

    Archives are stated as the standard has them, apart from the code: typed
    entries with numbers in octal fields at the places of the format.  Parsing
    finds exactly their files; directories list exactly their direct children;
    octal numbers are read back; and what is lost on the way: the type bits of
    every mode, the separator behind a prefix, and every read. *)

From Stdlib Require Import Ascii String.
From S2P Require Import Prelude Mem CString Layout Filesystem Ustar.

(** ** Octal numbers *)

(** The [k] octal digits of a number. *)
Fixpoint octal (k : nat) (n : Z) : list Z :=
  match k with O => [] | S k => octal k (n / 8) ++ [48 + n mod 8] end.

Lemma decodeOctets_octal k : forall n, 0 <= n < 8 ^ Z.of_nat k -> (k <= 21)%nat -> decodeOctets (octal k n) = n.
Proof.
  unfold decodeOctets. induction k as [|k IH]; intros n Hn Hk; cbn [octal]; [cbn in *; lia|].
  rewrite foldl_app, IH by (rewrite Nat2Z.inj_succ, Z.pow_succ_r in Hn; lia).
  cbn [foldl]. assert (i8 (48 + n mod 8) = 48 + n mod 8) as -> by (unfold i8; lia).
  assert (8 ^ Z.of_nat (S k) <= 8 ^ 21) by (apply Z.pow_le_mono_r; lia).
  rewrite u64_small; [lia|]. change (8 ^ 21) with 9223372036854775808 in *. lia.
Qed.

(** ** Archives

    The ustar format of POSIX: blocks of 512 bytes, a header for every file with
    its data behind it.  A header's numbers are in octal digits, closed by a zero
    byte; its fields are at the places the standard gives them. *)

Inductive tar_type := TRegular | THardLink | TSymbolicLink | TCharacter | TBlock | TDirectory | TFifo.
(** The bytes of a type; a regular file has two. *)
Definition type_bytes (t : tar_type) : list Z :=
  match t with
  | TRegular => [0; 48] | THardLink => [49] | TSymbolicLink => [50] | TCharacter => [51] | TBlock => [52]
  | TDirectory => [53] | TFifo => [54]
  end.
Record entry := mk_entry {
  e_type : tar_type; e_prefix : path; e_name : path; e_mode : Z; e_owner : Z; e_group : Z; e_size : Z; e_mtime : Z; e_link : path;
}.
(** A string shorter than its field, at an offset of the header. *)
Definition text_field (m : mem) (meta offset : Z) (width : nat) (s : list Z) : Prop :=
  cstr m (meta + offset) s /\ (length s < width)%nat.
Definition octal_field (m : mem) (meta offset : Z) (width : nat) (n : Z) : Prop :=
  exists k, 0 <= n < 8 ^ Z.of_nat k /\ text_field m meta offset width (octal k n).
Definition ustar_block (m : mem) (meta : Z) : Prop :=
  bytes m (meta + 257) 8 = [117; 115; 116; 97; 114; 0; 48; 48].  (* "ustar", a zero, "00" *)
#[export] Instance ustar_block_dec m meta : Decision (ustar_block m meta) := decide_rel eq _ _.
(** The header of an entry is at [meta]; the numbers of its owner and group have
    16 bits. *)
Record entry_at (m : mem) (meta : Z) (e : entry) : Prop := {
  ea_name : text_field m meta 0 100 (e_name e);
  ea_mode : octal_field m meta 100 8 (e_mode e);
  ea_owner : octal_field m meta 108 8 (e_owner e) /\ e_owner e < 2 ^ 16;
  ea_group : octal_field m meta 116 8 (e_group e) /\ e_group e < 2 ^ 16;
  ea_size : octal_field m meta 124 12 (e_size e);
  ea_mtime : octal_field m meta 136 12 (e_mtime e);
  ea_type : load8 m (meta + 156) ∈ type_bytes (e_type e);
  ea_link : text_field m meta 157 100 (e_link e);
  ea_magic : ustar_block m meta;
  ea_prefix : text_field m meta 345 155 (e_prefix e);
}.

(** Only regular files have data, in whole blocks. *)
Definition data_size (e : entry) : Z := match e_type e with TRegular => e_size e | _ => 0 end.
Definition blocks_for (n : Z) : Z := - (- n / 512).
Definition without_slash (p : path) : path := if decide (last p = Some Seperator) then removelast p else p.
(** What the standard says the file is called and what it is. *)
Definition standard_path (e : entry) : path :=
  without_slash (Seperator :: (if decide (e_prefix e = []) then e_name e else e_prefix e ++ Seperator :: e_name e)).
Definition type_mode (t : tar_type) : Z :=
  match t with
  | TRegular | THardLink => 0x8000 | TSymbolicLink => 0xA000 | TCharacter => 0x2000 | TBlock => 0x6000 | TDirectory => 0x4000 | TFifo => 0x1000
  end.
Definition standard_mode (e : entry) : Z := type_mode (e_type e) + e_mode e mod 8 ^ 3.
(** The file that is made of an entry whose header is block [i].  Two members are
    not the standard's: a prefix is joined to the name without a separator, and the
    mode of a file is 0, but that of a hard link, which has only its permissions
    ([deviates]). *)
Definition file_of (e : entry) (i : Z) : __USTAR_File :=
  mk_file (i + 1) (without_slash (Seperator :: e_prefix e ++ e_name e))
    (match e_type e with TSymbolicLink => Some (e_link e) | _ => None end)
    (data_size e) (e_mtime e) (match e_type e with THardLink => e_mode e mod 8 ^ 3 | _ => 0 end) (e_owner e) (e_group e).
Definition next_block (e : entry) (i : Z) : Z := i + 1 + blocks_for (data_size e).
(** The entries stored from block [i] of [n] on, at [base]: up to the end of the
    device or a block without the magic. *)
Fixpoint archive (m : mem) (base n i : Z) (es : list entry) : Prop :=
  match es with
  | [] => i = n \/ i < n /\ 0 < i /\ ~ ustar_block m (base + 512 * i)
  | e :: es => i < n /\ entry_at m (base + 512 * i) e /\ next_block e i <= n /\ archive m base n (next_block e i) es
  end.
Fixpoint files_of (i : Z) (es : list entry) : list __USTAR_File :=
  match es with [] => [] | e :: es => file_of e i :: files_of (next_block e i) es end.

(** What the file has of its entry and what not. *)
Record deviates (e : entry) (f : __USTAR_File) : Prop := {
  dv_plain : e_prefix e = [] -> filename f = standard_path e;
  dv_prefix : e_prefix e <> [] -> e_name e <> [] -> filename f <> standard_path e;
  dv_mode : 0 <= e_mode e -> mode f <> standard_mode e;
}.
Lemma length_without_slash p q : last p = last q -> length q = S (length p) -> p <> [] -> without_slash p <> without_slash q.
Proof.
  intros El En Hp E. apply (f_equal length) in E. revert E. unfold without_slash. rewrite <- El. case_decide; [|lia].
  destruct p as [|x p]; [done|]. destruct q as [|y q]; [done|]. rewrite !removelast_firstn_len, !length_take. cbn [length pred] in *. lia.
Qed.
Lemma entry_deviates e i : deviates e (file_of e i).
Proof.
  constructor; unfold file_of, standard_path, standard_mode; cbn [filename mode].
  - intros E. by rewrite decide_True, E by done.
  - intros Hp Hn. rewrite decide_False by done. apply length_without_slash; [|cbn [length]; rewrite !length_app; cbn [length]; lia|done].
    destruct (e_name e) as [|x n] using rev_ind; [done|].
    change (Seperator :: e_prefix e ++ n ++ [x]) with ([Seperator] ++ e_prefix e ++ n ++ [x]).
    change (Seperator :: e_prefix e ++ Seperator :: n ++ [x]) with ([Seperator] ++ e_prefix e ++ [Seperator] ++ n ++ [x]).
    by rewrite !app_assoc, !last_snoc.
  - intros Hm. change (8 ^ 3) with 512. unfold type_mode. destruct (e_type e); lia.
Qed.

(** *** Reading one block *)

Definition same_block (m m' : mem) (a b : Z) : Prop := forall k, 0 <= k < 512 -> m' (b + k) = m (a + k).

Lemma cstr_shift m m' s : forall a b,
  (forall k, 0 <= k <= Z.of_nat (length s) -> m' (b + k) = m (a + k)) -> cstr m a s -> cstr m' b s.
Proof.
  induction s as [|c s IH]; intros a b Hk; cbn [cstr length] in *; unfold load8; pose proof (Hk 0) as H0; rewrite !Z.add_0_r in H0.
  - by rewrite H0 by lia.
  - intros (? & ? & ?). rewrite H0 by lia. split_and!; [done..|]. eapply IH; [|done]. intros k Hk'.
    rewrite <- !Z.add_assoc. apply Hk. lia.
Qed.
Lemma bytes_shift m m' a b n : (forall k, 0 <= k < n -> m' (b + k) = m (a + k)) -> bytes m' b n = bytes m a n.
Proof. intros Hk. apply tab_ext. intros i Hi. unfold load8. by rewrite Hk. Qed.
Lemma ustar_block_shift m m' a b : same_block m m' a b -> ustar_block m' b <-> ustar_block m a.
Proof.
  intros Hb. unfold ustar_block. rewrite (bytes_shift m m' (a + 257) (b + 257)); [done|].
  intros k Hk. rewrite <- !Z.add_assoc. apply Hb. lia.
Qed.
Lemma text_field_shift m m' a b o w s : same_block m m' a b -> 0 <= o -> o + Z.of_nat w <= 512 ->
  text_field m a o w s -> text_field m' b o w s.
Proof.
  intros Hb H0 Hw [Hs Hl]. split; [|done]. eapply cstr_shift; [|exact Hs]. intros k Hk. rewrite <- !Z.add_assoc. apply Hb. lia.
Qed.
Lemma octal_field_shift m m' a b o w n : same_block m m' a b -> 0 <= o -> o + Z.of_nat w <= 512 ->
  octal_field m a o w n -> octal_field m' b o w n.
Proof. intros Hb H0 Hw (k & Hn & Ht). exists k. split; [done|]. by eapply text_field_shift. Qed.
Lemma entry_at_shift m m' a b e : same_block m m' a b -> entry_at m a e -> entry_at m' b e.
Proof.
  intros Hb [? ? [? ?] [? ?] ? ? Ht ? Hm ?].
  split; repeat match goal with
    | |- octal_field _ _ _ _ _ => eapply octal_field_shift; [exact Hb|by vm_compute|by vm_compute|eassumption]
    | |- text_field _ _ _ _ _ => eapply text_field_shift; [exact Hb|by vm_compute|by vm_compute|eassumption]
    | |- octal_field _ _ _ _ _ /\ _ => split
    end; try assumption.
  - revert Ht. unfold load8. by rewrite (Hb 156) by lia.
  - by apply (ustar_block_shift m m' a b).
Qed.

(** *** The code's reading of a header *)

Lemma has_magic_block m meta : has_magic m meta = bool_decide (ustar_block m meta).
Proof.
  unfold has_magic, str_is, strn_is, ustar_block. change (member meta "magic") with (meta + 257). change (member meta "version") with (meta + 263).
  change (bytes m (meta + 257) (Z.of_nat (length __USTAR_Magic) + 1)) with (bytes m (meta + 257) 6).
  change (bytes m (meta + 263) (Z.of_nat (length __USTAR_Version))) with (bytes m (meta + 263) 2).
  rewrite <- bool_decide_and. apply bool_decide_ext. change (bytes m (meta + 257) 8) with (bytes m (meta + 257) (6 + 2)).
  rewrite (bytes_app m (meta + 257) 6 2) by lia. replace (meta + 257 + 6) with (meta + 263) by lia.
  change [117; 115; 116; 97; 114; 0; 48; 48] with ((__USTAR_Magic ++ [0]) ++ __USTAR_Version). split; [by intros [-> ->]|].
  intros E. by apply app_inj_1 in E.
Qed.
Lemma full_name_slash prefix name : full_name prefix name = without_slash (Seperator :: prefix ++ name).
Proof.
  unfold full_name, without_slash. set (s := Seperator :: prefix ++ name). destruct (last s) as [c|] eqn:El; [|by rewrite decide_False].
  destruct (Z.eqb_spec c Seperator) as [->|Hn].
  - rewrite decide_True by done. rewrite removelast_firstn_len. f_equal. lia.
  - by rewrite decide_False by congruence.
Qed.
Lemma blocks_for_roundup n : 0 <= n < 2 ^ 63 -> roundupBlocks n = blocks_for n /\ 0 <= blocks_for n.
Proof. change (2 ^ 63) with 9223372036854775808. intros Hn. unfold roundupBlocks, blocks_for. rewrite u64_small by lia. lia. Qed.
Lemma octal_length k n : length (octal k n) = k.
Proof. revert n. induction k as [|k IH]; intros n; cbn [octal]; [done|]. rewrite length_app, IH. cbn [length]. lia. Qed.
(** A number's field is read as a string of at most 11 characters, and its value is
    the number. *)
Lemma octal_field_read m meta o w n sf : octal_field m meta o w n -> (w <= 12)%nat -> (12 <= sf)%nat ->
  exists s, cstring sf m (meta + o) = Some s /\ decodeOctets s = n /\ 0 <= n < 2 ^ 33.
Proof.
  intros (k & Hn & Hs & Hl) Hw Hf. rewrite octal_length in Hl. exists (octal k n).
  split; [apply cstring_spec; [done|rewrite octal_length; lia]|]. split; [apply decodeOctets_octal; [done|lia]|].
  split; [lia|]. apply Z.lt_le_trans with (8 ^ Z.of_nat k); [lia|]. change (2 ^ 33) with (8 ^ 11). apply Z.pow_le_mono_r; lia.
Qed.
Lemma land_clear mo x : Z.land 0x1ff x = 0 -> Z.land (Z.land mo 0x1ff) x = 0.
Proof. intros Hx. by rewrite <- Z.land_assoc, Hx, Z.land_0_r. Qed.
Lemma file_kind_of e b mo : b ∈ type_bytes (e_type e) -> 0 <= mo < 2 ^ 16 ->
  file_kind b (Z.land mo 0x1ff) (e_size e) (e_link e) =
    (match e_type e with THardLink => mo mod 8 ^ 3 | _ => 0 end, data_size e, match e_type e with TSymbolicLink => Some (e_link e) | _ => None end).
Proof.
  intros Hb Hm. unfold data_size. change (8 ^ 3) with (2 ^ 9). rewrite <- (Z.land_ones mo 9) by lia. change (Z.ones 9) with 0x1ff.
  destruct (e_type e); cbn [type_bytes] in Hb; repeat setoid_rewrite elem_of_cons in Hb; destruct_or? Hb; subst; try (by apply elem_of_nil in Hb);
    unfold file_kind; cbn [Z.eqb Pos.eqb orb]; rewrite ?land_clear by done; done.
Qed.
Lemma parse_entry sf m meta i e : entry_at m meta e -> (155 <= sf)%nat -> parse_file sf m meta i = Some (file_of e i).
Proof.
  intros [[Hn Ln] Hmo [How How2] [Hgr Hgr2] Hsz Hmt Hty [Hli Lli] _ [Hpr Lpr]] Hf. unfold parse_file, file_of.
  destruct (octal_field_read m meta 100 8 (e_mode e) sf Hmo) as (smo & Emo & Dmo & Rmo); [lia..|].
  destruct (octal_field_read m meta 108 8 (e_owner e) sf How) as (sow & Eow & Dow & Row); [lia..|].
  destruct (octal_field_read m meta 116 8 (e_group e) sf Hgr) as (sgr & Egr & Dgr & Rgr); [lia..|].
  destruct (octal_field_read m meta 124 12 (e_size e) sf Hsz) as (ssz & Esz & Dsz & Rsz); [lia..|].
  destruct (octal_field_read m meta 136 12 (e_mtime e) sf Hmt) as (smt & Emt & Dmt & Rmt); [lia..|].
  change (member meta "filename") with (meta + 0). change (member meta "prefix") with (meta + 345). change (member meta "owner") with (meta + 108).
  change (member meta "group") with (meta + 116). change (member meta "lastmodify") with (meta + 136). change (member meta "filemode") with (meta + 100).
  change (member meta "size") with (meta + 124). change (member meta "linkname") with (meta + 157). change (member meta "type") with (meta + 156).
  rewrite (cstring_spec m (e_name e) sf (meta + 0)), (cstring_spec m (e_prefix e) sf (meta + 345)), Eow, Egr, Emt, Emo, Esz,
    (cstring_spec m (e_link e) sf (meta + 157)) by (done || lia).
  cbn [mbind option_bind]. rewrite Dmo, Dow, Dgr, Dsz, Dmt, full_name_slash. rewrite (file_kind_of e _ (u16 (e_mode e))); [|done|unfold u16; lia].
  cbn [fst snd]. change (2 ^ 16) with 65536 in *. replace (u16 (e_owner e)) with (e_owner e) by (unfold u16; lia). replace (u16 (e_group e)) with (e_group e) by (unfold u16; lia). do 2 f_equal.
  destruct (e_type e); try done. change (8 ^ 3) with 512. unfold u16. lia.
Qed.
Lemma data_blocks m meta e : entry_at m meta e -> roundupBlocks (data_size e) = blocks_for (data_size e) /\ 0 <= blocks_for (data_size e).
Proof.
  intros He. destruct (octal_field_read m meta 124 12 (e_size e) 12 (ea_size _ _ _ He)) as (_ & _ & _ & R); [lia..|].
  change (2 ^ 33) with 8589934592 in R. apply blocks_for_roundup. change (2 ^ 63) with 9223372036854775808. unfold data_size. destruct (e_type e); lia.
Qed.

(** The ramdisk of an archive, and the buffer of one block. *)
Record disk_ok (d : BlockDeviceRamdisk) (buf : Z) : Prop := {
  dko_block : blocksize d = 512;
  dko_count : 0 <= blockcount d < 2147483648;
  dko_range : 0 <= buffer d /\ buffer d + 512 * blockcount d < 2 ^ 64;
  dko_read : Z.land (perm d) PermRead <> 0;
  dko_apart : buf + 512 <= buffer d \/ buffer d + 512 * blockcount d <= buf;
}.
Lemma ReadBlock_1 d m buf i :
  disk_ok d buf -> 0 <= i < blockcount d -> (ramdisk_ReadBlock d m i buf 1).2 = memcpy m buf (buffer d + 512 * i) 512.
Proof.
  intros [Hb Hc Hr Hp _] Hi. unfold ramdisk_ReadBlock. rewrite (proj2 (Z.eqb_neq _ _) Hp). cbn [snd].
  change (2 ^ 64) with 18446744073709551616 in *.
  rewrite ramdisk_count_ok by (change (2 ^ 64) with 18446744073709551616; lia). rewrite Hb.
  replace (Z.min 1 (blockcount d - i)) with 1 by lia. by rewrite !u64_small by lia.
Qed.
Lemma allocate_loop_spec d buf sf es : forall fuel m0 m i files,
  disk_ok d buf -> (155 <= sf)%nat -> 0 <= i -> archive m0 (buffer d) (blockcount d) i es ->
  (forall a, buffer d <= a < buffer d + 512 * blockcount d -> m a = m0 a) -> (length es < fuel)%nat ->
  exists m', allocate_loop fuel sf d m buf i files = Some (Some (files ++ files_of i es), m').
Proof.
  induction es as [|e es IH]; intros [|fuel] m0 m i files Hd Hsf Hi Ha Hm Hf; cbn [length] in *; try lia;
    cbn [allocate_loop]; change (bd_Size d) with (blockcount d); pose proof Hd as [Hb Hc Hr Hp Hap].
  - cbn [files_of]. rewrite app_nil_r. destruct Ha as [->|(Hlt & H0 & Hmg)].
    { rewrite u64_small by lia. rewrite Z.ltb_irrefl. by eexists. }
    rewrite u64_small by lia. rewrite (proj2 (Z.ltb_lt _ _) Hlt). change (bd_ReadBlock d m i buf 1) with (ramdisk_ReadBlock d m i buf 1).
    rewrite ReadBlock_1 by (done || lia). rewrite has_magic_block, bool_decide_false.
    + cbn [negb]. rewrite (proj2 (Z.eqb_neq i 0)) by lia. by eexists.
    + rewrite (ustar_block_shift m0 _ (buffer d + 512 * i) buf); [done|]. intros k Hk. rewrite memcpy_in by lia. rewrite Hm by lia. f_equal. lia.
  - destruct Ha as (Hlt & He & Hn & Ha). rewrite u64_small by lia. rewrite (proj2 (Z.ltb_lt _ _) Hlt).
    change (bd_ReadBlock d m i buf 1) with (ramdisk_ReadBlock d m i buf 1). rewrite ReadBlock_1 by (done || lia).
    assert (same_block m0 (memcpy m buf (buffer d + 512 * i) 512) (buffer d + 512 * i) buf) as Hsb.
    { intros k Hk. rewrite memcpy_in by lia. rewrite Hm by lia. f_equal. lia. }
    pose proof (entry_at_shift _ _ _ _ _ Hsb He) as He'. rewrite has_magic_block, bool_decide_true by apply (ea_magic _ _ _ He'). cbn [negb].
    rewrite (parse_entry sf _ buf i e He' Hsf). cbn [mbind option_bind files_of].
    change (size (file_of e i)) with (data_size e). destruct (data_blocks _ _ _ He) as [-> H0]. unfold next_block in *. set (n := blocks_for (data_size e)) in *. clearbody n.
    replace (i32 (u64 (i + u64 (n + 1)))) with (i + 1 + n)
      by (rewrite !u64_small by (rewrite ?u64_small; lia); rewrite i32_small by lia; lia).
    destruct (IH fuel m0 (memcpy m buf (buffer d + 512 * i) 512) (i + 1 + n) (files ++ [file_of e i]))
      as [m' E]; try done; [lia| |lia|].
    + intros a Ha'. rewrite memcpy_out by lia. by apply Hm.
    + rewrite E, <- app_assoc. by eexists.
Qed.

(** ** Directories *)

Lemma existsb_sep l : existsb (Z.eqb Seperator) l = false <-> Seperator ∉ l.
Proof.
  rewrite <- not_true_iff_false, existsb_exists. split.
  - intros Hn Hin. apply Hn. exists Seperator. split; [by apply list_elem_of_In|apply Z.eqb_refl].
  - intros Hn (x & Hx & E). apply Z.eqb_eq in E as <-. by apply Hn, list_elem_of_In.
Qed.
Lemma child_name_spec p name n : child_name p name = Some n <-> name = p ++ Seperator :: n /\ Seperator ∉ n.
Proof.
  unfold child_name. split.
  - destruct (bool_decide _ && _) eqn:E; [|done]. apply andb_true_iff in E as [E1%bool_decide_eq_true E2%bool_decide_eq_true].
    destruct (existsb _ _) eqn:Ex; [done|]. apply existsb_sep in Ex. intros [= <-].
    split; [|done]. rewrite <- E1 at 1. rewrite <- (take_drop (length p) name) at 1. f_equal.
    replace (length p + 1)%nat with (S (length p)) by lia. by rewrite (drop_S _ _ _ E2).
  - intros [-> Hn]. rewrite take_app_length, bool_decide_true by done.
    rewrite bool_decide_true by (change path with (list Z); rewrite lookup_app_r by lia; by rewrite Nat.sub_diag). cbn [andb].
    replace (length p + 1)%nat with (S (length p)) by lia.
    replace (drop (S (length p)) (p ++ Seperator :: n)) with n
      by (change path with (list Z); rewrite drop_app_ge by lia; by replace (S (length p) - length p)%nat with 1%nat by lia).
    by rewrite (proj2 (existsb_sep n) Hn).
Qed.
Lemma readdir_loop_spec p handle x : forall files i,
  x ∈ readdir_loop files p handle i <->
  exists j f, files !! j = Some f /\ i + Z.of_nat j <> handle /\ filename f = p ++ Seperator :: x.1 /\ Seperator ∉ x.1 /\ x.2 = ustar_Stat f.
Proof.
  destruct x as [n st]. cbn [fst snd]. induction files as [|f files IH]; intros i; cbn [readdir_loop].
  { split; [by intros ?%not_elem_of_nil|intros (j & f & Hj & _); done]. }
  rewrite elem_of_app, IH. split.
  - intros [Hx|(j & g & Hj & Hh & Hr)].
    + exists 0%nat, f. rewrite Z.add_0_r. destruct (Z.eqb_spec i handle); [by apply not_elem_of_nil in Hx|].
      destruct (child_name p (filename f)) as [k|] eqn:Ek; [|by apply not_elem_of_nil in Hx].
      apply list_elem_of_singleton in Hx as [= -> ->]. apply child_name_spec in Ek as [? ?]. done.
    + exists (S j), g. split_and!; [done|lia|apply Hr..].
  - intros ([|j] & g & Hj & Hh & Hf & Hs & ->).
    + left. injection Hj as ->. rewrite Z.add_0_r in Hh. rewrite (proj2 (Z.eqb_neq _ _) Hh).
      rewrite (proj2 (child_name_spec p (filename g) n)) by done. by left.
    + right. exists j, g. split_and!; [done|lia|done..].
Qed.

(** ** The loop of reads *)

Lemma read_loop_runs {B} `{BlockDevice B} (d : B) buffer buf realsize : forall fuel m i offset bufoff,
  0 <= offset -> i = offset / 512 -> 0 < realsize -> i + Z.of_nat fuel < 2147483648 ->
  offset + 512 * Z.of_nat fuel + realsize < 2 ^ 64 ->
  read_loop fuel d m buffer buf i offset realsize bufoff = None.
Proof.
  change (2 ^ 64) with 18446744073709551616.
  induction fuel as [|fuel IH]; intros m i offset bufoff Ho -> Hr Hi Hw; [done|]. cbn [read_loop].
  rewrite !u64_small by lia.
  destruct (Z.leb_spec (offset / 512) ((offset + realsize - 1) / 512)); [|lia].
  rewrite (u64_small ((offset / 512 + 1) * 512 - offset)) by lia.
  replace (offset + ((offset / 512 + 1) * 512 - offset)) with ((offset / 512 + 1) * 512) by lia.
  rewrite i32_small, (u64_small ((offset / 512 + 1) * 512)) by lia. apply IH; lia.
Qed.

(** ** A small archive *)

Definition put (a : Z) (l : list Z) (m : mem) : mem :=
  fun x => if (a <=? x) && (x <? a + Z.of_nat (length l)) then nth (Z.to_nat (x - a)) l 0 else m x.
(** A file "a" of one byte in three blocks at 4096. *)
Definition demo_archive : mem :=
  put 4096 [97] (put 4196 [54; 52; 52] (put 4204 [48] (put 4212 [48] (put 4220 [49] (put 4232 [48] (put 4252 [48]
    (put 4353 __USTAR_Magic (put 4359 __USTAR_Version (fun _ => 0))))))))).
Definition demo_disk : BlockDeviceRamdisk := mk_ramdisk 4096 512 3 PermRead.
Definition demo_entry : entry := mk_entry TRegular [] [97] 0x1a4 0 0 1 0 [].
Lemma demo_disk_ok : disk_ok demo_disk 0.
Proof. split; cbn; try lia; discriminate. Qed.
Ltac demo_string := vm_compute; repeat split; discriminate || reflexivity.
Lemma demo_text o w s : cstr demo_archive (4096 + o) s -> (length s <? w)%nat = true -> text_field demo_archive 4096 o w s.
Proof. intros Hs Hl. split; [exact Hs|by apply Nat.ltb_lt]. Qed.
Lemma demo_octal o w n k : cstr demo_archive (4096 + o) (octal k n) -> (k <? w)%nat = true -> (0 <=? n) && (n <? 8 ^ Z.of_nat k) = true ->
  octal_field demo_archive 4096 o w n.
Proof. intros Hs Hl Hn. exists k. split; [lia|]. apply demo_text; [exact Hs|by rewrite octal_length]. Qed.
Lemma demo_entry_at : entry_at demo_archive 4096 demo_entry.
Proof.
  constructor.
  - apply demo_text; [demo_string|reflexivity].
  - apply (demo_octal 100 8 0x1a4 3); [demo_string|reflexivity|reflexivity].
  - split; [|reflexivity]. apply (demo_octal 108 8 0 1); [demo_string|reflexivity|reflexivity].
  - split; [|reflexivity]. apply (demo_octal 116 8 0 1); [demo_string|reflexivity|reflexivity].
  - apply (demo_octal 124 12 1 1); [demo_string|reflexivity|reflexivity].
  - apply (demo_octal 136 12 0 1); [demo_string|reflexivity|reflexivity].
  - change (load8 demo_archive (4096 + 156)) with 48. right. left.
  - apply demo_text; [demo_string|reflexivity].
  - unfold ustar_block. vm_compute. reflexivity.
  - apply demo_text; [demo_string|reflexivity].
Qed.
Lemma demo_archive_ok : archive demo_archive 4096 3 0 [demo_entry].
Proof.
  split; [done|]. split; [exact demo_entry_at|]. split; [by vm_compute|]. right. split; [done|]. split; [done|].
  unfold ustar_block. vm_compute. discriminate.
Qed.
Definition demo_files : list __USTAR_File := files_of 0 [demo_entry].

(** * Properties *)

(** Octal fields are read back: decoding the [k] octal digits of a number
    below [8 ^ k] gives the number, up to 21 digits. *)
Theorem decodeOctets_roundtrip k n : 0 <= n < 8 ^ Z.of_nat k -> (k <= 21)%nat -> decodeOctets (octal k n) = n.
Proof. apply decodeOctets_octal. Qed.
Lemma decodeOctets_roundtrip_witness : octal 11 1025 = [48; 48; 48; 48; 48; 48; 48; 50; 48; 48; 49] /\ decodeOctets (octal 11 1025) = 1025.
Proof. split; [reflexivity|]. apply (decodeOctets_roundtrip 11 1025); [vm_compute; intuition discriminate|lia]. Defined.

(** C10. Parsing a device that holds a ustar archive ends and gives one file for
    each entry, in order: its name, link, size, times, owner and the block its
    data starts at.  Where the standard's values are not given, it is said which:
    a prefix is joined to the name without the separator, so the name is the
    standard's when there is no prefix and never when there is one; and the mode
    is the standard's for no entry, as the type is lost.  A first block without the
    magic gives no file system. *)
Theorem USTAR_AllocateBlock_correct d buf sf fuel m es :
  disk_ok d buf -> (155 <= sf)%nat -> (length es < fuel)%nat ->
  (archive m (buffer d) (blockcount d) 0 es ->
     exists m', USTAR_AllocateBlock fuel sf d m buf = Some (Some (files_of 0 es), m')) /\
  (forall e i, deviates e (file_of e i)) /\
  (0 < blockcount d -> ~ ustar_block m (buffer d) ->
     exists m', USTAR_AllocateBlock fuel sf d m buf = Some (None, m')).
Proof.
  intros Hd Hsf Hf. split; [|split; [exact entry_deviates|]].
  - intros Ha. apply (allocate_loop_spec d buf sf es fuel m m 0 []); done.
  - intros Hn Hm. unfold USTAR_AllocateBlock. destruct fuel as [|fuel]; [lia|]. cbn [allocate_loop].
    change (bd_Size d) with (blockcount d). rewrite u64_small by lia. rewrite (proj2 (Z.ltb_lt _ _) Hn).
    change (bd_ReadBlock d m 0 buf 1) with (ramdisk_ReadBlock d m 0 buf 1). rewrite ReadBlock_1 by (done || lia).
    rewrite has_magic_block, bool_decide_false; [by eexists|]. rewrite (ustar_block_shift m _ (buffer d) buf); [done|].
    intros k Hk. rewrite memcpy_in by lia. f_equal. lia.
Qed.
Lemma USTAR_AllocateBlock_correct_witness :
  demo_files = [mk_file 1 [47; 97] None 1 0 0 0 0] /\
  (exists m', USTAR_AllocateBlock 2 155 demo_disk demo_archive 0 = Some (Some demo_files, m')) /\
  (exists m', USTAR_AllocateBlock 2 155 demo_disk (fun _ => 0) 0 = Some (None, m')).
Proof.
  split; [by vm_compute|]. split.
  - refine (proj1 (USTAR_AllocateBlock_correct demo_disk 0 155 2 demo_archive [demo_entry] demo_disk_ok _ _) demo_archive_ok); cbn; lia.
  - refine (proj2 (proj2 (USTAR_AllocateBlock_correct demo_disk 0 155 2 (fun _ => 0) [] demo_disk_ok _ _)) _ _); [lia|cbn; lia|done|].
    unfold ustar_block. vm_compute. discriminate.
Defined.

(** No file has a type: the mode of a normal file, a symbolic link, a device, a
    directory and a pipe is 0, since the type bits are and-ed with the
    permission bits instead of or-ed.  So a path other than "/" that names such
    a file opens as a file, a directory too, and never as a directory or a
    link. *)
Theorem USTAR_type_bits_lost e i files p :
  e_type e <> THardLink ->
  mode (file_of e i) = 0 /\
  forall j n h, p <> root_path -> lookup_file files p 0 = Some (j, file_of e i) ->
    USTAR_Opendir files p h = (- EINVAL, h) /\ USTAR_Readlink files p n = (- EINVAL, []) /\ USTAR_Open files p h = (0, j).
Proof.
  intros Ht. assert (mode (file_of e i) = 0) as Em by (unfold file_of; cbn [mode]; by destruct (e_type e)).
  split; [done|]. intros j n h Hp Hl. unfold USTAR_Opendir, USTAR_Readlink, USTAR_Open.
  rewrite bool_decide_false by done. rewrite Hl, Em. split_and!; [done| |done]. by destruct (linkname _).
Qed.
Lemma USTAR_type_bits_lost_witness :
  let e := mk_entry TDirectory [] [100] 0x1ed 0 0 0 0 [] in
  mode (file_of e 0) = 0 /\ USTAR_Opendir [file_of e 0] [47; 100] 7 = (- EINVAL, 7) /\ USTAR_Open [file_of e 0] [47; 100] 7 = (0, 0).
Proof.
  intros e. destruct (USTAR_type_bits_lost e 0 [file_of e 0] [47; 100]) as [Hm Hx]; [discriminate|].
  split; [exact Hm|]. destruct (Hx 0 0 7) as (H1 & _ & H3); [discriminate|by vm_compute|]. split; [exact H1|exact H3].
Defined.

(** C38. Reading a directory calls the callback exactly for its direct children
    - the files whose name is the directory's, a separator and a name without
    separators -, but for the directory's own entry. *)
Theorem USTAR_Readdir_correct files p handle :
  let dir := if bool_decide (p = root_path) then [] else p in
  (USTAR_Readdir files p handle).1 = 0 /\
  forall name st, (name, st) ∈ (USTAR_Readdir files p handle).2 <->
    exists j f, files !! j = Some f /\ Z.of_nat j <> handle /\ filename f = dir ++ Seperator :: name /\ Seperator ∉ name /\ st = ustar_Stat f.
Proof.
  intros dir. split; [done|]. intros name st. unfold USTAR_Readdir. cbn [snd]. fold dir.
  apply (readdir_loop_spec dir handle (name, st) files 0).
Qed.

(** A read of at least one byte inside the file never returns: the end of
    the loop moves along with the offset, for as long as the block number does
    not overflow. *)
Theorem USTAR_Read_never_returns {B} `{BlockDevice B} (d : B) m f buffer buf count offset fuel :
  0 <= offset < size f -> 0 < count -> size f < 2 ^ 62 ->
  offset / 512 + Z.of_nat fuel < 2147483648 ->
  USTAR_Read fuel d m f buffer buf count offset = None.
Proof.
  change (2 ^ 62) with 4611686018427387904. intros Ho Hc Hs Hf. unfold USTAR_Read.
  rewrite u64_small by lia. rewrite (i32_small (offset / 512)) by lia.
  set (r := if _ <? _ then _ else _). assert (0 < r < 4611686018427387904) as Hr.
  { unfold r. destruct (Z.ltb_spec (size f - offset) count); lia. }
  rewrite (read_loop_runs d buffer buf r fuel m (offset / 512) offset 0); [done|lia|done|lia|lia|].
  change (2 ^ 64) with 18446744073709551616. lia.
Qed.
Lemma USTAR_Read_never_returns_witness :
  forall f, demo_files = [f] -> USTAR_Read 1000 demo_disk demo_archive f 0 8192 1 0 = None.
Proof.
  intros f [= <-]. apply USTAR_Read_never_returns; by vm_compute.
Defined.
