(* ===== verification/Fat.v ===== *)
(** * The FAT file system (src/driver/filesystem/fat)

    The structures of the boot sector and of directories, and the creation of
    the driver's object: it reads the boot sector and tells the type of the
    FAT.  The operations on directories are not implemented in the source. *)

From Stdlib Require Import Ascii String.
From S2P Require Import Prelude Mem Layout Filesystem.

Inductive FATType := FAT12 | FAT16 | FAT32 | exFAT.
#[export] Instance FATType_eq_dec : EqDecision FATType.
Proof. solve_decision. Defined.

Definition BIOSParamBlock : layout := [
  ("jumpcode", 3); ("oemid", 8); ("numBytesPerSector", 2); ("numSectorsPerCluster", 1); ("numReservedSector", 2);
  ("numFATs", 1); ("numDirEntry", 2); ("numSectors_short", 2); ("mediaDescriptorType", 1); ("numSectorsPerFAT_12_16", 2);
  ("numSectorsPerTrack", 2); ("numSides", 2); ("offsetLBA", 4); ("numSectors_large", 4)]%string%nat.
Definition ExtBootRecord_12_16 : layout := [
  ("driveNumber", 1); ("ntFlags", 1); ("signature", 1); ("volumeID", 4); ("label", 11); ("type", 8)]%string%nat.
Definition ExtBootRecord_32 : layout := [
  ("sectorsPerFAT", 4); ("flags", 2); ("version", 2); ("clusterRoot", 4); ("sectorFSinfo", 2); ("sectorBackupBootsect", 2);
  ("reserved", 12); ("driveNumber", 1); ("ntFlags", 1); ("signature", 1); ("volumeID", 4); ("label", 11); ("type", 8)]%string%nat.
Definition FSInfo_Offset : Z := 484.
Definition FSInfo : layout := [
  ("signatureMid", 4); ("freeClusterCount", 4); ("freeClusterOffset", 4); ("reserved", 12); ("signatureTrail", 4)]%string%nat.
Definition DirEntry : layout := [
  ("name", 8); ("ext", 3); ("flags", 1); ("reserved", 1); ("createTime_Seconds_10th", 1); ("createTime", 2); ("createDate", 2);
  ("lastAccessDate", 2); ("firstCluster_high", 2); ("modifyTime", 2); ("modifyDate", 2); ("firstCluster_low", 2); ("size", 4)]%string%nat.
(** The static assertions. *)
Lemma fat_packed :
  sizeof BIOSParamBlock = 36 /\ sizeof ExtBootRecord_12_16 = 62 - 36 /\ sizeof ExtBootRecord_32 = 90 - 36 /\
  sizeof FSInfo = 512 - 484 /\ sizeof DirEntry = 32.
Proof. split_and!; reflexivity. Qed.

(** The object: the addresses of its buffers; [ebr] is the union. *)
Record FAT := mk_fat { type : FATType; bpb : Z; ebr : Z; fat_sector : Z; numSectors : Z }.

(** [strncmp(ebr->type, lit, 5) == 0]; the literals have no NUL. *)
Definition type_is (m : mem) (ebr : Z) (lit : list Z) : bool :=
  match offsetof ExtBootRecord_12_16 "type" with Some o => bool_decide (bytes m (ebr + o) 5 = lit) | None => false end.
Definition str_FAT12 : list Z := [70; 65; 84; 49; 50].
Definition str_FAT16 : list Z := [70; 65; 84; 49; 54].

(** The type from the number of clusters; a division by zero has no result. *)
Definition type_by_clusters (numSectors numSectorsPerCluster : Z) : option FATType :=
  if numSectorsPerCluster =? 0 then None
  else
    let clusters := Z.quot numSectors numSectorsPerCluster in
    let clusters := if negb (Z.rem numSectors numSectorsPerCluster =? 0) then clusters + 1 else clusters in
    Some (if 4085 <? clusters then FAT16 else FAT12).

(** [sector], [b] and [e] are the blocks [new] returns.  The inner [None] is the
    null result; the destructor that then runs is not modelled. *)
Definition FAT_AllocateBlock {B} `{BlockDevice B} (d : B) (m : mem) (sector b e : Z) : option (option FAT * mem) :=
  let '(read, m) := bd_ReadBlock d m 0 sector 1 in
  if read =? 0 then Some (None, m)
  else
    let m := memcpy m b sector (sizeof BIOSParamBlock) in
    let short := get m b BIOSParamBlock "numSectors_short" in
    let n := i32 (if negb (short =? 0) then short else get m b BIOSParamBlock "numSectors_large") in
    if get m b BIOSParamBlock "numBytesPerSector" =? 0 then Some (None, m)
    else if get m b BIOSParamBlock "numSectorsPerFAT_12_16" =? 0 then
      let m := memcpy m e (sector + sizeof BIOSParamBlock) (sizeof ExtBootRecord_32) in
      Some (Some (mk_fat FAT32 b e sector n), m)
    else
      let m := memcpy m e (sector + sizeof BIOSParamBlock) (sizeof ExtBootRecord_12_16) in
      if type_is m e str_FAT12 then Some (Some (mk_fat FAT12 b e sector n), m)
      else if type_is m e str_FAT16 then Some (Some (mk_fat FAT16 b e sector n), m)
      else
        t ← type_by_clusters n (get m b BIOSParamBlock "numSectorsPerCluster");
        Some (Some (mk_fat t b e sector n), m).

Definition FAT__NextCluster (cluster : Z) : Z := 0.
Definition FAT__Readdir (cluster : Z) : Z := 0.
Definition FAT_Readdir (p : path) : Z * list (path * Stat) := (- ENOSYS, []).
Definition FAT_Opendir (p : path) (handle : Z) : Z * Z := (- ENOSYS, handle).
Definition FAT_Closedir (p : path) (handle : Z) : Z := - ENOSYS.

(** ** Properties *)

(** The values the type depends on, in the boot sector at [a]. *)
Record boot_sector := mk_boot { bytesPerSector : Z; sectorsPerFAT : Z; sectorsPerCluster : Z; short : Z; large : Z; typeName : list Z }.
Definition boot_at (m : mem) (a : Z) : boot_sector :=
  mk_boot (load16 m (a + 11)) (load16 m (a + 22)) (load8 m (a + 13)) (load16 m (a + 19)) (load32 m (a + 32)) (bytes m (a + 54) 5).
(** The documented rule: by the names first, then by the 4085 clusters. *)
Definition fat_type (s : boot_sector) : option FATType :=
  let n := if decide (short s = 0) then large s else short s in
  if decide (bytesPerSector s = 0) then Some exFAT
  else if decide (sectorsPerFAT s = 0) then Some FAT32
  else if decide (typeName s = str_FAT12) then Some FAT12
  else if decide (typeName s = str_FAT16) then Some FAT16
  else if decide (sectorsPerCluster s = 0) then None
  else Some (if decide ((n + sectorsPerCluster s - 1) / sectorsPerCluster s <= 4085) then FAT12 else FAT16).

Lemma load_memcpy k m dst src n i : 0 <= i -> i + Z.of_nat k <= n -> load k (memcpy m dst src n) (dst + i) = load k m (src + i).
Proof.
  revert i. induction k as [|k IH]; intros i Hi Hn; [done|]. cbn [load]. rewrite <- !Z.add_assoc, IH by lia.
  unfold load8. rewrite memcpy_in by lia. do 3 f_equal. lia.
Qed.
Lemma type_by_clusters_spec n c : 0 <= n -> 0 <= c ->
  type_by_clusters n c = if decide (c = 0) then None else Some (if decide ((n + c - 1) / c <= 4085) then FAT12 else FAT16).
Proof.
  intros Hn Hc. unfold type_by_clusters. destruct (decide (c = 0)) as [->|Hc0]; [done|]. rewrite (proj2 (Z.eqb_neq c 0)) by done.
  rewrite Z.quot_div_nonneg, Z.rem_mod_nonneg by lia. f_equal.
  assert ((n + c - 1) / c = if n mod c =? 0 then n / c else n / c + 1) as ->.
  { pose proof (Z.div_mod n c Hc0). pose proof (Z.mod_pos_bound n c ltac:(lia)). destruct (Z.eqb_spec (n mod c) 0).
    - symmetry. apply (Z.div_unique _ _ _ (c - 1)); lia.
    - symmetry. apply (Z.div_unique _ _ _ (n mod c - 1)); lia. }
  destruct (n mod c =? 0); cbn [negb]; destruct (decide _); destruct (Z.ltb_spec 4085 (n / c)); destruct (Z.ltb_spec 4085 (n / c + 1)); lia || done.
Qed.

(** The type of a FAT is the documented one: none for exFAT, FAT32 when the
    12/16-bit size field is 0, then the name in the boot sector, then 4085
    clusters, counted up; no cluster size is a division by zero.  The count
    the read returns only has to be other than 0: a failed read returns -1 and
    the type is that of whatever the buffer held. *)
Theorem FAT_AllocateBlock_correct {B} `{BlockDevice B} (d : B) m m1 read sector b e :
  bd_ReadBlock d m 0 sector 1 = (read, m1) -> read <> 0 ->
  b + 36 <= sector \/ sector + 512 <= b -> e + 54 <= sector \/ sector + 512 <= e -> e + 54 <= b \/ b + 36 <= e ->
  let s := boot_at m1 sector in
  large s < 2 ^ 31 ->
  match fat_type s with
  | None => FAT_AllocateBlock d m sector b e = None
  | Some exFAT => exists m', FAT_AllocateBlock d m sector b e = Some (None, m')
  | Some t => exists m', FAT_AllocateBlock d m sector b e =
      Some (Some (mk_fat t b e sector (if decide (short s = 0) then large s else short s)), m')
  end.
Proof.
  intros Er Hr Hb He Heb s Hlarge. unfold FAT_AllocateBlock. rewrite Er, (proj2 (Z.eqb_neq read 0)) by done.
  change (sizeof BIOSParamBlock) with 36. change (sizeof ExtBootRecord_32) with 54. change (sizeof ExtBootRecord_12_16) with 26.
  set (m2 := memcpy m1 b sector 36). set (m3 := memcpy m2 e (sector + 36) 26).
  assert (get m2 b BIOSParamBlock "numSectors_short" = short s) as -> by (apply (load_memcpy 2); lia).
  assert (get m2 b BIOSParamBlock "numSectors_large" = large s) as -> by (apply (load_memcpy 4); lia).
  assert (get m2 b BIOSParamBlock "numBytesPerSector" = bytesPerSector s) as -> by (apply (load_memcpy 2); lia).
  assert (get m2 b BIOSParamBlock "numSectorsPerFAT_12_16" = sectorsPerFAT s) as -> by (apply (load_memcpy 2); lia).
  assert (get m3 b BIOSParamBlock "numSectorsPerCluster" = sectorsPerCluster s) as ->.
  { change (load 1 m3 (b + 13) = load8 m1 (sector + 13)). cbn [load]. rewrite Z.add_0_r. unfold load8, m3, m2.
    rewrite memcpy_out by lia. rewrite memcpy_in by lia. do 2 f_equal. lia. }
  assert (forall lit, length lit = 5%nat -> type_is m3 e lit = bool_decide (typeName s = lit)) as Ht.
  { intros lit _. change (type_is m3 e lit) with (bool_decide (bytes m3 (e + 18) 5 = lit)).
    replace (bytes m3 (e + 18) 5) with (typeName s); [done|]. apply tab_ext. intros i Hi. unfold load8, m3, m2.
    rewrite memcpy_in by lia. rewrite memcpy_out by lia. do 2 f_equal. lia. }
  rewrite !Ht by done. unfold fat_type. assert (0 <= short s < 65536) as Hsh by apply (load_range 2).
  assert (0 <= large s) as Hl0 by apply (load_range 4). change (2 ^ 31) with 2147483648 in Hlarge.
  assert (0 <= sectorsPerCluster s) as Hc0 by apply load8_range.
  assert (i32 (if negb (short s =? 0) then short s else large s) = if decide (short s = 0) then large s else short s) as ->.
  { destruct (decide (short s = 0)) as [->|Hn]; [cbn [Z.eqb negb]|rewrite (proj2 (Z.eqb_neq _ _)) by done; cbn [negb]]; apply i32_small; lia. }
  set (n := if decide (short s = 0) then large s else short s). assert (0 <= n) as Hn0 by (unfold n; destruct (decide _); lia). clearbody n.
  clearbody m2 m3 s. destruct (decide (bytesPerSector s = 0)) as [->|H1]; [by eexists|]. rewrite (proj2 (Z.eqb_neq _ _)) by done.
  destruct (decide (sectorsPerFAT s = 0)) as [->|H2]; [by eexists|]. rewrite (proj2 (Z.eqb_neq (sectorsPerFAT s) 0)) by done.
  destruct (decide (typeName s = str_FAT12)) as [E|H3]; [rewrite bool_decide_true by done; by eexists|]. rewrite bool_decide_false by done.
  destruct (decide (typeName s = str_FAT16)) as [E|H4]; [rewrite bool_decide_true by done; by eexists|]. rewrite bool_decide_false by done.
  rewrite type_by_clusters_spec by done. destruct (decide (sectorsPerCluster s = 0)); [done|]. destruct (decide _); by eexists.
Qed.
(** A boot sector of 5000 sectors in one-sector clusters. *)
Definition demo_boot : mem := fun a => if a =? 4108 then 2 else if a =? 4109 then 1 else if a =? 4115 then 136 else if a =? 4116 then 19 else if a =? 4118 then 9 else 0.
Lemma FAT_AllocateBlock_correct_witness :
  exists m', FAT_AllocateBlock (mk_ramdisk 4096 512 1 PermRead) demo_boot 8192 0 1024 = Some (Some (mk_fat FAT16 0 1024 8192 5000), m').
Proof.
  pose proof (FAT_AllocateBlock_correct (mk_ramdisk 4096 512 1 PermRead) demo_boot (memcpy demo_boot 8192 4096 512) 1 8192 0 1024) as H.
  cbn zeta in H. replace (fat_type (boot_at (memcpy demo_boot 8192 4096 512) 8192)) with (Some FAT16) in H by (vm_compute; reflexivity).
  destruct H as [m' H]; [reflexivity|discriminate|lia|lia|lia|vm_compute; reflexivity|]. exists m'. exact H.
Defined.
