(* ===== verification/FsInit.v ===== *)
(** * The file systems of the booted kernel (src/driver/filesystem/filesystem_init.cpp)

    The initial archive at "/", the devices at "/dev", and the listing of a
    directory through the virtual file system: the composition of the formats,
    the TAR file system, the device file system and the virtual one. *)

From S2P Require Import Prelude Mem CString Filesystem Vfs Devfs Ustar UstarProps.

Section Init.
(** Fuel of the parser and of the strings it reads; the fuel of a file read;
    the addresses of the objects that [new] returns for the initial and the
    device file systems, and of the buffers on the stack. *)
Variables (fuel sf readfuel : nat) (pinit pdev buf buf' : Z).
Variables (Width Height Framebuffer : Z).

Definition initrd (start end_ : Z) : BlockDeviceRamdisk :=
  let initrdSize := end_ - start in
  let initrdSizeRounded := if initrdSize mod 512 =? 0 then initrdSize else (initrdSize / 512 + 1) * 512 in
  mk_ramdisk start 512 (initrdSizeRounded / 512) PermRead.

(** What is mounted, the objects by address, the devices, and the memory.
    [root] is what the uninitialised root pointer holds; the embedded archive is
    from [start] to [end_]. *)
Definition filesystem_Init (m : mem) (start end_ root : Z)
    : option (VirtualFilesystem * (Z -> option filesystem) * list device * mem) :=
  let fslist := Format_Register [] (fun d m => USTAR_AllocateBlock fuel sf d m buf) in
  let vfs := mk_vfs root [] ∅ in
  let d := initrd start end_ in
  match Format_AllocateBlock fslist d m with
  | Some (initfs, m) =>
      let vfs := (Mount root_path [105; 110; 105; 116; 114; 100] (match initfs with Some _ => pinit | None => 0 end) vfs).2 in
      let '(ret, vfs) := Mount [47; 100; 101; 118] [100; 101; 118; 100; 101; 102; 97; 117; 108; 116] pdev vfs in
      let devices := if negb (ret =? 0) then [] else Framebuffer_Init Width Height Framebuffer 3 [] in
      let objects := fun a =>
        if a =? pdev then Some (DeviceFilesystem devices)
        else if a =? pinit then (files ← initfs; Some (USTAR readfuel d buf' files)) else None in
      Some (vfs, objects, devices, m)
  | None => None
  end.
End Init.

(** The names printed, and the virtual file system after.  [handle] is the
    uninitialised handle, [p] the address of the new object; an error prints no
    names. *)
Definition filesystem_Ls (objects : Z -> option filesystem) (v : VirtualFilesystem) (pa : path) (handle p garbage : Z)
    : option (list path * VirtualFilesystem) :=
  match vfs_Opendir objects v pa handle p garbage with
  | Some (ret, handle, v) =>
      if negb (ret =? 0) || (handle =? 0) then Some ([], v)
      else
        match vfs_Readdir objects v handle, vfs_Closedir objects v handle with
        | Some (ret, names), Some (_, v) => Some (fst <$> names, v)
        | _, _ => None
        end
  | None => None
  end.

(** ** The booted system *)

Definition dev_path : path := [47; 100; 101; 118].
(** The tables after boot, with the root at [root]. *)
Definition booted (root pdev : Z) : VirtualFilesystem :=
  mk_vfs root [mk_mount dev_path [100; 101; 118; 100; 101; 102; 97; 117; 108; 116] pdev] ∅.

Lemma booted_path root pdev p :
  root <> pdev ->
  FilesystemOfPath (booted root pdev) p = if bool_decide (take 4 p = dev_path) then (pdev, drop 4 p) else (root, p).
Proof.
  intros Hne. unfold FilesystemOfPath. case_bool_decide as E.
  - subst p. rewrite bool_decide_false by done. done.
  - assert (mount_fits p (mk_mount dev_path [100; 101; 118; 100; 101; 102; 97; 117; 108; 116] pdev) = bool_decide (take 4 p = dev_path)) as Hm
      by (unfold mount_fits; cbn [where_]; apply andb_true_r).
    cbn [booted mounts List.find root_fs]. rewrite Hm. case_bool_decide as Et; [|by rewrite Z.eqb_refl].
    cbn [fs]. by rewrite (proj2 (Z.eqb_neq pdev root)) by done.
Qed.
Lemma vfs_drop_new (v : VirtualFilesystem) p o : opens v !! p = None -> set_opens (delete p (opens (set_opens (<[p := o]> (opens v)) v))) (set_opens (<[p := o]> (opens v)) v) = v.
Proof. intros Hp. unfold set_opens. cbn [opens root_fs mounts]. rewrite delete_insert_id by done. by destruct v. Qed.
(** Listing a directory that opens, or whose file system is stateless, prints
    the names of its Readdir and leaves no object behind. *)
Lemma Ls_prints objects v pa handle p garbage f h :
  p <> 0 -> opens v !! p = None ->
  let o := __CreateOpenFile v pa in
  objects (of_fs o) = Some f ->
  (if Z.land (Capabilities f) Capability_NoOpen =? 0 then Opendir f (fspath o) garbage = (0, h) else h = garbage) ->
  filesystem_Ls objects v pa handle p garbage = Some (fst <$> (Readdir f (fspath o) h).2, v).
Proof.
  intros Hp Hv o Hf Ho. unfold filesystem_Ls, vfs_Opendir. fold o. rewrite Hf. cbn [mbind option_bind].
  assert ((if Z.land (Capabilities f) Capability_NoOpen =? 0 then
    let '(ret, h) := Opendir f (fspath o) garbage in
    if ret <? 0 then Some (ret, handle, v)
    else Some (0, p, set_opens (<[p := mk_open (of_fs o) (fspath o) h]> (opens v)) v)
    else Some (0, p, set_opens (<[p := mk_open (of_fs o) (fspath o) garbage]> (opens v)) v)) =
    Some (0, p, set_opens (<[p := mk_open (of_fs o) (fspath o) h]> (opens v)) v)) as ->.
  { destruct (_ =? 0); [by rewrite Ho|by rewrite Ho]. }
  cbn [negb orb Z.eqb]. rewrite (proj2 (Z.eqb_neq p 0)) by done.
  unfold vfs_Readdir, vfs_Closedir. cbn [opens set_opens]. rewrite lookup_insert_eq. cbn [mbind option_bind of_fs fspath userhandle].
  rewrite Hf. cbn [mbind option_bind]. destruct (Readdir f (fspath o) h) as [ret names]. cbn [snd].
  do 2 f_equal. exact (vfs_drop_new v p (mk_open (of_fs o) (fspath o) h) Hv).
Qed.

Lemma initrd_blocks start blocks : initrd start (start + 512 * blocks) = mk_ramdisk start 512 blocks PermRead.
Proof.
  unfold initrd. replace (start + 512 * blocks - start) with (blocks * 512) by lia.
  rewrite Z.mod_mul by done. cbn [Z.eqb]. by rewrite Z.div_mul.
Qed.

(** * Properties *)

(** C9. Booting with an archive embedded mounts its files at "/" and the
    devices at "/dev": every path goes to the archive, but for those that begin
    with "/dev", whose rest goes to the devices; listing "/dev" prints "fb0"
    alone, and listing "/" the names of the files directly under the root;
    neither leaves an open file behind. *)
Theorem filesystem_Init_correct fuel sf readfuel pinit pdev buf buf' W H fb m start blocks root es :
  disk_ok (mk_ramdisk start 512 blocks PermRead) buf -> archive m start blocks 0 es ->
  (155 <= sf)%nat -> (length es < fuel)%nat -> pinit <> 0 -> pdev <> 0 -> pinit <> pdev ->
  exists objects devices m',
    filesystem_Init fuel sf readfuel pinit pdev buf buf' W H fb m start (start + 512 * blocks) root =
      Some (booted pinit pdev, objects, devices, m') /\
    (forall p, FilesystemOfPath (booted pinit pdev) p = if bool_decide (take 4 p = dev_path) then (pdev, drop 4 p) else (pinit, p)) /\
    forall handle p garbage, p <> 0 ->
      filesystem_Ls objects (booted pinit pdev) dev_path handle p garbage = Some ([[102; 98; 48]], booted pinit pdev) /\
      exists names,
        filesystem_Ls objects (booted pinit pdev) root_path handle p garbage = Some (names, booted pinit pdev) /\
        forall n, n ∈ names <-> exists f, f ∈ files_of 0 es /\ filename f = Seperator :: n /\ Seperator ∉ n.
Proof.
  intros Hd Ha Hsf Hf Hi Hp Hne.
  destruct (allocate_loop_spec _ buf sf es fuel m m 0 [] Hd Hsf (Z.le_refl 0) Ha (fun _ _ => eq_refl) Hf) as [m' E].
  unfold filesystem_Init. rewrite initrd_blocks. cbn [Format_Register app Format_AllocateBlock].
  change (USTAR_AllocateBlock fuel sf (mk_ramdisk start 512 blocks PermRead) m buf) with
    (allocate_loop fuel sf (mk_ramdisk start 512 blocks PermRead) m buf 0 []). rewrite E. cbn [app].
  unfold Mount. rewrite (proj2 (Z.eqb_neq pinit 0)), (proj2 (Z.eqb_neq pdev 0)) by done.
  eexists _, _, m'. split; [reflexivity|]. split; [intros p; by apply booted_path|].
  set (objects := fun a => _). intros handle p garbage Hp0.
  pose proof (Ls_prints objects (booted pinit pdev)) as HL. split.
  - assert (__CreateOpenFile (booted pinit pdev) dev_path = mk_open pdev root_path 0) as Ho
      by (unfold __CreateOpenFile; by rewrite booted_path by done).
    rewrite (HL dev_path handle p garbage (DeviceFilesystem (Framebuffer_Init W H fb 3 [])) garbage); rewrite ?Ho;
      [reflexivity|done|apply lookup_empty| |done].
    cbn [of_fs]. unfold objects. by rewrite Z.eqb_refl.
  - eexists. split.
    + apply (HL root_path handle p garbage (USTAR readfuel (mk_ramdisk start 512 blocks PermRead) buf' (files_of 0 es))
        (Z.of_nat (length (files_of 0 es)))); [done|apply lookup_empty| |done].
      change (objects pinit = Some (USTAR readfuel (mk_ramdisk start 512 blocks PermRead) buf' (files_of 0 es))).
      unfold objects. by rewrite (proj2 (Z.eqb_neq pinit pdev)), Z.eqb_refl by done.
    + intros n. cbn [USTAR Readdir]. rewrite list_elem_of_fmap. split.
      * intros ([n' st] & -> & Hin). apply readdir_loop_spec in Hin as (j & f & Hj & _ & Hn & Hs & _).
        exists f. split; [by eapply list_elem_of_lookup_2|done].
      * intros (f & Hin & Hn & Hs). apply list_elem_of_lookup in Hin as [j Hj]. exists (n, ustar_Stat f). split; [done|].
        apply readdir_loop_spec. exists j, f. split_and!; try done. apply lookup_lt_Some in Hj. lia.
Qed.
Lemma filesystem_Init_correct_witness :
  exists objects devices m',
    filesystem_Init 2 155 10 65536 69632 0 0 2 2 4096 demo_archive 4096 5632 7 = Some (booted 65536 69632, objects, devices, m') /\
    FilesystemOfPath (booted 65536 69632) [47; 97] = (65536, [47; 97]) /\
    filesystem_Ls objects (booted 65536 69632) dev_path 0 73728 0 = Some ([[102; 98; 48]], booted 65536 69632).
Proof.
  destruct (filesystem_Init_correct 2 155 10 65536 69632 0 0 2 2 4096 demo_archive 4096 3 7 [demo_entry]) as (o & d & m' & H1 & H2 & H3).
  - exact demo_disk_ok.
  - exact demo_archive_ok.
  - lia.
  - cbn; lia.
  - discriminate.
  - discriminate.
  - discriminate.
  - exists o, d, m'. split; [exact H1|]. split; [exact (H2 [47; 97])|].
    refine (proj1 (H3 0 73728 0 _)). discriminate.
Defined.

(** Without an archive the root is never set: booting reports nothing, and
    the path "/" goes to whatever the memory of the new object held. *)
Theorem filesystem_Init_no_archive fuel sf readfuel pinit pdev buf buf' W H fb m start blocks root :
  disk_ok (mk_ramdisk start 512 blocks PermRead) buf -> 0 < blocks -> ~ ustar_block m start ->
  (155 <= sf)%nat -> pdev <> 0 -> root <> pdev ->
  exists objects devices m',
    filesystem_Init (S fuel) sf readfuel pinit pdev buf buf' W H fb m start (start + 512 * blocks) root =
      Some (booted root pdev, objects, devices, m') /\
    FilesystemOfPath (booted root pdev) root_path = (root, root_path).
Proof.
  intros Hd Hb Hm Hsf Hp Hne. pose proof Hd as [_ [Hc Hc'] _ _ _]. cbn [blockcount] in Hc, Hc'.
  unfold filesystem_Init. rewrite initrd_blocks. cbn [Format_Register app Format_AllocateBlock].
  unfold USTAR_AllocateBlock. cbn [allocate_loop]. change (bd_Size (mk_ramdisk start 512 blocks PermRead)) with blocks.
  rewrite u64_small by lia. rewrite (proj2 (Z.ltb_lt _ _) Hb).
  change (bd_ReadBlock ?d m 0 buf 1) with (ramdisk_ReadBlock d m 0 buf 1). rewrite ReadBlock_1 by (done || cbn; lia).
  rewrite has_magic_block, bool_decide_false.
  - cbn [negb Z.eqb]. unfold Mount. rewrite (proj2 (Z.eqb_neq pdev 0)) by done. eexists _, _, _. split; [reflexivity|].
    rewrite booted_path by done. done.
  - rewrite (ustar_block_shift m _ start buf); [done|]. intros k Hk. cbn [buffer]. rewrite memcpy_in by lia. f_equal. lia.
Qed.
Lemma filesystem_Init_no_archive_witness :
  exists objects devices m',
    filesystem_Init 1 155 10 65536 69632 0 0 2 2 4096 (fun _ => 0) 4096 5632 7 = Some (booted 7 69632, objects, devices, m') /\
    FilesystemOfPath (booted 7 69632) root_path = (7, root_path).
Proof. apply (filesystem_Init_no_archive 0 155 10 65536 69632 0 0 2 2 4096 (fun _ => 0) 4096 3 7 demo_disk_ok);
  try (by vm_compute); unfold ustar_block; vm_compute; discriminate. Defined.
