(* ===== verification/PE.v ===== *)
(** * PE images: headers and relocation (src/execformat/pe)

    The packed structures of format.h as lists of fields, the header walk of
    struct.c and the base relocation of reloc.c, on the machine memory. *)

From Stdlib Require Import Ascii String.
From S2P Require Import Prelude Mem Layout.

(** ** Structures *)

Definition execformat_pe_Header : layout := [
  ("machineType", 2); ("numSections", 2); ("unixTimestamp", 4); ("offsetSymbolTable", 4);
  ("numSymbols", 4); ("sizeofOptionalHeader", 2); ("flags", 2)]%string%nat.
Definition execformat_pe_OptionalHeader_StandardFields_PE32P : layout := [
  ("magic", 2); ("majorLinkerVersion", 1); ("minorLinkerVersion", 1); ("sizeofText", 4);
  ("sizeofData", 4); ("sizeofBss", 4); ("offsetofEntryPoint", 4); ("offsetofText", 4)]%string%nat.
Definition execformat_pe_OptionalHeader_StandardFields_PE32 : layout := [
  ("magic", 2); ("majorLinkerVersion", 1); ("minorLinkerVersion", 1); ("sizeofText", 4);
  ("sizeofData", 4); ("sizeofBss", 4); ("offsetofEntryPoint", 4); ("offsetofText", 4);
  ("offsetofData", 4)]%string%nat.
Definition execformat_pe_OptionalHeader_WindowsFields_PE32P : layout := [
  ("imageBase", 8); ("sectionAlignment", 4); ("fileAlignment", 4);
  ("majorOSVersion", 2); ("minorOSVersion", 2); ("majorImageVersion", 2); ("minorImageVersion", 2);
  ("majorSubsystemVersion", 2); ("minorSubsystemVersion", 2); ("win32VersionValue", 4);
  ("sizeofImage", 4); ("sizeofHeaders", 4); ("checksum", 4); ("subsystem", 2); ("dllFlags", 2);
  ("sizeofStackReserve", 8); ("sizeofStackCommit", 8); ("sizeofHeapReserve", 8); ("sizeofHeapCommit", 8);
  ("loaderFlags", 4); ("numRVAandSizes", 4)]%string%nat.
Definition execformat_pe_OptionalHeader_WindowsFields_PE32 : layout := [
  ("imageBase", 4); ("sectionAlignment", 4); ("fileAlignment", 4);
  ("majorOSVersion", 2); ("minorOSVersion", 2); ("majorImageVersion", 2); ("minorImageVersion", 2);
  ("majorSubsystemVersion", 2); ("minorSubsystemVersion", 2); ("win32VersionValue", 4);
  ("sizeofImage", 4); ("sizeofHeaders", 4); ("checksum", 4); ("subsystem", 2); ("dllFlags", 2);
  ("sizeofStackReserve", 4); ("sizeofStackCommit", 4); ("sizeofHeapReserve", 4); ("sizeofHeapCommit", 4);
  ("loaderFlags", 4); ("numRVAandSizes", 4)]%string%nat.
Definition execformat_pe_OptionalHeader_DataDirectory : layout := [("Offset", 4); ("Size", 4)]%string%nat.
Definition execformat_pe_SectionHeader : layout := [
  ("name", 8); ("virtualSize", 4); ("virtualAddr", 4); ("sizeofRawData", 4); ("pointerToRawData", 4);
  ("pointerToRelocations", 4); ("pointerToLineNumbers", 4); ("numRelocations", 2);
  ("numLineNumbers", 2); ("flags", 4)]%string%nat.
Definition execformat_pe_BaseRelocBlock : layout := [("pageOffset", 4); ("blockSize", 4)]%string%nat.

(** A structure of structures: [std], [win] and one data directory. *)
Definition execformat_pe_OptionalHeader_PE32P : layout := [
  ("std", Z.to_nat (sizeof execformat_pe_OptionalHeader_StandardFields_PE32P));
  ("win", Z.to_nat (sizeof execformat_pe_OptionalHeader_WindowsFields_PE32P));
  ("data", Z.to_nat (sizeof execformat_pe_OptionalHeader_DataDirectory))]%string.
Definition execformat_pe_OptionalHeader_PE32 : layout := [
  ("std", Z.to_nat (sizeof execformat_pe_OptionalHeader_StandardFields_PE32));
  ("win", Z.to_nat (sizeof execformat_pe_OptionalHeader_WindowsFields_PE32));
  ("data", Z.to_nat (sizeof execformat_pe_OptionalHeader_DataDirectory))]%string.

(** The assertions of [execformat_pe_OptionalHeader_CheckPacking]. *)
Definition execformat_pe_OptionalHeader_CheckPacking : bool :=
  (sizeof execformat_pe_OptionalHeader_StandardFields_PE32 =? 28) &&
  (sizeof execformat_pe_OptionalHeader_StandardFields_PE32P =? 24) &&
  (sizeof execformat_pe_OptionalHeader_WindowsFields_PE32 =? 68) &&
  (sizeof execformat_pe_OptionalHeader_WindowsFields_PE32P =? 88) &&
  bool_decide (offsetof execformat_pe_OptionalHeader_PE32 "std" = Some 0) &&
  bool_decide (offsetof execformat_pe_OptionalHeader_PE32 "win" = Some 28) &&
  bool_decide (offsetof execformat_pe_OptionalHeader_PE32 "data" = Some 96) &&
  bool_decide (offsetof execformat_pe_OptionalHeader_PE32P "std" = Some 0) &&
  bool_decide (offsetof execformat_pe_OptionalHeader_PE32P "win" = Some 24) &&
  bool_decide (offsetof execformat_pe_OptionalHeader_PE32P "data" = Some 112).

Definition EXECFORMAT_PE_HEADER_MAGIC : list Z := [80; 69; 0; 0].  (* "PE\0\0" *)
Definition EXECFORMAT_PE_OPTIONAL_HEADER_MAGIC_PE32P : Z := 0x20b.

(** ** Loading *)

Record execformat_pe_PortableExecutable := mk_pe {
  pe_begin : Z; pemagic : Z; header : Z; optional : Z; sections : Z;
  pe_size : Z; numDataDir : Z; numSections : Z; isPE32P : bool;
}.
(** What [execformat_pe_LoadMemory] does: it returns, having written some of
    the structure, or an assertion panics. *)
Inductive load_result :=
  | NotPE                                        (* begin is NULL *)
  | Loaded (pe : execformat_pe_PortableExecutable)
  | PanicSize
  | Overflow.                                    (* of the counter, an int *)

(** [for (int i = 8; i < size; i++) if (memcmp(...) == 0)], where [size] is a
    [uint32_t] and [i] cannot be counted up from 2^31 - 1. *)
Inductive search := Found (p : Z) | NotFound | Overflows.
Fixpoint find_magic (fuel : nat) (m : mem) (image i size : Z) : search :=
  match fuel with
  | O => NotFound
  | S fuel =>
      if i <? size then
        if bool_decide (bytes m (image + i) 4 = EXECFORMAT_PE_HEADER_MAGIC) then Found (image + i)
        else if i =? 2 ^ 31 - 1 then Overflows else find_magic fuel m image (i + 1) size
      else NotFound
  end.
Definition execformat_pe_LoadMemory (m : mem) (image size : Z) : load_result :=
  if (size <? 2) || negb (load8 m image =? 77) || negb (load8 m (image + 1) =? 90) then NotPE
  else match find_magic (Z.to_nat size) m image 8 size with
       | NotFound => NotPE
       | Overflows => Overflow
       | Found magic =>
           let hd := magic + 4 in
           let opt := hd + sizeof execformat_pe_Header in
           let plus := load16 m opt =? EXECFORMAT_PE_OPTIONAL_HEADER_MAGIC_PE32P in
           let std := sizeof (if plus then execformat_pe_OptionalHeader_StandardFields_PE32P
                              else execformat_pe_OptionalHeader_StandardFields_PE32) in
           let win := if plus then execformat_pe_OptionalHeader_WindowsFields_PE32P
                      else execformat_pe_OptionalHeader_WindowsFields_PE32 in
           let dirs := i32 (get m (opt + std) win "numRVAandSizes") in
           let secs := u64 (opt + std + sizeof win +
                            u64 (sizeof execformat_pe_OptionalHeader_DataDirectory * dirs)) in
           if i64 (secs - opt) =? get m hd execformat_pe_Header "sizeofOptionalHeader"
           then Loaded (mk_pe image magic hd opt secs size dirs
                          (get m hd execformat_pe_Header "numSections") plus)
           else PanicSize
       end.

(** The image of the kernel itself, as the firmware loaded it (read_headers.c).  A
    header that is not found is printed all the same, through a pointer that was
    never set: [None]. *)
Definition execformat_pe_ReadSystemHeader (m : mem) (LoaderCodeAddress LoaderCodeSize : Z)
    : option execformat_pe_PortableExecutable :=
  match execformat_pe_LoadMemory m LoaderCodeAddress (u32 LoaderCodeSize) with Loaded pe => Some pe | _ => None end.

Definition section (pe : execformat_pe_PortableExecutable) (i : Z) : Z :=
  sections pe + i * sizeof execformat_pe_SectionHeader.

(** ** Base relocation *)

Definition EXECFORMAT_PE_BASERELOC_HIGH : Z := 0x1000.
Definition EXECFORMAT_PE_BASERELOC_LOW : Z := 0x2000.
Definition EXECFORMAT_PE_BASERELOC_HIGHLOW : Z := 0x3000.
Definition EXECFORMAT_PE_BASERELOC_HIGHADJ : Z := 0x4000.
Definition EXECFORMAT_PE_BASERELOC_DIR64 : Z := 0xa000.
Definition EXECFORMAT_PE_BASERELOC_FLAG_MASK : Z := 0xf000.
Definition EXECFORMAT_PE_BASERELOC_OFFSET_MASK : Z := 0x0fff.

(** [strncmp] of a string in memory with a literal, at most [n] bytes: 0 or the
    difference of the first bytes that differ. *)
Fixpoint __local_strncmp (m : mem) (s1 : Z) (s2 : list Z) (n : nat) : Z :=
  match n with
  | O => 0
  | S n =>
      let a := load8 m s1 in let b := hd 0 s2 in
      if negb (a =? 0) && (a =? b) then __local_strncmp m (s1 + 1) (tail s2) n else a - b
  end.
Definition reloc_name : list Z := [46; 114; 101; 108; 111; 99].  (* ".reloc" *)

(** The section table is searched in order. *)
Fixpoint find_reloc (fuel : nat) (m : mem) (pe : execformat_pe_PortableExecutable) (i : Z) : option (Z * Z) :=
  match fuel with
  | O => None
  | S fuel =>
      if i <? numSections pe then
        let s := section pe i in
        if __local_strncmp m s reloc_name 6 =? 0 then
          let r := pe_begin pe + get m s execformat_pe_SectionHeader "virtualAddr" in
          Some (r, r + get m s execformat_pe_SectionHeader "virtualSize")
        else find_reloc fuel m pe (i + 1)
      else None
  end.

(** One entry: the width in bytes and the amount added, by its type. *)
Definition reloc_kind (entry diff : Z) : option (nat * Z) :=
  let t := Z.land entry EXECFORMAT_PE_BASERELOC_FLAG_MASK in
  if t =? EXECFORMAT_PE_BASERELOC_HIGH then Some (2%nat, u16 (Z.shiftr diff 16))
  else if t =? EXECFORMAT_PE_BASERELOC_LOW then Some (2%nat, u16 diff)
  else if t =? EXECFORMAT_PE_BASERELOC_HIGHLOW then Some (4%nat, u32 diff)
  else if t =? EXECFORMAT_PE_BASERELOC_DIR64 then Some (8%nat, diff)
  else None.
(** [*target += ...] *)
Definition add_at (m : mem) (w : nat) (target d : Z) : mem :=
  store w m target ((load w m target + d) mod 256 ^ Z.of_nat w).
Definition entry_at (m : mem) (block i : Z) : Z := load16 m (block + 8 + 2 * i).

Fixpoint entries_loop (fuel : nat) (m : mem) (base block i n diff : Z) : mem :=
  match fuel with
  | O => m
  | S fuel =>
      if i <? n then
        let e := entry_at m block i in
        let target := base + get m block execformat_pe_BaseRelocBlock "pageOffset" +
                      Z.land e EXECFORMAT_PE_BASERELOC_OFFSET_MASK in
        if Z.land e EXECFORMAT_PE_BASERELOC_FLAG_MASK =? EXECFORMAT_PE_BASERELOC_HIGHADJ
        then entries_loop fuel m base block (i + 2) n diff
        else match reloc_kind e diff with
             | Some (w, d) => entries_loop fuel (add_at m w target d) base block (i + 1) n diff
             | None => entries_loop fuel m base block (i + 1) n diff
             end
      else m
  end.
(** The blocks; [None] when an assertion fails or the fuel runs out. *)
Fixpoint blocks_loop (fuel : nat) (m : mem) (base reloc reloc_end diff : Z) : option mem :=
  if reloc <? reloc_end then
    match fuel with
    | O => None
    | S fuel =>
        let size := get m reloc execformat_pe_BaseRelocBlock "blockSize" in
        let n := i32 (u32 (size - 8) / 2) in
        if u32 (size - 8) mod 2 =? 0 then
          let m := entries_loop (Z.to_nat n) m base reloc 0 n diff in
          blocks_loop fuel m base (reloc + get m reloc execformat_pe_BaseRelocBlock "blockSize") reloc_end diff
        else None
    end
  else Some m.

Definition execformat_pe_BaseRelocate (fuel : nat) (m : mem) (pe : execformat_pe_PortableExecutable)
    (relocBase relocEnd currentBase targetBase : Z) : option mem :=
  if pe_begin pe =? 0 then Some m
  else
    let currentBase :=
      if currentBase =? 0 then
        if isPE32P pe
        then get m (optional pe + sizeof execformat_pe_OptionalHeader_StandardFields_PE32P)
               execformat_pe_OptionalHeader_WindowsFields_PE32P "imageBase"
        else get m (optional pe + sizeof execformat_pe_OptionalHeader_StandardFields_PE32)
               execformat_pe_OptionalHeader_WindowsFields_PE32 "imageBase"
      else currentBase in
    let range :=
      if negb (relocBase =? 0) && negb (relocEnd =? 0) then Some (relocBase, relocEnd)
      else find_reloc (Z.to_nat (numSections pe)) m pe 0 in
    match range with
    | Some (reloc, reloc_end) => blocks_loop fuel m (pe_begin pe) reloc reloc_end (u64 (targetBase - currentBase))
    | None => Some m
    end.
