(* ===== verification/PEProps.v ===== *)
(** * Properties of the PE loader: packing, header search and base relocation *)

From Stdlib Require Import Ascii String.
From S2P Require Import Prelude Mem Layout PE.

(** The packed structures have the sizes and offsets the code asserts. *)
Lemma CheckPacking_ok : execformat_pe_OptionalHeader_CheckPacking = true.
Proof. by vm_compute. Qed.

(** ** A relocation table *)

(** What the PE format says of an entry: its high 4 bits are the type, the low 12
    the offset in the page.  A type has the width of the field in bytes and the
    amount added to it: type 1 adds the high 16 bits of the difference to a 16-bit
    field, 2 the low 16 bits, 3 all 32 bits to a 32-bit field, 10 the difference to
    a 64-bit field.  Type 4 takes the next entry as its operand and is passed over
    with it, as reloc.h says; the others are padding. *)
Definition fixup (type diff : Z) : option (nat * Z) :=
  match type with
  | 1 => Some (2%nat, diff / 2 ^ 16)
  | 2 => Some (2%nat, diff)
  | 3 => Some (4%nat, diff)
  | 10 => Some (8%nat, diff)
  | _ => None
  end.
(** The relocations of a block's entries: address, width and amount. *)
Fixpoint block_relocs (base page diff : Z) (es : list Z) : list (Z * nat * Z) :=
  match es with
  | [] => []
  | e :: es1 =>
      if e / 4096 =? 4
      then match es1 with [] => [] | _ :: es2 => block_relocs base page diff es2 end
      else match fixup (e / 4096) diff with
           | Some (w, d) => (base + page + e mod 4096, w, d) :: block_relocs base page diff es1
           | None => block_relocs base page diff es1
           end
  end.
(** A table: page offsets and entries. *)
Definition table_relocs (base diff : Z) (bs : list (Z * list Z)) : list (Z * nat * Z) :=
  mjoin ((fun b => block_relocs base b.1 diff b.2) <$> bs).
Definition block_size (b : Z * list Z) : Z := 8 + 2 * Z.of_nat (length b.2).
Definition table_size (bs : list (Z * list Z)) : Z := foldr (fun b n => block_size b + n) 0 bs.
(** The table lies in memory at [a]. *)
Definition block_at (m : mem) (a : Z) (b : Z * list Z) : Prop :=
  get m a execformat_pe_BaseRelocBlock "pageOffset" = b.1 /\
  get m a execformat_pe_BaseRelocBlock "blockSize" = block_size b /\
  forall (i : nat) e, b.2 !! i = Some e -> entry_at m a (Z.of_nat i) = e.
Fixpoint table_at (m : mem) (a : Z) (bs : list (Z * list Z)) : Prop :=
  match bs with
  | [] => True
  | b :: bs => block_at m a b /\ table_at m (a + block_size b) bs
  end.
(** No relocation touches the bytes [a .. a + k - 1]. *)
Definition clear_of (l : list (Z * nat * Z)) (a k : Z) : Prop :=
  Forall (fun '(t, w, _) => t + Z.of_nat w <= a \/ a + k <= t) l.
Definition apply_relocs (m : mem) (l : list (Z * nat * Z)) : mem :=
  foldl (fun m '(t, w, d) => add_at m w t d) m l.

(** ** Lemmas *)

Lemma get_load m p l name o w : field l name = Some (o, w) -> get m p l name = load w m (p + o).
Proof. intros E. unfold get. by rewrite E. Qed.
Lemma load_add_at m w t d n a :
  a + Z.of_nat n <= t \/ t + Z.of_nat w <= a -> load n (add_at m w t d) a = load n m a.
Proof. intros. unfold add_at. apply load_store_ne. lia. Qed.

(** Adding where the table is not keeps the table. *)
Lemma block_at_add m a b w t d :
  t + Z.of_nat w <= a \/ a + block_size b <= t -> block_at m a b -> block_at (add_at m w t d) a b.
Proof.
  unfold block_at, block_size. intros Ht (H1 & H2 & H3). split_and!.
  - rewrite <- H1, !(get_load _ _ _ _ 0 4) by done. apply load_add_at. lia.
  - rewrite <- H2, !(get_load _ _ _ _ 4 4) by done. apply load_add_at. lia.
  - intros i e Hi. rewrite <- (H3 i e Hi). pose proof (lookup_lt_Some _ _ _ Hi).
    unfold entry_at. apply load_add_at. lia.
Qed.
Lemma block_size_pos b : 8 <= block_size b.
Proof. unfold block_size. lia. Qed.
Lemma table_size_nonneg bs : 0 <= table_size bs.
Proof. induction bs as [|b bs IH]; cbn [table_size foldr]; [lia|]. pose proof (block_size_pos b). unfold table_size in IH. lia. Qed.
Lemma table_at_add m bs w t d : forall a,
  t + Z.of_nat w <= a \/ a + table_size bs <= t -> table_at m a bs -> table_at (add_at m w t d) a bs.
Proof.
  induction bs as [|b bs IH]; intros a Ht Hat; [done|]. cbn [table_at table_size foldr] in *.
  fold (table_size bs) in Ht. pose proof (block_size_pos b).
  pose proof (table_size_nonneg bs) as H0.
  destruct Hat as [Hb Hat]. split; [apply block_at_add; [lia|done]|apply IH; [lia|done]].
Qed.
Lemma table_at_apply l bs : forall m a,
  clear_of l a (table_size bs) -> table_at m a bs -> table_at (apply_relocs m l) a bs.
Proof.
  unfold apply_relocs. induction l as [|[[t w] d] l IH]; intros m a Hc Hat; [done|].
  apply Forall_cons in Hc as [Hc1 Hc]. cbn [foldl]. apply IH; [done|]. apply table_at_add; [lia|done].
Qed.
Lemma block_at_apply l b : forall m a,
  clear_of l a (block_size b) -> block_at m a b -> block_at (apply_relocs m l) a b.
Proof.
  unfold apply_relocs. induction l as [|[[t w] d] l IH]; intros m a Hc Hat; [done|].
  apply Forall_cons in Hc as [Hc1 Hc]. cbn [foldl]. apply IH; [done|]. apply block_at_add; [lia|done].
Qed.

(** The masks of the code take the type and the offset. *)
Lemma entry_type e : 0 <= e < 2 ^ 16 -> Z.land e EXECFORMAT_PE_BASERELOC_FLAG_MASK = 4096 * (e / 4096).
Proof.
  change (2 ^ 16) with 65536. intros He. change EXECFORMAT_PE_BASERELOC_FLAG_MASK with (Z.shiftl (Z.ones 4) 12).
  assert (e = Z.shiftl (e / 4096) 12 + e mod 4096) as Ee by (rewrite Z.shiftl_mul_pow2 by lia; change (2 ^ 12) with 4096; lia).
  apply Z.bits_inj'. intros n Hn. rewrite Z.land_spec. replace (4096 * (e / 4096)) with (Z.shiftl (Z.shiftr e 12) 12) by
    (rewrite Z.shiftl_mul_pow2, Z.shiftr_div_pow2 by lia; change (2 ^ 12) with 4096; lia).
  destruct (Z.lt_ge_cases n 12).
  - rewrite !Z.shiftl_spec_low by lia. by rewrite andb_false_r.
  - rewrite !Z.shiftl_spec, Z.shiftr_spec by lia. replace (n - 12 + 12) with n by lia.
    destruct (Z.lt_ge_cases n 16); [by rewrite Z.ones_spec_low, andb_true_r by lia|].
    rewrite (Z.ones_spec_high 4), andb_false_r by lia. symmetry. apply Z.testbit_false; [lia|]. rewrite Z.div_small; [done|].
    split; [lia|]. apply Z.lt_le_trans with (2 ^ 16); [apply He|]. apply Z.pow_le_mono_r; lia.
Qed.
Lemma entry_offset e : Z.land e EXECFORMAT_PE_BASERELOC_OFFSET_MASK = e mod 4096.
Proof. apply (Z.land_ones e 12). lia. Qed.
Lemma add_at_eqm m w t d d' : (d - d') mod 256 ^ Z.of_nat w = 0 -> add_at m w t d = add_at m w t d'.
Proof.
  intros E. unfold add_at. f_equal. assert (0 < 256 ^ Z.of_nat w) by (apply Z.pow_pos_nonneg; lia).
  replace (load w m t + d) with (load w m t + d' + (d - d')) by lia. rewrite Z.add_mod, E, Z.add_0_r, Z.mod_mod by lia. done.
Qed.
(** An entry does what its type says. *)
Lemma entry_fixup e diff m t : 0 <= e < 2 ^ 16 ->
  (Z.land e EXECFORMAT_PE_BASERELOC_FLAG_MASK =? EXECFORMAT_PE_BASERELOC_HIGHADJ) = (e / 4096 =? 4) /\
  match reloc_kind e diff, fixup (e / 4096) diff with
  | Some (w, d), Some (w', d') => w = w' /\ add_at m w t d = add_at m w' t d'
  | None, None => True
  | _, _ => False
  end.
Proof.
  intros He. unfold reloc_kind. rewrite entry_type by done. change (2 ^ 16) with 65536 in He.
  assert (e / 4096 ∈ seqZ 0 16) as Hk by (apply elem_of_seqZ; lia). revert Hk. generalize (e / 4096). intros k Hk.
  vm_compute seqZ in Hk. repeat setoid_rewrite elem_of_cons in Hk.
  destruct_or? Hk; subst; try (by apply elem_of_nil in Hk); (split; [done|]); cbn -[add_at]; try done; (split; [done|]);
    apply add_at_eqm; rewrite ?Z.shiftr_div_pow2 by lia; unfold u16, u32; change (2 ^ 16) with 65536; cbn; lia.
Qed.

(** The entries of a block. *)
Lemma entries_loop_spec base diff b a : forall fuel m (i : nat),
  block_at m a b -> (length b.2 - i <= fuel)%nat ->
  clear_of (block_relocs base b.1 diff (drop i b.2)) a (block_size b) ->
  entries_loop fuel m base a (Z.of_nat i) (Z.of_nat (length b.2)) diff =
  apply_relocs m (block_relocs base b.1 diff (drop i b.2)).
Proof.
  induction fuel as [|fuel IH]; intros m i Hb Hf Hc; cbn [entries_loop].
  { rewrite drop_ge by lia. done. }
  destruct (Z.ltb_spec (Z.of_nat i) (Z.of_nat (length b.2))) as [Hlt|Hge].
  2: { rewrite drop_ge by lia. done. }
  destruct (lookup_lt_is_Some_2 b.2 i) as [e He]; [lia|].
  pose proof Hb as (Hp & _ & Hes). rewrite (Hes i e He), Hp. revert Hc.
  rewrite (drop_S _ _ _ He). cbn [block_relocs].
  assert (match drop (S i) b.2 with [] => [] | _ :: es2 => block_relocs base b.1 diff es2 end =
    block_relocs base b.1 diff (drop (S (S i)) b.2)) as E2.
  { destruct (b.2 !! S i) as [e2|] eqn:E2.
    - by rewrite (drop_S _ _ _ E2).
    - apply lookup_ge_None in E2. by rewrite !drop_ge by lia. }
  assert (0 <= e < 2 ^ 16) as Hr by (rewrite <- (Hes i e He); apply (load_range 2)).
  destruct (entry_fixup e diff m (base + b.1 + e mod 4096) Hr) as [-> Hk]. rewrite entry_offset.
  destruct (e / 4096 =? 4).
  - rewrite E2. intros Hc. rewrite <- IH by (done || lia). f_equal. lia.
  - replace (Z.of_nat i + 1) with (Z.of_nat (S i)) by lia.
    destruct (reloc_kind e diff) as [[w0 d0]|], (fixup (e / 4096) diff) as [[w d]|]; try done; intros Hc.
    + destruct Hk as [-> ->]. apply Forall_cons in Hc as [Hc1 Hc]. rewrite IH; [done| |lia|done]. apply block_at_add; [lia|done].
    + by rewrite <- IH by (done || lia).
Qed.

Lemma blocks_loop_spec base diff bs : forall m a fuel,
  table_at m a bs -> (length bs <= fuel)%nat ->
  Forall (fun b => block_size b < 2 ^ 32) bs ->
  clear_of (table_relocs base diff bs) a (table_size bs) ->
  blocks_loop fuel m base a (a + table_size bs) diff = Some (apply_relocs m (table_relocs base diff bs)).
Proof.
  change (2 ^ 32) with 4294967296.
  induction bs as [|b bs IH]; intros m a fuel Hat Hf Hs Hc.
  { destruct fuel; cbn [blocks_loop table_size foldr]; rewrite (proj2 (Z.ltb_ge _ _)) by lia; done. }
  destruct fuel as [|fuel]; [simpl in Hf; lia|]. cbn [blocks_loop table_size foldr].
  fold (table_size bs). cbn [table_at] in Hat. destruct Hat as [Hb Hat].
  apply Forall_cons in Hs as [Hs1 Hs].
  change (table_relocs base diff (b :: bs)) with (block_relocs base b.1 diff b.2 ++ table_relocs base diff bs) in *.
  apply Forall_app in Hc as [Hc1 Hc2]. pose proof (block_size_pos b) as Hp.
  pose proof (table_size_nonneg bs) as H0.
  assert (clear_of (block_relocs base b.1 diff b.2) a (block_size b) /\
    clear_of (block_relocs base b.1 diff b.2) (a + block_size b) (table_size bs) /\
    clear_of (table_relocs base diff bs) (a + block_size b) (table_size bs)) as (Hcb & Hcr & Hct).
  { unfold clear_of in *. cbn [table_size foldr] in Hc1, Hc2. fold (table_size bs) in Hc1, Hc2.
    split_and!; [eapply Forall_impl; [exact Hc1|]|eapply Forall_impl; [exact Hc1|]|eapply Forall_impl; [exact Hc2|]];
      intros [[t w] d]; lia. }
  rewrite (proj2 (Z.ltb_lt _ _)) by lia. pose proof Hb as (_ & Hsz & _). rewrite Hsz.
  assert (u32 (block_size b - 8) = 2 * Z.of_nat (length b.2)) as E by (unfold block_size in *; word_lia).
  rewrite E, (Z.mul_comm 2), Z.mod_mul, Z.div_mul by lia. cbn [Z.eqb].
  rewrite (i32_small (Z.of_nat (length b.2))) by (unfold block_size in *; lia).
  pose proof (entries_loop_spec base diff b a (Z.to_nat (Z.of_nat (length b.2))) m 0 Hb ltac:(lia) Hcb) as He.
  change (Z.of_nat 0) with 0 in He. rewrite drop_0 in He. rewrite He.
  pose proof (block_at_apply _ b m a Hcb Hb) as (_ & Hsz' & _). rewrite Hsz'.
  replace (a + (block_size b + table_size bs)) with (a + block_size b + table_size bs) by lia.
  rewrite IH; [|by apply table_at_apply|simpl in Hf; lia|done|done].
  unfold apply_relocs. by rewrite foldl_app.
Qed.

(** Relocations that do not overlap, one by one. *)
Definition reloc_apart (r s : Z * nat * Z) : Prop :=
  r.1.1 + Z.of_nat r.1.2 <= s.1.1 \/ s.1.1 + Z.of_nat s.1.2 <= r.1.1.
Lemma apply_relocs_spec l : forall m,
  ForallOrdPairs reloc_apart l ->
  (forall t w d, (t, w, d) ∈ l -> load w (apply_relocs m l) t = (load w m t + d) mod 256 ^ Z.of_nat w) /\
  (forall x, (forall t w d, (t, w, d) ∈ l -> ~ (t <= x < t + Z.of_nat w)) -> apply_relocs m l x = m x).
Proof.
  induction l as [|[[t w] d] l IH]; intros m Hp.
  { split; [intros ? ? ? Hin; by apply not_elem_of_nil in Hin|done]. }
  inversion Hp as [|r l' Hf Hp' E1]; subst. unfold apply_relocs. cbn [foldl]. fold (apply_relocs (add_at m w t d) l).
  destruct (IH (add_at m w t d) Hp') as [IH1 IH2]. rewrite Forall_forall in Hf. split.
  - intros t' w' d' Hin. apply elem_of_cons in Hin as [[= -> -> ->]|Hin].
    + transitivity (load w (add_at m w t d) t).
      * apply load_ext. intros x Hx. apply IH2. intros t' w' d' Hin Hx'.
        specialize (Hf _ Hin). unfold reloc_apart in Hf. cbn in Hf. lia.
      * unfold add_at. rewrite load_store_eq. by rewrite Z.mod_mod by (apply Z.pow_nonzero; lia).
    + rewrite (IH1 _ _ _ Hin). specialize (Hf _ Hin). unfold reloc_apart in Hf. cbn in Hf.
      by rewrite load_add_at by lia.
  - intros x Hx. rewrite IH2.
    + unfold add_at. apply store_outside. apply (Hx t w d). by left.
    + intros t' w' d' Hin. apply (Hx t' w' d'). by right.
Qed.

(** What is read: the headers, and the table. *)
Lemma get_ext m m' p l name o w : field l name = Some (o, w) ->
  (forall x, p + o <= x < p + o + Z.of_nat w -> m' x = m x) -> get m' p l name = get m p l name.
Proof. intros E Hm. rewrite !(get_load _ _ _ _ o w) by done. by apply load_ext. Qed.
Lemma find_magic_ge fuel m image size : forall i p, find_magic fuel m image i size = Found p -> image + i <= p.
Proof.
  induction fuel as [|fuel IH]; intros i p; cbn [find_magic]; [done|]. destruct (i <? size); [|done].
  case_bool_decide; [intros [= <-]; lia|]. destruct (i =? _); [done|]. intros Hf%IH. lia.
Qed.
Lemma find_magic_ext fuel m m' image size : forall i p, find_magic fuel m image i size = Found p ->
  (forall x, image + i <= x < p + 4 -> m' x = m x) -> find_magic fuel m' image i size = Found p.
Proof.
  induction fuel as [|fuel IH]; intros i p Hf Hm; cbn [find_magic] in *; [done|]. destruct (i <? size); [|done].
  assert (bytes m' (image + i) 4 = bytes m (image + i) 4) as ->.
  { apply bytes_ext. intros x Hx. apply Hm. case_bool_decide; [injection Hf as <-; lia|]. destruct (i =? _); [done|]. apply find_magic_ge in Hf. lia. }
  case_bool_decide; [done|]. destruct (i =? _); [done|]. apply IH; [done|]. intros x Hx. apply Hm. lia.
Qed.
Lemma LoadMemory_ext m m' image size pe : execformat_pe_LoadMemory m image size = Loaded pe ->
  (forall x, image <= x < optional pe + 112 -> m' x = m x) ->
  execformat_pe_LoadMemory m' image size = Loaded pe /\ pe_begin pe = image.
Proof.
  intros Hl Hm. assert (pe_begin pe = image /\ exists p, find_magic (Z.to_nat size) m image 8 size = Found p /\ optional pe = p + 24)
    as (Hb & p & Hf & Ho).
  { clear Hm. unfold execformat_pe_LoadMemory in Hl. destruct (_ || _ || _); [done|].
    destruct (find_magic _ m image 8 size) as [p| |]; [|done|done]. cbv zeta in Hl. destruct (_ =? _) in Hl; [|done].
    injection Hl as <-. split; [done|]. exists p. split; [done|]. cbn [optional]. change (sizeof execformat_pe_Header) with 20. lia. }
  split; [|done]. rewrite <- Hl. unfold execformat_pe_LoadMemory. pose proof (find_magic_ge _ _ _ _ _ _ Hf) as Hp.
  assert (forall x, image <= x < p + 136 -> m' x = m x) as Hm' by (intros x Hx; apply Hm; lia).
  unfold load8. rewrite !Hm', Hf by lia. rewrite (find_magic_ext _ m) with (p := p) by (done || (intros; apply Hm'; lia)).
  change (sizeof execformat_pe_Header) with 20. cbv zeta.
  assert (load16 m' (p + 4 + 20) = load16 m (p + 4 + 20)) as -> by (apply load_ext; intros x Hx; apply Hm'; lia).
  rewrite (get_ext m m' _ execformat_pe_Header "sizeofOptionalHeader" 16 2) by (done || (intros; apply Hm'; lia)).
  rewrite (get_ext m m' _ execformat_pe_Header "numSections" 2 2) by (done || (intros; apply Hm'; lia)).
  destruct (load16 m (p + 4 + 20) =? EXECFORMAT_PE_OPTIONAL_HEADER_MAGIC_PE32P).
  - change (sizeof execformat_pe_OptionalHeader_StandardFields_PE32P) with 24.
    by rewrite (get_ext m m' _ _ "numRVAandSizes" 84 4) by (done || (intros; apply Hm'; lia)).
  - change (sizeof execformat_pe_OptionalHeader_StandardFields_PE32) with 28.
    by rewrite (get_ext m m' _ _ "numRVAandSizes" 64 4) by (done || (intros; apply Hm'; lia)).
Qed.
Lemma table_at_ext m m' bs : forall a, table_at m a bs -> (forall x, a <= x < a + table_size bs -> m' x = m x) -> table_at m' a bs.
Proof.
  induction bs as [|b bs IH]; intros a Hat Hm; [done|]. cbn [table_at table_size foldr] in *. fold (table_size bs) in Hm.
  pose proof (block_size_pos b). pose proof (table_size_nonneg bs) as H0.
  destruct Hat as [(H1 & H2 & H3) Hat]. split; [split_and!|].
  - rewrite <- H1. apply (get_ext _ _ _ _ _ 0 4); [done|]. intros. apply Hm. lia.
  - rewrite <- H2. apply (get_ext _ _ _ _ _ 4 4); [done|]. intros. apply Hm. lia.
  - intros i e Hi. rewrite <- (H3 i e Hi). pose proof (lookup_lt_Some _ _ _ Hi). unfold block_size in *.
    apply load_ext. intros. apply Hm. lia.
  - apply IH; [done|]. intros. apply Hm. lia.
Qed.

Lemma BaseRelocate_spec m pe relocBase currentBase targetBase bs :
  pe_begin pe <> 0 -> relocBase <> 0 -> relocBase + table_size bs <> 0 -> currentBase <> 0 ->
  let rs := table_relocs (pe_begin pe) (u64 (targetBase - currentBase)) bs in
  table_at m relocBase bs -> Forall (fun b => block_size b < 2 ^ 32) bs -> clear_of rs relocBase (table_size bs) ->
  execformat_pe_BaseRelocate (length bs) m pe relocBase (relocBase + table_size bs) currentBase targetBase = Some (apply_relocs m rs).
Proof.
  intros H1 H2 H3 H4 rs Hat Hs Hc. unfold execformat_pe_BaseRelocate. rewrite !(proj2 (Z.eqb_neq _ _)) by done.
  by apply blocks_loop_spec.
Qed.

(** ** Properties *)

(** C22. Base relocation: for a relocation table of whole blocks, whose
    relocations neither overlap nor touch the table, the loop ends after one
    pass over the blocks, the field of every relocation (high or low 16 bits,
    32 bits, 64 bits; padding and adjusted entries skipped) has the difference
    of the bases added in its width, and no other byte changes. *)
Theorem execformat_pe_BaseRelocate_correct m pe relocBase currentBase targetBase bs :
  pe_begin pe <> 0 -> relocBase <> 0 -> relocBase + table_size bs <> 0 -> currentBase <> 0 ->
  let diff := u64 (targetBase - currentBase) in
  let rs := table_relocs (pe_begin pe) diff bs in
  table_at m relocBase bs -> Forall (fun b => block_size b < 2 ^ 32) bs ->
  clear_of rs relocBase (table_size bs) -> ForallOrdPairs reloc_apart rs ->
  exists m', execformat_pe_BaseRelocate (length bs) m pe relocBase (relocBase + table_size bs)
               currentBase targetBase = Some m' /\
    (forall t w d, (t, w, d) ∈ rs -> load w m' t = (load w m t + d) mod 256 ^ Z.of_nat w) /\
    (forall x, (forall t w d, (t, w, d) ∈ rs -> ~ (t <= x < t + Z.of_nat w)) -> m' x = m x).
Proof.
  intros H1 H2 H3 H4 diff rs Hat Hs Hc Hp. exists (apply_relocs m rs).
  split; [by apply BaseRelocate_spec|by apply apply_relocs_spec].
Qed.

(** Searching for the magic. *)
Lemma find_magic_spec m image size : forall fuel i,
  size - i <= Z.of_nat fuel -> i < 2 ^ 31 ->
  match find_magic fuel m image i size with
  | Found p => exists j, (i <= j < size /\ j < 2 ^ 31) /\ p = image + j /\ bytes m p 4 = EXECFORMAT_PE_HEADER_MAGIC /\
      forall k, i <= k < j -> bytes m (image + k) 4 <> EXECFORMAT_PE_HEADER_MAGIC
  | NotFound => (size <= i \/ size < 2 ^ 31) /\ forall k, i <= k < size -> bytes m (image + k) 4 <> EXECFORMAT_PE_HEADER_MAGIC
  | Overflows => 2 ^ 31 <= size /\ forall k, i <= k < 2 ^ 31 -> bytes m (image + k) 4 <> EXECFORMAT_PE_HEADER_MAGIC
  end.
Proof.
  change (2 ^ 31) with 2147483648. induction fuel as [|fuel IH]; intros i Hf Hi; cbn [find_magic]; [split; [lia|intros; lia]|].
  destruct (Z.ltb_spec i size); [|split; [lia|intros; lia]]. case_bool_decide as Hb.
  { exists i. split_and!; [lia|lia|lia|done|done|intros; lia]. }
  change (2 ^ 31 - 1) with 2147483647. destruct (Z.eqb_spec i 2147483647) as [->|Hne].
  { split; [lia|]. intros k Hk. by replace k with 2147483647 by lia. }
  specialize (IH (i + 1) ltac:(lia) ltac:(lia)).
  assert (forall (Q : Z -> Prop) k n, (i + 1 <= k < n -> Q k) -> Q i -> i <= k < n -> Q k) as Hstep.
  { intros Q k n Hq H0 Hk. destruct (decide (k = i)) as [->|]; [done|apply Hq; lia]. }
  destruct (find_magic fuel m image (i + 1) size) as [p| |].
  - destruct IH as (j & Hj & -> & Hm & Hk). exists j. split_and!; [lia|lia|lia|done|done|].
    intros k. apply (Hstep (fun k => bytes m (image + k) 4 <> _)); [apply Hk|done].
  - destruct IH as [Hs Hk]. split; [lia|]. intros k. apply (Hstep (fun k => bytes m (image + k) 4 <> _)); [apply Hk|done].
  - destruct IH as [Hs Hk]. split; [lia|]. intros k. apply (Hstep (fun k => bytes m (image + k) 4 <> _)); [apply Hk|done].
Qed.

(** C21. Loading finds the headers: the structure is left empty exactly when the
    image is shorter than two bytes, does not begin with MZ or, being of less than
    2 GiB, has no PE magic from byte 8 on, and the counter overflows exactly when a
    larger image has none in its first 2 GiB; a loaded one has the first magic, the
    COFF header after it, the optional header after that, and its section table
    right after the optional header of the size the COFF header states. *)
Theorem execformat_pe_LoadMemory_correct m image size :
  0 <= size ->
  let marked := 2 <= size /\ load8 m image = 77 /\ load8 m (image + 1) = 90 in
  let none_below n := forall k, 8 <= k < n -> bytes m (image + k) 4 <> EXECFORMAT_PE_HEADER_MAGIC in
  (execformat_pe_LoadMemory m image size = NotPE <->
     size < 2 \/ load8 m image <> 77 \/ load8 m (image + 1) <> 90 \/ size < 2 ^ 31 /\ none_below size) /\
  (execformat_pe_LoadMemory m image size = Overflow <-> marked /\ 2 ^ 31 <= size /\ none_below (2 ^ 31)) /\
  (forall pe, execformat_pe_LoadMemory m image size = Loaded pe ->
     pe_begin pe = image /\ pe_size pe = size /\
     (exists j, 8 <= j < size /\ j < 2 ^ 31 /\ pemagic pe = image + j /\ bytes m (pemagic pe) 4 = EXECFORMAT_PE_HEADER_MAGIC /\
        forall k, 8 <= k < j -> bytes m (image + k) 4 <> EXECFORMAT_PE_HEADER_MAGIC) /\
     header pe = pemagic pe + 4 /\ optional pe = pemagic pe + 24 /\
     i64 (sections pe - optional pe) = get m (header pe) execformat_pe_Header "sizeofOptionalHeader" /\
     numSections pe = get m (header pe) execformat_pe_Header "numSections").
Proof.
  intros Hsz marked none_below. unfold execformat_pe_LoadMemory.
  pose proof (find_magic_spec m image size (Z.to_nat size) 8 ltac:(lia) ltac:(lia)) as Hf.
  destruct (Z.ltb_spec size 2), (Z.eqb_spec (load8 m image) 77), (Z.eqb_spec (load8 m (image + 1)) 90);
    cbn [orb negb]; try (split; [split; [intros _; tauto|done]|split; [split; [done|unfold marked; lia]|done]]).
  change (2 ^ 31) with 2147483648 in *. destruct (find_magic (Z.to_nat size) m image 8 size) as [p| |].
  - destruct Hf as (j & Hj & -> & Hm & Hk). cbv zeta.
    match goal with |- context [if ?b then Loaded _ else _] => destruct b eqn:E end.
    + split; [split; [done|]|split; [split; [done|]|]].
      * intros [?|[?|[?|[_ Hn]]]]; [lia|done|done|]. exfalso. apply (Hn j); [lia|exact Hm].
      * intros (_ & _ & Hn). exfalso. apply (Hn j); [lia|exact Hm].
      * intros pe [= <-]. cbn [pe_begin pe_size pemagic header optional sections numSections].
        apply Z.eqb_eq in E. split_and!; try done; [destruct Hj; by exists j|].
        change (sizeof execformat_pe_Header) with 20. lia.
    + split; [split; [done|]|split; [split; [done|]|done]].
      * intros [?|[?|[?|[_ Hn]]]]; [lia|done|done|]. exfalso. apply (Hn j); [lia|exact Hm].
      * intros (_ & _ & Hn). exfalso. apply (Hn j); [lia|exact Hm].
  - destruct Hf as [Hs Hk]. split; [split; [intros _|done]|split; [split; [done|]|done]].
    + right. right. right. split; [lia|done].
    + lia.
  - destruct Hf as [Hs Hk]. split; [split; [done|]|split; [split; [done|done]|done]].
    intros [?|[?|[?|[? _]]]]; [lia|done|done|lia].
Qed.

(** ** Witnesses *)

(** A memory with a table at 8192 of one block for the page at 4096: a 64-bit field,
    the high and the low half of a 32-bit one, a 32-bit field, an adjusted entry
    with an operand that looks like an entry, and padding.  The image is at 1. *)
Definition demo_table : list (Z * list Z) := [(4096, [0xa010; 0x1020; 0x2030; 0x3040; 0x4050; 0x3060; 0x0000])].
Definition demo_reloc_mem : mem :=
  let m := store32 (store32 (fun _ => 0) 8192 4096) 8196 22 in
  let m := foldl (fun m ie => store16 m (8200 + 2 * Z.of_nat ie.1) ie.2) m (zip (seq 0 7) [0xa010; 0x1020; 0x2030; 0x3040; 0x4050; 0x3060; 0x0000]) in
  store32 (store16 (store16 (store64 m 4113 0xffff0000) 4129 0x1000) 4145 0xfff0) 4161 0x10.
Definition demo_pe : execformat_pe_PortableExecutable := mk_pe 1 0 0 0 0 0 0 0 true.
Lemma demo_relocs : table_relocs (pe_begin demo_pe) (u64 (100 + 0x12345678 - 100)) demo_table =
  [(4113, 8%nat, 0x12345678); (4129, 2%nat, 0x1234); (4145, 2%nat, 0x12345678); (4161, 4%nat, 0x12345678)].
Proof. by vm_compute. Qed.
Lemma execformat_pe_BaseRelocate_correct_witness :
  exists m', execformat_pe_BaseRelocate 1 demo_reloc_mem demo_pe 8192 8214 100 (100 + 0x12345678) = Some m' /\
    load 8 m' 4113 = 0x112335678 /\ load 2 m' 4129 = 0x2234 /\ load 2 m' 4145 = 0x5668 /\ load 4 m' 4161 = 0x12345688 /\
    m' 4177 = 0 /\ m' 4193 = 0.
Proof.
  pose proof (execformat_pe_BaseRelocate_correct demo_reloc_mem demo_pe 8192 100 (100 + 0x12345678) demo_table) as H. cbv zeta in H.
  rewrite demo_relocs in H. destruct H as (m' & E & H1 & H2).
  - discriminate.
  - discriminate.
  - discriminate.
  - discriminate.
  - split; [|exact I]. split; [by vm_compute|]. split; [by vm_compute|].
    intros i e Hi. do 7 (destruct i as [|i]; [injection Hi as <-; by vm_compute|]). discriminate.
  - repeat constructor.
  - repeat (apply Forall_cons; split; [left; by vm_compute|]). by apply Forall_nil.
  - repeat constructor; by vm_compute.
  - exists m'. split; [exact E|].
    assert (load 8 m' 4113 = (load 8 demo_reloc_mem 4113 + 0x12345678) mod 256 ^ Z.of_nat 8) as -> by (apply H1; left).
    assert (load 2 m' 4129 = (load 2 demo_reloc_mem 4129 + 0x1234) mod 256 ^ Z.of_nat 2) as -> by (apply H1; right; left).
    assert (load 2 m' 4145 = (load 2 demo_reloc_mem 4145 + 0x12345678) mod 256 ^ Z.of_nat 2) as -> by (apply H1; right; right; left).
    assert (load 4 m' 4161 = (load 4 demo_reloc_mem 4161 + 0x12345678) mod 256 ^ Z.of_nat 4) as -> by (apply H1; right; right; right; left).
    clear H1. assert (m' 4177 = demo_reloc_mem 4177) as ->.
    { apply H2. clear. intros t w d Hin. repeat setoid_rewrite elem_of_cons in Hin. destruct_or? Hin; [injection Hin as -> -> ->; lia..|]. by apply elem_of_nil in Hin. }
    assert (m' 4193 = demo_reloc_mem 4193) as ->.
    { apply H2. clear. intros t w d Hin. repeat setoid_rewrite elem_of_cons in Hin. destruct_or? Hin; [injection Hin as -> -> ->; lia..|]. by apply elem_of_nil in Hin. }
    clear. split; [by vm_compute|]. split; [by vm_compute|]. split; [by vm_compute|]. split; [by vm_compute|]. split; by vm_compute.
Defined.
Definition demo_image : mem :=
  store16 (store16 (store32 (store8 (store8 (fun _ => 0) 4096 77) 4097 90) 4104 17744) 4124 96) 4110 3.
Lemma execformat_pe_LoadMemory_correct_witness :
  exists pe, execformat_pe_LoadMemory demo_image 4096 512 = Loaded pe /\ pemagic pe = 4104 /\ numSections pe = 3.
Proof.
  destruct (execformat_pe_LoadMemory demo_image 4096 512) as [|pe| |] eqn:E; [by vm_compute in E| |by vm_compute in E|by vm_compute in E].
  destruct (execformat_pe_LoadMemory_correct demo_image 4096 512 ltac:(lia)) as (_ & _ & Hl).
  destruct (Hl pe E) as (_ & _ & _ & Hh & _ & _ & Hn). exists pe. split; [done|].
  assert (pemagic pe = 4104) as Em by (vm_compute in E; by injection E as <-).
  split; [exact Em|]. rewrite Hn, Hh, Em. by vm_compute.
Defined.
