(* ===== verification/BootSwitch.v ===== *)
(** * The switch to the kernel's address space (src/memory/paging_init.c)

    The second part of [runtime_InitPaging]: the new tables are loaded, the image is
    relocated to where they map it, and the whole of the set-up, from the memory map
    of the firmware to the relocated kernel. *)

From S2P Require Import Prelude Mem MinMax Physical Paging PageTable PagingSpec LargePages Regions Heap PagingInit BootPaging Layout PE PEProps Entry.

(** What [kMain_Init] is entered with. *)
Record boot_machine := mk_boot {
  bm_phys : phys;                   (* the memory and the frame bitmap *)
  bm_control : control;
  graphics_DeviceFramebuffer : Z;
  kMain_StackPosition : Z;
  interrupt_Enabled : bool;
}.

Section Switch.
Variable PML4Table : Z.
Variable nx : bool.
Variables EfiLoaderCode EfiConventionalMemory : Z.

(** From "cli" on; [fuel] bounds the blocks of the relocation table.  The code runs
    on the identity mapping. *)
Definition runtime_InitPaging_switch (fuel : nat) (link_RelocStart link_RelocEnd : Z) (sc : scan) (c : control) (s : phys)
    : option boot_machine :=
  c ← (if nx then paging_modeswitch_4LevelPagingNX PML4Table 0 c else paging_modeswitch_4LevelPaging PML4Table 0 c);
  pe ← execformat_pe_ReadSystemHeader (pmem s) (LoaderCodeAddress sc) (LoaderCodeSize sc);
  m ← execformat_pe_BaseRelocate fuel (pmem s) pe link_RelocStart link_RelocEnd (LoaderCodeAddress sc) KERNEL_CODE_VIRTUAL;
  Some (mk_boot (set_pmem m s) c KERNEL_FRAMEBUFFER_MAPPING KERNEL_STACK_END_VIRTUAL false).
Definition runtime_InitPaging (fuel blocks : nat) (map : list EFI_MEMORY_DESCRIPTOR) (link : link_symbols)
    (link_RelocStart link_RelocEnd fb fbSize : Z) (m : mem) (c : control) : option boot_machine :=
  sc ← scan_map EfiLoaderCode EfiConventionalMemory (link_TextStart link) map scan_init;
  s ← paging_map_kernel PML4Table nx fuel link fb fbSize sc m;
  runtime_InitPaging_switch blocks link_RelocStart link_RelocEnd sc c s.

(** ** Writing where no table is *)

Section Retab.
Context (s s' : phys).
Hypothesis Hok : pt_ok PML4Table s.
Hypothesis Hb : Bitmap s' = Bitmap s.
Hypothesis Hm : forall g x, is_tab PML4Table s g -> x / 4096 = g -> pmem s' x = pmem s x.

Lemma retab_entry d p t i : (d <= 3)%nat -> 0 <= p < 512 ^ Z.of_nat d -> walk PML4Table d s p = Some t -> 0 <= i < 512 ->
  entry s' t i = entry s t i.
Proof.
  intros Hd Hp Hw Hi. destruct (pt_used _ _ Hok d p t Hd Hp Hw) as (f & -> & _).
  apply entry_same; [done|]. intros x. apply Hm. exists d, p. split; [done|by split].
Qed.
Lemma retab_walk d p : (d <= 3)%nat -> 0 <= p < 512 ^ Z.of_nat d -> walk PML4Table d s' p = walk PML4Table d s p.
Proof.
  revert p. induction d as [|d IH]; intros p Hd Hp; [done|]. pose proof (prefix_range _ _ Hp). rewrite !walk_S, IH by lia.
  destruct (walk PML4Table d s (p / 512)) as [t|] eqn:Et; [|done]. cbn [mbind option_bind].
  by rewrite (retab_entry d (p / 512)) by (lia || done).
Qed.
Lemma retab_leaf d p : (d <= 3)%nat -> 0 <= p < 512 ^ Z.of_nat (S d) -> leaf PML4Table d s' p = leaf PML4Table d s p.
Proof.
  intros Hd Hp. pose proof (prefix_range _ _ Hp). unfold leaf. rewrite retab_walk by done.
  destruct (walk PML4Table d s (p / 512)) as [t|] eqn:Et; [|done]. cbn [mbind option_bind].
  by rewrite (retab_entry d (p / 512)) by (lia || done).
Qed.
Lemma retab_pt_ok : pt_ok PML4Table s'.
Proof.
  constructor.
  - intros d p t Hd Hp. rewrite retab_walk, Hb by done. by apply (pt_used _ _ Hok).
  - intros d p d' p' t Hd Hd' Hp Hp'. rewrite !retab_walk by done. by apply (pt_inj _ _ Hok).
Qed.
End Retab.
Lemma layout_retab s rs m : Regions.layout PML4Table nx s rs ->
  (forall g x, is_tab PML4Table s g -> x / 4096 = g -> m x = pmem s x) -> Regions.layout PML4Table nx (set_pmem m s) rs.
Proof.
  intros [Hpt [P1 P2 P3 P4] H0 H1 H2 H3 Hw] Hm.
  constructor; [by apply (retab_pt_ok s)|by constructor|..]; intros p Hp;
    rewrite ?(retab_leaf s (set_pmem m s) Hpt Hm), ?(retab_walk s (set_pmem m s) Hpt Hm) by (done || lia); auto.
Qed.

(** ** The whole set-up *)

(** The image of the kernel: a PE header, and a table of relocations that do not
    overlap, all of it in pages the firmware does not call usable, below the end of
    the identity mapping and off the page of the top table. *)
Record image_ok (map : list EFI_MEMORY_DESCRIPTOR) (m : mem) (ld size nid : Z) (pe : execformat_pe_PortableExecutable)
    (relocBase : Z) (bs : list (Z * list Z)) : Prop := {
  im_pe : execformat_pe_LoadMemory m ld (u32 size) = Loaded pe;
  im_head : optional pe + 112 <= PML4Table /\ optional pe + 112 <= ld + size;
  im_pages : forall x, ld <= x < ld + size -> usable EfiConventionalMemory map (x / 4096) = false;
  im_identity : ld + size <= 2097152 * nid;
  im_table : table_at m relocBase bs /\ ld <= relocBase /\ relocBase + table_size bs <= ld + size /\
    (relocBase + table_size bs <= PML4Table \/ PML4Table + 4096 <= relocBase);
  im_blocks : Forall (fun b => block_size b < 2 ^ 32) bs;
  im_clear : clear_of (table_relocs ld (u64 (KERNEL_CODE_VIRTUAL - ld)) bs) relocBase (table_size bs);
  im_apart : ForallOrdPairs reloc_apart (table_relocs ld (u64 (KERNEL_CODE_VIRTUAL - ld)) bs);
  im_targets : Forall (fun '(t, w, _) => ld <= t /\ t + Z.of_nat w <= ld + size /\
      (t + Z.of_nat w <= PML4Table \/ PML4Table + 4096 <= t)) (table_relocs ld (u64 (KERNEL_CODE_VIRTUAL - ld)) bs);
}.

Lemma modeswitch_cr3 c : 0 <= PML4Table -> PML4Table mod 4096 = 0 -> cr3 c mod 4096 = 0 -> Z.testbit (cr4 c) 12 = false ->
  0 <= efer c < 2 ^ 64 ->
  exists c', (if nx then paging_modeswitch_4LevelPagingNX PML4Table 0 c else paging_modeswitch_4LevelPaging PML4Table 0 c) = Some c' /\
    cr3 c' = PML4Table.
Proof.
  intros H0 Hp Hc H12 He. destruct (modeswitch_correct PML4Table 0 c H0 Hp ltac:(lia) Hc H12 He) as (c1 & c2 & E1 & E2 & R1 & R2 & _).
  rewrite Z.add_0_r in R1, R2. destruct nx; [by exists c2|by exists c1].
Qed.

(** The heap starts empty, with room up to the stack. *)
Lemma layout_heap_ok s link ld fb nfb nid stack misc : Regions.layout PML4Table nx s (boot_regions link ld fb nfb nid stack misc) ->
  0 <= nfb <= 256 -> 0 <= nid <= 32768 -> heap_ok PML4Table (heap_init s).
Proof.
  intros L Hnf Hni. constructor; cbn [heapBreak pageBreak h_phys heap_init]; [lia|done|by vm_compute|apply L|apply L|..].
  - intros P HP. change (in_range (KERNEL_HEAP_VIRTUAL / 4096) 786432 P) with (68718428160 <= P < 68718428160 + 786432) in HP.
    split_and!.
    + apply (la_0 _ _ _ _ L). lia.
    + apply (la_1 _ _ _ _ L). change (512 ^ 2) with 262144. lia.
    + rewrite (la_2 _ _ _ _ L) by (change (512 ^ 3) with 134217728; lia). rewrite boot_leaf_large.
      rewrite (proj2 (Z.eqb_neq _ _)) by lia. unfold in_area.
      replace ((0 <=? P / 512) && (P / 512 <? 0 + nid)) with false by lia.
      by replace ((134215424 <=? P / 512) && (P / 512 <? 134215424 + nfb)) with false by lia.
  - intros v Hv. lia.
Qed.
Lemma boot_ok_ld text map e : Forall desc_ok map -> filter (fun e => holds_text EfiLoaderCode text e = true) map = [e] -> 0 <= PhysicalStart e.
Proof.
  intros Hok Hf. assert (e ∈ map) as Hin by (eapply list_elem_of_filter; rewrite Hf; by left).
  by destruct (proj1 (Forall_forall _ _) Hok e Hin).
Qed.

(** C7. The whole of [runtime_InitPaging], from a memory map with enough room and an
    image with its relocation table: the processor uses the new tables, under which
    every canonical address translates as [boot_translate] says; the stack that
    [kMain_Init] switches to is a zeroed page; the heap's invariant holds of an
    empty heap; every relocated field of the image has the distance to the new place
    added in its width; no other byte outside the usable memory changes but the top
    table, and interrupts are off. *)
Theorem runtime_InitPaging_correct map link fb fbSize m e f0 fuel pe relocBase bs c :
  let ld := PhysicalStart e in
  let nfb := roundUpToPageCount2M fbSize in
  let nid := roundUpToPageCount2M (usable_end EfiConventionalMemory map) in
  let rs := table_relocs ld (u64 (KERNEL_CODE_VIRTUAL - ld)) bs in
  boot_ok PML4Table EfiLoaderCode EfiConventionalMemory map link fb fbSize m e f0 ->
  boot_room EfiConventionalMemory map (boot_frames link nfb nid) -> (1 < fuel)%nat ->
  image_ok map m ld (entry_bytes e) nid pe relocBase bs ->
  cr3 c mod 4096 = 0 -> Z.testbit (cr4 c) 12 = false -> 0 <= efer c < 2 ^ 64 ->
  exists b stack misc,
    runtime_InitPaging fuel (length bs) map link relocBase (relocBase + table_size bs) fb fbSize m c = Some b /\
    cr3 (bm_control b) = PML4Table /\ pt_ok PML4Table (bm_phys b) /\ phys_ok (bm_phys b) /\
    (forall v, canonical v -> translate (cr3 (bm_control b)) (bm_phys b) v = boot_translate link ld fb nfb nid stack misc v) /\
    heap_ok PML4Table (heap_init (bm_phys b)) /\
    (kMain_StackPosition b = KERNEL_STACK_END_VIRTUAL /\ graphics_DeviceFramebuffer b = KERNEL_FRAMEBUFFER_MAPPING /\
     interrupt_Enabled b = false /\ usable EfiConventionalMemory map stack = true /\
     forall x, x / 4096 = stack -> pmem (bm_phys b) x = 0) /\
    (forall t w d, (t, w, d) ∈ rs -> load w (pmem (bm_phys b)) t = (load w m t + d) mod 256 ^ Z.of_nat w) /\
    (forall x, 0 <= x -> usable EfiConventionalMemory map (x / 4096) = false -> x / 4096 <> f0 ->
       (forall t w d, (t, w, d) ∈ rs -> ~ (t <= x < t + Z.of_nat w)) -> pmem (bm_phys b) x = m x).
Proof.
  intros ld nfb nid rs Hok Hroom Hfuel [Ipe [Ih1 Ih2] Ip Ii (It1 & It2 & It3 & It4) Ib Ic Ia Ig] Hc3 Hc4 Hce.
  destruct (boot_layout _ nx _ _ map link fb fbSize m e f0 fuel Hok Hroom Hfuel) as
    (sc & s & stack & misc & E1 & El & E2 & L & Hpages & Ht & (Us & Zs) & _ & Hd).
  destruct Hok as [Hmap Hal Hload Hld0 _ (Hpml & Hf0 & Huf0) _ _]. fold ld in Hld0. unfold frame_addr in Hpml.
  assert (0 <= ld) as Hld by (eapply boot_ok_ld; [exact Hmap|exact Hload]).
  assert (forall x, ld <= x < ld + entry_bytes e -> x < PML4Table \/ PML4Table + 4096 <= x ->
            ~ is_tab PML4Table s (x / 4096) /\ pmem s x = m x) as Him.
  { intros x Hx Hx'. destruct (Hd (x / 4096) ltac:(lia) (Ip x Hx) ltac:(lia)) as [Ht' Hm]. split; [done|by apply Hm]. }
  destruct (LoadMemory_ext m (pmem s) ld _ pe Ipe) as [Ipe' Hbegin].
  { intros x Hx. apply Him; lia. }
  assert (table_at (pmem s) relocBase bs) as It1'.
  { eapply table_at_ext; [exact It1|]. intros x Hx. apply Him; lia. }
  set (m' := apply_relocs (pmem s) rs).
  assert (execformat_pe_BaseRelocate (length bs) (pmem s) pe relocBase (relocBase + table_size bs) ld KERNEL_CODE_VIRTUAL = Some m') as Er.
  { unfold m', rs. rewrite <- Hbegin. pose proof (table_size_nonneg bs). apply BaseRelocate_spec; rewrite ?Hbegin; try done; lia. }
  destruct (apply_relocs_spec rs (pmem s) Ia) as [R1 R2]. fold m' in R1, R2. rewrite Forall_forall in Ig.
  assert (forall x, is_tab PML4Table s (x / 4096) \/ usable EfiConventionalMemory map (x / 4096) = true -> m' x = pmem s x) as Hkeep.
  { intros x Hx. apply R2. intros t w d Hin Hxt. specialize (Ig _ Hin). cbn in Ig. destruct Hx as [Hx|Hx].
    - by apply (Him x); [lia|lia|].
    - rewrite Ip in Hx by lia. done. }
  assert (Regions.layout PML4Table nx (set_pmem m' s) (boot_regions link ld fb nfb nid stack misc)) as L'.
  { apply layout_retab; [done|]. intros g x Hg <-. apply Hkeep. by left. }
  destruct (modeswitch_cr3 c ltac:(lia) ltac:(lia) Hc3 Hc4 Hce) as (c' & Ec & Hc').
  exists (mk_boot (set_pmem m' s) c' KERNEL_FRAMEBUFFER_MAPPING KERNEL_STACK_END_VIRTUAL false), stack, misc.
  cbn [bm_phys bm_control kMain_StackPosition graphics_DeviceFramebuffer interrupt_Enabled]. split_and!; try done.
  - unfold runtime_InitPaging. rewrite E1. cbn [mbind option_bind]. rewrite E2. cbn [mbind option_bind].
    unfold runtime_InitPaging_switch, execformat_pe_ReadSystemHeader. rewrite Ec. injection El as -> ->. cbn [mbind option_bind].
    fold ld. rewrite Ipe'. cbn [mbind option_bind]. by rewrite Er.
  - apply L'.
  - apply L'.
  - intros v Hv. rewrite Hc'. by apply Ht.
  - eapply layout_heap_ok; [exact L'|apply Hpages|apply Hpages].
  - intros x Hx. cbn [pmem set_pmem]. rewrite Hkeep by (right; by rewrite Hx). by apply Zs.
  - intros t w d Hin. cbn [pmem set_pmem]. rewrite (R1 _ _ _ Hin). do 2 f_equal. specialize (Ig _ Hin). cbn in Ig.
    apply load_ext. intros x Hx. apply Him; lia.
  - intros x Hx Hu Hxf Hno. cbn [pmem set_pmem]. rewrite R2 by done. by apply (Hd (x / 4096)); [lia|..].
Qed.
End Switch.

(** ** Witness *)

(** "MZ", "PE", a header of 112 bytes, and a table with one 64-bit relocation. *)
Definition boot_headers : list Z :=
  [77; 90; 0; 0; 0; 0; 0; 0; 80; 69; 0; 0] ++ repeat 0 16 ++ [112; 0; 0; 0] ++ [0x0b; 0x02].
Definition boot_relocs : list (Z * list Z) := [(0x3000, [0xa010; 0])].
Definition boot_mem : mem :=
  store_bytes (store_bytes (fun _ => 0) 0x10A0000 boot_headers) 0x10A6000 [0; 0x30; 0; 0; 12; 0; 0; 0; 0x10; 0xa0; 0; 0].
Definition boot_pe : execformat_pe_PortableExecutable := mk_pe 0x10A0000 0x10A0008 0x10A000C 0x10A0020 0x10A0090 0x40000 0 0 true.
Lemma boot_mem_zero i : 0 <= i < 512 -> load64 boot_mem (frame_addr 4265 + 8 * i) = 0.
Proof.
  intros Hi. transitivity (load64 (fun _ => 0) (frame_addr 4265 + 8 * i)); [|apply load64_zero].
  apply load_ext. intros x Hx. unfold frame_addr in Hx. simpl in Hx. unfold boot_mem.
  rewrite !store_bytes_out by (change (length boot_headers) with 34%nat; simpl; lia). done.
Qed.
Lemma boot_relocs_table : table_relocs 0x10A0000 (u64 (KERNEL_CODE_VIRTUAL - 0x10A0000)) boot_relocs =
  [(0x10A3010, 8%nat, KERNEL_CODE_VIRTUAL - 0x10A0000)].
Proof. by vm_compute. Qed.
Lemma boot_image_ok : image_ok (frame_addr 4265) 7 boot_map boot_mem 0x10A0000 (entry_bytes boot_e) 9 boot_pe 0x10A6000 boot_relocs.
Proof.
  constructor.
  - by vm_compute.
  - split; by vm_compute.
  - intros x Hx. change (entry_bytes boot_e) with 262144 in Hx. unfold usable, boot_map, desc_covers.
    cbn [existsb Type_ PhysicalStart NumberOfPages]. simpl. lia.
  - by vm_compute.
  - split_and!; [|by vm_compute|by vm_compute|left; by vm_compute]. split; [split_and!|done]; [by vm_compute|by vm_compute|].
    intros [|[|i]] e He; simpl in He; [injection He as <-; by vm_compute..|done].
  - repeat constructor.
  - rewrite boot_relocs_table. apply Forall_singleton. left. by vm_compute.
  - rewrite boot_relocs_table. repeat constructor.
  - rewrite boot_relocs_table. apply Forall_singleton. split_and!; [by vm_compute|by vm_compute|left; by vm_compute].
Qed.
Lemma runtime_InitPaging_correct_witness :
  exists b, runtime_InitPaging (frame_addr 4265) false 1 7 2 1 boot_map boot_link 0x10A6000 0x10A600C 0x80000000 5000000 boot_mem
      (mk_control 0x2000 0x20 0x500) = Some b /\
    translate (frame_addr 4265) (bm_phys b) (KERNEL_CODE_VIRTUAL + 0x3010) = Some 0x10A3010 /\
    load64 (pmem (bm_phys b)) 0x10A3010 = KERNEL_CODE_VIRTUAL - 0x10A0000.
Proof.
  destruct (runtime_InitPaging_correct (frame_addr 4265) false 1 7 boot_map boot_link 0x80000000 5000000 boot_mem boot_e 4265 2
    boot_pe 0x10A6000 boot_relocs (mk_control 0x2000 0x20 0x500) (boot_demo_ok _ boot_mem_zero) boot_demo_room ltac:(lia) boot_image_ok
    eq_refl eq_refl ltac:(by split)) as (b & stack & misc & E & Hcr & _ & _ & Ht & _ & _ & Hr & _).
  exists b. split; [exact E|]. split.
  - rewrite Hcr in Ht. rewrite Ht; [reflexivity|unfold canonical; vm_compute; intuition congruence].
  - unfold load64. rewrite (Hr 0x10A3010 8%nat (KERNEL_CODE_VIRTUAL - 0x10A0000)); [by vm_compute|]. apply list_elem_of_singleton. by vm_compute.
Defined.
