(* ===== verification/Graphics.v ===== *)
(** * The display (src/graphics/graphics.c, internal_helpers.h, unifont.c)

    Double-buffered drawing on the machine memory: pixels, rectangles, clipped
    copies and blending, the list of damaged rectangles, scrolling and the text
    console.  The stack of rectangles is used through the interface
    [RectStack]; its implementation on the byte stack is in RectStack.v. *)

From S2P Require Import Prelude Mem CString MinMax.

Record HelosGraphics_Color := mk_color { B : Z; G : Z; R : Z; A : Z }.
(** The bytes of a colour as a little-endian word. *)
Definition word (c : HelosGraphics_Color) : Z := B c + 256 * G c + 65536 * R c + 16777216 * A c.
Definition HelosGraphics_Color_Black : HelosGraphics_Color := mk_color 0 0 0 0xff.

Definition graphics_PixelFormat_RGBA_8bit : Z := 0.
Definition graphics_PixelFormat_BGRA_8bit : Z := 1.
Definition UNIFONT_CHAR_WIDTH : Z := 8.
Definition UNIFONT_CHAR_HEIGHT : Z := 16.
Definition MOUSE_OVERLAY_SIZE : Z := 32.

(** [__graphics_Rect]: unsigned 32-bit fields. *)
Record rect := mk_rect { left : Z; top : Z; width : Z; height : Z }.
#[export] Instance rect_eq_dec : EqDecision rect.
Proof. solve_decision. Defined.

Class RectStack (S : Type) := {
  rs_push : S -> rect -> S;
  rs_pop : S -> option (rect * S);
  rs_top : S -> option rect;
  rs_room : S -> bool;
  rs_clear : S -> S;
  rs_list : S -> list rect;     (* the top first *)
  rs_ok : S -> Prop;
  rect_ok : rect -> Prop;
  rs_push_law : forall s r, rs_ok s -> rect_ok r -> rs_room s = true ->
    rs_ok (rs_push s r) /\ rs_list (rs_push s r) = r :: rs_list s;
  rs_top_law : forall s, rs_ok s -> rs_top s = head (rs_list s);
  rs_pop_law : forall s, rs_ok s ->
    match rs_pop s with
    | Some (r, s') => rs_ok s' /\ rs_list s = r :: rs_list s' /\ rs_room s' = true
    | None => rs_list s = []
    end;
  rs_clear_law : forall s, rs_ok s -> rs_ok (rs_clear s) /\ rs_list (rs_clear s) = [];
}.

(** The cursor image: xcursor_ChunkHeader_Image. *)
Record cursor_image := mk_cursor { c_width : Z; c_height : Z; xhot : Z; yhot : Z; pixels : Z }.

Section Graphics.
Context {S : Type} `{RectStack S}.

Record graphics := mk_graphics {
  memory : mem;
  Framebuffer : Z;           (* graphics_Framebuffer, the back buffer *)
  DeviceFramebuffer : Z;
  FramebufferSize : Z;
  Width : Z; Height : Z; PixelsPerLine : Z; PixelFormat : Z;   (* graphics_SystemVideoMode *)
  invalidated : S;
  invalidated_screen : bool;
  GCursorX : Z; GCursorY : Z;
  lastMouseX : Z; lastMouseY : Z; lastMouseSizeX : Z; lastMouseSizeY : Z;
  mouseOverlay : Z;          (* address *)
  GCursor : option cursor_image;
  mousePos : Z * Z;          (* input_MousePosition *)
}.
Definition set_memory (m : mem) (g : graphics) : graphics :=
  mk_graphics m (Framebuffer g) (DeviceFramebuffer g) (FramebufferSize g) (Width g) (Height g) (PixelsPerLine g)
    (PixelFormat g) (invalidated g) (invalidated_screen g) (GCursorX g) (GCursorY g) (lastMouseX g)
    (lastMouseY g) (lastMouseSizeX g) (lastMouseSizeY g) (mouseOverlay g) (GCursor g) (mousePos g).
Definition set_invalidated (s : S) (b : bool) (g : graphics) : graphics :=
  mk_graphics (memory g) (Framebuffer g) (DeviceFramebuffer g) (FramebufferSize g) (Width g) (Height g) (PixelsPerLine g)
    (PixelFormat g) s b (GCursorX g) (GCursorY g) (lastMouseX g)
    (lastMouseY g) (lastMouseSizeX g) (lastMouseSizeY g) (mouseOverlay g) (GCursor g) (mousePos g).
Definition set_cursor (x y : Z) (g : graphics) : graphics :=
  mk_graphics (memory g) (Framebuffer g) (DeviceFramebuffer g) (FramebufferSize g) (Width g) (Height g) (PixelsPerLine g)
    (PixelFormat g) (invalidated g) (invalidated_screen g) x y (lastMouseX g)
    (lastMouseY g) (lastMouseSizeX g) (lastMouseSizeY g) (mouseOverlay g) (GCursor g) (mousePos g).
Definition set_last_mouse (x y w h : Z) (g : graphics) : graphics :=
  mk_graphics (memory g) (Framebuffer g) (DeviceFramebuffer g) (FramebufferSize g) (Width g) (Height g) (PixelsPerLine g)
    (PixelFormat g) (invalidated g) (invalidated_screen g) (GCursorX g) (GCursorY g) x y w h
    (mouseOverlay g) (GCursor g) (mousePos g).

(** ** Pixels *)

(** The address of a pixel of the back buffer. *)
Definition pixel_addr (g : graphics) (x y : Z) : Z := Framebuffer g + PixelsPerLine g * 4 * y + 4 * x.
Definition graphics_SetPixel_RGB (x y : Z) (c : HelosGraphics_Color) (g : graphics) : graphics :=
  set_memory (store32 (memory g) (pixel_addr g x y) (R c + 256 * G c + 65536 * B c)) g.
Definition graphics_SetPixel_BGR (x y : Z) (c : HelosGraphics_Color) (g : graphics) : graphics :=
  set_memory (store32 (memory g) (pixel_addr g x y) (Z.land (word c) 0x00ffffff)) g.
Definition graphics_SetPixel (x y : Z) (c : HelosGraphics_Color) (g : graphics) : graphics :=
  if PixelFormat g =? graphics_PixelFormat_BGRA_8bit then graphics_SetPixel_BGR x y c g
  else if PixelFormat g =? graphics_PixelFormat_RGBA_8bit then graphics_SetPixel_RGB x y c g
  else g.
Definition graphics_GetSize (g : graphics) : Z * Z * Z := (Width g, Height g, 24).

(** [while (buffer != end) { *buffer = data; buffer++; }] *)
Definition fill_words (m : mem) (a n data : Z) : mem :=
  foldl (fun m i => store32 m (a + 4 * i) data) m (seqZ 0 n).
(** [garbage] is the uninitialised [data] of another pixel format; [None] when
    the loop misses its end and runs over all memory. *)
Definition graphics_ClearBuffer (garbage : Z) (c : HelosGraphics_Color) (g : graphics) : option graphics :=
  if word c =? word HelosGraphics_Color_Black
  then Some (set_memory (memset (memory g) (Framebuffer g) 0 (FramebufferSize g)) g)
  else
    let data := if PixelFormat g =? graphics_PixelFormat_RGBA_8bit then R c + 256 * G c + 65536 * B c
                else if PixelFormat g =? graphics_PixelFormat_BGRA_8bit then Z.land (word c) 0x00ffffff
                else garbage in
    (* the end is FramebufferSize / 4 bytes after the start, reached in steps of 4 *)
    let bytes := FramebufferSize g / 4 in
    if bytes mod 4 =? 0
    then Some (set_memory (fill_words (memory g) (Framebuffer g) (bytes / 4) data) g)
    else None.

(** ** Clipped copies and blending *)

(** The arithmetic is in [int]. *)
Definition clip_begin (fromOffset toOffset : Z) : Z := intmax3 0 (i32 (- fromOffset)) (i32 (- toOffset)).
Definition clip_end (count fromSize fromOffset toSize toOffset : Z) : Z :=
  intmin3 count (i32 (fromSize - fromOffset)) (i32 (toSize - toOffset)).
(** An image: address of its pixels and its size. *)
Record image := mk_image { i_data : Z; i_sizeX : Z; i_sizeY : Z }.
Definition image_addr (im : image) (x y : Z) : Z := (x + i_sizeX im * y) * 4 + i_data im.
Definition __graphics_CopyBuffer32 (m : mem) (from : image) (fromX fromY : Z) (to : image) (toX toY : Z)
    (countX countY : Z) : mem :=
  let beginX := clip_begin fromX toX in
  let beginY := clip_begin fromY toY in
  let endX := clip_end countX (i_sizeX from) fromX (i_sizeX to) toX in
  let endY := clip_end countY (i_sizeY from) fromY (i_sizeY to) toY in
  foldl (fun m i =>
    memcpy m (image_addr to (toX + beginX) (toY + i)) (image_addr from (fromX + beginX) (fromY + i))
      (u64 ((endX - beginX) * 4))) m (seqZ beginY (endY - beginY)).

Definition load_color (m : mem) (a : Z) : HelosGraphics_Color :=
  mk_color (load8 m a) (load8 m (a + 1)) (load8 m (a + 2)) (load8 m (a + 3)).
(** One channel of the blend. *)
Definition blend (src dest alpha : Z) : Z := u8 (src + dest * (0xff - alpha) / 0xff).
Definition render_pixel (m : mem) (src dest : Z) : mem :=
  let s := load_color m src in
  let d := load_color m dest in
  if A s =? 0 then m
  else if A s =? 0xff then store32 m dest (Z.land (load32 m src) 0x00ffffff)
  else store32 m dest (word (mk_color (blend (B s) (B d) (A s)) (blend (G s) (G d) (A s))
                                      (blend (R s) (R d) (A s)) 0)).
Definition __graphics_RenderBuffer32 (m : mem) (from : image) (fromX fromY : Z) (to : image) (toX toY : Z)
    (countX countY : Z) : mem :=
  let beginX := clip_begin fromX toX in
  let beginY := clip_begin fromY toY in
  let endX := clip_end countX (i_sizeX from) fromX (i_sizeX to) toX in
  let endY := clip_end countY (i_sizeY from) fromY (i_sizeY to) toY in
  foldl (fun m x => foldl (fun m y =>
      render_pixel m (image_addr from (fromX + x) (fromY + y)) (image_addr to (toX + x) (toY + y)))
    m (seqZ beginY (endY - beginY))) m (seqZ beginX (endX - beginX)).

(** ** Damage *)

(** The merge of [graphics_Invalidate] with the last rectangle. *)
Definition merge_rect (prev r : rect) : option rect :=
  if (top prev =? top r) && (height prev =? height r) then
    if u32 (left prev + width prev) =? left r then Some (mk_rect (left prev) (top r) (u32 (width prev + width r)) (height r))
    else if u32 (left r + width r) =? left prev then Some (mk_rect (left r) (top r) (u32 (width r + width prev)) (height r))
    else None
  else if (left prev =? left r) && (width prev =? width r) then
    if u32 (top prev + height prev) =? top r then Some (mk_rect (left r) (top prev) (width r) (u32 (height prev + height r)))
    else if u32 (top r + height r) =? top prev then Some (mk_rect (left r) (top r) (width r) (u32 (height r + height prev)))
    else None
  else None.
Definition graphics_Invalidate (l t w h : Z) (g : graphics) : graphics :=
  if negb (rs_room (invalidated g)) then set_invalidated (invalidated g) true g
  else
    let r := mk_rect (u32 l) (u32 t) (u32 w) (u32 h) in
    match rs_top (invalidated g) with
    | Some prev =>
        match merge_rect prev r with
        | Some r' =>
            let s := match rs_pop (invalidated g) with Some (_, s) => s | None => invalidated g end in
            set_invalidated (rs_push s r') (invalidated_screen g) g
        | None => set_invalidated (rs_push (invalidated g) r) (invalidated_screen g) g
        end
    | None => set_invalidated (rs_push (invalidated g) r) (invalidated_screen g) g
    end.
Definition back (g : graphics) : image := mk_image (Framebuffer g) (Width g) (Height g).
Definition device (g : graphics) : image := mk_image (DeviceFramebuffer g) (Width g) (Height g).

Definition __graphics__UpdateMouse (g : graphics) : graphics :=
  match GCursor g with
  | None => g
  | Some c =>
      let imgX := i32 (u32 (fst (mousePos g) - xhot c + 1)) in
      let imgY := i32 (u32 (snd (mousePos g) - yhot c + 1)) in
      let overlay := mk_image (mouseOverlay g) MOUSE_OVERLAY_SIZE MOUSE_OVERLAY_SIZE in
      if negb (imgX =? lastMouseX g) || negb (imgY =? lastMouseY g) ||
         negb (c_width c =? u32 (lastMouseSizeX g)) || negb (c_height c =? u32 (lastMouseSizeY g))
      then
        let m := __graphics_CopyBuffer32 (memory g) overlay 0 0 (back g) (lastMouseX g) (lastMouseY g)
                   (lastMouseSizeX g) (lastMouseSizeY g) in
        let m := __graphics_CopyBuffer32 m (back g) imgX imgY overlay 0 0 (i32 (c_width c)) (i32 (c_height c)) in
        let m := __graphics_RenderBuffer32 m (mk_image (pixels c) (i32 (c_width c)) (i32 (c_height c))) 0 0
                   (back g) imgX imgY (i32 (c_width c)) (i32 (c_height c)) in
        let g := set_memory m g in
        let g := graphics_Invalidate (lastMouseX g) (lastMouseY g) (lastMouseSizeX g) (lastMouseSizeY g) g in
        let g := graphics_Invalidate imgX imgY (i32 (c_width c)) (i32 (c_height c)) g in
        set_last_mouse imgX imgY (i32 (c_width c)) (i32 (c_height c)) g
      else g
  end.

(** [while (stack_Pop(__invalidated, &r, ...)) CopyBuffer32(...)] *)
Fixpoint swap_rects (fuel : nat) (g : graphics) : graphics :=
  match fuel with
  | O => g
  | Datatypes.S fuel =>
      match rs_pop (invalidated g) with
      | None => g
      | Some (r, s) =>
          let g := set_invalidated s (invalidated_screen g) g in
          swap_rects fuel
            (set_memory (__graphics_CopyBuffer32 (memory g) (back g) (i32 (left r)) (i32 (top r))
                           (device g) (i32 (left r)) (i32 (top r)) (i32 (width r)) (i32 (height r))) g)
      end
  end.
Definition graphics_SwapBuffer (g : graphics) : graphics :=
  let g := __graphics__UpdateMouse g in
  let g := if invalidated_screen g
           then set_memory (memcpy (memory g) (DeviceFramebuffer g) (Framebuffer g) (FramebufferSize g)) g
           else swap_rects (Datatypes.S (length (rs_list (invalidated g)))) g in
  set_invalidated (rs_clear (invalidated g)) false g.

(** ** Rectangles, scrolling, text *)

(** The word written for a colour; None for other formats.  The RGB branch
    fills its structure in the order B, G, R. *)
Definition fill_word (g : graphics) (c : HelosGraphics_Color) : option Z :=
  if PixelFormat g =? graphics_PixelFormat_BGRA_8bit then Some (Z.land (word c) 0x00ffffff)
  else if PixelFormat g =? graphics_PixelFormat_RGBA_8bit then Some (B c + 256 * G c + 65536 * R c)
  else None.
Definition graphics_FillPixel (startX startY endX endY : Z) (c : HelosGraphics_Color) (g : graphics) : graphics :=
  let g := match fill_word g c with
           | Some w => set_memory (foldl (fun m i => foldl (fun m j => store32 m (pixel_addr g i j) w)
                                     m (seqZ startY (endY - startY))) (memory g) (seqZ startX (endX - startX))) g
           | None => g
           end in
  graphics_Invalidate startX startY (endX - startX) (endY - startY) g.

(** [doublebuffer] is the address of graphics_Doublebuffer.  No result: a scroll
    by the whole height, whose [memmove] of no bytes does not stop. *)
Definition graphics_Scroll (doublebuffer scrollY : Z) (g : graphics) : option graphics :=
  m ← memmove (memory g) doublebuffer (doublebuffer + 4 * (PixelsPerLine g * scrollY)) (u64 (4 * (PixelsPerLine g * (Height g - scrollY))));
  let g := set_memory m g in
  let g := graphics_FillPixel 0 (Height g - scrollY) (Width g) (Height g) HelosGraphics_Color_Black g in
  let g := set_last_mouse (lastMouseX g) (lastMouseY g - scrollY) (lastMouseSizeX g) (lastMouseSizeY g) g in
  Some (set_invalidated (invalidated g) true g).
Definition graphics_ElementSize (doublebuffer sizeX sizeY : Z) (g : graphics) : option graphics :=
  let g := if Width g <=? GCursorX g + sizeX then set_cursor 0 (GCursorY g + sizeY) g else g in
  if Height g <=? GCursorY g + sizeY then
    g ← graphics_Scroll doublebuffer (sizeY + GCursorY g - Height g) g;
    Some (set_cursor (GCursorX g) (Height g - sizeY) g)
  else Some g.
Definition graphics_Newline (advanceY : Z) (g : graphics) : graphics :=
  set_cursor 0 (GCursorY g + advanceY) g.

Definition unifont_IsCharDoublewidth (ucs : Z) : bool :=
  (0x1100 <=? ucs) &&
  ((ucs <=? 0x115f) || (ucs =? 0x2329) || (ucs =? 0x232a) ||
   ((0x2e80 <=? ucs) && (ucs <=? 0xa4cf) && negb (ucs =? 0x303f)) ||
   ((0xac00 <=? ucs) && (ucs <=? 0xd7a3)) || ((0xf900 <=? ucs) && (ucs <=? 0xfaff)) ||
   ((0xfe10 <=? ucs) && (ucs <=? 0xfe19)) || ((0xfe30 <=? ucs) && (ucs <=? 0xfe6f)) ||
   ((0xff00 <=? ucs) && (ucs <=? 0xff60)) || ((0xffe0 <=? ucs) && (ucs <=? 0xffe6)) ||
   ((0x20000 <=? ucs) && (ucs <=? 0x2fffd)) || ((0x30000 <=? ucs) && (ucs <=? 0x3fffd))).

(** Eight pixels of one byte of glyph data, from the high bit on. *)
Definition draw_line (x y : Z) (c : HelosGraphics_Color) (line : Z) (g : graphics) : graphics :=
  foldl (fun g i => if negb (Z.land line (Z.shiftl 1 (7 - i mod 8)) =? 0)
                    then graphics_SetPixel (x + i) y c g else g) g (seqZ 0 UNIFONT_CHAR_WIDTH).
(** [data] is the font, unifont_Data: the byte at an index. *)
Definition unifont_DrawChar (data : Z -> Z) (x y : Z) (c : HelosGraphics_Color) (codepoint : Z) (g : graphics) : graphics :=
  let base := u32 (codepoint * UNIFONT_CHAR_WIDTH * UNIFONT_CHAR_HEIGHT * 2) / 8 in
  foldl (fun g j =>
    if unifont_IsCharDoublewidth codepoint
    then draw_line (x + 8) (y + j) c (data (base + 2 * j + 1)) (draw_line x (y + j) c (data (base + 2 * j)) g)
    else draw_line x (y + j) c (data (base + j)) g) g (seqZ 0 UNIFONT_CHAR_HEIGHT).
(** The loop of the three [unifont_DrawString] functions; [single] for the
    ASCII one, which takes every character as single-width. *)
Fixpoint draw_string (data : Z -> Z) (single : bool) (posX x y : Z) (c : HelosGraphics_Color) (str : list Z)
    (g : graphics) : graphics :=
  match str with
  | [] => g
  | u :: str =>
      if u =? 10 then draw_string data single posX posX (y + UNIFONT_CHAR_HEIGHT) c str g
      else if u =? 13 then draw_string data single posX posX y c str g
      else draw_string data single posX
             (x + UNIFONT_CHAR_WIDTH * (if negb single && unifont_IsCharDoublewidth u then 2 else 1)) y c str
             (unifont_DrawChar data x y c u g)
  end.
Definition unifont_DrawString (data : Z -> Z) (x y : Z) c str g := draw_string data false x x y c str g.
Definition unifont_DrawStringASCII (data : Z -> Z) (x y : Z) c str g := draw_string data true x x y c str g.

Definition char_width (c : Z) : Z :=
  if unifont_IsCharDoublewidth c then UNIFONT_CHAR_WIDTH * 2 else UNIFONT_CHAR_WIDTH.
Definition console_WriteChar (doublebuffer : Z) (data : Z -> Z) (color : HelosGraphics_Color) (c : Z) (g : graphics)
    : option graphics :=
  if c =? 10 then Some (graphics_Newline UNIFONT_CHAR_HEIGHT g)
  else if c =? 13 then Some (set_cursor 0 (GCursorY g) g)
  else
    let w := char_width c in
    g ← graphics_ElementSize doublebuffer w UNIFONT_CHAR_HEIGHT g;
    let g := graphics_FillPixel (GCursorX g) (GCursorY g) (GCursorX g + w) (GCursorY g + UNIFONT_CHAR_HEIGHT)
               HelosGraphics_Color_Black g in
    let g := unifont_DrawChar data (GCursorX g) (GCursorY g) color c g in
    let g := graphics_Invalidate (GCursorX g) (GCursorY g) w UNIFONT_CHAR_HEIGHT g in
    Some (set_cursor (GCursorX g + w) (GCursorY g) g).
Fixpoint write_chars (doublebuffer : Z) (data : Z -> Z) (color : HelosGraphics_Color) (str : list Z) (g : graphics)
    : option graphics :=
  match str with
  | [] => Some g
  | c :: str => g ← console_WriteChar doublebuffer data color c g; write_chars doublebuffer data color str g
  end.
(** The three [console_Write] functions on the code units they read: [len] of
    them, or up to the terminating zero when [len] is 0. *)
Definition console_Write (doublebuffer : Z) (data : Z -> Z) (color : HelosGraphics_Color) (str : list Z) (g : graphics)
    : option graphics :=
  g ← write_chars doublebuffer data color str g;
  Some (if bool_decide (10 ∈ str) then graphics_SwapBuffer g else g).
End Graphics.
Arguments graphics : clear implicits.
