(* ===== verification/RectStack.v ===== *)
(** * The list of damaged rectangles (src/graphics/graphics.c, __invalidated)

    [__invalidated] is a byte stack holding [__graphics_Rect]s of 16 bytes.
    This file implements the interface [RectStack] of Graphics.v with the
    operations of Stack.v; [tmp] is the address of the caller's local
    rectangle, from and to which the stack copies. *)

From S2P Require Import Prelude Mem Stack Graphics.

Definition sizeof_rect : Z := 16.
Definition INVALIDATED_BUFFER_SIZE : Z := 32.

Definition load_rect (m : mem) (a : Z) : rect :=
  mk_rect (load32 m a) (load32 m (a + 4)) (load32 m (a + 8)) (load32 m (a + 12)).
Definition store_rect (m : mem) (a : Z) (r : rect) : mem :=
  store32 (store32 (store32 (store32 m a (left r)) (a + 4) (top r)) (a + 8) (width r)) (a + 12) (height r).
(** The rectangles on the stack, the top first. *)
Definition rects (s : stack) (m : mem) : list rect :=
  tab (stack_Size s / sizeof_rect) (fun i => load_rect m (s_top s + sizeof_rect * i)).

Definition push_rect (tmp : Z) (sm : stack * mem) (r : rect) : stack * mem :=
  stack_Push (fst sm) (store_rect (snd sm) tmp r) tmp sizeof_rect.
Definition pop_rect (tmp : Z) (sm : stack * mem) : option (rect * (stack * mem)) :=
  let '(n, s, m) := stack_Pop (fst sm) (snd sm) tmp sizeof_rect in
  if n =? 0 then None else Some (load_rect m tmp, (s, m)).
Definition top_rect (tmp : Z) (sm : stack * mem) : option rect :=
  let '(n, m) := stack_Top (fst sm) (snd sm) tmp sizeof_rect in
  if n =? 0 then None else Some (load_rect m tmp).
Definition rect_room (sm : stack * mem) : bool := negb (stack_Space (fst sm) <? sizeof_rect).
Definition no_rects (buffer : Z) : stack := stack_InitBuffered buffer (INVALIDATED_BUFFER_SIZE * sizeof_rect).

(** ** The laws of the interface *)

Definition word_rect (r : rect) : Prop :=
  0 <= left r < 4294967296 /\ 0 <= top r < 4294967296 /\ 0 <= width r < 4294967296 /\ 0 <= height r < 4294967296.
Record rects_ok (tmp : Z) (sm : stack * mem) : Prop := {
  rok_wf : s_wf (fst sm);
  rok_size : stack_Size (fst sm) mod sizeof_rect = 0;
  rok_tmp : s_disjoint (fst sm) tmp sizeof_rect;
  rok_cap : s_size (fst sm) mod sizeof_rect = 0;
}.

Lemma load_rect_ext m m' a b :
  (forall k, 0 <= k < 16 -> m' (a + k) = m (b + k)) -> load_rect m' a = load_rect m b.
Proof.
  intros Hk.
  assert (forall c, 0 <= c <= 12 -> load32 m' (a + c) = load32 m (b + c)) as Hl.
  { intros c Hc. unfold load32. cbn [load]. unfold load8. rewrite <- !Z.add_assoc. by rewrite !Hk by lia. }
  unfold load_rect. rewrite !Hl by lia. pose proof (Hl 0 ltac:(lia)) as H0. rewrite !Z.add_0_r in H0. by rewrite H0.
Qed.
Lemma load_store_rect m a r : word_rect r -> load_rect (store_rect m a r) a = r.
Proof.
  intros (? & ? & ? & ?). destruct r as [x y w h]. cbn [left top width height] in *.
  unfold load_rect, store_rect, load32, store32. cbn [left top width height].
  repeat (rewrite load_store_eq || rewrite load_store_ne by lia).
  by rewrite !Z.mod_small by (change (256 ^ Z.of_nat 4) with 4294967296; lia).
Qed.
Lemma store_rect_out m a r x : ~ (a <= x < a + 16) -> store_rect m a r x = m x.
Proof. intros. unfold store_rect, store32. by rewrite !store_outside by lia. Qed.

Lemma rects_ext s m m' :
  (forall x, s_data s <= x < s_data s + s_size s -> m' x = m x) -> s_wf s -> rects s m' = rects s m.
Proof.
  intros Hm [? ? ?]. apply tab_ext. intros i Hi. unfold stack_Size, sizeof_rect in *.
  apply load_rect_ext. intros k Hk. apply Hm. lia.
Qed.
Lemma rects_cons s m :
  s_wf s -> stack_Size s mod sizeof_rect = 0 -> sizeof_rect <= stack_Size s ->
  rects s m = load_rect m (s_top s) :: rects (set_top s (s_top s + sizeof_rect)) m.
Proof.
  intros [? ? ?] Hm Hs. unfold rects. unfold stack_Size, sizeof_rect in *. cbn [set_top s_data s_size s_top].
  rewrite tab_cons by lia. f_equal; [f_equal; lia|].
  replace ((s_data s + s_size s - s_top s) / 16 - 1) with ((s_data s + s_size s - (s_top s + 16)) / 16) by lia.
  apply tab_ext. intros i Hi. f_equal. lia.
Qed.
Lemma rects_nil s m : stack_Size s < sizeof_rect -> rects s m = [].
Proof. intros. unfold rects. apply tab_0. unfold sizeof_rect in *. lia. Qed.

Lemma push_rect_law tmp sm r :
  rects_ok tmp sm -> word_rect r -> rect_room sm = true ->
  rects_ok tmp (push_rect tmp sm r) /\
  rects (fst (push_rect tmp sm r)) (snd (push_rect tmp sm r)) = r :: rects (fst sm) (snd sm).
Proof.
  destruct sm as [s m]. intros [Hw Hsz Ht Hc] Hr Hroom. cbn [fst snd] in *. pose proof Hw as [? ? ?].
  unfold rect_room, sizeof_rect, s_disjoint in *. cbn [fst] in Hroom. apply negb_true_iff, Z.ltb_ge in Hroom.
  unfold push_rect, stack_Push, sizeof_rect. cbn [fst snd]. destruct (Z.ltb_spec (stack_Space s) 16); [lia|]. cbn [fst snd].
  unfold stack_Size, stack_Space in *.
  assert (s_wf (set_top s (s_top s - 16))) as Hw' by (apply set_top_wf; [done|lia]).
  split.
  { split; cbn [fst snd]; [done|unfold stack_Size, sizeof_rect; cbn [set_top s_data s_size s_top]; lia|done|done]. }
  rewrite rects_cons; [|done|unfold stack_Size, sizeof_rect; cbn [set_top s_data s_size s_top]; lia..].
  cbn [set_top s_data s_size s_top]. unfold sizeof_rect. rewrite Z.sub_add.
  assert (set_top (set_top s (s_top s - 16)) (s_top s) = s) as -> by (by destruct s). f_equal.
  - rewrite <- (load_store_rect m tmp r) at 2 by done. apply load_rect_ext. intros k Hk.
    rewrite memcpy_in by lia. f_equal. lia.
  - apply tab_ext. intros i Hi. unfold stack_Size, sizeof_rect in *. apply load_rect_ext. intros k Hk.
    rewrite memcpy_out by lia. apply store_rect_out. lia.
Qed.

Lemma top_rect_law tmp sm : rects_ok tmp sm -> top_rect tmp sm = head (rects (fst sm) (snd sm)).
Proof.
  destruct sm as [s m]. intros [Hw Hsz Ht Hc]. cbn [fst snd] in *.
  unfold top_rect, stack_Top. cbn [fst snd]. zcase.
  { cbn. by rewrite rects_nil. }
  rewrite rects_cons by done. cbn. f_equal. apply load_rect_ext. intros k Hk. rewrite memcpy_in by (unfold sizeof_rect; lia).
  f_equal. lia.
Qed.
Lemma pop_rect_law tmp sm :
  rects_ok tmp sm ->
  match pop_rect tmp sm with
  | Some (r, sm') => rects_ok tmp sm' /\ rects (fst sm) (snd sm) = r :: rects (fst sm') (snd sm') /\ rect_room sm' = true
  | None => rects (fst sm) (snd sm) = []
  end.
Proof.
  destruct sm as [s m]. intros [Hw Hsz Ht Hc]. cbn [fst snd] in *. pose proof Hw as [? ? ?].
  unfold pop_rect, stack_Pop. cbn [fst snd]. destruct (Z.ltb_spec (stack_Size s) sizeof_rect) as [|Hs].
  { cbn. by apply rects_nil. }
  cbn. unfold rect_room, stack_Space, stack_Size, sizeof_rect, s_disjoint in *. cbn [fst snd set_top s_data s_size s_top].
  assert (s_wf (set_top s (s_top s + 16))) as Hw' by (apply set_top_wf; [done|lia]).
  split_and!.
  - split; cbn [fst snd]; [done|unfold stack_Size, sizeof_rect; cbn [set_top s_data s_size s_top]; lia|done|done].
  - rewrite rects_cons by done. f_equal.
    + symmetry. apply load_rect_ext. intros k Hk. rewrite memcpy_in by lia. f_equal. lia.
    + symmetry. apply rects_ext; [|done]. cbn [set_top s_data s_size s_top]. intros x Hx. apply memcpy_out. lia.
  - apply negb_true_iff, Z.ltb_ge. lia.
Qed.
Lemma clear_rects_law tmp sm :
  rects_ok tmp sm ->
  rects_ok tmp (stack_Clear (fst sm), snd sm) /\ rects (stack_Clear (fst sm)) (snd sm) = [].
Proof.
  destruct sm as [s m]. intros [Hw Hsz Ht Hc]. cbn [fst snd] in *. pose proof Hw as [? ? ?]. unfold stack_Clear. split.
  - split; cbn [fst snd]; [apply set_top_wf; [done|lia]| |done|done].
    unfold stack_Size. cbn [set_top s_data s_size s_top]. by rewrite Z.sub_diag.
  - apply rects_nil. unfold stack_Size, sizeof_rect. cbn [set_top s_data s_size s_top]. lia.
Qed.

(** The byte stack implements the interface the display uses. *)
#[export] Instance byte_rects (tmp : Z) : RectStack (stack * mem) := {|
  rs_push := push_rect tmp;
  rs_pop := pop_rect tmp;
  rs_top := top_rect tmp;
  rs_room := rect_room;
  rs_clear := fun sm => (stack_Clear (fst sm), snd sm);
  rs_list := fun sm => rects (fst sm) (snd sm);
  rs_ok := rects_ok tmp;
  rect_ok := word_rect;
  rs_push_law := push_rect_law tmp;
  rs_top_law := top_rect_law tmp;
  rs_pop_law := pop_rect_law tmp;
  rs_clear_law := clear_rects_law tmp;
|}.

Lemma no_rects_ok tmp buffer m :
  0 <= buffer -> buffer + 512 <= 2 ^ 64 -> tmp + 16 <= buffer \/ buffer + 512 <= tmp ->
  rects_ok tmp (no_rects buffer, m) /\ rects (no_rects buffer) m = [].
Proof.
  intros. unfold no_rects, stack_InitBuffered, INVALIDATED_BUFFER_SIZE, sizeof_rect. split.
  - split; cbn [fst snd]; [split; cbn [s_data s_size s_top]; lia|..|done].
    + unfold stack_Size, sizeof_rect. cbn [s_data s_size s_top]. by rewrite Z.sub_diag.
    + unfold s_disjoint, sizeof_rect. cbn [s_data s_size]. lia.
  - apply rects_nil. unfold stack_Size, sizeof_rect. cbn [s_data s_size s_top]. lia.
Qed.
