(* ===== verification/Xcursor.v ===== *)
(** * Mouse cursor files (src/graphics/xcursor, the loading in src/kernel/kmain.c)

    The header and table of contents of an Xcursor file in memory, and the
    choice of the image the display draws as the mouse cursor. *)

From Stdlib Require Import Ascii String.
From S2P Require Import Prelude Mem Layout Graphics.

Definition XCURSOR_MAGIC : list Z := [88; 99; 117; 114].  (* "Xcur" *)
Definition xcursor_Header : layout := [("magic", 4); ("headerSize", 4); ("version", 4); ("numTOC", 4)]%string%nat.
Definition xcursor_TOCEntry : layout := [("type", 4); ("subtype", 4); ("offset", 4)]%string%nat.
Definition XCURSOR_CHUNKTYPE_IMAGE : Z := 0xfffd0002.
Definition xcursor_ChunkHeader_Image : layout := [
  ("headerSize", 4); ("type", 4); ("subtype", 4); ("version", 4); ("width", 4); ("height", 4);
  ("xhot", 4); ("yhot", 4); ("delay", 4); ("pixels", 4)]%string%nat.

(** [xcursor_Xcursor]; [header] is 0 when the open failed, and then the other
    members are not set. *)
Record xcursor_Xcursor := mk_xcursor { header : Z; xsize : Z; xn : Z; toc : Z }.
Definition xcursor_LoadMemory (m : mem) (garbage : xcursor_Xcursor) (file fileSize : Z) : xcursor_Xcursor :=
  if negb (bool_decide (bytes m file 4 = XCURSOR_MAGIC)) then mk_xcursor 0 (xsize garbage) (xn garbage) (toc garbage)
  else mk_xcursor file fileSize (get m file xcursor_Header "numTOC") (file + get m file xcursor_Header "headerSize").

Definition toc_entry (c : xcursor_Xcursor) (i : Z) : Z := toc c + sizeof xcursor_TOCEntry * i.
Definition load_cursor (m : mem) (p : Z) : cursor_image :=
  mk_cursor (get m p xcursor_ChunkHeader_Image "width") (get m p xcursor_ChunkHeader_Image "height")
    (get m p xcursor_ChunkHeader_Image "xhot") (get m p xcursor_ChunkHeader_Image "yhot")
    (p + match offsetof xcursor_ChunkHeader_Image "pixels" with Some o => o | None => 0 end).
(** [for (int i = 0; i < cursor.n; i++) if (toc[i].type == IMAGE) { graphics_Cursor = ...; break; }]:
    the address of the image. *)
Fixpoint first_image (fuel : nat) (m : mem) (data : Z) (c : xcursor_Xcursor) (i : Z) : option Z :=
  match fuel with
  | O => None
  | S fuel =>
      if i <? xn c then
        if get m (toc_entry c i) xcursor_TOCEntry "type" =? XCURSOR_CHUNKTYPE_IMAGE
        then Some (data + get m (toc_entry c i) xcursor_TOCEntry "offset")
        else first_image fuel m data c (i + 1)
      else None
  end.
(** The cursor [kMain] sets up: none when the file does not open or has no
    image. *)
Definition load_default_cursor (m : mem) (garbage : xcursor_Xcursor) (data size : Z) : option cursor_image :=
  let c := xcursor_LoadMemory m garbage data size in
  if negb (header c =? 0)
  then load_cursor m <$> first_image (Z.to_nat (xn c)) m data c 0
  else None.

(** ** Properties *)

Lemma first_image_spec m data c : forall n i,
  Z.of_nat n = xn c - i ->
  match first_image n m data c i with
  | Some p => exists j, i <= j < xn c /\ get m (toc_entry c j) xcursor_TOCEntry "type" = XCURSOR_CHUNKTYPE_IMAGE /\
      p = data + get m (toc_entry c j) xcursor_TOCEntry "offset" /\
      forall k, i <= k < j -> get m (toc_entry c k) xcursor_TOCEntry "type" <> XCURSOR_CHUNKTYPE_IMAGE
  | None => forall k, i <= k < xn c -> get m (toc_entry c k) xcursor_TOCEntry "type" <> XCURSOR_CHUNKTYPE_IMAGE
  end.
Proof.
  induction n as [|n IH]; intros i Hn; cbn [first_image]; [intros; lia|].
  destruct (Z.ltb_spec i (xn c)); [|intros; lia].
  destruct (Z.eqb_spec (get m (toc_entry c i) xcursor_TOCEntry "type") XCURSOR_CHUNKTYPE_IMAGE) as [E|E].
  - exists i. split_and!; [lia|lia|done|done|intros; lia].
  - specialize (IH (i + 1) ltac:(lia)). destruct (first_image n m data c (i + 1)) as [p|].
    + destruct IH as (j & Hj & Et & Ep & Hk). exists j. split_and!; [lia|lia|done|done|].
      intros k Hk'. destruct (decide (k = i)) as [->|]; [done|]. apply Hk. lia.
    + intros k Hk'. destruct (decide (k = i)) as [->|]; [done|]. apply IH. lia.
Qed.

(** The default cursor is the first image listed in the table of contents
    of a file that starts with the magic; without the magic or an image there
    is none. *)
Theorem load_default_cursor_correct m garbage data size :
  data <> 0 ->
  let entry k := data + get m data xcursor_Header "headerSize" + 12 * k in
  let image k := get m (entry k) xcursor_TOCEntry "type" = XCURSOR_CHUNKTYPE_IMAGE in
  let n := get m data xcursor_Header "numTOC" in
  match load_default_cursor m garbage data size with
  | Some c => bytes m data 4 = XCURSOR_MAGIC /\ exists j, 0 <= j < n /\ image j /\ (forall k, 0 <= k < j -> ~ image k) /\
      c = load_cursor m (data + get m (entry j) xcursor_TOCEntry "offset")
  | None => bytes m data 4 <> XCURSOR_MAGIC \/ forall k, 0 <= k < n -> ~ image k
  end.
Proof.
  intros Hd entry image n. unfold load_default_cursor, xcursor_LoadMemory.
  case_bool_decide as Hm; cbn [negb header Z.eqb xn]; [|by left].
  rewrite (proj2 (Z.eqb_neq data 0)) by done. cbn [negb].
  assert (0 <= n) by (change n with (load 4 m (data + 12)); apply load_range).
  pose proof (first_image_spec m data (mk_xcursor data size n (data + get m data xcursor_Header "headerSize")) (Z.to_nat n) 0) as Hf.
  cbn [xn] in Hf. specialize (Hf ltac:(lia)). fold n.
  destruct (first_image _ _ _ _ _) as [p|]; cbn [fmap option_fmap option_map].
  - split; [done|]. destruct Hf as (j & Hj & Et & -> & Hk). by exists j.
  - right. intros k Hk. by apply Hf.
Qed.
(** A file with a comment and an image of 2 by 1 pixels at offset 40. *)
Definition demo_cursor : mem :=
  foldl (fun m p => store32 m (4096 + p.1) p.2) (fun _ => 0)
    [(0, 0x72756358); (4, 16); (12, 2); (16, 0xfffe0001); (28, 0xfffd0002); (36, 40); (56, 2); (60, 1); (64, 1)].
Lemma load_default_cursor_correct_witness :
  load_default_cursor demo_cursor (mk_xcursor 0 0 0 0) 4096 80 = Some (mk_cursor 2 1 1 0 4172) /\
  bytes demo_cursor 4096 4 = XCURSOR_MAGIC.
Proof.
  pose proof (load_default_cursor_correct demo_cursor (mk_xcursor 0 0 0 0) 4096 80 ltac:(lia)) as H. cbn zeta in H.
  assert (load_default_cursor demo_cursor (mk_xcursor 0 0 0 0) 4096 80 = Some (mk_cursor 2 1 1 0 4172)) as E by (vm_compute; reflexivity).
  rewrite E in H. exact (conj E (proj1 H)).
Defined.
