(* ===== verification/GraphicsProps.v ===== *)
(** * Properties of the display: damage, copies, fills and the console *)

From S2P Require Import Prelude Mem MinMax Graphics.

(** ** Coverage of rectangles *)

(** The pixels of a rectangle; the fields are the 32-bit images of [int]s. *)
Definition covers (r : rect) (x y : Z) : Prop :=
  i32 (left r) <= x < i32 (left r) + i32 (width r) /\ i32 (top r) <= y < i32 (top r) + i32 (height r).
(** One axis of a rectangle stays far from the ends of the range. *)
Definition span_ok (p n : Z) : Prop :=
  0 <= p < 4294967296 /\ -536870912 <= i32 p /\ 0 <= n /\ i32 p + n <= 536870912.
(** A rectangle that touches the columns of a screen [sW] wide. *)
Definition rect_small (sW : Z) (r : rect) : Prop :=
  (span_ok (left r) (width r) /\ span_ok (top r) (height r)) /\ - width r <= i32 (left r) <= sW.

Lemma span_i32 p n : span_ok p n -> i32 n = n.
Proof. unfold span_ok. intros. apply i32_small. lia. Qed.
(** Two spans that meet join to one. *)
Lemma span_join p n q k :
  span_ok p n -> span_ok q k -> u32 (p + n) = q ->
  u32 (n + k) = n + k /\ span_ok p (n + k) /\ i32 q = i32 p + n.
Proof. unfold span_ok. word_lia. Qed.

Lemma merge_rect_covers sW prev r r' :
  rect_small sW prev -> rect_small sW r -> merge_rect prev r = Some r' ->
  rect_small sW r' /\ forall x y, covers r' x y <-> covers prev x y \/ covers r x y.
Proof.
  intros [[Hp1 Hp2] Hp3] [[Hr1 Hr2] Hr3]. unfold merge_rect, covers, rect_small.
  destruct ((top prev =? top r) && (height prev =? height r)) eqn:E1;
    [destruct (u32 (left prev + width prev) =? left r) eqn:E2;
       [|destruct (u32 (left r + width r) =? left prev) eqn:E3]
    |destruct ((left prev =? left r) && (width prev =? width r)) eqn:E4; [|done];
     destruct (u32 (top prev + height prev) =? top r) eqn:E2;
       [|destruct (u32 (top r + height r) =? top prev) eqn:E3]]; try done;
    intros [= <-]; cbn [left top width height]; zbool.
  - destruct (span_join _ _ _ _ Hp1 Hr1) as (-> & Hj & E); [done|].
    rewrite (span_i32 _ _ Hj), (span_i32 _ _ Hp1), (span_i32 _ _ Hr1), (span_i32 _ _ Hr2), (span_i32 _ _ Hp2), E.
    unfold span_ok in *. split; [split; [split; [done|congruence]|lia]|]. intros x y.
    replace (top prev) with (top r) by congruence. replace (height prev) with (height r) by congruence. lia.
  - destruct (span_join _ _ _ _ Hr1 Hp1) as (-> & Hj & E); [done|].
    rewrite (span_i32 _ _ Hj), (span_i32 _ _ Hp1), (span_i32 _ _ Hr1), (span_i32 _ _ Hr2), (span_i32 _ _ Hp2), E.
    unfold span_ok in *. split; [split; [split; [done|congruence]|lia]|]. intros x y.
    replace (top prev) with (top r) by congruence. replace (height prev) with (height r) by congruence. lia.
  - destruct (span_join _ _ _ _ Hp2 Hr2) as (-> & Hj & E); [done|].
    rewrite (span_i32 _ _ Hj), (span_i32 _ _ Hp1), (span_i32 _ _ Hr1), (span_i32 _ _ Hr2), (span_i32 _ _ Hp2), E.
    unfold span_ok in *. split; [split; [split; [congruence|done]|lia]|]. intros x y.
    replace (left prev) with (left r) by congruence. replace (width prev) with (width r) by congruence. lia.
  - destruct (span_join _ _ _ _ Hr2 Hp2) as (-> & Hj & E); [done|].
    rewrite (span_i32 _ _ Hj), (span_i32 _ _ Hp1), (span_i32 _ _ Hr1), (span_i32 _ _ Hr2), (span_i32 _ _ Hp2), E.
    unfold span_ok in *. split; [split; [split; [congruence|done]|lia]|]. intros x y.
    replace (left prev) with (left r) by congruence. replace (width prev) with (width r) by congruence. lia.
Qed.

Section Damage.
Context {S : Type} `{RectStack S}.
Implicit Types g : graphics S.

(** A pixel the next swap will copy. *)
Definition damaged g (x y : Z) : Prop :=
  invalidated_screen g = true \/ exists r, r ∈ rs_list (invalidated g) /\ covers r x y.
Record damage_ok g : Prop := {
  dok_stack : rs_ok (invalidated g);
  dok_rects : Forall (rect_small (Width g)) (rs_list (invalidated g));
  dok_rect : forall r, rect_small (Width g) r -> rect_ok r;
}.
(** The rectangle of a call touches the screen's columns, and its coordinates
    are far from overflow. *)
Definition call_ok g (l t w h : Z) : Prop :=
  (-536870912 <= l /\ l + w <= 536870912 /\ - w <= l <= Width g /\ 0 <= w) /\
  (-536870912 <= t /\ t + h <= 536870912 /\ 0 <= h).

Lemma call_rect g l t w h :
  call_ok g l t w h -> let r := mk_rect (u32 l) (u32 t) (u32 w) (u32 h) in
  rect_small (Width g) r /\ forall x y, covers r x y <-> (l <= x < l + w /\ t <= y < t + h).
Proof.
  unfold call_ok, rect_small, span_ok, covers. cbn. intros.
  assert (i32 (u32 l) = l /\ i32 (u32 t) = t /\ u32 w = w /\ u32 h = h /\ i32 w = w /\ i32 h = h)
    as (-> & -> & -> & -> & -> & ->) by word_lia.
  split; [|done]. split; word_lia.
Qed.
(** Pushing [r] where there is room. *)
Lemma push_ok g s r rs b :
  damage_ok g -> rs_ok s -> rs_room s = true -> rs_list s = rs ->
  Forall (rect_small (Width g)) rs -> rect_small (Width g) r ->
  damage_ok (set_invalidated (rs_push s r) b g) /\ rs_list (rs_push s r) = r :: rs.
Proof.
  intros Hg Hs Hroom <- Hf Hr. destruct (rs_push_law s r Hs) as [H1 H2]; [by apply (dok_rect g)|done|].
  split; [|done]. split; cbn; [done|rewrite H2; by constructor|apply (dok_rect g Hg)].
Qed.
Lemma Invalidate_damage g l t w h :
  damage_ok g -> call_ok g l t w h ->
  let g' := graphics_Invalidate l t w h g in
  damage_ok g' /\
  (forall x y, damaged g' x y <-> damaged g x y \/ (l <= x < l + w /\ t <= y < t + h) \/
                                  rs_room (invalidated g) = false) /\
  exists s b, g' = set_invalidated s b g.
Proof.
  intros Hg Hc. destruct (call_rect g l t w h Hc) as [Hsm Hcov]. pose proof Hg as [Hs Hf Hr].
  unfold graphics_Invalidate. set (r := mk_rect (u32 l) (u32 t) (u32 w) (u32 h)) in *.
  destruct (rs_room (invalidated g)) eqn:Eroom; cbn [negb].
  2: { split_and!; try done; [|by repeat eexists]. intros x y. split; [by right; right|by left]. }
  assert (forall r' rs s, rs_ok s -> rs_room s = true -> rs_list s = rs ->
    Forall (rect_small (Width g)) rs -> rect_small (Width g) r' ->
    (forall x y, (exists q, q ∈ r' :: rs /\ covers q x y) <->
                 (exists q, q ∈ rs_list (invalidated g) /\ covers q x y) \/ covers r x y) ->
    let g' := set_invalidated (rs_push s r') (invalidated_screen g) g in
    damage_ok g' /\ (forall x y, damaged g' x y <-> damaged g x y \/ (l <= x < l + w /\ t <= y < t + h) \/ true = false) /\
    exists s b, g' = set_invalidated s b g) as Hpush.
  { intros r' rs s Hs' Hroom Hl Hfs Hr' Hex.
    destruct (push_ok g s r' rs (invalidated_screen g) Hg Hs' Hroom Hl Hfs Hr') as [H1 H2].
    cbn zeta. split_and!; try done; [|by repeat eexists]. intros x y. unfold damaged.
    cbn [set_invalidated invalidated invalidated_screen]. rewrite H2, Hex, <- Hcov. naive_solver. }
  rewrite (rs_top_law _ Hs). destruct (rs_list (invalidated g)) as [|prev rs] eqn:El; cbn [head].
  { apply (Hpush r []); try done. intros x y. set_solver. }
  apply Forall_cons in Hf as [Hprev Hf].
  destruct (merge_rect prev r) as [r'|] eqn:Em.
  - destruct (merge_rect_covers _ prev r r' Hprev Hsm Em) as [Hr' Hcov'].
    pose proof (rs_pop_law _ Hs) as Hpop. destruct (rs_pop (invalidated g)) as [[p s]|]; [|congruence].
    destruct Hpop as (Hs' & El' & Hroom'). rewrite El in El'. injection El' as <- Ers.
    apply (Hpush r' rs s); try done.
    intros x y. split.
    + intros (q & [->|Hq]%elem_of_cons & Hcq).
      * apply Hcov' in Hcq as [?|?]; [left; exists prev; set_solver|by right].
      * left. exists q. set_solver.
    + intros [(q & [->|Hq]%elem_of_cons & Hcq)|Hcr].
      * exists r'. split; [by left|]. apply Hcov'. by left.
      * exists q. set_solver.
      * exists r'. split; [by left|]. apply Hcov'. by right.
  - apply (Hpush r (prev :: rs) (invalidated g)); try done; [by constructor|].
    intros x y. split.
    + intros (q & [->|Hq]%elem_of_cons & Hcq); [by right|left; by exists q].
    + intros [(q & Hq & Hcq)|Hcr]; [exists q; split; [by right|done]|exists r; split; [by left|done]].
Qed.
End Damage.

(** ** Clipped copies *)

(** Copying rows that do not overlap. *)
Lemma copy_rows (d s : Z -> Z) n rows : forall m,
  NoDup rows ->
  (forall i j, i ∈ rows -> j ∈ rows -> i <> j -> d i + n <= d j \/ d j + n <= d i) ->
  (forall i j, i ∈ rows -> j ∈ rows -> s i + n <= d j \/ d j + n <= s i) ->
  let m' := foldl (fun m i => memcpy m (d i) (s i) n) m rows in
  (forall i k, i ∈ rows -> 0 <= k < n -> m' (d i + k) = m (s i + k)) /\
  (forall x, (forall i, i ∈ rows -> ~ (d i <= x < d i + n)) -> m' x = m x).
Proof.
  induction rows as [|i rows IH]; intros m Hnd Hd Hs.
  { split; [intros i k Hi; by apply not_elem_of_nil in Hi|done]. }
  apply NoDup_cons in Hnd as [Hni Hnd]. cbn [foldl].
  destruct (IH (memcpy m (d i) (s i) n) Hnd) as [IH1 IH2].
  { intros a b Ha Hb. apply Hd; by right. }
  { intros a b Ha Hb. apply Hs; by right. }
  split.
  - intros a k Ha Hk. apply elem_of_cons in Ha as [->|Ha].
    + rewrite IH2.
      * rewrite memcpy_in by lia. f_equal. lia.
      * intros b Hb Hx. assert (i <> b) as Hne by (by intros ->).
        destruct (Hd i b) as [?|?]; [by left|by right|done|lia|lia].
    + rewrite IH1 by done. destruct (Hs a i) as [?|?]; [by right|by left| |];
        apply memcpy_out; lia.
  - intros x Hx. rewrite IH2 by (intros b Hb; apply Hx; by right).
    apply memcpy_out. apply (Hx i). by left.
Qed.

(** The pixels of an image, and where it lies. *)
Definition in_image (im : image) (x y : Z) : Prop := 0 <= x < i_sizeX im /\ 0 <= y < i_sizeY im.
Definition image_end (im : image) : Z := i_data im + 4 * (i_sizeX im * i_sizeY im).
Definition images_apart (a b : image) : Prop := image_end a <= i_data b \/ image_end b <= i_data a.
Definition pixel (m : mem) (im : image) (x y : Z) : Z := load32 m (image_addr im x y).

Lemma image_addr_range im x y :
  in_image im x y -> i_data im <= image_addr im x y /\ image_addr im x y + 4 <= image_end im.
Proof. unfold in_image, image_addr, image_end. intros. nia. Qed.
Lemma image_addr_ne im x y x' y' :
  in_image im x y -> in_image im x' y' -> (x, y) <> (x', y') ->
  image_addr im x y + 4 <= image_addr im x' y' \/ image_addr im x' y' + 4 <= image_addr im x y.
Proof.
  unfold in_image, image_addr. intros [? ?] [? ?] Hne.
  destruct (Z.lt_trichotomy y y') as [?|[->|?]]; [nia| |nia].
  assert (x <> x') by (by intros ->). lia.
Qed.


Lemma load_shift n m m' a b :
  (forall k, 0 <= k < Z.of_nat n -> m' (a + k) = m (b + k)) -> load n m' a = load n m b.
Proof.
  revert a b. induction n as [|n IH]; intros a b Hk; [done|]. cbn [load]. unfold load8.
  pose proof (Hk 0 ltac:(lia)) as H0. rewrite !Z.add_0_r in H0. rewrite H0. do 2 f_equal.
  apply IH. intros k Hk'. rewrite <- !Z.add_assoc. apply Hk. lia.
Qed.
(** The pixels a clipped copy writes. *)
Definition region (from : image) (fromX fromY : Z) (to : image) (toX toY countX countY x y : Z) : Prop :=
  toX <= x < toX + countX /\ toY <= y < toY + countY /\ in_image to x y /\
  in_image from (x - toX + fromX) (y - toY + fromY).
(** The [int] arithmetic of the clipping does not overflow. *)
Definition clip_ok (from f to t : Z) : Prop :=
  - 2147483648 < f < 2147483648 /\ - 2147483648 < t < 2147483648 /\
  - 2147483648 <= from - f < 2147483648 /\ - 2147483648 <= to - t < 2147483648.
Definition clips_ok (from : image) (fX fY : Z) (to : image) (tX tY : Z) : Prop :=
  clip_ok (i_sizeX from) fX (i_sizeX to) tX /\ clip_ok (i_sizeY from) fY (i_sizeY to) tY.
Lemma clip_begin_max from f to t : clip_ok from f to t -> clip_begin f t = Z.max 0 (Z.max (- f) (- t)).
Proof. intros (? & ? & ? & ?). unfold clip_begin. rewrite intmax3_spec, !i32_small by lia. done. Qed.
Lemma clip_end_min c from f to t : clip_ok from f to t -> clip_end c from f to t = Z.min c (Z.min (from - f) (to - t)).
Proof. intros (? & ? & ? & ?). unfold clip_end. rewrite intmin3_spec, !i32_small by lia. done. Qed.
Definition image_ok (im : image) : Prop := 0 <= i_sizeX im < 2147483648 /\ 0 <= i_sizeY im.

Section Copy.
Variables (m : mem) (from : image) (fX fY : Z) (to : image) (tX tY cX cY : Z).
Hypothesis Hfrom : image_ok from.
Hypothesis Hto : image_ok to.
Hypothesis Hap : images_apart from to.
Hypothesis Hclip : clips_ok from fX fY to tX tY.
Let bX := clip_begin fX tX.
Let bY := clip_begin fY tY.
Let eX := clip_end cX (i_sizeX from) fX (i_sizeX to) tX.
Let eY := clip_end cY (i_sizeY from) fY (i_sizeY to) tY.
(** The clipped region has no negative width. *)
Hypothesis Hpos : bX <= eX \/ eY <= bY.

Lemma clip_x : 0 <= bX /\ 0 <= fX + bX /\ 0 <= tX + bX /\ eX <= cX /\ fX + eX <= i_sizeX from /\ tX + eX <= i_sizeX to /\
  (forall i, 0 <= i -> 0 <= fX + i -> 0 <= tX + i -> bX <= i) /\
  (forall i, i < cX -> fX + i < i_sizeX from -> tX + i < i_sizeX to -> i < eX).
Proof.
  unfold bX, eX. rewrite (clip_begin_max _ _ _ _ (proj1 Hclip)), (clip_end_min _ _ _ _ _ (proj1 Hclip)). split_and!; intros; lia.
Qed.
Lemma clip_y : 0 <= bY /\ 0 <= fY + bY /\ 0 <= tY + bY /\ eY <= cY /\ fY + eY <= i_sizeY from /\ tY + eY <= i_sizeY to /\
  (forall i, 0 <= i -> 0 <= fY + i -> 0 <= tY + i -> bY <= i) /\
  (forall i, i < cY -> fY + i < i_sizeY from -> tY + i < i_sizeY to -> i < eY).
Proof.
  unfold bY, eY. rewrite (clip_begin_max _ _ _ _ (proj2 Hclip)), (clip_end_min _ _ _ _ _ (proj2 Hclip)). split_and!; intros; lia.
Qed.

Lemma CopyBuffer_spec :
  let m' := __graphics_CopyBuffer32 m from fX fY to tX tY cX cY in
  (forall x y, region from fX fY to tX tY cX cY x y -> pixel m' to x y = pixel m from (x - tX + fX) (y - tY + fY)) /\
  (forall x y, in_image to x y -> ~ region from fX fY to tX tY cX cY x y -> pixel m' to x y = pixel m to x y) /\
  (forall a, ~ (i_data to <= a < image_end to) -> m' a = m a).
Proof.
  destruct clip_x as (X1 & X2 & X3 & X4 & X5 & X6 & X7 & X8).
  destruct clip_y as (Y1 & Y2 & Y3 & Y4 & Y5 & Y6 & Y7 & Y8).
  unfold image_ok in Hfrom, Hto.
  unfold __graphics_CopyBuffer32. fold bX bY eX eY.
  destruct (Z.le_gt_cases eY bY) as [Hnil|Hrows].
  { rewrite seqZ_nil by lia. cbn [foldl]. split_and!; [|done|done].
    intros x y (Hx & Hy & [? ?] & [? ?]). specialize (Y7 (y - tY)). specialize (Y8 (y - tY)). lia. }
  assert (bX <= eX) as HX by lia.
  assert (u64 ((eX - bX) * 4) = 4 * (eX - bX)) as -> by word_lia.
  set (d := fun i => image_addr to (tX + bX) (tY + i)). set (s := fun i => image_addr from (fX + bX) (fY + i)).
  assert (forall i k, bY <= i < eY -> 0 <= k < 4 * (eX - bX) ->
    exists x, in_image to x (tY + i) /\ bX <= x - tX < eX /\ image_addr to x (tY + i) <= d i + k < image_addr to x (tY + i) + 4) as Hd1.
  { intros i k Hi Hk. exists (tX + bX + k / 4). unfold d, in_image, image_addr. lia. }
  assert (forall i k, bY <= i < eY -> 0 <= k < 4 * (eX - bX) -> i_data to <= d i + k < image_end to) as Hd2.
  { intros i k Hi Hk. destruct (Hd1 i k Hi Hk) as (x & Hx & _ & Hr). pose proof (image_addr_range _ _ _ Hx). lia. }
  assert (forall i k, bY <= i < eY -> 0 <= k < 4 * (eX - bX) -> i_data from <= s i + k < image_end from) as Hs2.
  { intros i k Hi Hk. assert (in_image from (fX + bX + k / 4) (fY + i)) as Hx by (unfold in_image; lia).
    pose proof (image_addr_range _ _ _ Hx) as Hr. unfold s, image_addr in *. lia. }
  destruct (copy_rows d s (4 * (eX - bX)) (seqZ bY (eY - bY)) m) as [H1 H2].
  { apply NoDup_seqZ. }
  { intros i j Hi%elem_of_seqZ Hj%elem_of_seqZ Hne. unfold d, image_addr.
    destruct (Z.lt_trichotomy i j) as [?|[?|?]]; [left|done|right]; nia. }
  { intros i j Hi%elem_of_seqZ Hj%elem_of_seqZ.
    destruct (decide (bX = eX)) as [->|Hne]; [lia|].
    pose proof (Hs2 i 0 ltac:(lia) ltac:(lia)). pose proof (Hs2 i (4 * (eX - bX) - 1) ltac:(lia) ltac:(lia)).
    pose proof (Hd2 j 0 ltac:(lia) ltac:(lia)). pose proof (Hd2 j (4 * (eX - bX) - 1) ltac:(lia) ltac:(lia)).
    unfold images_apart in Hap. lia. }
  cbn zeta. split_and!.
  - intros x y (Hx & Hy & [? ?] & [? ?]).
    pose proof (X7 (x - tX)). pose proof (X8 (x - tX)). pose proof (Y7 (y - tY)). pose proof (Y8 (y - tY)).
    apply load_shift. intros k Hk.
    specialize (H1 (y - tY) (4 * (x - tX - bX) + k)). rewrite elem_of_seqZ in H1.
    unfold d, s, image_addr in *.
    replace ((x + i_sizeX to * y) * 4 + i_data to + k)
      with ((tX + bX + i_sizeX to * (tY + (y - tY))) * 4 + i_data to + (4 * (x - tX - bX) + k)) by lia.
    rewrite H1 by lia. f_equal. lia.
  - intros x y Hin Hn. apply load_ext. intros a Ha. apply H2. intros i Hi%elem_of_seqZ Hx.
    destruct (Hd1 i (a - d i) ltac:(lia) ltac:(lia)) as (x' & Hx' & Hr & Hb).
    destruct (decide ((x, y) = (x', tY + i))) as [[= -> ->]|Hne].
    + apply Hn. pose proof Hx' as [? ?]. unfold region, in_image. lia.
    + destruct (image_addr_ne to x y x' (tY + i) Hin Hx' Hne); lia.
  - intros a Ha. apply H2. intros i Hi%elem_of_seqZ Hx.
    pose proof (Hd2 i (a - d i) ltac:(lia) ltac:(lia)). lia.
Qed.
End Copy.
