(* ===== verification/Drawing.v ===== *)
(** * Drawing on the back buffer: fills, glyphs and the text cell

    What the drawing routines of Graphics.v do to the pixels of the back
    buffer, stated with [paints]: which pixels get a word, everything else
    being left alone. *)

From S2P Require Import Prelude Mem MinMax Graphics GraphicsProps.

(** [m'] is [m] with the word [w] in the pixels [P] of an image. *)
Definition paints (im : image) (w : Z) (P : Z -> Z -> bool) (m m' : mem) : Prop :=
  (forall x y, in_image im x y -> pixel m' im x y = if P x y then w else pixel m im x y) /\
  (forall a, ~ (i_data im <= a < image_end im) -> m' a = m a).
Definition is_word (w : Z) : Prop := 0 <= w < 4294967296.
Definition in_box (l t r b x y : Z) : bool := (l <=? x) && (x <? r) && (t <=? y) && (y <? b).

Lemma in_box_spec l t r b x y : in_box l t r b x y = true <-> l <= x < r /\ t <= y < b.
Proof. unfold in_box. rewrite !andb_true_iff, !Z.leb_le, !Z.ltb_lt. lia. Qed.

Lemma paints_ext im w P Q m m' :
  (forall x y, in_image im x y -> P x y = Q x y) -> paints im w P m m' -> paints im w Q m m'.
Proof. intros HPQ [H1 H2]. split; [|done]. intros x y Hin. rewrite <- HPQ by done. by apply H1. Qed.
Lemma paints_nothing im w m : paints im w (fun _ _ => false) m m.
Proof. done. Qed.
Lemma paints_trans im w P Q m m1 m2 :
  paints im w P m m1 -> paints im w Q m1 m2 -> paints im w (fun x y => P x y || Q x y) m m2.
Proof.
  intros [H1 H2] [H3 H4]. split.
  - intros x y Hin. rewrite H3, H1 by done. by destruct (P x y), (Q x y).
  - intros a Ha. by rewrite H4, H2.
Qed.
Lemma paints_pixel im w m x y :
  in_image im x y -> is_word w ->
  paints im w (fun a b => (a =? x) && (b =? y)) m (store32 m (image_addr im x y) w).
Proof.
  intros Hin Hw. split.
  - intros a b Hab. unfold pixel, load32, store32.
    destruct (Z.eqb_spec a x) as [->|]; [destruct (Z.eqb_spec b y) as [->|]|]; cbn [andb].
    + rewrite load_store_eq. apply Z.mod_small. done.
    + apply load_store_ne. apply image_addr_ne; [done|done|congruence].
    + apply load_store_ne. apply image_addr_ne; [done|done|congruence].
  - intros a Ha. apply store_outside. pose proof (image_addr_range _ _ _ Hin). lia.
Qed.
(** Loops over painting steps. *)
Lemma paints_foldl {X} im w (f : mem -> X -> mem) (P : X -> Z -> Z -> bool) xs : forall m,
  (forall m x, x ∈ xs -> paints im w (P x) m (f m x)) ->
  paints im w (fun a b => existsb (fun x => P x a b) xs) m (foldl f m xs).
Proof.
  induction xs as [|x xs IH]; intros m Hs; cbn [foldl existsb]; [apply paints_nothing|].
  apply paints_trans with (f m x); [apply Hs; by left|]. apply IH. intros. apply Hs. by right.
Qed.
Lemma existsb_seqZ (f : Z -> bool) s n : existsb f (seqZ s n) = true <-> exists i, s <= i < s + n /\ f i = true.
Proof.
  rewrite existsb_exists. split; intros (i & Hi & Hf); exists i; (split; [|done]).
  - rewrite <- list_elem_of_In in Hi. by apply elem_of_seqZ in Hi.
  - rewrite <- list_elem_of_In. by apply elem_of_seqZ.
Qed.
Lemma foldl_eq {X Y} (f h : X -> Y -> X) l : forall a, (forall a y, f a y = h a y) -> foldl f a l = foldl h a l.
Proof. induction l as [|y l IH]; intros a Hf; [done|]. cbn [foldl]. by rewrite Hf, IH. Qed.
Lemma bool_ext (a b : bool) : (a = true <-> b = true) -> a = b.
Proof. destruct a, b; intuition congruence. Qed.

(** The two nested loops of a fill paint a box. *)
Lemma paints_box im w m l t r b :
  (forall x y, l <= x < r -> t <= y < b -> in_image im x y) -> is_word w ->
  paints im w (in_box l t r b) m
    (foldl (fun m i => foldl (fun m j => store32 m (image_addr im i j) w) m (seqZ t (b - t))) m (seqZ l (r - l))).
Proof.
  intros Hin Hw.
  apply paints_ext with (fun x y => existsb (fun i => existsb (fun j => (x =? i) && (y =? j)) (seqZ t (b - t))) (seqZ l (r - l))).
  - intros x y _. apply bool_ext. rewrite existsb_seqZ, in_box_spec. setoid_rewrite existsb_seqZ. split.
    + intros (i & Hi & j & Hj & Hb). zbool. lia.
    + intros Hb. exists x. split; [lia|]. exists y. split; [lia|]. by rewrite !Z.eqb_refl.
  - apply (paints_foldl im w _ (fun i x y => existsb (fun j => (x =? i) && (y =? j)) (seqZ t (b - t)))).
    intros m1 i Hi. apply elem_of_seqZ in Hi.
    apply (paints_foldl im w _ (fun j x y => (x =? i) && (y =? j))).
    intros m2 j Hj. apply elem_of_seqZ in Hj. apply paints_pixel; [|done]. apply Hin; lia.
Qed.

Section Drawing.
Context {S : Type} `{RectStack S}.
Implicit Types g : graphics S.

(** The lines of the back buffer have no padding. *)
Definition packed g : Prop := PixelsPerLine g = Width g.
Lemma packed_addr g x y : packed g -> pixel_addr g x y = image_addr (back g) x y.
Proof. unfold packed, pixel_addr, image_addr, back. cbn. intros ->. lia. Qed.

Lemma set_memory_twice m m' g : set_memory m' (set_memory m g) = set_memory m' g.
Proof. done. Qed.
Lemma set_memory_id g : set_memory (memory g) g = g.
Proof. by destruct g. Qed.
(** A change of the display that paints. *)
Definition repaints g (w : Z) (P : Z -> Z -> bool) (m : mem) (g' : graphics S) : Prop :=
  exists m', g' = set_memory m' g /\ paints (back g) w P m m'.
Lemma repaints_ext g w P Q m g' :
  (forall x y, in_image (back g) x y -> P x y = Q x y) -> repaints g w P m g' -> repaints g w Q m g'.
Proof. intros HPQ (m' & ? & ?). exists m'. split; [done|by eapply paints_ext]. Qed.
Lemma repaints_foldl {X} g w (f : graphics S -> X -> graphics S) (P : X -> Z -> Z -> bool) xs : forall m,
  (forall m x, x ∈ xs -> repaints g w (P x) m (f (set_memory m g) x)) ->
  repaints g w (fun a b => existsb (fun x => P x a b) xs) m (foldl f (set_memory m g) xs).
Proof.
  induction xs as [|x xs IH]; intros m Hs; cbn [foldl existsb]; [exists m; split; [done|apply paints_nothing]|].
  destruct (Hs m x) as (m1 & -> & H1); [by left|].
  destruct (IH m1) as (m2 & E & H2); [intros; apply Hs; by right|].
  exists m2. split; [done|by eapply paints_trans].
Qed.

(** ** Colours *)

Definition color_ok (c : HelosGraphics_Color) : Prop :=
  0 <= B c < 256 /\ 0 <= G c < 256 /\ 0 <= R c < 256 /\ 0 <= A c < 256.
Definition known_format g : Prop :=
  PixelFormat g = graphics_PixelFormat_RGBA_8bit \/ PixelFormat g = graphics_PixelFormat_BGRA_8bit.
(** The word [graphics_SetPixel] writes. *)
Definition pixel_word g (c : HelosGraphics_Color) : Z :=
  if PixelFormat g =? graphics_PixelFormat_BGRA_8bit then B c + 256 * G c + 65536 * R c
  else R c + 256 * G c + 65536 * B c.

Lemma mask_word c : color_ok c -> Z.land (word c) 0x00ffffff = B c + 256 * G c + 65536 * R c.
Proof.
  intros (? & ? & ? & ?). change 0x00ffffff with (Z.ones 24). rewrite Z.land_ones by lia.
  change (2 ^ 24) with 16777216. unfold word. lia.
Qed.
Lemma pixel_word_ok g c : color_ok c -> is_word (pixel_word g c).
Proof. intros (? & ? & ? & ?). unfold pixel_word, is_word. case_match; lia. Qed.
Lemma SetPixel_eq g c x y :
  packed g -> known_format g -> color_ok c ->
  graphics_SetPixel x y c g = set_memory (store32 (memory g) (image_addr (back g) x y) (pixel_word g c)) g.
Proof.
  intros Hp Hf Hc. unfold graphics_SetPixel, graphics_SetPixel_BGR, graphics_SetPixel_RGB, pixel_word.
  rewrite mask_word, packed_addr by done.
  destruct Hf as [-> | ->]; done.
Qed.

(** ** Fills *)

(** The word [graphics_FillPixel] writes: always in the order B, G, R. *)
Lemma fill_word_eq g c : known_format g -> color_ok c -> fill_word g c = Some (B c + 256 * G c + 65536 * R c).
Proof. intros Hf Hc. unfold fill_word. rewrite mask_word by done. by destruct Hf as [-> | ->]. Qed.

Lemma FillPixel_paints g l t r b c :
  packed g -> known_format g -> color_ok c -> 0 <= l -> 0 <= t -> r <= Width g -> b <= Height g ->
  exists m, graphics_FillPixel l t r b c g = graphics_Invalidate l t (r - l) (b - t) (set_memory m g) /\
  paints (back g) (B c + 256 * G c + 65536 * R c) (in_box l t r b) (memory g) m.
Proof.
  intros Hp Hf Hc Hl Ht Hr Hb. unfold graphics_FillPixel. rewrite fill_word_eq by done. cbn zeta.
  eexists. split; [reflexivity|]. destruct Hc as (? & ? & ? & ?).
  pose proof (paints_box (back g) (B c + 256 * G c + 65536 * R c) (memory g) l t r b) as Hbox.
  unfold image_addr, pixel_addr in *. cbn [back i_data i_sizeX i_sizeY] in Hbox.
  assert (forall x y, Framebuffer g + PixelsPerLine g * 4 * y + 4 * x = (x + Width g * y) * 4 + Framebuffer g) as Ea.
  { intros. rewrite Hp. lia. }
  assert (forall m0, foldl (fun m i => foldl (fun m j => store32 m (Framebuffer g + PixelsPerLine g * 4 * j + 4 * i)
      (B c + 256 * G c + 65536 * R c)) m (seqZ t (b - t))) m0 (seqZ l (r - l)) =
    foldl (fun m i => foldl (fun m j => store32 m ((i + Width g * j) * 4 + Framebuffer g)
      (B c + 256 * G c + 65536 * R c)) m (seqZ t (b - t))) m0 (seqZ l (r - l))) as ->.
  { intros m0. apply foldl_eq. intros m i. apply foldl_eq. intros m' j. by rewrite Ea. }
  apply Hbox; [|unfold is_word; lia]. intros x y Hx Hy. unfold in_image. cbn. lia.
Qed.
End Drawing.

(** ** Glyphs *)

Lemma glyph_bit b k : 0 <= k -> negb (Z.land b (Z.shiftl 1 k) =? 0) = Z.testbit b k.
Proof.
  intros Hk. rewrite Z.shiftl_1_l. apply bool_ext. rewrite negb_true_iff, Z.eqb_neq. split.
  - intros Hne. destruct (Z.testbit b k) eqn:E; [done|]. exfalso. apply Hne. apply Z.bits_inj'. intros i Hi.
    rewrite Z.land_spec, Z.bits_0, Z.pow2_bits_eqb by done. destruct (Z.eqb_spec k i) as [->|]; [by rewrite E|apply andb_false_r].
  - intros Hb Hz. assert (Z.testbit (Z.land b (2 ^ k)) k = true) as E.
    { rewrite Z.land_spec, Hb, Z.pow2_bits_true by done. done. }
    by rewrite Hz, Z.bits_0 in E.
Qed.
(** Whether pixel [i], [j] of a character's cell is set in the font: one or two
    bytes per line, the high bit first. *)
Definition glyph (data : Z -> Z) (codepoint i j : Z) : bool :=
  let base := u32 (codepoint * UNIFONT_CHAR_WIDTH * UNIFONT_CHAR_HEIGHT * 2) / 8 in
  let line := if unifont_IsCharDoublewidth codepoint then data (base + 2 * j + i / 8) else data (base + j) in
  Z.testbit line (7 - i mod 8).

Section Glyphs.
Context {S : Type} `{RectStack S}.
Implicit Types g : graphics S.
Variables (data : Z -> Z) (c : HelosGraphics_Color).
Hypothesis Hc : color_ok c.

Lemma draw_line_paints g m x y line :
  packed g -> known_format g -> 0 <= x -> x + 8 <= Width g -> 0 <= y < Height g ->
  repaints g (pixel_word g c) (fun a b => (b =? y) && ((x <=? a) && (a <? x + 8) && Z.testbit line (7 - (a - x)))) m
    (draw_line x y c line (set_memory m g)).
Proof.
  intros Hp Hf Hx Hw Hy. unfold draw_line, UNIFONT_CHAR_WIDTH.
  apply repaints_ext with (fun a b => existsb (fun i => Z.testbit line (7 - i) && ((a =? x + i) && (b =? y))) (seqZ 0 8)).
  - intros a b _. apply bool_ext. rewrite existsb_seqZ, !andb_true_iff, Z.leb_le, Z.ltb_lt, Z.eqb_eq. split.
    + intros (i & Hi & [Ht Hb]%andb_true_iff). zbool. subst. replace (x + i - x) with i by lia. split_and!; [done|lia|lia|done].
    + intros (-> & [? ?] & Ht). exists (a - x). split; [lia|]. rewrite Ht. cbn. rewrite !andb_true_iff, !Z.eqb_eq. lia.
  - apply (repaints_foldl g _ _ (fun i a b => Z.testbit line (7 - i) && ((a =? x + i) && (b =? y)))).
    intros m1 i Hi. apply elem_of_seqZ in Hi. rewrite glyph_bit by lia. rewrite Z.mod_small by lia.
    destruct (Z.testbit line (7 - i)); cbn [andb]; [|exists m1; split; [done|apply paints_nothing]].
    rewrite SetPixel_eq by done. eexists. split; [reflexivity|].
    apply paints_pixel; [unfold in_image; cbn; lia|by apply pixel_word_ok].
Qed.

(** A character paints the set pixels of its cell. *)
Lemma DrawChar_paints g x y cp :
  packed g -> known_format g -> 0 <= x -> x + char_width cp <= Width g -> 0 <= y -> y + 16 <= Height g ->
  repaints g (pixel_word g c)
    (fun a b => in_box x y (x + char_width cp) (y + 16) a b && glyph data cp (a - x) (b - y)) (memory g)
    (unifont_DrawChar data x y c cp g).
Proof.
  intros Hp Hf Hx Hw Hy Hh. unfold unifont_DrawChar, glyph, char_width, UNIFONT_CHAR_HEIGHT in *.
  set (base := u32 (cp * UNIFONT_CHAR_WIDTH * 16 * 2) / 8). unfold UNIFONT_CHAR_WIDTH in *.
  match goal with |- repaints _ _ _ _ (foldl ?f g ?xs) =>
    replace (foldl f g xs) with (foldl f (set_memory (memory g) g) xs) by (by rewrite set_memory_id) end.
  set (n := if unifont_IsCharDoublewidth cp then 8 * 2 else 8) in *.
  apply repaints_ext with (fun a b => existsb (fun j => (b =? y + j) && ((x <=? a) && (a <? x + n) &&
    Z.testbit (if unifont_IsCharDoublewidth cp then data (base + 2 * j + (a - x) / 8) else data (base + j))
      (7 - (a - x) mod 8))) (seqZ 0 16)).
  - intros a b _. apply bool_ext. rewrite existsb_seqZ, andb_true_iff, in_box_spec. split.
    + intros (j & Hj & Ht). rewrite !andb_true_iff, Z.leb_le, Z.ltb_lt, Z.eqb_eq in Ht. destruct Ht as (-> & [? ?] & Ht).
      replace (y + j - y) with j by lia. split; [lia|done].
    + intros ([? ?] & Ht). exists (b - y). split; [lia|]. rewrite Ht.
      rewrite !andb_true_iff, Z.leb_le, Z.ltb_lt, Z.eqb_eq. lia.
  - apply (repaints_foldl g _ _ (fun j a b => (b =? y + j) && ((x <=? a) && (a <? x + n) &&
      Z.testbit (if unifont_IsCharDoublewidth cp then data (base + 2 * j + (a - x) / 8) else data (base + j))
        (7 - (a - x) mod 8)))).
    intros m j Hj. apply elem_of_seqZ in Hj. destruct (unifont_IsCharDoublewidth cp).
    + destruct (draw_line_paints g m x (y + j) (data (base + 2 * j))) as (m1 & -> & H1); [done|done|lia..|].
      destruct (draw_line_paints g m1 (x + 8) (y + j) (data (base + 2 * j + 1))) as (m2 & -> & H2); [done|done|lia..|].
      exists m2. split; [done|]. eapply paints_ext; [|by eapply paints_trans].
      intros a b _. cbv beta. destruct (Z.eqb_spec b (y + j)); cbn [andb]; [|done].
      unfold n. destruct (Z.leb_spec x a); cbn [andb]; [|by destruct (Z.leb_spec (x + 8) a); [lia|]].
      destruct (Z.ltb_spec a (x + 8)), (Z.leb_spec (x + 8) a), (Z.ltb_spec a (x + 8 + 8)), (Z.ltb_spec a (x + 8 * 2)); try lia; cbn [andb orb].
      * rewrite orb_false_r. rewrite Z.div_small, Z.mod_small by lia. by rewrite Z.add_0_r.
      * replace ((a - x) / 8) with 1 by lia. by replace (7 - (a - x) mod 8) with (7 - (a - (x + 8))) by lia.
    + destruct (draw_line_paints g m x (y + j) (data (base + j))) as (m1 & -> & H1); [done|done|lia..|].
      exists m1. split; [done|]. eapply paints_ext; [|done]. intros a b _. cbv beta. f_equal. unfold n.
      destruct (Z.leb_spec x a); cbn [andb]; [|done]. destruct (Z.ltb_spec a (x + 8)); cbn [andb]; [|done].
      by rewrite Z.mod_small by lia.
Qed.
End Glyphs.
