(* ===== verification/Screen.v ===== *)
(** * The display keeps the device in sync with the back buffer

    The invariant of the double buffering of src/graphics/graphics.c: a pixel
    of the device differs from the back buffer only where the next swap will
    copy it.  Drawing, scrolling, the cursor and the console keep it, and a
    swap ends with the device showing the back buffer. *)

From S2P Require Import Prelude Mem MinMax Graphics GraphicsProps Drawing.

#[export] Instance region_dec from fX fY to tX tY cX cY x y : Decision (region from fX fY to tX tY cX cY x y).
Proof. unfold region, in_image. apply _. Defined.

(** [m'] differs from [m] only in the pixels [Q] of an image. *)
Definition touches (im : image) (Q : Z -> Z -> Prop) (m m' : mem) : Prop :=
  (forall x y, in_image im x y -> Q x y \/ pixel m' im x y = pixel m im x y) /\
  (forall a, ~ (i_data im <= a < image_end im) -> m' a = m a).

Lemma paints_touches im w P m m' : paints im w P m m' -> touches im (fun x y => P x y = true) m m'.
Proof. intros [H1 H2]. split; [|done]. intros x y Hin. rewrite H1 by done. destruct (P x y); [by left|by right]. Qed.
Lemma touches_refl im Q m : touches im Q m m.
Proof. split; [by right|done]. Qed.
Lemma touches_trans im Q m m1 m2 : touches im Q m m1 -> touches im Q m1 m2 -> touches im Q m m2.
Proof.
  intros [H1 H2] [H3 H4]. split.
  - intros x y Hin. destruct (H1 x y Hin) as [|<-]; [by left|]. by apply H3.
  - intros a Ha. by rewrite H4, H2.
Qed.
Lemma touches_foldl {X} im Q (f : mem -> X -> mem) xs : forall m,
  (forall m x, x ∈ xs -> touches im Q m (f m x)) -> touches im Q m (foldl f m xs).
Proof.
  induction xs as [|x xs IH]; intros m Hs; cbn [foldl]; [apply touches_refl|].
  apply touches_trans with (f m x); [apply Hs; by left|]. apply IH. intros. apply Hs. by right.
Qed.
Lemma touches_store im (Q : Z -> Z -> Prop) m x y w :
  in_image im x y -> Q x y -> touches im Q m (store32 m (image_addr im x y) w).
Proof.
  intros Hin HQ. split.
  - intros a b Hab. destruct (decide ((a, b) = (x, y))) as [[= -> ->]|Hne]; [by left|right].
    apply load_store_ne. by apply image_addr_ne.
  - intros a Ha. apply store_outside. pose proof (image_addr_range _ _ _ Hin). lia.
Qed.
(** Images that lie apart do not touch one another. *)
Lemma touches_apart im im' Q m m' x y :
  touches im Q m m' -> images_apart im im' -> in_image im' x y -> pixel m' im' x y = pixel m im' x y.
Proof.
  intros [_ Ht] Hap Hin. apply load_ext. intros a Ha. apply Ht.
  pose proof (image_addr_range _ _ _ Hin). unfold images_apart in Hap. lia.
Qed.
Lemma CopyBuffer_touches m from fX fY to tX tY cX cY :
  image_ok from -> image_ok to -> images_apart from to -> clips_ok from fX fY to tX tY ->
  clip_begin fX tX <= clip_end cX (i_sizeX from) fX (i_sizeX to) tX ->
  touches to (region from fX fY to tX tY cX cY) m (__graphics_CopyBuffer32 m from fX fY to tX tY cX cY).
Proof.
  intros Hf Ht Hap Hc Hp. destruct (CopyBuffer_spec m from fX fY to tX tY cX cY Hf Ht Hap Hc (or_introl Hp)) as (H1 & H2 & H3).
  split; [|done]. intros x y Hin. destruct (decide (region from fX fY to tX tY cX cY x y)); [by left|right]. by apply H2.
Qed.
(** Blending writes only in the clipped region of the target. *)
Lemma RenderBuffer_touches m from fX fY to tX tY cX cY : clips_ok from fX fY to tX tY ->
  touches to (region from fX fY to tX tY cX cY) m (__graphics_RenderBuffer32 m from fX fY to tX tY cX cY).
Proof.
  intros [Hcx Hcy]. unfold __graphics_RenderBuffer32. apply touches_foldl. intros m1 x Hx%elem_of_seqZ.
  apply touches_foldl. intros m2 y Hy%elem_of_seqZ. 
  rewrite (clip_begin_max _ _ _ _ Hcx), (clip_end_min _ _ _ _ _ Hcx) in Hx. rewrite (clip_begin_max _ _ _ _ Hcy), (clip_end_min _ _ _ _ _ Hcy) in Hy.
  assert (region from fX fY to tX tY cX cY (tX + x) (tY + y)) as Hr by (unfold region, in_image; lia).
  pose proof Hr as (_ & _ & Hin & _). unfold render_pixel.
  repeat case_match; try apply touches_refl; by apply touches_store.
Qed.
Lemma clip_meets w from f to t : clip_ok from f to t -> 0 <= w -> - w <= f -> - w <= t -> f <= from -> t <= to -> 0 <= from -> 0 <= to ->
  - t <= from - f -> - f <= to - t -> clip_begin f t <= clip_end w from f to t.
Proof. intros Hc ? ? ? ? ? ? ? ? ?. rewrite (clip_begin_max _ _ _ _ Hc), (clip_end_min _ _ _ _ _ Hc). lia. Qed.

Section Screen.
Context {S : Type} `{RectStack S}.
Implicit Types g : graphics S.

Definition geometry g : Z * Z * Z * (Z * Z * Z * Z) :=
  (Framebuffer g, DeviceFramebuffer g, FramebufferSize g, (Width g, Height g, PixelsPerLine g, PixelFormat g)).
(** A display after [graphics_Init] on a device with unpadded lines. *)
Record screen_ok g : Prop := {
  sok_packed : packed g;
  sok_format : known_format g;
  sok_width : 16 <= Width g < 268435456;
  sok_height : 16 <= Height g < 268435456;
  sok_size : FramebufferSize g = 4 * (Width g * Height g);
  sok_apart : images_apart (back g) (device g);
  sok_damage : damage_ok g;
}.
Definition in_sync g : Prop := forall x y, in_image (back g) x y ->
  damaged g x y \/ pixel (memory g) (device g) x y = pixel (memory g) (back g) x y.
Definition shown g : Prop := forall x y, in_image (back g) x y ->
  pixel (memory g) (device g) x y = pixel (memory g) (back g) x y.
Definition synced g : Prop := screen_ok g /\ in_sync g.

(** An operation that draws only where it records damage. *)
Record draws_damaged g g' : Prop := {
  dd_geometry : geometry g' = geometry g;
  dd_damage : damage_ok g';
  dd_back : forall x y, in_image (back g) x y ->
    damaged g' x y \/ pixel (memory g') (back g) x y = pixel (memory g) (back g) x y;
  dd_device : forall x y, in_image (device g) x y -> pixel (memory g') (device g) x y = pixel (memory g) (device g) x y;
  dd_keeps : forall x y, in_image (back g) x y -> damaged g x y -> damaged g' x y;
}.
Lemma geometry_images g g' : geometry g' = geometry g -> back g' = back g /\ device g' = device g.
Proof. intros [= E1 E2 E3 E4 E5 E6 E7]. unfold back, device. by rewrite E1, E2, E4, E5. Qed.
Lemma geometry_ok g g' : screen_ok g -> geometry g' = geometry g -> damage_ok g' -> screen_ok g'.
Proof.
  intros [? ? ? ? ? ? ?] Hg Hd. destruct (geometry_images _ _ Hg) as [Eb Ed].
  injection Hg as E1 E2 E3 E4 E5 E6 E7. unfold packed, known_format in *.
  split; unfold packed, known_format; try congruence.
Qed.
Lemma draws_synced g g' : synced g -> draws_damaged g g' -> synced g'.
Proof.
  intros [Hok Hs] [Hg Hd Hb Hdev Hk]. split; [by eapply geometry_ok|].
  destruct (geometry_images _ _ Hg) as [Eb Ed]. intros x y Hin. rewrite Eb in *. rewrite Ed.
  destruct (Hs x y Hin) as [?|Heq]; [left; by apply Hk|].
  destruct (Hb x y Hin) as [?|Heq']; [by left|right]. rewrite Hdev by done. congruence.
Qed.

(** Drawing in the back buffer, then [graphics_Invalidate] of a box around it. *)
Lemma Invalidate_draws g m Q l t w h :
  screen_ok g -> call_ok g l t w h -> touches (back g) Q (memory g) m ->
  (forall x y, in_image (back g) x y -> Q x y -> l <= x < l + w /\ t <= y < t + h) ->
  draws_damaged g (graphics_Invalidate l t w h (set_memory m g)).
Proof.
  intros Hok Hc Ht HQ. pose proof (sok_damage g Hok) as [? ? ?].
  destruct (Invalidate_damage (set_memory m g) l t w h) as (H1 & H2 & s & b & E); [by split|done|].
  rewrite E in *. split; try done.
  - intros x y Hin. rewrite H2. cbn [set_invalidated set_memory memory]. destruct (proj1 Ht x y Hin) as [HQ'|?]; [|by right].
    left. right. left. by apply HQ.
  - intros x y Hin. apply (touches_apart (back g) (device g) Q); [done|by destruct Hok|done].
  - intros x y Hin Hd. rewrite H2. by left.
Qed.
Lemma FillPixel_draws g l t r b c :
  screen_ok g -> color_ok c -> 0 <= l <= r -> r <= Width g -> 0 <= t <= b -> b <= Height g ->
  draws_damaged g (graphics_FillPixel l t r b c g).
Proof.
  intros Hok Hc ? ? ? ?. pose proof Hok as [? ? ? ? ? ? ?].
  destruct (FillPixel_paints g l t r b c) as (m & -> & Hp); try done; [lia..|].
  apply paints_touches in Hp. eapply Invalidate_draws; [done|unfold call_ok; lia|done|].
  intros x y _ Hb%in_box_spec. lia.
Qed.

(** ** Swapping *)

Lemma swap_rects_spec fuel : forall g,
  screen_ok g -> (length (rs_list (invalidated g)) < fuel)%nat ->
  let g' := swap_rects fuel g in
  geometry g' = geometry g /\ rs_ok (invalidated g') /\ rs_list (invalidated g') = [] /\
  (forall a, ~ (i_data (device g) <= a < image_end (device g)) -> memory g' a = memory g a) /\
  (forall x y, in_image (device g) x y ->
     ((exists r, r ∈ rs_list (invalidated g) /\ covers r x y) -> pixel (memory g') (device g) x y = pixel (memory g) (back g) x y) /\
     (~ (exists r, r ∈ rs_list (invalidated g) /\ covers r x y) -> pixel (memory g') (device g) x y = pixel (memory g) (device g) x y)).
Proof.
  induction fuel as [|fuel IH]; intros g Hok Hlen; [lia|]. cbn [swap_rects].
  pose proof Hok as [Hpk Hf HW HH Hsz Hap Hdam]. pose proof Hdam as [Hs Hr Hro].
  pose proof (rs_pop_law _ Hs) as Hpop. destruct (rs_pop (invalidated g)) as [[r s]|].
  2: { rewrite Hpop. cbn zeta. split_and!; try done. intros x y Hin. split; [|done].
       intros (r & Hr' & _). by apply not_elem_of_nil in Hr'. }
  destruct Hpop as (Hs' & El & Hroom). rewrite El in *. apply Forall_cons in Hr as [[[Hrx Hry] Hrm] Hr].
  set (m := __graphics_CopyBuffer32 _ _ _ _ _ _ _ _ _). set (g1 := set_memory m _).
  cbn [length] in Hlen. destruct (IH g1) as (E1 & E2 & E3 & Hfr & Hpx); [|change (length (rs_list s) < fuel)%nat; lia|].
  { apply (geometry_ok g); [done|done|by split]. }
  change (device g1) with (device g) in *. change (back g1) with (back g) in *.
  change (invalidated g1) with s in *. change (memory g1) with m in *.
  assert (image_ok (back g) /\ image_ok (device g)) as [Hib Hid] by (unfold image_ok, back, device; cbn; lia).
  destruct (CopyBuffer_spec (memory g) (back g) (i32 (left r)) (i32 (top r)) (device g) (i32 (left r)) (i32 (top r))
    (i32 (width r)) (i32 (height r)) Hib Hid Hap) as (C1 & C2 & C3).
  { pose proof (span_i32 _ _ Hrx). pose proof (span_i32 _ _ Hry). unfold span_ok in Hrx, Hry. unfold clips_ok, clip_ok. cbn. lia. }
  { left. rewrite (span_i32 _ _ Hrx). unfold span_ok in Hrx. apply clip_meets; unfold clip_ok; cbn; lia. }
  set (m1 := __graphics_CopyBuffer32 _ _ _ _ _ _ _ _ _) in C1, C2, C3. change m with m1 in *. clearbody m1. clear m.
  assert (forall x y, in_image (device g) x y -> covers r x y <->
    region (back g) (i32 (left r)) (i32 (top r)) (device g) (i32 (left r)) (i32 (top r)) (i32 (width r)) (i32 (height r)) x y) as Hreg.
  { intros x y Hin. unfold region, covers, in_image, back, device in *. cbn in *. lia. }
  assert (forall x y, in_image (back g) x y -> pixel m1 (back g) x y = pixel (memory g) (back g) x y) as Hback.
  { intros x y Hin. apply load_ext. intros a Ha. apply C3. pose proof (image_addr_range _ _ _ Hin). unfold images_apart in Hap. lia. }
  split_and!; [by rewrite E1|done|done|intros a Ha; by rewrite Hfr, C3|].
  intros x y Hin. destruct (Hpx x y Hin) as [P1 P2]. split.
  - intros (q & Hq & Hcov). destruct (decide (Exists (fun r => i32 (left r) <= x < i32 (left r) + i32 (width r) /\
      i32 (top r) <= y < i32 (top r) + i32 (height r)) (rs_list s))) as [Hex|Hne].
    + apply Exists_exists in Hex. rewrite P1 by done. by apply Hback.
    + rewrite Exists_exists in Hne. rewrite P2 by done. apply elem_of_cons in Hq as [->|Hq]; [|by destruct Hne; exists q].
      rewrite C1 by (by apply Hreg). f_equal; lia.
  - intros Hn. rewrite P2; [rewrite C2; [done|done|]|].
    + rewrite <- Hreg by done. intros Hcov. apply Hn. exists r. split; [by left|done].
    + intros (q & Hq & Hcov). apply Hn. exists q. split; [by right|done].
Qed.

(** ** The mouse cursor *)

Definition imgX g (c : cursor_image) : Z := i32 (u32 (fst (mousePos g) - xhot c + 1)).
Definition imgY g (c : cursor_image) : Z := i32 (u32 (snd (mousePos g) - yhot c + 1)).
Definition overlay g : image := mk_image (mouseOverlay g) MOUSE_OVERLAY_SIZE MOUSE_OVERLAY_SIZE.
(** The cursor fits the overlay, and its old and new places touch the screen. *)
Definition mouse_ok g : Prop :=
  match GCursor g with
  | None => True
  | Some c =>
      call_ok g (lastMouseX g) (lastMouseY g) (lastMouseSizeX g) (lastMouseSizeY g) /\
      lastMouseSizeX g <= MOUSE_OVERLAY_SIZE /\
      call_ok g (imgX g c) (imgY g c) (i32 (c_width c)) (i32 (c_height c)) /\ i32 (c_width c) <= MOUSE_OVERLAY_SIZE /\
      images_apart (overlay g) (back g) /\ images_apart (overlay g) (device g)
  end.

Lemma draws_damaged_refl g : damage_ok g -> draws_damaged g g.
Proof. intros. split; try done. by right. Qed.
Lemma images_apart_sym a b : images_apart a b -> images_apart b a.
Proof. unfold images_apart. tauto. Qed.

Lemma UpdateMouse_draws g : screen_ok g -> mouse_ok g -> draws_damaged g (__graphics__UpdateMouse g).
Proof.
  intros Hok Hm. pose proof Hok as [Hpk Hf HW HH Hsz Hap Hdam].
  unfold mouse_ok in Hm. unfold __graphics__UpdateMouse. destruct (GCursor g) as [c|]; [|by apply draws_damaged_refl].
  fold (imgX g c) (imgY g c) (overlay g). destruct Hm as (Hc1 & Hs1 & Hc2 & Hs2 & Hob & Hod).
  case_match; [|by apply draws_damaged_refl]. clear H0.
  set (m1 := __graphics_CopyBuffer32 (memory g) (overlay g) _ _ (back g) _ _ _ _).
  set (m2 := __graphics_CopyBuffer32 m1 _ _ _ _ _ _ _ _).
  set (m3 := __graphics_RenderBuffer32 m2 _ _ _ _ _ _ _ _).
  assert (image_ok (back g) /\ image_ok (overlay g)) as [Hib Hio].
  { unfold image_ok, back, overlay, MOUSE_OVERLAY_SIZE. cbn. lia. }
  unfold MOUSE_OVERLAY_SIZE in *. unfold call_ok in Hc1, Hc2.
  assert (touches (back g) (region (overlay g) 0 0 (back g) (lastMouseX g) (lastMouseY g) (lastMouseSizeX g) (lastMouseSizeY g))
    (memory g) m1) as T1.
  { apply CopyBuffer_touches; try done; [unfold clips_ok, clip_ok|apply clip_meets; unfold clip_ok]; cbn; unfold MOUSE_OVERLAY_SIZE; lia. }
  assert (exists Q, touches (overlay g) Q m1 m2) as [Q2 T2].
  { apply images_apart_sym in Hob as Hbo. eexists. apply CopyBuffer_touches; try done;
      [unfold clips_ok, clip_ok|apply clip_meets; unfold clip_ok]; cbn; unfold MOUSE_OVERLAY_SIZE; lia. }
  pose proof (RenderBuffer_touches m2 (mk_image (pixels c) (i32 (c_width c)) (i32 (c_height c))) 0 0 (back g) (imgX g c) (imgY g c)
    (i32 (c_width c)) (i32 (c_height c)) ltac:(unfold clips_ok, clip_ok; cbn; lia)) as T3. fold m3 in T3. clearbody m1 m2 m3.
  destruct (Invalidate_damage (set_memory m3 g) (lastMouseX g) (lastMouseY g) (lastMouseSizeX g) (lastMouseSizeY g))
    as (D1 & D2 & s1 & b1 & E1); [by destruct Hdam; split|done|].
  set (g1 := graphics_Invalidate _ _ _ _ _) in *.
  assert (memory g1 = m3 /\ geometry g1 = geometry g) as [M1 G1] by (by rewrite E1).
  destruct (Invalidate_damage g1 (imgX g c) (imgY g c) (i32 (c_width c)) (i32 (c_height c)))
    as (D3 & D4 & s2 & b2 & E2); [done|rewrite E1; done|].
  clearbody g1. set (g2 := graphics_Invalidate (imgX g c) (imgY g c) _ _ g1) in *.
  assert (memory g2 = m3 /\ geometry g2 = geometry g) as [M2 G2] by (by rewrite E2, <- M1, <- G1).
  assert (forall x y, damaged (set_last_mouse (imgX g c) (imgY g c) (i32 (c_width c)) (i32 (c_height c)) g2) x y <-> damaged g2 x y) as Hdm by done.
  split; [done|by destruct D3; split|..].
  - intros x y Hin. rewrite Hdm. change (memory (set_last_mouse _ _ _ _ g2)) with (memory g2). rewrite M2, D4, D2.
    destruct (proj1 T3 x y Hin) as [(? & ? & _)| ->]; [left; lia|].
    rewrite (touches_apart _ _ _ _ _ x y T2 Hob Hin).
    destruct (proj1 T1 x y Hin) as [(? & ? & _)| ->]; [left; lia|by right].
  - intros x y Hin. change (memory (set_last_mouse _ _ _ _ g2)) with (memory g2). rewrite M2.
    rewrite (touches_apart _ _ _ _ _ x y T3 Hap Hin), (touches_apart _ _ _ _ _ x y T2 Hod Hin).
    apply (touches_apart _ _ _ _ _ x y T1 Hap Hin).
  - intros x y Hin Hd. rewrite Hdm, D4, D2. by left; left.
Qed.

(** After a swap the device shows the back buffer and nothing is damaged. *)
Lemma SwapBuffer_synced g :
  synced g -> mouse_ok g ->
  let g' := graphics_SwapBuffer g in
  synced g' /\ shown g' /\ rs_list (invalidated g') = [] /\ invalidated_screen g' = false /\
  forall x y, in_image (back g) x y ->
    pixel (memory g') (back g) x y = pixel (memory (__graphics__UpdateMouse g)) (back g) x y.
Proof.
  intros Hs Hm. pose proof (UpdateMouse_draws g (proj1 Hs) Hm) as Hd.
  pose proof (geometry_images _ _ (dd_geometry _ _ Hd)) as [Eb Ed]. rewrite <- Eb. clear Eb Ed.
  pose proof (draws_synced _ _ Hs Hd) as [Hok Hsy]. unfold graphics_SwapBuffer.
  set (g1 := __graphics__UpdateMouse g) in *. clearbody g1. clear g Hs Hm Hd.
  pose proof Hok as [Hpk Hf HW HH Hsz Hap Hdam]. pose proof Hdam as [Hso Hr Hro].
  set (g2 := if invalidated_screen g1 then _ else _).
  assert (geometry g2 = geometry g1 /\ rs_ok (invalidated g2) /\
    (forall x y, in_image (back g1) x y -> pixel (memory g2) (back g1) x y = pixel (memory g1) (back g1) x y) /\
    (forall x y, in_image (back g1) x y -> pixel (memory g2) (device g1) x y = pixel (memory g1) (back g1) x y))
    as (G & Hs2 & Hb & Hd2).
  { unfold g2. unfold in_sync, damaged in Hsy. destruct (invalidated_screen g1).
    - split_and!; try done; intros x y Hin; pose proof (image_addr_range _ _ _ Hin) as Hr1.
      + apply load_ext. intros a Ha. apply memcpy_out. unfold images_apart, image_end, back, device in *. cbn in *. lia.
      + apply load_shift. intros k Hk. cbn [set_memory memory]. rewrite Hsz.
        unfold image_addr, image_end, back, device in *. cbn in *. rewrite memcpy_in by lia. f_equal. lia.
    - destruct (swap_rects_spec (Datatypes.S (length (rs_list (invalidated g1)))) g1 Hok) as (G & Hs2 & _ & Hfr & Hpx); [lia|].
      split_and!; [done|done|..]; intros x y Hin.
      + apply load_ext. intros a Ha. apply Hfr. pose proof (image_addr_range _ _ _ Hin).
        unfold images_apart, image_end, back, device in *. cbn in *. lia.
      + destruct (Hpx x y Hin) as [P1 P2].
        destruct (decide (Exists (fun r => i32 (left r) <= x < i32 (left r) + i32 (width r) /\
          i32 (top r) <= y < i32 (top r) + i32 (height r)) (rs_list (invalidated g1)))) as [Hex|Hne];
          rewrite Exists_exists in *; [by apply P1|].
        rewrite P2 by done. destruct (Hsy x y Hin) as [[[=]|?]|?]; [by destruct Hne|done]. }
  clearbody g2. destruct (rs_clear_law _ Hs2) as [Hc1 Hc2].
  destruct (geometry_images _ _ G) as [Eb Ed].
  assert (shown (set_invalidated (rs_clear (invalidated g2)) false g2)) as Hsh.
  { intros x y. change (back (set_invalidated _ _ _)) with (back g2). change (device (set_invalidated _ _ _)) with (device g2).
    change (memory (set_invalidated _ _ _)) with (memory g2). rewrite Eb, Ed. intros Hin. by rewrite Hb, Hd2. }
  split_and!; try done. split; [|intros x y Hin; by right; apply Hsh].
  apply (geometry_ok g1); [done|done|]. split; cbn; [done|rewrite Hc2; by constructor|].
  injection G as E1 E2 E3 E4 E5 E6 E7. by rewrite E4.
Qed.
(** ** The geometry is constant *)

Lemma Invalidate_geometry l t w h g : geometry (graphics_Invalidate l t w h g) = geometry g.
Proof. unfold graphics_Invalidate. by repeat case_match. Qed.
Lemma swap_rects_geometry fuel : forall g, geometry (swap_rects fuel g) = geometry g.
Proof. induction fuel as [|fuel IH]; intros g; cbn [swap_rects]; [done|]. destruct (rs_pop _) as [[r s]|]; [|done]. by rewrite IH. Qed.
Lemma UpdateMouse_geometry g : geometry (__graphics__UpdateMouse g) = geometry g.
Proof.
  unfold __graphics__UpdateMouse. destruct (GCursor g) as [c|]; [|done]. case_match; [|done].
  change (geometry (set_last_mouse ?a ?b ?c ?d ?e)) with (geometry e). by rewrite !Invalidate_geometry.
Qed.
Lemma SwapBuffer_geometry g : geometry (graphics_SwapBuffer g) = geometry g.
Proof.
  unfold graphics_SwapBuffer. set (g2 := if invalidated_screen _ then _ else _). change (geometry g2 = geometry g).
  unfold g2. case_match; [by apply UpdateMouse_geometry|]. by rewrite swap_rects_geometry, UpdateMouse_geometry.
Qed.
End Screen.
