(* ===== verification/Console.v ===== *)
(** * The text console (src/graphics/graphics.c, console_Write)

    Scrolling, line breaking and character cells: what a written character
    does to the pixels and the cursor, and that writing keeps the device in
    sync with the back buffer. *)

From S2P Require Import Prelude Mem CString MinMax Graphics GraphicsProps Drawing Screen.

Section Console.
Context {S : Type} `{RectStack S}.
Implicit Types g : graphics S.

Lemma draws_damaged_trans g g1 g2 : draws_damaged g g1 -> draws_damaged g1 g2 -> draws_damaged g g2.
Proof.
  intros [G1 D1 B1 V1 K1] [G2 D2 B2 V2 K2]. destruct (geometry_images _ _ G1) as [Eb Ed].
  rewrite Eb in *. rewrite Ed in *. split; [congruence|done|..].
  - intros x y Hin. destruct (B1 x y Hin) as [?|<-]; [left; by apply K2|by apply B2].
  - intros x y Hin. by rewrite V2, V1.
  - intros x y Hin Hd. by apply K2, K1.
Qed.
Lemma draws_damaged_ok g g' : screen_ok g -> draws_damaged g g' -> screen_ok g'.
Proof. intros Hok [? ? ? ? ?]. by eapply geometry_ok. Qed.

(** Moving only the cursor. *)
Lemma set_cursor_draws x y g : damage_ok g -> draws_damaged g (set_cursor x y g).
Proof. intros []. split; try done; by right. Qed.

(** The state of the mouse cursor, but for its last line. *)
Definition mouse_state g : option cursor_image * (Z * Z) * Z * (Z * Z * Z) :=
  (GCursor g, mousePos g, mouseOverlay g, (lastMouseX g, lastMouseSizeX g, lastMouseSizeY g)).

(** ** Scrolling *)

(** The pixel of the back buffer after scrolling up by [s] lines. *)
Definition scrolled g (s x y : Z) : Z :=
  if y + s <? Height g then pixel (memory g) (back g) x (y + s) else 0.

(** Only the back buffer is written. *)
Definition only_back g g' : Prop := forall a, ~ (i_data (back g) <= a < image_end (back g)) -> memory g' a = memory g a.
Lemma only_back_trans g g1 g2 : geometry g1 = geometry g -> only_back g g1 -> only_back g1 g2 -> only_back g g2.
Proof. intros G H1 H2 a Ha. destruct (geometry_images _ _ G) as [Eb _]. unfold only_back in H2. rewrite Eb in H2. by rewrite H2, H1. Qed.

(** The back buffer ends below the top of the address space. *)
Definition in_space g : Prop := image_end (back g) < 2 ^ 64.
Lemma Scroll_moves g s : screen_ok g -> in_space g -> 0 <= s < Height g ->
  exists m, memmove (memory g) (Framebuffer g) (Framebuffer g + 4 * (Width g * s)) (u64 (4 * (Width g * (Height g - s)))) = Some m /\
  forall a, m a = memcpy (memory g) (Framebuffer g) (Framebuffer g + 4 * (Width g * s)) (4 * (Width g * Height g) - 4 * (Width g * s)) a.
Proof.
  unfold in_space, image_end, back. cbn. change (2 ^ 64) with 18446744073709551616.
  intros [_ _ HW HH _ _ _] Hsp Hs. assert (0 <= Width g * s < Width g * Height g) by nia.
  assert (Width g * Height g < 268435456 * 268435456) by nia. rewrite u64_small by nia.
  replace (4 * (Width g * (Height g - s))) with (4 * (Width g * Height g) - 4 * (Width g * s)) by lia.
  destruct (decide (s = 0)) as [->|Hne].
  - unfold memmove. rewrite (proj2 (Z.eqb_eq _ _)) by lia. eexists. split; [done|]. intros a. unfold memcpy.
    destruct ((_ <=? a) && _); [f_equal; lia|done].
  - rewrite memmove_some; [by eexists|nia|lia|change (2 ^ 64) with 18446744073709551616; lia..].
Qed.
Lemma Scroll_spec g s :
  screen_ok g -> in_space g -> 0 <= s < Height g ->
  exists g', graphics_Scroll (Framebuffer g) s g = Some g' /\
  draws_damaged g g' /\ (exists m st b, g' =
    set_last_mouse (lastMouseX g) (lastMouseY g - s) (lastMouseSizeX g) (lastMouseSizeY g) (set_invalidated st b (set_memory m g))) /\
  (forall x y, in_image (back g) x y -> pixel (memory g') (back g) x y = scrolled g s x y) /\ only_back g g'.
Proof.
  intros Hok Hsp Hs. pose proof Hok as [Hpk Hf HW HH Hsz Hap Hdam]. unfold graphics_Scroll. unfold packed in Hpk.
  rewrite Hpk. destruct (Scroll_moves g s Hok Hsp Hs) as (m & -> & Hm). cbn [mbind option_bind]. set (g1 := set_memory m g).
  assert (screen_ok g1) as Hok1 by (apply (geometry_ok g); [done|done|by destruct Hdam; split]).
  assert (0 <= Width g * s <= Width g * Height g) as Hws by nia.
  assert (color_ok HelosGraphics_Color_Black) as Hcol by (unfold color_ok; cbn; lia).
  destruct (FillPixel_paints g1 0 (Height g - s) (Width g) (Height g) HelosGraphics_Color_Black) as (m2 & E2 & P2);
    try done; [lia|].
  change (Width g1) with (Width g) in *. change (Height g1) with (Height g) in *. rewrite E2.
  destruct (Invalidate_damage (set_memory m2 g1) 0 (Height g - s) (Width g - 0) (Height g - (Height g - s)))
    as (D1 & D2 & st & b & E3); [by destruct Hdam; split|unfold call_ok; cbn; lia|].
  rewrite E3 in *. change (back g1) with (back g) in *. change (memory g1) with m in *.
  assert (forall a, ~ (i_data (back g) <= a < image_end (back g)) -> m2 a = memory g a) as Hfr.
  { intros a Ha. rewrite (proj2 P2) by done. rewrite Hm. apply memcpy_out. unfold image_end, back in Ha. cbn in Ha. lia. }
  eexists. split; [reflexivity|]. split_and!; [split| | |].
  - done.
  - destruct D1; split; done.
  - intros x y _. by left; left.
  - intros x y Hin. apply load_ext. intros a Ha. apply Hfr. pose proof (image_addr_range _ _ _ Hin). unfold images_apart in Hap. lia.
  - intros x y _ _. by left.
  - exists m2, st, true. done.
  - intros x y Hin. change (pixel m2 (back g) x y = scrolled g s x y). rewrite (proj1 P2) by done. unfold scrolled.
    pose proof Hin as [Hx Hy]. cbn in Hx, Hy.
    destruct (in_box 0 (Height g - s) (Width g) (Height g) x y) eqn:Eb.
    + apply in_box_spec in Eb. by destruct (Z.ltb_spec (y + s) (Height g)); [lia|].
    + destruct (Z.ltb_spec (y + s) (Height g)) as [Hlt|Hge].
      * apply load_shift. intros k Hk. rewrite Hm. unfold image_addr, back. cbn. rewrite memcpy_in by nia. f_equal. lia.
      * exfalso. assert (in_box 0 (Height g - s) (Width g) (Height g) x y = true) by (apply in_box_spec; lia). congruence.
  - exact Hfr.
Qed.

(** ** Line breaking *)

(** Where an element of [w] by [h] goes: the column, the line before scrolling,
    and how far the screen scrolls. *)
Definition element_x g (w : Z) : Z := if Width g <=? GCursorX g + w then 0 else GCursorX g.
Definition element_y g (w h : Z) : Z := if Width g <=? GCursorX g + w then GCursorY g + h else GCursorY g.
Definition element_scroll g (w h : Z) : Z := Z.max 0 (h + element_y g w h - Height g).

Lemma scrolled_0 g x y : in_image (back g) x y -> scrolled g 0 x y = pixel (memory g) (back g) x y.
Proof. intros [_ Hy]. unfold scrolled. rewrite Z.add_0_r. cbn in Hy. by destruct (Z.ltb_spec y (Height g)); [|lia]. Qed.

Lemma ElementSize_spec g w h :
  screen_ok g -> in_space g -> 0 <= element_y g w h -> h + element_y g w h < 2 * Height g ->
  exists g', graphics_ElementSize (Framebuffer g) w h g = Some g' /\
  draws_damaged g g' /\ GCursorX g' = element_x g w /\ GCursorY g' = element_y g w h - element_scroll g w h /\
  lastMouseY g' = lastMouseY g - element_scroll g w h /\ mouse_state g' = mouse_state g /\
  (forall x y, in_image (back g) x y -> pixel (memory g') (back g) x y = scrolled g (element_scroll g w h) x y) /\ only_back g g'.
Proof.
  intros Hok Hsp Hy Hlim. unfold graphics_ElementSize, element_scroll.
  set (g1 := if Width g <=? GCursorX g + w then set_cursor 0 (GCursorY g + h) g else g).
  assert (g1 = set_cursor (element_x g w) (element_y g w h) g) as -> by
    (unfold g1, element_x, element_y; destruct (Width g <=? GCursorX g + w); by destruct g).
  set (ey := element_y g w h) in *. set (ex := element_x g w). cbn [set_cursor GCursorX GCursorY Width Height].
  pose proof (sok_damage g Hok) as Hdam.
  assert (screen_ok (set_cursor ex ey g)) as Hok1 by (eapply draws_damaged_ok; [done|by apply set_cursor_draws]).
  destruct (Z.leb_spec (Height g) (ey + h)) as [Hle|Hgt]; cbn zeta.
  - destruct (Scroll_spec (set_cursor ex ey g) (h + ey - Height g)) as (g2 & E2 & D & (m & st & b & E) & Hpx & Hfr); [done|done|cbn; lia|].
    cbn [set_cursor Framebuffer] in E2, D, E, Hpx, Hfr. rewrite E2. cbn [mbind option_bind]. eexists. split; [reflexivity|].
    replace (Z.max 0 (h + ey - Height g)) with (h + ey - Height g) by lia.
    split_and!; try (by rewrite E).
    + apply draws_damaged_trans with (set_cursor ex ey g); [by apply set_cursor_draws|].
      apply draws_damaged_trans with g2; [done|]. apply set_cursor_draws. apply D.
    + rewrite E. cbn. lia.
    + intros x y Hin. by apply Hpx.
    + exact Hfr.
  - replace (Z.max 0 (h + ey - Height g)) with 0 by lia. eexists. split; [reflexivity|]. split_and!; try done.
    + by apply set_cursor_draws.
    + cbn. lia.
    + cbn. lia.
    + intros x y Hin. by rewrite scrolled_0.
Qed.

(** ** Characters *)

Lemma char_width_cases c : char_width c = 8 \/ char_width c = 16.
Proof. unfold char_width, UNIFONT_CHAR_WIDTH. case_match; lia. Qed.

(** The pixels after writing [c]: its glyph in its cell, the scrolled screen
    elsewhere. *)
Definition written g (data : Z -> Z) (color : HelosGraphics_Color) (c x y : Z) : Z :=
  let w := char_width c in
  let s := element_scroll g w 16 in
  let x0 := element_x g w in
  let y0 := element_y g w 16 - s in
  if in_box x0 y0 (x0 + w) (y0 + 16) x y
  then if glyph data c (x - x0) (y - y0) then pixel_word g color else 0
  else scrolled g s x y.

Lemma WriteChar_spec g data color c :
  screen_ok g -> in_space g -> color_ok color -> 0 <= GCursorX g -> 0 <= GCursorY g < 2 * Height g - 32 -> c <> 10 -> c <> 13 ->
  exists g', console_WriteChar (Framebuffer g) data color c g = Some g' /\
  let s := element_scroll g (char_width c) 16 in
  draws_damaged g g' /\
  GCursorX g' = element_x g (char_width c) + char_width c /\ GCursorY g' = element_y g (char_width c) 16 - s /\
  lastMouseY g' = lastMouseY g - s /\ mouse_state g' = mouse_state g /\
  (forall x y, in_image (back g) x y -> pixel (memory g') (back g) x y = written g data color c x y) /\ only_back g g'.
Proof.
  intros Hok Hsp Hcol HX HY Hn Hr. unfold console_WriteChar, UNIFONT_CHAR_HEIGHT. rewrite (proj2 (Z.eqb_neq _ _) Hn), (proj2 (Z.eqb_neq _ _) Hr).
  unfold written. pose proof (char_width_cases c) as Hw. set (w := char_width c) in *.
  pose proof (sok_width g Hok). pose proof (sok_height g Hok).
  assert (0 <= element_x g w /\ element_x g w + w <= Width g) as Hex.
  { unfold element_x. destruct (Z.leb_spec (Width g) (GCursorX g + w)); lia. }
  assert (0 <= element_y g w 16 <= GCursorY g + 16) as Hey by (unfold element_y; case_match; lia).
  destruct (ElementSize_spec g w 16) as (g1 & -> & D1 & X1 & Y1 & L1 & M1 & P1 & O1); [done|done|lia|lia|].
  cbn [mbind option_bind]. rewrite X1, Y1.
  set (s := element_scroll g w 16) in *. set (x0 := element_x g w) in *. set (y0 := element_y g w 16 - s) in *.
  assert (0 <= y0 /\ y0 + 16 <= Height g) as Hy0 by (unfold y0, s, element_scroll; lia).
  clearbody x0 y0 s. pose proof (dd_geometry _ _ D1) as G1. destruct (geometry_images _ _ G1) as [Eb Ed].
  pose proof (draws_damaged_ok _ _ Hok D1) as Hok1.
  assert (Width g1 = Width g /\ Height g1 = Height g /\ PixelFormat g1 = PixelFormat g) as (EW & EH & EF) by (by injection G1).
  assert (color_ok HelosGraphics_Color_Black) as Hblack by (unfold color_ok; cbn; lia).
  pose proof (FillPixel_draws g1 x0 y0 (x0 + w) (y0 + 16) HelosGraphics_Color_Black Hok1 Hblack) as D2.
  destruct (FillPixel_paints g1 x0 y0 (x0 + w) (y0 + 16) HelosGraphics_Color_Black) as (m2 & E2 & P2);
    [by destruct Hok1..|lia|lia|lia|lia|].
  destruct (Invalidate_damage (set_memory m2 g1) x0 y0 (x0 + w - x0) (y0 + 16 - y0)) as (_ & _ & st & b & E3);
    [destruct (sok_damage _ Hok1); by split|unfold call_ok; cbn; lia|].
  rewrite E3 in E2. rewrite E2 in *. clear E3.
  set (g2 := set_invalidated st b (set_memory m2 g1)) in *. specialize (D2 ltac:(lia) ltac:(lia) ltac:(lia) ltac:(lia)).
  pose proof (draws_damaged_ok _ _ Hok1 D2) as Hok2. change (GCursorX g2) with (GCursorX g1). change (GCursorY g2) with (GCursorY g1).
  rewrite X1, Y1. change (Height g1) with (Height g2) in *. change (Width g1) with (Width g2) in *.
  destruct (DrawChar_paints data color Hcol g2 x0 y0 c) as (m3 & E4 & P3);
    [by destruct Hok2|by destruct Hok2|lia|fold w; lia|lia|lia|]. fold w in P3.
  rewrite E4. change (GCursorX (set_memory m3 g2)) with (GCursorX g1). change (GCursorY (set_memory m3 g2)) with (GCursorY g1).
  rewrite X1, Y1. eexists. split; [reflexivity|]. cbn zeta.
  assert (call_ok g2 x0 y0 w 16) as Hcall by (unfold call_ok; lia).
  pose proof (Invalidate_draws g2 m3 _ x0 y0 w 16 Hok2 Hcall (paints_touches _ _ _ _ _ P3)) as D3.
  destruct (Invalidate_damage (set_memory m3 g2) x0 y0 w 16) as (_ & _ & st3 & b3 & E5); [destruct (sok_damage _ Hok2); by split|done|].
  rewrite E5 in *. set (g3 := set_invalidated st3 b3 (set_memory m3 g2)) in *.
  split_and!; try done.
  - eapply draws_damaged_trans; [done|]. eapply draws_damaged_trans; [done|].
    eapply draws_damaged_trans; [apply D3|apply set_cursor_draws, D3].
    + intros x y _ [Hb _]%andb_true_iff. by apply in_box_spec in Hb.
    + intros x y _ [Hb _]%andb_true_iff. by apply in_box_spec in Hb.
  - change (GCursorX g1 + w = x0 + w). lia.
  - intros x y Hin. change (pixel m3 (back g) x y = if in_box x0 y0 (x0 + w) (y0 + 16) x y
      then if glyph data c (x - x0) (y - y0) then pixel_word g color else 0 else scrolled g s x y).
    change (back g2) with (back g1) in P3. rewrite Eb in P2, P3.
    rewrite (proj1 P3) by done. change (memory g2) with m2. rewrite (proj1 P2), P1 by done.
    assert (pixel_word g2 color = pixel_word g color) as -> by (unfold pixel_word; change (PixelFormat g2) with (PixelFormat g1); by rewrite EF).
    destruct (in_box x0 y0 (x0 + w) (y0 + 16) x y); cbn [andb]; [|done]. by destruct (glyph data c (x - x0) (y - y0)).
  - intros a Ha. change (back g2) with (back g1) in P3. rewrite Eb in P2, P3. change (m3 a = memory g a).
    rewrite (proj2 P3) by done. change (memory g2) with m2. rewrite (proj2 P2) by done. by apply O1.
Qed.

(** ** Strings *)

Definition newlines (str : list Z) : Z := Z.of_nat (length (filter (fun c => c = 10) str)).
(** The cursor stays where scrolling works: a line break moves it down without
    scrolling, and the next character scrolls by less than the screen. *)
Definition fits g (str : list Z) : Prop :=
  0 <= GCursorX g /\ 0 <= GCursorY g /\
  Z.max (GCursorY g) (Height g - 16) + 16 * newlines str < 2 * Height g - 32 /\ in_space g.
(** The cursor image's last place after scrolling [n] screens. *)
Definition mouse_room g (n : Z) : Prop := mouse_ok g /\ -536870912 <= lastMouseY g - n * Height g.

Lemma newlines_cons c str : newlines (c :: str) = (if decide (c = 10) then 1 else 0) + newlines str.
Proof. unfold newlines. rewrite filter_cons. destruct (decide (c = 10)); cbn [length]; lia. Qed.
Lemma newlines_nonneg str : 0 <= newlines str.
Proof. unfold newlines. lia. Qed.

Lemma WriteChar_fits g data color c str :
  screen_ok g -> color_ok color -> fits g (c :: str) ->
  exists g', console_WriteChar (Framebuffer g) data color c g = Some g' /\
  draws_damaged g g' /\ fits g' str /\ mouse_state g' = mouse_state g /\
  lastMouseY g - Height g <= lastMouseY g' <= lastMouseY g /\ only_back g g'.
Proof.
  intros Hok Hcol (HX & HY & Hlim & Hsp). rewrite newlines_cons in Hlim. pose proof (newlines_nonneg str).
  pose proof (sok_height g Hok) as HH. pose proof (sok_width g Hok). pose proof (sok_damage g Hok).
  destruct (decide (c = 10)) as [->|Hn].
  { unfold console_WriteChar, graphics_Newline, UNIFONT_CHAR_HEIGHT. cbn.
    eexists. split; [reflexivity|]. split; [by apply set_cursor_draws|]. unfold fits. cbn. split; [split_and!; [lia..|done]|split; [done|split; [lia|done]]]. }
  destruct (decide (c = 13)) as [->|Hr].
  { cbn. eexists. split; [reflexivity|]. split; [by apply set_cursor_draws|]. unfold fits. cbn. split; [split_and!; [lia..|done]|split; [done|split; [lia|done]]]. }
  destruct (WriteChar_spec g data color c Hok Hsp Hcol HX) as (g' & E & D & X & Y & L & M & _ & O); [lia|done|done|].
  exists g'. split; [done|].
  pose proof (dd_geometry _ _ D) as [= _ _ _ _ EH _ _]. pose proof (char_width_cases c).
  set (w := char_width c) in *. clearbody w. unfold element_x in X. unfold element_scroll, element_y in *.
  assert (in_space g') as Hsp' by (unfold in_space; by rewrite (proj1 (geometry_images _ _ (dd_geometry _ _ D)))).
  split; [done|]. split; [|split; [done|split; [|done]]];
    [unfold fits; split_and!; [| | |done]|]; rewrite ?EH, ?X, ?Y, ?L; destruct (Z.leb_spec (Width g) (GCursorX g + w)); lia.
Qed.

Lemma mouse_room_ok g g' n :
  screen_ok g -> draws_damaged g g' -> mouse_state g' = mouse_state g -> lastMouseY g - Height g <= lastMouseY g' <= lastMouseY g ->
  mouse_room g (n + 1) -> 0 <= n -> mouse_room g' n.
Proof.
  intros Hok D M L [Hm Hr] Hn. pose proof (sok_height g Hok).
  assert (0 <= n * Height g) by nia. unfold mouse_room, mouse_ok in *. destruct (geometry_images _ _ (dd_geometry _ _ D)) as [Eb Ed].
  pose proof (dd_geometry _ _ D) as [= _ _ _ EW EH _ _]. unfold imgX, imgY, overlay in *. rewrite Eb, Ed, EH in *.
  unfold mouse_state in M. injection M as E1 E2 E3 E4 E5 E6. rewrite E1, E2, E3, E4, E5, E6.
  destruct (GCursor g) as [c|]; [|split; [done|lia]].
  unfold call_ok in *. rewrite EW. split; [|lia]. split_and!; try tauto; lia.
Qed.
Lemma Write_chars data color str : forall g,
  screen_ok g -> color_ok color -> fits g str -> mouse_room g (Z.of_nat (length str)) ->
  exists g', write_chars (Framebuffer g) data color str g = Some g' /\ draws_damaged g g' /\ mouse_ok g' /\ only_back g g'.
Proof.
  induction str as [|c str IH]; intros g Hok Hcol Hf Hm; cbn [write_chars].
  { exists g. split; [done|]. split; [apply draws_damaged_refl, Hok|split; [apply Hm|done]]. }
  destruct (WriteChar_fits g data color c str Hok Hcol Hf) as (g1 & -> & D & Hf' & M & L & O).
  pose proof (dd_geometry _ _ D) as [= EF _ _ _ _ _ _]. cbn [mbind option_bind]. rewrite <- EF.
  destruct (IH g1) as (g' & E & D' & Hm' & O'); [|exact Hcol|exact Hf'|..].
  - by eapply draws_damaged_ok.
  - cbn [length] in Hm. rewrite Nat2Z.inj_succ in Hm. eapply mouse_room_ok; [exact Hok|done|done|done|exact Hm|lia].
  - exists g'. split; [done|]. split; [by eapply draws_damaged_trans|]. split; [done|]. eapply only_back_trans; [apply D|done|done].
Qed.
End Console.
