(* ===== verification/Blend.v ===== *)
(** * Blending (src/graphics/internal_helpers.h, __graphics_RenderBuffer32)

    Every pixel of the clipped region becomes the premultiplied source over the
    old target pixel, without overflow of a channel; nothing else changes. *)

From S2P Require Import Prelude Mem MinMax Graphics GraphicsProps Drawing Screen.

(** Source over target, without the alpha of the result. *)
Definition over (s d : HelosGraphics_Color) : HelosGraphics_Color :=
  let ch s d a := s + d * (255 - a) / 255 in
  if A s =? 0 then d else mk_color (ch (B s) (B d) (A s)) (ch (G s) (G d) (A s)) (ch (R s) (R d) (A s)) 0.
Definition premultiplied (c : HelosGraphics_Color) : Prop := B c <= A c /\ G c <= A c /\ R c <= A c.

Lemma load_color_ok m a : color_ok (load_color m a).
Proof. unfold color_ok, load_color. cbn. pose proof (load8_range m). naive_solver. Qed.
Lemma load32_word m a : load32 m a = word (load_color m a).
Proof.
  unfold load32, word, load_color. cbn [load B G R A].
  replace (a + 1 + 1) with (a + 2) by lia. replace (a + 2 + 1) with (a + 3) by lia. lia.
Qed.
Lemma blend_exact s d a : 0 <= s <= a -> 0 <= d < 256 -> a < 256 -> blend s d a = s + d * (255 - a) / 255.
Proof.
  intros. unfold blend. apply u8_small.
  assert (d * (255 - a) / 255 <= 255 - a) by (apply Z.div_le_upper_bound; nia).
  assert (0 <= d * (255 - a) / 255) by (apply Z.div_pos; nia). lia.
Qed.
(** One pixel: the word of [over], in every case of the alpha. *)
Lemma render_pixel_over m src dest :
  premultiplied (load_color m src) -> load32 (render_pixel m src dest) dest = word (over (load_color m src) (load_color m dest)).
Proof.
  pose proof (load_color_ok m src) as Hs. pose proof (load_color_ok m dest) as Hd. unfold render_pixel, over.
  rewrite (load32_word m src). set (s := load_color m src) in *. set (d := load_color m dest) in *.
  destruct Hs as (? & ? & ? & ?), Hd as (? & ? & ? & ?). intros (? & ? & ?).
  destruct (Z.eqb_spec (A s) 0); [apply load32_word|].
  rewrite mask_word by (unfold color_ok; lia). rewrite !blend_exact by lia.
  assert (forall s0 d0, 0 <= s0 <= A s -> 0 <= d0 < 256 -> 0 <= s0 + d0 * (255 - A s) / 255 < 256) as Hch.
  { intros s0 d0 ? ?. rewrite <- blend_exact by lia. apply u8_range. }
  assert (0 <= 255 - A s) by lia.
  unfold load32, store32. destruct (Z.eqb_spec (A s) 255) as [Ea|Ea]; rewrite load_store_eq; change (256 ^ Z.of_nat 4) with 4294967296.
  - rewrite Ea. unfold word. cbn [B G R A]. rewrite Z.mod_small by lia. rewrite !Z.mul_0_r, !Z.div_0_l by lia. lia.
  - apply Z.mod_small. unfold word. cbn [B G R A].
    pose proof (Hch (B s) (B d)). pose proof (Hch (G s) (G d)). pose proof (Hch (R s) (R d)). lia.
Qed.
Lemma render_pixel_touches m im src x y :
  in_image im x y -> touches im (fun a b => a = x /\ b = y) m (render_pixel m src (image_addr im x y)).
Proof. intros Hin. unfold render_pixel. repeat case_match; try apply touches_refl; by apply touches_store. Qed.

(** [m'] is [m] with the pixels [P] of an image mapped by [h]. *)
Definition maps (im : image) (h : Z -> Z -> Z -> Z) (P : Z -> Z -> bool) (m m' : mem) : Prop :=
  (forall x y, in_image im x y -> pixel m' im x y = if P x y then h x y (pixel m im x y) else pixel m im x y) /\
  (forall a, ~ (i_data im <= a < image_end im) -> m' a = m a).
Lemma maps_ext im h P Q m m' :
  (forall x y, in_image im x y -> P x y = Q x y) -> maps im h P m m' -> maps im h Q m m'.
Proof. intros HPQ [H1 H2]. split; [|done]. intros x y Hin. rewrite <- HPQ by done. by apply H1. Qed.
(** Loops over steps that map different pixels; a step may read [m0] outside
    the image. *)
Lemma maps_foldl {X} im h m0 (f : mem -> X -> mem) (P : X -> Z -> Z -> bool) xs : forall m,
  NoDup xs -> (forall a, ~ (i_data im <= a < image_end im) -> m a = m0 a) ->
  (forall m x, x ∈ xs -> (forall a, ~ (i_data im <= a < image_end im) -> m a = m0 a) -> maps im h (P x) m (f m x)) ->
  (forall i j x y, P i x y = true -> P j x y = true -> i = j) ->
  maps im h (fun x y => existsb (fun i => P i x y) xs) m (foldl f m xs).
Proof.
  induction xs as [|i xs IH]; intros m Hnd Hm Hs Hdis; cbn [foldl existsb]; [done|].
  apply NoDup_cons in Hnd as [Hni Hnd]. destruct (Hs m i) as [H1 H2]; [by left|done|].
  destruct (IH (f m i) Hnd) as [H3 H4]; [intros a Ha; by rewrite H2, Hm|intros; apply Hs; [by right|done]|done|].
  split; [|intros a Ha; by rewrite H4, H2].
  intros x y Hin. rewrite H3, H1 by done. destruct (P i x y) eqn:Ei; cbn [orb]; [|done].
  destruct (existsb (fun i => P i x y) xs) eqn:Ex; [|done].
  apply existsb_exists in Ex as (j & Hj & Ej). apply list_elem_of_In in Hj. by rewrite (Hdis i j x y) in Hni.
Qed.

Section Render.
Variables (m : mem) (from : image) (fX fY : Z) (to : image) (tX tY cX cY : Z).
Hypothesis Hap : images_apart from to.
Hypothesis Hclip : clips_ok from fX fY to tX tY.
Hypothesis Hpre : forall x y, in_image from x y -> premultiplied (load_color m (image_addr from x y)).

(** The new pixel for an old one. *)
Definition rendered (x y old : Z) : Z :=
  word (over (load_color m (image_addr from (x - tX + fX) (y - tY + fY)))
             (mk_color (old mod 256) (old / 256 mod 256) (old / 65536 mod 256) (old / 16777216))).

Lemma unword c : color_ok c -> mk_color (word c mod 256) (word c / 256 mod 256) (word c / 65536 mod 256) (word c / 16777216) = c.
Proof. destruct c as [b g r a]. unfold color_ok, word. cbn [B G R A]. intros. f_equal; lia. Qed.
Lemma render_step m1 x y :
  (forall a, ~ (i_data to <= a < image_end to) -> m1 a = m a) -> in_image from (fX + x) (fY + y) -> in_image to (tX + x) (tY + y) ->
  maps to rendered (fun a b => (a =? tX + x) && (b =? tY + y)) m1
    (render_pixel m1 (image_addr from (fX + x) (fY + y)) (image_addr to (tX + x) (tY + y))).
Proof.
  intros Hm Hf Ht. destruct (render_pixel_touches m1 to (image_addr from (fX + x) (fY + y)) _ _ Ht) as [H1 H2].
  split; [|done]. intros a b Hab.
  assert (load_color m1 (image_addr from (fX + x) (fY + y)) = load_color m (image_addr from (fX + x) (fY + y))) as Ec.
  { pose proof (image_addr_range _ _ _ Hf). unfold load_color, load8, images_apart in *. f_equal; f_equal; apply Hm; lia. }
  destruct (Z.eqb_spec a (tX + x)) as [->|]; [destruct (Z.eqb_spec b (tY + y)) as [->|]|]; cbn [andb].
  - unfold rendered, pixel. rewrite (load32_word m1), unword by apply load_color_ok.
    rewrite render_pixel_over by (rewrite Ec; by apply Hpre). rewrite Ec.
    by replace (tX + x - tX + fX) with (fX + x) by lia; replace (tY + y - tY + fY) with (fY + y) by lia.
  - destruct (H1 _ _ Hab) as [[? ?]|]; [done|done].
  - destruct (H1 _ _ Hab) as [[? ?]|]; [done|done].
Qed.

Lemma RenderBuffer_maps :
  maps to rendered (fun x y => bool_decide (region from fX fY to tX tY cX cY x y)) m
    (__graphics_RenderBuffer32 m from fX fY to tX tY cX cY).
Proof.
  destruct Hclip as [Hcx Hcy]. unfold __graphics_RenderBuffer32.
  rewrite (clip_begin_max _ _ _ _ Hcx), (clip_end_min _ _ _ _ _ Hcx), (clip_begin_max _ _ _ _ Hcy), (clip_end_min _ _ _ _ _ Hcy).
  set (bX := Z.max 0 (Z.max (- fX) (- tX))). set (bY := Z.max 0 (Z.max (- fY) (- tY))).
  set (eX := Z.min cX _). set (eY := Z.min cY _).
  apply maps_ext with (fun a b => existsb (fun x => existsb (fun y => (a =? tX + x) && (b =? tY + y)) (seqZ bY (eY - bY))) (seqZ bX (eX - bX))).
  - intros a b Hab. apply bool_ext. rewrite existsb_seqZ, bool_decide_eq_true. setoid_rewrite existsb_seqZ.
    unfold region, in_image in *. unfold bX, bY, eX, eY. split.
    + intros (x & Hx & y & Hy & E). zbool. lia.
    + intros Hr. exists (a - tX). split; [lia|]. exists (b - tY). split; [lia|]. rewrite andb_true_iff, !Z.eqb_eq. lia.
  - apply maps_foldl with (m0 := m) (P := fun x a b => existsb (fun y => (a =? tX + x) && (b =? tY + y)) (seqZ bY (eY - bY))).
    + apply NoDup_seqZ.
    + done.
    + intros m1 x Hx%elem_of_seqZ Hm1. apply maps_foldl with (m0 := m) (P := fun y a b => (a =? tX + x) && (b =? tY + y)).
      * apply NoDup_seqZ.
      * done.
      * intros m2 y Hy%elem_of_seqZ Hm2. apply render_step; [done|..]; unfold in_image, bX, bY, eX, eY in *; lia.
      * intros i j a b H1 H2. zbool. lia.
    + intros i j a b (y & Hy & H1)%existsb_seqZ (y' & Hy' & H2)%existsb_seqZ. zbool. lia.
Qed.
End Render.
