(* ===== verification/Display.v ===== *)
(** * The display: its properties

    The theorems about src/graphics, over the byte stack of rectangles, and a
    small display on which they are witnessed. *)

From S2P Require Import Prelude Mem CString MinMax Stack Graphics RectStack GraphicsProps Drawing Screen Console Blend.

(** ** A small display: 16 by 32 pixels, B-G-R *)

Definition demo (fmt : Z) : graphics (stack * mem) :=
  mk_graphics (fun _ => 0) 4096 16384 2048 16 32 16 fmt (no_rects 65536, fun _ => 0) false 0 0 0 0 0 0 32768 None (0, 0).
#[export] Instance demo_stack : RectStack (stack * mem) := byte_rects 1024.

Lemma rect_small_word sW r : rect_small sW r -> word_rect r.
Proof. unfold rect_small, span_ok, word_rect. word_lia. Qed.
Lemma display_demo_ok fmt : 0 <= fmt <= 1 -> screen_ok (demo fmt).
Proof.
  intros Hf. split; cbn; [done|unfold known_format, graphics_PixelFormat_RGBA_8bit, graphics_PixelFormat_BGRA_8bit; cbn; lia|lia|lia|done|left; vm_compute; discriminate|].
  destruct (no_rects_ok 1024 65536 (fun _ => 0)) as [H1 H2]; [lia..|].
  split; cbn; [done|by rewrite H2|apply rect_small_word].
Qed.
Lemma demo_synced fmt : 0 <= fmt <= 1 -> synced (demo fmt).
Proof. intros Hf. split; [by apply display_demo_ok|]. intros x y _. by right. Qed.
Definition white : HelosGraphics_Color := mk_color 255 255 255 255.

Section Theorems.
Context {S : Type} `{RectStack S}.
Implicit Types g : graphics S.

(** C20. [graphics_Invalidate] adds exactly its rectangle to the damage, also
    when it merges it with the last one; when the list is full the whole
    screen becomes damaged.  It changes nothing but the damage. *)
Theorem graphics_Invalidate_correct g l t w h :
  damage_ok g -> call_ok g l t w h ->
  let g' := graphics_Invalidate l t w h g in
  damage_ok g' /\
  (forall x y, damaged g' x y <-> damaged g x y \/ (l <= x < l + w /\ t <= y < t + h) \/ rs_room (invalidated g) = false) /\
  exists s b, g' = set_invalidated s b g.
Proof. intros. by apply Invalidate_damage. Qed.

(** [__graphics_CopyBuffer32] copies exactly the part of the rectangle that
    lies in both images; when the clipped width is negative (and some row is
    left) the C code passes a negative size to memcpy, which the hypothesis
    excludes. *)
Theorem graphics_CopyBuffer32_correct m from fX fY to tX tY cX cY :
  image_ok from -> image_ok to -> images_apart from to -> clips_ok from fX fY to tX tY ->
  clip_begin fX tX <= clip_end cX (i_sizeX from) fX (i_sizeX to) tX \/
  clip_end cY (i_sizeY from) fY (i_sizeY to) tY <= clip_begin fY tY ->
  let m' := __graphics_CopyBuffer32 m from fX fY to tX tY cX cY in
  (forall x y, region from fX fY to tX tY cX cY x y -> pixel m' to x y = pixel m from (x - tX + fX) (y - tY + fY)) /\
  (forall x y, in_image to x y -> ~ region from fX fY to tX tY cX cY x y -> pixel m' to x y = pixel m to x y) /\
  (forall a, ~ (i_data to <= a < image_end to) -> m' a = m a).
Proof. intros. by apply CopyBuffer_spec. Qed.

(** C36. [__graphics_RenderBuffer32] draws the premultiplied source over the
    target in exactly the clipped region; no channel overflows.  The offsets are
    such that the [int] arithmetic of the clipping does not overflow. *)
Theorem graphics_RenderBuffer32_correct m from fX fY to tX tY cX cY :
  images_apart from to -> clips_ok from fX fY to tX tY ->
  (forall x y, in_image from x y -> premultiplied (load_color m (image_addr from x y))) ->
  let m' := __graphics_RenderBuffer32 m from fX fY to tX tY cX cY in
  (forall x y, in_image to x y ->
    pixel m' to x y =
      if bool_decide (region from fX fY to tX tY cX cY x y)
      then word (over (load_color m (image_addr from (x - tX + fX) (y - tY + fY))) (load_color m (image_addr to x y)))
      else pixel m to x y) /\
  (forall a, ~ (i_data to <= a < image_end to) -> m' a = m a).
Proof.
  intros Hap Hclip Hpre m'. destruct (RenderBuffer_maps m from fX fY to tX tY cX cY Hap Hclip Hpre) as [H1 H2].
  split; [|done]. intros x y Hin. unfold m'. rewrite H1 by done. case_bool_decide; [|done].
  unfold rendered, pixel. by rewrite (load32_word m (image_addr to x y)), unword by apply load_color_ok.
Qed.

(** C19. When every pixel of the device that differs from the back buffer is
    damaged, [graphics_SwapBuffer] ends with the device showing the whole back
    buffer and no damage left; what it draws itself is the mouse cursor. *)
Theorem graphics_SwapBuffer_correct g :
  synced g -> mouse_ok g ->
  let g' := graphics_SwapBuffer g in
  synced g' /\ shown g' /\ rs_list (invalidated g') = [] /\ invalidated_screen g' = false /\
  forall x y, in_image (back g) x y ->
    pixel (memory g') (back g) x y = pixel (memory (__graphics__UpdateMouse g)) (back g) x y.
Proof. apply SwapBuffer_synced. Qed.

(** [graphics_FillPixel] on screen fills exactly the box, in the byte order
    B, G, R whatever the format of the screen, and damages the box. *)
Theorem graphics_FillPixel_correct g l t r b c :
  screen_ok g -> color_ok c -> 0 <= l <= r -> r <= Width g -> 0 <= t <= b -> b <= Height g ->
  let g' := graphics_FillPixel l t r b c g in
  draws_damaged g g' /\
  forall x y, in_image (back g) x y ->
    pixel (memory g') (back g) x y = if in_box l t r b x y then B c + 256 * G c + 65536 * R c else pixel (memory g) (back g) x y.
Proof.
  intros Hok Hc ? ? ? ? g'. split; [by apply FillPixel_draws|].
  pose proof (sok_damage g Hok) as [? ? ?]. pose proof Hok as [Hpk Hf ? ? _ _ _].
  destruct (FillPixel_paints g l t r b c) as (m & E & Hp); try done; [lia..|]. unfold g'. rewrite E.
  destruct (Invalidate_damage (set_memory m g) l t (r - l) (b - t)) as (_ & _ & s & d & ->);
    [by split|unfold call_ok; cbn; lia|]. apply Hp.
Qed.

(** Writing a character puts its glyph in its cell, black around it, after
    breaking the line and scrolling as far as the cell needs; the cursor ends
    behind the cell, everything drawn is damaged. *)
Theorem console_WriteChar_correct g data color c :
  screen_ok g -> in_space g -> color_ok color -> 0 <= GCursorX g -> 0 <= GCursorY g < 2 * Height g - 32 -> c <> 10 -> c <> 13 ->
  exists g', console_WriteChar (Framebuffer g) data color c g = Some g' /\
  draws_damaged g g' /\
  GCursorX g' = element_x g (char_width c) + char_width c /\
  GCursorY g' = element_y g (char_width c) 16 - element_scroll g (char_width c) 16 /\
  GCursorX g' <= Width g /\ GCursorY g' + 16 <= Height g /\
  forall x y, in_image (back g) x y -> pixel (memory g') (back g) x y = written g data color c x y.
Proof.
  intros Hok Hsp Hcol HX HY Hn Hr. destruct (WriteChar_spec g data color c Hok Hsp Hcol HX HY Hn Hr) as (g' & E & D & X & Y & _ & _ & P & _).
  exists g'. split_and!; [done|done|done|done| | |done]; rewrite ?X, ?Y; pose proof (sok_width g Hok); pose proof (char_width_cases c).
  - unfold element_x. destruct (Z.leb_spec (Width g) (GCursorX g + char_width c)); lia.
  - unfold element_scroll. lia.
Qed.

(** C18. Writing a string ends and keeps the device in sync with the back buffer;
    a string with a newline is shown when the call returns.  The string has few
    enough line breaks that no character scrolls by the whole height or more. *)
Theorem console_Write_correct g data color str :
  synced g -> color_ok color -> fits g str -> mouse_room g (Z.of_nat (length str)) ->
  exists g', console_Write (Framebuffer g) data color str g = Some g' /\
    synced g' /\ (10 ∈ str -> shown g' /\ rs_list (invalidated g') = []).
Proof.
  intros Hs Hcol Hf Hm. unfold console_Write. destruct (Write_chars data color str g (proj1 Hs) Hcol Hf Hm) as (g1 & -> & D & Hm' & _).
  cbn [mbind option_bind]. eexists. split; [reflexivity|].
  pose proof (draws_synced _ _ Hs D) as Hs'. case_bool_decide as Hnl; [|done].
  destruct (SwapBuffer_synced _ Hs' Hm') as (H1 & H2 & H3 & _). done.
Qed.

(** A character whose cell lies a whole screen below the last line: the scroll
    moves no bytes, and does not return. *)
Theorem console_WriteChar_runs_on g data color c :
  screen_ok g -> GCursorY g = 2 * Height g - 32 -> Width g <= GCursorX g + char_width c -> c <> 10 -> c <> 13 ->
  console_WriteChar (Framebuffer g) data color c g = None.
Proof.
  intros Hok HY HX Hn Hr. pose proof (sok_height g Hok). pose proof (sok_width g Hok). unfold console_WriteChar, UNIFONT_CHAR_HEIGHT.
  rewrite (proj2 (Z.eqb_neq _ _) Hn), (proj2 (Z.eqb_neq _ _) Hr). unfold graphics_ElementSize.
  rewrite (proj2 (Z.leb_le _ _) HX). cbn [set_cursor GCursorY Height]. rewrite (proj2 (Z.leb_le _ _)) by lia.
  unfold graphics_Scroll. cbn [set_cursor memory PixelsPerLine Height]. replace (16 + (GCursorY g + 16) - Height g) with (Height g) by lia.
  rewrite Z.sub_diag, Z.mul_0_r, (sok_packed g Hok). unfold memmove. rewrite (proj2 (Z.eqb_neq _ _)) by nia. done.
Qed.

(** [graphics_ClearBuffer] with another color than black writes only the
    first quarter of the frame buffer. *)
Theorem graphics_ClearBuffer_quarter g c garbage :
  word c <> word HelosGraphics_Color_Black -> FramebufferSize g mod 16 = 0 ->
  exists g', graphics_ClearBuffer garbage c g = Some g' /\
  forall a, ~ (Framebuffer g <= a < Framebuffer g + FramebufferSize g / 4) -> memory g' a = memory g a.
Proof.
  intros Hc Hsz. unfold graphics_ClearBuffer. destruct (Z.eqb_spec (word c) (word HelosGraphics_Color_Black)); [done|].
  destruct (Z.eqb_spec (FramebufferSize g / 4 mod 4) 0) as [_|Hn]; [|lia].
  eexists. split; [reflexivity|]. intros a Ha. cbn [set_memory memory]. unfold fill_words.
  set (w := if _ =? _ then _ else _). clearbody w.
  assert (forall l m, (forall i, i ∈ l -> 0 <= i < FramebufferSize g / 4 / 4) ->
    foldl (fun m i => store32 m (Framebuffer g + 4 * i) w) m l a = m a) as Hl.
  { induction l as [|i l IH]; intros m Hi; [done|]. cbn [foldl]. rewrite IH by (intros; apply Hi; by right).
    apply store_outside. pose proof (Hi i ltac:(by left)). lia. }
  apply Hl. intros i Hi%elem_of_seqZ. lia.
Qed.
End Theorems.

(** ** Witnesses *)

Lemma graphics_Invalidate_correct_witness :
  damage_ok (demo 1) /\ damaged (graphics_Invalidate 2 3 4 5 (demo 1)) 5 7 /\
  ~ damaged (graphics_Invalidate 2 3 4 5 (demo 1)) 6 7.
Proof.
  assert (damage_ok (demo 1)) as Hd by apply (sok_damage _ (display_demo_ok 1 ltac:(lia))).
  destruct (graphics_Invalidate_correct (demo 1) 2 3 4 5 Hd) as (_ & Hdm & _); [unfold call_ok; cbn; lia|].
  split; [exact Hd|]. split; [apply Hdm; right; left; lia|].
  intros [[Hf|(r & Hr & _)]|[Hf|Hf]]%Hdm; [discriminate Hf| |lia|discriminate Hf].
  change (r ∈ rects (no_rects 65536) (fun _ => 0)) in Hr.
  rewrite (proj2 (no_rects_ok 1024 65536 _ ltac:(lia) ltac:(lia) ltac:(lia))) in Hr. by apply not_elem_of_nil in Hr.
Defined.

Lemma graphics_CopyBuffer32_correct_witness :
  let from := mk_image 0 4 4 in let to := mk_image 100 4 4 in
  let m := fun a => a in
  pixel (__graphics_CopyBuffer32 m from 1 (-1) to (-1) 2 3 3) to 1 3 = pixel m from 3 0 /\
  pixel (__graphics_CopyBuffer32 m from 1 (-1) to (-1) 2 3 3) to 3 3 = pixel m to 3 3.
Proof.
  destruct (graphics_CopyBuffer32_correct (fun a => a) (mk_image 0 4 4) 1 (-1) (mk_image 100 4 4) (-1) 2 3 3) as (H1 & H2 & _).
  - split; cbn; lia.
  - split; cbn; lia.
  - left. vm_compute. discriminate.
  - unfold clips_ok, clip_ok. cbn. lia.
  - left. vm_compute. discriminate.
  - split; [apply (H1 1 3); unfold region, in_image; cbn; lia|apply (H2 3 3); unfold region, in_image; cbn; lia].
Defined.

Lemma graphics_RenderBuffer32_correct_witness :
  let from := mk_image 0 1 1 in let to := mk_image 100 2 1 in
  let m := store32 (store32 (fun _ => 0) 0 0x80102040) 104 0xff in
  pixel (__graphics_RenderBuffer32 m from 0 0 to 1 0 1 1) to 1 0 = 0x001020bf.
Proof.
  cbn zeta. set (m := store32 _ _ _).
  destruct (graphics_RenderBuffer32_correct m (mk_image 0 1 1) 0 0 (mk_image 100 2 1) 1 0 1 1) as [H1 _].
  - left. vm_compute. discriminate.
  - unfold clips_ok, clip_ok. cbn. lia.
  - intros x y [? ?]. cbn in *. assert (x = 0) as -> by lia. assert (y = 0) as -> by lia. vm_compute. repeat split; discriminate.
  - rewrite H1 by (unfold in_image; cbn; lia). vm_compute. reflexivity.
Defined.

Lemma demo_mouse_ok fmt : mouse_ok (demo fmt).
Proof. exact I. Qed.
(** A pixel drawn, damaged and swapped. *)
Lemma graphics_SwapBuffer_correct_witness :
  let g := graphics_FillPixel 2 3 4 5 white (demo 1) in
  synced g /\ shown (graphics_SwapBuffer g) /\ pixel (memory (graphics_SwapBuffer g)) (device g) 3 4 = 0xffffff.
Proof.
  cbn zeta. set (g := graphics_FillPixel 2 3 4 5 white (demo 1)).
  assert (synced g) as Hs.
  { apply (draws_synced (demo 1)); [apply demo_synced; lia|].
    apply FillPixel_draws; [apply display_demo_ok; lia|unfold color_ok; cbn; lia|cbn; lia..]. }
  split; [exact Hs|]. destruct (graphics_SwapBuffer_correct g Hs) as (_ & Hsh & _ & _ & _); [exact I|].
  split; [exact Hsh|vm_compute; reflexivity].
Defined.

(** On an R-G-B screen a red box comes out blue: its word has the red in the
    third byte, where [graphics_SetPixel] puts the blue. *)
Lemma graphics_FillPixel_correct_witness :
  let red := mk_color 0 0 255 255 in
  let g' := graphics_FillPixel 2 3 4 5 red (demo 0) in
  pixel (memory g') (back (demo 0)) 2 3 = 0xff0000 /\ pixel_word (demo 0) red = 0x0000ff /\
  pixel (memory g') (back (demo 0)) 4 3 = 0.
Proof.
  cbn zeta. destruct (graphics_FillPixel_correct (demo 0) 2 3 4 5 (mk_color 0 0 255 255)) as [_ Hpx].
  - apply display_demo_ok. lia.
  - unfold color_ok. cbn. lia.
  - lia.
  - cbn. lia.
  - lia.
  - cbn. lia.
  - split; [|split; [reflexivity|]].
    + rewrite Hpx by (unfold in_image; cbn; lia). reflexivity.
    + rewrite Hpx by (unfold in_image; cbn; lia). vm_compute. reflexivity.
Defined.

(** A font whose glyphs are diagonals. *)
Definition diagonal (i : Z) : Z := Z.shiftl 1 (i mod 8).
Lemma console_WriteChar_correct_witness :
  match console_WriteChar 4096 diagonal white 65 (demo 1) with
  | Some g => GCursorX g = 8 /\ GCursorY g = 0 /\ pixel (memory g) (back (demo 1)) 7 0 = 0xffffff /\ pixel (memory g) (back (demo 1)) 0 0 = 0
  | None => False
  end.
Proof.
  destruct (console_WriteChar_correct (demo 1) diagonal white 65) as (g' & E & _ & X & Y & _ & _ & P).
  - apply display_demo_ok. lia.
  - by vm_compute.
  - unfold color_ok. cbn. lia.
  - cbn. lia.
  - cbn. lia.
  - lia.
  - lia.
  - change (Framebuffer (demo 1)) with 4096 in E. rewrite E, X, Y, !P by (unfold in_image; cbn; lia). vm_compute. repeat split.
Defined.
(** A screen of 16 by 64 pixels; the text has a line break and starts a second
    line. *)
Definition tall : graphics (stack * mem) :=
  mk_graphics (fun _ => 0) 4096 16384 4096 16 64 16 1 (no_rects 65536, fun _ => 0) false 0 0 0 0 0 0 32768 None (0, 0).
Lemma tall_synced : synced tall.
Proof.
  split; [|intros x y _; by right]. destruct (display_demo_ok 1) as [H1 H2 H3 H4 H5 H6 H7]; [lia|].
  split; [exact H1|exact H2|exact H3|cbn; lia|reflexivity|left; vm_compute; discriminate|].
  destruct H7 as [D1 D2 D3]. split; [exact D1|exact D2|exact D3].
Qed.
Lemma console_Write_correct_witness :
  exists g, console_Write 4096 diagonal white [65; 66; 10; 67] tall = Some g /\ synced g /\ shown g.
Proof.
  destruct (console_Write_correct tall diagonal white [65; 66; 10; 67] tall_synced) as (g & E & Hs & Hsh).
  - unfold color_ok. cbn. lia.
  - unfold fits. vm_compute. intuition discriminate.
  - split; [exact I|vm_compute; discriminate].
  - exists g. split; [exact E|]. split; [exact Hs|]. apply Hsh. right. right. left.
Defined.
Lemma console_WriteChar_runs_on_witness : console_WriteChar 4096 diagonal white 65 (set_cursor 8 32 (demo 1)) = None.
Proof.
  apply (console_WriteChar_runs_on (set_cursor 8 32 (demo 1))); [|reflexivity|vm_compute; discriminate|lia|lia].
  destruct (display_demo_ok 1) as [H1 H2 H3 H4 H5 H6 [? ? ?]]; [lia|]. constructor; assumption || (split; assumption).
Defined.
Lemma graphics_ClearBuffer_quarter_witness :
  match graphics_ClearBuffer 0 white (demo 1) with
  | Some g' => memory g' (4096 + 512) = 0 /\ memory g' 4096 = 255
  | None => False
  end.
Proof.
  destruct (graphics_ClearBuffer_quarter (demo 1) white 0) as (g' & E & H1); [vm_compute; discriminate|reflexivity|].
  rewrite E. split; [rewrite H1; [reflexivity|cbn; lia]|]. revert E. vm_compute. intros [= <-]. reflexivity.
Defined.
