(* ===== verification/GraphicsInit.v ===== *)
(** * Setting up the display (graphics_Init in src/graphics/graphics.c, efiMain in src/main.c)

    The choice of the video mode through the firmware's graphics output protocol,
    which is the class [Gop], and the first picture.  [graphics] is the state of
    Graphics.v, [input_state] that of Input.v. *)

From S2P Require Import Prelude Mem MinMax Stack Queue Input InputQueue Graphics RectStack GraphicsProps Drawing Screen Console Blend Display.

(** ** The firmware *)

(** EFI_GRAPHICS_OUTPUT_MODE_INFORMATION and EFI_GRAPHICS_OUTPUT_PROTOCOL_MODE. *)
Record gop_info := mk_info { HorizontalResolution : Z; VerticalResolution : Z; PixelsPerScanLine : Z; InfoFormat : Z }.
Record gop_mode := mk_gop_mode { MaxMode : Z; Mode : Z; Info : gop_info; FrameBufferBase : Z; FrameBufferSize : Z }.
Definition EFI_ERROR (status : Z) : bool := i64 status <? 0.
Definition EFI_NOT_STARTED : Z := 9223372036854775808 + 19.
(** The image of the frame buffer. *)
Definition gop_image (g : gop_mode) : image :=
  mk_image (FrameBufferBase g) (HorizontalResolution (Info g)) (VerticalResolution (Info g)).

(** The calls return a status; [QueryMode] sets the pointer to the information, and
    [SetMode] clears the visible part of the frame buffer.  [gop_up]: the device
    works, so that calls for the modes it has succeed. *)
Class Gop (F : Type) := {
  LocateProtocol : F -> Z * F;
  QueryMode : F -> Z -> Z * option gop_info * F;
  SetMode : F -> mem -> Z -> Z * F * mem;
  gop_Mode : F -> option gop_mode;
  gop_infos : F -> list gop_info;
  gop_up : F -> Prop;
  LocateProtocol_law : forall f, gop_up f -> let '(st, f') := LocateProtocol f in
    EFI_ERROR st = false /\ gop_up f' /\ gop_infos f' = gop_infos f /\ gop_Mode f' = gop_Mode f;
  QueryMode_law : forall f i, gop_up f -> let '(st, info, f') := QueryMode f i in
    gop_up f' /\ gop_infos f' = gop_infos f /\ gop_Mode f' = gop_Mode f /\
    (0 <= i < Z.of_nat (length (gop_infos f)) -> st = 0 /\ info = gop_infos f !! Z.to_nat i);
  SetMode_law : forall f m i, gop_up f -> 0 <= i < Z.of_nat (length (gop_infos f)) -> let '(st, f', m') := SetMode f m i in
    st = 0 /\ gop_up f' /\ gop_infos f' = gop_infos f /\ exists g, gop_Mode f' = Some g /\ gop_infos f !! Z.to_nat i = Some (Info g) /\
    (forall x y, in_image (gop_image g) x y -> pixel m' (gop_image g) x y = 0) /\
    same_outside (FrameBufferBase g) (FrameBufferSize g) m m';
  gop_Mode_law : forall f, gop_up f -> exists g, gop_Mode f = Some g /\
    MaxMode g = Z.of_nat (length (gop_infos f)) /\ 0 <= Mode g < MaxMode g;
}.

(** ** The choice of the mode *)

Definition HELOS_GRAPHICS_TARGET_MODE_WIDTH : Z := 1600.
Definition HELOS_GRAPHICS_TARGET_MODE_HEIGHT : Z := 900.
Record HelosGraphics_Mode := mk_video { m_Width : Z; m_Height : Z; m_PixelsPerLine : Z; m_PixelFormat : Z }.
Definition video_mode (i : gop_info) : HelosGraphics_Mode :=
  mk_video (i32 (HorizontalResolution i)) (i32 (VerticalResolution i)) (i32 (PixelsPerScanLine i)) (InfoFormat i).
Definition is_target (v : HelosGraphics_Mode) : bool :=
  (m_Width v =? HELOS_GRAPHICS_TARGET_MODE_WIDTH) && (m_Height v =? HELOS_GRAPHICS_TARGET_MODE_HEIGHT).

Section GraphicsInit.
Context {F : Type} `{HG : Gop F} {S : Type} `{HS : RectStack S} {Q : Type} `{HQ : EventQueue Q}.

(** The loop over the modes, [n] of them from [i] on.  No result: [info] is a null
    pointer, or the array [modes] of 128 is overrun. *)
Fixpoint modes_loop (n : nat) (i : Z) (f : F) (info : option gop_info) (modes : Z -> HelosGraphics_Mode) (nativeMode : Z)
    : option (F * (Z -> HelosGraphics_Mode) * Z) :=
  match n with
  | O => Some (f, modes, nativeMode)
  | Datatypes.S n =>
      let '(_, got, f) := QueryMode f i in
      let info := if got then got else info in
      inf ← info;
      if 128 <=? i then None
      else
        let v := video_mode inf in
        modes_loop n (i + 1) f info (fun k => if k =? i then v else modes k) (if is_target v then i else nativeMode)
  end.
(** The stack of rectangles: a static pointer that nothing sets. *)
Definition __invalidated : Z := 0.
(** [doublebuffer] is the address of [graphics_Doublebuffer], [fresh] the stack of
    rectangles after [stack_InitBuffered], which writes it at [__invalidated].  No
    result: [info] is a null pointer, or the memory at [__invalidated] is not
    [writable], which is up to the firmware's page tables. *)
Definition graphics_Init (writable : Z -> bool) (doublebuffer : Z) (fresh : S) (f : F) (inp : input_state Q) (g : graphics S)
    : option (F * input_state Q * graphics S) :=
  let '(st, f) := LocateProtocol f in
  if EFI_ERROR st then Some (f, inp, g)
  else
    let '(st, info, f) := QueryMode f (match gop_Mode f with None => 0 | Some gm => Mode gm end) in
    let '(st, f, m) := if st =? EFI_NOT_STARTED then SetMode f (memory g) 0 else (st, f, memory g) in
    if EFI_ERROR st then Some (f, inp, set_memory m g)
    else
      gm ← gop_Mode f;
      '(f, modes, nativeMode) ← modes_loop (Z.to_nat (MaxMode gm)) 0 f info (fun _ => mk_video 0 0 0 0) (Mode gm);
      let '(st, f, m) := SetMode f m nativeMode in
      if EFI_ERROR st then Some (f, inp, set_memory m g)
      else
        gm ← gop_Mode f;
        if (128 <=? nativeMode) || negb (writable __invalidated) then None
        else
          let v := modes nativeMode in
          let inp := input_source_SetDesktopSize (m_Width v) (m_Height v) inp in
          let inp := input_source_PositionMouse (Z.quot (m_Width v) 2) (Z.quot (m_Height v) 2) inp in
          Some (f, inp, mk_graphics m doublebuffer (FrameBufferBase gm) (FrameBufferSize gm)
            (m_Width v) (m_Height v) (m_PixelsPerLine v) (m_PixelFormat v) fresh false 0 0
            (lastMouseX g) (lastMouseY g) (lastMouseSizeX g) (lastMouseSizeY g) (mouseOverlay g) (GCursor g)
            (input_MousePosition inp)).

(** ** The first picture *)

Definition HelosGraphics_Color_White : HelosGraphics_Color := mk_color 0xff 0xff 0xff 0xff.
Definition HelosGraphics_Color_Red : HelosGraphics_Color := mk_color 0x00 0x00 0xff 0xff.
Definition HelosGraphics_Color_Green : HelosGraphics_Color := mk_color 0x00 0xff 0x00 0xff.
Definition HelosGraphics_Color_Blue : HelosGraphics_Color := mk_color 0xff 0x00 0x00 0xff.
Definition HelosGraphics_Color_Cyan : HelosGraphics_Color := mk_color 0xff 0xff 0x00 0xff.
Definition HelosGraphics_Color_Magenta : HelosGraphics_Color := mk_color 0xff 0x00 0xff 0xff.
Definition HelosGraphics_Color_Yellow : HelosGraphics_Color := mk_color 0x00 0xff 0xff 0xff.
Definition helloString : list Z :=
  [0x89C6; 0x7A97; 0x7CFB; 0x7EDF; 0x4E09; 32; 72; 101; 108; 108; 111; 44; 32; 97; 110; 100; 44; 32; 110; 105; 99; 101; 32;
   116; 111; 32; 109; 101; 101; 116; 32; 121; 111; 117; 33].
(** What [efiMain] draws behind [graphics_Init]; [font] is [unifont_Data]. *)
Definition efiMain_colors : list HelosGraphics_Color :=
  [HelosGraphics_Color_Black; HelosGraphics_Color_White; HelosGraphics_Color_Red; HelosGraphics_Color_Green;
   HelosGraphics_Color_Blue; HelosGraphics_Color_Cyan; HelosGraphics_Color_Magenta; HelosGraphics_Color_Yellow].
Definition efiMain_fill (g : graphics S) : graphics S :=
  foldl (fun g ic => graphics_FillPixel (20 * Z.of_nat ic.1) 0 (20 * Z.of_nat ic.1 + 20) 20 ic.2 g) g
    (zip (seq 0 8) efiMain_colors).
Definition efiMain_draw (font : Z -> Z) (garbage : Z) (g : graphics S) : option (graphics S) :=
  g ← graphics_ClearBuffer garbage HelosGraphics_Color_Black g;
  let g := efiMain_fill g in
  let g := unifont_DrawString font 0 20 HelosGraphics_Color_White helloString g in
  let g := set_cursor 0 52 g in
  let g := graphics_Invalidate 0 0 (Width g) 52 g in
  Some (graphics_SwapBuffer g).
Definition efiMain_display (writable : Z -> bool) (font : Z -> Z) (garbage doublebuffer : Z) (fresh : S) (f : F) (inp : input_state Q) (g : graphics S)
    : option (F * input_state Q * graphics S) :=
  '(f, inp, g) ← graphics_Init writable doublebuffer fresh f inp g;
  g ← efiMain_draw font garbage g;
  Some (f, inp, g).
End GraphicsInit.

(** ** The mode chosen *)

(** The last mode from [i] on with the property, and [native] if there is none. *)
Definition chosen (target : gop_info -> Prop) (l : list gop_info) (i native k : Z) : Prop :=
  (k = native /\ forall j inf, i <= j -> l !! Z.to_nat j = Some inf -> ~ target inf) \/
  (i <= k /\ (exists inf, l !! Z.to_nat k = Some inf /\ target inf) /\
   forall j inf, k < j -> l !! Z.to_nat j = Some inf -> ~ target inf).
Definition looks_target (inf : gop_info) : Prop := is_target (video_mode inf) = true.
Definition size_1600_900 (inf : gop_info) : Prop := HorizontalResolution inf = 1600 /\ VerticalResolution inf = 900.
Definition info_small (i : gop_info) : Prop :=
  0 <= HorizontalResolution i < 2 ^ 31 /\ 0 <= VerticalResolution i < 2 ^ 31 /\ 0 <= PixelsPerScanLine i < 2 ^ 31.
Lemma target_size inf : info_small inf -> looks_target inf <-> size_1600_900 inf.
Proof.
  change (2 ^ 31) with 2147483648. intros (Hw & Hh & _). unfold looks_target, is_target, video_mode, size_1600_900.
  cbn [m_Width m_Height]. rewrite !i32_small by lia. by rewrite andb_true_iff, !Z.eqb_eq.
Qed.
Lemma chosen_iff (P R : gop_info -> Prop) l i native k : Forall (fun inf => P inf <-> R inf) l ->
  chosen P l i native k -> chosen R l i native k.
Proof.
  intros Hl. rewrite Forall_lookup in Hl.
  intros [[-> Hno]|(Hk & (inf & E & Ht) & Hno)]; [left|right]; (split; [done|]).
  - intros j inf Hj E. rewrite <- (Hl _ _ E). by eapply Hno.
  - split; [exists inf; split; [done|by apply (Hl _ _ E)]|]. intros j inf' Hj E'. rewrite <- (Hl _ _ E'). by eapply Hno.
Qed.

Lemma modes_loop_spec {F} `{HG : Gop F} n : forall i f info modes native,
  gop_up f -> 0 <= i -> i + Z.of_nat n = Z.of_nat (length (gop_infos f)) -> (length (gop_infos f) <= 128)%nat ->
  exists f' modes' k, modes_loop n i f info modes native = Some (f', modes', k) /\ gop_up f' /\ gop_infos f' = gop_infos f /\
    chosen looks_target (gop_infos f) i native k /\ (forall j, j < i -> modes' j = modes j) /\
    (forall j inf, i <= j -> gop_infos f !! Z.to_nat j = Some inf -> modes' j = video_mode inf).
Proof.
  induction n as [|n IH]; intros i f info modes native Hup Hi Hn Hl; cbn [modes_loop].
  { exists f, modes, native. split_and!; try done; [left; split; [done|]|];
      intros j inf Hj E; apply lookup_lt_Some in E; lia. }
  pose proof (QueryMode_law f i Hup) as Hq. destruct (QueryMode f i) as [[st got] f1]. destruct Hq as (Hup1 & El & _ & Hq).
  destruct Hq as [_ ->]; [lia|]. destruct (lookup_lt_is_Some_2 (gop_infos f) (Z.to_nat i)) as [inf Einf]; [lia|]. rewrite Einf.
  cbn [mbind option_bind]. rewrite (proj2 (Z.leb_gt 128 i)) by lia.
  set (modes1 := fun k => if k =? i then video_mode inf else modes k). set (nat1 := if is_target (video_mode inf) then i else native).
  destruct (IH (i + 1) f1 (Some inf) modes1 nat1) as (f' & modes' & k & E & Hup' & El' & Hch & Hlow & Hhigh); [done|lia|rewrite El; lia|by rewrite El|].
  rewrite El in *. exists f', modes', k. split; [exact E|]. split; [done|]. split; [done|]. split; [|split].
  - destruct Hch as [[-> Hno]|(Hk & Hex & Hno)]; [|right; split; [lia|done]]. unfold nat1. destruct (is_target (video_mode inf)) eqn:Et.
    + right. split; [lia|]. split; [by exists inf|]. intros j inf' Hj. apply Hno. lia.
    + left. split; [done|]. intros j inf' Hj Ej. destruct (decide (j = i)) as [->|Hne]; [unfold looks_target; congruence|]. apply (Hno j); [lia|done].
  - intros j Hj. rewrite Hlow by lia. unfold modes1. by rewrite (proj2 (Z.eqb_neq j i)) by lia.
  - intros j inf' Hj Ej. destruct (decide (j = i)) as [->|Hne]; [|apply Hhigh; [lia|done]].
    rewrite Hlow by lia. unfold modes1. rewrite Z.eqb_refl. congruence.
Qed.
Lemma chosen_range P l native k : chosen P l 0 native k -> 0 <= native < Z.of_nat (length l) -> 0 <= k < Z.of_nat (length l).
Proof. intros [[-> _]|(Hk & (inf & E & _) & _)] Hn; [done|]. apply lookup_lt_Some in E. lia. Qed.

(** ** Drawing *)

Section Drawing.
Context {S : Type} `{HS : RectStack S}.
Implicit Types g : graphics S.

Fixpoint text_width (str : list Z) : Z := match str with [] => 0 | c :: str => char_width c + text_width str end.
Lemma text_width_nonneg str : 0 <= text_width str.
Proof. induction str as [|c str IH]; cbn [text_width]; [done|]. destruct (char_width_cases c); lia. Qed.
(** A line of text touches only the lines of its cells. *)
Lemma DrawString_touches font color posX str : color_ok color -> Forall (fun c => c <> 10 /\ c <> 13) str -> forall g x y,
  packed g -> known_format g -> 0 <= x -> x + text_width str <= Width g -> 0 <= y -> y + 16 <= Height g ->
  exists m, draw_string font false posX x y color str g = set_memory m g /\
    touches (back g) (fun _ b => y <= b < y + 16) (memory g) m.
Proof.
  intros Hcol. induction 1 as [|c str [H1 H2] Hstr IH]; intros g x y Hp Hf Hx Hw Hy Hh; cbn [draw_string].
  { exists (memory g). split; [by rewrite set_memory_id|apply touches_refl]. }
  rewrite (proj2 (Z.eqb_neq c 10)), (proj2 (Z.eqb_neq c 13)) by done. cbn [negb andb].
  assert (UNIFONT_CHAR_WIDTH * (if unifont_IsCharDoublewidth c then 2 else 1) = char_width c) as ->
    by (unfold char_width, UNIFONT_CHAR_WIDTH; by case_match).
  cbn [text_width] in Hw. pose proof (text_width_nonneg str). pose proof (char_width_cases c).
  destruct (DrawChar_paints font color Hcol g x y c Hp Hf) as (m1 & -> & P); [lia..|].
  destruct (IH (set_memory m1 g) (x + char_width c) y) as (m2 & -> & T); [done|done|cbn; lia..|].
  exists m2. split; [done|]. apply touches_trans with m1; [|exact T].
  destruct (paints_touches _ _ _ _ _ P) as [T1 T2]. split; [|exact T2].
  intros a b Hab. destruct (T1 a b Hab) as [Hb|?]; [left|by right]. apply andb_true_iff in Hb as [Hb _]. apply in_box_spec in Hb. lia.
Qed.

Lemma Invalidate_cursor l t w h g : GCursor (graphics_Invalidate l t w h g) = GCursor g.
Proof. unfold graphics_Invalidate. by repeat case_match. Qed.
Lemma FillPixel_cursor l t r b c g : GCursor (graphics_FillPixel l t r b c g) = GCursor g.
Proof. unfold graphics_FillPixel. rewrite Invalidate_cursor. by case_match. Qed.
Lemma efiMain_fill_draws g : screen_ok g -> 160 <= Width g -> 20 <= Height g ->
  draws_damaged g (efiMain_fill g) /\ GCursor (efiMain_fill g) = GCursor g.
Proof.
  unfold efiMain_fill. intros Hok HW HH.
  assert (forall l g0, draws_damaged g g0 -> GCursor g0 = GCursor g -> Forall (fun ic : nat * HelosGraphics_Color => (ic.1 < 8)%nat /\ color_ok ic.2) l ->
    let g' := foldl (fun g ic => graphics_FillPixel (20 * Z.of_nat ic.1) 0 (20 * Z.of_nat ic.1 + 20) 20 ic.2 g) g0 l in
    draws_damaged g g' /\ GCursor g' = GCursor g) as Hl.
  { induction l as [|[i c] l IH]; intros g0 D M Hc; cbn [foldl]; [done|]. apply Forall_cons in Hc as [[Hi Hc] Hl]. cbn [fst snd] in *.
    apply IH; [|by rewrite FillPixel_cursor|done]. eapply draws_damaged_trans; [exact D|].
    pose proof (dd_geometry _ _ D) as [= _ _ _ EW EH _ _]. apply FillPixel_draws; [by eapply draws_damaged_ok|done|rewrite ?EW, ?EH; lia..]. }
  apply Hl; [apply draws_damaged_refl, Hok|done|]. repeat constructor; cbn; unfold color_ok; cbn; lia.
Qed.
(** A black device is in sync with the cleared back buffer. *)
Lemma ClearBuffer_black garbage g : screen_ok g ->
  (forall x y, in_image (device g) x y -> pixel (memory g) (device g) x y = 0) ->
  exists g', graphics_ClearBuffer garbage HelosGraphics_Color_Black g = Some g' /\ synced g' /\ GCursor g' = GCursor g /\ geometry g' = geometry g.
Proof.
  intros Hok Hdev. unfold graphics_ClearBuffer. rewrite Z.eqb_refl. eexists. split; [reflexivity|].
  split; [|done]. pose proof Hok as [_ _ _ _ Hsz Hap _]. split.
  - apply (geometry_ok g); [done|done|]. by destruct (sok_damage g Hok); split.
  - intros x y Hin. right. cbn [set_memory memory]. change (back (set_memory ?m g)) with (back g) in *. change (device (set_memory ?m g)) with (device g) in *.
    pose proof (image_addr_range (back g) x y Hin) as [Hb1 Hb2]. pose proof (image_addr_range (device g) x y Hin) as [Hd1 Hd2].
    unfold images_apart, image_end in *. cbn [back device i_data i_sizeX i_sizeY] in *. transitivity 0.
    + rewrite <- (Hdev x y Hin). apply load_ext. intros a Ha. apply memset_out. lia.
    + symmetry. change 0 with (load32 (fun _ => 0) (image_addr (back g) x y)). apply load_ext. intros a Ha. rewrite memset_in by lia. reflexivity.
Qed.
Lemma efiMain_draw_spec font garbage g : screen_ok g -> 320 <= Width g -> 52 <= Height g -> GCursor g = None ->
  (forall x y, in_image (device g) x y -> pixel (memory g) (device g) x y = 0) ->
  exists g', efiMain_draw font garbage g = Some g' /\ synced g' /\ shown g' /\ rs_list (invalidated g') = [] /\ geometry g' = geometry g.
Proof.
  intros Hok HW HH Hm Hdev. unfold efiMain_draw. destruct (ClearBuffer_black garbage g Hok Hdev) as (g1 & -> & Hs1 & M1 & G1).
  cbn [mbind option_bind]. rewrite <- G1. injection G1 as _ _ _ EW EH _ _. rewrite <- EW in HW. rewrite <- EH in HH. rewrite <- M1 in Hm. clear g Hok Hdev EW EH M1.
  destruct (efiMain_fill_draws g1 (proj1 Hs1)) as [D2 M2]; [lia|lia|]. set (g2 := efiMain_fill g1) in *. clearbody g2.
  pose proof (draws_synced _ _ Hs1 D2) as Hs2. rewrite <- (dd_geometry _ _ D2). pose proof (dd_geometry _ _ D2) as [= _ _ _ EW EH _ _]. rewrite <- EW in HW. rewrite <- EH in HH.
  rewrite <- M2 in Hm. clear g1 Hs1 D2 M2 EW EH. pose proof (proj1 Hs2) as Hok2. pose proof Hok2 as [Hp Hf _ Hh _ _ Hdam].
  assert (0 + text_width helloString <= Width g2) as Hlen by (change (text_width helloString) with 320; lia).
  assert (color_ok HelosGraphics_Color_White) as Hcol by (unfold color_ok; cbn; lia).
  assert (Forall (fun c => c <> 10 /\ c <> 13) helloString) as Hnl by (repeat constructor; done).
  destruct (DrawString_touches font _ 0 helloString Hcol Hnl g2 0 20 Hp Hf ltac:(lia) Hlen ltac:(lia) ltac:(lia)) as (m & E & T).
  unfold unifont_DrawString. rewrite E. set (g3 := set_cursor 0 52 g2).
  assert (draws_damaged g2 g3) as D3 by by apply set_cursor_draws.
  change (set_cursor 0 52 (set_memory m g2)) with (set_memory m g3). change (Width (set_memory m g3)) with (Width g2).
  pose proof (draws_damaged_ok _ _ Hok2 D3) as Hok3. pose proof (sok_width g2 Hok2).
  assert (draws_damaged g3 (graphics_Invalidate 0 0 (Width g2) 52 (set_memory m g3))) as D4.
  { eapply Invalidate_draws; [done|unfold call_ok; cbn; lia|exact T|]. intros x y [Hx _] Hy. cbn in Hx. lia. }
  set (g4 := graphics_Invalidate _ _ _ _ _) in *. assert (mouse_ok g4) as Hm4 by (unfold mouse_ok, g4; rewrite Invalidate_cursor; cbn; by rewrite Hm).
  pose proof (draws_synced _ _ (draws_synced _ _ Hs2 D3) D4) as Hs4.
  destruct (SwapBuffer_synced g4 Hs4 Hm4) as (H1 & H2 & H3 & _). eexists. split; [reflexivity|]. split; [done|]. split; [done|]. split; [done|].
  rewrite SwapBuffer_geometry. apply D4.
Qed.
End Drawing.

(** ** The whole set-up *)

Section Boot.
Context {F : Type} `{HG : Gop F} {S : Type} `{HS : RectStack S} {Q : Type} `{HQ : EventQueue Q}.
Variables (writable : Z -> bool) (doublebuffer : Z) (fresh : S).
Implicit Types (f : F) (g : graphics S) (inp : input_state Q).

(** The display is as [gm] says, at boot. *)
Record display_of (gm : gop_mode) g0 g : Prop := {
  do_buffers : Framebuffer g = doublebuffer /\ DeviceFramebuffer g = FrameBufferBase gm /\ FramebufferSize g = FrameBufferSize gm;
  do_mode : Width g = HorizontalResolution (Info gm) /\ Height g = VerticalResolution (Info gm) /\
    PixelsPerLine g = PixelsPerScanLine (Info gm) /\ PixelFormat g = InfoFormat (Info gm);
  do_damage : invalidated g = fresh /\ invalidated_screen g = false;
  do_cursor : GCursor g = GCursor g0;
  do_black : forall x y, in_image (gop_image gm) x y -> pixel (memory g) (gop_image gm) x y = 0;
}.
(** The mouse is in the middle of the desktop. *)
Definition centered g inp : Prop :=
  DesktopWidth inp = Width g /\ DesktopHeight inp = Height g /\ CursorX inp = Width g / 2 /\ CursorY inp = Height g / 2.

Lemma graphics_Init_spec f inp g gm0 :
  gop_up f -> gop_Mode f = Some gm0 -> (length (gop_infos f) <= 128)%nat -> Forall info_small (gop_infos f) ->
  exists f' inp' g' gm k, graphics_Init writable doublebuffer fresh f inp g =
      (if writable __invalidated then Some (f', inp', g') else None) /\ gop_up f' /\
    gop_infos f' = gop_infos f /\ gop_Mode f' = Some gm /\
    gop_infos f !! Z.to_nat k = Some (Info gm) /\ chosen size_1600_900 (gop_infos f) 0 (Mode gm0) k /\
    display_of gm g g' /\ centered g' inp'.
Proof.
  intros Hup Hm Hl Hsm. unfold graphics_Init.
  destruct (gop_Mode_law f Hup) as (gm0' & Hm' & Hmax & Hnat). rewrite Hm in Hm'. injection Hm' as <-.
  pose proof (LocateProtocol_law f Hup) as L. destruct (LocateProtocol f) as [st f1]. destruct L as (-> & Hup1 & El1 & Em1).
  rewrite Em1, Hm. pose proof (QueryMode_law f1 (Mode gm0) Hup1) as L. destruct (QueryMode f1 (Mode gm0)) as [[st1 info] f2].
  destruct L as (Hup2 & El2 & Em2 & L). rewrite El1 in L, El2. destruct L as [-> _]; [lia|].
  change (0 =? EFI_NOT_STARTED) with false. cbv iota beta. change (EFI_ERROR 0) with false. cbv iota. rewrite Em2, Em1, Hm. cbn [mbind option_bind].
  destruct (modes_loop_spec (Z.to_nat (MaxMode gm0)) 0 f2 info (fun _ => mk_video 0 0 0 0) (Mode gm0)) as (f3 & modes & k & -> & Hup3 & El3 & Hch & _ & Hmodes);
    [done|lia|rewrite El2; lia|by rewrite El2|]. rewrite El2 in *. cbn [mbind option_bind].
  assert (0 <= k < Z.of_nat (length (gop_infos f))) as Hk by (eapply chosen_range; [exact Hch|lia]).
  pose proof (SetMode_law f3 (memory g) k Hup3 ltac:(rewrite El3; lia)) as L. destruct (SetMode f3 (memory g) k) as [[st4 f4] m].
  destruct L as (-> & Hup4 & El4 & gm & Hm4 & Ek & Hblack & _). change (EFI_ERROR 0) with false. cbv iota. rewrite Hm4. cbn [mbind option_bind].
  rewrite (proj2 (Z.leb_gt 128 k)) by lia. cbn [orb]. rewrite El3 in *. rewrite (Hmodes k (Info gm)) by (done || lia).
  pose proof (Forall_lookup_1 _ _ _ _ Hsm Ek) as (Hw & Hh & Hp). change (2 ^ 31) with 2147483648 in *.
  eexists f4, _, _, gm, k. split; [destruct (writable __invalidated); reflexivity|]. unfold video_mode. cbn [m_Width m_Height m_PixelsPerLine m_PixelFormat].
  rewrite !i32_small by lia. split; [done|]. split; [done|]. split; [done|]. split; [done|]. split.
  { eapply chosen_iff; [|exact Hch]. eapply Forall_impl; [exact Hsm|]. intros inf. apply target_size. }
  split; [by split|].
  unfold centered. cbn. rewrite !intminmax_spec, !Z.quot_div_nonneg by lia. split_and!; [done|done|..]; zcase; lia.
Qed.
(** What the display code relies on: no padding, a known format, and buffers that
    lie apart and not in the page at [__invalidated]. *)
Record usable (gm : gop_mode) : Prop := {
  us_lines : PixelsPerScanLine (Info gm) = HorizontalResolution (Info gm);
  us_format : InfoFormat (Info gm) = graphics_PixelFormat_RGBA_8bit \/ InfoFormat (Info gm) = graphics_PixelFormat_BGRA_8bit;
  us_size : 320 <= HorizontalResolution (Info gm) < 268435456 /\ 52 <= VerticalResolution (Info gm) < 268435456;
  us_bytes : FrameBufferSize gm = 4 * (HorizontalResolution (Info gm) * VerticalResolution (Info gm));
  us_apart : images_apart (mk_image doublebuffer (HorizontalResolution (Info gm)) (VerticalResolution (Info gm))) (gop_image gm);
  us_invalidated : __invalidated + 4096 <= doublebuffer /\ __invalidated + 4096 <= FrameBufferBase gm;
}.
Record fresh_ok : Prop := {
  fr_ok : rs_ok fresh;
  fr_empty : rs_list fresh = [];
  fr_rects : forall w r, rect_small w r -> rect_ok r;
}.
Lemma display_ok gm g0 g : fresh_ok -> usable gm -> display_of gm g0 g -> screen_ok g /\ device g = gop_image gm.
Proof.
  intros [Fo Fe Fr] [Ul Uf Uw Ub Ua _] [(B1 & B2 & B3) (M1 & M2 & M3 & M4) [I1 I2] _ _]. split.
  - split; unfold packed, known_format; rewrite ?M1, ?M2, ?M3, ?M4, ?B3; try done; try lia.
    + unfold back, device. by rewrite M1, M2, B1, B2.
    + split; rewrite ?I1; [done|by rewrite Fe|apply Fr].
  - unfold device, gop_image. by rewrite M1, M2, B2.
Qed.

(** * Properties *)

(** C14. Setting up the display on firmware that works and lets the page at
    address 0 be written, where the unset pointer [__invalidated] puts the stack
    of rectangles: the mode is the last one of 1600 by 900 pixels, or the current
    one when there is none; after the first picture the device shows the whole
    back buffer, with nothing damaged, as every later drawing call needs it, and
    the mouse is in the middle.  With that page protected the set-up has no
    result. *)
Theorem efiMain_display_correct font garbage f inp g gm0 :
  gop_up f -> gop_Mode f = Some gm0 -> (length (gop_infos f) <= 128)%nat -> Forall info_small (gop_infos f) ->
  (forall f' gm, gop_up f' -> gop_infos f' = gop_infos f -> gop_Mode f' = Some gm -> usable gm) -> fresh_ok -> GCursor g = None ->
  if writable __invalidated then
    exists f' inp' g' gm k, efiMain_display writable font garbage doublebuffer fresh f inp g = Some (f', inp', g') /\
      gop_Mode f' = Some gm /\ gop_infos f !! Z.to_nat k = Some (Info gm) /\ chosen size_1600_900 (gop_infos f) 0 (Mode gm0) k /\
      geometry g' = (doublebuffer, FrameBufferBase gm, FrameBufferSize gm, (HorizontalResolution (Info gm), VerticalResolution (Info gm),
        PixelsPerScanLine (Info gm), InfoFormat (Info gm))) /\
      synced g' /\ shown g' /\ rs_list (invalidated g') = [] /\ centered g' inp'
  else efiMain_display writable font garbage doublebuffer fresh f inp g = None.
Proof.
  intros Hup Hm Hl Hsm Hus Hfr Hcur. unfold efiMain_display.
  destruct (graphics_Init_spec f inp g gm0 Hup Hm Hl Hsm) as (f' & inp' & g1 & gm & k & -> & Hup' & El & Em & Ek & Hch & Hd & Hc).
  destruct (writable __invalidated); cbn [mbind option_bind]; [|done].
  pose proof (Hus f' gm Hup' El Em) as Hu. destruct (display_ok gm g g1 Hfr Hu Hd) as [Hok Edev].
  pose proof Hd as [(B1 & B2 & B3) (M1 & M2 & M3 & M4) _ Hcu Hb]. pose proof Hu as [_ _ [Hw Hh] _ _ _].
  destruct (efiMain_draw_spec font garbage g1 Hok) as (g' & -> & Hs & Hsh & Hr & G); [lia|lia|by rewrite Hcu|by rewrite Edev|].
  cbn [mbind option_bind]. exists f', inp', g', gm, k. split; [reflexivity|]. split; [done|]. split; [done|]. split; [done|].
  split; [rewrite G; unfold geometry; by rewrite B1, B2, B3, M1, M2, M3, M4|]. split; [done|]. split; [done|]. split; [done|].
  injection G as _ _ _ EW EH _ _. unfold centered. by rewrite EW, EH.
Qed.
(** Without the protocol nothing is set up. *)
Theorem graphics_Init_no_protocol f inp g : EFI_ERROR (LocateProtocol f).1 = true ->
  graphics_Init writable doublebuffer fresh f inp g = Some ((LocateProtocol f).2, inp, g).
Proof. intros E. unfold graphics_Init. destruct (LocateProtocol f) as [st f1]. cbn in *. by rewrite E. Qed.
End Boot.

(** ** Witnesses *)

(** A device with the given modes, whose frame buffer is at 0x1000000. *)
Record video_card := mk_card { card_modes : list gop_info; card_mode : Z }.
Definition no_info : gop_info := mk_info 0 0 0 0.
Definition card_gop (c : video_card) : gop_mode :=
  let i := default no_info (card_modes c !! Z.to_nat (card_mode c)) in
  mk_gop_mode (Z.of_nat (length (card_modes c))) (card_mode c) i 0x1000000 (4 * (HorizontalResolution i * VerticalResolution i)).
#[export, program] Instance card_Gop : Gop video_card := {|
  LocateProtocol c := (0, c);
  QueryMode c i := (0, card_modes c !! Z.to_nat i, c);
  SetMode c m i := let c := mk_card (card_modes c) i in (0, c, memset m 0x1000000 0 (FrameBufferSize (card_gop c)));
  gop_Mode c := Some (card_gop c);
  gop_infos := card_modes;
  gop_up c := 0 <= card_mode c < Z.of_nat (length (card_modes c)) ;
|}.
Next Obligation. done. Qed.
Next Obligation. done. Qed.
Next Obligation.
  intros c m i Hup Hi. cbv zeta. split; [done|]. split; [done|]. split; [done|].
  set (c' := mk_card (card_modes c) i). exists (card_gop c'). split; [done|].
  destruct (lookup_lt_is_Some_2 (card_modes c) (Z.to_nat i)) as [inf E]; [lia|]. split; [by rewrite E; cbn; rewrite E|]. split.
  - intros x y Hin. pose proof (image_addr_range _ _ _ Hin) as [H1 H2]. unfold image_end in H2.
    set (a := image_addr _ x y) in *. change 0 with (load32 (fun _ => 0) a). apply load_ext. intros b Hb. apply memset_in. cbn in *. lia.
  - apply memset_out.
Qed.
Next Obligation. intros c Hup. exists (card_gop c). done. Qed.

Definition demo_card : video_card := mk_card [mk_info 640 480 640 1; mk_info 1600 900 1600 1; mk_info 800 600 800 0] 0.
Definition boot_graphics : graphics (stack * mem) :=
  mk_graphics (fun _ => 0) 0 0 0 0 0 0 0 (no_rects 65536, fun _ => 0) false 0 0 0 0 0 0 32768 None (0, 0).
Lemma demo_card_usable (c : video_card) gm : gop_up c -> gop_infos c = card_modes demo_card -> gop_Mode c = Some gm -> usable 65536 gm.
Proof.
  cbn. intros Hup El [= <-]. unfold card_gop. rewrite El in *. cbn in Hup. set (k := card_mode c) in *. clearbody k.
  assert (k = 0 \/ k = 1 \/ k = 2) as [-> | [-> | ->]] by lia;
    (constructor; [done|by (left + right)|vm_compute; intuition discriminate|done|left; vm_compute; discriminate|vm_compute; intuition discriminate]).
Qed.
Lemma efiMain_display_correct_witness :
  exists c' inp' g', efiMain_display (HQ := ring_EventQueue 171 100) (fun _ => true) (fun _ => 0) 0 65536 (no_rects 65536, fun _ => 0) demo_card demo_input boot_graphics = Some (c', inp', g') /\
    Width g' = 1600 /\ shown g'.
Proof.
  destruct (efiMain_display_correct (HQ := ring_EventQueue 171 100) (fun _ => true) 65536 (no_rects 65536, fun _ => 0) (fun _ => 0) 0 demo_card demo_input boot_graphics (card_gop demo_card))
    as (c' & inp' & g' & gm & k & E & _ & Ek & Hch & Hg & _ & Hs & _).
  - cbn. lia.
  - done.
  - cbn. lia.
  - repeat constructor; cbn; lia.
  - exact demo_card_usable.
  - destruct (no_rects_ok 1024 65536 (fun _ => 0)) as [H1 H2]; [lia..|]. split; [done|exact H2|apply rect_small_word].
  - done.
  - exists c', inp', g'. split; [exact E|]. split; [|exact Hs]. injection Hg as _ _ _ EW _ _ _. rewrite EW.
    destruct Hch as [[_ Hno]|(_ & (inf & Ei & Ht) & _)]; [by destruct (Hno 1 (mk_info 1600 900 1600 1) ltac:(lia) eq_refl)|].
    rewrite Ek in Ei. injection Ei as <-. apply Ht.
Defined.
