(* ===== verification/Overlay.v ===== *)
(** * The overlay (kThreader_Overlay of src/kernel/kmain.c)

    The thread that shows, about once a second, how the time was spent: what a round
    draws, and what becomes of the time that passes while it draws. *)

From S2P Require Import Prelude Mem CString Alloc Printf PrintfSpec PrintfProps MinMax Stack Graphics GraphicsProps Drawing Screen Console GraphicsInit RectStack Display.

(** [smp_metrics_Tick_Idling], [_Kernel], [_Userspace] (src/smp/metrics.c). *)
Record metrics := mk_metrics { Tick_Idling : Z; Tick_Kernel : Z; Tick_Userspace : Z }.

Section Overlay.
Context {S : Type} `{HS : RectStack S}.
Implicit Types g : graphics S.
(** The format "  Idle %4d\nKernel %4d\n  User %4d"; what "%4d" prints. *)
Definition count_item : item := Directive (mk_directive [] (Some (Lit 4)) None Sint Cd).
Definition overlay_format : list item :=
  (Plain <$> [32; 32; 73; 100; 108; 101; 32]) ++ count_item :: Plain 10 ::
  (Plain <$> [75; 101; 114; 110; 101; 108; 32]) ++ count_item :: Plain 10 ::
  (Plain <$> [32; 32; 85; 115; 101; 114; 32]) ++ [count_item].
Definition count_layout : layout := mk_layout false false false false false 4 None.
Definition pad4 (v : Z) : list Z := signed_text count_layout v.

(** The difference of the [uint64_t]s, of which "%d" takes an [int]. *)
Definition metric_delta (now prev : Z) : Z := i32 (u64 (now - prev)).
Definition overlay_deltas (now prev : metrics) : Z * Z * Z :=
  (metric_delta (Tick_Idling now) (Tick_Idling prev), metric_delta (Tick_Kernel now) (Tick_Kernel prev),
   metric_delta (Tick_Userspace now) (Tick_Userspace prev)).
(** What [snprintf(buf, 512, format, idle, kernel, user)] leaves in the buffer. *)
Definition overlay_text (d : Z * Z * Z) : list Z :=
  let '(idle, kernel, user) := d in
  take 511 ([32; 32; 73; 100; 108; 101; 32] ++ pad4 idle ++ [10] ++
            [75; 101; 114; 110; 101; 108; 32] ++ pad4 kernel ++ [10] ++
            [32; 32; 85; 115; 101; 114; 32] ++ pad4 user).
Definition overlay_draw (font : Z -> Z) (text : list Z) (g : graphics S) : graphics S :=
  let x := Width g - UNIFONT_CHAR_WIDTH * 11 in
  let g := graphics_FillPixel x 0 (Width g) (UNIFONT_CHAR_HEIGHT * 3) (mk_color 20 20 20 0) g in
  let g := unifont_DrawStringASCII font x 0 HelosGraphics_Color_White text g in
  let g := graphics_Invalidate x 0 (UNIFONT_CHAR_WIDTH * 11) (UNIFONT_CHAR_HEIGHT * 3) g in
  graphics_SwapBuffer g.
(** A round of the loop: the counters are [wake] when the sleep ends, and [finish]
    when the picture is drawn; these are kept for the next round. *)
Definition kThreader_Overlay_round (font : Z -> Z) (wake finish : metrics) (st : metrics * graphics S) : metrics * graphics S :=
  let '(prev, g) := st in (finish, overlay_draw font (overlay_text (overlay_deltas wake prev)) g).
Definition kThreader_Overlay (font : Z -> Z) (start : metrics) (rounds : list (metrics * metrics)) (g : graphics S)
    : metrics * graphics S :=
  foldl (fun st r => kThreader_Overlay_round font r.1 r.2 st) (start, g) rounds.

(** ** Text in a box *)

(** Does the text fit to the left of [r] and above [b], from [x], [y] on? *)
Fixpoint text_fits (posX r b x y : Z) (str : list Z) : bool :=
  match str with
  | [] => true
  | c :: str =>
      if c =? 10 then text_fits posX r b posX (y + 16) str
      else if c =? 13 then text_fits posX r b posX y str
      else (c <? 128) && (x + 8 <=? r) && (y + 16 <=? b) && text_fits posX r b (x + 8) y str
  end.
Lemma ascii_width c : c < 128 -> char_width c = 8.
Proof. intros Hc. unfold char_width, unifont_IsCharDoublewidth. by rewrite (proj2 (Z.leb_gt 0x1100 c)) by lia. Qed.

Lemma DrawStringASCII_touches font color posX t r b str : color_ok color -> forall g x y,
  packed g -> known_format g -> 0 <= posX <= x -> 0 <= t <= y -> r <= Width g -> b <= Height g -> text_fits posX r b x y str = true ->
  exists m, draw_string font true posX x y color str g = set_memory m g /\
    touches (back g) (fun a c => posX <= a < r /\ t <= c < b) (memory g) m.
Proof.
  intros Hcol. induction str as [|c str IH]; intros g x y Hp Hf Hx Hy Hr Hb Hfit; cbn [draw_string text_fits] in *.
  { exists (memory g). split; [by rewrite set_memory_id|apply touches_refl]. }
  unfold UNIFONT_CHAR_HEIGHT, UNIFONT_CHAR_WIDTH.
  destruct (c =? 10); [by apply IH; try done; lia|]. destruct (c =? 13); [by apply IH; try done; lia|].
  rewrite !andb_true_iff, Z.ltb_lt, !Z.leb_le in Hfit. destruct Hfit as [[[Hc Hxr] Hyb] Hfit]. cbn [negb andb]. rewrite Z.mul_1_r.
  pose proof (ascii_width c Hc) as Hw.
  destruct (DrawChar_paints font color Hcol g x y c Hp Hf) as (m1 & -> & P); [lia..|]. rewrite Hw in P.
  destruct (IH (set_memory m1 g) (x + 8) y) as (m2 & E & T); [done|done|lia|lia|done|done|done|].
  exists m2. split; [by rewrite E|]. apply touches_trans with m1; [|exact T].
  destruct (paints_touches _ _ _ _ _ P) as [T1 T2]. split; [|exact T2].
  intros a e Hae. destruct (T1 a e Hae) as [He|?]; [left|by right]. apply andb_true_iff in He as [He _]. apply in_box_spec in He. lia.
Qed.

(** ** A round *)

(** What "%4d" prints of a number of at most four digits. *)
Lemma pad4_ok v : 0 <= v < 10000 -> length (pad4 v) = 4%nat /\ Forall (fun c => 32 <= c < 128) (pad4 v).
Proof.
  intros Hv. unfold pad4, count_layout, signed_text, padded, integer_body, sign_text. cbn [l_left l_zero l_plus l_space l_precision l_width zero_padded andb from_option id].
  rewrite (proj2 (Z.ltb_ge v 0)), Z.abs_eq by lia. pose proof (digit_text_nonempty 10 false v ltac:(lia) ltac:(lia)).
  pose proof (digits_bound 10 v 4 ltac:(lia) ltac:(cbn; lia) ltac:(lia)) as Hl. destruct (digits_spec 10 v) as (_ & Hd & _); [lia..|].
  assert (Forall (fun c => 32 <= c < 128) (digit_text 10 false v)) as Hc.
  { unfold digit_text. apply Forall_fmap. eapply Forall_impl; [exact Hd|]. intros d Hd'. cbv beta in Hd'. unfold compose, digit_of. rewrite (proj2 (Z.ltb_lt d 10)) by lia. lia. }
  assert (length (digit_text 10 false v) <= 4)%nat by (unfold digit_text; by rewrite length_fmap).
  rewrite (replicate_0 (1 - _)) by lia. cbn [app]. change (zero_padded _) with false. cbv iota.
  split; [rewrite length_app, length_replicate; lia|]. apply Forall_app. split; [|done]. apply Forall_replicate. unfold c_space. lia.
Qed.
Lemma count_ok v : 0 <= v < 10000 -> signed_ok count_layout v = true.
Proof.
  intros Hv. unfold signed_ok, integer_ok, integer_body, sign_text. cbn [count_layout l_left l_zero l_plus l_space l_precision l_width zero_padded andb from_option id negb orb].
  rewrite (proj2 (Z.ltb_ge v 0)), Z.abs_eq by lia. pose proof (digits_bound 10 v 4 ltac:(lia) ltac:(cbn; lia) ltac:(lia)).
  rewrite andb_true_r. apply andb_true_iff. split; [|done]. apply Z.leb_le. cbn [app]. rewrite length_app, length_replicate. unfold digit_text. rewrite length_fmap. lia.
Qed.
(** The call of [snprintf] with the three differences as its arguments. *)
Lemma overlay_snprintf ftoa etoa fuel m buf fmt idle kernel user :
  cstr m fmt (format_string overlay_format) -> (length (format_string overlay_format) < fuel)%nat -> buf <> 0 ->
  apart fmt (Z.of_nat (length (format_string overlay_format)) + 1) buf 512 ->
  0 <= i32 idle < 10000 -> 0 <= i32 kernel < 10000 -> 0 <= i32 user < 10000 ->
  exists m', snprintf_ ftoa etoa fuel buf 512 fmt [idle; kernel; user] m = Some (35, m') /\ same_outside buf 512 m m' /\
    bytes m' buf 36 = overlay_text (i32 idle, i32 kernel, i32 user) ++ [0].
Proof using Type.
  intros Hc Hf Hb Ha Hi Hk Hu. destruct (pad4_ok _ Hi) as [Li _], (pad4_ok _ Hk) as [Lk _], (pad4_ok _ Hu) as [Lu _].
  set (text := [32; 32; 73; 100; 108; 101; 32] ++ pad4 (i32 idle) ++ [10] ++ [75; 101; 114; 110; 101; 108; 32] ++ pad4 (i32 kernel) ++ [10] ++
    [32; 32; 85; 115; 101; 114; 32] ++ pad4 (i32 user)).
  assert (length text = 35%nat) as Hl by (unfold text; rewrite !length_app, Li, Lk, Lu; done).
  assert (overlay_text (i32 idle, i32 kernel, i32 user) = text) as -> by (unfold overlay_text; apply take_ge; fold text; lia).
  destruct (vsnprintf_spec ftoa etoa fuel m buf 512 fmt overlay_format [idle; kernel; user] text) as (m' & E & Hs & Hbytes).
  - split; [|done|unfold text; rewrite <- (app_nil_r (pad4 (i32 user))); reflexivity|done|rewrite Hl; lia|done|constructor].
    change (format_ok overlay_format [idle; kernel; user]) with
      (signed_ok count_layout (i32 idle) && (signed_ok count_layout (i32 kernel) && (signed_ok count_layout (i32 user) && true))).
    by rewrite !count_ok.
  - done.
  - lia.
  - cbv zeta in Hbytes. rewrite take_ge in Hbytes by (rewrite Hl; lia). rewrite Hl in E, Hbytes. exists m'. split; [exact E|]. split; [done|exact Hbytes].
Qed.

Lemma text_fits_line posX r b l rest : forall x y, Forall (fun c => 32 <= c < 128) l -> x + 8 * Z.of_nat (length l) <= r -> y + 16 <= b ->
  text_fits posX r b x y (l ++ rest) = text_fits posX r b (x + 8 * Z.of_nat (length l)) y rest.
Proof.
  induction l as [|c l IH]; intros x y Hl Hx Hy; cbn [app text_fits length]; [by rewrite Z.add_0_r|].
  apply Forall_cons in Hl as [Hc Hl]. rewrite (proj2 (Z.eqb_neq c 10)), (proj2 (Z.eqb_neq c 13)), (proj2 (Z.ltb_lt c 128)) by lia.
  cbn [length] in Hx. rewrite (proj2 (Z.leb_le (x + 8) r)), (proj2 (Z.leb_le (y + 16) b)) by lia. cbn [andb].
  rewrite IH by (done || lia). f_equal. lia.
Qed.
Lemma overlay_text_fits x d : (let '(i, k, u) := d in 0 <= i < 10000 /\ 0 <= k < 10000 /\ 0 <= u < 10000) ->
  text_fits x (x + 88) 48 x 0 (overlay_text d) = true.
Proof.
  destruct d as [[i k] u]. intros (Hi & Hk & Hu).
  destruct (pad4_ok i Hi) as [Li Fi], (pad4_ok k Hk) as [Lk Fk], (pad4_ok u Hu) as [Lu Fu]. unfold overlay_text.
  rewrite take_ge by (rewrite !length_app, Li, Lk, Lu; cbn; lia).
  assert (forall a b, length a = 7%nat -> length b = 4%nat -> Forall (fun c => 32 <= c < 128) a -> Forall (fun c => 32 <= c < 128) b ->
    forall y rest, y + 16 <= 48 -> text_fits x (x + 88) 48 x y (a ++ b ++ rest) = text_fits x (x + 88) 48 (x + 88) y rest) as Hline.
  { intros a b La Lb Fa Fb y rest Hy. rewrite text_fits_line by (rewrite ?La; done || lia). rewrite text_fits_line by (rewrite ?La, ?Lb; done || lia).
    rewrite La, Lb. f_equal. lia. }
  assert (forall l : list Z, forallb (fun c => (32 <=? c) && (c <? 128)) l = true -> Forall (fun c => 32 <= c < 128) l) as Hb.
  { intros l Hl. apply Forall_forall. intros c Hc. rewrite forallb_forall in Hl. apply list_elem_of_In, Hl in Hc. lia. }
  assert (forall w y rest, text_fits x (x + 88) 48 w y ([10] ++ rest) = text_fits x (x + 88) 48 x (y + 16) rest) as Hnl by done.
  rewrite (Hline _ (pad4 i)), Hnl by (done || lia || by apply Hb).
  rewrite (Hline [75; 101; 114; 110; 101; 108; 32] (pad4 k)), Hnl by (done || lia || by apply Hb).
  rewrite <- (app_nil_r (pad4 u)). by rewrite (Hline [32; 32; 85; 115; 101; 114; 32] (pad4 u)) by (done || lia || by apply Hb).
Qed.

Lemma Invalidate_mouse l t w h g : mouse_state (graphics_Invalidate l t w h g) = mouse_state g.
Proof. unfold graphics_Invalidate. by repeat case_match. Qed.
Lemma Invalidate_lastY l t w h g : lastMouseY (graphics_Invalidate l t w h g) = lastMouseY g.
Proof. unfold graphics_Invalidate. by repeat case_match. Qed.
Lemma FillPixel_mouse l t r b c g : mouse_state (graphics_FillPixel l t r b c g) = mouse_state g.
Proof. unfold graphics_FillPixel. rewrite Invalidate_mouse. by case_match. Qed.
Lemma FillPixel_lastY l t r b c g : lastMouseY (graphics_FillPixel l t r b c g) = lastMouseY g.
Proof. unfold graphics_FillPixel. rewrite Invalidate_lastY. by case_match. Qed.
Lemma mouse_same g g' : mouse_ok g -> draws_damaged g g' -> mouse_state g' = mouse_state g -> lastMouseY g' = lastMouseY g -> mouse_ok g'.
Proof.
  intros Hm D M Y. unfold mouse_ok in *. destruct (geometry_images _ _ (dd_geometry _ _ D)) as [Eb Ed].
  pose proof (dd_geometry _ _ D) as [= _ _ _ EW EH _ _]. unfold imgX, imgY, overlay in *. rewrite Eb, Ed, Y.
  unfold mouse_state in M. injection M as E1 E2 E3 E4 E5 E6. rewrite E1, E2, E3, E4, E5, E6.
  destruct (GCursor g) as [c|]; [|done]. unfold call_ok in *. by rewrite EW.
Qed.

(** Drawing in the corner keeps the display in sync and shows it. *)
Lemma overlay_draw_spec font text g :
  synced g -> mouse_ok g -> 88 <= Width g -> 48 <= Height g ->
  text_fits (Width g - 88) (Width g) 48 (Width g - 88) 0 text = true ->
  let g' := overlay_draw font text g in
  synced g' /\ shown g' /\ rs_list (invalidated g') = [] /\ geometry g' = geometry g.
Proof.
  intros Hs Hm HW HH Hfit g'. pose proof Hs as [Hok _]. subst g'. unfold overlay_draw.
  change (UNIFONT_CHAR_WIDTH * 11) with 88. change (UNIFONT_CHAR_HEIGHT * 3) with 48.
  set (x := Width g - 88) in *.
  assert (color_ok (mk_color 20 20 20 0)) as Hc by (unfold color_ok; cbn; lia).
  pose proof (FillPixel_draws g x 0 (Width g) 48 _ Hok Hc ltac:(lia) ltac:(lia) ltac:(lia) HH) as D1.
  set (g1 := graphics_FillPixel x 0 (Width g) 48 _ g) in *. pose proof (draws_damaged_ok _ _ Hok D1) as Hok1.
  pose proof (dd_geometry _ _ D1) as [= _ _ _ EW EH _ _].
  assert (mouse_state g1 = mouse_state g) as M1 by apply FillPixel_mouse.
  assert (lastMouseY g1 = lastMouseY g) as Y1 by apply FillPixel_lastY. clearbody g1.
  assert (color_ok HelosGraphics_Color_White) as Hcw by (unfold color_ok; cbn; lia).
  destruct (DrawStringASCII_touches font _ x 0 (Width g) 48 text Hcw g1 x 0) as (m & E & T); try done; try lia; [apply Hok1|apply Hok1|].
  unfold unifont_DrawStringASCII. rewrite E.
  assert (draws_damaged g1 (graphics_Invalidate x 0 88 48 (set_memory m g1))) as D2.
  { eapply Invalidate_draws; [done|unfold call_ok; pose proof (sok_width _ Hok1); pose proof (sok_height _ Hok1); lia|exact T|].
    intros a b _ [Ha Hb]. lia. }
  pose proof (draws_synced _ _ (draws_synced _ _ Hs D1) D2) as Hs2. set (g2 := graphics_Invalidate _ _ _ _ _) in *.
  assert (mouse_state g2 = mouse_state g) as M2 by (unfold g2; rewrite Invalidate_mouse; exact M1).
  assert (lastMouseY g2 = lastMouseY g) as Y2 by (unfold g2; rewrite Invalidate_lastY; exact Y1).
  assert (mouse_ok g2) as Hm2 by (apply (mouse_same g); [done|eapply draws_damaged_trans; [exact D1|exact D2]|done|done]).
  destruct (SwapBuffer_synced g2 Hs2 Hm2) as (H1 & H2 & H3 & _). split_and!; [done|done|done|].
  rewrite SwapBuffer_geometry. etransitivity; [apply D2|apply D1].
Qed.

(** A round of the overlay, on a screen of at least 88 by 48 pixels and for counts of
    at most four digits: the display stays in sync, what was drawn is shown when the
    round ends, nothing is left damaged, and the next round counts from its end. *)
Theorem kThreader_Overlay_round_correct font wake finish prev g :
  synced g -> mouse_ok g -> 88 <= Width g -> 48 <= Height g ->
  (let '(i, k, u) := overlay_deltas wake prev in 0 <= i < 10000 /\ 0 <= k < 10000 /\ 0 <= u < 10000) ->
  let '(prev', g') := kThreader_Overlay_round font wake finish (prev, g) in
  prev' = finish /\ synced g' /\ shown g' /\ rs_list (invalidated g') = [] /\ geometry g' = geometry g.
Proof.
  intros Hs Hm HW HH Hd. unfold kThreader_Overlay_round. split; [done|]. apply overlay_draw_spec; try done.
  replace (Width g) with (Width g - 88 + 88) at 2 by lia. by apply overlay_text_fits.
Qed.

(** ** The time counted *)

(** Counters that only grow, by less than 2^31 in a round. *)
Fixpoint growing (t : metrics -> Z) (prev : metrics) (rounds : list (metrics * metrics)) : Prop :=
  match rounds with
  | [] => 0 <= t prev < 2 ^ 64
  | (wake, finish) :: rounds => 0 <= t prev <= t wake /\ t wake - t prev < 2 ^ 31 /\ t wake <= t finish /\ growing t finish rounds
  end.
Fixpoint counted (t : metrics -> Z) (prev : metrics) (rounds : list (metrics * metrics)) : Z :=
  match rounds with [] => 0 | (wake, finish) :: rounds => metric_delta (t wake) (t prev) + counted t finish rounds end.
Definition drawing (t : metrics -> Z) (rounds : list (metrics * metrics)) : Z :=
  foldr (fun r a => t (snd r) - t (fst r) + a) 0 rounds.
(** What the rounds show adds up to the time that passed but for what passed while
    they drew, which no round counts. *)
Theorem overlay_drawing_uncounted t font start rounds g :
  growing t start rounds ->
  counted t start rounds + drawing t rounds = t (fst (kThreader_Overlay font start rounds g)) - t start.
Proof.
  unfold kThreader_Overlay. revert start g. induction rounds as [|[wake finish] rounds IH]; intros start g; cbn [foldl counted drawing foldr].
  { cbn. lia. }
  intros (H1 & H2 & H3 & Hg). cbn [fst snd kThreader_Overlay_round].
  change (2 ^ 31) with 2147483648 in H2. unfold metric_delta. rewrite u64_small, i32_small by (change (2 ^ 64) with 18446744073709551616; lia).
  specialize (IH finish (overlay_draw font (overlay_text (overlay_deltas wake start)) g) Hg). unfold drawing in IH. lia.
Qed.
End Overlay.

(** ** Witnesses *)

Definition wide_demo : graphics (stack * mem) :=
  mk_graphics (fun _ => 0) 131072 262144 22528 88 64 88 1 (no_rects 65536, fun _ => 0) false 0 0 0 0 0 0 32768 None (0, 0).
Lemma wide_demo_synced : synced wide_demo.
Proof.
  split; [|intros x y _; by right].
  split; cbn; [done|unfold known_format, graphics_PixelFormat_RGBA_8bit, graphics_PixelFormat_BGRA_8bit; cbn; lia|lia|lia|done|left; vm_compute; discriminate|].
  destruct (no_rects_ok 1024 65536 (fun _ => 0)) as [H1 H2]; [lia..|]. split; cbn; [done|by rewrite H2|apply rect_small_word].
Qed.
Lemma kThreader_Overlay_round_correct_witness :
  shown (snd (kThreader_Overlay_round diagonal (mk_metrics 900 1200 7) (mk_metrics 900 1201 7) (mk_metrics 0 1000 5, wide_demo))).
Proof.
  exact (proj1 (proj2 (proj2 (kThreader_Overlay_round_correct diagonal (mk_metrics 900 1200 7) (mk_metrics 900 1201 7)
    (mk_metrics 0 1000 5) wide_demo wide_demo_synced I ltac:(cbn; lia) ltac:(cbn; lia) ltac:(vm_compute; intuition congruence))))).
Defined.
Lemma overlay_drawing_uncounted_witness :
  let rounds := [(mk_metrics 0 1200 0, mk_metrics 0 1203 0); (mk_metrics 0 1400 0, mk_metrics 0 1401 0)] in
  counted Tick_Kernel (mk_metrics 0 1000 0) rounds = 397 /\
  Tick_Kernel (fst (kThreader_Overlay diagonal (mk_metrics 0 1000 0) rounds wide_demo)) - 1000 = 401.
Proof.
  intros rounds. split; [reflexivity|].
  rewrite <- (overlay_drawing_uncounted Tick_Kernel diagonal (mk_metrics 0 1000 0) rounds wide_demo); [reflexivity|].
  cbn. change (2 ^ 64) with 18446744073709551616. change (2 ^ 31) with 2147483648. lia.
Defined.
