(* ===== verification/Output.v ===== *)
(** * Output of text (src/runtime/stdio.c; console_Write in src/graphics/graphics.c)

    Where text goes: the serial port (Serial.v), the display (Display.v) once it
    is set up, and the firmware's console before that.  The strings are read from
    the memory the display draws in; the conversion buffer is that of Stdio.v, on
    any [Allocator].  HELOS_RUNTIME_QUIET is defined (src/config.h), so only
    [io_Error] and its relatives reach the display. *)

From S2P Require Import Prelude Mem CString Alloc Unicode Printf PrintfSpec PrintfProps Stdio Ports Interrupt Serial MinMax Stack Graphics RectStack GraphicsProps Drawing Screen Console Blend Display GraphicsInit.

(** A [char] passed as a codepoint. *)
Definition char_codepoint (b : Z) : Z := u32 ((b + 128) mod 256 - 128).
(** [str[i]] of the three kinds of strings. *)
Definition utf32_at (str : Z) (m : mem) (i : Z) : Z := load32 m (str + 4 * i).
Definition utf16_at (str : Z) (m : mem) (i : Z) : Z := load16 m (str + 2 * i).
Definition ascii_at (str : Z) (m : mem) (i : Z) : Z := char_codepoint (load8 m (str + i)).

Section Output.
Context {D : Type} `{HP : Ports D} {H : Type} `{HA : Allocator H} {S : Type} `{HS : RectStack S} {W : Type}.
(** The firmware's [OutputString], on its own state. *)
Variable OutputString : W -> mem -> Z -> W.
(** The addresses of [__io_WriteConsole_bufferReal], of [graphics_Doublebuffer]
    and of [__io_Printf_buffer]; the font. *)
Variables (bufferReal doublebuffer printf_buffer : Z) (font : Z -> Z).
(** The conversions of floating-point numbers (Printf.v). *)
Variables _ftoa _etoa : (Z -> Z -> Z -> Z -> mem -> option mem) -> Z -> Z -> Z -> Z -> Z -> Z -> Z -> mem -> option (Z * mem).

Record output := mk_output {
  o_dev : D; o_com1 : pic_serial_Port;
  o_heap : H; o_bufSize : Z; o_buffer : Z;
  o_gfx : graphics S;
  o_firmware : W;
}.
Definition o_mem (o : output) : mem := memory (o_gfx o).
Definition o_stdio (o : output) : stdio H := mk_stdio (o_heap o) (o_mem o) (o_bufSize o) (o_buffer o).
Definition set_dev (d : D) (o : output) : output := mk_output d (o_com1 o) (o_heap o) (o_bufSize o) (o_buffer o) (o_gfx o) (o_firmware o).
Definition set_stdio (s : stdio H) (o : output) : output :=
  mk_output (o_dev o) (o_com1 o) (sh s) (bufSize s) (buffer s) (set_memory (sm s) (o_gfx o)) (o_firmware o).
Definition set_gfx (g : graphics S) (o : output) : output := mk_output (o_dev o) (o_com1 o) (o_heap o) (o_bufSize o) (o_buffer o) g (o_firmware o).
Definition set_firmware (w : W) (o : output) : output := mk_output (o_dev o) (o_com1 o) (o_heap o) (o_bufSize o) (o_buffer o) (o_gfx o) w.

(** ** The console *)

(** Up to the terminator; the character is read again after it is written. *)
Fixpoint write_until (at_ : mem -> Z -> Z) (fuel : nat) (color : HelosGraphics_Color) (i : Z) (wantSwap : bool) (g : graphics S) : option (graphics S) :=
  match fuel with
  | O => None
  | Datatypes.S fuel =>
      if at_ (memory g) i =? 0 then Some (if wantSwap then graphics_SwapBuffer g else g)
      else
        g ← console_WriteChar doublebuffer font color (at_ (memory g) i) g;
        write_until at_ fuel color (i + 1) (wantSwap || (at_ (memory g) i =? 10)) g
  end.
Fixpoint write_count (at_ : mem -> Z -> Z) (n : nat) (color : HelosGraphics_Color) (i : Z) (wantSwap : bool) (g : graphics S) : option (graphics S) :=
  match n with
  | O => Some (if wantSwap then graphics_SwapBuffer g else g)
  | Datatypes.S n =>
      g ← console_WriteChar doublebuffer font color (at_ (memory g) i) g;
      write_count at_ n color (i + 1) (wantSwap || (at_ (memory g) i =? 10)) g
  end.
Definition write_text (at_ : mem -> Z -> Z) (fuel : nat) (color : HelosGraphics_Color) (len : Z) (g : graphics S) : option (graphics S) :=
  if len =? 0 then write_until at_ fuel color 0 false g else write_count at_ (Z.to_nat len) color 0 false g.
Definition console_Write (fuel : nat) (color : HelosGraphics_Color) (str len : Z) (g : graphics S) := write_text (utf32_at str) fuel color len g.
Definition console_WriteUTF16 (fuel : nat) (color : HelosGraphics_Color) (str len : Z) (g : graphics S) := write_text (utf16_at str) fuel color len g.
Definition console_WriteASCII (fuel : nat) (color : HelosGraphics_Color) (str len : Z) (g : graphics S) := write_text (ascii_at str) fuel color len g.

(** ** The functions of stdio.c *)

Definition io_WriteConsoleUTF8 (fuel : nat) (str : Z) (o : output) : option output :=
  s ← __io_WriteConsoleUTF8 bufferReal fuel str (o_stdio o);
  let o := set_stdio s o in
  if Framebuffer (o_gfx o) =? 0 then Some (set_firmware (OutputString (o_firmware o) (o_mem o) (o_buffer o)) o)
  else g ← console_WriteUTF16 fuel HelosGraphics_Color_White (o_buffer o) 0 (o_gfx o); Some (set_gfx g o).

(** [for (i = 0; i <= len; i++) buffer[i] = str[i]]: [n] characters from [i] on. *)
Fixpoint widen (n : nat) (room : Z) (m : mem) (buffer str i : Z) : option mem :=
  match n with
  | O => Some m
  | Datatypes.S n => m ← store_unit room m buffer i (ascii_at str m i); widen n room m buffer str (i + 1)
  end.
Definition __io_WriteConsoleASCII (fuel : nat) (str : Z) (o : output) : option output :=
  if Framebuffer (o_gfx o) =? 0 then
    l ← strlen fuel (o_mem o) str;
    let len := i32 l in
    s ← __io_WriteConsole_ResizeBuffer bufferReal fuel (len + 1) (o_stdio o);
    m ← widen (Z.to_nat (len + 1)) (room s) (sm s) (buffer s) str 0;
    let o := set_stdio (mk_stdio (sh s) m (bufSize s) (buffer s)) o in
    Some (set_firmware (OutputString (o_firmware o) (o_mem o) (o_buffer o)) o)
  else g ← console_WriteASCII fuel HelosGraphics_Color_White str 0 (o_gfx o); Some (set_gfx g o).

(** [pic_serial_Write(&pic_serial_COM1, str, 0)]: [wait] bounds each wait for the
    transmitter. *)
Definition serial_text (wait fuel : nat) (str : Z) (o : output) : option output :=
  d ← pic_serial_Write wait fuel (o_com1 o) (o_mem o) str 0 (o_dev o); Some (set_dev d o).
Definition io_WriteConsole (wait fuel : nat) (str : Z) (o : output) : option output := serial_text wait fuel str o.
Definition io_WriteConsoleASCII (wait fuel : nat) (str : Z) (o : output) : option output := serial_text wait fuel str o.
Definition io_Error (wait fuel : nat) (str : Z) (o : output) : option output :=
  o ← serial_text wait fuel str o; io_WriteConsoleUTF8 fuel str o.
Definition io_ErrorASCII (wait fuel : nat) (str : Z) (o : output) : option output :=
  o ← serial_text wait fuel str o; __io_WriteConsoleASCII fuel str o.
(** [_putchar(character)], whose parameter is stored at [c]. *)
Definition _putchar (wait : nat) (c character : Z) (o : output) : option output :=
  let o := set_gfx (set_memory (store8 (o_mem o) c character) (o_gfx o)) o in
  d ← pic_serial_Write wait 0 (o_com1 o) (o_mem o) c 1 (o_dev o); Some (set_dev d o).
(** [printf] prints to [_putchar]. *)
Definition printf ftoa etoa (wait fuel : nat) (c fmt : Z) (args : list Z) (o : output) : option (Z * output) :=
  printf_ o_mem ftoa etoa (_putchar wait c) fuel fmt args o.

(** [vsnprintf(__io_Printf_buffer, sizeof(__io_Printf_buffer), fmt, args)] *)
Definition format (fuel : nat) (fmt : Z) (args : list Z) (o : output) : option (Z * output) :=
  '(ret, m) ← vsnprintf_ _ftoa _etoa fuel printf_buffer 4096 fmt args (o_mem o);
  Some (ret, set_gfx (set_memory m (o_gfx o)) o).
Definition io_Printf (wait fuel : nat) (fmt : Z) (args : list Z) (o : output) : option (Z * output) :=
  '(ret, o) ← format fuel fmt args o;
  o ← io_WriteConsole wait fuel printf_buffer o; Some (ret, o).
Definition io_Errorf (wait fuel : nat) (fmt : Z) (args : list Z) (o : output) : option (Z * output) :=
  '(ret, o) ← format fuel fmt args o;
  o ← io_Error wait fuel printf_buffer o; Some (ret, o).
End Output.
Arguments output : clear implicits.

(** ** Text in memory *)

Lemma load_of_bytes m m' a n k b : bytes m' a n = bytes m a n -> a <= b -> b + Z.of_nat k <= a + n -> load k m' b = load k m b.
Proof.
  intros E. revert b. induction k as [|k IH]; intros b Ha Hb; [done|]. cbn [load]. rewrite IH by lia. f_equal.
  assert (bytes m' a n !! Z.to_nat (b - a) = bytes m a n !! Z.to_nat (b - a)) as El by (by rewrite E).
  unfold bytes in El. rewrite !lookup_tab in El by lia. injection El. by replace (a + Z.of_nat (Z.to_nat (b - a))) with b by lia.
Qed.

(** The string [str], without its terminator, from index [i] on. *)
Fixpoint text_at (at_ : mem -> Z -> Z) (m : mem) (i : Z) (str : list Z) : Prop :=
  match str with
  | [] => at_ m i = 0
  | c :: str => c <> 0 /\ at_ m i = c /\ text_at at_ m (i + 1) str
  end.
Lemma text_at_ext at_ m m' str : forall i, (forall j, i <= j <= i + Z.of_nat (length str) -> at_ m' j = at_ m j) ->
  text_at at_ m i str -> text_at at_ m' i str.
Proof.
  induction str as [|c str IH]; intros i E; cbn [text_at length] in *; [rewrite E by lia; done|]. intros (? & ? & ?). rewrite E by lia.
  split; [done|]. split; [done|]. apply IH; [|done]. intros j Hj. apply E. lia.
Qed.
Lemma units_text m a us : forall i, units m (a + 2 * i) (Datatypes.S (length us)) = us ++ [0] -> Forall (fun c => c <> 0) us ->
  text_at (utf16_at a) m i us.
Proof.
  assert (forall b n, units m b (Datatypes.S n) = load16 m b :: units m (b + 2) n) as Hc.
  { intros b n. unfold units. cbn [seq fmap list_fmap]. f_equal; [by rewrite Z.mul_0_r, Z.add_0_r|].
    rewrite <- fmap_S_seq, <- list_fmap_compose. apply list_fmap_ext. intros k x _. unfold compose. f_equal. lia. }
  induction us as [|c us IH]; intros i E Hn; rewrite Hc in E; cbn [app length] in E; cbn [text_at].
  - by injection E.
  - injection E as E0 E. apply Forall_cons in Hn as [H0 Hn]. split; [done|]. split; [done|]. apply IH; [|done]. by replace (a + 2 * (i + 1)) with (a + 2 * i + 2) by lia.
Qed.
Lemma cstr_text m a s : forall i, Forall (fun c => 0 <= c < 128) s -> cstr m (a + i) s -> text_at (ascii_at a) m i s.
Proof.
  induction s as [|c s IH]; intros i Hr; cbn [cstr text_at]; unfold ascii_at at 1, char_codepoint; [by intros ->|].
  apply Forall_cons in Hr as [Hc Hr]. intros (Hn & E & Hs). split; [done|]. split; [rewrite E; word_lia|]. apply IH; [done|]. by rewrite Z.add_assoc.
Qed.

(** Characters that are not in an image. *)
Definition outside_image (at_ : mem -> Z -> Z) (im : image) (i n : Z) : Prop := forall m m' j,
  (forall a, ~ (i_data im <= a < image_end im) -> m' a = m a) -> i <= j <= i + n -> at_ m' j = at_ m j.
Lemma outside_utf16 a im n : apart (i_data im) (image_end im - i_data im) a (2 * (n + 1)) -> outside_image (utf16_at a) im 0 n.
Proof. unfold apart. intros Ha m m' j E Hj. apply load_ext. intros x Hx. apply E. lia. Qed.
Lemma outside_ascii a im n : apart (i_data im) (image_end im - i_data im) a (n + 1) -> outside_image (ascii_at a) im 0 n.
Proof. unfold apart. intros Ha m m' j E Hj. unfold ascii_at, load8. rewrite E; [done|lia]. Qed.

(** ** The console *)

Section Console.
Context {S : Type} `{HS : RectStack S} (font : Z -> Z) (color : HelosGraphics_Color) (at_ : mem -> Z -> Z).
Implicit Types g : graphics S.

Lemma write_until_spec str : forall fuel g i swap, let db := Framebuffer g in
  screen_ok g -> color_ok color -> fits g str -> text_at at_ (memory g) i str ->
  outside_image at_ (back g) i (Z.of_nat (length str)) -> (length str < fuel)%nat ->
  write_until db font at_ fuel color i swap g =
    g' ← write_chars db font color str g; Some (if swap || bool_decide (10 ∈ str) then graphics_SwapBuffer g' else g').
Proof.
  induction str as [|c str IH]; intros [|fuel] g i swap db Hok Hcol Hf Ht Ho Hfu; cbn [length] in *; try lia; cbn [write_until].
  { cbn [text_at] in Ht. rewrite Ht, orb_false_r. done. }
  destruct Ht as (Hn & E & Ht). rewrite E, (proj2 (Z.eqb_neq c 0) Hn).
  destruct (WriteChar_fits g font color c str Hok Hcol Hf) as (g1 & E1 & Dr & Hf' & _ & _ & Honly). fold db in E1. cbn [write_chars]. rewrite E1. cbn [mbind option_bind].
  destruct (geometry_images _ _ (dd_geometry _ _ Dr)) as [Eb _].
  pose proof (dd_geometry _ _ Dr) as [= EF _ _ _ _ _ _].
  rewrite (Ho (memory g) (memory g1) i Honly ltac:(lia)), E.
  unfold db in *. rewrite <- EF. rewrite (IH fuel g1).
  - destruct (write_chars _ _ _ _ g1); cbn [mbind option_bind]; [|done]. f_equal. destruct (Z.eqb_spec c 10) as [->|Hc].
    + rewrite orb_true_r, orb_true_l, bool_decide_true by (by left). by rewrite orb_true_r.
    + rewrite orb_false_r. assert (bool_decide (10 ∈ c :: str) = bool_decide (10 ∈ str)) as -> by (apply bool_decide_ext; rewrite elem_of_cons; naive_solver). done.
  - by eapply draws_damaged_ok.
  - done.
  - done.
  - eapply text_at_ext; [|exact Ht]. intros j Hj. apply Ho; [exact Honly|lia].
  - rewrite Eb. intros m m' j Hm Hj. apply Ho; [done|lia].
  - lia.
Qed.
(** The string is written as [console_Write] of Graphics.v says, and shown when
    it has a line break. *)
Lemma write_text_spec fuel str g :
  synced g -> color_ok color -> fits g str -> mouse_room g (Z.of_nat (length str)) -> text_at at_ (memory g) 0 str ->
  outside_image at_ (back g) 0 (Z.of_nat (length str)) -> (length str < fuel)%nat ->
  exists g', write_text (Framebuffer g) font at_ fuel color 0 g = Some g' /\
    Graphics.console_Write (Framebuffer g) font color str g = Some g' /\ synced g' /\ geometry g' = geometry g /\ (10 ∈ str -> shown g' /\ rs_list (invalidated g') = []).
Proof.
  intros Hs Hcol Hf Hm Ht Ho Hfu. unfold write_text, Graphics.console_Write. cbn [Z.eqb].
  rewrite (write_until_spec str fuel g 0 false) by (done || apply Hs). cbn [orb].
  destruct (Write_chars font color str g (proj1 Hs) Hcol Hf Hm) as (g1 & -> & Dr & Hm' & _). pose proof (draws_synced _ _ Hs Dr) as Hs'.
  cbn [mbind option_bind]. eexists. split; [reflexivity|]. split; [reflexivity|].
  case_bool_decide as Hnl; [|split; [done|split; [apply Dr|done]]].
  destruct (SwapBuffer_synced _ Hs' Hm') as (H1 & H2 & H3 & _). split; [done|]. split; [|done].
  rewrite <- (dd_geometry _ _ Dr). apply SwapBuffer_geometry.
Qed.
End Console.

(** ** The sinks together *)

Section Sinks.
Context {D : Type} `{HP : Ports D} {H : Type} `{HA : Allocator H} {S : Type} `{HS : RectStack S} {W : Type}.
Variable OutputString : W -> mem -> Z -> W.
Variables (bufferReal doublebuffer printf_buffer : Z) (font : Z -> Z).
Context (p : pic_serial_Port) `{HU : !Uart D (port p)}.
Implicit Types o : output D H S W.

(** The port is set up and the conversion buffer is sound. *)
Record ready o : Prop := {
  ry_port : o_com1 o = p /\ ok p = true /\ operating (serial (o_dev o));
  ry_stdio : stdio_ok bufferReal (o_stdio o);
}.
(** The display is set up; the device shows the back buffer where it is not
    damaged. *)
Record on_display o : Prop := {
  od_fb : Framebuffer (o_gfx o) = doublebuffer /\ doublebuffer <> 0;
  od_synced : synced (o_gfx o);
}.
(** Converting [n] characters leaves the memory alone. *)
Definition unused o (n a k : Z) : Prop :=
  0 < k /\ foreign (o_stdio o) a k /\ (n + 1 <= o_bufSize o -> apart a k (o_buffer o) (2 * (n + 1))).
Definition unused_image o (n : Z) (im : image) : Prop := unused o n (i_data im) (image_end im - i_data im).

Lemma serial_text_spec o str s fuel : ready o -> cstr (o_mem o) str s -> (length s < fuel)%nat ->
  exists wait0 d', (forall wait, (wait0 <= wait)%nat -> serial_text wait fuel str o = Some (set_dev d' o)) /\
    sent (serial d') = sent (serial (o_dev o)) ++ s /\ ready (set_dev d' o).
Proof.
  intros [(Ep & Hok & Hop) Hst] Hs Hf. destruct (send_string_ends p (o_mem o) s fuel str (o_dev o) Hop Hs Hf) as (w & d' & E & Hse & Hsa).
  exists w, d'. split; [|split; [done|split; [|done]]].
  - intros wait Hw. unfold serial_text, pic_serial_Write. rewrite Ep, Hok. cbn [Z.eqb negb]. by rewrite E.
  - split; [done|]. split; [done|]. by eapply same_setup_operating.
Qed.

(** The same pixels at the display's places. *)
Definition same_pixels (g : graphics S) (m : mem) : Prop := forall x y, in_image (back g) x y ->
  pixel m (back g) x y = pixel (memory g) (back g) x y /\ pixel m (device g) x y = pixel (memory g) (device g) x y.
Lemma same_pixels_synced g m : synced g -> same_pixels g m -> synced (set_memory m g).
Proof.
  intros [Hok Hsy] Hp. split.
  - apply (geometry_ok g); [done|done|]. by destruct (sok_damage g Hok); split.
  - intros x y Hin. destruct (Hp x y Hin) as [E1 E2]. destruct (Hsy x y Hin) as [?|E]; [by left|]. right.
    change (pixel m (device g) x y = pixel m (back g) x y). by rewrite E1, E2.
Qed.
Lemma bytes_same_pixels g m : let sz := 4 * (Width g * Height g) in
  bytes m (Framebuffer g) sz = bytes (memory g) (Framebuffer g) sz ->
  bytes m (DeviceFramebuffer g) sz = bytes (memory g) (DeviceFramebuffer g) sz -> same_pixels g m.
Proof.
  intros sz E1 E2 x y Hin. pose proof (image_addr_range (back g) x y Hin) as [H1 H2].
  pose proof (image_addr_range (device g) x y Hin) as [H3 H4]. unfold image_end in H2, H4. cbn [back device i_data i_sizeX i_sizeY] in *.
  split; [apply (load_of_bytes _ _ _ _ _ _ E1)|apply (load_of_bytes _ _ _ _ _ _ E2)]; unfold sz; lia.
Qed.

Lemma outside_pixels g m a n : same_outside a n (memory g) m ->
  (forall im, im ∈ [back g; device g] -> apart (i_data im) (image_end im - i_data im) a n) -> same_pixels g m.
Proof using Type.
  clear OutputString font. intros Hs Hap x y Hin. assert (in_image (device g) x y) as Hin' by exact Hin.
  assert (forall im, im ∈ [back g; device g] -> in_image im x y -> pixel m im x y = pixel (memory g) im x y) as Hp.
  { intros im Him Hi. pose proof (image_addr_range im x y Hi). pose proof (Hap im Him) as Ha. unfold apart in Ha. apply load_ext. intros b Hb. apply Hs. lia. }
  split; apply Hp; try done; set_solver.
Qed.

(** A string [cs] that is, or will be, at [str] can be converted and written; a
    condition on everything but the contents of the memory.  [cv_block]: a string
    of up to the recorded number of units fits the buffer, which is not so after
    the buffer has grown for a shorter one ([ResizeBuffer_short] of Stdio.v). *)
Record convertible o (cs : list Z) (str : Z) (fuel : nat) : Prop := {
  cv_codepoints : Forall codepoint_ok cs /\ Forall (fun c => u16 c <> 0) cs;
  cv_length : 0 <= str /\ 2 * (Z.of_nat (length (string_bytes cs)) + 1) < 2 ^ 31 /\ (length (string_bytes cs) + 1 < fuel)%nat;
  cv_unused : unused o (Z.of_nat (length cs)) str (Z.of_nat (length (string_bytes cs)) + 1);
  cv_images : unused_image o (Z.of_nat (length cs)) (back (o_gfx o)) /\ unused_image o (Z.of_nat (length cs)) (device (o_gfx o));
  cv_room : o_bufSize o < Z.of_nat (length cs) + 1 ->
    forall m, al_room (free_old bufferReal (mk_stdio (o_heap o) m (o_bufSize o) (o_buffer o))).1 (2 * (Z.of_nat (length cs) + 1));
  cv_block : Z.of_nat (length cs) + 1 <= o_bufSize o -> 2 * (Z.of_nat (length cs) + 1) <= room (o_stdio o);
  cv_fits : fits (o_gfx o) (u16 <$> cs) /\ mouse_room (o_gfx o) (Z.of_nat (length cs));
}.
Definition writable o (cs : list Z) (str : Z) (fuel : nat) : Prop := convertible o cs str fuel /\ cstr (o_mem o) str (string_bytes cs).
Lemma string_bytes_nonzero cs : Forall codepoint_ok cs -> Forall (fun c => c <> 0) cs -> Forall (fun c => c <> 0) (string_bytes cs).
Proof.
  intros Hc. induction 1 as [|c cs Hn _ IH]; [constructor|]. apply Forall_cons in Hc as [Hc Hcs]. rewrite string_bytes_cons. apply Forall_app. split; [|by apply IH].
  unfold codepoint_ok in Hc. unfold utf8_bytes. repeat zcase; repeat constructor; lia.
Qed.
(** The buffer has room for [n] characters and for all it had room for. *)
Definition grown o o' (n : nat) : Prop := 2 * (Z.of_nat n + 1) <= room (o_stdio o') /\ room (o_stdio o) <= room (o_stdio o').
Lemma io_WriteConsoleUTF8_spec o cs str fuel : let text := u16 <$> cs in
  ready o -> on_display o -> writable o cs str fuel ->
  exists o' m, io_WriteConsoleUTF8 OutputString bufferReal doublebuffer font fuel str o = Some o' /\
    same_pixels (o_gfx o) m /\
    Graphics.console_Write doublebuffer font HelosGraphics_Color_White text (set_memory m (o_gfx o)) = Some (o_gfx o') /\
    ready o' /\ on_display o' /\ o_dev o' = o_dev o /\ grown o o' (length cs) /\ (10 ∈ text -> shown (o_gfx o')).
Proof.
  intros text [Hport Hst] [[Hfb Hnz] Hsy] [[[Hcs Hnn] (Hstr & Hlen & Hf) (_ & Hfor & Hfit) [(Hb1 & Hb2 & Hb3) (Hd1 & Hd2 & Hd3)] Hroom Hblk [Hfits Hmr]] Hs].
  destruct (WriteConsoleUTF8_spec bufferReal fuel str cs (o_stdio o)) as (st' & E & Hu & _ & _ & Hst' & Hrm & Hkeep); [done|done|done|done|done|done|lia|done|by intros ?; apply Hroom|done|].
  unfold io_WriteConsoleUTF8. rewrite E. cbn [mbind option_bind]. set (o1 := set_stdio st' o). set (g := o_gfx o) in *.
  change (Framebuffer (o_gfx o1)) with (Framebuffer g). rewrite (proj2 (Z.eqb_neq _ 0)) by congruence.
  assert (length text = length cs) as Hl by (unfold text; by rewrite length_fmap).
  destruct (Hkeep _ _ Hb1 Hb2 Hb3) as [Eb Ab]. destruct (Hkeep _ _ Hd1 Hd2 Hd3) as [Ed _].
  assert (same_pixels g (sm st')) as Hp.
  { apply bytes_same_pixels; unfold image_end in Eb, Ed; cbn [back device i_data i_sizeX i_sizeY] in Eb, Ed.
    - by replace (Framebuffer g + 4 * (Width g * Height g) - Framebuffer g) with (4 * (Width g * Height g)) in Eb by lia.
    - by replace (DeviceFramebuffer g + 4 * (Width g * Height g) - DeviceFramebuffer g) with (4 * (Width g * Height g)) in Ed by lia. }
  assert (color_ok HelosGraphics_Color_White) as Hcol by (unfold color_ok; cbn; lia).
  pose proof (string_bytes_length cs) as Hnl.
  destruct (write_text_spec font HelosGraphics_Color_White (utf16_at (buffer st')) fuel text (o_gfx o1)) as (g' & Ew & Ec & Hs' & Hg & Hsh).
  - by apply same_pixels_synced.
  - done.
  - exact Hfits.
  - rewrite Hl. exact Hmr.
  - apply units_text; [|by apply Forall_fmap]. rewrite Z.mul_0_r, Z.add_0_r, Hl. exact Hu.
  - rewrite Hl. apply outside_utf16. exact Ab.
  - lia.
  - unfold console_WriteUTF16. change (Framebuffer (o_gfx o1)) with (Framebuffer g) in *. rewrite Hfb in *. change (o_buffer o1) with (buffer st').
    rewrite Ew. cbn [mbind option_bind].
    eexists _, (sm st'). split; [reflexivity|]. split; [exact Hp|]. split; [exact Ec|]. split; [|split; [|split; [done|split]]].
    + split; [done|]. destruct Hst' as [? ? ? ?]. by split.
    + split; [|exact Hs']. split; [|done]. injection Hg as EF _ _ _ _ _ _. etransitivity; [exact EF|exact Hfb].
    + exact Hrm.
    + intros Hnl'. by apply Hsh.
Qed.

(** * Properties *)

(** An error message goes to the serial port and to the display: the port
    sends exactly the bytes of the string, however long it is busy; the display
    gets the characters [console_Write] writes for its codepoints cut to 16 bits,
    from unchanged pixels, stays in sync, and shows them at once when there is a
    line break.  Everything is ready for the next message. *)
Theorem io_Error_correct o cs str fuel : let text := u16 <$> cs in
  ready o -> on_display o -> writable o cs str fuel ->
  exists wait0 o' m,
    (forall wait, (wait0 <= wait)%nat -> io_Error OutputString bufferReal doublebuffer font wait fuel str o = Some o') /\
    sent (serial (o_dev o')) = sent (serial (o_dev o)) ++ string_bytes cs /\
    same_pixels (o_gfx o) m /\
    Graphics.console_Write doublebuffer font HelosGraphics_Color_White text (set_memory m (o_gfx o)) = Some (o_gfx o') /\
    ready o' /\ on_display o' /\ grown o o' (length cs) /\ (10 ∈ text -> shown (o_gfx o')).
Proof.
  intros text Hr Hd Hw. destruct (serial_text_spec o str (string_bytes cs) fuel Hr) as (w & d' & E & Hs & Hr'); [apply Hw|destruct Hw as [[] _]; lia|].
  destruct (io_WriteConsoleUTF8_spec (set_dev d' o) cs str fuel Hr') as (o' & m & E' & Hp & Hg & Hr2 & Hd2 & Ed & Hgr & Hsh).
  - by destruct Hd.
  - destruct Hw as [[] Hs']. by split; [split|].
  - exists w, o', m. split; [|rewrite Ed; by split_and!]. intros wait Hwait. unfold io_Error. rewrite E by done. exact E'.
Qed.

(** *** Formatted messages *)

Section Formats.
Variables _ftoa _etoa : (Z -> Z -> Z -> Z -> mem -> option mem) -> Z -> Z -> Z -> Z -> Z -> Z -> Z -> mem -> option (Z * mem).
(** [io_Printf] returns the length of the text and sends what fits its buffer
    of 4096 bytes; it changes no memory but that buffer and leaves the display
    alone. *)
Definition with_memory (m : mem) o : output D H S W := set_gfx (set_memory m (o_gfx o)) o.
Lemma format_spec o fuel fmt items args text : ready o -> printf_buffer <> 0 -> printable fuel (o_mem o) printf_buffer 4096 fmt items args text ->
  Forall (fun c => c <> 0) (take 4095 text) ->
  exists m, format printf_buffer _ftoa _etoa fuel fmt args o = Some (Z.of_nat (length text), with_memory m o) /\
    same_outside printf_buffer 4096 (o_mem o) m /\ cstr m printf_buffer (take 4095 text) /\ ready (with_memory m o).
Proof using Type.
  clear OutputString font. intros Hr Hb Hpr Hn. unfold format.
  destruct (vsnprintf_spec _ftoa _etoa fuel (o_mem o) printf_buffer 4096 fmt items args text Hpr Hb ltac:(lia)) as (m & -> & Hsame & Hbytes).
  cbn [mbind option_bind]. exists m. split; [done|]. split; [done|]. split; [|destruct Hr as [? [? ? ? ?]]; by split].
  apply cstr_bytes. by split.
Qed.
Theorem io_Printf_correct o fuel fmt items args text :
  ready o -> printf_buffer <> 0 -> printable fuel (o_mem o) printf_buffer 4096 fmt items args text ->
  Forall (fun c => c <> 0) (take 4095 text) -> (4096 < fuel)%nat ->
  exists wait0 o',
    (forall wait, (wait0 <= wait)%nat -> io_Printf printf_buffer _ftoa _etoa wait fuel fmt args o = Some (Z.of_nat (length text), o')) /\
    sent (serial (o_dev o')) = sent (serial (o_dev o)) ++ take 4095 text /\
    same_outside printf_buffer 4096 (o_mem o) (o_mem o') /\ o_gfx o' = set_memory (o_mem o') (o_gfx o) /\
    ready o'.
Proof using Type.
  clear OutputString font. intros Hr Hb Hpr Hn Hf. destruct (format_spec o fuel fmt items args text Hr Hb Hpr Hn) as (m & E & Hsame & Hs & Hr1).
  destruct (serial_text_spec (with_memory m o) printf_buffer (take 4095 text) fuel Hr1 Hs) as (w & d' & E' & Hse & Hr'); [rewrite length_take; lia|].
  exists w, (set_dev d' (with_memory m o)). split; [|by split_and!]. intros wait Hwait. unfold io_Printf, io_WriteConsole. rewrite E. cbn [mbind option_bind]. by rewrite E'.
Qed.

(** [printf] sends every character but NUL to the serial port; of the memory, only
    the place of the parameter of [_putchar] changes. *)
Lemma putchar_spec o c ch : ready o -> is_char ch -> exists wait0 o',
  (forall wait, (wait0 <= wait)%nat -> _putchar wait c ch o = Some o') /\ sent (serial (o_dev o')) = sent (serial (o_dev o)) ++ [ch] /\ ready o'.
Proof using Type.
  clear OutputString font _ftoa _etoa. intros [(Ep & Hok & Hop) [? ? ? ?]] Hch. set (o1 := set_gfx (set_memory (store8 (o_mem o) c ch) (o_gfx o)) o).
  destruct (send_n_ends p 1 (o_mem o1) c (o_dev o) Hop) as (w & d' & E & Hs & Hsa). exists w, (set_dev d' o1).
  split; [|split; [|split; [split; [done|split; [done|by eapply same_setup_operating]]|by split]]].
  - intros wait Hw. unfold _putchar, pic_serial_Write. fold o1. change (o_com1 o1) with (o_com1 o). rewrite Ep, Hok. cbn [Z.eqb negb]. change (Z.to_nat 1) with 1%nat. by rewrite E.
  - change (serial (o_dev (set_dev d' o1))) with (serial d'). rewrite Hs. change (Z.of_nat 1) with 1. rewrite bytes_1.
    change (o_mem o1) with (store8 (o_mem o) c ch). by rewrite load8_store8_eq, u8_small.
Qed.
Lemma puts_putchar c to maxlen text : forall o idx, ready o -> Forall is_char text -> 0 <= idx -> idx + Z.of_nat (length text) < 2 ^ 64 ->
  exists wait0 o', (forall wait, (wait0 <= wait)%nat -> puts (_out_char (_putchar wait c)) to maxlen text (idx, o) = Some (idx + Z.of_nat (length text), o')) /\
    sent (serial (o_dev o')) = sent (serial (o_dev o)) ++ filter (fun c => c <> 0) text /\ ready o'.
Proof using Type.
  clear OutputString font _ftoa _etoa. induction text as [|ch text IH]; intros o idx Hr Hch Hi Hl; cbn [puts length] in *.
  { exists O, o. split; [intros _ _; by rewrite Z.add_0_r|]. by rewrite app_nil_r. }
  apply Forall_cons in Hch as [Hc Hch]. rewrite filter_cons. cbn [put]. destruct (decide (ch <> 0)) as [Hn|Hn].
  - destruct (putchar_spec o c ch Hr Hc) as (w1 & o1 & E1 & Hs1 & Hr1). destruct (IH o1 (idx + 1) Hr1 Hch) as (w2 & o2 & E2 & Hs2 & Hr2); [lia..|].
    exists (Nat.max w1 w2), o2. split; [|split; [by rewrite Hs2, Hs1, <- app_assoc|done]].
    intros wait Hw. change (_out_char (_putchar wait c) ch to idx maxlen o) with (if negb (ch =? 0) then _putchar wait c ch o else Some o). rewrite (proj2 (Z.eqb_neq ch 0)) by done. cbn [negb]. rewrite E1 by lia. cbn [mbind option_bind]. rewrite u64_small, E2 by lia. do 2 f_equal. lia.
  - destruct (IH o (idx + 1) Hr Hch) as (w2 & o2 & E2 & Hs2 & Hr2); [lia..|]. exists w2, o2. split; [|done].
    intros wait Hw. change (_out_char (_putchar wait c) ch to idx maxlen o) with (if negb (ch =? 0) then _putchar wait c ch o else Some o). assert (ch = 0) as -> by lia. cbn [Z.eqb negb mbind option_bind]. rewrite u64_small, E2 by lia. do 2 f_equal. lia.
Qed.
Theorem printf_correct ftoa etoa o fuel c fmt items args text :
  ready o -> printable fuel (o_mem o) c 1 fmt items args text ->
  exists wait0 o', (forall wait, (wait0 <= wait)%nat -> printf ftoa etoa wait fuel c fmt args o = Some (Z.of_nat (length text), o')) /\
    sent (serial (o_dev o')) = sent (serial (o_dev o)) ++ filter (fun c => c <> 0) text /\ ready o'.
Proof using Type.
  clear OutputString font _ftoa _etoa. intros Hr Hpr. pose proof (pr_length _ _ _ _ _ _ _ _ Hpr) as Hl.
  destruct (puts_putchar c 1 SIZE_MAX text o 0 Hr) as (w & o' & E & Hs & Hr'); [by eapply printable_chars|lia|lia|].
  exists w, o'. split; [|done]. intros wait Hw. unfold printf, printf_, vprintf_, _vsnprintf. cbn [Z.eqb].
  rewrite (format_loop_printable o_mem ftoa etoa (_out_char (_putchar wait c)) 1 SIZE_MAX fuel o c 1 fmt items args text Hpr ltac:(lia)).
  - rewrite (E wait Hw). cbn [mbind option_bind]. rewrite Z.add_0_l, i32_small by lia. done.
  - intros ch idx t t' _. unfold _out_char, _putchar. destruct (negb (ch =? 0)); [|by intros [= <-]].
    destruct (pic_serial_Write _ _ _ _ _ _ _) as [d|]; cbn [mbind option_bind]; [|done]. intros [= <-]. apply same_outside_store8. lia.
Qed.

End Formats.

(** The same for a string of ASCII characters, which needs no conversion. *)
Theorem io_ErrorASCII_correct o str s fuel :
  ready o -> on_display o -> Forall (fun c => 0 <= c < 128) s -> cstr (o_mem o) str s -> (length s < fuel)%nat ->
  apart (i_data (back (o_gfx o))) (image_end (back (o_gfx o)) - i_data (back (o_gfx o))) str (Z.of_nat (length s) + 1) ->
  fits (o_gfx o) s -> mouse_room (o_gfx o) (Z.of_nat (length s)) ->
  exists wait0 o',
    (forall wait, (wait0 <= wait)%nat -> io_ErrorASCII OutputString bufferReal doublebuffer font wait fuel str o = Some o') /\
    sent (serial (o_dev o')) = sent (serial (o_dev o)) ++ s /\
    Graphics.console_Write doublebuffer font HelosGraphics_Color_White s (o_gfx o) = Some (o_gfx o') /\
    synced (o_gfx o') /\ (10 ∈ s -> shown (o_gfx o')).
Proof.
  intros Hr [[Hfb Hnz] Hsy] Hb Hs Hf Hap Hfits Hmr. destruct (serial_text_spec o str s fuel Hr Hs Hf) as (w & d' & E & Hse & _).
  destruct (write_text_spec font HelosGraphics_Color_White (ascii_at str) fuel s (o_gfx o)) as (g' & Ew & Ec & Hs' & _ & Hsh); try done.
  - apply cstr_text; [done|]. by rewrite Z.add_0_r.
  - by apply outside_ascii.
  - rewrite Hfb in *. eexists w, _. split.
    { intros wait Hwait. unfold io_ErrorASCII. rewrite E by done. cbn [mbind option_bind]. unfold __io_WriteConsoleASCII.
      change (o_gfx (set_dev d' o)) with (o_gfx o). rewrite Hfb, (proj2 (Z.eqb_neq _ 0)) by done. unfold console_WriteASCII. rewrite Ew. reflexivity. }
    split; [done|]. split; [done|]. split; [done|]. intros Hnl. by apply Hsh.
Qed.
(** Before the display is set up the converted string goes to the firmware. *)
Theorem io_Error_firmware o cs str fuel :
  let n := Z.of_nat (length cs) in let len := Z.of_nat (length (string_bytes cs)) in
  ready o -> Framebuffer (o_gfx o) = 0 -> Forall codepoint_ok cs -> cstr (o_mem o) str (string_bytes cs) -> unused o n str (len + 1) ->
  0 <= str -> 2 * (len + 1) < 2 ^ 31 -> (Z.to_nat (len + 1) < fuel)%nat ->
  (o_bufSize o < n + 1 -> al_room (free_old bufferReal (o_stdio o)).1 (2 * (n + 1))) ->
  (n + 1 <= o_bufSize o -> 2 * (n + 1) <= room (o_stdio o)) ->
  exists wait0 o',
    (forall wait, (wait0 <= wait)%nat -> io_Error OutputString bufferReal doublebuffer font wait fuel str o = Some o') /\
    sent (serial (o_dev o')) = sent (serial (o_dev o)) ++ string_bytes cs /\
    o_firmware o' = OutputString (o_firmware o) (o_mem o') (o_buffer o') /\
    units (o_mem o') (o_buffer o') (Datatypes.S (length cs)) = (u16 <$> cs) ++ [0] /\ ready o'.
Proof.
  intros n len Hr Hfb Hcs Hs (_ & Hfor & Hfit) Hstr Hlen Hf Hroom Hblk.
  destruct (serial_text_spec o str (string_bytes cs) fuel Hr Hs ltac:(lia)) as (w & d' & E & Hse & Hr').
  destruct (WriteConsoleUTF8_spec bufferReal fuel str cs (o_stdio o)) as (st' & Es & Hu & _ & _ & Hst' & _);
    [apply Hr|done|done|done|done|done|done|done|done|done|].
  eexists w, _. split.
  { intros wait Hwait. unfold io_Error. rewrite E by done. cbn [mbind option_bind]. unfold io_WriteConsoleUTF8.
    change (o_stdio (set_dev d' o)) with (o_stdio o). rewrite Es. cbn [mbind option_bind].
    change (Framebuffer (o_gfx (set_stdio st' (set_dev d' o)))) with (Framebuffer (o_gfx o)). rewrite Hfb. cbn [Z.eqb]. reflexivity. }
  split; [done|]. split; [done|]. split; [exact Hu|]. destruct Hr' as [Hp' _]. split; [exact Hp'|]. by destruct Hst'; split.
Qed.
End Sinks.

(** ** Witnesses *)

(** "h", a line break at 100; the conversion buffer at 1000; the heap from 100000
    on; the display of Display.v, whose buffers are at 4096 and 16384. *)
Definition hello : mem := store_bytes (fun _ => 0) 100 [104; 10].
Definition demo_output : output pc bump (stack * mem) nat :=
  mk_output pc_boot COM1_ok (mk_bump 100000 ∅) 512 1000 (set_memory hello tall) 0%nat.
Lemma demo_ready : ready 1000 COM1_ok demo_output.
Proof.
  split; [by split; [|split; [|apply pc_boot_operating]]|].
  split; [constructor; cbn; [lia|by intros ??; rewrite lookup_empty|by intros ????; rewrite lookup_empty]|done|done|unfold room; cbn; by rewrite lookup_empty].
Qed.
Lemma hello_pixel im x y : 4096 <= i_data im -> in_image im x y -> pixel hello im x y = 0.
Proof.
  intros Hd Hin. pose proof (image_addr_range im x y Hin). change 0 with (load32 (fun _ => 0) (image_addr im x y)).
  apply load_ext. intros a Ha. apply store_bytes_out. cbn. lia.
Qed.
Lemma demo_on_display : on_display 4096 demo_output.
Proof.
  split; [done|]. split; [|intros x y Hin; right; by rewrite !hello_pixel].
  destruct tall_synced as [[? ? ? ? ? ? [? ? ?]] _]. split; try done.
Qed.
Lemma demo_unused n a k : 0 < k -> (a + k <= 1000 \/ 2024 <= a) -> a + k <= 100000 -> 0 <= n < 512 -> unused demo_output n a k.
Proof.
  intros Hk Ha Hb Hn. split; [done|]. split.
  - intros x Hx. cbn. split; [lia|]. intros j. by rewrite lookup_empty.
  - intros _. cbn. unfold apart. lia.
Qed.
(** "h%c" at 200, "%d" and a line break at 300. *)
Definition demo_formats : mem := store_bytes (store_bytes hello 200 [104; 37; 99]) 300 [37; 100; 10].
Definition char_format : list item := [Plain 104; Directive (mk_directive [] None None Sint Cc)].
Definition number_format : list item := [Directive (mk_directive [] None None Sint Cd); Plain 10].
Definition demo_formatted : output pc bump (stack * mem) nat := with_memory demo_formats demo_output.
Lemma demo_formatted_ready : ready 1000 COM1_ok demo_formatted.
Proof. by destruct demo_ready as [? [? ? ? ?]]; split. Qed.
Lemma io_Printf_correct_witness :
  exists wait0 o', (forall wait, (wait0 <= wait)%nat -> io_Printf 60000 no_float no_float wait 5000 200 [105] demo_formatted = Some (2, o')) /\
    sent (pc_uart (o_dev o')) = [104; 105].
Proof.
  destruct (io_Printf_correct 1000 60000 COM1_ok no_float no_float demo_formatted 5000 200 char_format [105] [104; 105] demo_formatted_ready) as (w & o' & E & Hs & _).
  - lia.
  - split; [by vm_compute|vm_compute; intuition discriminate|by vm_compute|cbn; lia|by vm_compute|left; by vm_compute|constructor].
  - by repeat constructor.
  - lia.
  - exists w, o'. split; [exact E|exact Hs].
Defined.
Lemma demo_formatted_display : on_display 4096 demo_formatted.
Proof.
  destruct demo_on_display as [? Hsy]. split; [done|]. apply same_pixels_synced; [exact Hsy|]. apply (outside_pixels _ _ 200 200).
  - intros x Hx. unfold demo_formats. rewrite !store_bytes_out; [done|cbn; lia..].
  - intros im Him. right. revert im Him. by apply Forall_forall; repeat constructor.
Qed.
Lemma io_ErrorASCII_correct_witness :
  exists wait0 o', (forall wait, (wait0 <= wait)%nat -> io_ErrorASCII (fun w _ _ => S w) 1000 4096 (fun _ => 0) wait 9 100 demo_output = Some o') /\
    sent (pc_uart (o_dev o')) = [104; 10].
Proof.
  destruct (io_ErrorASCII_correct (fun w _ _ => Datatypes.S w) 1000 4096 (fun _ => 0) COM1_ok demo_output 100 [104; 10] 9 demo_ready demo_on_display)
    as (w & o' & E & Hs & _).
  - repeat constructor; by vm_compute.
  - by vm_compute.
  - cbn. lia.
  - right. by vm_compute.
  - by vm_compute.
  - split; [done|by vm_compute].
  - exists w, o'. split; [exact E|exact Hs].
Defined.
Lemma io_Error_firmware_witness :
  let o := mk_output pc_boot COM1_ok (mk_bump 100000 ∅) 512 1000 (set_memory hello (mk_graphics (S := stack * mem) (fun _ => 0) 0 0 0 0 0 0 0 (no_rects 65536, fun _ => 0) false 0 0 0 0 0 0 32768 None (0, 0))) 0%nat in
  exists wait0 o', (forall wait, (wait0 <= wait)%nat -> io_Error (fun w _ _ => S w) 1000 4096 (fun _ => 0) wait 9 100 o = Some o') /\
    o_firmware o' = 1%nat.
Proof.
  intros o. destruct (io_Error_firmware (fun w _ _ => Datatypes.S w) 1000 4096 (fun _ => 0) COM1_ok o [104; 10] 100 9)
    as (w & o' & E & _ & Hw & _).
  - split; [by split; [|split; [|apply pc_boot_operating]]|]. split; [apply demo_ready|done|done|unfold room; cbn; by rewrite lookup_empty].
  - done.
  - repeat constructor; by vm_compute.
  - by vm_compute.
  - split; [cbn; lia|]. split; [|intros _; by left]. intros x Hx. cbn in Hx |- *. split; [lia|]. intros j. by rewrite lookup_empty.
  - lia.
  - by vm_compute.
  - cbn. lia.
  - by vm_compute.
  - intros _. vm_compute. discriminate.
  - exists w, o'. split; [exact E|exact Hw].
Defined.
